(* ===== verification/_CoqProject ===== *)
-Q . S2P
Prelude.v
JsString.v
JsMap.v
NodePath.v
Paths.v
Patterns.v
Values.v
Resources.v
JsNumber.v
Json.v
Network.v
SensitivePaths.v
Registry.v
Sha256.v
Tiers.v
Entities.v
Policy.v
Environment.v
Shell.v
ToolCall.v
Regex.v
Rules.v
ToolCallRules.v
Ports.v
EvaluateToolCall.v
GrantAccess.v
NodeFileSystem.v
Artifact.v
ArtifactRules.v
ScanWorkspace.v
ScanCoverage.v
ReviewFindings.v
Notification.v
Protection.v
PersistenceRules.v
MonitorPersistence.v
Baseline.v
Installation.v
ApplyChanges.v
Integrations.v
ProtectionInstallation.v
Services.v
RunSandboxed.v
DestinationGuard.v
Bubblewrap.v
Seatbelt.v
Backends.v
Broker.v
Watch.v
WindowsPaths.v
WindowsPolicy.v
WindowsConfinement.v
WindowsRequest.v
WindowsRunner.v
Stores.v
StateFiles.v
AuditLog.v
Configuration.v
ManagedArtifacts.v
ManagedInstallation.v
ManagedLifecycle.v
ProtectionArtifacts.v
ProtectionPlan.v
Controllers.v
Hook.v
CommandLine.v
