(* ===== verification/Prelude.v ===== *)
(** * agentkeeper: a verification development

    agentkeeper confines a coding agent. A policy says what the process of the agent may
    touch, a back end of the operating system enforces it, rules judge the agent's tool
    calls, the files of a repository and changes outside it, and an installer puts the
    product in front of the agent and takes it away again. The sources are TypeScript, under
    src/src; the paths below are relative to it.

    ** Reading guide

    A file models one part of the program and opens with the sources it translates. Inside,
    a Module stands for a class or a source file and has the operations under their own
    names ([of_], [decide_] and the like where a name is taken); the record of the class is
    the record of the module. A stateful operation is a function from the world to the new
    world and a [result]; a promise that rejects and an exception are an [Err] ([M], [mseq]
    and [let*] below). Definitions come first, the laws of a part after them, then its
    theorems and concrete runs (modules named [Sample...], [Memory...]).

    *** Platform: what the language and Node give
    - Prelude: exceptions, [result], the state-and-error monad, lists.
    - JsString, JsMap, JsNumber, Json, Regex, NodePath: strings of code units, [Map] in the
      order of insertion, [Number], [JSON.parse] and [JSON.stringify], regular expressions
      decided by the positions where a match can end, [node:path].
    - Sha256: an executable instance of the class [Digest].

    *** Domain (domain/)
    - Paths, Patterns, Values, Resources, Network: the value objects. A path is the list of
      its segments; a glob pattern decides its declarative meaning.
    - SensitivePaths, Registry, Tiers: the rows of sensitive paths and the resolver that
      turns a path into a tier and a disposition.
    - Entities, Policy, Environment: grants, findings, the sandbox policy and its builder,
      the variables that may cross.
    - Shell, ToolCall, Rules, ToolCallRules, Artifact, ArtifactRules, PersistenceRules:
      what the rules look at, and every rule.
    - Notification, Protection: the budget of interruptions and the status of protection.

    *** Application (application/)
    - Ports: the interfaces, as records of operations over an abstract world.
    - EvaluateToolCall, GrantAccess, ScanWorkspace with ScanCoverage, ReviewFindings,
      MonitorPersistence, RunSandboxed, Installation, ApplyChanges, ProtectionInstallation:
      one use case each. Services: the worker pool, the serial log and the single-flight
      scheduler.

    *** Infrastructure (infrastructure/) and presentation (presentation/)
    - NodeFileSystem: the walk over a directory. DestinationGuard, Broker: the decision of
      the broker on a destination, and one connection of it from the bytes of the client to
      the tunnel. Bubblewrap, Seatbelt, Backends: the compilers of a policy and the runners.
    - WindowsPaths, WindowsPolicy, WindowsConfinement: the back end of Windows: the policy as
      explicit capabilities, the scan behind its read refusals, the assessment of the host.
      WindowsRequest, WindowsRunner: the bytes given to the native helper, and the run.
    - Stores, StateFiles, AuditLog, Configuration: the files of the state directory.
    - ManagedArtifacts, ManagedInstallation, ManagedLifecycle: the plans of activation,
      repair and deactivation, and what carrying them out does to the files.
      ProtectionArtifacts, ProtectionPlan: the watcher, the git hooks and their health.
      Integrations: the earlier integrations behind ApplyChanges. Controllers: launchd,
      systemd, the task scheduler and git behind the ports of ProtectionInstallation.
    - Baseline: the snapshot of the watched locations that MonitorPersistence compares.
      Watch: the watchers of those locations and what they report of their coverage.
    - Hook, CommandLine: the hook before a tool call, and the commands.

    ** How the parts meet

    A client is proved against a class that states what it relies on, and the class has an
    instance, so that no hypothesis is empty: [Digest] (node:crypto; Sha256), [JsDate] (the
    clock's calendar), [Engine] (the texts of the engine's own errors), [FileLaws] and
    [ReliableFiles] (reading back what was written; an in-memory disk), [StatLaws],
    [ArchiveLaws] (the calls of node:fs under the audit log), [GrantStoreLaws] (kept by
    JsonGrantStore, Stores), [ScanLaws], [MonitorLaws], [LaunchLaws] (the back end), [TreeLaws] and
    [RunnerLaws] (the listing of a tree and the native helper of Windows),
    [ExecutorLaws] (what the coordinator of ProtectionInstallation asks of a file executor;
    the transactional executor of Installation is the instance), [ExternalLaws] (what the
    service manager and git are seen to do; in-memory machines, and the systemd and git
    controllers of a sample machine), [ObservationLaws] and [LookingLaws] (looking changes
    nothing, and a listing is the walk of NodeFileSystem), [NetworkLaws] (the resolver and the
    dialler of the broker note what they are asked and what they answer), [HostLaws] and [GitLaws] (the runner of processes, and git's documentation),
    [WatchLaws] (a tree that can be watched), [WorkspaceExpressions] (the expressions of a Seatbelt profile).
    The hook composes Configuration, ToolCall, ToolCallRules and EvaluateToolCall; the
    lifecycle composes the planner with the executor; launch_confined composes the policy
    builder, the arguments of bubblewrap and the runner; hook, run and scan share the
    registry and the resolver.

    ** What the theorems show

    - Confinement: a tier-2 path is in a policy only by a manual grant; what the policy
      refuses is not there in the mount namespace bubblewrap is asked for, and is refused by
      the Seatbelt profile, and is barred from a Windows profile; a run launches nothing the
      back end cannot enforce; the broker resolves no name a rule does not admit, dials only
      an address of that very answer when all of them pass the guard, and a tunnel leads
      there; the guard refuses every special-purpose block but three of IPv6 that are listed.
    - Judgement: the hook refuses a call whose paths can be read and name a tier-2 path
      whatever the settings say, always ends, and breaks a call of its own only in strict
      mode; the scan reaches every file a rule asks
      for but for the cases that are listed; the snapshot of the daemon holds exactly the
      readable files that the listing of the rows it watches shows, and the handlers of a
      watch session that reports protection hand every event about its targets on; a finding is silenced only by its own
      decision; a change of the system is trusted only as the decisions allow.
    - Installation: a plan is carried out whole or not at all; a deactivation gives every
      file its content back (file modes are not in the model); a repair by the build that
      installed writes only what the manifest records; no byte of the user is
      lost; a healthy report means everything is in place; the shell functions are taken out
      of a profile as they were put in, but for a final line break that is added.
    - Windows: the request reads back as what was written, and no part or extension of it does; the walk lists
      a tree exactly or fails; a run returns by the report of the helper only, and
      removes its private directory last.
    - Storage: the grant store behaves as the list of its grants; the audit log stays within
      its bounds without losing live evidence, and its maintenance ends; a pause and the
      configuration relax nothing unless they are well formed.
    - Equivalence, order and ends: glob patterns, the two verbs that grant, the pool of
      workers; the walk over the process tree and the scheduler end and lose nothing.
    - Host: the controllers look before they act, run exactly the commands of the action asked
      for, and read and write git's hooks path exactly.

    Where the code does not do what it says, an [Example] or a theorem beside the
    definitions shows it on a concrete input, and the comment there names the lines.

    ** Bounds and fuel

    The functions that are not structural take fuel, and each has a lemma that its fuel is
    enough: [JSON.parse] and the parser of spans (the length of the text), the search over
    the process tree ([descendants_exact]), the maintenance of the audit log
    ([maintain_terminates]), the walk of a glob over the segments, the wait for launchd
    ([release_ends]), the tree and the ancestors of a watched path ([coverage_honest]: the
    directories above one are all registered, hence at most as many as the limit). Integers that the sources
    keep in a width are [Z] with the bound written out (the 53 bits of a safe integer, the
    32-bit words of SHA-256, the 32-bit words of the Windows request).

    ** Readings

    - A string holds code units below 256. A text with a code unit above that is outside
      the model: JSON escapes of such a character do not parse, and the marks the terminal
      shows are parameters.
    - [Promise.all] over independent reads and queues of promises run in their order. Where
      the order of turns matters, in Services, the program is a machine whose steps are the
      turns of the event loop and the theorems quantify over every run.
    - A double is an integer or an exact fraction ([JsNumber]); a date is its milliseconds.
    - What bubblewrap does with its arguments, Seatbelt with its clauses, systemd, launchd,
      a shell or Windows with a quoted word are readings of their documentation, given as
      definitions beside the theorems that use them.

    ** Not modelled, and why

    - The sockets of the broker with their timers and counters, the relay it writes for
      the launcher, NodeNetworkProbe, the spawning of processes with its signal handlers, the
      deny canary (NodeSandboxProbe): they are calls of the operating system, and the runners, the probe and the broker are
      ports of the modelled use cases.
    - The process runner behind the controllers. The controllers of a small Linux machine
      keep [ExternalLaws], the contract the executor is proved against (Controllers,
      SampleLinux), and the planner, the executors and the controllers are run together
      there: systemd reports a unit as soon as its file is written, so a first activation is
      refused and taken back.
    - The loop of the daemon: timers around the scheduler of Services, the watchers of Watch,
      the snapshot of Baseline and the monitor of MonitorPersistence.
    - ProfileLoader (a YAML parser that is a dependency), the container's wiring beyond the
      scanner and the state directory, and the commands that only print what a modelled use case returns.
    - On Windows, the native helper, which is not TypeScript, its spawning with the timer,
      and the place of the helper beside the module. Confinement is proved for paths on
      drives; the native deny of a path is read as a refusal of what is at or below it. *)

From Stdlib Require Export Ascii.
From stdpp Require Export base list strings gmap sorting.

#[global] Arguments String.append !_ _ : simpl nomatch.

#[global] Open Scope Z_scope.
#[global] Open Scope string_scope.
#[global] Open Scope list_scope.
#[global] Open Scope nat_scope.
#[global] Open Scope stdpp_scope.

Declare Scope js_scope.
Delimit Scope js_scope with js.

(** ** Exceptions and fallible computations

    Every class of error the modelled code throws, with the fields a handler can
    observe. A plain [new Error(message)] is [JsError message]. *)

Inductive exn : Type :=
| JsError (message : string)
| UnsafeWorkspaceError (workspace swallowed sourceId : string)
| UnenforceablePolicyError (mechanism reason : string) (gaps : list string)
| InstallationPlanConflictError (message : string)
| InstallationConcurrentChangeError (message : string)
| ProtectionInstallationConflictError (message : string)
| SystemIntegrationConcurrentChangeError (message : string)
| FileSystemAccessError (operation path : string) (error_code : option string)
| WindowsPolicyDiscoveryError (message : string)
| WindowsSandboxBackendError (code message : string)
| AggregateError (errors : list exn) (message : string).

Fixpoint exn_dec (x y : exn) {struct x} : {x = y} + {x ≠ y}.
Proof.
  decide equality;
    first [apply String.string_dec|apply option_eq_dec|apply List.list_eq_dec; exact String.string_dec|apply List.list_eq_dec; exact exn_dec].
Defined.
#[global] Instance exn_eq_dec : EqDecision exn := exn_dec.

Inductive result (A : Type) : Type :=
| Ok (a : A)
| Err (e : exn).
Arguments Ok {A} a.
Arguments Err {A} e.

#[global] Instance result_eq_dec {A} `{!EqDecision A} : EqDecision (result A).
Proof. solve_decision. Defined.

Abbreviation throw message := (Err (JsError message)).

Definition rbind {A B} (m : result A) (f : A → result B) : result B :=
  match m with Ok a => f a | Err e => Err e end.

Definition rmap {A B} (f : A → B) (m : result A) : result B :=
  match m with Ok a => Ok (f a) | Err e => Err e end.

(** [try { Some m } catch { null }]. *)
Definition catch_null {A} (m : result A) : option A :=
  match m with Ok a => Some a | Err _ => None end.

Notation "'let!' x ':=' m 'in' k" := (rbind m (λ x, k))
  (at level 10, x pattern, m at level 100, k at level 200) : js_scope.
#[global] Open Scope js_scope.

(** [items.map(f)] where [f] may throw: the first throw wins. *)
Fixpoint rmapM {A B} (f : A → result B) (l : list A) : result (list B) :=
  match l with
  | [] => Ok []
  | x :: r => let! y := f x in let! ys := rmapM f r in Ok (y :: ys)
  end.

(** [items.filter(f)] where [f] may throw. *)
Fixpoint rfilter {A} (f : A → result bool) (l : list A) : result (list A) :=
  match l with
  | [] => Ok []
  | x :: r => let! b := f x in let! ys := rfilter f r in Ok (if b then x :: ys else ys)
  end.

(** ** Tactics *)

(** Takes a hypothesis [rbind .. = Ok _] or an equation between results apart. *)
Ltac res_step :=
  match goal with
  | H : Ok _ = Ok _ |- _ => injection H as H; try subst
  | H : Err _ = Err _ |- _ => injection H as H; try subst
  | H : Ok _ = Err _ |- _ => discriminate H
  | H : Err _ = Ok _ |- _ => discriminate H
  | H : rbind ?m _ = _ |- _ =>
      let E := fresh "E" in destruct m eqn:E; cbn [rbind] in H
  | H : rmap _ ?m = _ |- _ =>
      let E := fresh "E" in destruct m eqn:E; cbn [rmap] in H
  end.
Ltac res_inv := repeat res_step.

(** Turns boolean connectives into propositional ones, everywhere. *)
Ltac bool_prop :=
  repeat match goal with
  | H : _ && _ = true |- _ => apply andb_true_iff in H; destruct H
  | H : _ || _ = false |- _ => apply orb_false_iff in H; destruct H
  | H : _ || _ = true |- _ => apply orb_true_iff in H
  | H : _ && _ = false |- _ => apply andb_false_iff in H
  | H : negb _ = true |- _ => apply negb_true_iff in H
  | H : negb _ = false |- _ => apply negb_false_iff in H
  | H : (_ =? _)%string = true |- _ => apply String.eqb_eq in H
  | H : (_ =? _)%string = false |- _ => apply String.eqb_neq in H
  | H : (_ =? _)%nat = true |- _ => apply Nat.eqb_eq in H
  | H : (_ =? _)%nat = false |- _ => apply Nat.eqb_neq in H
  | H : (_ <=? _)%nat = true |- _ => apply Nat.leb_le in H
  | H : (_ <=? _)%nat = false |- _ => apply Nat.leb_gt in H
  | H : (_ <? _)%nat = true |- _ => apply Nat.ltb_lt in H
  | H : (_ <? _)%nat = false |- _ => apply Nat.ltb_ge in H
  | H : (_ =? _)%Z = true |- _ => apply Z.eqb_eq in H
  | H : (_ =? _)%Z = false |- _ => apply Z.eqb_neq in H
  | H : (_ <=? _)%Z = true |- _ => apply Z.leb_le in H
  | H : (_ <=? _)%Z = false |- _ => apply Z.leb_gt in H
  | H : (_ <? _)%Z = true |- _ => apply Z.ltb_lt in H
  | H : (_ <? _)%Z = false |- _ => apply Z.ltb_ge in H
  end.

(** Case analysis on the scrutinee of the first conditional of the goal. *)
Ltac case_if :=
  match goal with
  | |- context [if ?b then _ else _] => destruct b eqn:?
  end.

Create HintDb agentkeeper discriminated.
#[export] Hint Constants Opaque : agentkeeper.
#[export] Hint Variables Opaque : agentkeeper.

(** ** Lists with boolean tests

    JavaScript's [some], [every], [find] and [filter] take a predicate that
    returns a boolean, so the standard library's boolean versions are used. *)

Abbreviation some := existsb.
Abbreviation every := forallb.
Abbreviation find := List.find.
Abbreviation bfilter := List.filter.

(** [Array.prototype.includes] on strings. *)
Definition str_includes (l : list string) (x : string) : bool :=
  some (String.eqb x) l.

Lemma some_true {A} (f : A → bool) l : some f l = true ↔ ∃ x, x ∈ l ∧ f x = true.
Proof.
  rewrite existsb_exists. by setoid_rewrite list_elem_of_In.
Qed.

Lemma some_false {A} (f : A → bool) l : some f l = false ↔ ∀ x, x ∈ l → f x = false.
Proof.
  rewrite <-not_true_iff_false, some_true. split.
  - intros H x Hx. apply not_true_iff_false. intros Hf. eauto.
  - intros H (x & Hx & Hf). by rewrite H in Hf.
Qed.

Lemma every_true {A} (f : A → bool) l : every f l = true ↔ ∀ x, x ∈ l → f x = true.
Proof.
  rewrite forallb_forall. by setoid_rewrite list_elem_of_In.
Qed.

Lemma str_includes_true l x : str_includes l x = true ↔ x ∈ l.
Proof.
  unfold str_includes. rewrite some_true. split.
  - intros (y & Hy & E). by apply String.eqb_eq in E as ->.
  - intros Hx. exists x. by rewrite String.eqb_refl.
Qed.

Lemma elem_of_bfilter {A} (f : A → bool) l x : x ∈ bfilter f l ↔ x ∈ l ∧ f x = true.
Proof. by rewrite !list_elem_of_In, filter_In. Qed.

Lemma find_app {A} (f : A → bool) l k :
  find f (l ++ k) = match find f l with Some x => Some x | None => find f k end.
Proof. induction l as [|x l IH]; simpl; [done|]. by case_if. Qed.

Lemma find_some_iff {A} (f : A → bool) l :
  (∃ x, find f l = Some x) ↔ some f l = true.
Proof.
  split.
  - intros [x [Hin Hf]%find_some]. apply some_true. exists x. by rewrite list_elem_of_In.
  - intros (x & Hx & Hf)%some_true. destruct (find f l) as [y|] eqn:E; [eauto|].
    apply list_elem_of_In in Hx. by rewrite (find_none f l E x Hx) in Hf.
Qed.

Lemma find_none_iff {A} (f : A → bool) l : find f l = None ↔ some f l = false.
Proof.
  destruct (find f l) eqn:E, (some f l) eqn:E'; try done.
  - apply not_true_iff_false in E'. destruct E'. apply find_some_iff. eauto.
  - apply find_some_iff in E' as [y Hy]. congruence.
Qed.

Lemma find_spec {A} (f : A → bool) l x : find f l = Some x → x ∈ l ∧ f x = true.
Proof. intros [? ?]%find_some. by rewrite list_elem_of_In. Qed.

Lemma bfilter_all {A} (f : A → bool) l : (∀ x, x ∈ l → f x = true) → bfilter f l = l.
Proof.
  induction l as [|x l IH]; intros H; [done|]; simpl.
  rewrite H by set_solver. f_equal. apply IH. set_solver.
Qed.

#[global] Instance bfilter_perm {A} (f : A → bool) : Proper ((≡ₚ) ==> (≡ₚ)) (bfilter f).
Proof.
  induction 1; simpl; [done| | |by etrans].
  - by case_if; [constructor|].
  - repeat case_if; try done. constructor.
Qed.

Lemma bfilter_NoDup {A} (f : A → bool) l : NoDup l → NoDup (bfilter f l).
Proof.
  induction 1 as [|x l Hx Hl IH]; simpl; [constructor|]. case_if; [|done].
  constructor; [|done]. by intros [? _]%elem_of_bfilter.
Qed.

Lemma bfilter_sorted {A} (R : relation A) (f : A → bool) l :
  StronglySorted R l → StronglySorted R (bfilter f l).
Proof.
  induction 1 as [|x l Hl IH Hx]; simpl; [constructor|]. case_if; [|done].
  constructor; [done|]. rewrite Forall_forall in *. intros y [? _]%elem_of_bfilter. by apply Hx.
Qed.

(** A list splits into what passes a test and what does not. *)
Lemma bfilter_partition {A} (f : A → bool) l :
  length (bfilter f l) + length (bfilter (λ x, negb (f x)) l) = length l.
Proof. induction l as [|x l IH]; simpl; [done|]. destruct (f x); simpl; lia. Qed.

Lemma Ok_inj {A} (x y : A) : Ok x = Ok y → x = y.
Proof. congruence. Qed.
Lemma elem_of_concat {A} (x : A) (ls : list (list A)) : x ∈ concat ls ↔ ∃ l, x ∈ l ∧ l ∈ ls.
Proof.
  rewrite list_elem_of_In, in_concat. setoid_rewrite list_elem_of_In. naive_solver.
Qed.
Lemma rmapM_Ok {A B} (f : A → result B) l r :
  rmapM f l = Ok r ↔ Forall2 (λ x y, f x = Ok y) l r.
Proof.
  revert r. induction l as [|x l IH]; intros r; simpl.
  - split; [intros [= <-]; constructor | by inversion 1].
  - split.
    + intros H. res_inv. constructor; [done|]. by apply IH.
    + intros H. inv H. rewrite H2. simpl. rewrite (proj2 (IH _) H4). done.
Qed.

Lemma rmapM_not_Err {A B} (f : A → result B) l e :
  (∀ x, x ∈ l → ∃ y, f x = Ok y) → rmapM f l ≠ Err e.
Proof.
  induction l as [|x l IH]; intros H; simpl; [done|].
  destruct (H x) as [y ->]; [by left|]. simpl.
  destruct (rmapM f l); simpl; [done|]. apply IH. intros z Hz. apply H. by right.
Qed.

(** ** [Array.prototype.sort]: the stable insertion of a boolean order *)

Section sort_by.
Context {A : Type} (le : A → A → bool).

Fixpoint insert_by (x : A) (l : list A) : list A :=
  match l with
  | [] => [x]
  | y :: r => if le x y then x :: y :: r else y :: insert_by x r
  end.

Fixpoint sort_by (l : list A) : list A :=
  match l with
  | [] => []
  | x :: r => insert_by x (sort_by r)
  end.

Lemma insert_by_perm x l : insert_by x l ≡ₚ x :: l.
Proof.
  induction l as [|y r IH]; simpl; [done|]. case_if; [done|].
  rewrite IH. constructor.
Qed.

Lemma sort_by_perm l : sort_by l ≡ₚ l.
Proof. induction l as [|x r IH]; simpl; [done|]. by rewrite insert_by_perm, IH. Qed.

Definition le_rel (x y : A) : Prop := le x y = true.

Hypothesis le_total : ∀ x y, le x y = true ∨ le y x = true.
Hypothesis le_trans : ∀ x y z, le x y = true → le y z = true → le x z = true.

Lemma insert_by_sorted x l : StronglySorted le_rel l → StronglySorted le_rel (insert_by x l).
Proof.
  induction 1 as [|y r Hr IH Hy]; simpl; [repeat constructor|]. case_if.
  - constructor; [by constructor|]. constructor; [done|].
    eapply Forall_impl; [exact Hy|]. intros z Hz. by eapply le_trans.
  - constructor; [done|]. rewrite insert_by_perm. constructor; [|done].
    unfold le_rel. destruct (le_total x y); congruence.
Qed.

Lemma sort_by_sorted l : StronglySorted le_rel (sort_by l).
Proof. induction l; simpl; [constructor|]. by apply insert_by_sorted. Qed.

(** Elements the order does not separate keep their relative order. *)
Lemma insert_by_filter x l (P : A → bool) :
  (∀ a b, P a = true → P b = true → le a b = true) →
  bfilter P (insert_by x l) = bfilter P (x :: l).
Proof.
  intros HP. induction l as [|y r IH]; simpl; [done|]. case_if; [done|].
  simpl. rewrite IH. simpl. destruct (P x) eqn:Px, (P y) eqn:Py; try done.
  rewrite (HP x y) in *; done.
Qed.

Lemma sort_by_stable l (P : A → bool) :
  (∀ a b, P a = true → P b = true → le a b = true) →
  bfilter P (sort_by l) = bfilter P l.
Proof.
  intros HP. induction l as [|x r IH]; simpl; [done|].
  rewrite insert_by_filter by done. simpl. by rewrite IH.
Qed.

Lemma sort_by_id l : StronglySorted le_rel l → sort_by l = l.
Proof.
  induction 1 as [|x r Hr IH Hx]; simpl; [done|]. rewrite IH.
  destruct r as [|y r]; simpl; [done|]. by inv Hx; rewrite H1.
Qed.
End sort_by.

(** Sorting strings with the default comparator: UTF-16 code units, which for the
    code units of the model is the lexicographic order of their numbers. *)
Definition sort_strings : list string → list string := sort_by String.leb.

Lemma leb_trans x y z : String.leb x y = true → String.leb y z = true → String.leb x z = true.
Proof.
  intros H1 H2. apply Is_true_true. apply Is_true_true in H1, H2.
  by etrans; [exact H1|]. 
Qed.

Lemma leb_antisym x y : String.leb x y = true → String.leb y x = true → x = y.
Proof.
  intros H1 H2. apply Is_true_true in H1, H2. by apply (anti_symm String.le).
Qed.

Lemma sort_strings_sorted l : StronglySorted (le_rel String.leb) (sort_strings l).
Proof. apply sort_by_sorted; [apply String.leb_total|apply leb_trans]. Qed.

(** The order of the input does not matter. *)
#[global] Instance sort_strings_proper : Proper ((≡ₚ) ==> (=)) sort_strings.
Proof.
  intros l k Hp. apply (StronglySorted_unique_strong (le_rel String.leb)).
  - intros x y _ _. apply leb_antisym.
  - apply sort_strings_sorted.
  - apply sort_strings_sorted.
  - unfold sort_strings. by rewrite !sort_by_perm.
Qed.

Lemma sort_strings_perm l : sort_strings l ≡ₚ l.
Proof. apply sort_by_perm. Qed.

(** ** Stateful computations that may throw

    A method of an object with a mutable field is a function from the state to the
    new state and a result: a throw keeps the changes made before it. *)

Definition M (S A : Type) : Type := S → S * result A.

Definition mok {S A} (a : A) : M S A := λ s, (s, Ok a).
Definition mlift {S A} (r : result A) : M S A := λ s, (s, r).
Definition mget {S} : M S S := λ s, (s, Ok s).
Definition mput {S} (s' : S) : M S unit := λ _, (s', Ok tt).
Definition mseq {S A B} (m : M S A) (f : A → M S B) : M S B :=
  λ s, match m s with
       | (s', Ok a) => f a s'
       | (s', Err e) => (s', Err e)
       end.
Notation "'let*' x ':=' m 'in' k" := (mseq m (λ x, k))
  (at level 10, x pattern, m at level 100, k at level 200) : js_scope.

(** [try { m } catch (error) { throw f(error) }] *)
Definition map_error {S A} (f : exn → exn) (m : M S A) : M S A := λ s,
  match m s with
  | (s', Ok a) => (s', Ok a)
  | (s', Err e) => (s', Err (f e))
  end.

(** Local variables of a method beside the world: a step of either. *)
Definition in_world {L W A} (m : M W A) : M (L * W) A := λ s, ((s.1, (m s.2).1), (m s.2).2).
Definition in_local {L W A} (f : L → L * A) : M (L * W) A := λ s, (((f s.1).1, s.2), Ok (f s.1).2).

(** [for (const x of items) acc = step(acc, x)]. *)
Fixpoint mfold {S A B} (f : B → A → M S B) (acc : B) (l : list A) : M S B :=
  match l with
  | [] => mok acc
  | x :: r => let* acc' := f acc x in mfold f acc' r
  end.

(** [items.map(f)] one after the other. *)
Fixpoint mmapM {S A B} (f : A → M S B) (l : list A) : M S (list B) :=
  match l with
  | [] => mok []
  | x :: r => let* y := f x in let* ys := mmapM f r in mok (y :: ys)
  end.

(** A sequence that returns, taken apart. *)
Lemma mseq_Ok {S A B} (x : M S A) (f : A → M S B) s s' b : mseq x f s = (s', Ok b) → ∃ s1 a, x s = (s1, Ok a) ∧ f a s1 = (s', Ok b).
Proof. unfold mseq. destruct (x s) as [s1 [a|]]; [|done]. intros E. by exists s1, a. Qed.
Lemma mok_Ok {S A} (a b : A) (s s' : S) : mok a s = (s', Ok b) → s' = s ∧ b = a.
Proof. by intros [= <- <-]. Qed.

(** [yields I m Q]: [m] keeps the invariant [I] of the state, whether or not it
    throws, and a value it returns satisfies [Q]. *)
Section yields.
Context {S : Type} (I : S → Prop).

Definition yields {A} (m : M S A) (Q : A → Prop) : Prop :=
  ∀ s, I s → I (m s).1 ∧ ∀ a, (m s).2 = Ok a → Q a.

Lemma yields_ok {A} (a : A) (Q : A → Prop) : Q a → yields (mok a) Q.
Proof. intros Ha s Hs. split; [done|]. by intros ? [= <-]. Qed.

Lemma yields_lift {A} (r : result A) (Q : A → Prop) : (∀ a, r = Ok a → Q a) → yields (mlift r) Q.
Proof. intros Ha s Hs. by split. Qed.

Lemma yields_seq {A B} (m : M S A) (f : A → M S B) P Q :
  yields m P → (∀ a, P a → yields (f a) Q) → yields (mseq m f) Q.
Proof.
  intros Hm Hf s Hs. specialize (Hm s Hs) as [HI HP]. unfold mseq.
  destruct (m s) as [s' [a|e]]; simpl in *; [apply Hf; auto|by split].
Qed.

Lemma yields_mono {A} (m : M S A) (P Q : A → Prop) :
  yields m P → (∀ a, P a → Q a) → yields m Q.
Proof. intros Hm H s Hs. destruct (Hm s Hs). split; eauto. Qed.

Lemma yields_map_error {A} f (m : M S A) Q : yields m Q → yields (map_error f m) Q.
Proof.
  intros Hm s Hs. destruct (Hm s Hs) as [H1 H2]. unfold map_error.
  destruct (m s) as [s' [a|e]]; simpl in *; [done|by split].
Qed.

(** A loop keeps an invariant of its accumulator over the items done so far. *)
Lemma yields_fold {A B} (f : B → A → M S B) (l : list A) (J : list A → B → Prop) :
  (∀ done_ x acc, x ∈ l → J done_ acc → yields (f acc x) (J (done_ ++ [x]))) →
  ∀ acc, J [] acc → yields (mfold f acc l) (J l).
Proof.
  intros Hf. cut (∀ rest done_ acc, l = done_ ++ rest → J done_ acc → yields (mfold f acc rest) (J l)).
  { intros H acc. by apply H. }
  induction rest as [|x r IH]; intros d acc -> Hacc; simpl.
  - rewrite app_nil_r in *. by apply yields_ok.
  - eapply yields_seq; [apply Hf; [set_solver|exact Hacc]|].
    intros acc' H'. apply (IH (d ++ [x])); [by rewrite <-app_assoc|done].
Qed.
End yields.

Lemma yields_mmapM {S A B} (I : S → Prop) (f : A → M S B) (R : A → B → Prop) l :
  (∀ x, x ∈ l → yields I (f x) (R x)) → yields I (mmapM f l) (Forall2 R l).
Proof.
  induction l as [|x l IH]; intros H; simpl; [by apply yields_ok|].
  eapply yields_seq; [apply H; by left|]. intros y Hy.
  eapply yields_seq; [apply IH; intros z Hz; apply H; by right|]. intros ys Hys. apply yields_ok. by constructor.
Qed.

(** Invariants of the world, under a run that also has variables of its own. *)
Lemma yields_world {L W A} (I : W → Prop) (m : M W A) (Q : A → Prop) :
  yields I m Q → yields (λ s : L * W, I s.2) (in_world m) Q.
Proof. intros H s Hs. by apply H. Qed.
Lemma yields_local {L W A} (I : W → Prop) (f : L → L * A) :
  yields (λ s : L * W, I s.2) (in_local f) (λ _, True).
Proof. intros s Hs. by split. Qed.
