(* ===== verification/JsString.v ===== *)
(** * JavaScript strings

    A string is a sequence of code units below 256: the type [string] of the
    standard library, one [ascii] per code unit. On those code units the operations
    below are ECMAScript's: [trim] and [\s] know the Latin-1 white space, and
    [toLowerCase]/[toUpperCase] the Latin-1 letters (the two whose upper case is
    not Latin-1, U+00B5 and U+00FF, are left alone: the sources compare an
    upper-cased string with ASCII names only). *)

From S2P Require Import Prelude.

Definition code (c : ascii) : nat := nat_of_ascii c.
Definition chr (n : nat) : ascii := ascii_of_nat n.
Abbreviation slen := String.length.

Definition in_range (lo hi : nat) (c : ascii) : bool := (lo <=? code c) && (code c <=? hi).
Definition is_digit (c : ascii) : bool := in_range 48 57 c.
Definition is_upper (c : ascii) : bool := in_range 65 90 c.
Definition is_lower (c : ascii) : bool := in_range 97 122 c.
Definition is_hex_lower (c : ascii) : bool := is_digit c || in_range 97 102 c.
(** [\w] *)
Definition is_word (c : ascii) : bool :=
  is_digit c || is_upper c || is_lower c || (code c =? 95).
(** [\s], and what [trim] removes. *)
Definition is_space (c : ascii) : bool :=
  in_range 9 13 c || (code c =? 32) || (code c =? 160).

Definition lower (c : ascii) : ascii :=
  if is_upper c || (in_range 192 222 c && negb (code c =? 215)) then chr (code c + 32) else c.
Definition upper (c : ascii) : string :=
  if is_lower c || (in_range 224 254 c && negb (code c =? 247)) then String (chr (code c - 32)) ""
  else if code c =? 223 then "SS" else String c "".

Fixpoint smap (f : ascii → ascii) (s : string) : string :=
  match s with "" => "" | String c r => String (f c) (smap f r) end.
Fixpoint sforall (p : ascii → bool) (s : string) : bool :=
  match s with "" => true | String c r => p c && sforall p r end.
Fixpoint sexists (p : ascii → bool) (s : string) : bool :=
  match s with "" => false | String c r => p c || sexists p r end.

Definition toLowerCase : string → string := smap lower.
Fixpoint toUpperCase (s : string) : string :=
  match s with "" => "" | String c r => upper c +:+ toUpperCase r end.

(** ** Slices *)

(** [s.slice(n)] for [n >= 0]. *)
Fixpoint sdrop (n : nat) (s : string) : string :=
  match n, s with
  | O, _ => s
  | S _, "" => ""
  | S m, String _ r => sdrop m r
  end.
(** [s.slice(0, n)] for [n >= 0]. *)
Fixpoint stake (n : nat) (s : string) : string :=
  match n, s with
  | O, _ => ""
  | S _, "" => ""
  | S m, String c r => String c (stake m r)
  end.

Fixpoint srev_app (s acc : string) : string :=
  match s with "" => acc | String c r => srev_app r (String c acc) end.
Definition srev (s : string) : string := srev_app s "".

Fixpoint skip_while (p : ascii → bool) (s : string) : string :=
  match s with String c r => if p c then skip_while p r else s | "" => "" end.
Fixpoint take_while (p : ascii → bool) (s : string) : string :=
  match s with String c r => if p c then String c (take_while p r) else "" | "" => "" end.
(** Drops the longest suffix of characters satisfying [p]: [replace(/[p]+$/, '')]. *)
Fixpoint drop_end_while (p : ascii → bool) (s : string) : string :=
  match s with
  | "" => ""
  | String c r => match drop_end_while p r with
                  | "" => if p c then "" else String c ""
                  | r' => String c r'
                  end
  end.

Definition trim (s : string) : string := drop_end_while is_space (skip_while is_space s).

Fixpoint last_char (s : string) : option ascii :=
  match s with
  | "" => None
  | String c "" => Some c
  | String _ r => last_char r
  end.

(** ** Searching *)

Definition startsWith (s p : string) : bool := String.prefix p s.
Definition endsWith (s p : string) : bool :=
  (slen p <=? slen s) && (sdrop (slen s - slen p) s =? p)%string.

Fixpoint indexOf (s p : string) : option nat :=
  if String.prefix p s then Some 0
  else match s with
       | "" => None
       | String _ r => S <$> indexOf r p
       end.
(** [s.indexOf(p, from)] *)
Definition indexOf_from (s p : string) (from : nat) : option nat :=
  (λ i, from + i) <$> indexOf (sdrop from s) p.
Definition includes (s p : string) : bool :=
  match indexOf s p with Some _ => true | None => false end.
Fixpoint lastIndexOf (s p : string) : option nat :=
  match s with
  | "" => if String.prefix p s then Some 0 else None
  | String _ r => match lastIndexOf r p with
                  | Some i => Some (S i)
                  | None => if String.prefix p s then Some 0 else None
                  end
  end.

(** ** Splitting and joining *)

(** [s.split(c)] for a one-character separator: never empty. *)
Fixpoint split (c : ascii) (s : string) : list string :=
  match s with
  | "" => [""]
  | String x r =>
      if Ascii.eqb x c then "" :: split c r
      else match split c r with
           | [] => [String x ""]
           | w :: ws => String x w :: ws
           end
  end.

(** [l.join(sep)] *)
Fixpoint join (sep : string) (l : list string) : string :=
  match l with
  | [] => ""
  | [x] => x
  | x :: r => x +:+ sep +:+ join sep r
  end.

Definition replace_char (a b : ascii) : string → string :=
  smap (λ c, if Ascii.eqb c a then b else c).

Definition slash : ascii := "/"%char.
Definition backslash : ascii := chr 92.
Definition colon : ascii := ":"%char.
Definition newline : ascii := chr 10.
Definition dquote : ascii := chr 34.
Definition squote : ascii := chr 39.
Definition nul : ascii := chr 0.
Definition str1 (c : ascii) : string := String c "".
Definition nl : string := str1 newline.

(** [s.split(/\r?\n/)] *)
Fixpoint split_lines (s : string) : list string :=
  match s with
  | "" => [""]
  | String c r =>
      if Ascii.eqb c newline then "" :: split_lines r
      else match r with
           | String d r' =>
               if (Ascii.eqb c (chr 13) && Ascii.eqb d newline)%bool then "" :: split_lines r'
               else match split_lines r with
                    | [] => [str1 c]
                    | w :: ws => String c w :: ws
                    end
           | "" => [str1 c]
           end
  end.

(** ** Numbers *)

Definition digit_char (n : nat) : ascii := chr (48 + n).
Fixpoint nat_digits (fuel n : nat) (acc : string) : string :=
  match fuel with
  | O => acc
  | S f => let acc' := String (digit_char (n mod 10)) acc in
           if n <? 10 then acc' else nat_digits f (n / 10) acc'
  end.
(** [String(n)] for a non-negative integer. *)
Definition string_of_nat (n : nat) : string := nat_digits (S n) n "".

Definition digit_value (c : ascii) : Z := Z.of_nat (code c) - 48.
Fixpoint digits_value (acc : Z) (s : string) : Z :=
  match s with "" => acc | String c r => digits_value (10 * acc + digit_value c) r end.

Fixpoint z_digits (fuel : nat) (n : Z) (acc : string) : string :=
  match fuel with
  | O => acc
  | S f => let acc' := String (chr (48 + Z.to_nat (n mod 10))) acc in
           if (n <? 10)%Z then acc' else z_digits f (n / 10)%Z acc'
  end.
(** [String(n)] for an integer: one digit per step, and a positive integer has
    no more decimal than binary digits. *)
Definition string_of_Z (n : Z) : string :=
  if (n <? 0)%Z then "-" +:+ z_digits (S (Z.to_nat (Z.log2 (- n)))) (- n) ""
  else z_digits (S (Z.to_nat (Z.log2 n))) n "".

(** ** [JSON.stringify] of a string *)

Definition hex_digit (n : nat) : ascii := if n <? 10 then chr (48 + n) else chr (87 + n).
Definition json_char (c : ascii) : string :=
  let n := code c in
  if n =? 34 then String backslash (str1 dquote)
  else if n =? 92 then String backslash (str1 backslash)
  else if n =? 8 then String backslash "b"
  else if n =? 9 then String backslash "t"
  else if n =? 10 then String backslash "n"
  else if n =? 12 then String backslash "f"
  else if n =? 13 then String backslash "r"
  else if n <? 32 then String backslash ("u00" +:+ String (hex_digit (n / 16)) (str1 (hex_digit (n mod 16))))
  else str1 c.
Fixpoint json_body (s : string) : string :=
  match s with "" => "" | String c r => json_char c +:+ json_body r end.
Definition JSON_stringify (s : string) : string := str1 dquote +:+ json_body s +:+ str1 dquote.

(** ** Lemmas *)

Lemma sapp_nil_r s : s +:+ "" = s.
Proof. induction s as [|c s IH]; simpl; [done|]. by rewrite IH. Qed.

Lemma sapp_assoc (s t u : string) : (s +:+ t) +:+ u = s +:+ (t +:+ u).
Proof. induction s as [|c s IH]; simpl; [done|]. by rewrite IH. Qed.

Lemma slen_app (s t : string) : slen (s +:+ t) = slen s + slen t.
Proof. induction s as [|c s IH]; simpl; [done|]. by rewrite IH. Qed.

Lemma sapp_inj_l (s t u : string) : s +:+ t = s +:+ u → t = u.
Proof. induction s as [|c s IH]; simpl; [done|]. intros [= H]. auto. Qed.

Lemma prefix_app p s : String.prefix p (p +:+ s) = true.
Proof.
  induction p as [|c p IH]; simpl; [by destruct s|].
  destruct (ascii_dec c c); [exact IH | done].
Qed.

Lemma prefix_true p s : String.prefix p s = true ↔ ∃ t, s = p +:+ t.
Proof.
  split; [|intros [t ->]; apply prefix_app].
  revert s. induction p as [|c p IH]; intros s H; simpl; [eauto|].
  destruct s as [|d s]; [done|]. simpl in H. destruct (ascii_dec c d) as [->|]; [|done].
  apply IH in H as [t ->]. eauto.
Qed.

#[global] Arguments String.prefix : simpl never.

Lemma sdrop_app (s t : string) : sdrop (slen s) (s +:+ t) = t.
Proof. by induction s. Qed.

Lemma stake_app (s t : string) : stake (slen s) (s +:+ t) = s.
Proof. induction s as [|c s IH]; simpl; [by destruct t|]. by rewrite IH. Qed.

Lemma stake_sdrop n s : stake n s +:+ sdrop n s = s.
Proof. revert s. induction n as [|n IH]; intros [|c s]; simpl; [done..|]. by rewrite IH. Qed.

Lemma slen_stake n s : slen (stake n s) = Nat.min n (slen s).
Proof. revert s. induction n as [|n IH]; intros [|c s]; simpl; [done..|]. by rewrite IH. Qed.

Lemma slen_sdrop n s : slen (sdrop n s) = slen s - n.
Proof. revert s. induction n as [|n IH]; intros [|c s]; simpl; [done..|]. apply IH. Qed.

Lemma sdrop_sdrop n m s : sdrop n (sdrop m s) = sdrop (m + n) s.
Proof.
  revert s. induction m as [|m IH]; intros s; simpl; [done|].
  destruct s; simpl; [by destruct n|apply IH].
Qed.

Lemma sapp_length_inj (s1 s2 t1 t2 : string) :
  slen s1 = slen s2 → s1 +:+ t1 = s2 +:+ t2 → s1 = s2 ∧ t1 = t2.
Proof.
  revert s2. induction s1 as [|c s1 IH]; intros [|d s2]; simpl; try done.
  intros [= H] [= -> H']. by destruct (IH s2 H H') as [-> ->].
Qed.

(** Two decompositions of one string: the later cut refines the earlier one. *)
Lemma sapp_split_le (x1 t1 x2 t2 : string) :
  x1 +:+ t1 = x2 +:+ t2 → slen x1 ≤ slen x2 → ∃ h, x2 = x1 +:+ h ∧ t1 = h +:+ t2.
Proof.
  revert x2. induction x1 as [|c x1 IH]; intros x2 E Hl; simpl in *.
  - by exists x2.
  - destruct x2 as [|d x2]; simpl in *; [lia|]. injection E as -> E.
    destruct (IH x2 E) as (h & -> & ->); [lia|]. by exists h.
Qed.

(** Suffixes. *)
Lemma endsWith_true s p : endsWith s p = true ↔ ∃ t, s = t +:+ p.
Proof.
  unfold endsWith. split.
  - intros H. bool_prop. exists (stake (slen s - slen p) s).
    rewrite <-H0 at 2. by rewrite stake_sdrop.
  - intros [t ->]. rewrite slen_app.
    replace (slen t + slen p - slen p) with (slen t) by lia.
    rewrite sdrop_app, String.eqb_refl, andb_true_r. apply Nat.leb_le. lia.
Qed.

Lemma startsWith_true s p : startsWith s p = true ↔ ∃ t, s = p +:+ t.
Proof. apply prefix_true. Qed.

(** Substring search finds the leftmost occurrence. *)
Lemma indexOf_some s p i :
  indexOf s p = Some i → ∃ a b, s = a +:+ p +:+ b ∧ slen a = i.
Proof.
  revert i. induction s as [|c s IH]; intros i; simpl.
  - destruct p; simpl; [|done]. intros [= <-]. by exists "", "".
  - destruct (String.prefix p (String c s)) eqn:Hp.
    + intros [= <-]. apply prefix_true in Hp as [t ->]. by exists "", t.
    + intros (j & Hj & Hi)%fmap_Some. destruct (IH j Hj) as (a & b & Hs & Ha).
      subst. by exists (String c a), b.
Qed.

Lemma indexOf_leftmost s p i a b :
  indexOf s p = Some i → s = a +:+ p +:+ b → i ≤ slen a.
Proof.
  revert i a. induction s as [|c s IH]; intros i a; simpl.
  - destruct p; simpl; [|done]. intros [= <-] _. lia.
  - destruct (String.prefix p (String c s)) eqn:Hp; [intros [= <-]; lia|].
    intros (j & Hj & ->)%fmap_Some Hs. destruct a as [|d a]; simpl in Hs.
    + assert (String.prefix p (String c s) = true) by (apply prefix_true; eauto). congruence.
    + injection Hs as -> Hs. simpl. apply le_n_S. eauto.
Qed.

Lemma indexOf_none s p : indexOf s p = None ↔ ¬ ∃ a b, s = a +:+ p +:+ b.
Proof.
  split.
  - intros Hn (a & b & Hs). revert s Hn Hs. induction a as [|d a IH]; intros s Hn Hs; simpl in Hs.
    + assert (String.prefix p s = true) as Hp by (apply prefix_true; eauto).
      destruct s; simpl in Hn; rewrite ?Hp in Hn; try done.
    + subst s. simpl in Hn. destruct (String.prefix p _); [done|].
      apply fmap_None in Hn. by eapply IH.
  - intros Hno. destruct (indexOf s p) eqn:E; [|done].
    apply indexOf_some in E as (a & b & -> & _). destruct Hno. eauto.
Qed.

Lemma includes_true s p : includes s p = true ↔ ∃ a b, s = a +:+ p +:+ b.
Proof.
  unfold includes. destruct (indexOf s p) eqn:E.
  - split; [|done]. intros _. apply indexOf_some in E as (a & b & -> & _). eauto.
  - apply indexOf_none in E. by split.
Qed.

(** Characters. *)
Fixpoint has_char (c : ascii) (s : string) : bool :=
  match s with "" => false | String d r => Ascii.eqb d c || has_char c r end.

Lemma has_char_app c s t : has_char c (s +:+ t) = has_char c s || has_char c t.
Proof. induction s as [|d s IH]; simpl; [done|]. by rewrite IH, orb_assoc. Qed.

Lemma has_char_false_mid c (a b : string) : has_char c (a +:+ String c b) = true.
Proof. rewrite has_char_app. simpl. by rewrite Ascii.eqb_refl, orb_true_r. Qed.

Lemma includes_char c s : includes s (str1 c) = has_char c s.
Proof.
  apply eq_bool_prop_intro. rewrite !Is_true_true, includes_true.
  induction s as [|d s IH]; simpl.
  - split; [|done]. intros (a & b & H). by destruct a.
  - rewrite orb_true_iff, <-IH, Ascii.eqb_eq. split.
    + intros ([|e a] & b & H); simpl in H; injection H; intros; subst; eauto.
    + intros [->|(a & b & ->)]; [by exists "", s | by exists (String d a), b].
Qed.

Lemma sforall_app p s t : sforall p (s +:+ t) = sforall p s && sforall p t.
Proof. induction s as [|c s IH]; simpl; [done|]. by rewrite IH, andb_assoc. Qed.

Lemma smap_app f s t : smap f (s +:+ t) = smap f s +:+ smap f t.
Proof. induction s as [|c s IH]; simpl; [done|]. by rewrite IH. Qed.

Lemma slen_smap f s : slen (smap f s) = slen s.
Proof. induction s as [|c s IH]; simpl; [done|]. by rewrite IH. Qed.

Lemma lower_idem c : lower (lower c) = lower c.
Proof. destruct c as [[] [] [] [] [] [] [] []]; vm_compute; reflexivity. Qed.

Lemma toLowerCase_idem s : toLowerCase (toLowerCase s) = toLowerCase s.
Proof. unfold toLowerCase. induction s as [|c s IH]; simpl; [done|]. by rewrite lower_idem, IH. Qed.

Lemma sforall_impl (p q : ascii → bool) s :
  (∀ c, p c = true → q c = true) → sforall p s = true → sforall q s = true.
Proof. intros H. induction s as [|c s IH]; simpl; [done|]. intros Hs. bool_prop. by rewrite H, IH. Qed.

Lemma sexists_false (p : ascii → bool) s : sexists p s = false ↔ sforall (λ c, negb (p c)) s = true.
Proof. induction s as [|c s IH]; simpl; [done|]. rewrite orb_false_iff, andb_true_iff, IH, negb_true_iff. done. Qed.

Lemma smap_id f s : sforall (λ c, Ascii.eqb (f c) c) s = true → smap f s = s.
Proof.
  induction s as [|c s IH]; simpl; [done|]. intros H. bool_prop.
  apply Ascii.eqb_eq in H. by rewrite H, IH.
Qed.

(** Splitting on a character. *)
Lemma split_nonempty c s : split c s ≠ [].
Proof. destruct s; simpl; [done|]. destruct (Ascii.eqb a c); [done|]. by destruct (split c s). Qed.

Lemma split_no_sep c s : has_char c s = false → split c s = [s].
Proof.
  induction s as [|d s IH]; simpl; [done|]. intros H. bool_prop. rewrite H.
  by rewrite IH.
Qed.

Lemma split_app c s t :
  split c (s +:+ String c t) = split c s ++ split c t.
Proof.
  induction s as [|d s IH]; simpl.
  - by rewrite Ascii.eqb_refl.
  - destruct (Ascii.eqb d c); simpl; rewrite IH; [done|].
    destruct (split c s) eqn:E; [by apply split_nonempty in E|done].
Qed.

Lemma split_chars c s : Forall (λ w, has_char c w = false) (split c s).
Proof.
  induction s as [|d s IH]; simpl; [repeat constructor|].
  destruct (Ascii.eqb d c) eqn:E; [by constructor|].
  destruct (split c s) as [|w ws]; [by apply Forall_singleton; simpl; rewrite E|].
  inv IH. constructor; [|done]. simpl. by rewrite E.
Qed.

Lemma join_cons sep x l : l ≠ [] → join sep (x :: l) = x +:+ sep +:+ join sep l.
Proof. by destruct l. Qed.

Lemma sforall_join p sep l : sforall p sep = true → Forall (λ w, sforall p w = true) l →
  sforall p (join sep l) = true.
Proof.
  intros Hs Hl. induction Hl as [|w l Hw Hl IH]; [done|]. destruct l; [done|].
  rewrite join_cons, !sforall_app by done. by rewrite Hw, Hs, IH.
Qed.

Lemma join_empty_cons b l : join "" (b :: l) = b +:+ join "" l.
Proof. destruct l; [by rewrite sapp_nil_r|]. by rewrite join_cons. Qed.

Lemma join_app sep l k : l ≠ [] → k ≠ [] → join sep (l ++ k) = join sep l +:+ sep +:+ join sep k.
Proof.
  intros Hl Hk. induction l as [|x l IH]; [done|]. destruct l as [|y l].
  - change ([x] ++ k) with (x :: k). by rewrite join_cons.
  - rewrite (join_cons sep x (y :: l)) by done.
    change ((x :: y :: l) ++ k) with (x :: ((y :: l) ++ k)).
    rewrite join_cons, IH by done. by rewrite !sapp_assoc.
Qed.

Lemma join_split c s : join (str1 c) (split c s) = s.
Proof.
  induction s as [|d s IH]; simpl; [done|].
  destruct (Ascii.eqb d c) eqn:E.
  - apply Ascii.eqb_eq in E as ->. rewrite join_cons by apply split_nonempty.
    simpl. by rewrite IH.
  - destruct (split c s) as [|w ws] eqn:Es; [by apply split_nonempty in Es|].
    destruct ws; simpl in *; by rewrite <-IH.
Qed.

Lemma split_join c l :
  l ≠ [] → Forall (λ w, has_char c w = false) l → split c (join (str1 c) l) = l.
Proof.
  intros Hl Hf. induction Hf as [|w l Hw Hf IH]; [done|].
  destruct l as [|x l]; [by apply split_no_sep|].
  rewrite join_cons by done.
  change (str1 c +:+ join (str1 c) (x :: l)) with (String c (join (str1 c) (x :: l))).
  rewrite split_app, split_no_sep by done. simpl. f_equal. by apply IH.
Qed.

Create Rewrite HintDb js_string.
#[export] Hint Rewrite sapp_nil_r sapp_assoc slen_app sdrop_app stake_app
  @sforall_app smap_app slen_smap has_char_app : js_string.

Lemma drop_end_while_keep p s c : p c = false → drop_end_while p (s +:+ str1 c) = s +:+ str1 c.
Proof.
  intros Hc. induction s as [|d s IH]; simpl; [by rewrite Hc|]. rewrite IH.
  by destruct s.
Qed.

Lemma drop_end_while_app p s t :
  sforall p t = true → drop_end_while p (s +:+ t) = drop_end_while p s.
Proof.
  intros Ht. induction s as [|d s IH]; simpl; [|by rewrite IH].
  induction t as [|c t IH]; simpl in *; [done|]. bool_prop. by rewrite IH, H.
Qed.

Lemma string_snoc_cases s : s = "" ∨ ∃ t c, s = t +:+ str1 c.
Proof.
  induction s as [|c s [->|(t & d & ->)]]; [by left|right..].
  - by exists "", c.
  - by exists (String c t), d.
Qed.

Lemma last_char_snoc s c : last_char (s +:+ str1 c) = Some c.
Proof. induction s as [|d s IH]; [done|]. simpl. rewrite IH. by destruct s. Qed.

(** Text that neither starts nor ends with white space is its own trim. *)
Lemma trim_id c s d : is_space c = false → is_space d = false →
  trim (String c s +:+ str1 d) = String c s +:+ str1 d.
Proof.
  intros Hc Hd. unfold trim. cbn [String.append skip_while]. rewrite Hc.
  apply (drop_end_while_keep is_space (String c s) d Hd).
Qed.

(** ** The message of a caught error *)

Definition exn_message (e : exn) : string :=
  match e with
  | JsError m => m
  | UnsafeWorkspaceError w s i =>
      "Refusing to isolate " +:+ w +:+ ": it contains " +:+ s +:+ " (" +:+ i +:+ "). "
      +:+ "The workspace is granted in full, so this would hand over the very files "
      +:+ "agentkeeper exists to protect. Run the agent from a project directory instead."
  | UnenforceablePolicyError mechanism reason gaps =>
      "Refusing to run: "
      +:+ (if (reason =? "backend-unavailable")%string
           then "no supported isolation backend is available"
           else mechanism +:+ " cannot enforce the complete sandbox policy")
      +:+ "." +:+ (if 0 <? List.length gaps then " " +:+ join " " gaps else "")
  | FileSystemAccessError operation path code =>
      operation +:+ " failed for " +:+ path +:+ match code with None => "" | Some c => " (" +:+ c +:+ ")" end
  | InstallationPlanConflictError m | InstallationConcurrentChangeError m
  | ProtectionInstallationConflictError m | SystemIntegrationConcurrentChangeError m
  | AggregateError _ m
  | WindowsPolicyDiscoveryError m | WindowsSandboxBackendError _ m => m
  end.
