(* ===== verification/JsMap.v ===== *)
(** * JavaScript maps

    A [Map] with string keys is the list of its entries in the order of insertion:
    setting a present key keeps its place, iteration follows the list. *)

From S2P Require Import Prelude.

Module JsMap.
Section map.
Context {A : Type}.
Abbreviation JsMap := (list (string * A)).

Definition get (m : JsMap) (k : string) : option A := snd <$> find (λ kv, (kv.1 =? k)%string) m.
Definition has (m : JsMap) (k : string) : bool := some (λ kv, (kv.1 =? k)%string) m.
Fixpoint set (m : JsMap) (k : string) (v : A) : JsMap :=
  match m with
  | [] => [(k, v)]
  | kv :: r => if (kv.1 =? k)%string then (k, v) :: r else kv :: set r k v
  end.
Definition delete (m : JsMap) (k : string) : JsMap := bfilter (λ kv, negb (kv.1 =? k)%string) m.
Definition values (m : JsMap) : list A := map snd m.
(** [new Map(items.map(item => [key(item), item]))] *)
Definition of_list (key : A → string) (l : list A) : JsMap :=
  fold_left (λ m a, set m (key a) a) l [].

Lemma get_cons k' v m k : get ((k', v) :: m) k = if (k' =? k)%string then Some v else get m k.
Proof. unfold get. simpl. by case_if. Qed.

Lemma get_set m k v k' : get (set m k v) k' = if (k =? k')%string then Some v else get m k'.
Proof.
  induction m as [|[k1 v1] m IH]; cbn [set]; [apply get_cons|]. cbn [fst].
  destruct (k1 =? k)%string eqn:E; rewrite !get_cons.
  - bool_prop. subst. by case_if.
  - rewrite IH. destruct (k1 =? k')%string eqn:E1, (k =? k')%string eqn:E2; try done.
    bool_prop. congruence.
Qed.

Lemma get_delete m k k' : get (delete m k) k' = if (k =? k')%string then None else get m k'.
Proof.
  unfold delete. induction m as [|[k1 v1] m IH]; simpl; [by case_if|].
  destruct (k1 =? k)%string eqn:E; cbn [negb]; rewrite ?get_cons, IH.
  - bool_prop. subst. by case_if.
  - destruct (k1 =? k')%string eqn:E1, (k =? k')%string eqn:E2; try done. bool_prop. congruence.
Qed.

Lemma has_get m k : has m k = true ↔ is_Some (get m k).
Proof.
  unfold has, get. rewrite <-find_some_iff. rewrite fmap_is_Some. unfold is_Some. done.
Qed.

Lemma get_of_list_aux key l m k :
  get (fold_left (λ m a, set m (key a) a) l m) k
  = match find (λ a, (key a =? k)%string) (rev l) with Some a => Some a | None => get m k end.
Proof.
  revert m. induction l as [|a l IH]; intros m; [done|]. cbn [fold_left rev]. rewrite IH, get_set.
  rewrite find_app. simpl. destruct (find _ (rev l)); [done|]. by case_if.
Qed.

(** The last item of a key wins. *)
Lemma get_of_list key l k : get (of_list key l) k = find (λ a, (key a =? k)%string) (rev l).
Proof. unfold of_list. rewrite get_of_list_aux. by case_match. Qed.

Lemma get_of_list_some key l k a : get (of_list key l) k = Some a → a ∈ l ∧ key a = k.
Proof.
  rewrite get_of_list. intros [Hin Hk%String.eqb_eq]%find_spec. split; [|done].
  by rewrite <-(rev_involutive l), list_elem_of_In, <-in_rev, <-list_elem_of_In.
Qed.

Lemma get_of_list_none key l k : get (of_list key l) k = None ↔ ∀ a, a ∈ l → key a ≠ k.
Proof.
  rewrite get_of_list, find_none_iff, some_false. setoid_rewrite String.eqb_neq.
  by setoid_rewrite list_elem_of_In; setoid_rewrite <-in_rev.
Qed.

(** Without repeated keys, every item is found under its own. *)
Lemma get_of_list_in key l a : NoDup (map key l) → a ∈ l → get (of_list key l) (key a) = Some a.
Proof.
  intros Hnd Ha. destruct (get (of_list key l) (key a)) as [b|] eqn:E.
  - apply get_of_list_some in E as [Hb Hk]. f_equal.
    clear -Hnd Ha Hb Hk. induction l as [|x l IH]; [by apply elem_of_nil in Ha|].
    cbn [map] in Hnd. inv Hnd.
    apply elem_of_cons in Ha as [->|Ha], Hb as [->|Hb]; [done| | |by apply IH].
    + destruct H1. rewrite <-Hk. by apply list_elem_of_fmap_2.
    + destruct H1. rewrite Hk. by apply list_elem_of_fmap_2.
  - by destruct (proj1 (get_of_list_none key l (key a)) E a Ha).
Qed.

Lemma elem_of_values m v : v ∈ values m ↔ ∃ k, (k, v) ∈ m.
Proof.
  unfold values. rewrite list_elem_of_fmap. split.
  - intros ([k v'] & -> & H). by exists k.
  - intros [k H]. by exists (k, v).
Qed.

Lemma set_keys m k v : (set m k v).*1 = if has m k then m.*1 else m.*1 ++ [k].
Proof.
  induction m as [|[k1 v1] m IH]; [done|]. cbn [set]. unfold has. cbn [existsb fst].
  destruct (k1 =? k)%string eqn:E; cbn [orb].
  - apply String.eqb_eq in E as ->. done.
  - cbn. rewrite IH. unfold has. by case_if.
Qed.

Lemma set_nodup m k v : NoDup m.*1 → NoDup (set m k v).*1.
Proof.
  intros Hm. rewrite set_keys. case_if; [done|]. apply NoDup_app. split; [done|]. split; [|apply NoDup_singleton].
  intros x Hx ->%list_elem_of_singleton. apply list_elem_of_fmap in Hx as ([k1 v1] & -> & Hin).
  unfold has in Heqb. rewrite some_false in Heqb. specialize (Heqb _ Hin). simpl in Heqb.
  by rewrite String.eqb_refl in Heqb.
Qed.

Lemma delete_nodup m k : NoDup m.*1 → NoDup (delete m k).*1.
Proof.
  unfold delete. induction m as [|[k1 v1] m IH]; cbn [bfilter fmap list_fmap fst]; [done|].
  intros Hnd. inv Hnd. case_if; [|by apply IH]. cbn. constructor; [|by apply IH].
  intros Hin. destruct H1. apply list_elem_of_fmap in Hin as (kv & Hk & Hkv).
  apply elem_of_bfilter in Hkv as [Hkv _]. rewrite Hk. by apply list_elem_of_fmap_2.
Qed.

Lemma of_list_nodup key l : NoDup (of_list key l).*1.
Proof.
  unfold of_list. cut (∀ m : JsMap, NoDup m.*1 → NoDup (fold_left (λ m a, set m (key a) a) l m).*1);
    [intros H; apply H; constructor|].
  induction l as [|a l IH]; intros m Hm; [done|]. simpl. by apply IH, set_nodup.
Qed.

Lemma get_elem m k v : NoDup m.*1 → (k, v) ∈ m ↔ get m k = Some v.
Proof.
  induction m as [|[k1 v1] m IH]; intros Hnd; [set_solver|]. rewrite get_cons, elem_of_cons. inv Hnd.
  destruct (k1 =? k)%string eqn:E; bool_prop.
  - subst. split; [intros [[= ->]|Hin]; [done|]|intros [= ->]; by left].
    destruct H1. by apply (list_elem_of_fmap_2 fst _ (k, v)).
  - rewrite <-IH by done. naive_solver.
Qed.
End map.
End JsMap.
