(* ===== verification/NodePath.v ===== *)
(** * The path functions of [node:path]

    [posix.normalize], [posix.join] and the parts of [win32] that the sources
    call. [win32.normalize] is given for rooted paths, the only ones that reach it;
    the device roots of Windows are excluded by the caller, see
    [AbsolutePath.isWindowsDeviceNamespace]. *)

From S2P Require Import Prelude JsString.

(** [normalizeString]: resolves [.] and [..] over the segments of a path; [acc] is
    the reversed result. With [allowAboveRoot] a leading [..] is kept. *)
Fixpoint normalizeString (allowAboveRoot : bool) (acc segs : list string) : list string :=
  match segs with
  | [] => rev acc
  | s :: r =>
      if (s =? "")%string || (s =? ".")%string then normalizeString allowAboveRoot acc r
      else if (s =? "..")%string then
        match acc with
        | a :: acc' =>
            if allowAboveRoot && (a =? "..")%string
            then normalizeString allowAboveRoot (s :: acc) r
            else normalizeString allowAboveRoot acc' r
        | [] => normalizeString allowAboveRoot (if allowAboveRoot then [s] else []) r
        end
      else normalizeString allowAboveRoot (s :: acc) r
  end.

Definition last_is (p : ascii → bool) (s : string) : bool :=
  match last_char s with Some c => p c | None => false end.
Definition is_slash (c : ascii) : bool := Ascii.eqb c slash.

Module posix.
Definition normalize (path : string) : string :=
  if (path =? "")%string then "."
  else
    let isAbsolute := startsWith path "/" in
    let trailingSeparator := last_is is_slash path in
    let body := join "/" (normalizeString (negb isAbsolute) [] (split slash path)) in
    if (body =? "")%string
    then if isAbsolute then "/" else if trailingSeparator then "./" else "."
    else (if isAbsolute then "/" else "") +:+ body +:+ (if trailingSeparator then "/" else "").

Definition join (parts : list string) : string :=
  match bfilter (λ p, negb (p =? "")%string) parts with
  | [] => "."
  | ps => normalize (JsString.join "/" ps)
  end.
End posix.

Module win32.
Definition is_sep (c : ascii) : bool := Ascii.eqb c slash || Ascii.eqb c backslash.
Definition is_letter (c : ascii) : bool := is_upper c || is_lower c.
Definition bs : string := str1 backslash.

(** Every separator as a backslash. *)
Definition native : string → string := replace_char slash backslash.

(** The device of a path, whether the path is absolute, and what follows its root. *)
Definition device (path : string) : option string * bool * string :=
  match path with
  | String c0 r0 =>
      if is_sep c0 then
        match r0 with
        | String c1 r1 =>
            if is_sep c1 then
              let server := take_while (λ c, negb (is_sep c)) r1 in
              let r2 := skip_while (λ c, negb (is_sep c)) r1 in
              let r3 := skip_while is_sep r2 in
              if (server =? "")%string || (r2 =? "")%string || (r3 =? "")%string
              then (None, true, path)
              else
                let share := take_while (λ c, negb (is_sep c)) r3 in
                (Some (bs +:+ bs +:+ server +:+ bs +:+ share), true,
                 skip_while (λ c, negb (is_sep c)) r3)
            else (None, true, r0)
        | "" => (None, true, r0)
        end
      else
        match r0 with
        | String c1 r1 =>
            if is_letter c0 && Ascii.eqb c1 colon then
              match r1 with
              | String c2 r2 =>
                  if is_sep c2 then (Some (String c0 ":"), true, r2)
                  else (Some (String c0 ":"), false, r1)
              | "" => (Some (String c0 ":"), false, r1)
              end
            else (None, false, path)
        | "" => (None, false, path)
        end
  | "" => (None, false, path)
  end.

Definition isAbsolute (path : string) : bool := (device path).1.2.

Definition normalize (path : string) : string :=
  if (path =? "")%string then "."
  else
    let '(dev, abs, rest) := device path in
    let body := join bs (normalizeString (negb abs) [] (split backslash (native rest))) in
    let tail := if (body =? "")%string then (if abs then "" else ".") else body in
    let tail := if negb (tail =? "")%string && last_is is_sep path then tail +:+ bs else tail in
    (match dev with Some d => d | None => "" end) +:+ (if abs then bs else "") +:+ tail.

(** [parse(path).root] *)
Definition root (path : string) : string :=
  match device path with
  | (Some d, true, rest) =>
      (* the root of a share ends with the separator after the share, if any *)
      match d with
      | String c _ =>
          if is_sep c then (match rest with "" => d | _ => d +:+ bs end) else d +:+ bs
      | "" => d
      end
  | (Some d, false, _) => d
  | (None, true, _) => bs
  | (None, false, _) => ""
  end.

(** [join] of parts the first of which has a device. *)
Definition join (parts : list string) : string :=
  match bfilter (λ p, negb (p =? "")%string) parts with
  | [] => "."
  | ps => normalize (JsString.join bs ps)
  end.
End win32.

(** ** Segments in normal form *)

Definition clean_seg (w : string) : Prop :=
  has_char slash w = false ∧ w ≠ "" ∧ w ≠ "." ∧ w ≠ "..".

#[global] Instance clean_seg_dec w : Decision (clean_seg w).
Proof. unfold clean_seg. apply _. Defined.

Lemma normalizeString_abs_clean acc segs :
  Forall clean_seg acc → Forall (λ w, has_char slash w = false) segs →
  Forall clean_seg (normalizeString false acc segs).
Proof.
  intros Hacc Hs. revert acc Hacc. induction Hs as [|s r Hs Hr IH]; intros acc Hacc; simpl.
  - by apply Forall_rev.
  - case_if; [by apply IH|]. case_if.
    + destruct acc; apply IH; [done | by inv Hacc].
    + bool_prop. apply IH. constructor; [|done]. done.
Qed.

(** Segments in normal form are left alone. *)
Lemma normalizeString_id b acc segs :
  Forall clean_seg segs → normalizeString b acc segs = rev acc ++ segs.
Proof.
  intros H. revert acc. induction H as [|s r (_ & H1 & H2 & H3) Hr IH]; intros acc; simpl.
  - by rewrite app_nil_r.
  - apply String.eqb_neq in H1, H2, H3. rewrite H1, H2, H3. simpl. rewrite IH. simpl.
    by rewrite <-app_assoc.
Qed.

(** Empty segments, from doubled or trailing separators, do not count. *)
Lemma normalizeString_app_empty b acc l :
  normalizeString b acc (l ++ [""]) = normalizeString b acc l.
Proof.
  revert acc. induction l as [|s r IH]; intros acc; simpl; [done|].
  case_if; [apply IH|]. case_if; [|apply IH].
  destruct acc; [apply IH|case_if; apply IH].
Qed.

Lemma join_clean_nonempty l : l ≠ [] → Forall clean_seg l → join "/" l ≠ "".
Proof.
  intros Hl Hf. destruct Hf as [|w l (_ & Hw & _) Hf]; [done|].
  destruct l; [done|]. rewrite join_cons by done. by destruct w.
Qed.

(** The text of an absolute path in normal form. *)
Definition abs_text (segs : list string) : string := "/" +:+ join "/" segs.

Lemma split_abs_text segs :
  Forall clean_seg segs → split slash (abs_text segs) = "" :: match segs with [] => [""] | _ => segs end.
Proof.
  intros Hf. unfold abs_text.
  change (split slash ("/" +:+ join "/" segs)) with ("" :: split slash (join (str1 slash) segs)).
  f_equal. destruct segs as [|s r]; [done|]. apply split_join; [done|].
  eapply Forall_impl; [exact Hf|]. by intros w [? _].
Qed.

Lemma normalize_segs_abs_text segs :
  Forall clean_seg segs → normalizeString false [] (split slash (abs_text segs)) = segs.
Proof.
  intros Hf. rewrite split_abs_text by done. simpl.
  destruct segs as [|s r]; [done|]. by rewrite normalizeString_id.
Qed.
