(* ===== verification/Paths.v ===== *)
(** * Absolute paths (src/domain/value-objects/AbsolutePath.ts)

    The value object every policy and rule is expressed with: its three flavours,
    its smart constructors and its relations, together with the facts that make it
    usable as a segment list: the text of a POSIX path is the text of its segments,
    and containment is the prefix relation on them. *)

From S2P Require Import Prelude JsString NodePath.

Module AbsolutePath.

(** ** Data and operations *)

Inductive PathFlavour := posix_flavour | windows_drive | windows_unc.
#[global] Instance PathFlavour_eq_dec : EqDecision PathFlavour.
Proof. solve_decision. Defined.

Record AbsolutePath := mkPath { value : string; flavour : PathFlavour; root : string }.
#[global] Instance AbsolutePath_eq_dec : EqDecision AbsolutePath.
Proof. solve_decision. Defined.

(** [/^[A-Za-z]:[\\/]/] *)
Definition WINDOWS_DRIVE_ABSOLUTE (raw : string) : bool :=
  match raw with
  | String a (String b (String c _)) => win32.is_letter a && Ascii.eqb b colon && win32.is_sep c
  | _ => false
  end.

(** [/^[\\/]{2}[^\\/]/] *)
Definition WINDOWS_UNC (raw : string) : bool :=
  match raw with
  | String a (String b (String c _)) => win32.is_sep a && win32.is_sep b && negb (win32.is_sep c)
  | _ => false
  end.

(** [/^\/\/[?.]\//] or [/^\/{1,2}\?\?\//], once backslashes are slashes. *)
Definition isWindowsDeviceNamespace (raw : string) : bool :=
  let s := replace_char backslash slash raw in
  startsWith s "//?/" || startsWith s "//./" || startsWith s "/??/" || startsWith s "//??/".

Definition upper_first (s : string) : string :=
  match s with "" => "" | String c r => upper c +:+ r end.

Definition canonicalWindows (raw : string) (fl : PathFlavour) (isRoot : bool) : string :=
  let value := toLowerCase (replace_char backslash slash raw) in
  let value := if negb isRoot || bool_decide (fl = windows_unc)
               then drop_end_while is_slash value else value in
  if bool_decide (fl = windows_drive) then upper_first value else value.

Definition not_absolute {A} (raw : string) : result A :=
  throw ("Path must be absolute: " +:+ JSON_stringify raw).

Definition fromWindows (raw : string) (fl : PathFlavour) : result AbsolutePath :=
  let normalised := win32.normalize raw in
  let nativeRoot := win32.root normalised in
  if negb (win32.isAbsolute normalised)
     || (bool_decide (fl = windows_unc)
         && negb (startsWith nativeRoot (String backslash (str1 backslash))))
  then not_absolute raw
  else Ok (mkPath (canonicalWindows normalised fl (normalised =? nativeRoot)%string) fl
                  (canonicalWindows nativeRoot fl true)).

(** [x || y] on strings. *)
Definition or_default (x y : string) : string := if (x =? "")%string then y else x.

Definition of_ (raw : string) : result AbsolutePath :=
  if has_char nul raw then throw ("Path contains a NUL byte: " +:+ JSON_stringify raw)
  else if isWindowsDeviceNamespace raw
  then throw ("Windows device namespace paths are not supported: " +:+ JSON_stringify raw)
  else if WINDOWS_DRIVE_ABSOLUTE raw then fromWindows raw windows_drive
  else if WINDOWS_UNC raw then fromWindows raw windows_unc
  else if negb (startsWith raw "/") then not_absolute raw
  else Ok (mkPath (or_default (drop_end_while is_slash (posix.normalize raw)) "/") posix_flavour "/").

Definition isWindows (p : AbsolutePath) : bool := negb (bool_decide (flavour p = posix_flavour)).

Definition joinp (p : AbsolutePath) (parts : list string) : result AbsolutePath :=
  if isWindows p
  then of_ (win32.join (replace_char slash backslash (value p) :: parts))
  else of_ (posix.join (value p :: parts)).

Definition fromUserPath (raw : string) (home : AbsolutePath) : result AbsolutePath :=
  if (raw =? "~")%string then Ok home
  else if startsWith raw "~/" then joinp home [sdrop 2 raw]
  else if isWindows home && startsWith raw (String "~" (str1 backslash)) then joinp home [sdrop 2 raw]
  else of_ raw.

Definition segments (p : AbsolutePath) : list string :=
  if (value p =? root p)%string then []
  else
    let offset := if endsWith (root p) "/" then slen (root p) else slen (root p) + 1 in
    bfilter (λ w, negb (w =? "")%string) (split slash (sdrop offset (value p))).

Definition basename (p : AbsolutePath) : string :=
  match last (segments p) with Some w => w | None => "" end.

Definition parent (p : AbsolutePath) : result AbsolutePath :=
  let parentSegments := removelast (segments p) in
  match parentSegments with
  | [] => of_ (root p)
  | _ => let separator := if endsWith (root p) "/" then "" else "/" in
         of_ (root p +:+ separator +:+ join "/" parentSegments)
  end.

(** True when [other] is this path or lives underneath it. *)
Definition contains (p other : AbsolutePath) : bool :=
  if negb (bool_decide (flavour p = flavour other)) then false
  else if negb (root p =? root other)%string then false
  else if (value p =? root p)%string then true
  else (value other =? value p)%string || startsWith (value other) (value p +:+ "/").

Definition equals (p other : AbsolutePath) : bool :=
  bool_decide (flavour p = flavour other) && (value p =? value other)%string.

Definition toDisplay (p home : AbsolutePath) : string :=
  if equals p home then "~"
  else if contains home p then "~" +:+ sdrop (slen (value home)) (value p) else value p.

(** ** POSIX paths as segment lists *)

Definition posix_path (segs : list string) : AbsolutePath :=
  mkPath (abs_text segs) posix_flavour "/".

Definition no_nul (w : string) : Prop := has_char nul w = false.

(** What the constructor establishes of a POSIX path. *)
Definition posix_wf (p : AbsolutePath) : Prop :=
  ∃ segs, p = posix_path segs ∧ Forall clean_seg segs ∧ Forall no_nul segs.

Lemma abs_text_nil : abs_text [] = "/".
Proof. done. Qed.

Lemma abs_text_inj s1 s2 :
  Forall clean_seg s1 → Forall clean_seg s2 → abs_text s1 = abs_text s2 → s1 = s2.
Proof.
  intros H1 H2 E. rewrite <-(normalize_segs_abs_text s1), <-(normalize_segs_abs_text s2) by done.
  by rewrite E.
Qed.

Lemma clean_join_snoc l : l ≠ [] → Forall clean_seg l →
  ∃ t c, join "/" l = t +:+ str1 c ∧ is_slash c = false.
Proof.
  intros Hl Hf. induction Hf as [|w l (Hw & Hn & _) Hf IH]; [done|].
  destruct l as [|x l].
  - destruct (string_snoc_cases w) as [->|(t & c & ->)]; [done|].
    exists t, c. split; [done|]. rewrite has_char_app in Hw. bool_prop. simpl in *.
    unfold is_slash. by destruct (Ascii.eqb c slash).
  - destruct IH as (t & c & E & Hc); [done|]. exists (w +:+ "/" +:+ t), c.
    split; [|done]. by rewrite join_cons, E, !sapp_assoc by done.
Qed.

Lemma drop_end_abs_text segs : Forall clean_seg segs →
  or_default (drop_end_while is_slash (abs_text segs)) "/" = abs_text segs.
Proof.
  intros Hf. destruct segs as [|w l]; [done|].
  destruct (clean_join_snoc (w :: l)) as (t & c & E & Hc); [done..|].
  unfold abs_text. rewrite E.
  change ("/" +:+ t +:+ str1 c) with ((String "/" t) +:+ str1 c).
  by rewrite drop_end_while_keep.
Qed.

Lemma startsWith_slash s : startsWith s "/" = true ↔ ∃ r, s = String slash r.
Proof. unfold startsWith. rewrite prefix_true. split; intros [r ->]; by exists r. Qed.

Lemma normalize_posix raw : startsWith raw "/" = true →
  let segs := normalizeString false [] (split slash raw) in
  or_default (drop_end_while is_slash (posix.normalize raw)) "/" = abs_text segs
  ∧ Forall clean_seg segs.
Proof.
  intros Hr segs.
  assert (Forall clean_seg segs) as Hc.
  { apply normalizeString_abs_clean; [constructor|apply split_chars]. }
  split; [|done]. unfold posix.normalize. rewrite Hr. simpl.
  destruct (raw =? "")%string eqn:E0; [apply String.eqb_eq in E0; by subst raw|].
  fold segs. destruct (join "/" segs =? "")%string eqn:E.
  - destruct (decide (segs = [])) as [->|Hn]; [done|].
    apply String.eqb_eq in E. by apply join_clean_nonempty in E.
  - set (sep := if last_is is_slash raw then "/" else "").
    change (String _ (join "/" segs +:+ sep)) with (abs_text segs +:+ sep).
    rewrite drop_end_while_app by (subst sep; by case_if).
    by apply drop_end_abs_text.
Qed.

Lemma has_char_join c sep l :
  has_char c sep = false → has_char c (join sep l) = some (has_char c) l.
Proof.
  intros Hs. induction l as [|x l IH]; [done|]. destruct l; simpl.
  - by rewrite orb_false_r.
  - rewrite !has_char_app, Hs. simpl in IH. by rewrite IH.
Qed.

Lemma normalizeString_subset b acc segs w :
  w ∈ normalizeString b acc segs → w ∈ acc ∨ w ∈ segs.
Proof.
  revert acc. induction segs as [|s r IH]; intros acc; simpl.
  - rewrite list_elem_of_In, <-in_rev, <-list_elem_of_In. by left.
  - case_if; [intros Hw; destruct (IH _ Hw); set_solver|]. case_if.
    + destruct acc; case_if; intros Hw; destruct (IH _ Hw); set_solver.
    + intros Hw; destruct (IH _ Hw); set_solver.
Qed.

Lemma posix_segs_no_nul raw : has_char nul raw = false →
  Forall no_nul (normalizeString false [] (split slash raw)).
Proof.
  intros Hn. rewrite <-(join_split slash raw), has_char_join in Hn by done.
  rewrite some_false in Hn. apply Forall_forall. intros w [?|Hw]%normalizeString_subset; [set_solver|].
  by apply Hn.
Qed.

(** The three branches a POSIX result can come from. *)
Lemma of_posix_inv raw p : of_ raw = Ok p → flavour p = posix_flavour →
  has_char nul raw = false ∧ isWindowsDeviceNamespace raw = false
  ∧ WINDOWS_DRIVE_ABSOLUTE raw = false ∧ WINDOWS_UNC raw = false
  ∧ startsWith raw "/" = true
  ∧ p = posix_path (normalizeString false [] (split slash raw)).
Proof.
  unfold of_, fromWindows, not_absolute. intros H Hf.
  repeat match type of H with
  | context [if ?b then _ else _] => destruct b eqn:?
  end; try discriminate; injection H as <-; try discriminate.
  bool_prop. repeat split; try done.
  unfold posix_path. f_equal. by apply normalize_posix.
Qed.

Lemma of_posix_wf raw p : of_ raw = Ok p → flavour p = posix_flavour → posix_wf p.
Proof.
  intros H Hf. destruct (of_posix_inv raw p H Hf) as (Hn & _ & _ & _ & Hs & ->).
  eexists. split; [done|]. split; [by apply normalize_posix | by apply posix_segs_no_nul].
Qed.

(** Reading the text of a well-formed POSIX path back. *)
Lemma abs_text_not_drive segs : WINDOWS_DRIVE_ABSOLUTE (abs_text segs) = false.
Proof. unfold abs_text. simpl. by destruct (join "/" segs) as [|? []]. Qed.

Lemma clean_join_head segs : Forall clean_seg segs →
  join "/" segs = "" ∨ ∃ c r, join "/" segs = String c r ∧ Ascii.eqb c slash = false.
Proof.
  intros Hf. destruct Hf as [|w l (Hw & Hn & _) _]; [by left|]. right.
  destruct w as [|c w]; [done|]. simpl in Hw. bool_prop.
  destruct l; [|rewrite join_cons by done]; eauto.
Qed.

Lemma of_posix_text segs : Forall clean_seg segs → Forall no_nul segs →
  isWindowsDeviceNamespace (abs_text segs) = false →
  WINDOWS_UNC (abs_text segs) = false →
  of_ (abs_text segs) = Ok (posix_path segs).
Proof.
  intros Hc Hn Hd Hu. unfold of_.
  assert (has_char nul (abs_text segs) = false) as ->.
  { unfold abs_text. rewrite has_char_app, has_char_join by done. simpl.
    apply some_false. by apply Forall_forall. }
  assert (startsWith (abs_text segs) "/" = true) as Hs by (unfold abs_text; apply prefix_app).
  rewrite Hd, abs_text_not_drive, Hu, Hs. simpl.
  unfold posix_path. do 2 f_equal.
  destruct (normalize_posix (abs_text segs) Hs) as [E _].
  by rewrite E, normalize_segs_abs_text.
Qed.

Lemma segments_posix_path segs : Forall clean_seg segs → segments (posix_path segs) = segs.
Proof.
  intros Hf. unfold segments, posix_path. cbn [value root].
  destruct Hf as [|w l Hw Hf]; [done|].
  assert (Forall clean_seg (w :: l)) as Hc by by constructor.
  destruct (clean_join_head (w :: l) Hc) as [E|(c & r & E & _)];
    [by apply join_clean_nonempty in E|].
  replace (abs_text (w :: l) =? "/")%string with false.
  2: { symmetry. apply String.eqb_neq. unfold abs_text. by rewrite E. }
  change (endsWith "/" "/") with true. cbv iota.
  change (sdrop (slen "/") (abs_text (w :: l))) with (join (str1 slash) (w :: l)).
  rewrite split_join; [|done|].
  - apply bfilter_all. intros x Hx. rewrite Forall_forall in Hc.
    destruct (Hc x Hx) as (_ & Hx' & _). apply String.eqb_neq in Hx'. by rewrite Hx'.
  - eapply Forall_impl; [exact Hc|]. by intros x [? _].
Qed.

Lemma contains_posix a b : Forall clean_seg a → Forall clean_seg b →
  contains (posix_path a) (posix_path b) = true ↔ a `prefix_of` b.
Proof.
  intros Ha Hb. unfold contains, posix_path. cbn [value root flavour].
  rewrite bool_decide_true by done. cbv [negb]. rewrite String.eqb_refl. cbv iota.
  destruct a as [|w l].
  { rewrite abs_text_nil, String.eqb_refl. split; [|done]. intros _. apply prefix_nil. }
  destruct (abs_text (w :: l) =? "/")%string eqn:E0.
  { apply String.eqb_eq in E0. rewrite <-abs_text_nil in E0. by apply abs_text_inj in E0. }
  rewrite orb_true_iff, String.eqb_eq, startsWith_true. split.
  - intros [E|[t E]]; [by apply abs_text_inj in E as ->|].
    apply (f_equal (split slash)) in E. rewrite sapp_assoc in E.
    change ("/" +:+ t) with (String slash t) in E.
    rewrite split_app, !split_abs_text in E by done.
    injection E as E. destruct b as [|x b].
    + exfalso. apply (f_equal (@length string)) in E. simpl in E. rewrite length_app in E.
      pose proof (split_nonempty slash t). destruct (split slash t); simpl in *; [done|lia].
    + exists (split slash t). done.
  - intros [k ->]. destruct k as [|x k]; [rewrite app_nil_r; by left|]. right.
    exists (join "/" (x :: k)). unfold abs_text. rewrite join_app by done.
    by rewrite !sapp_assoc.
Qed.

Lemma equals_posix a b : Forall clean_seg a → Forall clean_seg b →
  equals (posix_path a) (posix_path b) = true ↔ a = b.
Proof.
  intros Ha Hb. unfold equals, posix_path. cbn [value flavour].
  rewrite bool_decide_true, andb_true_l, String.eqb_eq by done. split; [|by intros ->].
  by apply abs_text_inj.
Qed.

Lemma contains_refl p : contains p p = true.
Proof.
  unfold contains. rewrite bool_decide_true, !String.eqb_refl by done. simpl. by case_if.
Qed.

(** Extracts the segments of a parsed POSIX path. *)
Ltac posix_segs H Hf :=
  let segs := fresh "segs" in let Hc := fresh "Hclean" in let Hn := fresh "Hnul" in
  destruct (of_posix_wf _ _ H Hf) as (segs & -> & Hc & Hn).

(** ** Properties *)

(** Containment of parsed POSIX paths is exactly the prefix relation on their
    segments: [/home/u/.ss] does not contain [/home/u/.ssh], and every path below a
    directory is contained in it. *)
Theorem contains_iff_prefix raw1 raw2 p q :
  of_ raw1 = Ok p → of_ raw2 = Ok q →
  flavour p = posix_flavour → flavour q = posix_flavour →
  contains p q = true ↔ segments p `prefix_of` segments q.
Proof.
  intros H1 H2 F1 F2. posix_segs H1 F1. posix_segs H2 F2.
  rewrite !segments_posix_path by done. by apply contains_posix.
Qed.

Lemma contains_iff_prefix_witness :
  of_ "/home/u/../u//.ssh/" = Ok (posix_path ["home"; "u"; ".ssh"])
  ∧ (contains (posix_path ["home"; "u"]) (posix_path ["home"; "u"; ".ssh"]) = true
     ↔ segments (posix_path ["home"; "u"]) `prefix_of` segments (posix_path ["home"; "u"; ".ssh"])).
Proof.
  split; [reflexivity|].
  apply (contains_iff_prefix "/home/u" "/home/u/../u//.ssh/"); reflexivity.
Defined.

(** Parsing is idempotent: the text of a parsed POSIX path parses to the same
    path, provided that text does not itself read as a Windows device or UNC path. *)
Theorem of_reparse raw p :
  of_ raw = Ok p → flavour p = posix_flavour →
  isWindowsDeviceNamespace (value p) = false → WINDOWS_UNC (value p) = false →
  of_ (value p) = Ok p.
Proof. intros H F Hd Hu. posix_segs H F. by apply of_posix_text. Qed.

Lemma of_reparse_witness :
  of_ "/a/./b/../c/" = Ok (posix_path ["a"; "c"]) ∧ of_ "/a/c" = Ok (posix_path ["a"; "c"]).
Proof.
  split; [reflexivity|]. apply (of_reparse "/a/./b/../c/" (posix_path ["a"; "c"])); reflexivity.
Defined.

(** The proviso is needed: normalisation can produce a text the constructor
    refuses, so a path value is not always a path that can be parsed again. *)
Theorem of_reparse_fails :
  of_ "/a/../??/x" = Ok (posix_path ["??"; "x"])
  ∧ ∃ e, of_ (value (posix_path ["??"; "x"])) = Err e.
Proof. split; [reflexivity|]. eexists. vm_compute. reflexivity. Qed.

End AbsolutePath.
Abbreviation AbsolutePath := AbsolutePath.AbsolutePath.
