(* ===== verification/Patterns.v ===== *)
(** * Path patterns (src/domain/value-objects/PathPattern.ts)

    The glob language of the registry of sensitive paths. The matcher of the source
    is greedy inside a segment and backtracking across segments; a declarative
    reading of a pattern is given next to it and the two are proved equivalent. *)

From S2P Require Import Prelude JsString NodePath Paths.

Module PathPattern.

Definition star : ascii := "*"%char.
Definition RECURSIVE : string := "**".

Record PathPattern := mkPattern {
  raw : string;
  segments : list string;
  homeAnchored : bool
}.
#[global] Instance PathPattern_eq_dec : EqDecision PathPattern.
Proof. solve_decision. Defined.

(** [replace(/^\//, '')] *)
Definition strip_slash (s : string) : string :=
  match s with String c r => if is_slash c then r else s | "" => "" end.

Definition quoted (s : string) : string := str1 dquote +:+ s +:+ str1 dquote.
Definition of_ (raw : string) : result PathPattern :=
  if has_char nul raw then throw ("Pattern contains a NUL byte: " +:+ JSON_stringify raw)
  else
    let homeAnchored := (raw =? "~")%string || startsWith raw "~/" in
    let body := if homeAnchored then strip_slash (sdrop 1 raw) else strip_slash raw in
    if negb homeAnchored && negb (startsWith raw "/") && negb (startsWith raw RECURSIVE)
    then throw ("Pattern must be anchored to " +:+ quoted "/" +:+ ", " +:+ quoted "~/" +:+ " or " +:+ quoted RECURSIVE
                +:+ ": " +:+ JSON_stringify raw)
    else Ok (mkPattern raw (bfilter (λ s, 0 <? slen s) (split slash body)) homeAnchored).

(** ** Matching *)

(** The loop over the literal parts between the first and the last star. *)
Fixpoint match_middles (middles : list string) (segment : string) (lastLen cursor : nat) : bool :=
  match middles with
  | [] => true
  | middle :: rest =>
      if slen middle =? 0 then match_middles rest segment lastLen cursor
      else match indexOf_from segment middle cursor with
           | None => false
           | Some found =>
               if slen segment - lastLen <? found + slen middle then false
               else match_middles rest segment lastLen (found + slen middle)
           end
  end.

Definition last_part (parts : list string) : string :=
  match last parts with Some w => w | None => "" end.
Definition first_part (parts : list string) : string :=
  match parts with w :: _ => w | [] => "" end.

Definition matchSegment (pattern segment : string) : bool :=
  if negb (has_char star pattern) then (pattern =? segment)%string
  else
    let parts := split star pattern in
    let first := first_part parts in
    let last := last_part parts in
    if negb (startsWith segment first) then false
    else if slen segment <? slen first + slen last then false
    else if negb (endsWith segment last) then false
    else match_middles (removelast (tail parts)) segment (slen last) (slen first).

Fixpoint matchSegments (pattern : list string) : list string → bool :=
  match pattern with
  | [] => λ target, match target with [] => true | _ => false end
  | head :: rest =>
      if (head =? RECURSIVE)%string then
        fix skip (target : list string) : bool :=
          matchSegments rest target || match target with [] => false | _ :: t => skip t end
      else λ target,
        match target with
        | [] => false
        | segment :: t => if negb (matchSegment head segment) then false else matchSegments rest t
        end
  end.

Definition relativeTo (home path : AbsolutePath) : option (list string) :=
  if negb (AbsolutePath.contains home path) then None
  else Some (if (AbsolutePath.value path =? AbsolutePath.value home)%string then []
             else split slash (sdrop (slen (AbsolutePath.value home) + 1) (AbsolutePath.value path))).

Definition matches (p : PathPattern) (path home : AbsolutePath) : bool :=
  let target := if homeAnchored p then relativeTo home path
                else Some (AbsolutePath.segments path) in
  match target with
  | None => false
  | Some t => matchSegments (segments p) t
  end.

(** The segments before the first one that holds a star. *)
Fixpoint literal_head (segs : list string) : list string :=
  match segs with
  | [] => []
  | s :: r => if has_char star s then [] else s :: literal_head r
  end.

Definition literalPrefix (p : PathPattern) (home : AbsolutePath) : result (option AbsolutePath) :=
  match literal_head (segments p) with
  | [] => Ok (if homeAnchored p then Some home else None)
  | literal =>
      let! base := if homeAnchored p then Ok home else AbsolutePath.of_ "/" in
      rmap Some (AbsolutePath.joinp base literal)
  end.

Fixpoint from_wildcard (segs : list string) : list string :=
  match segs with
  | [] => []
  | s :: r => if has_char star s then s :: r else from_wildcard r
  end.

Definition descendsBelowPrefix (p : PathPattern) : bool :=
  match from_wildcard (segments p) with
  | [] => false
  | rest => (1 <? length rest) || str_includes rest RECURSIVE
  end.

(** ** The declarative reading of a pattern *)

(** A star stands for any characters of one segment. *)
Inductive wild : string → string → Prop :=
| wild_nil : wild "" ""
| wild_skip p s : wild p s → wild (String star p) s
| wild_take p c s : wild (String star p) s → wild (String star p) (String c s)
| wild_char p c s : c ≠ star → wild p s → wild (String c p) (String c s).

(** [**] stands for any number of whole segments, none included. *)
Inductive glob : list string → list string → Prop :=
| glob_nil : glob [] []
| glob_skip ps ts : glob ps ts → glob (RECURSIVE :: ps) ts
| glob_take ps t ts : glob (RECURSIVE :: ps) ts → glob (RECURSIVE :: ps) (t :: ts)
| glob_seg p ps t ts : p ≠ RECURSIVE → wild p t → glob ps ts → glob (p :: ps) (t :: ts).

(** ** Inside a segment *)

(** The parts of a pattern, separated by arbitrary gaps. *)
Fixpoint parts_match (parts : list string) (s : string) : Prop :=
  match parts with
  | [] => False
  | [x] => s = x
  | x :: r => ∃ gap t, s = x +:+ gap +:+ t ∧ parts_match r t
  end.

(** The parts after the first one, the last one excepted, float. *)
Fixpoint float (middles : list string) (last s : string) : Prop :=
  match middles with
  | [] => ∃ g, s = g +:+ last
  | m :: r => ∃ g t, s = g +:+ m +:+ t ∧ float r last t
  end.

Lemma float_mono ms l g s : float ms l s → float ms l (g +:+ s).
Proof.
  destruct ms as [|m ms]; simpl.
  - intros [h ->]. exists (g +:+ h). by rewrite sapp_assoc.
  - intros (h & t & -> & H). exists (g +:+ h), t. by rewrite !sapp_assoc.
Qed.

Lemma float_length ms l s : float ms l s → slen l ≤ slen s.
Proof.
  revert s. induction ms as [|m ms IH]; simpl; intros s.
  - intros [g ->]. rewrite slen_app. lia.
  - intros (g & t & -> & H%IH). rewrite !slen_app. lia.
Qed.

Lemma parts_match_cons x l s : l ≠ [] →
  parts_match (x :: l) s ↔ ∃ gap t, s = x +:+ gap +:+ t ∧ parts_match l t.
Proof. by destruct l. Qed.

Lemma parts_match_float x ms l s :
  parts_match (x :: ms ++ [l]) s ↔ ∃ r, s = x +:+ r ∧ float ms l r.
Proof.
  revert x s. induction ms as [|m ms IH]; intros x s.
  - simpl. split.
    + intros (g & t & -> & ->). eauto.
    + intros (r & -> & g & ->). eauto.
  - change (x :: (m :: ms) ++ [l]) with (x :: (m :: ms ++ [l])).
    rewrite parts_match_cons by (by destruct ms).
    split.
    + intros (g & t & -> & (r & -> & H)%IH). exists (g +:+ m +:+ r). split; [done|].
      simpl. eauto.
    + intros (r & -> & H). simpl in H. destruct H as (g & t & -> & H).
      exists g, (m +:+ t). split; [done|]. apply IH. eauto.
Qed.

(** The greedy scan finds a placement whenever there is one. *)
Lemma match_middles_float ms seg l a r :
  seg = a +:+ r → (∃ b, r = b +:+ l) →
  match_middles ms seg (slen l) (slen a) = true ↔ float ms l r.
Proof.
  revert a r. induction ms as [|m ms IH]; intros a r Hseg [b Hb]; simpl.
  { split; [|done]. eauto. }
  destruct (slen m =? 0) eqn:Hm.
  { destruct m; [|done]. rewrite IH by eauto. split.
    - intros H. by exists "", r.
    - intros (g & t & -> & H). by apply float_mono. }
  unfold indexOf_from. rewrite Hseg, sdrop_app. destruct (indexOf r m) as [i|] eqn:Hi; simpl.
  - destruct (indexOf_some _ _ _ Hi) as (g & t & Hr & Hg). subst i.
    destruct (slen (a +:+ r) - slen l <? slen a + slen g + slen m) eqn:Hlim; bool_prop.
    + split; [done|]. intros (g' & t' & Hr' & Hf).
      pose proof (indexOf_leftmost _ _ _ _ _ Hi Hr'). apply float_length in Hf.
      rewrite Hr', !slen_app in Hlim. lia.
    + assert (∃ h, t = h +:+ l) as Ht.
      { rewrite Hr, <-sapp_assoc in Hb. apply sapp_split_le in Hb as (h & _ & ->); [eauto|].
        rewrite Hr in Hlim. apply (f_equal slen) in Hb. rewrite !slen_app in *. lia. }
      replace (slen a + slen g + slen m) with (slen (a +:+ g +:+ m)) by (rewrite !slen_app; lia).
      rewrite <-Hseg, IH; [|by rewrite Hseg, Hr, !sapp_assoc|done]. split; [eauto|].
      intros (g' & t' & Hr' & Hf). pose proof (indexOf_leftmost _ _ _ _ _ Hi Hr') as Hle.
      rewrite Hr, <-!sapp_assoc in Hr'.
      apply sapp_split_le in Hr' as (h & _ & ->); [by apply float_mono|].
      rewrite !slen_app. lia.
  - split; [done|]. intros (g & t & -> & _). apply indexOf_none in Hi. destruct Hi. eauto.
Qed.

Lemma split_star_shape p : has_char star p = true →
  ∃ f ms l, split star p = f :: ms ++ [l].
Proof.
  intros Hp. destruct (split star p) as [|f r] eqn:E; [by apply split_nonempty in E|].
  destruct r as [|x r'] using rev_ind; [|eauto].
  exfalso. pose proof (join_split star p) as Hj. rewrite E in Hj. simpl in Hj. subst f.
  pose proof (split_chars star p) as Hc. rewrite E in Hc. inv Hc. congruence.
Qed.

Lemma matchSegment_parts p s :
  matchSegment p s = true ↔ parts_match (split star p) s.
Proof.
  unfold matchSegment. destruct (has_char star p) eqn:Hp; simpl.
  - destruct (split_star_shape p Hp) as (f & ms & l & ->).
    rewrite parts_match_float. unfold last_part, first_part.
    change (f :: ms ++ [l]) with ((f :: ms) ++ [l]). rewrite last_snoc. simpl tail.
    change (tail ((f :: ms) ++ [l])) with (ms ++ [l]). rewrite removelast_last.
    split.
    + intros H. destruct (startsWith s f) eqn:Hsw; [|done].
      destruct (slen s <? slen f + slen l) eqn:Hlen; [done|].
      destruct (endsWith s l) eqn:Hew; [|done]. bool_prop. simpl in H.
      apply startsWith_true in Hsw as [r ->]. apply endsWith_true in Hew as [b Hb].
      exists r. split; [done|]. apply (match_middles_float ms (f +:+ r) l f r); [done| |done].
      rewrite slen_app in Hlen. apply sapp_split_le in Hb as (h & _ & ->); [eauto|].
      apply (f_equal slen) in Hb. rewrite !slen_app in Hb. lia.
    + intros (r & -> & H). pose proof (float_length _ _ _ H) as Hl.
      assert (∃ b, r = b +:+ l) as Hb.
      { clear Hl. revert r H. induction ms as [|m ms IH]; simpl; intros r H; [done|].
        destruct H as (g & t & -> & [b ->]%IH). exists (g +:+ m +:+ b). by rewrite !sapp_assoc. }
      replace (startsWith (f +:+ r) f) with true by (symmetry; apply prefix_app). simpl.
      replace (slen (f +:+ r) <? slen f + slen l) with false
        by (symmetry; apply Nat.ltb_ge; rewrite slen_app; lia).
      replace (endsWith (f +:+ r) l) with true.
      { simpl. by apply (match_middles_float ms (f +:+ r) l f r). }
      symmetry. apply endsWith_true. destruct Hb as [b ->]. exists (f +:+ b). by rewrite sapp_assoc.
  - rewrite split_no_sep by done. simpl. rewrite String.eqb_eq. naive_solver.
Qed.

Lemma wild_parts p s : wild p s ↔ parts_match (split star p) s.
Proof.
  split.
  - induction 1 as [|p s _ IH|p c s _ IH|p c s Hc _ IH]; simpl; [done|..].
    + apply parts_match_cons; [apply split_nonempty|]. by exists "", s.
    + simpl in IH. apply parts_match_cons in IH as (g & t & -> & H); [|apply split_nonempty].
      apply parts_match_cons; [apply split_nonempty|]. by exists (String c g), t.
    + apply Ascii.eqb_neq in Hc. rewrite Hc.
      destruct (split star p) as [|w [|x r]]; simpl in *; [done| |].
      * by subst.
      * destruct IH as (g & t & -> & H). by exists g, t.
  - revert s. induction p as [|c p IH]; intros s; simpl.
    + intros ->. constructor.
    + destruct (Ascii.eqb c star) eqn:Hc.
      * apply Ascii.eqb_eq in Hc as ->. rewrite parts_match_cons by apply split_nonempty.
        intros (g & t & -> & H%IH). simpl. induction g; simpl; by constructor.
      * apply Ascii.eqb_neq in Hc. pose proof (split_nonempty star p).
        destruct (split star p) as [|w [|x r]]; simpl in *; [done| |].
        -- intros ->. constructor; [done|]. by apply IH.
        -- intros (g & t & -> & H'). constructor; [done|]. apply IH. eauto.
Qed.

Lemma matchSegment_wild p s : matchSegment p s = true ↔ wild p s.
Proof. by rewrite matchSegment_parts, wild_parts. Qed.

(** A pattern without a star is a literal. *)
Lemma wild_literal p s : has_char star p = false → wild p s ↔ s = p.
Proof. intros Hp. rewrite wild_parts, split_no_sep by done. done. Qed.

(** ** Across segments *)

Lemma matchSegments_glob ps ts : matchSegments ps ts = true ↔ glob ps ts.
Proof.
  revert ts. induction ps as [|p ps IH]; intros ts.
  - destruct ts; simpl; split; try done; [constructor|by inversion 1].
  - simpl. destruct (p =? RECURSIVE)%string eqn:Hp; bool_prop.
    + subst p. induction ts as [|t ts IHt].
      * rewrite orb_false_r, IH. split; [by constructor|]. inversion 1; by subst.
      * rewrite orb_true_iff, IH, IHt. split; [intros [?|?]; by constructor|].
        inversion 1; subst; [by left|by right|done].
    + destruct ts as [|t ts].
      * split; [done|]. inversion 1; by subst.
      * destruct (matchSegment p t) eqn:Hm; simpl; rewrite ?IH.
        -- apply matchSegment_wild in Hm. split; [by constructor|]. inversion 1; by subst.
        -- split; [done|]. inversion 1; subst; try done.
           apply not_true_iff_false in Hm. destruct Hm. by apply matchSegment_wild.
Qed.

Lemma glob_literals lits ts : Forall (λ w, has_char star w = false) lits →
  ∀ ps, glob (lits ++ ps) ts ↔ ∃ k, ts = lits ++ k ∧ glob ps k.
Proof.
  intros Hl ps. revert ts. induction Hl as [|w l Hw Hl IH]; intros ts; simpl.
  - split; [by exists ts|]. by intros (k & -> & ?).
  - split.
    + inversion 1 as [|? ? ? E|? ? ? ? E|? ? ? ? Hne Hwild Hglob]; subst;
        [discriminate Hw..|].
      apply wild_literal in Hwild as ->; [|done]. apply IH in Hglob as (k & -> & Hk). by exists k.
    + intros (k & -> & Hk). apply glob_seg; [by intros ->|by apply wild_literal|].
      apply IH. eauto.
Qed.

Lemma glob_recursive_all ts : glob [RECURSIVE] ts.
Proof. induction ts; [constructor; constructor|by apply glob_take]. Qed.

(** ** Patterns over POSIX paths *)


Lemma abs_text_app h t : h ≠ [] → t ≠ [] → abs_text (h ++ t) = abs_text h +:+ "/" +:+ join "/" t.
Proof. intros Hh Ht. unfold abs_text. by rewrite join_app, !sapp_assoc. Qed.

(** Below a home other than the root, the relative segments are what follows the
    segments of the home. *)
Lemma relativeTo_posix h q t : h ≠ [] → Forall clean_seg h → Forall clean_seg q →
  relativeTo (AbsolutePath.posix_path h) (AbsolutePath.posix_path q) = Some t ↔ q = h ++ t.
Proof.
  intros Hh Hch Hcq. unfold relativeTo.
  destruct (AbsolutePath.contains (AbsolutePath.posix_path h) (AbsolutePath.posix_path q)) eqn:Hc; cbn [negb].
  - apply AbsolutePath.contains_posix in Hc as [k ->]; [|done..]. unfold AbsolutePath.posix_path. cbn [AbsolutePath.value].
    destruct k as [|x k].
    + rewrite app_nil_r, String.eqb_refl. rewrite <-(app_nil_r h) at 1.
      rewrite (inj_iff (app h)). naive_solver.
    + destruct (abs_text (h ++ x :: k) =? abs_text h)%string eqn:E.
      { apply String.eqb_eq, AbsolutePath.abs_text_inj in E; [|done..].
        rewrite <-(app_nil_r h) in E at 2. by simplify_list_eq. }
      rewrite abs_text_app by done.
      replace (slen (abs_text h) + 1) with (slen (abs_text h +:+ "/")) by by rewrite slen_app.
      rewrite <-sapp_assoc, sdrop_app. change (join "/") with (join (str1 slash)).
      apply Forall_app in Hcq as [_ Hcq].
      rewrite split_join; [rewrite (inj_iff (app h)); naive_solver|done|].
      eapply Forall_impl; [exact Hcq|]. by intros w [? _].
  - split; [done|]. intros ->. apply not_true_iff_false in Hc. destruct Hc.
    apply AbsolutePath.contains_posix; [done..|]. by exists t.
Qed.

Lemma matches_home_posix p h q : homeAnchored p = true → h ≠ [] →
  Forall clean_seg h → Forall clean_seg q →
  matches p (AbsolutePath.posix_path q) (AbsolutePath.posix_path h) = true ↔ ∃ t, q = h ++ t ∧ glob (segments p) t.
Proof.
  intros Hp Hh Hch Hcq. unfold matches. rewrite Hp.
  destruct (relativeTo _ _) as [t|] eqn:E.
  - apply relativeTo_posix in E as ->; [|done..]. rewrite matchSegments_glob. split; [eauto|].
    intros (t' & Ht & Hg). by simplify_list_eq.
  - split; [done|]. intros (t & Hq & _). apply (relativeTo_posix h q t) in Hq; [|done..]. congruence.
Qed.

Lemma matches_subtree_posix p h q lits : homeAnchored p = true → h ≠ [] →
  segments p = lits ++ [RECURSIVE] → Forall (λ w, has_char star w = false) lits →
  Forall clean_seg h → Forall clean_seg q →
  matches p (AbsolutePath.posix_path q) (AbsolutePath.posix_path h) = true ↔ (h ++ lits) `prefix_of` q.
Proof.
  intros Hp Hh Hs Hl Hch Hcq. rewrite matches_home_posix, Hs by done.
  setoid_rewrite glob_literals; [|done]. split.
  - intros (t & -> & k & -> & _). exists k. by rewrite app_assoc.
  - intros [k ->]. exists (lits ++ k). rewrite app_assoc. split; [done|].
    exists k. split; [done|]. apply glob_recursive_all.
Qed.

(** ** Properties *)

(** C37. The matcher decides the declarative glob semantics: a star ranges over the
    characters of one segment, [**] over whole segments, none included, although
    the scan inside a segment is greedy and never backtracks. *)
Theorem matches_iff_glob p path home :
  matches p path home = true ↔
  match (if homeAnchored p then relativeTo home path else Some (AbsolutePath.segments path)) with
  | Some target => glob (segments p) target
  | None => False
  end.
Proof. unfold matches. destruct (if homeAnchored p then _ else _); [apply matchSegments_glob|done]. Qed.

(** A home-anchored pattern [~/d/**] claims the directory itself and everything
    below it, and nothing else, for every POSIX home other than the root. *)
Theorem subtree_pattern_protects p rawHome home rawPath path lits :
  homeAnchored p = true → segments p = lits ++ [RECURSIVE] →
  Forall (λ w, has_char star w = false) lits →
  AbsolutePath.of_ rawHome = Ok home → AbsolutePath.flavour home = AbsolutePath.posix_flavour → AbsolutePath.value home ≠ "/" →
  AbsolutePath.of_ rawPath = Ok path → AbsolutePath.flavour path = AbsolutePath.posix_flavour →
  matches p path home = true ↔
  (AbsolutePath.segments home ++ lits) `prefix_of` AbsolutePath.segments path.
Proof.
  intros Hp Hs Hl H1 F1 Hroot H2 F2. AbsolutePath.posix_segs H1 F1. AbsolutePath.posix_segs H2 F2.
  rewrite !AbsolutePath.segments_posix_path by done. apply matches_subtree_posix; try done.
  intros ->. by destruct Hroot.
Qed.

Lemma subtree_pattern_protects_witness :
  ∃ p, of_ "~/.ssh/**" = Ok p ∧
  (matches p (AbsolutePath.posix_path ["home"; "u"; ".ssh"]) (AbsolutePath.posix_path ["home"; "u"]) = true ↔
   ["home"; "u"; ".ssh"] `prefix_of` ["home"; "u"; ".ssh"]).
Proof.
  eexists. split; [reflexivity|].
  apply (subtree_pattern_protects _ "/home/u" (AbsolutePath.posix_path ["home"; "u"]) "/home/u/.ssh"
           (AbsolutePath.posix_path ["home"; "u"; ".ssh"]) [".ssh"]);
    try reflexivity; try (by vm_compute).
  repeat constructor.
Defined.

(** With the root as home the first character of every relative path is lost, so
    the pattern that protects [~/.ssh] matches none of it. *)
Theorem root_home_unprotected :
  ∃ p, of_ "~/.ssh/**" = Ok p ∧
  AbsolutePath.of_ "/.ssh/id_rsa" = Ok (AbsolutePath.posix_path [".ssh"; "id_rsa"]) ∧
  relativeTo (AbsolutePath.posix_path []) (AbsolutePath.posix_path [".ssh"; "id_rsa"]) = Some ["ssh"; "id_rsa"] ∧
  matches p (AbsolutePath.posix_path [".ssh"; "id_rsa"]) (AbsolutePath.posix_path []) = false.
Proof. eexists. repeat split. Qed.

End PathPattern.
Abbreviation PathPattern := PathPattern.PathPattern.

(** ** Texts of POSIX paths *)

Module PosixText.
(** A root whose text no form of Windows path can be read into. *)
Definition ordinary (segs : list string) : Prop :=
  match segs with String c _ :: _ => c ≠ backslash ∧ c ≠ "?"%char | _ => False end.

Lemma normalize_abs_text segs : segs ≠ [] → Forall clean_seg segs → posix.normalize (abs_text segs) = abs_text segs.
Proof.
  intros Hne Hc. unfold posix.normalize.
  assert (startsWith (abs_text segs) "/" = true) as -> by (unfold abs_text; apply prefix_app).
  change (negb true) with false. rewrite (normalize_segs_abs_text segs Hc).
  destruct (String.eqb_spec (abs_text segs) "") as [E|_]; [done|].
  destruct (String.eqb_spec (join "/" segs) "") as [E|_]; [by apply join_clean_nonempty in E|].
  destruct (AbsolutePath.clean_join_snoc segs Hne Hc) as (t & c & E & Hs). unfold abs_text. rewrite E.
  assert (last_is is_slash ("/" +:+ t +:+ str1 c) = false) as ->.
  { unfold last_is. change ("/" +:+ t +:+ str1 c) with (("/" +:+ t) +:+ str1 c). by rewrite last_char_snoc. }
  by rewrite sapp_nil_r.
Qed.

Lemma ordinary_text segs : ordinary segs → Forall clean_seg segs →
  AbsolutePath.isWindowsDeviceNamespace (abs_text segs) = false ∧ AbsolutePath.WINDOWS_UNC (abs_text segs) = false.
Proof.
  intros Ho Hc. destruct segs as [|[|c w] l]; [done..|]. destruct Ho as [Hb Hq]. inv Hc.
  assert (∃ r, abs_text (String c w :: l) = String slash (String c r)) as [r ->].
  { unfold abs_text. destruct l; [by exists w|]. rewrite join_cons by done. eexists. done. }
  assert (Ascii.eqb c slash = false) as Hs.
  { destruct H1 as (H1 & _). cbn in H1. by bool_prop. }
  apply Ascii.eqb_neq in Hb, Hq. split.
  - unfold AbsolutePath.isWindowsDeviceNamespace, replace_char. cbn [smap]. rewrite Hb.
    assert (∀ x y z u t, startsWith (String x (String c t)) (String y (String z u)) = true → z = c) as Hst.
    { intros x y z u t [v E]%startsWith_true. cbn in E. congruence. }
    repeat (apply orb_false_iff; split); apply not_true_iff_false; intros E; apply Hst in E; subst c; done.
  - destruct r as [|d r]; [done|]. unfold AbsolutePath.WINDOWS_UNC, win32.is_sep. by rewrite Hs, Hb.
Qed.

(** Joining names to an ordinary path appends them. *)
Lemma joinp_names segs ns : ordinary segs → ns ≠ [] → Forall clean_seg (segs ++ ns) →
  Forall AbsolutePath.no_nul (segs ++ ns) →
  AbsolutePath.joinp (AbsolutePath.posix_path segs) [join "/" ns] = Ok (AbsolutePath.posix_path (segs ++ ns)).
Proof.
  intros Ho Hns Hc Hn. unfold AbsolutePath.joinp, AbsolutePath.isWindows, posix.join. cbn.
  assert (segs ≠ []) as Hne by by destruct segs.
  pose proof (proj1 (Forall_app _ _ _) Hc) as [_ Hcn].
  assert ((join "/" ns =? "")%string = false) as -> by by apply String.eqb_neq, join_clean_nonempty. cbn.
  assert (ordinary (segs ++ ns)) as Ho' by by destruct segs as [|[]].
  destruct (ordinary_text (segs ++ ns) Ho' Hc) as [Hd Hu].
  rewrite <-(AbsolutePath.of_posix_text (segs ++ ns)); [|done..].
  f_equal. rewrite <-(normalize_abs_text (segs ++ ns)) by (done || by destruct segs).
  f_equal. rewrite PathPattern.abs_text_app by done. done.
Qed.
Lemma joinp_posix segs n : ordinary segs → Forall clean_seg segs → clean_seg n →
  Forall AbsolutePath.no_nul segs → AbsolutePath.no_nul n →
  AbsolutePath.joinp (AbsolutePath.posix_path segs) [n] = Ok (AbsolutePath.posix_path (segs ++ [n])).
Proof.
  intros Ho Hc Hcn Hn Hnn. apply (joinp_names segs [n]); [done..| |]; apply Forall_app; by split; [|constructor].
Qed.

(** What a user reads of an ordinary path is what the path is read from. *)
Lemma fromUserPath_toDisplay h q : ordinary h → ordinary q → Forall clean_seg h → Forall clean_seg q →
  Forall AbsolutePath.no_nul q →
  AbsolutePath.fromUserPath (AbsolutePath.toDisplay (AbsolutePath.posix_path q) (AbsolutePath.posix_path h))
    (AbsolutePath.posix_path h) = Ok (AbsolutePath.posix_path q).
Proof.
  intros Hh Hq Hch Hcq Hn. unfold AbsolutePath.toDisplay.
  destruct (AbsolutePath.equals _ _) eqn:E; [by apply AbsolutePath.equals_posix in E as ->|].
  destruct (AbsolutePath.contains _ _) eqn:Hc.
  - apply AbsolutePath.contains_posix in Hc as [t ->]; [|done..].
    assert (t ≠ []) as Ht.
    { intros ->. rewrite app_nil_r in E. apply not_true_iff_false in E. apply E. by apply AbsolutePath.equals_posix. }
    assert (h ≠ []) as Hhne by by destruct h.
    unfold AbsolutePath.fromUserPath. cbn [AbsolutePath.value AbsolutePath.posix_path].
    rewrite PathPattern.abs_text_app, sdrop_app by done.
    change (("~" +:+ "/" +:+ join "/" t =? "~")%string) with false. cbv iota.
    assert (startsWith ("~" +:+ "/" +:+ join "/" t) "~/" = true) as -> by apply (prefix_app "~/").
    change (sdrop 2 ("~" +:+ "/" +:+ join "/" t)) with (join "/" t). by apply joinp_names.
  - cbn [AbsolutePath.value AbsolutePath.posix_path]. destruct (ordinary_text q Hq Hcq) as [Hd Hu].
    unfold AbsolutePath.fromUserPath. cbn [AbsolutePath.isWindows AbsolutePath.flavour AbsolutePath.posix_path].
    unfold abs_text at 1 2 3. cbn. by apply AbsolutePath.of_posix_text.
Qed.
(** Names of files, and texts that make one. *)
Definition good_name (n : string) : Prop := clean_seg n ∧ AbsolutePath.no_nul n.
Definition plain (c : ascii) : bool := negb (Ascii.eqb c slash) && negb (Ascii.eqb c nul).
Lemma plain_chars s : sforall plain s = true → has_char slash s = false ∧ has_char nul s = false.
Proof.
  induction s as [|c s IH]; [done|]. cbn. intros [Hp Hs]%andb_true_iff. destruct (IH Hs) as [-> ->].
  unfold plain in Hp. apply andb_true_iff in Hp as [H1 H2]. apply negb_true_iff in H1 as ->, H2 as ->. done.
Qed.
Lemma plain_good s : sforall plain s = true → 3 ≤ slen s → good_name s.
Proof.
  intros [Hs Hn]%plain_chars Hl. split; [|done]. split; [done|]. split_and!; intros ->; cbn in Hl; lia.
Qed.
Lemma lower_hex_plain s : sforall is_hex_lower s = true → sforall plain s = true.
Proof. intros Hs. eapply sforall_impl; [|exact Hs]. intros c. by destruct c as [[] [] [] [] [] [] [] []]. Qed.

(** A path all of whose uses stay on the POSIX side. *)
Definition plain_path (p : AbsolutePath) : Prop :=
  ∃ segs, p = AbsolutePath.posix_path segs ∧ ordinary segs ∧ Forall clean_seg segs ∧ Forall AbsolutePath.no_nul segs.
Lemma plain_read p : plain_path p → AbsolutePath.of_ (AbsolutePath.value p) = Ok p.
Proof. intros (segs & -> & Ho & Hc & Hn). destruct (ordinary_text segs Ho Hc) as [Hd Hu]. by apply AbsolutePath.of_posix_text. Qed.
Lemma plain_join p ns : plain_path p → ns ≠ [] → Forall good_name ns → ∃ q, AbsolutePath.joinp p [join "/" ns] = Ok q ∧ plain_path q.
Proof.
  intros (segs & -> & Ho & Hc & Hn) Hns Hg. apply Forall_and in Hg as [Hgc Hgn]. exists (AbsolutePath.posix_path (segs ++ ns)).
  assert (Forall clean_seg (segs ++ ns)) by by apply Forall_app. assert (Forall AbsolutePath.no_nul (segs ++ ns)) by by apply Forall_app.
  split; [by apply joinp_names|]. exists (segs ++ ns). split_and!; try done. by destruct segs as [|[]].
Qed.
End PosixText.
