(* ===== verification/Values.v ===== *)
(** * Small value objects (src/domain/value-objects)

    Tiers, dispositions, severities, platforms, rule identifiers, content hashes,
    workspace identifiers, grant scopes and source locations. The digest function of
    [node:crypto] is reached through the class [Digest]. *)

From S2P Require Import Prelude JsString NodePath Paths.

(** ** The digest interface *)

Definition hex_string (n : nat) (s : string) : bool := (slen s =? n) && sforall is_hex_lower s.

(** [createHash('sha256').update(s).digest('hex')]: sixty-four lower-case
    hexadecimal digits. *)
Class Digest := {
  sha256_hex : string → string;
  sha256_hex_format : ∀ s, hex_string 64 (sha256_hex s) = true
}.

Lemma sha256_hex_length `{Digest} s : slen (sha256_hex s) = 64.
Proof. pose proof (sha256_hex_format s) as Hf. unfold hex_string in Hf. by bool_prop. Qed.

Lemma sforall_stake p n s : sforall p s = true → sforall p (stake n s) = true.
Proof.
  revert s. induction n as [|n IH]; intros [|c s]; simpl; try done.
  intros H. bool_prop. by rewrite H, IH.
Qed.

Lemma hex_string_stake n m s : n ≤ m → hex_string m s = true → hex_string n (stake n s) = true.
Proof.
  unfold hex_string. intros Hn H. bool_prop. rewrite slen_stake, sforall_stake by done.
  rewrite andb_true_r. apply Nat.eqb_eq. lia.
Qed.

(** ** Access tiers (AccessTier.ts) *)

Module AccessTier.
Inductive AccessTier := EVERYDAY | DANGEROUS.
#[global] Instance AccessTier_eq_dec : EqDecision AccessTier.
Proof. solve_decision. Defined.

Definition ALL : list AccessTier := [EVERYDAY; DANGEROUS].
Definition level (t : AccessTier) : Z := match t with EVERYDAY => 1 | DANGEROUS => 2 end.
Definition canBeGrantedAtRuntime (t : AccessTier) : bool :=
  match t with EVERYDAY => true | DANGEROUS => false end.
Definition ofLevel (l : Z) : result AccessTier :=
  match find (λ t, (level t =? l)%Z) ALL with
  | Some t => Ok t
  | None => throw ("Unknown access tier: " +:+ string_of_Z l)
  end.
End AccessTier.
Abbreviation AccessTier := AccessTier.AccessTier.

(** ** Dispositions (Disposition.ts) *)

Module Disposition.
Inductive Disposition := BLOCK | ASK | OBSERVE.
#[global] Instance Disposition_eq_dec : EqDecision Disposition.
Proof. solve_decision. Defined.

Definition ALL : list Disposition := [BLOCK; ASK; OBSERVE].
Definition name (d : Disposition) : string :=
  match d with BLOCK => "block" | ASK => "ask" | OBSERVE => "observe" end.
Definition strictness (d : Disposition) : Z :=
  match d with BLOCK => 2 | ASK => 1 | OBSERVE => 0 end.
(** The action is refused. *)
Definition stops (d : Disposition) : bool := match d with BLOCK => true | _ => false end.
(** The user is interrupted with a question. *)
Definition interrupts (d : Disposition) : bool := match d with ASK => true | _ => false end.

Definition of_ (n : string) : result Disposition :=
  match find (λ d, (name d =? n)%string) ALL with
  | Some d => Ok d
  | None => throw ("Unknown disposition: " +:+ JSON_stringify n)
  end.

Definition strictest (ds : list Disposition) : Disposition :=
  fold_left (λ s c, if (strictness s <? strictness c)%Z then c else s) ds OBSERVE.

Lemma disposition_of_name d : of_ (name d) = Ok d.
Proof. by destruct d. Qed.

Lemma strictness_inj d1 d2 : strictness d1 = strictness d2 → d1 = d2.
Proof. by destruct d1, d2. Qed.

Lemma strictest_fold ds s :
  let r := fold_left (λ s c, if (strictness s <? strictness c)%Z then c else s) ds s in
  (strictness s ≤ strictness r)%Z ∧ (∀ d, d ∈ ds → (strictness d ≤ strictness r)%Z)
  ∧ (r = s ∨ r ∈ ds).
Proof.
  revert s. induction ds as [|d ds IH]; intros s; cbn [fold_left].
  - split; [lia|]. split; [set_solver|by left].
  - destruct (IH (if (strictness s <? strictness d)%Z then d else s)) as (H1 & H2 & H3).
    split; [|split].
    + revert H1. case_if; bool_prop; lia.
    + intros x [->|Hx]%elem_of_cons; [|by apply H2]. revert H1. case_if; bool_prop; lia.
    + rewrite elem_of_cons. destruct H3 as [->|]; [case_if|]; auto.
Qed.

(** The strictest disposition is the maximum of the list, [OBSERVE] by default. *)
Lemma strictest_ge ds d : d ∈ ds → (strictness d ≤ strictness (strictest ds))%Z.
Proof. intros Hd. by apply (strictest_fold ds OBSERVE). Qed.

Lemma strictest_in ds : strictest ds = OBSERVE ∨ strictest ds ∈ ds.
Proof. apply (strictest_fold ds OBSERVE). Qed.

Lemma strictest_block ds : strictest ds = BLOCK ↔ BLOCK ∈ ds.
Proof.
  split.
  - intros E. destruct (strictest_in ds) as [H|H]; [congruence|by rewrite E in H].
  - intros H. apply strictest_ge in H. by destruct (strictest ds); simpl in H; [|lia..].
Qed.
End Disposition.
Abbreviation Disposition := Disposition.Disposition.

(** ** Severities (Severity.ts) *)

Module Severity.
Inductive Severity := LOW | MEDIUM | HIGH | CRITICAL.
#[global] Instance Severity_eq_dec : EqDecision Severity.
Proof. solve_decision. Defined.

Definition ALL : list Severity := [LOW; MEDIUM; HIGH; CRITICAL].
Definition name (s : Severity) : string :=
  match s with LOW => "low" | MEDIUM => "medium" | HIGH => "high" | CRITICAL => "critical" end.
Definition rank (s : Severity) : nat :=
  match s with LOW => 0 | MEDIUM => 1 | HIGH => 2 | CRITICAL => 3 end.
Definition ORDER : list string := ["low"; "medium"; "high"; "critical"].

Definition of_ (n : string) : result Severity :=
  match find (λ s, (name s =? n)%string) ALL with
  | Some s => Ok s
  | None => throw ("Unknown severity: " +:+ JSON_stringify n)
  end.

Definition isAtLeast (s other : Severity) : bool := rank other <=? rank s.

Definition escalated (s : Severity) : result Severity :=
  let next := ORDER !! Nat.min (rank s + 1) (length ORDER - 1) in
  of_ (match next with Some n => n | None => name s end).

Lemma severity_of_name s : of_ (name s) = Ok s.
Proof. by destruct s. Qed.

Lemma isAtLeast_spec s t : isAtLeast s t = true ↔ rank t ≤ rank s.
Proof. apply Nat.leb_le. Qed.

(** One rank higher, the highest staying where it is; never an error. *)
Lemma escalated_rank s :
  ∃ t, escalated s = Ok t ∧ rank t = Nat.min (rank s + 1) 3.
Proof. destruct s; eexists; (split; [reflexivity|done]). Qed.
End Severity.
Abbreviation Severity := Severity.Severity.

(** ** Platforms (Platform.ts) *)

Module Platform.
Inductive Platform := Darwin | Linux | Win32.
#[global] Instance Platform_eq_dec : EqDecision Platform.
Proof. solve_decision. Defined.

Definition PLATFORMS : list Platform := [Darwin; Linux; Win32].
Definition POSIX_PLATFORMS : list Platform := [Darwin; Linux].
Definition name (p : Platform) : string :=
  match p with Darwin => "darwin" | Linux => "linux" | Win32 => "win32" end.
Definition isPlatform (v : string) : bool := str_includes (map name PLATFORMS) v.
End Platform.
Abbreviation Platform := Platform.Platform.

(** ** Accesses (SensitivePath.ts) *)

Inductive Access := read | write.
#[global] Instance Access_eq_dec : EqDecision Access.
Proof. solve_decision. Defined.
Definition access_name (a : Access) : string := match a with read => "read" | write => "write" end.

(** ** Rule identifiers (RuleId.ts) *)

Module RuleId.
Record RuleId := mkRuleId { value : string; category : string; number : Z }.
#[global] Instance RuleId_eq_dec : EqDecision RuleId.
Proof. solve_decision. Defined.

(** [/^AG-([A-Z])(\d{3})$/] *)
Definition FORMAT (raw : string) : option (string * string) :=
  match raw with
  | String "A" (String "G" (String "-" (String c digits))) =>
      if is_upper c && (slen digits =? 3) && sforall is_digit digits
      then Some (str1 c, digits) else None
  | _ => None
  end.

Definition of_ (raw : string) : result RuleId :=
  match FORMAT raw with
  | Some (c, digits) => Ok (mkRuleId raw c (digits_value 0 digits))
  | None => throw ("Malformed rule id: " +:+ JSON_stringify raw)
  end.

Definition equals (a b : RuleId) : bool := (value a =? value b)%string.
End RuleId.
Abbreviation RuleId := RuleId.RuleId.

(** ** Content hashes (ContentHash.ts) *)

Module ContentHash.
Record ContentHash := mkHash { hex : string }.
#[global] Instance ContentHash_eq_dec : EqDecision ContentHash.
Proof. solve_decision. Defined.

Definition fromContent `{Digest} (content : string) : ContentHash := mkHash (sha256_hex content).

(** [/^sha256:([0-9a-f]{64})$/] *)
Definition SERIALISED (s : string) : option string :=
  if startsWith s "sha256:" && hex_string 64 (sdrop 7 s) then Some (sdrop 7 s) else None.

Definition parse (serialised : string) : result ContentHash :=
  match SERIALISED serialised with
  | Some h => Ok (mkHash h)
  | None => throw ("Malformed content hash: " +:+ JSON_stringify serialised)
  end.

Definition short (h : ContentHash) : string := stake 8 (hex h).
Definition equals (a b : ContentHash) : bool := (hex a =? hex b)%string.
Definition toString (h : ContentHash) : string := "sha256:" +:+ hex h.

(** A hash is its hexadecimal text. *)
Lemma equals_spec a b : equals a b = true ↔ a = b.
Proof. destruct a, b. unfold equals. rewrite String.eqb_eq. cbn. split; congruence. Qed.

Lemma hash_parse_toString h : hex_string 64 (hex h) = true → parse (toString h) = Ok h.
Proof.
  intros Hh. unfold parse, SERIALISED, toString.
  unfold startsWith. rewrite prefix_app.
  assert (sdrop 7 ("sha256:" +:+ hex h) = hex h) as -> by apply (sdrop_app "sha256:").
  rewrite Hh.
  by destruct h.
Qed.
End ContentHash.
Abbreviation ContentHash := ContentHash.ContentHash.

(** ** Workspace identifiers (WorkspaceId.ts) *)

Module WorkspaceId.
Record WorkspaceId := mkWorkspaceId { value : string }.
#[global] Instance WorkspaceId_eq_dec : EqDecision WorkspaceId.
Proof. solve_decision. Defined.

(** [/^[0-9a-f]{16}$/] *)
Definition FORMAT (raw : string) : bool := hex_string 16 raw.

Definition fromPath `{Digest} (path : AbsolutePath) : WorkspaceId :=
  mkWorkspaceId (stake 16 (sha256_hex (AbsolutePath.value path))).

Definition parse (raw : string) : result WorkspaceId :=
  if negb (FORMAT raw) then throw ("Malformed workspace id: " +:+ JSON_stringify raw)
  else Ok (mkWorkspaceId raw).

Definition equals (a b : WorkspaceId) : bool := (value a =? value b)%string.
Definition toString (w : WorkspaceId) : string := value w.

Lemma fromPath_format `{Digest} p : FORMAT (value (fromPath p)) = true.
Proof. apply (hex_string_stake 16 64); [lia|]. apply sha256_hex_format. Qed.
End WorkspaceId.
Abbreviation WorkspaceId := WorkspaceId.WorkspaceId.

(** ** Grant scopes (GrantScope.ts) *)

Module GrantScope.
Record GrantScope := mkScope { workspace : option WorkspaceId }.
#[global] Instance GrantScope_eq_dec : EqDecision GrantScope.
Proof. solve_decision. Defined.

Definition global_ : GrantScope := mkScope None.
Definition forWorkspace (id : WorkspaceId) : GrantScope := mkScope (Some id).

Definition parse (raw : string) : result GrantScope :=
  if (raw =? "global")%string then Ok global_
  else if startsWith raw "workspace:"
  then rmap forWorkspace (WorkspaceId.parse (sdrop (slen "workspace:") raw))
  else throw ("Malformed grant scope: " +:+ JSON_stringify raw).

Definition isGlobal (s : GrantScope) : bool :=
  match workspace s with None => true | Some _ => false end.
Definition appliesTo (s : GrantScope) (id : WorkspaceId) : bool :=
  match workspace s with None => true | Some w => WorkspaceId.equals w id end.
Definition toString (s : GrantScope) : string :=
  match workspace s with None => "global" | Some w => "workspace:" +:+ WorkspaceId.toString w end.

Lemma scope_parse_toString s :
  match workspace s with None => True | Some w => WorkspaceId.FORMAT (WorkspaceId.value w) = true end →
  parse (toString s) = Ok s.
Proof.
  destruct s as [[[w]|]]; [|done]. intros Hw. unfold parse, toString. cbn [workspace].
  assert (startsWith ("workspace:" +:+ WorkspaceId.toString (WorkspaceId.mkWorkspaceId w))
            "workspace:" = true) as -> by apply prefix_app.
  rewrite sdrop_app. unfold WorkspaceId.parse, WorkspaceId.toString in *. cbn in Hw |- *.
  by rewrite Hw.
Qed.
End GrantScope.
Abbreviation GrantScope := GrantScope.GrantScope.

(** ** Source locations (SourceLocation.ts) *)

Module SourceLocation.
Record SourceLocation := mkLocation { line : Z; excerpt : option string }.
#[global] Instance SourceLocation_eq_dec : EqDecision SourceLocation.
Proof. solve_decision. Defined.

Definition truncate (text : string) : string :=
  if slen text <=? 120 then text else stake 117 text +:+ "...".

Definition atLine (l : Z) (ex : option string) : result SourceLocation :=
  if (l <? 1)%Z then throw ("Line numbers start at 1, got " +:+ string_of_Z l)
  else Ok (mkLocation l (match ex with None => None | Some e => Some (truncate (trim e)) end)).

Fixpoint first_hit (hit : string → bool) (lines : list string) (index : Z) :
    result (option SourceLocation) :=
  match lines with
  | [] => Ok None
  | l :: r => if hit l then rmap Some (atLine (index + 1) (Some l))
              else first_hit hit r (index + 1)
  end.

(** The needle is the test it performs on one line. *)
Definition firstMatch (content : string) (hit : string → bool) : result (option SourceLocation) :=
  first_hit hit (split_lines content) 0.

Definition toString (s : SourceLocation) : string :=
  match excerpt s with
  | None => "line " +:+ string_of_Z (line s)
  | Some e => "line " +:+ string_of_Z (line s) +:+ ": " +:+ e
  end.

Lemma first_hit_total hit lines i : (0 ≤ i)%Z → ∃ r, first_hit hit lines i = Ok r.
Proof.
  revert i. induction lines as [|l r IH]; intros i Hi; simpl; [eauto|]. case_if; [|apply IH; lia].
  unfold atLine. replace (i + 1 <? 1)%Z with false by (symmetry; apply Z.ltb_ge; lia).
  simpl. eauto.
Qed.

(** The search never throws: its line numbers start at one. *)
Lemma firstMatch_total content hit : ∃ r, firstMatch content hit = Ok r.
Proof. by apply first_hit_total. Qed.

(** An excerpt never exceeds 120 characters. *)
Lemma truncate_length s : slen (truncate s) ≤ 120.
Proof.
  unfold truncate. destruct (slen s <=? 120) eqn:E; bool_prop; [done|].
  rewrite slen_app, slen_stake. change (slen "...") with 3. lia.
Qed.
End SourceLocation.
Abbreviation SourceLocation := SourceLocation.SourceLocation.
