(* ===== verification/Resources.v ===== *)
(** * Resource references (src/domain/value-objects/ResourceRef.ts)

    What a policy grants or refuses: a file or a subtree. *)

From S2P Require Import Prelude JsString NodePath Paths Patterns Values.

Module ResourceRef.

(** [PREFIX[kind]] is a property access on an object literal, so besides the two
    declared kinds it finds the members every object inherits; [inherited key] is the
    value found under such a key. *)
Inductive ResourceScope := subtree_scope | file_scope | inherited (key : string).
#[global] Instance ResourceScope_eq_dec : EqDecision ResourceScope.
Proof. solve_decision. Defined.

(** The property names of [Object.prototype]. *)
Definition OBJECT_PROTOTYPE : list string :=
  ["constructor"; "__defineGetter__"; "__defineSetter__"; "hasOwnProperty";
   "__lookupGetter__"; "__lookupSetter__"; "isPrototypeOf"; "propertyIsEnumerable";
   "toString"; "valueOf"; "__proto__"; "toLocaleString"].

Definition PREFIX (kind : string) : option ResourceScope :=
  if (kind =? "dir")%string then Some subtree_scope
  else if (kind =? "file")%string then Some file_scope
  else if str_includes OBJECT_PROTOTYPE kind then Some (inherited kind)
  else None.

(** The scope inside a template literal. *)
Definition scope_text (s : ResourceScope) : string :=
  match s with
  | subtree_scope => "subtree"
  | file_scope => "file"
  | inherited k =>
      if (k =? "__proto__")%string then "[object Object]"
      else "function " +:+ (if (k =? "constructor")%string then "Object" else k)
           +:+ "() { [native code] }"
  end.

Record ResourceRef := mkRef { scope : ResourceScope; path : AbsolutePath }.
#[global] Instance ResourceRef_eq_dec : EqDecision ResourceRef.
Proof. solve_decision. Defined.

Definition subtree (p : AbsolutePath) : ResourceRef := mkRef subtree_scope p.
Definition file (p : AbsolutePath) : ResourceRef := mkRef file_scope p.

Definition parse (raw : string) (home : AbsolutePath) : result ResourceRef :=
  let separator := indexOf raw ":" in
  let kind := match separator with None => "" | Some i => stake i raw end in
  match PREFIX kind with
  | None => throw ("Unknown resource reference: " +:+ JSON_stringify raw)
  | Some sc =>
      let rest := match separator with None => raw | Some i => sdrop (i + 1) raw end in
      let! p := AbsolutePath.fromUserPath rest home in
      Ok (mkRef sc p)
  end.

Definition is_subtree (r : ResourceRef) : bool := bool_decide (scope r = subtree_scope).
Definition is_file (r : ResourceRef) : bool := bool_decide (scope r = file_scope).

Definition covers (r : ResourceRef) (candidate : AbsolutePath) : bool :=
  if is_subtree r then AbsolutePath.contains (path r) candidate
  else AbsolutePath.equals (path r) candidate.

Definition subsumes (r other : ResourceRef) : bool :=
  if is_file r then is_file other && AbsolutePath.equals (path r) (path other)
  else AbsolutePath.contains (path r) (path other).

Definition equals (r other : ResourceRef) : bool :=
  bool_decide (scope r = scope other) && AbsolutePath.equals (path r) (path other).

Definition toResourceString (r : ResourceRef) (home : AbsolutePath) : string :=
  let kind := if is_subtree r then "dir" else "file" in
  kind +:+ ":" +:+ AbsolutePath.toDisplay (path r) home.

Definition toString (r : ResourceRef) : string :=
  scope_text (scope r) +:+ ":" +:+ AbsolutePath.value (path r).

(** ** Properties *)

(** A reference as the constructors make it: one of the two declared scopes, over a
    POSIX path. *)
Definition declared (r : ResourceRef) : Prop :=
  scope r = subtree_scope ∨ scope r = file_scope.
Definition posix_ref (r : ResourceRef) : Prop := declared r ∧ AbsolutePath.posix_wf (path r).

Lemma contains_trans p q r :
  AbsolutePath.posix_wf p → AbsolutePath.posix_wf q → AbsolutePath.posix_wf r →
  AbsolutePath.contains p q = true → AbsolutePath.contains q r = true →
  AbsolutePath.contains p r = true.
Proof.
  intros (a & -> & Ha & _) (b & -> & Hb & _) (c & -> & Hc & _).
  rewrite !AbsolutePath.contains_posix by done. by etrans.
Qed.

Lemma equals_wf p q : AbsolutePath.posix_wf p → AbsolutePath.posix_wf q →
  AbsolutePath.equals p q = true → p = q.
Proof.
  intros (a & -> & Ha & _) (b & -> & Hb & _). by intros ->%AbsolutePath.equals_posix.
Qed.

(** Granting a reference that subsumes another makes the other redundant: it
    covers every path the other covers. *)
Theorem subsumes_covers r other p :
  posix_ref r → posix_ref other → AbsolutePath.posix_wf p →
  subsumes r other = true → covers other p = true → covers r p = true.
Proof.
  intros [Hr Hrp] [Ho Hop] Hp. unfold subsumes, covers, is_file, is_subtree.
  destruct Hr as [-> | ->], Ho as [-> | ->]; cbn; intros H1 H2; try done.
  - by apply (contains_trans _ (path other)).
  - by apply equals_wf in H2 as <-.
  - apply equals_wf in H1 as ->; done.
Qed.

Lemma subsumes_covers_witness :
  covers (subtree (AbsolutePath.posix_path ["w"])) (AbsolutePath.posix_path ["w"; "src"; "a"]) = true.
Proof.
  apply (subsumes_covers _ (subtree (AbsolutePath.posix_path ["w"; "src"]))); try reflexivity.
  - split; [by left|]. exists ["w"]. by vm_compute; repeat split; repeat constructor.
  - split; [by left|]. exists ["w"; "src"]. by vm_compute; repeat split; repeat constructor.
  - exists ["w"; "src"; "a"]. by vm_compute; repeat split; repeat constructor.
Defined.

(** A reference whose kind is the name of an inherited object member is accepted:
    it covers like a file but subsumes like a subtree, so subsumption no longer
    implies coverage. *)
Theorem inherited_kind_accepted home :
  ∃ r, parse "toString:/w" home = Ok r
  ∧ scope r = inherited "toString"
  ∧ subsumes r (file (AbsolutePath.posix_path ["w"; "a"])) = true
  ∧ covers (file (AbsolutePath.posix_path ["w"; "a"])) (AbsolutePath.posix_path ["w"; "a"]) = true
  ∧ covers r (AbsolutePath.posix_path ["w"; "a"]) = false.
Proof.
  exists (mkRef (inherited "toString") (AbsolutePath.posix_path ["w"])).
  split; [by destruct home as [v [] rt]|]. repeat split.
Qed.

End ResourceRef.
Abbreviation ResourceRef := ResourceRef.ResourceRef.

(** ** Paths as texts

    The back ends compare paths as the texts they were given. *)

Module TextPaths.
Definition under (dst path : string) : bool :=
  (dst =? "/")%string || (path =? dst)%string || startsWith path (dst +:+ "/").

Definition ref_text (r : ResourceRef) : string := AbsolutePath.value (ResourceRef.path r).

Lemma under_contains p q : AbsolutePath.posix_wf p → AbsolutePath.posix_wf q →
  under (AbsolutePath.value p) (AbsolutePath.value q) = AbsolutePath.contains p q.
Proof.
  intros (a & -> & _) (b & -> & Hb & _). unfold under, AbsolutePath.contains. cbn.
  rewrite bool_decide_true by done. cbn. by destruct (join "/" a =? "")%string.
Qed.

Lemma contains_under p q : AbsolutePath.posix_wf q → AbsolutePath.contains p q = true →
  under (AbsolutePath.value p) (AbsolutePath.value q) = true.
Proof.
  intros (b & -> & _). unfold under, AbsolutePath.contains. cbn [AbsolutePath.flavour AbsolutePath.root AbsolutePath.posix_path].
  case_bool_decide; [|done]. cbn [negb]. destruct (AbsolutePath.root p =? "/")%string eqn:Er; [|done]. bool_prop. rewrite Er. cbn [negb].
  destruct (AbsolutePath.value p =? "/")%string; [done|]. done.
Qed.
Lemma under_trans t p q : AbsolutePath.posix_wf p → AbsolutePath.posix_wf q →
  under t (AbsolutePath.value p) = true → AbsolutePath.contains p q = true → under t (AbsolutePath.value q) = true.
Proof.
  intros (a & -> & Ha & _) (b & -> & Hb & _) Ht [k ->]%AbsolutePath.contains_posix; [|done..].
  revert Ht. unfold under. cbn [AbsolutePath.value AbsolutePath.posix_path].
  destruct (String.eqb_spec t "/"); [done|]. cbn [orb].
  destruct k as [|w k]; [by rewrite app_nil_r|]. apply Forall_app in Hb as [_ Hk].
  destruct a as [|x a].
  { cbn [app]. rewrite AbsolutePath.abs_text_nil. intros [E|E]%orb_true_iff; bool_prop.
    - congruence.
    - apply orb_true_iff. right. apply startsWith_true. apply startsWith_true in E as [u E].
      destruct t as [|c t]; [|by destruct t]. by eexists. }
  rewrite PathPattern.abs_text_app by done. intros [E|E]%orb_true_iff; bool_prop.
  - subst t. apply orb_true_iff. right. apply startsWith_true. eexists. by rewrite sapp_assoc.
  - apply startsWith_true in E as [u ->]. apply orb_true_iff. right. apply startsWith_true. eexists. by rewrite !sapp_assoc.
Qed.

Lemma covers_under r p : AbsolutePath.posix_wf p → ResourceRef.covers r p = true →
  under (ref_text r) (AbsolutePath.value p) = true.
Proof.
  intros Hp. unfold ResourceRef.covers, ref_text. case_if; [by apply contains_under|].
  unfold AbsolutePath.equals, under. intros [_ E]%andb_true_iff. apply String.eqb_eq in E. rewrite E, String.eqb_refl.
  by rewrite orb_true_r.
Qed.
End TextPaths.
