(* ===== verification/JsNumber.v ===== *)
(** * JavaScript numbers read from text

    [Number(s)] and [Number.isInteger], as far as the sources use them: a port read
    from a profile. A number is an integer, a decimal fraction, or not finite;
    fractions are exact, so they differ from doubles only beyond sixteen digits. *)

From S2P Require Import Prelude JsString.

(** [Frac m k] is m / 10^k with k > 0 and m not divisible by ten. *)
Inductive JsNumber := Int (z : Z) | Frac (mantissa : Z) (scale : nat) | NotFinite (nan : bool).
#[global] Instance JsNumber_eq_dec : EqDecision JsNumber.
Proof. solve_decision. Defined.

Definition NaN : JsNumber := NotFinite true.

Fixpoint norm_frac (m : Z) (k : nat) : JsNumber :=
  match k with
  | O => Int m
  | S k' => if (m mod 10 =? 0)%Z then norm_frac (m / 10) k' else Frac m k
  end.

Definition is_radix_digit (radix : Z) (c : ascii) : bool :=
  is_digit (lower c) && (digit_value c <? radix)%Z
  || in_range 97 122 (lower c) && (Z.of_nat (code (lower c)) - 87 <? radix)%Z.
Definition radix_value (c : ascii) : Z :=
  if is_digit c then digit_value c else Z.of_nat (code (lower c)) - 87.
Fixpoint radix_digits (radix acc : Z) (s : string) : Z :=
  match s with "" => acc | String c r => radix_digits radix (radix * acc + radix_value c) r end.

Definition parse_radix (radix : Z) (s : string) : JsNumber :=
  if negb (s =? "")%string && sforall (is_radix_digit radix) s
  then Int (radix_digits radix 0 s) else NaN.

(** The exponent part: [e], an optional sign, digits. *)
Definition parse_exponent (s : string) : option Z :=
  match s with
  | "" => Some 0%Z
  | String e r =>
      if Ascii.eqb (lower e) "e" then
        let '(sign, ds) := match r with
                           | String "+" t => (1%Z, t)
                           | String "-" t => ((-1)%Z, t)
                           | _ => (1%Z, r)
                           end in
        if negb (ds =? "")%string && sforall is_digit ds
        then Some (sign * digits_value 0 ds)%Z else None
      else None
  end.

(** An unsigned decimal literal. *)
Definition parse_decimal (s : string) : option JsNumber :=
  let ip := take_while is_digit s in
  let r := skip_while is_digit s in
  let '(fp, e) := match r with
                  | String "." t => (take_while is_digit t, skip_while is_digit t)
                  | _ => ("", r)
                  end in
  if (ip =? "")%string && (fp =? "")%string then None
  else match parse_exponent e with
       | None => None
       | Some x =>
           let m := digits_value 0 (ip +:+ fp) in
           let shift := (x - Z.of_nat (slen fp))%Z in
           Some (if (0 <=? shift)%Z then Int (m * 10 ^ shift) else norm_frac m (Z.to_nat (- shift)))
       end.

Definition negate (n : JsNumber) : JsNumber :=
  match n with Int z => Int (- z) | Frac m k => Frac (- m) k | NotFinite b => NotFinite b end.

Definition parse_signed (s : string) : JsNumber :=
  let unsigned t := if (t =? "Infinity")%string then NotFinite false
                    else match parse_decimal t with Some n => n | None => NaN end in
  match s with
  | String "+" t => unsigned t
  | String "-" t => negate (unsigned t)
  | _ => unsigned s
  end.

(** [Number(s)] *)
Definition Number (s : string) : JsNumber :=
  let t := trim s in
  match t with
  | "" => Int 0
  | String "0" (String x r) =>
      if Ascii.eqb (lower x) "x" then parse_radix 16 r
      else if Ascii.eqb (lower x) "o" then parse_radix 8 r
      else if Ascii.eqb (lower x) "b" then parse_radix 2 r
      else parse_signed t
  | _ => parse_signed t
  end.

Definition number_eqb (a b : JsNumber) : bool :=
  match a, b with
  | NotFinite true, _ | _, NotFinite true => false
  | _, _ => bool_decide (a = b)
  end.

(** [JSON.stringify] of a number. *)
Fixpoint zeros (n : nat) : string := match n with O => "" | S m => String "0" (zeros m) end.
Definition pad_zeros (n : nat) (s : string) : string := zeros (n - slen s) +:+ s.
Definition JSON_number (n : JsNumber) : string :=
  match n with
  | Int z => string_of_Z z
  | NotFinite _ => "null"
  | Frac m k =>
      let ds := string_of_Z (Z.abs m) in
      let ds := pad_zeros (S k) ds in
      (if (m <? 0)%Z then "-" else "") +:+ stake (slen ds - k) ds +:+ "." +:+ sdrop (slen ds - k) ds
  end.

Example Number_port : Number "443" = Int 443. Proof. reflexivity. Qed.
Example Number_hex : Number "0x1BB" = Int 443. Proof. reflexivity. Qed.
Example Number_exponent : Number "4.43e2" = Int 443. Proof. reflexivity. Qed.
Example Number_fraction : Number "443.50" = Frac 4435 1. Proof. reflexivity. Qed.
Example Number_text : Number "https" = NaN. Proof. reflexivity. Qed.
Example Number_empty : Number "" = Int 0. Proof. reflexivity. Qed.
Example JSON_number_fraction : JSON_number (Frac 5 2) = "0.05". Proof. reflexivity. Qed.

Section decimal.
#[local] Open Scope Z_scope.

(** ** Decimal texts *)

Lemma digits_value_app v s t : digits_value v (s +:+ t) = digits_value (digits_value v s) t.
Proof. revert v. induction s as [|c s IH]; intros v; [done|]. apply IH. Qed.

Lemma digit_code d : 0 <= d < 10 → is_digit (chr (48 + Z.to_nat d)) = true ∧ digit_value (chr (48 + Z.to_nat d)) = d.
Proof.
  intros Hd. assert (d = 0 ∨ d = 1 ∨ d = 2 ∨ d = 3 ∨ d = 4 ∨ d = 5 ∨ d = 6 ∨ d = 7 ∨ d = 8 ∨ d = 9) as H by lia.
  by repeat (destruct H as [->|H]; [done|]); subst.
Qed.

Lemma startsWith_char c d s : startsWith (String d s) (str1 c) = Ascii.eqb c d.
Proof.
  apply eq_iff_eq_true. rewrite startsWith_true, Ascii.eqb_eq. split.
  - by intros [t [= -> _]].
  - intros ->. by exists s.
Qed.

(** The digits of [n]: few, and worth [n]. *)
Lemma z_digits_spec fuel n acc : 0 <= n < 10 ^ Z.of_nat fuel → (0 < fuel)%nat →
  ∃ ds, z_digits fuel n acc = ds +:+ acc ∧ sforall is_digit ds = true
  ∧ digits_value 0 ds = n ∧ (∀ k, n < 10 ^ Z.of_nat k → (0 < k)%nat → (slen ds <= k)%nat) ∧ (1 <= slen ds)%nat
  ∧ (n < 10 ∨ startsWith ds (str1 "0") = false).
Proof.
  revert n acc. induction fuel as [|fuel IH]; intros n acc Hn Hf; [lia|]. cbn [z_digits].
  destruct (digit_code (n mod 10)) as [Hd Hv]; [apply Z.mod_pos_bound; lia|].
  set (c := chr (48 + Z.to_nat (n mod 10))) in *.
  destruct (Z.ltb_spec n 10) as [Hlt|Hge].
  - exists (str1 c). rewrite Z.mod_small in Hv by lia. split_and!; try done; [cbn; by rewrite Hd|by left].
  - assert (0 <= n / 10 < 10 ^ Z.of_nat fuel) as Hq.
    { split; [apply Z.div_pos; lia|]. apply Z.div_lt_upper_bound; [lia|].
      rewrite Nat2Z.inj_succ, Z.pow_succ_r in Hn by lia. lia. }
    destruct fuel as [|fuel]; [cbn in Hq; lia|].
    destruct (IH (n / 10) (String c acc) Hq) as (ds & E & Hds & Hval & Hlen & Hne & Hz); [lia|].
    pose proof (Z_div_mod_eq_full n 10) as Hdm.
    exists (ds +:+ str1 c). split_and!.
    + rewrite E. by rewrite sapp_assoc.
    + rewrite sforall_app, Hds. cbn. by rewrite Hd.
    + rewrite digits_value_app, Hval. change (10 * (n / 10) + digit_value c = n). lia.
    + intros k Hk Hk0. rewrite slen_app. cbn. destruct k as [|[|k]]; [lia|cbn in Hk; lia|].
      enough (slen ds <= S k)%nat by lia. apply Hlen; [|lia].
      apply Z.div_lt_upper_bound; [lia|]. rewrite Nat2Z.inj_succ, Z.pow_succ_r in Hk by lia. lia.
    + rewrite slen_app. lia.
    + right. destruct Hz as [Hsmall|Hz].
      * destruct ds as [|d ds']; [cbn in Hne; lia|].
        destruct (Z.ltb_spec (n / 10) 10); [|lia].
        assert (slen (String d ds') <= 1)%nat as Hl1 by (apply (Hlen 1%nat); [cbn; lia|lia]).
        destruct ds'; [|cbn in Hl1; lia]. change (startsWith (String d (str1 c)) (str1 "0") = false).
        rewrite startsWith_char. destruct (Ascii.eqb_spec "0" d) as [<-|]; [|done].
        exfalso. change (0 = n / 10) in Hval. pose proof (Z.mod_pos_bound n 10). lia.
      * destruct ds as [|d ds']; [cbn in Hne; lia|].
        change (startsWith (String d (ds' +:+ str1 c)) (str1 "0") = false). by rewrite startsWith_char in *.
Qed.

Lemma string_of_Z_spec n : 0 <= n →
  sforall is_digit (string_of_Z n) = true ∧ digits_value 0 (string_of_Z n) = n
  ∧ (∀ k, n < 10 ^ Z.of_nat k → (0 < k)%nat → (slen (string_of_Z n) <= k)%nat) ∧ (1 <= slen (string_of_Z n))%nat
  ∧ (n < 10 ∨ startsWith (string_of_Z n) (str1 "0") = false).
Proof.
  intros Hn. unfold string_of_Z. destruct (Z.ltb_spec n 0); [lia|].
  destruct (z_digits_spec (S (Z.to_nat (Z.log2 n))) n "") as (ds & -> & H1 & H2 & H3 & H4 & H5); [|lia|].
  - split; [done|]. rewrite Nat2Z.inj_succ, Z2Nat.id by apply Z.log2_nonneg.
    destruct (Z.eq_dec n 0) as [->|]; [done|].
    pose proof (Z.log2_spec n ltac:(lia)) as [_ Hl]. eapply Z.lt_le_trans; [exact Hl|].
    apply Z.pow_le_mono_l. lia.
  - rewrite sapp_nil_r. by split_and!.
Qed.

Lemma digits_no_char c s : is_digit c = false → sforall is_digit s = true → has_char c s = false.
Proof.
  intros Hc. induction s as [|x s IH]; [done|]. cbn. intros [Hx Hs]%andb_true_iff. rewrite IH by done.
  destruct (Ascii.eqb_spec x c) as [->|]; [congruence|done].
Qed.
End decimal.
