(* ===== verification/Json.v ===== *)
(** * JSON

    [JSON.parse] and [JSON.stringify] of ECMAScript on the strings of the development,
    with the order own properties have in an object, and the conversions of a parsed
    value the sources use. An escape of a code unit above 255 is outside those strings:
    a text with one does not parse here. *)

From S2P Require Import Prelude JsString JsMap JsNumber.

(** An object is a list of its own properties in the order they were made, each key once. *)
Inductive Json :=
| JNull
| JBool (b : bool)
| JNum (n : JsNumber)
| JString (s : string)
| JArray (l : list Json)
| JObject (m : list (string * Json)).

Section json_ind.
Context (P : Json → Prop) (Hnull : P JNull) (Hbool : ∀ b, P (JBool b)) (Hnum : ∀ n, P (JNum n)).
Context (Hstring : ∀ s, P (JString s)) (Harray : ∀ l, Forall P l → P (JArray l)).
Context (Hobject : ∀ m, Forall (λ kv, P kv.2) m → P (JObject m)).
Fixpoint json_ind' (v : Json) : P v :=
  match v with
  | JNull => Hnull
  | JBool b => Hbool b
  | JNum n => Hnum n
  | JString s => Hstring s
  | JArray l => Harray l ((fix go l := match l return Forall P l with
                                      | [] => List.Forall_nil _
                                      | x :: r => List.Forall_cons _ _ _ (json_ind' x) (go r) end) l)
  | JObject m => Hobject m ((fix go m := match m return Forall (λ kv, P kv.2) m with
                                      | [] => List.Forall_nil _
                                      | x :: r => List.Forall_cons _ x _ (json_ind' x.2) (go r) end) m)
  end.
End json_ind.

Module JSON.

(** ** Own properties *)

(** An array index: the canonical text of an integer below 2^32 - 1. *)
Definition is_index (k : string) : bool :=
  negb (k =? "")%string && sforall is_digit k
  && ((k =? "0")%string || negb (startsWith k "0")) && (digits_value 0 k <? 4294967295)%Z.

(** [Object.entries]: the indices in numeric order, then the other keys as they came. *)
Definition own_order {A} (m : list (string * A)) : list (string * A) :=
  sort_by (λ a b, digits_value 0 a.1 <=? digits_value 0 b.1)%Z (bfilter (λ kv, is_index kv.1) m)
  ++ bfilter (λ kv, negb (is_index kv.1)) m.

(** [v[key]] for a key no prototype has; [None] is [undefined]. *)
Definition prop (v : Json) (key : string) : option Json :=
  match v with JObject m => JsMap.get m key | _ => None end.

(** [typeof v === 'object' && v !== null && !Array.isArray(v)] *)
Definition isRecord (v : Json) : bool := match v with JObject _ => true | _ => false end.
(** [typeof v === 'object' && v !== null] *)
Definition isObject (v : Json) : bool := match v with JObject _ | JArray _ => true | _ => false end.

(** ** [JSON.stringify(v, null, gap)] *)

Definition wrap (gap indent open close : string) (items : list string) : string :=
  match items with
  | [] => open +:+ close
  | _ =>
      if (gap =? "")%string then open +:+ join "," items +:+ close
      else let inner := indent +:+ gap in
           open +:+ nl +:+ inner +:+ join ("," +:+ nl +:+ inner) items +:+ nl +:+ indent +:+ close
  end.
Definition member (gap : string) (kt : string * string) : string :=
  JSON_stringify kt.1 +:+ ":" +:+ (if (gap =? "")%string then "" else " ") +:+ kt.2.

Fixpoint serialize (gap indent : string) (v : Json) : string :=
  match v with
  | JNull => "null"
  | JBool b => if b then "true" else "false"
  | JNum n => JSON_number n
  | JString s => JSON_stringify s
  | JArray l => wrap gap indent "[" "]" (map (serialize gap (indent +:+ gap)) l)
  | JObject m =>
      wrap gap indent "{" "}"
        (map (member gap) (own_order (map (λ kv, (kv.1, serialize gap (indent +:+ gap) kv.2)) m)))
  end.
Definition stringify (gap : string) (v : Json) : string := serialize gap "" v.

(** ** [JSON.parse] *)

Definition is_json_space (c : ascii) : bool :=
  (code c =? 32) || (code c =? 9) || (code c =? 10) || (code c =? 13).
Definition skip_ws (s : string) : string := skip_while is_json_space s.
(** The text after the character, spaces before it skipped. *)
Definition expect (c : ascii) (s : string) : option string :=
  match skip_ws s with String d r => if Ascii.eqb d c then Some r else None | "" => None end.

Definition hex_value (c : ascii) : option nat :=
  if is_digit c then Some (code c - 48)
  else if in_range 97 102 c then Some (code c - 87)
  else if in_range 65 70 c then Some (code c - 55) else None.
(** What an escape of one letter stands for. *)
Definition escape (c : ascii) : option ascii :=
  if Ascii.eqb c dquote || Ascii.eqb c backslash || Ascii.eqb c slash then Some c
  else if Ascii.eqb c "b" then Some (chr 8)
  else if Ascii.eqb c "f" then Some (chr 12)
  else if Ascii.eqb c "n" then Some newline
  else if Ascii.eqb c "r" then Some (chr 13)
  else if Ascii.eqb c "t" then Some (chr 9) else None.
Definition unit_of (a b c d : ascii) : option ascii :=
  match hex_value a, hex_value b, hex_value c, hex_value d with
  | Some 0, Some 0, Some h, Some l => Some (chr (16 * h + l))
  | _, _, _, _ => None
  end.

Definition scons (c : ascii) (p : string * string) : string * string := (String c p.1, p.2).
(** The characters up to the closing quote, and the text after it. *)
Fixpoint parse_body (s : string) : option (string * string) :=
  match s with
  | "" => None
  | String c r =>
      if Ascii.eqb c dquote then Some ("", r)
      else if Ascii.eqb c backslash then
        match r with
        | String e r1 =>
            if Ascii.eqb e "u" then
              match r1 with
              | String h1 (String h2 (String h3 (String h4 r2))) =>
                  match unit_of h1 h2 h3 h4 with
                  | Some x => scons x <$> parse_body r2
                  | None => None
                  end
              | _ => None
              end
            else match escape e with Some x => scons x <$> parse_body r1 | None => None end
        | "" => None
        end
      else if code c <? 32 then None
      else scons c <$> parse_body r
  end.

(** An exponent, when there is one. *)
Definition parse_exp (s : string) : option (Z * string) :=
  match s with
  | String e t =>
      if Ascii.eqb (lower e) "e" then
        let '(sign, ds) := match t with
                           | String c u => if Ascii.eqb c "+" then (1%Z, u)
                                           else if Ascii.eqb c "-" then ((-1)%Z, u) else (1%Z, t)
                           | "" => (1%Z, t)
                           end in
        let d := take_while is_digit ds in
        if (d =? "")%string then None else Some ((sign * digits_value 0 d)%Z, skip_while is_digit ds)
      else Some (0%Z, s)
  | "" => Some (0%Z, s)
  end.
(** The digits after a point, when there is one. *)
Definition parse_fraction (s : string) : option (string * string) :=
  match s with
  | String c t =>
      if Ascii.eqb c "." then
        let d := take_while is_digit t in
        if (d =? "")%string then None else Some (d, skip_while is_digit t)
      else Some ("", s)
  | "" => Some ("", s)
  end.
Definition parse_unsigned (s : string) : option (JsNumber * string) :=
  let ip := take_while is_digit s in
  if (ip =? "")%string || (startsWith ip "0" && negb (ip =? "0")%string) then None
  else
    match parse_fraction (skip_while is_digit s) with
    | None => None
    | Some (fp, r) =>
        match parse_exp r with
        | None => None
        | Some (x, r') =>
            let m := digits_value 0 (ip +:+ fp) in
            let shift := (x - Z.of_nat (slen fp))%Z in
            Some (if (0 <=? shift)%Z then Int (m * 10 ^ shift) else norm_frac m (Z.to_nat (- shift)), r')
        end
    end.
Definition parse_number (s : string) : option (JsNumber * string) :=
  match s with
  | String c r => if Ascii.eqb c "-" then (λ p, (negate p.1, p.2)) <$> parse_unsigned r else parse_unsigned s
  | "" => None
  end.

Definition keyword (w : string) (v : Json) (s : string) : option (Json * string) :=
  if startsWith s w then Some (v, sdrop (slen w) s) else None.

Fixpoint parse_value (fuel : nat) (s : string) : option (Json * string) :=
  match fuel with
  | O => None
  | S f =>
      match skip_ws s with
      | "" => None
      | String c r as t =>
          if Ascii.eqb c "[" then
            match expect "]" r with Some r' => Some (JArray [], r') | None => parse_elements f [] r end
          else if Ascii.eqb c "{" then
            match expect "}" r with Some r' => Some (JObject [], r') | None => parse_members f [] r end
          else if Ascii.eqb c dquote then (λ p, (JString p.1, p.2)) <$> parse_body r
          else if Ascii.eqb c "t" then keyword "true" (JBool true) t
          else if Ascii.eqb c "f" then keyword "false" (JBool false) t
          else if Ascii.eqb c "n" then keyword "null" JNull t
          else (λ p, (JNum p.1, p.2)) <$> parse_number t
      end
  end
with parse_elements (fuel : nat) (acc : list Json) (s : string) : option (Json * string) :=
  match fuel with
  | O => None
  | S f =>
      match parse_value f s with
      | None => None
      | Some (v, r) =>
          match expect "," r with
          | Some r' => parse_elements f (acc ++ [v]) r'
          | None => (λ r', (JArray (acc ++ [v]), r')) <$> expect "]" r
          end
      end
  end
with parse_members (fuel : nat) (acc : list (string * Json)) (s : string) : option (Json * string) :=
  match fuel with
  | O => None
  | S f =>
      match expect dquote s ≫= parse_body with
      | None => None
      | Some (k, r) =>
          match expect ":" r ≫= parse_value f with
          | None => None
          | Some (v, r1) =>
              let acc' := JsMap.set acc k v in
              match expect "," r1 with
              | Some r' => parse_members f acc' r'
              | None => (λ r', (JObject acc', r')) <$> expect "}" r1
              end
          end
      end
  end.

(** Twice the length is fuel enough: see [parse_fuel]. *)
Definition fuel_for (s : string) : nat := S (S (2 * slen s)).
Definition parse (s : string) : option Json :=
  match parse_value (fuel_for s) s with
  | Some (v, r) => if (skip_ws r =? "")%string then Some v else None
  | None => None
  end.

Definition q (s : string) : string := str1 dquote +:+ s +:+ str1 dquote.
Example parse_sample :
  parse (" {" +:+ q "b" +:+ ":[1,2.50, -3e2,null ], " +:+ q "2" +:+ ":true," +:+ q "b" +:+ ":" +:+ q (String backslash "u0041") +:+ "}")
  = Some (JObject [("b", JString "A"); ("2", JBool true)]).
Proof. vm_compute. reflexivity. Qed.
Example stringify_sample :
  stringify "  " (JObject [("b", JArray [JNum (Int 1); JString "x"]); ("2", JArray []); ("c", JObject [])])
  = "{" +:+ nl +:+ "  " +:+ q "2" +:+ ": []," +:+ nl +:+ "  " +:+ q "b" +:+ ": [" +:+ nl +:+ "    1," +:+ nl +:+ "    " +:+ q "x"
    +:+ nl +:+ "  ]," +:+ nl +:+ "  " +:+ q "c" +:+ ": {}" +:+ nl +:+ "}".
Proof. vm_compute. reflexivity. Qed.
Example stringify_compact :
  stringify "" (JObject [("b", JArray [JNum (Int 1); JBool false])]) = "{" +:+ q "b" +:+ ":[1,false]}".
Proof. vm_compute. reflexivity. Qed.

(** ** Enough fuel *)

Lemma slen_skip_while p s : slen (skip_while p s) ≤ slen s.
Proof. induction s as [|c s IH]; simpl; [done|]. case_if; simpl; lia. Qed.

Lemma expect_shrinks c s r : expect c s = Some r → slen r < slen s.
Proof.
  unfold expect, skip_ws. pose proof (slen_skip_while is_json_space s) as H.
  destruct (skip_while is_json_space s) as [|d t]; [done|]. case_if; [|done]. intros [= <-]. simpl in H. lia.
Qed.

Lemma parse_body_shrinks s p : parse_body s = Some p → slen p.2 < slen s.
Proof.
  revert p. assert (∀ n s p, slen s ≤ n → parse_body s = Some p → slen p.2 < slen s) as H; [|intros p; by apply (H (slen s))].
  intros n. induction n as [|n IH]; intros [|c r] p Hn; simpl in *; try done; [lia|].
  assert (∀ x t, slen t ≤ slen r → scons x <$> parse_body t = Some p → slen p.2 < S (slen r)) as Hrec.
  { intros x t Ht ([k u] & Hb & ->)%fmap_Some. cbn. apply IH in Hb; [|lia]. cbn in Hb. lia. }
  case_if; [intros [= <-]; cbn; lia|]. case_if.
  - destruct r as [|e r1]; [done|]. case_if.
    + destruct r1 as [|h1 [|h2 [|h3 [|h4 r2]]]]; try done.
      destruct (unit_of h1 h2 h3 h4); [|done]. apply Hrec. simpl. lia.
    + destruct (escape e); [|done]. apply Hrec. simpl. lia.
  - case_if; [done|]. by apply Hrec.
Qed.

Lemma parse_unsigned_shrinks s p : parse_unsigned s = Some p → slen p.2 < slen s.
Proof.
  unfold parse_unsigned. destruct (_ || _) eqn:E; [done|]. bool_prop.
  assert (slen (skip_while is_digit s) < slen s) as Hs.
  { destruct s as [|c s]; [done|]. simpl in *. case_if; [|done]. pose proof (slen_skip_while is_digit s). simpl. lia. }
  destruct (parse_fraction (skip_while is_digit s)) as [[fp r]|] eqn:Ef; [|done].
  assert (slen r ≤ slen (skip_while is_digit s)) as Hr.
  { revert Ef. unfold parse_fraction. destruct (skip_while is_digit s) as [|c t]; [by intros [= _ <-]|].
    case_if; [|by intros [= _ <-]]. case_if; [done|]. intros [= _ <-].
    pose proof (slen_skip_while is_digit t). simpl. lia. }
  destruct (parse_exp r) as [[x r']|] eqn:Ex; [|done]. intros [= <-]. cbn [snd].
  enough (slen r' ≤ slen r) by lia. revert Ex. unfold parse_exp. destruct r as [|e t]; [by intros [= _ <-]|].
  case_if; [|by intros [= _ <-]]. destruct t as [|c u]; [done|].
  assert (∀ ds k n, (if (take_while is_digit ds =? "")%string then None
            else Some ((k * digits_value 0 (take_while is_digit ds))%Z, skip_while is_digit ds)) = Some (x, r') →
          slen ds ≤ n → slen r' ≤ n) as Hd.
  { intros ds k n. case_if; [done|]. intros [= _ <-] Hn. pose proof (slen_skip_while is_digit ds). lia. }
  case_if; [|case_if]; intros Hx; (eapply Hd; [exact Hx|simpl; lia]).
Qed.

Lemma parse_number_shrinks s p : parse_number s = Some p → slen p.2 < slen s.
Proof.
  unfold parse_number. destruct s as [|c r]; [done|]. case_if; [|apply parse_unsigned_shrinks].
  intros ([v t] & Hu & ->)%fmap_Some. apply parse_unsigned_shrinks in Hu. cbn in *. lia.
Qed.

Lemma keyword_shrinks w v s p : w ≠ "" → keyword w v s = Some p → slen p.2 < slen s.
Proof.
  unfold keyword. intros Hw. case_if; [|done]. intros [= <-]. cbn.
  apply startsWith_true in Heqb as [t ->]. rewrite sdrop_app, slen_app. destruct w; [done|]. simpl. lia.
Qed.

Lemma parse_shrinks f :
  (∀ s p, parse_value f s = Some p → slen p.2 < slen s)
  ∧ (∀ acc s p, parse_elements f acc s = Some p → slen p.2 < slen s)
  ∧ (∀ acc s p, parse_members f acc s = Some p → slen p.2 < slen s).
Proof.
  induction f as [|f (IHv & IHe & IHm)]; [done|]. split_and!.
  - intros s p. cbn [parse_value]. pose proof (slen_skip_while is_json_space s) as Hw. unfold skip_ws.
    destruct (skip_while is_json_space s) as [|c r]; [done|]. simpl in Hw.
    assert (∀ x y, expect x r = Some y → slen y < slen s) as Hex.
    { intros x y Hx%expect_shrinks. lia. }
    case_if. { destruct (expect "]" r) eqn:E; [intros [= <-]; by eapply Hex|]. intros H%IHe. lia. }
    case_if. { destruct (expect "}" r) eqn:E; [intros [= <-]; by eapply Hex|]. intros H%IHm. lia. }
    case_if. { intros ([k u] & Hb & ->)%fmap_Some. apply parse_body_shrinks in Hb. cbn in *. lia. }
    case_if. { intros H%keyword_shrinks; [|done]. simpl in H. lia. }
    case_if. { intros H%keyword_shrinks; [|done]. simpl in H. lia. }
    case_if. { intros H%keyword_shrinks; [|done]. simpl in H. lia. }
    intros ([k u] & Hb & ->)%fmap_Some. apply parse_number_shrinks in Hb. cbn in *. lia.
  - intros acc s p. cbn [parse_elements]. destruct (parse_value f s) as [[v r]|] eqn:E; [|done]. apply IHv in E.
    destruct (expect "," r) as [r'|] eqn:E1.
    + intros H%IHe. apply expect_shrinks in E1. cbn in E. lia.
    + intros (r' & H & ->)%fmap_Some. apply expect_shrinks in H. cbn in *. lia.
  - intros acc s p. cbn [parse_members].
    destruct (expect dquote s ≫= parse_body) as [[k r]|] eqn:E; [|done].
    apply bind_Some in E as (s1 & E%expect_shrinks & Hb%parse_body_shrinks). cbn in Hb.
    destruct (expect ":" r ≫= parse_value f) as [[v r1]|] eqn:E1; [|done].
    apply bind_Some in E1 as (s2 & E1%expect_shrinks & Hv%IHv). cbn in Hv. cbv zeta.
    destruct (expect "," r1) as [r'|] eqn:E2.
    + intros H%IHm. apply expect_shrinks in E2. lia.
    + intros (r' & H & ->)%fmap_Some. apply expect_shrinks in H. cbn in *. lia.
Qed.

(** More fuel than twice the length of the text does not change the answer: the recursion
    of the parser is bounded by the text, and [parse] gives it enough. *)
Lemma parse_fuel n f g :
  (∀ s, slen s ≤ n → 2 * slen s < f → 2 * slen s < g → parse_value f s = parse_value g s)
  ∧ (∀ acc s, slen s ≤ n → S (2 * slen s) < f → S (2 * slen s) < g → parse_elements f acc s = parse_elements g acc s)
  ∧ (∀ acc s, slen s ≤ n → S (2 * slen s) < f → S (2 * slen s) < g → parse_members f acc s = parse_members g acc s).
Proof.
  revert n g. induction f as [|f IH]; intros n g; [split_and!; lia|].
  destruct g as [|g]; [split_and!; lia|]. destruct (IH n g) as (IHv & IHe & IHm). split_and!.
  - intros s Hn Hf Hg. cbn [parse_value]. unfold skip_ws. pose proof (slen_skip_while is_json_space s) as Hw.
    destruct (skip_while is_json_space s) as [|c r]; [done|]. simpl in Hw.
    rewrite IHe, IHm by lia. done.
  - intros acc s Hn Hf Hg. cbn [parse_elements]. rewrite (IHv s) by lia.
    destruct (parse_value g s) as [[v r]|] eqn:E; [|done]. apply parse_shrinks in E. cbn in E.
    destruct (expect "," r) as [r'|] eqn:E1; [|done]. apply expect_shrinks in E1. apply IHe; lia.
  - intros acc s Hn Hf Hg. cbn [parse_members].
    destruct (expect dquote s ≫= parse_body) as [[k r]|] eqn:E; [|done].
    apply bind_Some in E as (s1 & E%expect_shrinks & Hb%parse_body_shrinks). cbn in Hb.
    destruct (expect ":" r) as [s2|] eqn:E1; cbn; [|done]. apply expect_shrinks in E1. rewrite (IHv s2) by lia.
    destruct (parse_value g s2) as [[v r1]|] eqn:E2; [|done]. apply parse_shrinks in E2. cbn in E2.
    destruct (expect "," r1) as [r'|] eqn:E3; [|done]. apply expect_shrinks in E3. apply IHm; lia.
Qed.

(** ** What is printed is read back *)

Definition ws (w : string) : Prop := sforall is_json_space w = true.

Lemma skip_ws_app w s : ws w → skip_ws (w +:+ s) = skip_ws s.
Proof. unfold ws, skip_ws. induction w as [|c w IH]; [done|]. cbn. intros [-> Hw]%andb_true_iff. by apply IH. Qed.
Lemma expect_app c w s : ws w → expect c (w +:+ s) = expect c s.
Proof. intros Hw. unfold expect. by rewrite skip_ws_app. Qed.
Lemma parse_value_ws w f s : ws w → parse_value f (w +:+ s) = parse_value f s.
Proof. intros Hw. destruct f; [done|]. cbn [parse_value]. by rewrite skip_ws_app. Qed.
Lemma ws_app w v : ws w → ws v → ws (w +:+ v).
Proof. unfold ws. intros Hw Hv. by rewrite sforall_app, Hw, Hv. Qed.

Lemma parse_body_char c t : parse_body (json_char c +:+ t) = scons c <$> parse_body t.
Proof. by destruct c as [[] [] [] [] [] [] [] []]. Qed.
Lemma parse_body_json s t : parse_body (json_body s +:+ String dquote t) = Some (s, t).
Proof. induction s as [|c s IH]; [done|]. cbn [json_body]. by rewrite sapp_assoc, parse_body_char, IH. Qed.

(** The text after a number must not continue it. *)
Definition continues (c : ascii) : bool := is_digit c || Ascii.eqb c "." || Ascii.eqb (lower c) "e".
Definition number_end (s : string) : Prop := match s with String c _ => continues c = false | "" => True end.

Lemma take_while_app p s t : sforall p s = true → match t with String c _ => p c = false | "" => True end →
  take_while p (s +:+ t) = s ∧ skip_while p (s +:+ t) = t.
Proof.
  intros Hs Ht. induction s as [|c s IH]; cbn in *.
  - destruct t as [|c t]; [done|]. cbn. by rewrite Ht.
  - apply andb_true_iff in Hs as [-> Hs]. by destruct (IH Hs) as [-> ->].
Qed.

Lemma parse_unsigned_digits z t : (0 ≤ z)%Z → number_end t →
  parse_unsigned (string_of_Z z +:+ t) = Some (Int z, t).
Proof.
  intros Hz Ht. destruct (string_of_Z_spec z Hz) as (Hd & Hv & Hlen & Hne & H0).
  assert (match t with String c _ => is_digit c = false | "" => True end) as Htd.
  { destruct t as [|c t]; [done|]. cbn in Ht. unfold continues in Ht. by bool_prop. }
  unfold parse_unsigned. destruct (take_while_app is_digit _ t Hd Htd) as [-> ->].
  destruct (string_of_Z z =? "")%string eqn:E; bool_prop; [rewrite E in Hne; simpl in Hne; lia|]. cbn [orb].
  assert (startsWith (string_of_Z z) "0" && negb (string_of_Z z =? "0")%string = false) as ->.
  { destruct H0 as [Hs|H0]; [|change "0" with (str1 "0"); by rewrite H0].
    assert (slen (string_of_Z z) ≤ 1) as Hl by (apply Hlen; [done|lia]).
    destruct (string_of_Z z) as [|c [|d r]]; [done| |simpl in Hl; lia].
    change "0" with (str1 "0"). rewrite startsWith_char. by destruct (Ascii.eqb_spec "0" c) as [<-|]. }
  assert (parse_fraction t = Some ("", t)) as ->.
  { destruct t as [|c t]; [done|]. cbn in Ht |- *. apply orb_false_iff in Ht as [[_ Hp]%orb_false_iff _]. by rewrite Hp. }
  assert (parse_exp t = Some (0%Z, t)) as ->.
  { destruct t as [|c t]; [done|]. cbn in Ht |- *. apply orb_false_iff in Ht as [_ He]. by rewrite He. }
  rewrite sapp_nil_r, Hv. cbn. by rewrite Z.mul_1_r.
Qed.

Lemma parse_number_int z t : number_end t → parse_number (string_of_Z z +:+ t) = Some (Int z, t).
Proof.
  intros Ht. destruct (Z.ltb_spec z 0) as [Hz|Hz].
  - assert (string_of_Z z = String "-" (string_of_Z (- z))) as ->.
    { unfold string_of_Z. destruct (Z.ltb_spec z 0), (Z.ltb_spec (- z) 0); try lia. done. }
    cbn. rewrite parse_unsigned_digits by (done || lia). cbn. by rewrite Z.opp_involutive.
  - unfold parse_number. rewrite <-(parse_unsigned_digits z t Hz Ht).
    destruct (string_of_Z_spec z Hz) as (Hd & _ & _ & Hne & _).
    destruct (string_of_Z z) as [|c r]; [simpl in Hne; lia|]. cbn in *. bool_prop.
    destruct (Ascii.eqb_spec c "-") as [->|]; [done|done].
Qed.

Lemma string_of_Z_head z : ∃ c r, string_of_Z z = String c r ∧ is_digit c || Ascii.eqb c "-" = true.
Proof.
  destruct (Z.ltb_spec z 0) as [Hz|Hz].
  - unfold string_of_Z. destruct (Z.ltb_spec z 0); [|lia]. simpl. eexists _, _. done.
  - destruct (string_of_Z_spec z Hz) as (Hd & _ & _ & Hne & _).
    destruct (string_of_Z z) as [|c r]; [simpl in Hne; lia|]. cbn in Hd. bool_prop.
    exists c, r. by rewrite H.
Qed.
Lemma parse_value_number f c r : is_digit c || Ascii.eqb c "-" = true →
  parse_value (S f) (String c r) = (λ p, (JNum p.1, p.2)) <$> parse_number (String c r).
Proof. by destruct c as [[] [] [] [] [] [] [] []]. Qed.

(** The values whose text determines them: integers, and objects that keep their keys in
    the order [Object.entries] gives. *)
Inductive canonical : Json → Prop :=
| canonical_null : canonical JNull
| canonical_bool b : canonical (JBool b)
| canonical_int z : canonical (JNum (Int z))
| canonical_string s : canonical (JString s)
| canonical_array l : Forall canonical l → canonical (JArray l)
| canonical_object m : NoDup m.*1 → own_order m = m → Forall canonical m.*2 → canonical (JObject m).

Lemma wrap_shape gap indent : ws gap → ws indent → ∃ w0 w1, ws w0 ∧ ws w1
  ∧ ∀ open close items, items ≠ [] →
      wrap gap indent open close items = open +:+ w0 +:+ join ("," +:+ w0) items +:+ w1 +:+ close.
Proof.
  intros Hg Hi. unfold wrap. destruct (gap =? "")%string.
  - exists "", "". split_and!; [done..|]. by intros ? ? [|x l].
  - exists (nl +:+ indent +:+ gap), (nl +:+ indent).
    split_and!; [by apply (ws_app nl), ws_app|by apply (ws_app nl)|].
    intros open close [|x l] Hl; [done|]. by rewrite !sapp_assoc.
Qed.

Lemma number_end_ws w s : ws w → number_end s → number_end (w +:+ s).
Proof.
  destruct w as [|c w]; [done|]. intros [Hc _]%andb_true_iff _. cbn. revert Hc.
  by destruct c as [[] [] [] [] [] [] [] []].
Qed.

(** A printer of values [ser] that the parser undoes. *)
Definition undone (ser : Json → string) (v : Json) : Prop :=
  ∀ t fuel, number_end t → 2 * slen (ser v +:+ t) < fuel → parse_value fuel (ser v +:+ t) = Some (v, t).

Lemma parse_elements_items ser w0 w1 l : ws w0 → ws w1 → l ≠ [] → Forall (undone ser) l → ∀ acc fuel t,
  S (2 * slen (join ("," +:+ w0) (map ser l) +:+ w1 +:+ "]" +:+ t)) < fuel →
  parse_elements fuel acc (join ("," +:+ w0) (map ser l) +:+ w1 +:+ "]" +:+ t) = Some (JArray (acc ++ l), t).
Proof.
  intros Hw0 Hw1 Hne Hl. induction Hl as [|v l Hv Hl IH]; [done|]. intros acc [|f] t Hf; [lia|].
  cbn [parse_elements map] in *. destruct l as [|v' l].
  - cbn [map join] in *. rewrite Hv; [|by apply number_end_ws|lia]. by rewrite (expect_app ","), (expect_app "]").
  - set (rest := map ser (v' :: l)) in *. rewrite join_cons in Hf |- * by done. rewrite !sapp_assoc in Hf |- *.
    rewrite Hv; [|done|lia]. change (expect "," ("," +:+ ?s)) with (Some s).
    assert (2 * slen (join ("," +:+ w0) rest +:+ w1 +:+ "]" +:+ t) + 2 < S f) as Hlen.
    { do 3 rewrite slen_app in Hf. change (slen ",") with 1 in Hf. lia. }
    destruct f as [|f]; [lia|]. cbn [parse_elements].
    rewrite parse_value_ws by done.
    change (parse_elements (S f) (acc ++ [v]) (join ("," +:+ w0) rest +:+ w1 +:+ "]" +:+ t) = Some (JArray (acc ++ v :: v' :: l), t)).
    rewrite IH by (done || lia). by rewrite <-app_assoc.
Qed.

Lemma set_new (acc : list (string * Json)) k v : k ∉ acc.*1 → JsMap.set acc k v = acc ++ [(k, v)].
Proof.
  induction acc as [|[k1 v1] acc IH]; [done|]. cbn. intros [Hk Hin]%not_elem_of_cons.
  destruct (String.eqb_spec k1 k) as [->|]; [done|]. by rewrite IH.
Qed.

Lemma parse_members_items gap ser w0 w1 m : ws w0 → ws w1 → m ≠ [] → Forall (undone ser) m.*2 → ∀ acc fuel t,
  NoDup (acc ++ m).*1 →
  S (2 * slen (join ("," +:+ w0) (map (member gap) (map (λ kv, (kv.1, ser kv.2)) m)) +:+ w1 +:+ "}" +:+ t)) < fuel →
  parse_members fuel acc (join ("," +:+ w0) (map (member gap) (map (λ kv, (kv.1, ser kv.2)) m)) +:+ w1 +:+ "}" +:+ t)
  = Some (JObject (acc ++ m), t).
Proof.
  intros Hw0 Hw1 Hne Hm. induction m as [|[k v] m IH]; [done|]. intros acc [|f] t Hnd Hf; [lia|].
  inv Hm. cbn [map fst snd] in *. set (sp := if (gap =? "")%string then "" else " ").
  assert (ws sp) as Hsp by (unfold sp; by destruct (gap =? "")%string).
  assert (∀ t', number_end t' → 2 * slen (member gap (k, ser v) +:+ t') < S f →
     parse_members (S f) acc (member gap (k, ser v) +:+ t')
     = match expect "," t' with
       | Some r' => parse_members f (acc ++ [(k, v)]) r'
       | None => (λ r', (JObject (acc ++ [(k, v)]), r')) <$> expect "}" t'
       end) as Hone.
  { intros t' Ht' Hf'. unfold member in Hf' |- *. cbn [fst snd] in *. fold sp in Hf' |- *.
    unfold JSON_stringify in Hf' |- *. rewrite !sapp_assoc in Hf' |- *.
    cbn [parse_members]. change (expect dquote (str1 dquote +:+ ?x)) with (Some x). cbn [mbind option_bind].
    change (str1 dquote +:+ ?x) with (String dquote x) at 1. rewrite parse_body_json.
    change (expect ":" (":" +:+ ?x)) with (Some x). cbn [mbind option_bind]. rewrite parse_value_ws by done.
    rewrite H1; [|done|]. 2: { rewrite !slen_app in Hf'. cbn in Hf'. rewrite slen_app. lia. }
    cbv zeta. rewrite set_new; [done|].
    rewrite fmap_app in Hnd. apply NoDup_app in Hnd as (_ & Hd & _). intros Hin. apply (Hd k); [done|by left]. }
  destruct m as [|kv' m].
  - cbn [map join] in *. rewrite Hone; [|by apply number_end_ws|lia]. by rewrite (expect_app ","), (expect_app "}").
  - set (rest := map (member gap) (map (λ kv, (kv.1, ser kv.2)) (kv' :: m))) in *.
    assert (rest ≠ []) as Hr by done. rewrite join_cons in Hf |- * by done. rewrite !sapp_assoc in Hf |- *.
    rewrite Hone; [|done|lia]. change (expect "," ("," +:+ ?s)) with (Some s).
    assert (2 * slen (join ("," +:+ w0) rest +:+ w1 +:+ "}" +:+ t) + 2 < S f) as Hlen.
    { do 3 rewrite slen_app in Hf. change (slen ",") with 1 in Hf. lia. }
    destruct f as [|f]; [lia|].
    transitivity (parse_members (S f) (acc ++ [(k, v)]) (join ("," +:+ w0) rest +:+ w1 +:+ "}" +:+ t)).
    { cbn [parse_members]. by rewrite expect_app. }
    rewrite IH; [by rewrite <-app_assoc|done|done|by rewrite <-app_assoc|lia].
Qed.

Lemma sort_by_map {A B} (le : A → A → bool) (le' : B → B → bool) (g : A → B) l :
  (∀ a b, le' (g a) (g b) = le a b) → sort_by le' (map g l) = map g (sort_by le l).
Proof.
  intros H. assert (∀ x k, insert_by le' (g x) (map g k) = map g (insert_by le x k)) as Hi.
  { intros x k. induction k as [|y k IH]; [done|]. simpl. rewrite H, IH. by case_if. }
  induction l as [|x l IH]; [done|]. simpl. by rewrite IH, Hi.
Qed.
Lemma bfilter_map {A B} (p : B → bool) (g : A → B) l : bfilter p (map g l) = map g (bfilter (λ x, p (g x)) l).
Proof. induction l as [|x l IH]; [done|]. simpl. rewrite IH. by case_if. Qed.
Lemma own_order_map {A B} (g : A → B) m :
  own_order (map (λ kv, (kv.1, g kv.2)) m) = map (λ kv, (kv.1, g kv.2)) (own_order m).
Proof. unfold own_order. by rewrite !bfilter_map, (sort_by_map (λ a b, digits_value 0 a.1 <=? digits_value 0 b.1)%Z), map_app. Qed.

Lemma serialize_head gap indent v : canonical v → ∃ c r, serialize gap indent v = String c r
  ∧ is_json_space c = false ∧ Ascii.eqb c "]" = false.
Proof.
  intros [| [] | z | s | l _ | m _ _ _]; simpl; try (by eexists _, _).
  - destruct (string_of_Z_head z) as (c & r & -> & Hc). exists c, r. split; [done|].
    clear -Hc. revert Hc. by destruct c as [[] [] [] [] [] [] [] []].
  - unfold wrap. repeat case_match; by eexists _, _.
  - unfold wrap. repeat case_match; by eexists _, _.
Qed.

Lemma keyword_app w v t : keyword w v (w +:+ t) = Some (v, t).
Proof. unfold keyword. rewrite (proj2 (startsWith_true _ _)) by eauto. by rewrite sdrop_app. Qed.

Lemma serialize_undone gap v : ws gap → canonical v → ∀ indent, ws indent → undone (serialize gap indent) v.
Proof.
  intros Hg. induction v as [| |n|s|l IH|m IH] using json_ind'; intros Hc indent Hi t [|f] Ht Hf; try lia.
  - apply (keyword_app "null").
  - destruct b; [apply (keyword_app "true")|apply (keyword_app "false")].
  - inv Hc. cbn [serialize JSON_number]. 
    destruct (string_of_Z_head z) as (c & r & Hz & Hd). rewrite Hz. change (String c r +:+ t) with (String c (r +:+ t)).
    rewrite parse_value_number by done. change (String c (r +:+ t)) with (String c r +:+ t).
    rewrite <-Hz, parse_number_int by done. done.
  - cbn [serialize]. unfold JSON_stringify. rewrite !sapp_assoc.
    change (str1 dquote +:+ json_body s +:+ str1 dquote +:+ t) with (String dquote (json_body s +:+ String dquote t)).
    change (((λ p, (JString p.1, p.2)) <$> parse_body (json_body s +:+ String dquote t)) = Some (JString s, t)).
    by rewrite parse_body_json.
  - inv Hc. destruct (wrap_shape gap indent Hg Hi) as (w0 & w1 & Hw0 & Hw1 & Hwrap).
    assert (ws (indent +:+ gap)) as Hig by by apply ws_app.
    destruct l as [|v l]; [done|]. cbn [serialize] in *. rewrite Hwrap in Hf |- * by done.
    rewrite !sapp_assoc in Hf |- *. cbn [parse_value].
    change (skip_ws ("[" +:+ ?x)) with ("[" +:+ x). cbn [String.append].
    change (Ascii.eqb "[" "[") with true. cbv iota.
    assert (expect "]" (w0 +:+ join (String "," w0) (map (serialize gap (indent +:+ gap)) (v :: l)) +:+ w1 +:+ String "]" t) = None) as ->.
    { rewrite expect_app by done. inv H0.
      destruct (serialize_head gap (indent +:+ gap) v H2) as (c & r & Hs & Hsp & Hcb).
      unfold expect, skip_ws. cbn [map]. destruct (map _ l); [cbn [join]|rewrite join_cons by done];
        rewrite Hs; cbn; by rewrite Hsp, Hcb. }
    rewrite !slen_app in Hf. cbn in Hf. destruct f as [|f]; [lia|].
    transitivity (parse_elements (S f) [] (join ("," +:+ w0) (map (serialize gap (indent +:+ gap)) (v :: l)) +:+ w1 +:+ "]" +:+ t)).
    { cbn [parse_elements]. by rewrite parse_value_ws. }
    rewrite parse_elements_items; [done|done|done|done| |].
    + apply Forall_forall. intros x Hx. rewrite Forall_forall in IH, H0. by apply IH; [|apply H0|].
    + rewrite !slen_app. cbn. rewrite ?slen_app in *. simpl in *. lia.
  - inv Hc. destruct (wrap_shape gap indent Hg Hi) as (w0 & w1 & Hw0 & Hw1 & Hwrap).
    assert (ws (indent +:+ gap)) as Hig by by apply ws_app.
    destruct m as [|[k v] m]; [done|]. cbn [serialize] in *. rewrite own_order_map, H1 in Hf |- *.
    rewrite Hwrap in Hf |- * by done. rewrite !sapp_assoc in Hf |- *. cbn [parse_value].
    change (skip_ws ("{" +:+ ?x)) with ("{" +:+ x). cbn [String.append].
    change (Ascii.eqb "{" "[") with false. change (Ascii.eqb "{" "{") with true. cbv iota.
    set (items := map (member gap) _) in *.
    assert (expect "}" (w0 +:+ join (String "," w0) items +:+ w1 +:+ String "}" t) = None) as ->.
    { rewrite expect_app by done. unfold items. by destruct m. }
    rewrite !slen_app in Hf. cbn in Hf. destruct f as [|f]; [lia|].
    transitivity (parse_members (S f) [] (join ("," +:+ w0) items +:+ w1 +:+ "}" +:+ t)).
    { cbn [parse_members]. by rewrite expect_app. }
    unfold items in *. rewrite parse_members_items; [done|done|done|done| |done|].
    + apply Forall_forall. intros x Hx. rewrite Forall_forall in IH.
      pose proof (proj1 (Forall_forall _ _) H2) as Hcan.
      apply list_elem_of_fmap in Hx as (kv & -> & Hkv).
      apply (IH kv); [done|apply Hcan; by apply list_elem_of_fmap_2|done].
    + rewrite !slen_app. cbn. rewrite ?slen_app in *. simpl in *. lia.
Qed.

(** What [JSON.stringify] prints of a canonical value, at any indentation and followed by
    any white space, is read back as that value. *)
Theorem parse_stringify gap v w : ws gap → ws w → canonical v → parse (stringify gap v +:+ w) = Some v.
Proof.
  intros Hg Hw Hv. unfold parse, stringify. rewrite (serialize_undone gap v Hg Hv ""); [|done| |unfold fuel_for; lia].
  - pose proof (skip_ws_app w "" Hw) as H. rewrite sapp_nil_r in H. by rewrite H.
  - pose proof (number_end_ws w "" Hw I) as H. by rewrite sapp_nil_r in H.
Qed.

(** An object whose keys are not array indices keeps them in the order they were made. *)
Lemma own_order_names {A} (m : list (string * A)) : every (λ k, negb (is_index k)) m.*1 = true → own_order m = m.
Proof.
  intros H. unfold own_order. assert (Forall (λ kv, is_index kv.1 = false) m) as Hm.
  { rewrite Forall_forall. intros kv Hkv. rewrite every_true in H. apply negb_true_iff, H. by apply list_elem_of_fmap_2. }
  clear H. induction Hm as [|kv m Hkv Hm IH]; [done|]. cbn. rewrite Hkv. cbn.
  destruct (sort_by _ (bfilter _ m)) as [|x l] eqn:E; [cbn; by f_equal|].
  exfalso. assert (x ∈ sort_by (λ a b, digits_value 0 a.1 <=? digits_value 0 b.1)%Z (bfilter (λ kv, is_index kv.1) m)) as Hx
    by (rewrite E; by left).
  rewrite sort_by_perm in Hx. apply elem_of_bfilter in Hx as [Hx Hi].
  rewrite Forall_forall in Hm. by rewrite (Hm x Hx) in Hi.
Qed.

(** Text without a gap is one line. *)
Lemma has_char_joined c sep l : has_char c sep = false → Forall (λ s, has_char c s = false) l → has_char c (join sep l) = false.
Proof.
  intros Hs Hl. induction Hl as [|x l Hx Hl IH]; [done|]. destruct l as [|y l]; [done|].
  by rewrite join_cons, !has_char_app, Hx, Hs, IH.
Qed.
Lemma string_one_line s : has_char newline (JSON_stringify s) = false.
Proof.
  unfold JSON_stringify. rewrite !has_char_app. change (has_char newline (str1 dquote)) with false. cbn [orb]. rewrite orb_false_r.
  induction s as [|c s IH]; [done|]. cbn [json_body]. rewrite has_char_app, IH, orb_false_r.
  by destruct c as [[] [] [] [] [] [] [] []].
Qed.
Lemma int_one_line z : has_char newline (string_of_Z z) = false.
Proof.
  assert (∀ n, (0 ≤ n)%Z → has_char newline (string_of_Z n) = false) as Hn.
  { intros n Hn. destruct (string_of_Z_spec n Hn) as (Hd & _). induction (string_of_Z n) as [|c s IH]; [done|].
    cbn in *. apply andb_true_iff in Hd as [Hc Hs]. rewrite IH, orb_false_r by done.
    by destruct c as [[] [] [] [] [] [] [] []]. }
  destruct (Z.ltb_spec z 0) as [Hz|Hz]; [|by apply Hn].
  assert (string_of_Z z = "-" +:+ string_of_Z (- z)) as ->.
  { unfold string_of_Z. destruct (Z.ltb_spec z 0), (Z.ltb_spec (- z) 0); try lia. done. }
  by rewrite has_char_app, Hn by lia.
Qed.
Lemma wrap_one_line indent open close items : has_char newline open = false → has_char newline close = false →
  Forall (λ s, has_char newline s = false) items → has_char newline (wrap "" indent open close items) = false.
Proof.
  intros Ho Hc Hl. unfold wrap. destruct items as [|x l]; [by rewrite has_char_app, Ho|].
  cbn [String.eqb]. by rewrite !has_char_app, Ho, Hc, has_char_joined.
Qed.
Lemma serialize_one_line v : canonical v → ∀ indent, has_char newline (serialize "" indent v) = false.
Proof.
  induction v as [|b|n|s|l IH|m IH] using json_ind'; intros Hc indent; inv Hc; cbn [serialize].
  - done.
  - by destruct b.
  - apply int_one_line.
  - apply string_one_line.
  - apply wrap_one_line; [done..|]. apply Forall_map. rewrite Forall_forall in *. intros x Hx. by apply IH; [|auto].
  - apply wrap_one_line; [done..|]. rewrite own_order_map, H1. rewrite !Forall_map. rewrite Forall_forall in IH.
    pose proof (proj1 (Forall_forall _ _) H2) as Hcan. apply Forall_forall. intros kv Hkv. unfold member. cbn [fst snd String.eqb].
    rewrite !has_char_app, string_one_line, IH by (done || apply Hcan; by apply list_elem_of_fmap_2). done.
Qed.

(** [String(v)] of a parsed value: an object that owns a [toString] has no callable one, and the inherited
    [valueOf] answers the object itself. *)
Fixpoint to_string (v : Json) : result string :=
  match v with
  | JNull => Ok "null"
  | JBool b => Ok (if b then "true" else "false")
  | JNum n => Ok (JSON_number n)
  | JString s => Ok s
  | JArray l =>
      rmap (join ",")
        ((fix go l := match l with
                      | [] => Ok []
                      | x :: r => let! y := match x with JNull => Ok "" | _ => to_string x end in
                                  let! ys := go r in Ok (y :: ys)
                      end) l)
  | JObject m => if JsMap.has m "toString" then throw "Cannot convert object to primitive value"
                 else Ok "[object Object]"
  end.

(** ** What the engine says

    The messages of the errors the engine itself throws: of a text that is no JSON, and
    of an operation a value does not have. *)
Class Engine := { syntax_message : string → string; type_message : string → string }.

(** [JSON.parse(raw)] with its error. *)
Definition parse_or_throw `{Engine} (raw : string) : result Json :=
  match parse raw with Some v => Ok v | None => throw (syntax_message raw) end.
Definition type_error `{Engine} {A} (operation : string) : result A := throw (type_message operation).

(** [v?.[key]] of a value that may be [undefined]. *)
Definition field (v : option Json) (key : string) : option Json := v ≫= λ v, prop v key.
(** [x === undefined || x === null] *)
Definition nullish (v : option Json) : bool := match v with None | Some JNull => true | _ => false end.
Definition text_of (v : option Json) : option string := match v with Some (JString s) => Some s | _ => None end.
(** [JSON.stringify(v)] in a template literal. *)
Definition stringify_opt (v : option Json) : string :=
  match v with Some v => stringify "" v | None => "undefined" end.
(** [String(v)] *)
Definition to_string_opt (v : option Json) : result string :=
  match v with Some v => to_string v | None => Ok "undefined" end.
Definition strings (l : list string) : Json := JArray (map JString l).
(** The strings of an array that holds nothing else. *)
Fixpoint all_strings (l : list Json) : option (list string) :=
  match l with
  | [] => Some []
  | JString s :: r => cons s <$> all_strings r
  | _ => None
  end.
Lemma all_strings_strings l : all_strings (map JString l) = Some l.
Proof. induction l as [|s l IH]; [done|]. cbn. by rewrite IH. Qed.

Lemma canonical_strings l : canonical (strings l).
Proof. constructor. apply Forall_forall. intros v (s & -> & _)%list_elem_of_fmap. constructor. Qed.
(** An object of named members is canonical when they are. *)
Lemma canonical_named (m : list (string * Json)) : bool_decide (NoDup m.*1) = true →
  every (λ k, negb (is_index k)) m.*1 = true → Forall canonical m.*2 → canonical (JObject m).
Proof. intros H%bool_decide_eq_true Hi Hm. constructor; [done|by apply own_order_names|done]. Qed.
End JSON.
