(* ===== verification/Network.v ===== *)
(** * Network rules (src/domain/value-objects/NetworkRule.ts)

    Outbound destinations: exact host names, wildcards over a registrable suffix, the
    loopback interface, and the legacy forms that name no host. *)

From S2P Require Import Prelude JsString JsNumber.

Module NetworkRule.

Inductive NetworkProtocol := tcp_protocol | udp_protocol | ip_protocol.
#[global] Instance NetworkProtocol_eq_dec : EqDecision NetworkProtocol.
Proof. solve_decision. Defined.

Inductive NetworkPort := PortNumber (n : JsNumber) | AnyPort.
#[global] Instance NetworkPort_eq_dec : EqDecision NetworkPort.
Proof. solve_decision. Defined.

(** The host is a string; [any] and [loopback] are two of its values. *)
Record NetworkRule := mkRule { protocol : NetworkProtocol; host : string; port : NetworkPort }.
#[global] Instance NetworkRule_eq_dec : EqDecision NetworkRule.
Proof. solve_decision. Defined.

Definition assertPort (p : NetworkPort) : result NetworkPort :=
  match p with
  | AnyPort => Ok p
  | PortNumber (Int n) =>
      if (n <? 1)%Z || (65535 <? n)%Z then throw ("Invalid port: " +:+ string_of_Z n) else Ok p
  | PortNumber n => throw ("Invalid port: " +:+ JSON_number n)
  end.

(** [replace(/\.$/, '')] *)
Definition strip_dot (s : string) : string :=
  if endsWith s "." then stake (slen s - 1) s else s.

(** [/^\d+(?:\.\d+){3}$/] *)
Definition is_ipv4_shape (s : string) : bool :=
  let parts := split "."%char s in
  (length parts =? 4) && every (λ w, negb (w =? "")%string && sforall is_digit w) parts.

Definition is_label_char (c : ascii) : bool := is_digit c || is_lower c.
(** [/^[a-z0-9](?:[a-z0-9-]*[a-z0-9])?$/], of length 1 to 63 *)
Definition valid_label (l : string) : bool :=
  negb (slen l =? 0) && negb (63 <? slen l)
  && match l with String c _ => is_label_char c | "" => false end
  && sforall (λ c, is_label_char c || Ascii.eqb c "-") l
  && match last_char l with Some c => is_label_char c | None => false end.

Definition normalizeCandidateHost (raw : string) : result string :=
  let normalized := strip_dot (toLowerCase raw) in
  if (slen normalized =? 0) || (253 <? slen normalized)
  then throw "A network destination needs a valid DNS hostname"
  else if negb (sforall (λ c, code c <=? 127) normalized)
  then throw "Use the ASCII/Punycode form of an internationalised hostname"
  else if sexists (λ c, Ascii.eqb c colon || Ascii.eqb c slash || Ascii.eqb c "@"
                        || is_space c || Ascii.eqb c backslash) normalized
          || is_ipv4_shape normalized
  then throw "A network destination must be a DNS hostname, not a URL or IP literal"
  else if some (λ l, negb (valid_label l)) (split "."%char normalized)
  then throw ("Invalid network destination hostname: " +:+ JSON_stringify raw)
  else Ok normalized.

Definition normalizeDestinationHost (raw : string) : result string :=
  let wildcard := startsWith raw "*." in
  if has_char "*" raw && negb wildcard
  then throw "A destination wildcard must occupy the complete left-most label (`*.`)"
  else
    let candidate := if wildcard then sdrop 2 raw else raw in
    let! normalized := normalizeCandidateHost candidate in
    if wildcard && negb (has_char "." normalized)
    then throw "A destination wildcard needs a registrable suffix, not a top-level domain"
    else Ok (if wildcard then "*." +:+ normalized else normalized).

Definition isLoopbackName (raw : string) : bool :=
  let normalized := strip_dot (toLowerCase raw) in
  (normalized =? "localhost")%string || endsWith normalized ".localhost".

Definition tcp (p : NetworkPort) : result NetworkRule := rmap (mkRule tcp_protocol "any") (assertPort p).
Definition udp (p : NetworkPort) : result NetworkRule := rmap (mkRule udp_protocol "any") (assertPort p).
Definition loopback : NetworkRule := mkRule ip_protocol "loopback" AnyPort.
Definition destination (h : string) (p : JsNumber) : result NetworkRule :=
  let! h' := normalizeDestinationHost h in
  rmap (mkRule tcp_protocol h') (assertPort (PortNumber p)).

Definition isExplicitDestination (r : NetworkRule) : bool :=
  bool_decide (protocol r = tcp_protocol) && negb (host r =? "any")%string
  && negb (host r =? "loopback")%string.

Definition allowsLoopback (r : NetworkRule) : bool := (host r =? "loopback")%string.

(** [this.port === port] *)
Definition port_is (p : NetworkPort) (n : JsNumber) : bool :=
  match p with PortNumber m => number_eqb m n | AnyPort => false end.

Definition matches (r : NetworkRule) (h : string) (p : JsNumber) : bool :=
  if (host r =? "any")%string then bool_decide (protocol r = tcp_protocol) && port_is (port r) p
  else if (host r =? "loopback")%string
  then isLoopbackName h && (bool_decide (port r = AnyPort) || port_is (port r) p)
  else if negb (bool_decide (protocol r = tcp_protocol)) || negb (port_is (port r) p) then false
  else match normalizeCandidateHost h with
       | Err _ => false
       | Ok candidate =>
           if negb (startsWith (host r) "*.") then (candidate =? host r)%string
           else let suffix := sdrop 1 (host r) in
                endsWith candidate suffix && (slen suffix <? slen candidate)
       end.

Definition equals (a b : NetworkRule) : bool :=
  bool_decide (protocol a = protocol b) && (host a =? host b)%string
  && match port a, port b with
     | AnyPort, AnyPort => true
     | PortNumber m, PortNumber n => number_eqb m n
     | _, _ => false
     end.

Definition protocol_name (p : NetworkProtocol) : string :=
  match p with tcp_protocol => "tcp" | udp_protocol => "udp" | ip_protocol => "ip" end.
Definition port_text (p : NetworkPort) : string :=
  match p with AnyPort => "*" | PortNumber n => JSON_number n end.

Definition toString (r : NetworkRule) : string :=
  let h := if (host r =? "loopback")%string then "localhost"
           else if (host r =? "any")%string then "*" else host r in
  protocol_name (protocol r) +:+ "://" +:+ h +:+ ":" +:+ port_text (port r).

(** ** Host names in normal form *)

(** A host name the broker can be asked for. *)
Definition valid_host (s : string) : Prop :=
  slen s ≠ 0 ∧ slen s ≤ 253 ∧ is_ipv4_shape s = false ∧
  Forall (λ l, valid_label l = true) (split "."%char s).

Definition host_char (c : ascii) : bool := is_label_char c || Ascii.eqb c "-" || Ascii.eqb c ".".

Lemma host_char_facts c : host_char c = true →
  Ascii.eqb (lower c) c = true ∧ (code c <=? 127) = true ∧
  negb (Ascii.eqb c colon || Ascii.eqb c slash || Ascii.eqb c "@" || is_space c
        || Ascii.eqb c backslash) = true.
Proof. destruct c as [[] [] [] [] [] [] [] []]; vm_compute; intros [=]; done. Qed.

Lemma valid_label_chars l : valid_label l = true → sforall host_char l = true.
Proof.
  unfold valid_label. intros H. bool_prop. eapply sforall_impl; [|exact H1].
  intros c Hc. unfold host_char. by rewrite Hc.
Qed.

Lemma valid_host_chars s :
  Forall (λ l, valid_label l = true) (split "."%char s) → sforall host_char s = true.
Proof.
  intros Hf. rewrite <-(join_split "."%char s). apply sforall_join; [done|].
  eapply Forall_impl; [exact Hf|]. apply valid_label_chars.
Qed.

Lemma valid_host_no_dot s :
  Forall (λ l, valid_label l = true) (split "."%char s) → strip_dot s = s.
Proof.
  intros Hf. unfold strip_dot. destruct (endsWith s ".") eqn:E; [|done].
  apply endsWith_true in E as [t ->]. exfalso.
  change (t +:+ ".") with (t +:+ String "."%char "") in Hf.
  rewrite split_app, Forall_app in Hf. destruct Hf as [_ Hf]. by inv Hf.
Qed.

(** Host names in normal form are exactly the fixed points of normalisation. *)
Lemma normalizeCandidateHost_valid s : valid_host s → normalizeCandidateHost s = Ok s.
Proof.
  intros (H0 & Hlen & Hip & Hl). pose proof (valid_host_chars s Hl) as Hc.
  unfold normalizeCandidateHost, toLowerCase.
  rewrite smap_id by (eapply sforall_impl; [|exact Hc]; intros c ?; by apply host_char_facts).
  rewrite valid_host_no_dot by done. cbv zeta.
  apply Nat.eqb_neq in H0. apply Nat.ltb_ge in Hlen. rewrite H0, Hlen, Hip. cbn [orb].
  rewrite (sforall_impl host_char) by (done || by apply host_char_facts). cbn [negb].
  rewrite (proj2 (sexists_false _ _)) by
    (eapply sforall_impl; [|exact Hc]; intros c ?; by apply host_char_facts).
  cbn [orb]. rewrite (proj2 (some_false _ _)); [done|].
  rewrite Forall_forall in Hl. intros l Hin. by rewrite (Hl l Hin).
Qed.

Lemma normalizeCandidateHost_ok raw s : normalizeCandidateHost raw = Ok s → valid_host s.
Proof.
  unfold normalizeCandidateHost. cbv zeta. set (n := strip_dot _). intros H.
  repeat match type of H with
  | context [if ?b then _ else _] => destruct b eqn:?; [discriminate|]
  end.
  injection H as <-. bool_prop. split; [done|]. split; [lia|]. split; [done|].
  apply Forall_forall. intros l Hl. rewrite some_false in *.
  apply negb_false_iff. auto.
Qed.

(** ** Properties *)

(** Normalisation of a host is idempotent, and what it returns is a well-formed
    host name: at most 253 characters, lower case, no trailing dot, labels of 1 to 63
    letters, digits and inner hyphens, never an IPv4 literal. *)
Theorem normalizeCandidateHost_normal raw s :
  normalizeCandidateHost raw = Ok s → valid_host s ∧ normalizeCandidateHost s = Ok s.
Proof.
  intros H. apply normalizeCandidateHost_ok in H as Hv.
  split; [done|]. by apply normalizeCandidateHost_valid.
Qed.

Lemma normalizeCandidateHost_normal_witness :
  valid_host "api.example.com" ∧ normalizeCandidateHost "api.example.com" = Ok "api.example.com".
Proof. apply (normalizeCandidateHost_normal "API.Example.COM."). reflexivity. Defined.

(** The comparison a wildcard rule performs. *)
Lemma wildcard_matches_eq n p h q :
  matches (mkRule tcp_protocol ("*." +:+ n) (PortNumber (Int p))) h (Int q) =
  if bool_decide (Int p = Int q)
  then match normalizeCandidateHost h with
       | Err _ => false
       | Ok c => endsWith c ("." +:+ n) && (slen ("." +:+ n) <? slen c)
       end
  else false.
Proof.
  unfold matches. cbn [host protocol port port_is number_eqb].
  assert (startsWith ("*." +:+ n) "*." = true) as -> by apply prefix_app.
  change ("*." +:+ n =? "any")%string with false.
  change ("*." +:+ n =? "loopback")%string with false.
  change (sdrop 1 ("*." +:+ n)) with ("." +:+ n).
  rewrite bool_decide_true by done. by destruct (bool_decide (Int p = Int q)).
Qed.

(** A wildcard destination admits exactly the strict subdomains of its suffix,
    on its own port: never the suffix itself, and never a host that merely ends with
    the same characters, because the dot of the label boundary is part of the
    comparison. *)
Theorem wildcard_destination_matches d p r h q :
  destination ("*." +:+ d) (Int p) = Ok r →
  matches r h (Int q) = true ↔
  q = p ∧ ∃ suffix x, normalizeCandidateHost d = Ok suffix
    ∧ normalizeCandidateHost h = Ok (x +:+ "." +:+ suffix) ∧ x ≠ "".
Proof.
  unfold destination, normalizeDestinationHost. intros H.
  assert (startsWith ("*." +:+ d) "*." = true) as Hw by apply prefix_app.
  rewrite Hw, andb_false_r in H.
  change (sdrop 2 ("*." +:+ d)) with d in H. cbv zeta in H.
  destruct (normalizeCandidateHost d) as [n|] eqn:Hd; cbn [rbind] in H; [|discriminate].
  destruct (true && negb (has_char "." n)); cbn [rbind] in H; [discriminate|].
  unfold assertPort in H. destruct ((p <? 1)%Z || (65535 <? p)%Z); [discriminate|].
  cbn [rmap] in H. injection H as <-.
  change (String "*" (String "." n)) with ("*." +:+ n).
  rewrite wildcard_matches_eq. destruct (bool_decide (Int p = Int q)) eqn:Hpq.
  - apply bool_decide_eq_true in Hpq. injection Hpq as ->.
    destruct (normalizeCandidateHost h) as [c|] eqn:Hh.
    + rewrite andb_true_iff, endsWith_true, Nat.ltb_lt. split.
      * intros [[x ->] Hlen]. split; [done|]. exists n, x. split; [done|]. split; [done|].
        intros ->. simpl in Hlen. lia.
      * intros (_ & s & x & [= <-] & [= ->] & Hx). split; [by exists x|].
        rewrite (slen_app x). destruct x; [done|]. cbn [String.length String.append]. lia.
    + split; [done|]. by intros (_ & ? & ? & _ & ? & _).
  - apply bool_decide_eq_false in Hpq. split; [done|]. intros [-> _]. done.
Qed.

Lemma wildcard_destination_matches_witness :
  ∃ r, destination "*.example.com" (Int 443) = Ok r ∧
  (matches r "evil-example.com" (Int 443) = true ↔
   443%Z = 443%Z ∧ ∃ suffix x, normalizeCandidateHost "example.com" = Ok suffix
    ∧ normalizeCandidateHost "evil-example.com" = Ok (x +:+ "." +:+ suffix) ∧ x ≠ "").
Proof.
  eexists. split; [reflexivity|].
  apply (wildcard_destination_matches "example.com" 443). reflexivity.
Defined.

(** The names [any] and [loopback] are well-formed hosts, and naming them as a
    destination yields the sentinel instead of that host: [any] on a port is the
    legacy rule that matches every host on that port, [loopback] on one port answers
    to [allowsLoopback]. *)
Theorem sentinel_hosts_collide :
  destination "any" (Int 443) = tcp (PortNumber (Int 443))
  ∧ (∃ r, destination "any" (Int 443) = Ok r ∧ isExplicitDestination r = false
          ∧ ∀ h, matches r h (Int 443) = true)
  ∧ (∃ r, destination "loopback" (Int 8080) = Ok r ∧ allowsLoopback r = true
          ∧ matches r "localhost" (Int 8080) = true ∧ matches r "loopback" (Int 8080) = false).
Proof. split; [reflexivity|]. split; eexists; repeat split. Qed.

End NetworkRule.
Abbreviation NetworkRule := NetworkRule.NetworkRule.
