(* ===== verification/SensitivePaths.v ===== *)
(** * Sensitive paths (src/domain/paths)

    [SensitivePath]: one row of the registry, built by a constructor per category so
    that tier 2 and the block disposition always go together. [SensitivePathRegistry]:
    the queries over the rows. [PathContext]: what a path is judged against. *)

From S2P Require Import Prelude JsString NodePath Paths Patterns Values.

(** ** PathContext (PathContext.ts) *)

Record PathContext := mkContext {
  home : AbsolutePath;
  workspace : AbsolutePath;
  platform : Platform
}.

Module SensitivePath.

Inductive SensitiveCategory := credential_category | persistence_category | history_category | config_category.
#[global] Instance SensitiveCategory_eq_dec : EqDecision SensitiveCategory.
Proof. solve_decision. Defined.

Record SensitivePathIdentity := mkIdentity {
  id_ : string;
  pattern_ : string;
  platforms_ : list Platform;
  rationale_ : string;
  outsideWorkspaceOnly_ : option bool
}.

Record SensitivePath := mkSensitivePath {
  id : string;
  pattern : PathPattern;
  category : SensitiveCategory;
  readTier : AccessTier;
  writeTier : AccessTier;
  onRead : Disposition;
  onWrite : Disposition;
  platforms : list Platform;
  rationale : string;
  outsideWorkspaceOnly : bool
}.
#[global] Instance SensitivePath_eq_dec : EqDecision SensitivePath.
Proof. solve_decision. Defined.

Definition build (c : SensitiveCategory) (identity : SensitivePathIdentity)
    (readTier writeTier : Z) (onRead onWrite : string) : result SensitivePath :=
  if negb (Bool.eqb (readTier =? 2)%Z (onRead =? "block")%string)
     || negb (Bool.eqb (writeTier =? 2)%Z (onWrite =? "block")%string)
  then throw (id_ identity +:+ ": tier 2 requires block, and block requires tier 2")
  else
    let! p := PathPattern.of_ (pattern_ identity) in
    let! rt := AccessTier.ofLevel readTier in
    let! wt := AccessTier.ofLevel writeTier in
    let! rd := Disposition.of_ onRead in
    let! wd := Disposition.of_ onWrite in
    Ok (mkSensitivePath (id_ identity) p c rt wt rd wd (platforms_ identity) (rationale_ identity)
          (match outsideWorkspaceOnly_ identity with Some b => b | None => false end)).

Definition credential (i : SensitivePathIdentity) : result SensitivePath :=
  build credential_category i 2 2 "block" "block".
Definition history (i : SensitivePathIdentity) : result SensitivePath :=
  build history_category i 2 2 "block" "block".
(** The read side of a persistence row: its tier and its disposition. *)
Definition persistence (i : SensitivePathIdentity) (readTier : Z) (onRead : string) : result SensitivePath :=
  build persistence_category i readTier 2 onRead "block".
Definition configuration (i : SensitivePathIdentity) (readTier writeTier : Z) (onRead onWrite : string) :
    result SensitivePath :=
  build config_category i readTier writeTier onRead onWrite.

Definition tierFor (e : SensitivePath) (a : Access) : AccessTier :=
  match a with read => readTier e | write => writeTier e end.
Definition dispositionFor (e : SensitivePath) (a : Access) : Disposition :=
  match a with read => onRead e | write => onWrite e end.
Definition appliesOn (e : SensitivePath) (p : Platform) : bool :=
  some (λ q, bool_decide (q = p)) (platforms e).

Definition matches (e : SensitivePath) (path : AbsolutePath) (ctx : PathContext) : bool :=
  if negb (appliesOn e (platform ctx)) then false
  else if outsideWorkspaceOnly e && AbsolutePath.contains (workspace ctx) path then false
  else PathPattern.matches (pattern e) path (home ctx).

Definition literalPrefix (e : SensitivePath) (h : AbsolutePath) : result (option AbsolutePath) :=
  PathPattern.literalPrefix (pattern e) h.
Definition descendsBelowPrefix (e : SensitivePath) : bool :=
  PathPattern.descendsBelowPrefix (pattern e).

(** Dangerous for an operation: tier 2. *)
Definition dangerous (e : SensitivePath) (a : Access) : bool :=
  (AccessTier.level (tierFor e a) =? 2)%Z.

(** The invariant of a row. *)
Definition coherent (e : SensitivePath) : Prop :=
  ∀ a, tierFor e a = AccessTier.DANGEROUS ↔ dispositionFor e a = Disposition.BLOCK.

Lemma dangerous_tier e a : dangerous e a = true ↔ tierFor e a = AccessTier.DANGEROUS.
Proof. unfold dangerous. by destruct (tierFor e a). Qed.

Lemma side_coherent l n t d :
  Bool.eqb (l =? 2)%Z (n =? "block")%string = true →
  AccessTier.ofLevel l = Ok t → Disposition.of_ n = Ok d →
  t = AccessTier.DANGEROUS ↔ d = Disposition.BLOCK.
Proof.
  intros E Ht Hd. apply Bool.eqb_prop in E.
  unfold AccessTier.ofLevel in Ht. unfold Disposition.of_ in Hd.
  destruct (find _ AccessTier.ALL) as [t'|] eqn:Et; [injection Ht as <-|done].
  destruct (find _ Disposition.ALL) as [d'|] eqn:Ed; [injection Hd as <-|done].
  apply find_spec in Et as [_ <-%Z.eqb_eq]. apply find_spec in Ed as [_ <-%String.eqb_eq].
  by destruct t', d'.
Qed.

Lemma build_coherent c i rt wt rd wd e : build c i rt wt rd wd = Ok e → coherent e.
Proof.
  unfold build. destruct (Bool.eqb (rt =? 2)%Z _) eqn:Er; [|done].
  destruct (Bool.eqb (wt =? 2)%Z _) eqn:Ew; [|done]. cbn [negb orb]. intros H. res_inv.
  intros []; cbn; [apply (side_coherent rt rd) | apply (side_coherent wt wd)]; done.
Qed.
End SensitivePath.
Abbreviation SensitivePath := SensitivePath.SensitivePath.

(** ** The registry (SensitivePathRegistry.ts) *)

Module SensitivePathRegistry.
Import SensitivePath.

Record SensitivePathRegistry := mkRegistry { entries : list SensitivePath }.

Fixpoint findDuplicateId (seen : gset string) (es : list SensitivePath) : option string :=
  match es with
  | [] => None
  | e :: r => if bool_decide (id e ∈ seen) then Some (id e)
              else findDuplicateId ({[id e]} ∪ seen) r
  end.

Definition fromEntries (es : list SensitivePath) : result SensitivePathRegistry :=
  match findDuplicateId ∅ es with
  | Some "" | None => Ok (mkRegistry es)
  | Some d => throw ("Duplicate sensitive path id: " +:+ d)
  end.

Definition all (r : SensitivePathRegistry) : list SensitivePath := entries r.
Definition forPlatform (r : SensitivePathRegistry) (p : Platform) : list SensitivePath :=
  bfilter (λ e, appliesOn e p) (entries r).
Definition matching (r : SensitivePathRegistry) (path : AbsolutePath) (ctx : PathContext) :
    list SensitivePath :=
  bfilter (λ e, matches e path ctx) (entries r).
Definition byId (r : SensitivePathRegistry) (i : string) : option SensitivePath :=
  find (λ e, (id e =? i)%string) (entries r).
Definition dangerousFor (r : SensitivePathRegistry) (p : Platform) (a : Access) : list SensitivePath :=
  bfilter (λ e, dangerous e a) (forPlatform r p).

Lemma elem_of_dangerousFor r p a e :
  e ∈ dangerousFor r p a ↔ e ∈ entries r ∧ appliesOn e p = true ∧ dangerous e a = true.
Proof. unfold dangerousFor, forPlatform. rewrite !elem_of_bfilter. tauto. Qed.

Lemma elem_of_matching r path ctx e :
  e ∈ matching r path ctx ↔ e ∈ entries r ∧ matches e path ctx = true.
Proof. unfold matching. by rewrite elem_of_bfilter. Qed.

Lemma matches_platform e path ctx : matches e path ctx = true → appliesOn e (platform ctx) = true.
Proof. unfold matches. by destruct (appliesOn e (platform ctx)). Qed.

Lemma findDuplicateId_none seen es :
  findDuplicateId seen es = None ↔ NoDup (map id es) ∧ ∀ e, e ∈ es → id e ∉ seen.
Proof.
  revert seen. induction es as [|e es IH]; intros seen; simpl.
  - split; [|done]. intros _. split; [constructor|set_solver].
  - rewrite NoDup_cons. case_bool_decide as Hin.
    + split; [done|]. intros [_ H]. destruct (H e); [by left|done].
    + rewrite IH. split.
      * intros [Hnd H]. split; [split; [|done]|].
        -- intros (e' & E & He')%list_elem_of_fmap. apply (H e') in He'. set_solver.
        -- intros e' [->|He']%elem_of_cons; [done|]. apply H in He'. set_solver.
      * intros [[Hne Hnd] H]. split; [done|]. intros e' He'.
        assert (id e' ∉ seen) by (apply H; by right).
        assert (id e' ≠ id e); [|set_solver].
        intros E. destruct Hne. rewrite <-E. by apply list_elem_of_fmap_2.
Qed.
End SensitivePathRegistry.
Abbreviation SensitivePathRegistry := SensitivePathRegistry.SensitivePathRegistry.
