(* ===== verification/Registry.v ===== *)
(** * The rows of the registry (src/domain/paths/registry.ts)

    The shipped table, row for row. Each row is a call of its category's constructor,
    which can throw; that none does, and that the identifiers are distinct, is proved
    below. The table is cut into runs of rows only to keep definitions readable. *)

From S2P Require Import Prelude JsString NodePath Paths Patterns Values SensitivePaths.
Import SensitivePath.

Definition ALL : list Platform := Platform.PLATFORMS.
Definition POSIX : list Platform := Platform.POSIX_PLATFORMS.
Definition MAC : list Platform := [Platform.Darwin].
Definition LINUX : list Platform := [Platform.Linux].
Definition WINDOWS : list Platform := [Platform.Win32].

Definition rows_1 : list (result SensitivePath) :=
  [credential (mkIdentity "ssh-keys" "~/.ssh/**" ALL
     "Private keys grant access to every host and repository the user can reach." None);
   credential (mkIdentity "aws-credentials" "~/.aws/**" ALL
     "Long-lived cloud access keys; a leak is an account takeover." None);
   credential (mkIdentity "gcloud-credentials" "~/.config/gcloud/**" POSIX
     "Google Cloud refresh tokens and application default credentials." None);
   credential (mkIdentity "kube-config" "~/.kube/**" ALL
     "Cluster certificates and tokens, usually with administrative rights." None);
   credential (mkIdentity "docker-config" "~/.docker/**" ALL
     "Registry authentication tokens, and a daemon socket path on some setups." None);
   credential (mkIdentity "netrc" "~/.netrc" POSIX
     "Plaintext machine credentials used by curl, git and ftp clients." None);
   credential (mkIdentity "npmrc" "~/.npmrc" ALL
     "Publish tokens; also a registry override that redirects every install." None);
   credential (mkIdentity "pypirc" "~/.pypirc" ALL
     "PyPI upload tokens, enough to publish a package under the user name." None);
   credential (mkIdentity "gh-hosts" "~/.config/gh/**" POSIX
     "GitHub CLI OAuth tokens with repository and workflow scope." None);
   credential (mkIdentity "rclone-config" "~/.config/rclone/**" POSIX
     "Credentials for every configured remote storage backend." None);
   credential (mkIdentity "macos-keychain" "~/Library/Keychains/**" MAC
     "The user's credential store; everything they ever saved lives here." None);
   credential (mkIdentity "macos-system-keychain" "/Library/Keychains/**" MAC
     "The machine-wide credential store: Wi-Fi and 802.1X secrets, and certificates whose private keys are guarded by a daemon that a stolen copy never has to ask." None);
   credential (mkIdentity "macos-ssh-host-keys" "/private/etc/ssh/**" MAC
     "Host private keys, present once Remote Login is enabled; they authenticate the machine itself." None);
   credential (mkIdentity "macos-root-home" "/var/root/**" MAC
     "The superuser's home: an agent running with elevation finds credentials and history there." None);
   credential (mkIdentity "macos-local-account-db" "/private/var/db/dslocal/**" MAC
     "The local account database; password hashes and account metadata for every user of the machine." None);
   credential (mkIdentity "macos-sudoers" "/private/etc/sudoers" MAC
     "Privilege escalation rules; read access reveals who may sudo and how to bypass." None);
   credential (mkIdentity "macos-sudoers-d" "/private/etc/sudoers.d/**" MAC
     "Drop-in privilege rules; the same sensitivity as the main sudoers file." None);
   credential (mkIdentity "gnupg" "~/.gnupg/**" POSIX
     "Signing and encryption private keys." None)].

Definition rows_2 : list (result SensitivePath) :=
  [credential (mkIdentity "env-file-outside-workspace" "**/.env" ALL
     "Another project’s environment file is the fastest route to its secrets." (Some true));
   credential (mkIdentity "env-variant-outside-workspace" "**/.env.*" ALL
     "Environment overlays of neighbouring projects hold the same secrets." (Some true));
   credential (mkIdentity "chrome-profile-macos" "~/Library/Application Support/Google/Chrome/**" MAC
     "Session cookies and saved passwords of every logged-in service." None);
   credential (mkIdentity "chromium-profile-linux" "~/.config/google-chrome/**" LINUX
     "Session cookies and saved passwords of every logged-in service." None);
   credential (mkIdentity "safari-profile" "~/Library/Safari/**" MAC
     "Browsing history and site data, including authenticated sessions." None);
   credential (mkIdentity "firefox-profile" "~/.mozilla/firefox/**" POSIX
     "logins.json and cookies.sqlite hold decryptable saved credentials." None);
   credential (mkIdentity "chrome-profile-windows" "~/appdata/local/google/chrome/user data/**" WINDOWS
     "Chrome cookies and saved sessions provide authenticated access to web services." None);
   credential (mkIdentity "edge-profile-windows" "~/appdata/local/microsoft/edge/user data/**" WINDOWS
     "Edge cookies and saved sessions provide authenticated access to web services." None);
   credential (mkIdentity "firefox-profile-windows" "~/appdata/roaming/mozilla/firefox/**" WINDOWS
     "Firefox profiles contain saved logins, cookies and authenticated sessions." None);
   persistence (mkIdentity "zsh-env" "~/.zshenv" POSIX
     "Read by every zsh invocation including non-interactive ones: the best foothold on macOS." None) 2 "block";
   persistence (mkIdentity "zsh-rc" "~/.zshrc" POSIX
     "Runs on every interactive shell; survives deletion of the repository." None) 2 "block";
   persistence (mkIdentity "bash-rc" "~/.bashrc" POSIX
     "Runs on every interactive bash shell." None) 2 "block";
   persistence (mkIdentity "bash-profile" "~/.bash_profile" POSIX
     "Runs on every bash login shell." None) 2 "block";
   persistence (mkIdentity "sh-profile" "~/.profile" POSIX
     "Runs on login for every POSIX shell." None) 2 "block";
   persistence (mkIdentity "fish-config" "~/.config/fish/**" POSIX
     "config.fish and conf.d run on every fish shell start." None) 2 "block";
   persistence (mkIdentity "git-config" "~/.gitconfig" ALL
     "core.hooksPath, credential.helper and shell aliases each execute code." None) 1 "observe"].

Definition rows_3 : list (result SensitivePath) :=
  [persistence (mkIdentity "git-config-xdg" "~/.config/git/**" POSIX
     "XDG location of the same git configuration." None) 1 "observe";
   persistence (mkIdentity "ssh-authorized-keys" "~/.ssh/authorized_keys" ALL
     "Appending a key grants permanent remote access to the machine." None) 2 "block";
   persistence (mkIdentity "ssh-client-config" "~/.ssh/config" ALL
     "ProxyCommand and LocalCommand execute on every outgoing connection." None) 2 "block";
   persistence (mkIdentity "launch-agents" "~/Library/LaunchAgents/**" MAC
     "A plist here runs at every login without any further user action." None) 2 "block";
   persistence (mkIdentity "system-launchd" "/Library/LaunchAgents/**" MAC
     "System-wide agents run for every user; their arguments can embed credentials." None) 2 "block";
   persistence (mkIdentity "system-launch-daemons" "/Library/LaunchDaemons/**" MAC
     "Root daemons are the strongest macOS persistence; their plists can embed secrets." None) 2 "block";
   persistence (mkIdentity "systemd-user-units" "~/.config/systemd/user/**" LINUX
     "A user unit starts at login and restarts itself on failure." None) 2 "block";
   persistence (mkIdentity "powershell-core-profile" "~/documents/powershell/**" WINDOWS
     "PowerShell profile scripts execute whenever a PowerShell session starts." None) 2 "block";
   persistence (mkIdentity "windows-powershell-profile" "~/documents/windowspowershell/**" WINDOWS
     "Windows PowerShell profile scripts execute whenever a legacy session starts." None) 2 "block";
   persistence (mkIdentity "windows-startup-folder" "~/appdata/roaming/microsoft/windows/start menu/programs/startup/**" WINDOWS
     "Programs placed in the per-user Startup folder execute at every login." None) 2 "block";
   persistence (mkIdentity "crontab-macos" "/private/var/at/tabs/**" MAC
     "Scheduled execution that outlives the session." None) 2 "block";
   persistence (mkIdentity "crontab-linux" "/var/spool/cron/**" LINUX
     "Scheduled execution that outlives the session." None) 2 "block";
   history (mkIdentity "zsh-history" "~/.zsh_history" POSIX
     "Command lines regularly contain tokens pasted as arguments." None);
   history (mkIdentity "bash-history" "~/.bash_history" POSIX
     "Command lines regularly contain tokens pasted as arguments." None);
   history (mkIdentity "psql-history" "~/.psql_history" POSIX
     "Database queries with embedded connection strings and data." None)].

Definition rows_4 : list (result SensitivePath) :=
  [history (mkIdentity "node-repl-history" "~/.node_repl_history" ALL
     "REPL sessions frequently contain pasted keys." None);
   persistence (mkIdentity "claude-settings" "~/.claude/settings*.json" ALL
     "SessionStart and PreToolUse hooks here run on the next agent start." None) 1 "observe";
   persistence (mkIdentity "claude-config" "~/.claude.json" ALL
     "Global agent configuration, including approved MCP servers." None) 1 "observe";
   persistence (mkIdentity "gemini-settings" "~/.gemini/settings.json" ALL
     "Global agent configuration, including tool and MCP permissions." None) 1 "observe";
   persistence (mkIdentity "cursor-mcp" "~/.cursor/mcp.json" ALL
     "MCP server definitions execute an arbitrary command at session start." None) 1 "observe";
   persistence (mkIdentity "agentkeeper-state" "~/.agentkeeper/**" ALL
     "Self-protection: an agent that can edit its own allowlist has none." None) 1 "observe";
   configuration (mkIdentity "xdg-tool-config" "~/.config/**" POSIX
     "Editor and tool settings: useful to the agent, cheap to grant, no secrets by itself." None) 1 1 "observe" "observe"].

Definition SENSITIVE_PATHS : result (list SensitivePath) :=
  rmapM (λ row, row) (rows_1 ++ rows_2 ++ rows_3 ++ rows_4).

(** [SensitivePathRegistry.default()] *)
Definition default : result SensitivePathRegistry :=
  let! es := SENSITIVE_PATHS in SensitivePathRegistry.fromEntries es.

(** The shipped registry as a value; [default_registry_ok] shows it is no default. *)
Definition default_registry : SensitivePathRegistry :=
  match default with Ok r => r | Err _ => SensitivePathRegistry.mkRegistry [] end.

Lemma default_registry_ok : default = Ok default_registry.
Proof. vm_compute. reflexivity. Qed.
