(* ===== verification/Sha256.v ===== *)
(** * SHA-256

    An executable instance of [Digest], FIPS 180-4 on the UTF-8 encoding of a string
    of code units below 256, used where a theorem about digests is run on concrete
    data. No theorem of the library depends on more than the class promises. *)

From S2P Require Import Prelude JsString NodePath Paths Values.

Module Sha256.
Local Open Scope Z_scope.

(** ** 32-bit words *)

Definition w32 (x : Z) : Z := Z.land x 0xffffffff.
Definition add32 (x y : Z) : Z := w32 (x + y).
Definition rotr (n x : Z) : Z := Z.lor (Z.shiftr x n) (w32 (Z.shiftl x (32 - n))).
Definition Ch (x y z : Z) : Z := Z.lxor (Z.land x y) (Z.land (Z.lxor x 0xffffffff) z).
Definition Maj (x y z : Z) : Z := Z.lxor (Z.lxor (Z.land x y) (Z.land x z)) (Z.land y z).
Definition Sigma0 (x : Z) : Z := Z.lxor (Z.lxor (rotr 2 x) (rotr 13 x)) (rotr 22 x).
Definition Sigma1 (x : Z) : Z := Z.lxor (Z.lxor (rotr 6 x) (rotr 11 x)) (rotr 25 x).
Definition sigma0 (x : Z) : Z := Z.lxor (Z.lxor (rotr 7 x) (rotr 18 x)) (Z.shiftr x 3).
Definition sigma1 (x : Z) : Z := Z.lxor (Z.lxor (rotr 17 x) (rotr 19 x)) (Z.shiftr x 10).

(** The constants are the first 32 bits of the fractions of the cube roots of the first
    sixty-four primes, and of the square roots of the first eight. *)
Definition primes : list Z :=
  bfilter (λ n, every (λ d, negb (Z.of_nat n mod Z.of_nat d =? 0)) (seq 2 (n - 2))) (seq 2 310) ≫= λ n, [Z.of_nat n].

(** The greatest [r] below [lo + 2 ^ bits] whose cube is at most [n]. *)
Fixpoint cube_root (bits : nat) (lo n : Z) : Z :=
  match bits with
  | O => lo
  | S b => let mid := lo + 2 ^ Z.of_nat b in
           if mid ^ 3 <=? n then cube_root b mid n else cube_root b lo n
  end.

Definition K : list Z :=
  Eval vm_compute in (λ p, w32 (cube_root 36 0 (p * 2 ^ 96))) <$> primes.
Definition H0 : list Z :=
  Eval vm_compute in (λ p, w32 (Z.sqrt (p * 2 ^ 64))) <$> take 8 primes.

(** ** Message bytes *)

Fixpoint utf8 (s : string) : list Z :=
  match s with
  | "" => []
  | String c r =>
      let n := Z.of_nat (code c) in
      if n <? 128 then n :: utf8 r
      else (192 + Z.shiftr n 6) :: (128 + Z.land n 63) :: utf8 r
  end.

Definition length_bytes (bits : Z) : list Z :=
  (λ i, Z.land (Z.shiftr bits (8 * i)) 255) <$> [7; 6; 5; 4; 3; 2; 1; 0].
Definition pad (bytes : list Z) : list Z :=
  let n := Z.of_nat (length bytes) in
  bytes ++ [128] ++ replicate (Z.to_nat ((55 - n) mod 64)) 0 ++ length_bytes (8 * n).

Fixpoint words (bytes : list Z) : list Z :=
  match bytes with
  | a :: b :: c :: d :: r => (a * 2 ^ 24 + b * 2 ^ 16 + c * 2 ^ 8 + d) :: words r
  | _ => []
  end.

(** ** Compression *)

(** The schedule, newest word first. *)
Fixpoint extend (n : nat) (w : list Z) : list Z :=
  match n with
  | O => w
  | S m =>
      let at_ i := nth i w 0 in
      extend m (w32 (sigma1 (at_ 1%nat) + at_ 6%nat + sigma0 (at_ 14%nat) + at_ 15%nat) :: w)
  end.
Definition schedule (block : list Z) : list Z := rev (extend 48 (rev block)).

Definition round (st : list Z) (kw : Z * Z) : list Z :=
  match st with
  | [a; b; c; d; e; f; g; h] =>
      let t1 := h + Sigma1 e + Ch e f g + kw.1 + kw.2 in
      let t2 := Sigma0 a + Maj a b c in
      [w32 (t1 + t2); a; b; c; w32 (d + t1); e; f; g]
  | _ => st
  end.
Definition compress (st block : list Z) : list Z :=
  zip_with add32 st (fold_left round (zip K (schedule block)) st).

Fixpoint blocks (fuel : nat) (ws st : list Z) : list Z :=
  match fuel with
  | O => st
  | S f => match ws with
           | [] => st
           | _ => blocks f (drop 16 ws) (compress st (take 16 ws))
           end
  end.

Definition hex_nibble (w i : Z) : ascii :=
  hex_digit (Z.to_nat (Z.land (Z.shiftr w (4 * i)) 15)).
Definition hex_word (w : Z) : string :=
  foldr (λ i s, String (hex_nibble w i) s) "" [7; 6; 5; 4; 3; 2; 1; 0].
Definition hex8 (st : list Z) : string :=
  foldr (λ i s, hex_word (nth i st 0) +:+ s) "" (seq 0 8).

Definition sha256 (s : string) : string :=
  let ws := words (pad (utf8 s)) in hex8 (blocks (length ws) ws H0).

Lemma hex_digit_hex n : (n < 16)%nat → is_hex_lower (hex_digit n) = true.
Proof. intros Hn. do 16 (destruct n as [|n]; [reflexivity|]). lia. Qed.

Lemma hex_nibble_hex w i : is_hex_lower (hex_nibble w i) = true.
Proof.
  apply hex_digit_hex. change 15 with (Z.ones 4). rewrite Z.land_ones by lia.
  pose proof (Z.mod_pos_bound (Z.shiftr w (4 * i)) (2 ^ 4)). lia.
Qed.

Lemma hex_word_format w : hex_string 8 (hex_word w) = true.
Proof. unfold hex_string, hex_word. cbn [foldr sforall slen String.length]. by rewrite !hex_nibble_hex. Qed.

Lemma hex_string_app n m s t :
  hex_string n s = true → hex_string m t = true → hex_string (n + m) (s +:+ t) = true.
Proof.
  unfold hex_string. intros H1 H2. bool_prop. rewrite slen_app, sforall_app.
  apply andb_true_iff. split; [apply Nat.eqb_eq; lia|]. by apply andb_true_iff.
Qed.

Lemma hex_words_format st (l : list nat) :
  hex_string (8 * length l) (foldr (λ i s, hex_word (nth i st 0) +:+ s) "" l) = true.
Proof.
  induction l as [|i l IH]; [done|]. cbn [foldr length].
  replace (8 * S (length l))%nat with (8 + 8 * length l)%nat by lia.
  apply hex_string_app; [apply hex_word_format|done].
Qed.

Lemma sha256_format s : hex_string 64 (sha256 s) = true.
Proof. apply (hex_words_format _ (seq 0 8)). Qed.
End Sha256.

#[global] Instance sha256_digest : Digest :=
  {| sha256_hex := Sha256.sha256; sha256_hex_format := Sha256.sha256_format |}.

(** The published test vectors. *)
Example sha256_empty :
  sha256_hex "" = "e3b0c44298fc1c149afbf4c8996fb92427ae41e4649b934ca495991b7852b855".
Proof. vm_compute. reflexivity. Qed.
Example sha256_abc :
  sha256_hex "abc" = "ba7816bf8f01cfea414140de5dae2223b00361a396177a9cb410ff61f20015ad".
Proof. vm_compute. reflexivity. Qed.
Example sha256_two_blocks :
  sha256_hex "abcdbcdecdefdefgefghfghighijhijkijkljklmklmnlmnomnopnopq"
  = "248d6a61d20638b8e5c026930c3e6039a33ce45964ff2167f6ecedd419db06c1".
Proof. vm_compute. reflexivity. Qed.
