(* ===== verification/Tiers.v ===== *)
(** * Access tiers of resources (src/domain/policy/AccessTierResolver.ts)

    [AccessDecision]: one match set, from which tier, disposition and explanation
    derive. [AccessTierResolver]: the decisions over a registry, with the cache of
    tier-2 anchors as its mutable state. *)

From S2P Require Import Prelude JsString NodePath Paths Patterns Values Resources SensitivePaths.
From S2P Require Import Registry.

(** ** AccessDecision *)

Module AccessDecision.
Record AccessDecision := mkDecision { matches_ : list SensitivePath; access_ : Access }.

Definition tier (d : AccessDecision) : AccessTier :=
  let dangerous :=
    some (λ e, (AccessTier.level (SensitivePath.tierFor e (access_ d)) =? 2)%Z) (matches_ d) in
  if dangerous then AccessTier.DANGEROUS else AccessTier.EVERYDAY.

Definition disposition (d : AccessDecision) : Disposition :=
  Disposition.strictest (map (λ e, SensitivePath.dispositionFor e (access_ d)) (matches_ d)).

Definition explanation (d : AccessDecision) : option SensitivePath :=
  match find (λ e, (AccessTier.level (SensitivePath.tierFor e (access_ d)) =? 2)%Z) (matches_ d) with
  | Some e => Some e
  | None => head (matches_ d)
  end.
End AccessDecision.
Abbreviation AccessDecision := AccessDecision.AccessDecision.

(** ** AccessTierResolver *)

Module AccessTierResolver.
Import AccessDecision.

(** The private map from (platform, access, home) keys to anchors. *)
Abbreviation AnchorCache := (gmap string (list AbsolutePath)).

Section resolver.
Context (registry : SensitivePathRegistry).

Definition decide_ (path : AbsolutePath) (access : Access) (context : PathContext) : AccessDecision :=
  mkDecision (SensitivePathRegistry.matching registry path context) access.

Definition tierOf (path : AbsolutePath) (access : Access) (context : PathContext) : AccessTier :=
  tier (decide_ path access context).
Definition dispositionOf (path : AbsolutePath) (access : Access) (context : PathContext) : Disposition :=
  disposition (decide_ path access context).
Definition explain (path : AbsolutePath) (access : Access) (context : PathContext) : option SensitivePath :=
  explanation (decide_ path access context).

Definition anchor_key (access : Access) (context : PathContext) : string :=
  Platform.name (platform context) +:+ ":" +:+ access_name access +:+ ":" +:+
  AbsolutePath.value (home context).

(** [flatMap] over the literal prefixes. *)
Definition computeAnchors (access : Access) (context : PathContext) : result (list AbsolutePath) :=
  rmap (omap (λ a, a))
    (rmapM (λ e, SensitivePath.literalPrefix e (home context))
       (SensitivePathRegistry.dangerousFor registry (platform context) access)).

Definition dangerousAnchors (access : Access) (context : PathContext) :
    M AnchorCache (list AbsolutePath) :=
  let key := anchor_key access context in
  let* cache := mget in
  match cache !! key with
  | Some cached => mok cached
  | None =>
      let* anchors := mlift (computeAnchors access context) in
      let* _ := mput (<[key := anchors]> cache) in
      mok anchors
  end.

Definition canGrantAtRuntime (ref : ResourceRef) (access : Access) (context : PathContext) :
    M AnchorCache bool :=
  if negb (AccessTier.canBeGrantedAtRuntime (tierOf (ResourceRef.path ref) access context))
  then mok false
  else if ResourceRef.is_file ref then mok true
  else
    let* anchors := dangerousAnchors access context in
    mok (negb (some (AbsolutePath.contains (ResourceRef.path ref)) anchors)).

(** ** The answer without the cache *)

(** What [canGrantAtRuntime] means: the reference is everyday for the access, and
    unless it is a single file no tier-2 anchor of the registry is under it. *)
Definition grantable (ref : ResourceRef) (access : Access) (context : PathContext) : Prop :=
  tierOf (ResourceRef.path ref) access context = AccessTier.EVERYDAY
  ∧ (ResourceRef.scope ref = ResourceRef.file_scope ∨
     ∀ e a, e ∈ SensitivePathRegistry.entries registry →
       SensitivePath.appliesOn e (platform context) = true →
       SensitivePath.dangerous e access = true →
       SensitivePath.literalPrefix e (home context) = Ok (Some a) →
       AbsolutePath.contains (ResourceRef.path ref) a = false).

(** A home directory as [AbsolutePath.of] makes it: its text determines it. *)
Definition real_home (context : PathContext) : Prop :=
  AbsolutePath.of_ (AbsolutePath.value (home context)) = Ok (home context).

(** Every cached answer is the one the registry gives. *)
Definition cache_ok (cache : AnchorCache) : Prop :=
  ∀ key anchors, cache !! key = Some anchors →
    ∃ access context, real_home context ∧ key = anchor_key access context
    ∧ computeAnchors access context = Ok anchors.

Lemma cache_ok_empty : cache_ok ∅.
Proof. intros key anchors H. by rewrite lookup_empty in H. Qed.

Lemma tierOf_dangerous path access context :
  tierOf path access context = AccessTier.DANGEROUS ↔
  ∃ e, e ∈ SensitivePathRegistry.entries registry
     ∧ SensitivePath.matches e path context = true ∧ SensitivePath.dangerous e access = true.
Proof.
  unfold tierOf, tier, decide_. cbn [matches_ access_].
  destruct (some _ _) eqn:E.
  - split; [|done]. intros _. apply some_true in E as (e & He & Hl).
    apply SensitivePathRegistry.elem_of_matching in He as [He Hm]. by exists e.
  - split; [done|]. intros (e & He & Hm & Hd).
    rewrite some_false in E. unfold SensitivePath.dangerous in Hd. rewrite E in Hd; [done|].
    by apply SensitivePathRegistry.elem_of_matching.
Qed.

(** The key separates platforms, accesses and home directories. *)
Lemma anchor_key_inj a1 c1 a2 c2 : anchor_key a1 c1 = anchor_key a2 c2 →
  platform c1 = platform c2 ∧ a1 = a2 ∧ AbsolutePath.value (home c1) = AbsolutePath.value (home c2).
Proof.
  unfold anchor_key. intros E.
  by destruct (platform c1), (platform c2), a1, a2; simplify_eq/=.
Qed.

Lemma computeAnchors_key a1 c1 a2 c2 : real_home c1 → real_home c2 →
  anchor_key a1 c1 = anchor_key a2 c2 → computeAnchors a1 c1 = computeAnchors a2 c2.
Proof.
  intros H1 H2 (Hp & -> & Hv)%anchor_key_inj. unfold real_home in *.
  rewrite Hv in H1. assert (home c1 = home c2) as Hh by congruence.
  unfold computeAnchors. by rewrite Hp, Hh.
Qed.

(** Asking the cache is asking the registry. *)
Lemma dangerousAnchors_run access context cache : cache_ok cache → real_home context →
  (dangerousAnchors access context cache).2 = computeAnchors access context
  ∧ cache_ok (dangerousAnchors access context cache).1.
Proof.
  intros Hc Hh. unfold dangerousAnchors, mseq, mget. simpl.
  destruct (cache !! anchor_key access context) as [cached|] eqn:E; simpl.
  - split; [|done]. destruct (Hc _ _ E) as (a & c & Hc' & Hk & <-).
    by apply computeAnchors_key.
  - destruct (computeAnchors access context) as [anchors|e] eqn:Ec; simpl; [|done].
    split; [done|]. intros key l. rewrite lookup_insert_Some. intros [[<- <-]|[_ Hl]]; [|by apply Hc].
    by exists access, context.
Qed.

Lemma computeAnchors_elem access context anchors a : computeAnchors access context = Ok anchors →
  a ∈ anchors ↔
  ∃ e, e ∈ SensitivePathRegistry.entries registry
     ∧ SensitivePath.appliesOn e (platform context) = true
     ∧ SensitivePath.dangerous e access = true
     ∧ SensitivePath.literalPrefix e (home context) = Ok (Some a).
Proof.
  unfold computeAnchors. intros H. res_inv.
  apply rmapM_Ok in E. rewrite list_elem_of_omap. split.
  - intros (x & Hx & ->). eapply list_elem_of_lookup_1 in Hx as [i Hi].
    destruct (Forall2_lookup_r _ _ _ _ _ E Hi) as (e & He & Hp).
    apply list_elem_of_lookup_2, SensitivePathRegistry.elem_of_dangerousFor in He.
    exists e. tauto.
  - intros (e & He & Ha & Hd & Hp). exists (Some a). split; [|done].
    assert (e ∈ SensitivePathRegistry.dangerousFor registry (platform context) access) as He'
      by by apply SensitivePathRegistry.elem_of_dangerousFor.
    apply list_elem_of_lookup_1 in He' as [i Hi].
    destruct (Forall2_lookup_l _ _ _ _ _ E Hi) as (x & Hx & Hp').
    assert (x = Some a) as -> by congruence. by eapply list_elem_of_lookup_2.
Qed.

(** [canGrantAtRuntime] keeps the cache honest and answers [grantable]. *)
Lemma canGrant_yields ref access context : real_home context →
  yields cache_ok (canGrantAtRuntime ref access context)
    (λ b, b = true ↔ grantable ref access context).
Proof.
  intros Hh. unfold canGrantAtRuntime, grantable.
  destruct (tierOf (ResourceRef.path ref) access context) eqn:Et; simpl;
    [|by apply yields_ok; split; [|intros [? _]]].
  unfold ResourceRef.is_file. case_bool_decide as Hf; [by apply yields_ok; split; auto|].
  apply (yields_seq _ _ _ (λ anchors, computeAnchors access context = Ok anchors)).
  - intros s Hs. destruct (dangerousAnchors_run access context s Hs Hh) as [E1 E2].
    split; [done|]. intros l. by rewrite E1.
  - intros anchors Ha. apply yields_ok. rewrite negb_true_iff, some_false. split.
    + intros H. split; [done|]. right. intros e a He Hp Hd Hl. apply H.
      apply (computeAnchors_elem _ _ _ _ Ha). by exists e.
    + intros [_ [?|H]]; [done|]. intros a Hx.
      apply (computeAnchors_elem _ _ _ _ Ha) in Hx as (e & He & Hp & Hd & Hl). by eapply H.
Qed.
End resolver.
End AccessTierResolver.

(** The anchor cache is invisible: whatever honest answers it holds, a question is
    answered exactly as a resolver that never cached anything answers it, errors
    included, and it stays honest. *)
Theorem canGrant_cache_transparent registry ref access context cache :
  AccessTierResolver.cache_ok registry cache →
  AccessTierResolver.real_home context →
  let run := AccessTierResolver.canGrantAtRuntime registry ref access context in
  (run cache).2 = (run ∅).2 ∧ AccessTierResolver.cache_ok registry (run cache).1.
Proof.
  intros Hc Hh. cbv zeta. split.
  - destruct (AccessTierResolver.dangerousAnchors_run registry access context cache Hc Hh) as [E1 _].
    destruct (AccessTierResolver.dangerousAnchors_run registry access context ∅
                (AccessTierResolver.cache_ok_empty registry) Hh) as [E2 _].
    unfold AccessTierResolver.canGrantAtRuntime. case_if; [done|]. case_if; [done|].
    unfold mseq.
    destruct (AccessTierResolver.dangerousAnchors registry access context cache) as [s1 [a1|e1]] eqn:R1;
    destruct (AccessTierResolver.dangerousAnchors registry access context ∅) as [s2 [a2|e2]] eqn:R2;
    cbn in *; congruence.
  - by apply AccessTierResolver.canGrant_yields.
Qed.

Lemma canGrant_cache_transparent_witness :
  let context := mkContext (AbsolutePath.posix_path ["home"; "u"])
                   (AbsolutePath.posix_path ["home"; "u"; "w"]) Platform.Linux in
  let run := AccessTierResolver.canGrantAtRuntime default_registry
               (ResourceRef.subtree (AbsolutePath.posix_path ["home"])) read context in
  (run (run ∅).1).2 = (run ∅).2.
Proof.
  intros context run.
  apply (canGrant_cache_transparent default_registry
           (ResourceRef.subtree (AbsolutePath.posix_path ["home"])) read context (run ∅).1);
    [|reflexivity].
  apply AccessTierResolver.canGrant_yields; [reflexivity|apply AccessTierResolver.cache_ok_empty].
Defined.
