(* ===== verification/Entities.v ===== *)
(** * Entities (src/domain/entities)

    [Finding], [Grant], [ScanReport] and [BaselineChange]: the values rules produce
    and use cases store. *)

From S2P Require Import Prelude JsString JsNumber Json NodePath Paths Values Resources SensitivePaths.

(** ** Findings (Finding.ts) *)

Module Finding.
Record Finding := mkFinding {
  ruleId : RuleId;
  severity : Severity;
  disposition : Disposition;
  title : string;
  detail : string;
  remediation : string;
  subject : string;
  contentHash : option ContentHash;
  location : option SourceLocation
}.
#[global] Instance Finding_eq_dec : EqDecision Finding.
Proof. solve_decision. Defined.

Definition decisionKey (f : Finding) : string :=
  match contentHash f with
  | None => RuleId.value (ruleId f) +:+ "@" +:+ subject f
  | Some h => ContentHash.toString h
  end.

Definition withDisposition (f : Finding) (d : Disposition) : Finding :=
  mkFinding (ruleId f) (severity f) d (title f) (detail f) (remediation f) (subject f)
    (contentHash f) (location f).

(** The serialised form, field by field; [None] is [null]. *)
Record FindingJSON := mkFindingJSON {
  json_ruleId : string;
  json_severity : string;
  json_disposition : string;
  json_title : string;
  json_subject : string;
  json_decisionKey : string;
  json_contentHash : option string;
  json_location : option string
}.
Definition toJSON (f : Finding) : FindingJSON :=
  mkFindingJSON (RuleId.value (ruleId f)) (Severity.name (severity f))
    (Disposition.name (disposition f)) (title f) (subject f) (decisionKey f)
    (ContentHash.toString <$> contentHash f) (SourceLocation.toString <$> location f).
End Finding.
Abbreviation Finding := Finding.Finding.

(** ** Dates

    A [Date] is its time value in milliseconds, [None] for an invalid one. Parsing a
    date text is the engine's; the sources only rely on it reading back what
    [toISOString] wrote. *)
Class JsDate := {
  Date_parse : string → option Z;
  toISOString : Z → string;
  Date_parse_toISOString : ∀ t, Date_parse (toISOString t) = Some t
}.

(** [new Date(v)] of a parsed value or [undefined]: a number is clipped to the range of
    dates and truncated, anything but a string is first made one. *)
Definition MAX_TIME : Z := 8640000000000000.
Definition new_Date `{JsDate} (v : option Json) : result (option Z) :=
  match v with
  | None => Ok None
  | Some JNull => Ok (Some 0%Z)
  | Some (JBool b) => Ok (Some (if b then 1 else 0)%Z)
  | Some (JNum (Int z)) => Ok (if (Z.abs z <=? MAX_TIME)%Z then Some z else None)
  | Some (JNum (Frac m k)) => Ok (if (Z.abs m <=? MAX_TIME * 10 ^ Z.of_nat k)%Z then Some (Z.quot m (10 ^ Z.of_nat k)) else None)
  | Some (JNum (NotFinite _)) => Ok None
  | Some (JString s) => Ok (Date_parse s)
  | Some v => let! s := JSON.to_string v in Ok (Date_parse s)
  end.
(** [date.toISOString()] *)
Definition iso `{JsDate} (d : option Z) : result string :=
  match d with Some t => Ok (toISOString t) | None => throw "Invalid time value" end.

(** *** Dates written as strokes, for examples *)

Module StrokeDate.
(** The sign and as many strokes as milliseconds. *)
Definition strokes (n : nat) : string := String.string_of_list_ascii (replicate n "1"%char).
Definition to_text (t : Z) : string := (if (t <? 0)%Z then "-" else "+") +:+ strokes (Z.abs_nat t).
Definition of_text (s : string) : option Z :=
  match s with
  | String c r => Some (if Ascii.eqb c "-"%char then (- Z.of_nat (slen r))%Z else Z.of_nat (slen r))
  | EmptyString => None
  end.
Lemma strokes_length n : slen (strokes n) = n.
Proof. induction n as [|n IH]; [done|]. unfold strokes in *. cbn. by rewrite IH. Qed.
#[global] Instance date : JsDate.
Proof.
  refine {| Date_parse := of_text; toISOString := to_text |}. intros t. unfold to_text.
  destruct (Z.ltb_spec t 0); cbn; rewrite strokes_length; f_equal; lia.
Defined.
End StrokeDate.

(** ** Grants (Grant.ts) *)

Module Grant.
Inductive GrantOrigin := runtime | manual.
#[global] Instance GrantOrigin_eq_dec : EqDecision GrantOrigin.
Proof. solve_decision. Defined.

Definition ACCESSES : list string := ["read"; "write"].
Definition ORIGINS : list string := ["runtime"; "manual"].
Definition origin_name (o : GrantOrigin) : string :=
  match o with runtime => "runtime" | manual => "manual" end.

Record GrantProps := mkProps {
  resource_ : ResourceRef;
  access_ : Access;
  scope_ : GrantScope;
  grantedAt_ : option Z;
  reason_ : string;
  origin_ : GrantOrigin
}.
#[global] Instance GrantProps_eq_dec : EqDecision GrantProps.
Proof. solve_decision. Defined.

Record Grant := mkGrant { id : string; props : GrantProps }.
#[global] Instance Grant_eq_dec : EqDecision Grant.
Proof. solve_decision. Defined.

Record GrantJSON := mkGrantJSON {
  j_resource : string;
  j_access : string;
  j_scope : string;
  j_grantedAt : option string;
  j_reason : option string;
  j_origin : option string
}.

Definition resource (g : Grant) : ResourceRef := resource_ (props g).
Definition access (g : Grant) : Access := access_ (props g).
Definition scope (g : Grant) : GrantScope := scope_ (props g).
Definition grantedAt (g : Grant) : option Z := grantedAt_ (props g).
Definition reason (g : Grant) : string := reason_ (props g).
Definition origin (g : Grant) : GrantOrigin := origin_ (props g).

Definition appliesTo (g : Grant) (workspace : WorkspaceId) : bool :=
  GrantScope.appliesTo (scope g) workspace.
Definition covers (g : Grant) (a : Access) (workspace : WorkspaceId) : bool :=
  bool_decide (access g = a) && appliesTo g workspace.

Section digest.
Context `{Digest}.

(** The constructor: the identity is a digest of resource, access and scope. *)
Definition construct (p : GrantProps) : Grant :=
  mkGrant
    (stake 12 (sha256_hex (ResourceRef.toString (resource_ p) +:+ "|" +:+ access_name (access_ p)
                 +:+ "|" +:+ GrantScope.toString (scope_ p))))
    p.

Definition create (p : GrantProps) : result Grant :=
  if slen (trim (reason_ p)) =? 0
  then throw "A grant needs a reason: it is what makes the allowlist auditable"
  else Ok (construct (mkProps (resource_ p) (access_ p) (scope_ p) (grantedAt_ p)
                        (trim (reason_ p)) (origin_ p))).

Definition parse_access (raw : string) : Access := if (raw =? "read")%string then read else write.
Definition parse_origin (raw : string) : GrantOrigin :=
  if (raw =? "runtime")%string then runtime else manual.

Context `{JsDate}.

Definition fromJSON (raw : GrantJSON) (home : AbsolutePath) : result Grant :=
  if negb (str_includes ACCESSES (j_access raw))
  then throw ("Unknown grant access: " +:+ JSON_stringify (j_access raw))
  else
    let o := match j_origin raw with Some o => o | None => "manual" end in
    if negb (str_includes ORIGINS o)
    then throw ("Unknown grant origin: " +:+ JSON_stringify o)
    else
      let! r := ResourceRef.parse (j_resource raw) home in
      let! sc := GrantScope.parse (j_scope raw) in
      create (mkProps r (parse_access (j_access raw)) sc
                (match j_grantedAt raw with None => Some 0%Z | Some d => Date_parse d end)
                (match j_reason raw with Some x => x | None => "hand-written entry" end)
                (parse_origin o)).

(** [toISOString] of an invalid date throws. *)
Definition toJSON (g : Grant) (home : AbsolutePath) : result GrantJSON :=
  match grantedAt g with
  | None => throw "Invalid time value"
  | Some t =>
      Ok (mkGrantJSON (ResourceRef.toResourceString (resource g) home) (access_name (access g))
            (GrantScope.toString (scope g)) (Some (toISOString t)) (Some (reason g))
            (Some (origin_name (origin g))))
  end.
End digest.

Lemma create_ok `{Digest} p g : create p = Ok g →
  trim (reason_ p) ≠ "" ∧ resource g = resource_ p ∧ access g = access_ p ∧ scope g = scope_ p
  ∧ grantedAt g = grantedAt_ p ∧ reason g = trim (reason_ p) ∧ origin g = origin_ p.
Proof.
  unfold create. destruct (slen (trim (reason_ p)) =? 0) eqn:E; [done|]. intros [= <-].
  split; [|done]. intros E'. by rewrite E' in E.
Qed.

(** An entry without an origin field is a manual grant; an unknown one is refused. *)
Lemma fromJSON_origin `{Digest} `{JsDate} raw home g : fromJSON raw home = Ok g →
  origin g = manual ∧ (j_origin raw = None ∨ j_origin raw = Some "manual")
  ∨ origin g = runtime ∧ j_origin raw = Some "runtime".
Proof.
  unfold fromJSON. destruct (negb (str_includes ACCESSES _)); [done|].
  destruct (negb (str_includes ORIGINS _)) eqn:E; [done|]. intros H'. res_inv.
  apply create_ok in H' as (_ & _ & _ & _ & _ & _ & ->). cbn [origin_].
  apply negb_false_iff, str_includes_true in E. unfold parse_origin.
  destruct (j_origin raw) as [o|]; [|by left; auto].
  unfold ORIGINS in E. rewrite !elem_of_cons in E. destruct E as [->|[->|E]]; [by right|by left; auto|].
  by apply elem_of_nil in E.
Qed.
End Grant.
Abbreviation Grant := Grant.Grant.

(** ** Scan reports (ScanReport.ts) *)

Module ScanReport.
Import Finding.

Record ScanReport := mkReport { findings : list Finding }.

(** [localeCompare] orders rule identifiers, all of the form [AG-Xddd], as their code
    units do. *)
Definition localeLeb (a b : string) : bool := String.leb a b.

(** The comparator of [ScanReport.of], as "not after". *)
Definition compare (a b : Finding) : bool :=
  if negb (Severity.rank (severity a) =? Severity.rank (severity b))
  then Severity.rank (severity b) <? Severity.rank (severity a)
  else if negb (Disposition.strictness (disposition a) =? Disposition.strictness (disposition b))%Z
  then (Disposition.strictness (disposition b) <? Disposition.strictness (disposition a))%Z
  else localeLeb (RuleId.value (ruleId a)) (RuleId.value (ruleId b)).

Definition of_ (fs : list Finding) : ScanReport := mkReport (sort_by compare fs).
Definition empty : ScanReport := mkReport [].
Definition isClean (r : ScanReport) : bool := (length (findings r) =? 0).
Definition worstSeverity (r : ScanReport) : Severity :=
  fold_left (λ worst f, if Severity.isAtLeast (severity f) worst then severity f else worst)
    (findings r) Severity.LOW.
Definition blocking (r : ScanReport) : list Finding :=
  bfilter (λ f, Disposition.stops (disposition f)) (findings r).
Definition interrupting (r : ScanReport) : list Finding :=
  bfilter (λ f, Disposition.interrupts (disposition f)) (findings r).
Definition overallDisposition (r : ScanReport) : Disposition :=
  Disposition.strictest (map disposition (findings r)).
Definition concat (r other : ScanReport) : ScanReport := of_ (findings r ++ findings other).

Lemma compare_total a b : compare a b = true ∨ compare b a = true.
Proof.
  unfold compare. rewrite (Nat.eqb_sym (Severity.rank (severity b))).
  rewrite (Z.eqb_sym (Disposition.strictness (disposition b))).
  destruct (Severity.rank (severity a) =? _) eqn:E1; simpl.
  - destruct (Disposition.strictness (disposition a) =? _)%Z eqn:E2; simpl.
    + apply String.leb_total.
    + bool_prop. rewrite !Z.ltb_lt. lia.
  - bool_prop. rewrite !Nat.ltb_lt. lia.
Qed.

(** The order the comparator stands for. *)
Definition key (f : Finding) : nat * Z * string :=
  (Severity.rank (severity f), Disposition.strictness (disposition f), RuleId.value (ruleId f)).

Lemma compare_spec a b : compare a b = true ↔
  Severity.rank (severity b) < Severity.rank (severity a)
  ∨ Severity.rank (severity b) = Severity.rank (severity a)
    ∧ ((Disposition.strictness (disposition b) < Disposition.strictness (disposition a))%Z
       ∨ Disposition.strictness (disposition b) = Disposition.strictness (disposition a)
         ∧ String.leb (RuleId.value (ruleId a)) (RuleId.value (ruleId b)) = true).
Proof.
  unfold compare, localeLeb. destruct (Severity.rank (severity a) =? _) eqn:E1; simpl.
  - destruct (Disposition.strictness (disposition a) =? _)%Z eqn:E2; simpl; bool_prop.
    + split; [auto|]. intros [?|[_ [?|[_ ?]]]]; [lia..|done].
    + rewrite Z.ltb_lt. split; [auto|]. intros [?|[_ [?|[? _]]]]; [lia|done|lia].
  - bool_prop. rewrite Nat.ltb_lt. split; [auto|]. intros [?|[? _]]; [done|lia].
Qed.

Lemma compare_trans a b c : compare a b = true → compare b c = true → compare a c = true.
Proof.
  rewrite !compare_spec. intros [?|[? [?|[? Hab]]]] [?|[? [?|[? Hbc]]]]; try lia;
    right; (split; [lia|]); try (left; lia).
  right. split; [lia|]. by eapply leb_trans.
Qed.

Lemma worst_fold fs w :
  let r := fold_left (λ worst f, if Severity.isAtLeast (severity f) worst then severity f else worst) fs w in
  Severity.rank w ≤ Severity.rank r ∧ (∀ f, f ∈ fs → Severity.rank (severity f) ≤ Severity.rank r)
  ∧ (r = w ∨ ∃ f, f ∈ fs ∧ r = severity f).
Proof.
  revert w. induction fs as [|f fs IH]; intros w; cbn [fold_left].
  - split; [done|]. split; [set_solver|by left].
  - destruct (IH (if Severity.isAtLeast (severity f) w then severity f else w)) as (H1 & H2 & H3).
    destruct (Severity.isAtLeast (severity f) w) eqn:E.
    + apply Severity.isAtLeast_spec in E. split; [lia|]. split.
      * intros x [->|Hx]%elem_of_cons; [done|by apply H2].
      * right. destruct H3 as [->|(x & ? & ->)]; [exists f|exists x]; set_solver.
    + apply not_true_iff_false in E. rewrite Severity.isAtLeast_spec in E. split; [lia|]. split.
      * intros x [->|Hx]%elem_of_cons; [lia|by apply H2].
      * destruct H3 as [->|(x & ? & ->)]; [by left|right; exists x; set_solver].
Qed.

(** A report holds exactly the findings it was given, worst first: it is a
    permutation of them, sorted by falling severity, then falling strictness, then
    rule identifier, findings equal on all three keeping the order they came in. *)
Theorem of_sorted fs :
  findings (of_ fs) ≡ₚ fs
  ∧ StronglySorted (λ a b, compare a b = true) (findings (of_ fs))
  ∧ ∀ k, bfilter (λ f, bool_decide (key f = k)) (findings (of_ fs))
       = bfilter (λ f, bool_decide (key f = k)) fs.
Proof.
  split; [apply sort_by_perm|]. split; [apply sort_by_sorted; [apply compare_total|apply compare_trans]|].
  intros k. apply sort_by_stable. intros a b Ha%bool_decide_eq_true Hb%bool_decide_eq_true.
  apply compare_spec. unfold key in *. right. simplify_eq.
  split; [congruence|]. right. split; [congruence|].
  assert (RuleId.value (ruleId a) = RuleId.value (ruleId b)) as -> by congruence.
  destruct (String.leb_total (RuleId.value (ruleId b)) (RuleId.value (ruleId b))); done.
Qed.

(** The summary of a report is read off its findings: the report blocks exactly
    when one of them does, its worst severity bounds every finding's and is one of
    theirs (low when there is none), and its blocking findings are the ones that stop. *)
Theorem report_summary fs :
  let r := of_ fs in
  (overallDisposition r = Disposition.BLOCK ↔ ∃ f, f ∈ fs ∧ disposition f = Disposition.BLOCK)
  ∧ (∀ f, f ∈ fs → Severity.isAtLeast (worstSeverity r) (severity f) = true)
  ∧ (worstSeverity r = Severity.LOW ∨ ∃ f, f ∈ fs ∧ worstSeverity r = severity f)
  ∧ (∀ f, f ∈ blocking r ↔ f ∈ fs ∧ disposition f = Disposition.BLOCK)
  ∧ (isClean r = true ↔ fs = []).
Proof.
  intros r. assert (findings r ≡ₚ fs) as Hp by apply sort_by_perm.
  assert (∀ f, f ∈ findings r ↔ f ∈ fs) as Hin by (intros f; by rewrite Hp).
  destruct (worst_fold (findings r) Severity.LOW) as (_ & H2 & H3).
  split; [|split; [|split; [|split]]].
  - unfold overallDisposition. rewrite Disposition.strictest_block, list_elem_of_fmap.
    split.
    + intros (f & E & Hf). exists f. split; [by apply Hin|done].
    + intros (f & Hf & E). exists f. split; [done|by apply Hin].
  - intros f Hf. apply Severity.isAtLeast_spec, H2. by apply Hin.
  - destruct H3 as [E|(f & Hf & E)]; [by left|]. right. exists f. split; [by apply Hin|exact E].
  - intros f. unfold blocking. rewrite elem_of_bfilter, Hin.
    split; intros [? E]; (split; [done|]); by destruct (disposition f).
  - unfold isClean. rewrite Hp, Nat.eqb_eq. by destruct fs.
Qed.

(** Filing the same findings in another order gives the same multiset of them. *)
#[global] Instance of_proper : Proper ((≡ₚ) ==> (λ r s, findings r ≡ₚ findings s)) of_.
Proof. intros l k H. cbn. by rewrite !sort_by_perm. Qed.

End ScanReport.
Abbreviation ScanReport := ScanReport.ScanReport.

(** ** Baseline changes (BaselineChange.ts) *)

Module BaselineChange.
Inductive ChangeKind := created | modified | deleted.
#[global] Instance ChangeKind_eq_dec : EqDecision ChangeKind.
Proof. solve_decision. Defined.
Definition kind_name (k : ChangeKind) : string :=
  match k with created => "created" | modified => "modified" | deleted => "deleted" end.

Record BaselineChange := mkChange {
  path : AbsolutePath;
  kind : ChangeKind;
  previousHash : option ContentHash;
  currentHash : option ContentHash;
  content : option string;
  context : PathContext;
  sandboxActive : bool
}.

Definition display (c : BaselineChange) : string := AbsolutePath.toDisplay (path c) (home (context c)).

(** The needle is the test it performs on the content. *)
Definition contains (c : BaselineChange) (needle : string → bool) : bool :=
  match content c with None => false | Some text => needle text end.
End BaselineChange.
Abbreviation BaselineChange := BaselineChange.BaselineChange.
