(* ===== verification/Policy.v ===== *)
(** * Sandbox policies (src/domain/policy)

    [DenyRule], [SandboxPolicy] with its digest, [StarterProfile] and [PolicyBuilder]:
    what an agent's process may touch, and how it is derived from the registry, the
    profile and the grants. *)

From S2P Require Import Prelude JsString NodePath Paths Patterns Values Resources JsNumber Network.
From S2P Require Import SensitivePaths Registry Sha256 Tiers Entities.

(** ** DenyRule (DenyRule.ts) *)

Module DenyRule.
Record DenyRule := mkDeny {
  sourceId : string;
  pattern : PathPattern;
  access : Access;
  reason : string;
  exceptWithin : option AbsolutePath
}.

Definition matches (d : DenyRule) (path home : AbsolutePath) : bool :=
  if match exceptWithin d with Some w => AbsolutePath.contains w path | None => false end
  then false
  else PathPattern.matches (pattern d) path home.

Definition toString (d : DenyRule) : string :=
  let except_ := match exceptWithin d with
                 | Some w => " except " +:+ AbsolutePath.value w
                 | None => ""
                 end in
  "deny " +:+ access_name (access d) +:+ " " +:+ PathPattern.raw (pattern d) +:+ except_
  +:+ " (" +:+ sourceId d +:+ ")".
End DenyRule.
Abbreviation DenyRule := DenyRule.DenyRule.

(** ** SandboxPolicy (SandboxPolicy.ts) *)

Module SandboxPolicy.
Record PolicyOverride := mkOverride { ref : ResourceRef; access : Access; reason : string }.

Inductive NetworkBrokerTransport :=
| tcp_loopback (port : Z)
| unix_socket_relay (socketPath relayScript : AbsolutePath) (port : Z).
Inductive NetworkEnforcement :=
| closed
| unconfigured
| brokered (transport : NetworkBrokerTransport).

Record SandboxPolicyProps := mkPolicyProps {
  workspace_ : AbsolutePath;
  reads_ : list ResourceRef;
  writes_ : list ResourceRef;
  denies_ : list DenyRule;
  overrides_ : list PolicyOverride;
  network_ : list NetworkRule;
  networkEnforcement_ : option NetworkEnforcement;
  runtimeRefs_ : option (list ResourceRef)
}.

Record SandboxPolicy := mkPolicy {
  workspace : AbsolutePath;
  reads : list ResourceRef;
  writes : list ResourceRef;
  denies : list DenyRule;
  overrides : list PolicyOverride;
  network : list NetworkRule;
  networkEnforcement : NetworkEnforcement;
  runtimeRefs : list ResourceRef;
  policyHash : string
}.

Definition describeOverride (o : PolicyOverride) : string :=
  access_name (access o) +:+ " " +:+ ResourceRef.toString (ref o) +:+ " (" +:+ reason o +:+ ")".

(** The text of one labelled section of the digest. *)
Definition section_ (label : string) (values : list string) : string :=
  label +:+ nl +:+ join nl (sort_strings values).

Definition digest_text (ws : AbsolutePath) (rs wr : list ResourceRef) (ds : list DenyRule)
    (os : list PolicyOverride) (ns : list NetworkRule) (rt : list ResourceRef) : string :=
  join (nl +:+ "--" +:+ nl)
    ["workspace" +:+ nl +:+ AbsolutePath.value ws;
     section_ "read" (map ResourceRef.toString rs);
     section_ "write" (map ResourceRef.toString wr);
     section_ "deny" (map DenyRule.toString ds);
     section_ "override" (map describeOverride os);
     section_ "network" (map NetworkRule.toString ns);
     section_ "runtime" (map ResourceRef.toString rt)].

Definition digest `{Digest} (ws : AbsolutePath) (rs wr : list ResourceRef) (ds : list DenyRule)
    (os : list PolicyOverride) (ns : list NetworkRule) (rt : list ResourceRef) : string :=
  "sha256:" +:+ sha256_hex (digest_text ws rs wr ds os ns rt).

(** The constructor. *)
Definition construct `{Digest} (p : SandboxPolicyProps) : SandboxPolicy :=
  let rt := match runtimeRefs_ p with Some l => l | None => [] end in
  let enforcement := match networkEnforcement_ p with
                     | Some e => e
                     | None => if length (network_ p) =? 0 then closed else unconfigured
                     end in
  mkPolicy (workspace_ p) (reads_ p) (writes_ p) (denies_ p) (overrides_ p) (network_ p) enforcement rt
    (digest (workspace_ p) (reads_ p) (writes_ p) (denies_ p) (overrides_ p) (network_ p) rt).

Definition allowsRef (p : SandboxPolicy) (a : Access) : list ResourceRef :=
  match a with read => reads p | write => writes p end.

Definition isDenied (p : SandboxPolicy) (a : Access) (path : AbsolutePath) (ctx : PathContext) : bool :=
  some (λ d, bool_decide (DenyRule.access d = a) && DenyRule.matches d path (home ctx)) (denies p).

Definition isOverridden (p : SandboxPolicy) (a : Access) (path : AbsolutePath) : bool :=
  some (λ o, bool_decide (access o = a) && ResourceRef.covers (ref o) path) (overrides p).

Definition allows (p : SandboxPolicy) (a : Access) (path : AbsolutePath) (ctx : PathContext) : bool :=
  if isOverridden p a path then true
  else if isDenied p a path ctx then false
  else some (λ r, ResourceRef.covers r path) (allowsRef p a).

Definition allowsNetwork (p : SandboxPolicy) : bool := 0 <? length (network p).

Definition withNetworkEnforcement `{Digest} (p : SandboxPolicy) (e : NetworkEnforcement) : SandboxPolicy :=
  construct (mkPolicyProps (workspace p) (reads p) (writes p) (denies p) (overrides p) (network p)
               (Some e) (Some (runtimeRefs p))).

(** Two policies that grant the same capabilities, whatever order they list them in. *)
Definition same_capabilities (p q : SandboxPolicy) : Prop :=
  workspace p = workspace q ∧ reads p ≡ₚ reads q ∧ writes p ≡ₚ writes q ∧ denies p ≡ₚ denies q
  ∧ overrides p ≡ₚ overrides q ∧ network p ≡ₚ network q ∧ runtimeRefs p ≡ₚ runtimeRefs q.
#[global] Instance same_capabilities_equivalence : Equivalence same_capabilities.
Proof.
  split.
  - intros p. by repeat split.
  - intros p q (? & ? & ? & ? & ? & ? & ?). by repeat split.
  - intros p q r (? & ? & ? & ? & ? & ? & ?) (? & ? & ? & ? & ? & ? & ?).
    repeat split; by etrans.
Qed.

(** The hash the constructor stores belongs to the fields. *)
Definition hashed `{Digest} (p : SandboxPolicy) : Prop :=
  policyHash p = digest (workspace p) (reads p) (writes p) (denies p) (overrides p) (network p) (runtimeRefs p).

Lemma construct_hashed `{Digest} p : hashed (construct p).
Proof. done. Qed.

#[global] Instance section_proper label : Proper ((≡ₚ) ==> (=)) (section_ label).
Proof. intros l k E. unfold section_. by rewrite E. Qed.

Lemma section_map {A} (f : A → string) label l k :
  l ≡ₚ k → section_ label (map f l) = section_ label (map f k).
Proof. intros E. by apply section_proper, Permutation_map. Qed.

#[global] Instance some_proper {A} (f : A → bool) : Proper ((≡ₚ) ==> (=)) (some f).
Proof. induction 1; simpl; rewrite ?IHPermutation; [done..| |congruence]. by rewrite !orb_assoc, (orb_comm (f y)). Qed.

(** What a policy allows is a property of its capabilities. *)
Lemma allows_capabilities p q a path ctx :
  same_capabilities p q → allows p a path ctx = allows q a path ctx.
Proof.
  intros (_ & Hr & Hw & Hd & Ho & _). unfold allows, isOverridden, isDenied, allowsRef.
  rewrite Ho, Hd. by destruct a; rewrite ?Hr, ?Hw.
Qed.
End SandboxPolicy.
Abbreviation SandboxPolicy := SandboxPolicy.SandboxPolicy.

(** ** StarterProfile (StarterProfile.ts) *)

Module StarterProfile.
Record StarterProfileSpec := mkSpec {
  spec_id : string;
  spec_name : string;
  spec_description : string;
  spec_reads : list string;
  spec_writes : list string;
  spec_network : list string
}.

Record StarterProfile := mkProfile {
  id : string;
  name : string;
  description : string;
  readSpecs : list string;
  writeSpecs : list string;
  network : list NetworkRule
}.

Definition parseNetwork (raw : string) : result NetworkRule :=
  if (raw =? "loopback")%string then Ok NetworkRule.loopback
  else
    let parts := split colon raw in
    let protocol := match head parts with Some p => p | None => "" end in
    let parsed :=
      match parts !! 1 with
      | None => NetworkRule.PortNumber NaN
      | Some port => if (port =? "*")%string then NetworkRule.AnyPort
                     else NetworkRule.PortNumber (Number port)
      end in
    if (protocol =? "tcp")%string then NetworkRule.tcp parsed
    else if (protocol =? "udp")%string then NetworkRule.udp parsed
    else match lastIndexOf raw (str1 colon) with
         | Some (S _ as separator) =>
             NetworkRule.destination (stake separator raw) (Number (sdrop (separator + 1) raw))
         | _ => throw ("Unknown network rule: " +:+ JSON_stringify raw)
         end.

Definition fromSpec (spec : StarterProfileSpec) : result StarterProfile :=
  if slen (trim (spec_id spec)) =? 0 then throw "A starter profile needs an id"
  else
    let! rules := rmapM (λ raw, match parseNetwork raw with
                                | Ok r => Ok r
                                | Err e => throw ("Invalid network rule " +:+ JSON_stringify raw +:+ ": "
                                                  +:+ exn_message e)
                                end) (spec_network spec) in
    Ok (mkProfile (spec_id spec) (spec_name spec) (spec_description spec) (spec_reads spec)
          (spec_writes spec) rules).

Definition reads (p : StarterProfile) (home : AbsolutePath) : result (list ResourceRef) :=
  rmapM (λ raw, ResourceRef.parse raw home) (readSpecs p).
Definition writes (p : StarterProfile) (home : AbsolutePath) : result (list ResourceRef) :=
  rmapM (λ raw, ResourceRef.parse raw home) (writeSpecs p).
End StarterProfile.
Abbreviation StarterProfile := StarterProfile.StarterProfile.

(** ** PolicyBuilder (PolicyBuilder.ts) *)

Module PolicyBuilder.
Import SandboxPolicy.

Record PolicyInput := mkInput {
  profile : StarterProfile;
  grants : list Grant;
  context : PathContext;
  workspaceId : WorkspaceId;
  toolchainRoots : list AbsolutePath;
  stateDir : AbsolutePath;
  agentStateDirs : list AbsolutePath;
  tempDirs : list AbsolutePath
}.

Inductive RejectionReason := tier_2_runtime_grant | tier_2_resource | out_of_scope.
Record RejectedGrant := mkRejected {
  resource : string;
  rejected_access : Access;
  rejection : RejectionReason;
  detail : string
}.
Record PolicyBuildResult := mkBuild { policy : SandboxPolicy; rejected : list RejectedGrant }.

(** The local arrays of [build]. *)
Record Draft := mkDraft {
  d_reads : list ResourceRef;
  d_writes : list ResourceRef;
  d_overrides : list PolicyOverride;
  d_runtimeRefs : list ResourceRef;
  d_rejected : list RejectedGrant
}.

(** [target.push(ref)] where the target is the array of the access. *)
Definition push_ref (d : Draft) (a : Access) (r : ResourceRef) : Draft :=
  match a with
  | read => mkDraft (d_reads d ++ [r]) (d_writes d) (d_overrides d) (d_runtimeRefs d) (d_rejected d)
  | write => mkDraft (d_reads d) (d_writes d ++ [r]) (d_overrides d) (d_runtimeRefs d) (d_rejected d)
  end.
Definition push_runtime (d : Draft) (r : ResourceRef) : Draft :=
  mkDraft (d_reads d) (d_writes d) (d_overrides d) (d_runtimeRefs d ++ [r]) (d_rejected d).
Definition push_override (d : Draft) (o : PolicyOverride) : Draft :=
  mkDraft (d_reads d) (d_writes d) (d_overrides d ++ [o]) (d_runtimeRefs d) (d_rejected d).
Definition push_rejected (d : Draft) (r : RejectedGrant) : Draft :=
  mkDraft (d_reads d) (d_writes d) (d_overrides d) (d_runtimeRefs d) (d_rejected d ++ [r]).

Section builder.
Context `{Digest} (registry : SensitivePathRegistry).

Definition canGrant := AccessTierResolver.canGrantAtRuntime registry.
Abbreviation Build A := (M (gmap string (list AbsolutePath)) A).

Definition assertWorkspaceIsSane (ctx : PathContext) : result unit :=
  let! anchored :=
    rmapM (λ e, let! a := SensitivePath.literalPrefix e (home ctx) in Ok (e, a))
      (SensitivePathRegistry.dangerousFor registry (platform ctx) read) in
  match find (λ ea, match ea.2 with
                    | Some a => AbsolutePath.contains (SensitivePaths.workspace ctx) a
                    | None => false
                    end) anchored with
  | Some (e, Some a) =>
      Err (UnsafeWorkspaceError (AbsolutePath.value (SensitivePaths.workspace ctx)) (AbsolutePath.value a)
             (SensitivePath.id e))
  | _ => Ok tt
  end.

Definition denyRules (ctx : PathContext) : list DenyRule :=
  concat (map (λ a,
    map (λ e, DenyRule.mkDeny (SensitivePath.id e) (SensitivePath.pattern e) a
                (SensitivePath.rationale e)
                (if SensitivePath.outsideWorkspaceOnly e then Some (SensitivePaths.workspace ctx) else None))
      (SensitivePathRegistry.dangerousFor registry (platform ctx) a))
    [read; write]).

Definition add (input : PolicyInput) (a : Access) (d : Draft) (r : ResourceRef) : Build Draft :=
  let* ok := canGrant r a (context input) in
  if ok then mok (push_ref d a r)
  else mok (push_rejected d
              (mkRejected (ResourceRef.toResourceString r (home (context input))) a tier_2_resource
                 ("starter profile " +:+ str1 dquote +:+ StarterProfile.id (profile input)
                  +:+ str1 dquote +:+ " asks for a tier 2 resource"))).

Definition collectProfile (input : PolicyInput) (d : Draft) : Build Draft :=
  let* rs := mlift (StarterProfile.reads (profile input) (home (context input))) in
  let* d := mfold (add input read) d rs in
  let* ws := mlift (StarterProfile.writes (profile input) (home (context input))) in
  mfold (add input write) d ws.

Definition collectGrant (input : PolicyInput) (d : Draft) (g : Grant) : Build Draft :=
  if negb (Grant.appliesTo g (workspaceId input)) then mok d
  else
    let* ok := canGrant (Grant.resource g) (Grant.access g) (context input) in
    if ok then mok (push_runtime (push_ref d (Grant.access g) (Grant.resource g)) (Grant.resource g))
    else if bool_decide (Grant.origin g = Grant.manual)
    then mok (push_runtime
                (push_ref
                   (push_override d (mkOverride (Grant.resource g) (Grant.access g) (Grant.reason g)))
                   (Grant.access g) (Grant.resource g))
                (Grant.resource g))
    else mok (push_rejected d
                (mkRejected (ResourceRef.toResourceString (Grant.resource g) (home (context input)))
                   (Grant.access g) tier_2_runtime_grant
                   "tier 2 access cannot be granted while the agent is running")).

Definition collectGrants (input : PolicyInput) (d : Draft) : Build Draft :=
  mfold (collectGrant input) d (grants input).

Definition build (input : PolicyInput) : Build PolicyBuildResult :=
  let ctx := context input in
  let* _ := mlift (assertWorkspaceIsSane ctx) in
  let* config := mlift (AbsolutePath.joinp (stateDir input) ["config.json"]) in
  let* decisions := mlift (AbsolutePath.joinp (stateDir input) ["decisions.json"]) in
  let shared := ResourceRef.subtree (SensitivePaths.workspace ctx) in
  let agent := map ResourceRef.subtree (agentStateDirs input) in
  let temp := map ResourceRef.subtree (tempDirs input) in
  let d := mkDraft
    ([shared] ++ map ResourceRef.subtree (toolchainRoots input) ++ agent ++ temp
     ++ [ResourceRef.file config; ResourceRef.file decisions])
    ([shared] ++ agent ++ temp) [] [] [] in
  let* d := collectProfile input d in
  let* d := collectGrants input d in
  mok (mkBuild
         (construct (mkPolicyProps (SensitivePaths.workspace ctx) (d_reads d) (d_writes d) (denyRules ctx)
                       (d_overrides d) (StarterProfile.network (profile input)) None
                       (Some (d_runtimeRefs d))))
         (d_rejected d)).
End builder.
End PolicyBuilder.

(** ** Correctness of policies *)

Module PolicyProperties.
Import SandboxPolicy PolicyBuilder AccessTierResolver.

Section builder.
Context `{Digest} (registry : SensitivePathRegistry).

(** The overrides of a draft come from applicable manual grants that could not be
    granted at run time; a rejection is never silent about its access. *)
Definition draft_sound (input : PolicyInput) (done_ : list Grant) (d : Draft) : Prop :=
  (∀ o, o ∈ d_overrides d ↔
     ∃ g, g ∈ done_ ∧ Grant.appliesTo g (workspaceId input) = true ∧ Grant.origin g = Grant.manual
        ∧ ¬ grantable registry (Grant.resource g) (Grant.access g) (context input)
        ∧ o = mkOverride (Grant.resource g) (Grant.access g) (Grant.reason g)).

Lemma push_ref_overrides d a r : d_overrides (push_ref d a r) = d_overrides d.
Proof. by destruct a. Qed.

Lemma collectProfile_overrides input d : real_home (context input) →
  yields (cache_ok registry) (collectProfile registry input d) (λ d', d_overrides d' = d_overrides d).
Proof.
  intros Hh.
  assert (∀ a l d0, d_overrides d0 = d_overrides d →
    yields (cache_ok registry) (mfold (add registry input a) d0 l) (λ d', d_overrides d' = d_overrides d)) as Hf.
  { intros a l d0 E. apply (yields_fold _ _ l (λ _ d', d_overrides d' = d_overrides d)); [|done].
    intros _ r acc _ Hacc. eapply yields_seq; [by apply canGrant_yields|].
    intros [] _; apply yields_ok; [by rewrite push_ref_overrides|done]. }
  eapply yields_seq; [by apply (yields_lift _ _ (λ _, True))|]. intros rs _.
  eapply yields_seq; [by apply Hf|]. intros d1 E1.
  eapply yields_seq; [by apply (yields_lift _ _ (λ _, True))|]. intros ws _. by apply Hf.
Qed.

Lemma collectGrants_sound input d : real_home (context input) → d_overrides d = [] →
  yields (cache_ok registry) (collectGrants registry input d) (draft_sound input (grants input)).
Proof.
  intros Hh Hd. apply (yields_fold _ _ (grants input) (draft_sound input)).
  2: { intros o. rewrite Hd. set_solver. }
  intros dn g acc _ Hacc. unfold collectGrant.
  destruct (Grant.appliesTo g (workspaceId input)) eqn:Ha; simpl.
  2: { apply yields_ok. intros o. rewrite (Hacc o). setoid_rewrite elem_of_app.
       split; intros (x & Hx); [naive_solver|].
       destruct Hx as ([?| ->%list_elem_of_singleton] & ? & ?); [naive_solver|congruence]. }
  eapply yields_seq; [by apply canGrant_yields|]. intros b Hb.
  assert (Hkeep : ∀ d', d_overrides d' = d_overrides acc →
    (b = true ∨ Grant.origin g ≠ Grant.manual) → draft_sound input (dn ++ [g]) d').
  { intros d' E Hno o. rewrite E, (Hacc o). setoid_rewrite elem_of_app.
    split; intros (x & Hx); [naive_solver|].
    destruct Hx as ([?| ->%list_elem_of_singleton] & ? & ? & Hn & ?); [naive_solver|].
    destruct Hno as [->|?]; [|done]. destruct Hn. by apply Hb. }
  destruct b; [apply yields_ok, Hkeep; [by destruct (Grant.access g)|by left]|].
  case_bool_decide as Ho; apply yields_ok; [|apply Hkeep; [done|by right]].
  intros o. unfold push_runtime. cbn [d_overrides]. rewrite push_ref_overrides. cbn [push_override d_overrides].
  rewrite elem_of_app, list_elem_of_singleton, (Hacc o). setoid_rewrite elem_of_app.
  assert (¬ grantable registry (Grant.resource g) (Grant.access g) (context input)) as Hn
    by by rewrite <-Hb.
  split.
  - intros [(x & Hx)| ->]; [naive_solver|]. exists g. set_solver.
  - intros (x & [Hx| ->%list_elem_of_singleton] & ? & ? & ? & ?); [left; naive_solver|by right].
Qed.

(** What a built policy looks like: its denies are the registry's, its overrides the
    manual grants'. *)
Lemma build_yields input : real_home (context input) →
  yields (cache_ok registry) (build registry input) (λ r,
    denies (policy r) = denyRules registry (context input)
    ∧ workspace (policy r) = SensitivePaths.workspace (context input)
    ∧ (∀ o, o ∈ overrides (policy r) ↔
         ∃ g, g ∈ grants input ∧ Grant.appliesTo g (workspaceId input) = true
            ∧ Grant.origin g = Grant.manual
            ∧ ¬ grantable registry (Grant.resource g) (Grant.access g) (context input)
            ∧ o = mkOverride (Grant.resource g) (Grant.access g) (Grant.reason g))
    ∧ assertWorkspaceIsSane registry (context input) = Ok tt).
Proof.
  intros Hh. unfold build.
  eapply yields_seq; [apply (yields_lift _ _ (λ a, assertWorkspaceIsSane registry (context input) = Ok a)); done|].
  intros [] Hs.
  eapply yields_seq; [by apply (yields_lift _ _ (λ _, True))|]. intros config _.
  eapply yields_seq; [by apply (yields_lift _ _ (λ _, True))|]. intros decisions _.
  eapply yields_seq; [by apply collectProfile_overrides|]. intros d1 E1.
  eapply yields_seq; [by apply collectGrants_sound|]. intros d2 E2.
  by apply yields_ok.
Qed.

(** The network of a built policy is the profile's, and closed exactly when there is none. *)
Lemma build_network input : yields (λ _, True) (build registry input) (λ r,
  network (policy r) = StarterProfile.network (profile input)
  ∧ networkEnforcement (policy r) = if length (StarterProfile.network (profile input)) =? 0 then closed else unconfigured).
Proof.
  assert (∀ A (m : M (gmap string (list AbsolutePath)) A), yields (λ _, True) m (λ _, True)) as Hany by done.
  unfold build. repeat (eapply yields_seq; [apply Hany|intros ? _]). by apply yields_ok.
Qed.

Lemma elem_of_denyRules ctx d : d ∈ denyRules registry ctx ↔
  ∃ a e, e ∈ SensitivePathRegistry.dangerousFor registry (platform ctx) a
    ∧ d = DenyRule.mkDeny (SensitivePath.id e) (SensitivePath.pattern e) a (SensitivePath.rationale e)
            (if SensitivePath.outsideWorkspaceOnly e then Some (SensitivePaths.workspace ctx) else None).
Proof.
  unfold denyRules. simpl. rewrite app_nil_r, elem_of_app, !list_elem_of_fmap. split.
  - intros [(e & -> & He)|(e & -> & He)]; [exists read|exists write]; eauto.
  - intros ([] & e & He & ->); [left|right]; eauto.
Qed.

(** The trailing refusals cover exactly the tier-2 paths of the registry. *)
Lemma denied_iff_dangerous p ctx a path : denies p = denyRules registry ctx →
  isDenied p a path ctx = true ↔ tierOf registry path a ctx = AccessTier.DANGEROUS.
Proof.
  intros Hd. unfold isDenied. rewrite Hd, some_true, tierOf_dangerous. split.
  - intros (d & (a' & e & He & ->)%elem_of_denyRules & Hm). cbn in Hm. bool_prop.
    apply bool_decide_eq_true in H0 as ->.
    apply SensitivePathRegistry.elem_of_dangerousFor in He as (He & Hp & Hda).
    exists e. split; [done|]. split; [|done]. revert H1.
    unfold SensitivePath.matches, DenyRule.matches. rewrite Hp. simpl.
    destruct (SensitivePath.outsideWorkspaceOnly e); simpl; [|done]. by case_if.
  - intros (e & He & Hm & Hda).
    pose proof (SensitivePathRegistry.matches_platform _ _ _ Hm) as Hp.
    eexists. split.
    + apply elem_of_denyRules. exists a, e. split; [|done].
      by apply SensitivePathRegistry.elem_of_dangerousFor.
    + cbn. rewrite bool_decide_true by done. revert Hm.
      unfold SensitivePath.matches, DenyRule.matches. rewrite Hp. simpl.
      destruct (SensitivePath.outsideWorkspaceOnly e); simpl; [|done]. by case_if.
Qed.
End builder.

(** Granted references only accumulate. *)
Definition draft_refs (d : Draft) (a : Access) : list ResourceRef :=
  match a with read => d_reads d | write => d_writes d end.

Lemma push_ref_refs d a r a' :
  draft_refs (push_ref d a r) a' = draft_refs d a' ++ (if bool_decide (a = a') then [r] else []).
Proof. destruct a, a'; cbn; by rewrite ?app_nil_r. Qed.

Lemma push_runtime_refs d r a : draft_refs (push_runtime d r) a = draft_refs d a.
Proof. by destruct a. Qed.

Section accumulate.
Context `{Digest} (registry : SensitivePathRegistry).

Definition grows (d d' : Draft) : Prop := ∀ a r, r ∈ draft_refs d a → r ∈ draft_refs d' a.
#[local] Instance grows_preorder : PreOrder grows.
Proof. split; [by intros d a r|]. intros d1 d2 d3 H1 H2 a r Hr. by apply H2, H1. Qed.

Lemma push_ref_grows d a r : grows d (push_ref d a r).
Proof. intros a' x Hx. rewrite push_ref_refs. set_solver. Qed.

(** What becomes of an applicable grant: it is granted, or it is a run-time grant of a
    tier-2 resource and is reported. *)
Definition accounted (input : PolicyInput) (d : Draft) (g : Grant) : Prop :=
  Grant.appliesTo g (workspaceId input) = true →
  Grant.resource g ∈ draft_refs d (Grant.access g)
  ∨ Grant.origin g = Grant.runtime
    ∧ ¬ grantable registry (Grant.resource g) (Grant.access g) (context input)
    ∧ ∃ why, why ∈ d_rejected d ∧ rejection why = tier_2_runtime_grant
        ∧ rejected_access why = Grant.access g
        ∧ resource why = ResourceRef.toResourceString (Grant.resource g) (home (context input)).

Lemma collectProfile_grows input d : real_home (context input) →
  yields (cache_ok registry) (collectProfile registry input d) (grows d).
Proof.
  intros Hh.
  assert (∀ a l d0, grows d d0 →
    yields (cache_ok registry) (mfold (add registry input a) d0 l) (grows d)) as Hf.
  { intros a l d0 E. apply (yields_fold _ _ l (λ _, grows d)); [|done].
    intros _ r acc _ Hacc. eapply yields_seq; [by apply canGrant_yields|].
    intros [] _; apply yields_ok; [|done]. etrans; [exact Hacc|apply push_ref_grows]. }
  eapply yields_seq; [by apply (yields_lift _ _ (λ _, True))|]. intros rs _.
  eapply yields_seq; [by apply Hf|]. intros d1 E1.
  eapply yields_seq; [by apply (yields_lift _ _ (λ _, True))|]. intros ws _. by apply Hf.
Qed.

Lemma collectGrants_accounted input d : real_home (context input) →
  yields (cache_ok registry) (collectGrants registry input d)
    (λ d', grows d d' ∧ ∀ g, g ∈ grants input → accounted input d' g).
Proof.
  intros Hh.
  apply (yields_fold _ _ (grants input) (λ dn d', grows d d' ∧ ∀ g, g ∈ dn → accounted input d' g)).
  2: { split; [done|set_solver]. }
  intros dn g acc _ [Hg Hacc].
  (* a step that only adds references and rejections, and accounts for [g] *)
  assert (Hstep : ∀ d', grows acc d' → (∀ x, x ∈ d_rejected acc → x ∈ d_rejected d') →
    accounted input d' g → grows d d' ∧ ∀ g', g' ∈ dn ++ [g] → accounted input d' g').
  { intros d' Hr Hj Ha. split; [by etrans|].
    intros g' [Hg'| ->%list_elem_of_singleton]%elem_of_app; [|done].
    intros Happ. destruct (Hacc g' Hg' Happ) as [?|(? & ? & why & ? & ?)]; [left; by apply Hr|].
    right. do 2 (split; [done|]). exists why. split; [by apply Hj|done]. }
  unfold collectGrant. destruct (Grant.appliesTo g (workspaceId input)) eqn:Ha; simpl.
  2: { apply yields_ok, Hstep; [done|done|]. intros E. congruence. }
  eapply yields_seq; [by apply canGrant_yields|]. intros b Hb.
  destruct b; [|case_bool_decide as Ho].
  - apply yields_ok, Hstep; [apply push_ref_grows|by destruct (Grant.access g)|].
    intros _. left. change (Grant.resource g ∈ draft_refs (push_ref acc (Grant.access g) (Grant.resource g)) (Grant.access g)).
    rewrite push_ref_refs, bool_decide_true by done. set_solver.
  - apply yields_ok, Hstep; [|by destruct (Grant.access g)|].
    + intros a0 r Hr. apply (push_ref_grows (push_override acc _)). by destruct a0.
    + intros _. left. rewrite !push_runtime_refs, push_ref_refs, bool_decide_true by done. set_solver.
  - apply yields_ok, Hstep; [by intros []|set_solver|].
    intros _. right. split; [by destruct (Grant.origin g)|]. split; [by rewrite <-Hb|].
    eexists. split; [apply elem_of_app; right; by apply list_elem_of_singleton|]. done.
Qed.

Lemma build_accounts input : real_home (context input) →
  yields (cache_ok registry) (build registry input) (λ r,
    (∀ a, ResourceRef.subtree (SensitivePaths.workspace (context input)) ∈ allowsRef (policy r) a)
    ∧ ∀ g, g ∈ grants input → Grant.appliesTo g (workspaceId input) = true →
        Grant.resource g ∈ allowsRef (policy r) (Grant.access g)
        ∨ Grant.origin g = Grant.runtime
          ∧ ¬ grantable registry (Grant.resource g) (Grant.access g) (context input)
          ∧ ∃ why, why ∈ rejected r ∧ rejection why = tier_2_runtime_grant
              ∧ rejected_access why = Grant.access g
              ∧ resource why = ResourceRef.toResourceString (Grant.resource g) (home (context input))).
Proof.
  intros Hh. unfold build.
  do 3 (eapply yields_seq; [by apply (yields_lift _ _ (λ _, True))|]; intros ? _).
  eapply yields_seq; [by apply collectProfile_grows|]. intros d1 E1.
  eapply yields_seq; [by apply collectGrants_accounted|]. intros d2 [E2 E3].
  apply yields_ok. split.
  - intros acc0. change (ResourceRef.subtree (SensitivePaths.workspace (context input)) ∈ draft_refs d2 acc0).
    apply E2, E1. destruct acc0; cbn; by left.
  - intros g Hg Happ. apply (E3 g Hg Happ).
Qed.
End accumulate.

(** ** Properties *)

Section properties.
Context `{Digest}.

Lemma tier2_iff registry input cache cache' r a path :
  cache_ok registry cache → real_home (context input) →
  build registry input cache = (cache', Ok r) →
  tierOf registry path a (context input) = AccessTier.DANGEROUS →
  allows (policy r) a path (context input) = true ↔
  ∃ g, g ∈ grants input ∧ Grant.appliesTo g (workspaceId input) = true
     ∧ Grant.origin g = Grant.manual ∧ Grant.access g = a
     ∧ ¬ grantable registry (Grant.resource g) (Grant.access g) (context input)
     ∧ ResourceRef.covers (Grant.resource g) path = true.
Proof.
  intros Hc Hh Hb Ht. destruct (build_yields registry input Hh cache Hc) as [_ HQ].
  rewrite Hb in HQ. destruct (HQ r eq_refl) as (Hd & _ & Ho & _).
  apply (denied_iff_dangerous registry _ _ _ _ Hd) in Ht. unfold allows. rewrite Ht.
  assert (isOverridden (policy r) a path = true ↔
    ∃ o, o ∈ overrides (policy r) ∧ access o = a ∧ ResourceRef.covers (ref o) path = true) as Hov.
  { unfold isOverridden. rewrite some_true. apply exist_proper. intros o.
    by rewrite andb_true_iff, bool_decide_eq_true. }
  case_if.
  - split; [|done]. intros _. destruct (proj1 Hov eq_refl) as (o & Hin & <- & ?).
    apply Ho in Hin as (g & ? & ? & ? & ? & ->). by exists g.
  - split; [done|]. intros (g & ? & ? & ? & <- & ? & ?).
    apply Hov. eexists.
    split; [apply Ho; by exists g|done].
Qed.

(** C2. In a built policy a tier-2 path is reachable only through the escape hatch:
    an access to it is allowed exactly when a manual grant that applies to the
    workspace, is for that access and could not have been granted at run time
    covers it. No profile, toolchain, temporary directory or run-time grant helps. *)
Theorem tier2_only_by_manual_grant registry input cache cache' r a path :
  cache_ok registry cache → real_home (context input) →
  build registry input cache = (cache', Ok r) →
  tierOf registry path a (context input) = AccessTier.DANGEROUS →
  allows (policy r) a path (context input) = true ↔
  ∃ g, g ∈ grants input ∧ Grant.appliesTo g (workspaceId input) = true
     ∧ Grant.origin g = Grant.manual ∧ Grant.access g = a
     ∧ ¬ grantable registry (Grant.resource g) (Grant.access g) (context input)
     ∧ ResourceRef.covers (Grant.resource g) path = true.
Proof. apply tier2_iff. Qed.

(** A built policy leaves the workspace usable: every path in it that is not
    tier 2 for an access is allowed, for reading and for writing. *)
Theorem workspace_usable registry input cache cache' r a path :
  cache_ok registry cache → real_home (context input) →
  build registry input cache = (cache', Ok r) →
  AbsolutePath.contains (SensitivePaths.workspace (context input)) path = true →
  tierOf registry path a (context input) = AccessTier.EVERYDAY →
  allows (policy r) a path (context input) = true.
Proof.
  intros Hc Hh Hb Hp Ht. destruct (build_yields registry input Hh cache Hc) as [_ HQ].
  destruct (build_accounts registry input Hh cache Hc) as [_ HA]. rewrite Hb in HQ, HA.
  destruct (HQ r eq_refl) as (Hd & _). destruct (HA r eq_refl) as [Hw _].
  unfold allows. case_if; [done|]. destruct (isDenied _ _ _ _) eqn:E.
  { apply (denied_iff_dangerous registry _ _ _ _ Hd) in E. congruence. }
  apply some_true. eexists. split; [apply Hw|done].
Qed.

(** Nothing a user granted is dropped in silence: after a build every applicable
    grant is among the references of its access, unless it is a run-time grant of a
    resource that may not be granted at run time, and then it is reported as rejected. *)
Theorem grants_accounted_for registry input cache cache' r g :
  cache_ok registry cache → real_home (context input) →
  build registry input cache = (cache', Ok r) →
  g ∈ grants input → Grant.appliesTo g (workspaceId input) = true →
  Grant.resource g ∈ allowsRef (policy r) (Grant.access g)
  ∨ Grant.origin g = Grant.runtime
    ∧ ¬ grantable registry (Grant.resource g) (Grant.access g) (context input)
    ∧ ∃ why, why ∈ rejected r ∧ rejection why = tier_2_runtime_grant
        ∧ rejected_access why = Grant.access g
        ∧ resource why = ResourceRef.toResourceString (Grant.resource g) (home (context input)).
Proof.
  intros Hc Hh Hb. destruct (build_accounts registry input Hh cache Hc) as [_ HA].
  rewrite Hb in HA. destruct (HA r eq_refl) as [_ Hg]. apply Hg.
Qed.

(** A workspace that holds the anchor of a pattern protected from reading is
    refused, loudly and before anything else happens; a policy that was built has a
    workspace holding none. *)
Theorem unsafe_workspace_refused registry input cache e anchor :
  e ∈ SensitivePathRegistry.dangerousFor registry (platform (context input)) read →
  SensitivePath.literalPrefix e (home (context input)) = Ok (Some anchor) →
  AbsolutePath.contains (SensitivePaths.workspace (context input)) anchor = true →
  (build registry input cache).1 = cache ∧ ∃ err, (build registry input cache).2 = Err err
  ∧ ((∀ e', e' ∈ SensitivePathRegistry.dangerousFor registry (platform (context input)) read →
        ∃ a, SensitivePath.literalPrefix e' (home (context input)) = Ok a) →
     ∃ s i, err = UnsafeWorkspaceError (AbsolutePath.value (SensitivePaths.workspace (context input))) s i).
Proof.
  intros He Hl Hw. unfold build, mseq, mlift.
  destruct (assertWorkspaceIsSane registry (context input)) as [[]|err] eqn:E; cbn.
  - exfalso. unfold assertWorkspaceIsSane in E. res_inv. revert E. case_match eqn:Ef.
    + case_match. case_match; [done|]. apply find_spec in Ef as [_ Ef]. done.
    + intros _. apply find_none_iff in Ef. rewrite some_false in Ef.
      apply rmapM_Ok in E0.
      apply list_elem_of_lookup_1 in He as [k Hk].
      destruct (Forall2_lookup_l _ _ _ _ _ E0 Hk) as (ea & Hea & Hp).
      rewrite Hl in Hp. injection Hp as <-.
      apply list_elem_of_lookup_2 in Hea. specialize (Ef _ Hea). simpl in Ef. congruence.
  - split; [done|]. exists err. split; [done|]. intros Hall.
    unfold assertWorkspaceIsSane in E.
    destruct (rmapM _ _) as [l|e'] eqn:Em; cbn in E.
    + revert E. case_match eqn:Ef; [|done]. case_match. case_match; [|done]. intros [= <-]. eauto.
    + exfalso. revert Em. apply rmapM_not_Err. intros x Hx.
      destruct (Hall x Hx) as [a' ->]. by eexists.
Qed.
End properties.

(** The hash names the capabilities: two policies granting the same things in any
    order have one hash, and configuring the broker transport changes neither the hash
    nor anything the policy allows. *)
Theorem policy_hash_capabilities `{Digest} p q e :
  hashed p → hashed q → same_capabilities p q →
  policyHash p = policyHash q
  ∧ policyHash (withNetworkEnforcement p e) = policyHash p
  ∧ ∀ a path ctx, allows (withNetworkEnforcement p e) a path ctx = allows q a path ctx.
Proof.
  intros Hp Hq (E1 & E2 & E3 & E4 & E5 & E6 & E7). unfold hashed in *. split; [|split].
  - rewrite Hp, Hq, E1. unfold digest, digest_text.
    by rewrite (section_map _ _ _ _ E2), (section_map _ _ _ _ E3), (section_map _ _ _ _ E4),
      (section_map _ _ _ _ E5), (section_map _ _ _ _ E6), (section_map _ _ _ _ E7).
  - by rewrite Hp.
  - intros a path ctx. by apply allows_capabilities.
Qed.

(** ** A running example *)

Lemma snd_pair {A B} (p : A * B) b : p.2 = b → p = (p.1, b).
Proof. by destruct p; intros <-. Qed.

Definition demo_home : AbsolutePath := AbsolutePath.posix_path ["home"; "u"].
Definition demo_context : PathContext :=
  mkContext demo_home (AbsolutePath.posix_path ["home"; "u"; "w"]) Platform.Linux.
Definition demo_key : AbsolutePath := AbsolutePath.posix_path ["home"; "u"; ".ssh"; "id_rsa"].
Definition demo_grant (o : Grant.GrantOrigin) : Grant :=
  Grant.construct (Grant.mkProps (ResourceRef.file demo_key) read GrantScope.global_ (Some 0%Z) "deploy" o).
Definition demo_profile : StarterProfile :=
  StarterProfile.mkProfile "demo" "demo" "" ["dir:~/.config"] ["dir:~/.cache"] [].
Definition demo_input (gs : list Grant) : PolicyInput :=
  mkInput demo_profile gs demo_context (WorkspaceId.fromPath (SensitivePaths.workspace demo_context)) []
    (AbsolutePath.posix_path ["home"; "u"; ".agentkeeper"]) [] [AbsolutePath.posix_path ["tmp"]].
Definition demo_build (gs : list Grant) : result PolicyBuildResult :=
  (build default_registry (demo_input gs) ∅).2.

Lemma demo_build_not_err gs e :
  match demo_build gs with Ok _ => true | Err _ => false end = true → demo_build gs ≠ Err e.
Proof. by destruct (demo_build gs). Qed.

Example demo_build_ok :
  match demo_build [demo_grant Grant.runtime; demo_grant Grant.manual] with
  | Ok r => (length (rejected r), length (overrides (policy r)), length (reads (policy r)))
  | Err _ => (0, 0, 0)
  end = (2, 1, 5).
Proof. vm_compute. reflexivity. Qed.

Lemma tier2_only_by_manual_grant_witness :
  match demo_build [demo_grant Grant.manual] with
  | Ok r => allows (policy r) read demo_key demo_context = true
  | Err _ => False
  end.
Proof.
  destruct (demo_build [demo_grant Grant.manual]) as [r|e] eqn:E.
  - apply (tier2_only_by_manual_grant default_registry (demo_input [demo_grant Grant.manual]) ∅
             (build default_registry (demo_input [demo_grant Grant.manual]) ∅).1 r read demo_key).
    + apply cache_ok_empty.
    + reflexivity.
    + apply snd_pair. exact E.
    + vm_compute. reflexivity.
    + exists (demo_grant Grant.manual). split; [by left|]. repeat split.
      intros [Ht _]. enough (AccessTier.DANGEROUS = AccessTier.EVERYDAY) by discriminate.
      rewrite <-Ht. vm_compute. reflexivity.
  - exfalso. revert E. apply demo_build_not_err. vm_compute. reflexivity.
Defined.

Lemma workspace_usable_witness :
  match demo_build [] with
  | Ok r => allows (policy r) write (AbsolutePath.posix_path ["home"; "u"; "w"; "a.ts"]) demo_context = true
  | Err _ => False
  end.
Proof.
  destruct (demo_build []) as [r|e] eqn:E.
  - apply (workspace_usable default_registry (demo_input []) ∅
             (build default_registry (demo_input []) ∅).1 r).
    + apply cache_ok_empty.
    + reflexivity.
    + apply snd_pair. exact E.
    + reflexivity.
    + vm_compute. reflexivity.
  - exfalso. revert E. apply demo_build_not_err. vm_compute. reflexivity.
Defined.

Lemma grants_accounted_for_witness :
  match demo_build [demo_grant Grant.runtime] with
  | Ok r =>
      ResourceRef.file demo_key ∈ allowsRef (policy r) read
      ∨ Grant.origin (demo_grant Grant.runtime) = Grant.runtime
        ∧ ¬ grantable default_registry (ResourceRef.file demo_key) read demo_context
        ∧ ∃ why, why ∈ rejected r ∧ rejection why = tier_2_runtime_grant
            ∧ rejected_access why = read
            ∧ resource why = ResourceRef.toResourceString (ResourceRef.file demo_key) demo_home
  | Err _ => False
  end.
Proof.
  destruct (demo_build [demo_grant Grant.runtime]) as [r|e] eqn:E.
  - apply (grants_accounted_for default_registry (demo_input [demo_grant Grant.runtime]) ∅
             (build default_registry (demo_input [demo_grant Grant.runtime]) ∅).1 r (demo_grant Grant.runtime)).
    + apply cache_ok_empty.
    + reflexivity.
    + apply snd_pair. exact E.
    + by left.
    + reflexivity.
  - exfalso. revert E. apply demo_build_not_err. vm_compute. reflexivity.
Defined.

Lemma nonempty_not_nil {A} (l : list A) n : (n <=? length l) = true → 0 < n → l ≠ [].
Proof. intros H Hn ->. by destruct n; [lia|]. Qed.
Lemma head_prefix l e h r :
  (λ x, SensitivePath.literalPrefix x h) <$> head l = Some r → head l = Some e → SensitivePath.literalPrefix e h = r.
Proof. intros H E. rewrite E in H. by injection H. Qed.

(** Running the agent in the home directory itself. *)
Lemma unsafe_workspace_refused_witness :
  let ctx := mkContext demo_home demo_home Platform.Linux in
  let input := mkInput demo_profile [] ctx (WorkspaceId.fromPath demo_home) []
                 (AbsolutePath.posix_path ["home"; "u"; ".agentkeeper"]) [] [] in
  ∃ err, (build default_registry input ∅).2 = Err err.
Proof.
  intros ctx input.
  destruct (SensitivePathRegistry.dangerousFor default_registry Platform.Linux read) as [|e l] eqn:E;
    [exfalso; revert E; apply (nonempty_not_nil _ 1); [vm_compute; reflexivity|lia]|].
  assert (head (SensitivePathRegistry.dangerousFor default_registry Platform.Linux read) = Some e) as Hh
    by by rewrite E.
  destruct (unsafe_workspace_refused default_registry input ∅ e
              (AbsolutePath.posix_path ["home"; "u"; ".ssh"])) as (_ & err & Herr & _).
  - change (platform (context input)) with Platform.Linux. rewrite E. by left.
  - revert Hh. apply head_prefix. vm_compute. reflexivity.
  - reflexivity.
  - by exists err.
Defined.

Lemma policy_hash_capabilities_witness :
  let a := ResourceRef.file demo_key in
  let b := ResourceRef.subtree demo_home in
  let props l := mkPolicyProps demo_home l [] [] [] [] None None in
  policyHash (construct (props [a; b])) = policyHash (construct (props [b; a])).
Proof.
  intros a b props.
  apply (policy_hash_capabilities (construct (props [a; b])) (construct (props [b; a])) closed).
  - reflexivity.
  - reflexivity.
  - repeat split; try reflexivity. cbn. constructor.
Defined.

(** The section labels do not separate the sections: a path may hold a newline, so
    two policies with different reads and writes can have one hash, although one allows
    a write the other refuses. *)
Theorem digest_sections_collide `{Digest} :
  let sep := nl +:+ "--" +:+ nl in
  ∃ b bc, AbsolutePath.of_ ("/b" +:+ sep +:+ "write" +:+ nl +:+ "subtree:/c") = Ok b
  ∧ AbsolutePath.of_ ("/a" +:+ sep +:+ "write" +:+ nl +:+ "subtree:/b") = Ok bc
  ∧ let c := AbsolutePath.posix_path ["c"] in
    let policy rs ws := construct (mkPolicyProps demo_home (map ResourceRef.subtree rs)
                                     (map ResourceRef.subtree ws) [] [] [] None None) in
    let p := policy [AbsolutePath.posix_path ["a"]] [b] in
    let q := policy [bc] [c] in
    policyHash p = policyHash q
    ∧ allows p write c demo_context = false ∧ allows q write c demo_context = true.
Proof.
  intros sep. eexists _, _. split; [vm_compute; reflexivity|]. split; [vm_compute; reflexivity|].
  split; [|split; vm_compute; reflexivity]. cbn [policyHash construct]. unfold digest. do 2 f_equal.
Qed.
End PolicyProperties.
