(* ===== verification/Environment.v ===== *)
(** * The environment boundary (EnvironmentPolicy.ts, EnvironmentSanitizer.ts)

    [EnvironmentPolicy]: which variables may cross into the agent's process.
    [EnvironmentSanitizer]: the copy of the environment that does. *)

From S2P Require Import Prelude JsString.

Module EnvironmentPolicy.

Definition PROVIDER_API_KEYS : list string :=
  ["ANTHROPIC_API_KEY"; "OPENAI_API_KEY"; "GEMINI_API_KEY"; "GOOGLE_API_KEY"; "OPENROUTER_API_KEY"].

Definition SAFE_VARIABLE_NAMES : list string :=
  ["PATH"; "SHELL"; "TERM"; "COLORTERM"; "TERM_PROGRAM"; "TERM_PROGRAM_VERSION"; "COLUMNS"; "LINES";
   "NO_COLOR"; "FORCE_COLOR"; "CLICOLOR"; "CLICOLOR_FORCE"; "LANG"; "LANGUAGE"; "LC_ALL"; "LC_CTYPE";
   "LC_COLLATE"; "LC_MESSAGES"; "LC_MONETARY"; "LC_NUMERIC"; "LC_TIME"; "LC_PAPER"; "LC_NAME";
   "LC_ADDRESS"; "LC_TELEPHONE"; "LC_MEASUREMENT"; "LC_IDENTIFICATION"; "TZ"; "CI"; "OS";
   "PROCESSOR_ARCHITECTURE"; "PROCESSOR_IDENTIFIER"; "NUMBER_OF_PROCESSORS"].

Definition KNOWN_PROVIDER_KEYS : gset string := list_to_set PROVIDER_API_KEYS.

Record EnvironmentPolicy := mkPolicy { providerApiKeys : list string }.

(** The constructor: [[...new Set(keys)].sort()]. *)
Definition construct (keys : list string) : EnvironmentPolicy :=
  mkPolicy (sort_strings (remove_dups keys)).

Definition strict (keys : list string) : result EnvironmentPolicy :=
  match find (λ n, negb (bool_decide (n ∈ KNOWN_PROVIDER_KEYS))) keys with
  | Some n => throw ("Unknown provider environment credential: " +:+ JSON_stringify n)
  | None => Ok (construct keys)
  end.

(** [/\.(exe|cmd|bat|ps1)$/i] on a lower-case name. *)
Definition strip_extension (name : string) : string :=
  match find (endsWith name) [".exe"; ".cmd"; ".bat"; ".ps1"] with
  | Some _ => stake (slen name - 4) name
  | None => name
  end.

Definition executableName (executable : string) : string :=
  let basename := match last (split slash (replace_char backslash slash executable)) with
                  | Some w => w | None => "" end in
  strip_extension (toLowerCase basename).

Definition forExecutable (executable : string) : result EnvironmentPolicy :=
  let n := executableName executable in
  if (n =? "claude")%string || (n =? "claude-code")%string then strict ["ANTHROPIC_API_KEY"]
  else if (n =? "codex")%string then strict ["OPENAI_API_KEY"]
  else if (n =? "gemini")%string then strict ["GEMINI_API_KEY"; "GOOGLE_API_KEY"]
  else if (n =? "opencode")%string || (n =? "aider")%string then strict PROVIDER_API_KEYS
  else strict [].

Definition allows (p : EnvironmentPolicy) (name : string) : bool :=
  let normalized := toUpperCase name in
  if startsWith normalized "AGENTKEEPER_" then false
  else if str_includes SAFE_VARIABLE_NAMES normalized then true
  else (name =? normalized)%string && str_includes (providerApiKeys p) name.

(** The credentials each agent is entitled to. *)
Definition entitled (n : string) : list string :=
  if decide (n ∈ ["claude"; "claude-code"]) then ["ANTHROPIC_API_KEY"]
  else if decide (n = "codex") then ["OPENAI_API_KEY"]
  else if decide (n = "gemini") then ["GEMINI_API_KEY"; "GOOGLE_API_KEY"]
  else if decide (n ∈ ["opencode"; "aider"]) then PROVIDER_API_KEYS else [].

Lemma strict_known keys : (∀ k, k ∈ keys → k ∈ PROVIDER_API_KEYS) → strict keys = Ok (construct keys).
Proof.
  intros Hk. unfold strict. replace (find _ keys) with (@None string); [done|].
  symmetry. apply find_none_iff, some_false. intros x Hx. apply negb_false_iff, bool_decide_eq_true.
  unfold KNOWN_PROVIDER_KEYS. apply elem_of_list_to_set. by apply Hk.
Qed.

Lemma construct_keys keys k : k ∈ providerApiKeys (construct keys) ↔ k ∈ keys.
Proof. unfold construct. cbn. by rewrite sort_strings_perm, elem_of_remove_dups. Qed.

Lemma forExecutable_entitled executable :
  forExecutable executable = Ok (construct (entitled (executableName executable))).
Proof.
  unfold forExecutable, entitled. generalize (executableName executable) as n. intros n.
  destruct (n =? "claude")%string eqn:E1; [apply String.eqb_eq in E1 as ->; apply strict_known; set_solver|].
  destruct (n =? "claude-code")%string eqn:E2; [apply String.eqb_eq in E2 as ->; apply strict_known; set_solver|].
  destruct (n =? "codex")%string eqn:E3; [apply String.eqb_eq in E3 as ->; apply strict_known; set_solver|].
  destruct (n =? "gemini")%string eqn:E4; [apply String.eqb_eq in E4 as ->; apply strict_known; set_solver|].
  destruct (n =? "opencode")%string eqn:E5; [apply String.eqb_eq in E5 as ->; apply strict_known; set_solver|].
  destruct (n =? "aider")%string eqn:E6; [apply String.eqb_eq in E6 as ->; apply strict_known; set_solver|].
  bool_prop. simpl. do 4 (rewrite decide_False by set_solver). apply strict_known. set_solver.
Qed.

Lemma provider_keys_facts k : k ∈ PROVIDER_API_KEYS →
  toUpperCase k = k ∧ str_includes SAFE_VARIABLE_NAMES k = false ∧ startsWith k "AGENTKEEPER_" = false.
Proof.
  unfold PROVIDER_API_KEYS. rewrite !elem_of_cons.
  by intros [->|[->|[->|[->|[->|[]%elem_of_nil]]]]].
Qed.

Lemma entitled_known n k : k ∈ entitled n → k ∈ PROVIDER_API_KEYS.
Proof. unfold entitled, PROVIDER_API_KEYS. repeat case_decide; set_solver. Qed.

(** An agent receives the provider credentials it is entitled to and no other:
    [forExecutable] never fails, and of the known provider keys the policy lets through
    exactly those of the program named by the last path segment. *)
Theorem forExecutable_credentials executable :
  ∃ p, forExecutable executable = Ok p
  ∧ ∀ k, k ∈ PROVIDER_API_KEYS →
      (allows p k = true ↔ k ∈ entitled (executableName executable)).
Proof.
  eexists. split; [apply forExecutable_entitled|]. intros k Hk.
  destruct (provider_keys_facts k Hk) as (Hu & Hs & Ha).
  unfold allows. rewrite Hu, Ha, Hs, String.eqb_refl. cbv iota. rewrite andb_true_l.
  by rewrite str_includes_true, construct_keys.
Qed.

Lemma allows_spec p name :
  allows p name = true ↔
  startsWith (toUpperCase name) "AGENTKEEPER_" = false
  ∧ (toUpperCase name ∈ SAFE_VARIABLE_NAMES ∨ name = toUpperCase name ∧ name ∈ providerApiKeys p).
Proof.
  unfold allows. destruct (startsWith _ _); [naive_solver|].
  rewrite <-!str_includes_true. destruct (str_includes SAFE_VARIABLE_NAMES _); [naive_solver|].
  rewrite andb_true_iff, String.eqb_eq. naive_solver.
Qed.
End EnvironmentPolicy.
Abbreviation EnvironmentPolicy := EnvironmentPolicy.EnvironmentPolicy.

(** ** EnvironmentSanitizer *)

Module EnvironmentSanitizer.
Import EnvironmentPolicy.

(** A source variable whose value is not a string is [None]. *)
Abbreviation Source := (gmap string (option string)).

Record EnvironmentSanitizationResult := mkResult {
  environment : gmap string string;
  removedNames : list string;
  removedCount : nat
}.
Definition construct_result (env : gmap string string) (removed : list string) : EnvironmentSanitizationResult :=
  mkResult env removed (length removed).

(** [Object.keys(source)]; its order is erased by the sort. *)
Definition keys (source : Source) : list string := (map_to_list source).*1.

Definition step (source : Source) (policy : EnvironmentPolicy)
    (acc : gmap string string * list string) (name : string) : gmap string string * list string :=
  let '(env, removed) := acc in
  match source !! name with
  | Some (Some value) =>
      if negb (allows policy name) then (env, removed ++ [name])
      else (<[name := value]> env, removed)
  | _ => (env, removed ++ [name])
  end.

Definition sanitize (source : Source) (policy : EnvironmentPolicy) : EnvironmentSanitizationResult :=
  let '(env, removed) := fold_left (step source policy) (sort_strings (keys source)) (∅, []) in
  construct_result env removed.

(** A variable that crosses: its value is a string and the policy allows its name. *)
Definition crosses (source : Source) (policy : EnvironmentPolicy) (name : string) : bool :=
  match source !! name with Some (Some _) => allows policy name | _ => false end.

Lemma fold_removed source policy l env removed :
  (fold_left (step source policy) l (env, removed)).2
  = removed ++ bfilter (λ n, negb (crosses source policy n)) l.
Proof.
  revert env removed. induction l as [|n l IH]; intros env removed; simpl; [by rewrite app_nil_r|].
  unfold crosses at 1. destruct (source !! n) as [[v|]|]; simpl;
    [destruct (allows policy n); simpl|..]; rewrite IH, <-?app_assoc; done.
Qed.

Lemma fold_environment source policy l env removed n v :
  (∀ m w, env !! m = Some w → source !! m = Some (Some w)) →
  (fold_left (step source policy) l (env, removed)).1 !! n = Some v ↔
  env !! n = Some v ∨ n ∈ l ∧ crosses source policy n = true ∧ source !! n = Some (Some v).
Proof.
  revert env removed. induction l as [|m l IH]; intros env removed Henv; simpl; [set_solver|].
  unfold crosses. destruct (source !! m) as [[w|]|] eqn:Em; simpl.
  - destruct (allows policy m) eqn:Ea; simpl.
    + rewrite IH.
      * unfold crosses. rewrite lookup_insert_Some, elem_of_cons. destruct (decide (m = n)) as [->|Hn].
        -- rewrite Em, Ea. naive_solver.
        -- naive_solver.
      * intros k u. rewrite lookup_insert_Some. intros [[<- <-]|[_ Hk]]; [done|by apply Henv].
    + rewrite IH by done. unfold crosses. rewrite elem_of_cons.
      destruct (decide (m = n)) as [->|Hn]; [|naive_solver]. rewrite Em, Ea. naive_solver.
  - rewrite IH by done. unfold crosses. rewrite elem_of_cons.
    destruct (decide (m = n)) as [->|Hn]; [|naive_solver]. rewrite Em. naive_solver.
  - rewrite IH by done. unfold crosses. rewrite elem_of_cons.
    destruct (decide (m = n)) as [->|Hn]; [|naive_solver]. rewrite Em. naive_solver.
Qed.

Lemma elem_of_keys source n : n ∈ keys source ↔ is_Some (source !! n).
Proof.
  unfold keys. rewrite list_elem_of_fmap. split.
  - intros ([k v] & -> & H%elem_of_map_to_list). by exists v.
  - intros [v H]. exists (n, v). by rewrite elem_of_map_to_list.
Qed.

Lemma sanitize_environment source policy :
  environment (sanitize source policy)
  = (fold_left (step source policy) (sort_strings (keys source)) (∅, [])).1.
Proof. unfold sanitize. by destruct (fold_left _ _ _). Qed.

Lemma sanitize_iff source policy n v :
  environment (sanitize source policy) !! n = Some v
  ↔ source !! n = Some (Some v) ∧ allows policy n = true.
Proof.
  rewrite sanitize_environment, fold_environment by (intros ??; by rewrite lookup_empty).
  rewrite lookup_empty, sort_strings_perm, elem_of_keys. unfold crosses. split.
  - intros [?|(_ & Hc & Hv)]; [done|]. by rewrite Hv in Hc.
  - intros [Hv Ha]. right. rewrite Hv. split; [by eexists|done].
Qed.

Lemma crosses_iff source policy n :
  crosses source policy n = true ↔ is_Some (environment (sanitize source policy) !! n).
Proof.
  unfold crosses. split.
  - destruct (source !! n) as [[v|]|] eqn:E; [|done..]. intros Ha. exists v. by apply sanitize_iff.
  - by intros [v [-> ?]%sanitize_iff].
Qed.

(** The two results, read off the sorted names. *)
Lemma sanitize_removed source policy :
  removedNames (sanitize source policy)
  = bfilter (λ n, negb (crosses source policy n)) (sort_strings (keys source))
  ∧ removedCount (sanitize source policy) = length (removedNames (sanitize source policy)).
Proof.
  unfold sanitize. pose proof (fold_removed source policy (sort_strings (keys source)) ∅ []) as H.
  destruct (fold_left _ _ _). done.
Qed.

Lemma sanitize_size source policy :
  size (environment (sanitize source policy)) = length (bfilter (crosses source policy) (keys source)).
Proof.
  rewrite <-size_dom.
  rewrite <-(size_list_to_set (C:=gset string)) by apply bfilter_NoDup, NoDup_fst_map_to_list.
  f_equal. apply set_eq. intros n. rewrite elem_of_dom, elem_of_list_to_set, elem_of_bfilter, elem_of_keys.
  rewrite crosses_iff. split; [|naive_solver]. intros [v Hv]. split; [|by exists v].
  apply sanitize_iff in Hv as [Hv _]. by eexists.
Qed.

(** The sanitizer is a filter: a variable is in the result with a value exactly when
    the source has it with that value and the policy allows its name, so nothing is
    invented or altered, and no launcher-owned [AGENTKEEPER_] name, whatever its case,
    survives. *)
Theorem sanitize_environment_spec source policy n v :
  (environment (sanitize source policy) !! n = Some v
   ↔ source !! n = Some (Some v) ∧ allows policy n = true)
  ∧ (startsWith (toUpperCase n) "AGENTKEEPER_" = true → environment (sanitize source policy) !! n = None).
Proof.
  split; [apply sanitize_iff|]. intros Ha.
  destruct (environment _ !! n) as [w|] eqn:E; [|done].
  apply sanitize_iff in E as [_ E]. unfold allows in E. by rewrite Ha in E.
Qed.

(** The report of what was removed is complete, without repetition and in order:
    its names are the sorted list of exactly the variables that did not cross, and its
    count is their number. *)
Theorem sanitize_removed_spec source policy :
  let r := sanitize source policy in
  (∀ n, n ∈ removedNames r ↔ is_Some (source !! n) ∧ environment r !! n = None)
  ∧ NoDup (removedNames r) ∧ StronglySorted (le_rel String.leb) (removedNames r)
  ∧ removedCount r = length (removedNames r)
  ∧ removedCount r + size (environment r) = size source.
Proof.
  intros r. destruct (sanitize_removed source policy) as [Hr Hn]. fold r in Hr, Hn.
  assert (NoDup (keys source)) as Hnd by apply NoDup_fst_map_to_list.
  split; [|split; [|split; [|split]]].
  - intros n. rewrite Hr, elem_of_bfilter, sort_strings_perm, elem_of_keys, negb_true_iff.
    by rewrite <-not_true_iff_false, crosses_iff, <-eq_None_not_Some.
  - rewrite Hr. apply bfilter_NoDup. by rewrite sort_strings_perm.
  - rewrite Hr. apply bfilter_sorted, sort_strings_sorted.
  - done.
  - rewrite Hn, Hr, sort_strings_perm. subst r. rewrite sanitize_size, Nat.add_comm, bfilter_partition.
    unfold keys. by rewrite length_fmap, length_map_to_list.
Qed.
End EnvironmentSanitizer.
