(* ===== verification/Shell.v ===== *)
(** * Shell commands (src/domain/value-objects/ShellCommand.ts)

    How a command line is cut into segments and tokens for the tool-call rules. *)

From S2P Require Import Prelude JsString.

(** ** The two walks over the characters *)

Definition is_quote (c : ascii) : bool := Ascii.eqb c dquote || Ascii.eqb c squote.
(** [char === ';' || char === '\n' || char === '|' || char === '&'] *)
Definition is_separator (c : ascii) : bool :=
  Ascii.eqb c ";" || Ascii.eqb c newline || Ascii.eqb c "|" || Ascii.eqb c "&".

(** A backslash outside single quotes. *)
Definition escapes (c : ascii) (quote : option ascii) : bool :=
  Ascii.eqb c backslash && negb (bool_decide (quote = Some squote)).

(** The loop of [splitSegments]: what follows, the segment being read, the open quote and
    whether the next character is escaped. *)
Fixpoint split_walk (rest current : string) (quote : option ascii) (escaped : bool) : list string :=
  match rest with
  | "" => [current]
  | String c r =>
      if escaped then split_walk r (current +:+ str1 c) quote false
      else if escapes c quote then split_walk r (current +:+ str1 c) quote true
      else match quote with
           | Some q => split_walk r (current +:+ str1 c) (if Ascii.eqb c q then None else quote) false
           | None =>
               if is_quote c then split_walk r (current +:+ str1 c) (Some c) false
               else if is_separator c
               then current :: match r with
                               | String c' r' => if Ascii.eqb c' c then split_walk r' "" None false
                                                 else split_walk r "" None false
                               | "" => split_walk r "" None false
                               end
               else split_walk r (current +:+ str1 c) None false
           end
  end.

Definition splitSegments (raw : string) : list string :=
  bfilter (λ s, 0 <? slen (trim s)) (split_walk raw "" None false).

Definition push_token (current : string) (tokens : list string) : list string :=
  if 0 <? slen current then current :: tokens else tokens.

(** The loop of [tokenize]; the tokens still to come follow the ones pushed. *)
Fixpoint token_walk (rest current : string) (quote : option ascii) (escaped : bool) : list string :=
  match rest with
  | "" => push_token current []
  | String c r =>
      if escaped then token_walk r (current +:+ str1 c) quote false
      else if escapes c quote then token_walk r current quote true
      else match quote with
           | Some q => if Ascii.eqb c q then token_walk r current None false
                       else token_walk r (current +:+ str1 c) quote false
           | None =>
               if is_quote c then token_walk r current (Some c) false
               else if is_space c then push_token current (token_walk r "" None false)
               else token_walk r (current +:+ str1 c) None false
           end
  end.

Definition tokenize (raw : string) : list string := token_walk (trim raw) "" None false.

(** ** Segments *)

Module ShellSegment.
Record ShellSegment := mkSegment { tokens : list string; assignments : gmap string string }.

Definition is_name_start (c : ascii) : bool := is_upper c || is_lower c || Ascii.eqb c "_".

(** A name, an equals sign, and any text without a line terminator. *)
Definition ASSIGNMENT (token : string) : option (string * string) :=
  match token with
  | String c _ =>
      if is_name_start c then
        let name := take_while is_word token in
        match sdrop (slen name) token with
        | String "=" value =>
            if sexists (λ x, Ascii.eqb x newline || Ascii.eqb x (chr 13)) value then None
            else Some (name, value)
        | _ => None
        end
      else None
  | "" => None
  end.

(** [assignments[name] = value]: assigning a string to [__proto__] does nothing. *)
Definition assign (m : gmap string string) (name value : string) : gmap string string :=
  if (name =? "__proto__")%string then m else <[name := value]> m.

(** The loop that looks through assignments and wrappers. *)
Fixpoint unwrap (tokens : list string) (m : gmap string string) : ShellSegment :=
  match tokens with
  | [] => mkSegment [] m
  | token :: r =>
      match ASSIGNMENT token with
      | Some (name, value) => unwrap r (assign m name value)
      | None =>
          if str_includes ["env"; "sudo"; "/usr/bin/env"] token then unwrap r m
          else mkSegment tokens m
      end
  end.

Definition of_ (raw : string) : ShellSegment := unwrap (tokenize raw) ∅.

Definition program (s : ShellSegment) : option string := head (tokens s).
Definition args (s : ShellSegment) : list string := tail (tokens s).
Definition subcommand (s : ShellSegment) : option string :=
  find (λ a, negb (startsWith a "-")) (args s).
Definition hasFlag (s : ShellSegment) (flags : list string) : bool := some (str_includes flags) (args s).
Definition toString (s : ShellSegment) : string := join " " (tokens s).

(** [program === name || program?.endsWith(`/${name}`)] *)
Definition runs (s : ShellSegment) (name : string) : bool :=
  match program s with
  | Some p => (p =? name)%string || endsWith p ("/" +:+ name)
  | None => false
  end.
End ShellSegment.
Abbreviation ShellSegment := ShellSegment.ShellSegment.

(** ** Commands *)

Module ShellCommand.
Import ShellSegment.
Record ShellCommand := mkCommand { raw : string; segments : list ShellSegment }.

Definition parse (text : string) : ShellCommand :=
  mkCommand text (bfilter (λ s, 0 <? length (tokens s)) (map ShellSegment.of_ (splitSegments text))).

Definition programs (c : ShellCommand) : list string := omap program (segments c).
Definition invokes (c : ShellCommand) (name : string) : bool :=
  some (λ n, (n =? name)%string || endsWith n ("/" +:+ name)) (programs c).
Definition invocationsOf (c : ShellCommand) (name : string) : list ShellSegment :=
  bfilter (λ s, runs s name) (segments c).
(** [Object.assign] segment after segment: a later one wins. *)
Definition assignments (c : ShellCommand) : gmap string string :=
  fold_left (λ result s, ShellSegment.assignments s ∪ result) (segments c) ∅.
End ShellCommand.
Abbreviation ShellCommand := ShellCommand.ShellCommand.

Example parse_pipeline :
  map ShellSegment.tokens (ShellCommand.segments (ShellCommand.parse "FOO=1 sudo git push && rm -rf 'a; b' | cat"))
  = [["git"; "push"]; ["rm"; "-rf"; "a; b"]; ["cat"]].
Proof. reflexivity. Qed.

(** ** Quoting *)

(** A word the walks carry through single quotes: any characters but that quote. *)
Definition quotable (w : string) : Prop := w ≠ "" ∧ has_char squote w = false.
Definition single_quoted (w : string) : string := str1 squote +:+ w +:+ str1 squote.
Definition render_words (ws : list string) : string := join " " (map single_quoted ws).
Definition render (cmds : list (list string)) : string := join ";" (map render_words cmds).

Lemma token_walk_quoted w r cur : has_char squote w = false →
  token_walk (w +:+ String squote r) cur (Some squote) false = token_walk r (cur +:+ w) None false.
Proof.
  revert cur. induction w as [|c w IH]; intros cur Hw.
  - rewrite sapp_nil_r. cbn [String.append token_walk]. unfold escapes.
    by rewrite bool_decide_true, andb_false_r by done.
  - simpl in Hw. bool_prop. cbn [String.append token_walk]. unfold escapes.
    rewrite bool_decide_true, andb_false_r by done. rewrite H, IH by done.
    by rewrite sapp_assoc.
Qed.

Lemma token_walk_word w r : quotable w →
  token_walk (single_quoted w +:+ r) "" None false = token_walk r w None false.
Proof.
  intros [_ Hw]. unfold single_quoted. rewrite !sapp_assoc.
  change (token_walk (w +:+ String squote r) "" (Some squote) false = token_walk r w None false).
  by rewrite token_walk_quoted.
Qed.

Lemma push_quotable w l : quotable w → push_token w l = w :: l.
Proof. intros [Hw _]. by destruct w. Qed.

Lemma token_walk_words ws : Forall quotable ws →
  token_walk (render_words ws) "" None false = ws.
Proof.
  unfold render_words. induction 1 as [|w ws Hw Hws IH]; [done|].
  destruct ws as [|w' ws].
  - cbn [map join]. rewrite <-(sapp_nil_r (single_quoted w)), token_walk_word by done.
    cbn [token_walk]. by apply push_quotable.
  - cbn [map] in *. rewrite join_cons, token_walk_word by done.
    change (push_token w (token_walk (join " " (single_quoted w' :: map single_quoted ws)) "" None false)
            = w :: w' :: ws).
    by rewrite IH, push_quotable.
Qed.

Lemma split_walk_quoted w r cur : has_char squote w = false →
  split_walk (w +:+ String squote r) cur (Some squote) false
  = split_walk r (cur +:+ w +:+ str1 squote) None false.
Proof.
  revert cur. induction w as [|c w IH]; intros cur Hw.
  - cbn [String.append split_walk]. unfold escapes. by rewrite bool_decide_true, andb_false_r by done.
  - simpl in Hw. bool_prop. cbn [String.append split_walk]. unfold escapes.
    rewrite bool_decide_true, andb_false_r by done. rewrite H, IH by done.
    by rewrite sapp_assoc.
Qed.

Lemma split_walk_words ws r cur : Forall quotable ws →
  split_walk (render_words ws +:+ r) cur None false = split_walk r (cur +:+ render_words ws) None false.
Proof.
  unfold render_words. intros Hws. revert cur. induction Hws as [|w ws Hw Hws IH]; intros cur.
  - by rewrite sapp_nil_r.
  - assert (∀ r', split_walk (single_quoted w +:+ r') cur None false
                  = split_walk r' (cur +:+ single_quoted w) None false) as Hword.
    { intros r'. unfold single_quoted. rewrite !sapp_assoc.
      change (split_walk (w +:+ String squote r') (cur +:+ str1 squote) (Some squote) false
              = split_walk r' (cur +:+ str1 squote +:+ w +:+ str1 squote) None false).
      rewrite split_walk_quoted by apply Hw. by rewrite !sapp_assoc. }
    destruct ws as [|w' ws]; [apply Hword|].
    cbn [map] in *. rewrite join_cons, !sapp_assoc, Hword by done.
    change (split_walk (join " " (single_quoted w' :: map single_quoted ws) +:+ r)
              ((cur +:+ single_quoted w) +:+ " ") None false
            = split_walk r (cur +:+ single_quoted w +:+ " " +:+ join " " (single_quoted w' :: map single_quoted ws)) None false).
    by rewrite IH, !sapp_assoc.
Qed.

Lemma render_words_head ws : ws ≠ [] → ∃ r, render_words ws = String squote r.
Proof.
  destruct ws as [|w ws]; [done|]. intros _. unfold render_words, single_quoted.
  cbn [map]. destruct ws; [|cbn [map]; rewrite join_cons by done]; by eexists.
Qed.

Lemma split_walk_render cmds : Forall (λ ws, ws ≠ [] ∧ Forall quotable ws) cmds → cmds ≠ [] →
  split_walk (render cmds) "" None false = map render_words cmds.
Proof.
  unfold render. induction 1 as [|ws cmds [Hne Hws] Hc IH]; [done|]. intros _.
  destruct cmds as [|ws' cmds].
  - cbn [map join]. rewrite <-(sapp_nil_r (render_words ws)) at 1. rewrite split_walk_words by done.
    done.
  - cbn [map] in *. rewrite join_cons, split_walk_words by done.
    destruct (render_words_head ws') as [t Ht]; [by inv Hc; naive_solver|].
    assert (∃ t', join ";" (render_words ws' :: map render_words cmds) = String squote t') as [t' Ht'].
    { rewrite Ht. destruct cmds; [|cbn [map]; rewrite join_cons by done]; by eexists. }
    cbn [map] in IH. rewrite Ht' in IH |- *. cbn [split_walk String.append].
    change (render_words ws :: split_walk (String squote t') "" None false
            = render_words ws :: render_words ws' :: map render_words cmds).
    by rewrite IH.
Qed.

Lemma render_words_trim ws : ws ≠ [] → trim (render_words ws) = render_words ws.
Proof.
  intros Hne. assert (∃ s, render_words ws = String squote s +:+ str1 squote) as [s ->]; [|by apply trim_id].
  unfold render_words. induction ws as [|w ws IH]; [done|].
  destruct ws as [|w' ws]; [by exists w|]. destruct IH as [s Hs]; [done|].
  cbn [map] in *. rewrite join_cons, Hs by done.
  exists (w +:+ str1 squote +:+ " " +:+ String squote s). unfold single_quoted. simpl. by rewrite !sapp_assoc.
Qed.

Lemma tokenize_render ws : ws ≠ [] → Forall quotable ws → tokenize (render_words ws) = ws.
Proof. intros Hne Hws. unfold tokenize. by rewrite render_words_trim, token_walk_words. Qed.

(** A command word the segment does not look through. *)
Definition plain_head (ws : list string) : Prop :=
  match ws with
  | [] => False
  | w :: _ => ShellSegment.ASSIGNMENT w = None ∧ str_includes ["env"; "sudo"; "/usr/bin/env"] w = false
  end.

Lemma splitSegments_render cmds :
  Forall (λ ws, ws ≠ [] ∧ Forall quotable ws) cmds → splitSegments (render cmds) = map render_words cmds.
Proof.
  intros H. destruct (decide (cmds = [])) as [->|Hne]; [done|].
  unfold splitSegments. rewrite split_walk_render by done. apply bfilter_all.
  intros x (ws & -> & Hws)%list_elem_of_fmap. rewrite Forall_forall in H.
  destruct (H ws Hws) as [Hn _]. rewrite render_words_trim by done.
  by destruct (render_words_head ws Hn) as [r ->].
Qed.

(** Quoting is undone exactly: a line built from any words without a single quote in
    them, each word single-quoted, the commands separated by semicolons, parses back to
    those commands, even when the words hold separators, spaces, double quotes or
    backslashes. *)
Theorem parse_render cmds :
  Forall (λ ws, Forall quotable ws ∧ plain_head ws) cmds →
  map ShellSegment.tokens (ShellCommand.segments (ShellCommand.parse (render cmds))) = cmds
  ∧ ShellCommand.assignments (ShellCommand.parse (render cmds)) = ∅.
Proof.
  intros H.
  assert (∀ ws, Forall quotable ws ∧ plain_head ws →
    ShellSegment.of_ (render_words ws) = ShellSegment.mkSegment ws ∅) as Hof.
  { intros ws [Hq Hp]. unfold ShellSegment.of_.
    assert (ws ≠ []) as Hne by by destruct ws. rewrite tokenize_render by done.
    destruct ws as [|w ws]; [done|]. destruct Hp as [H1 H2]. cbn [ShellSegment.unwrap]. by rewrite H1, H2. }
  assert (ShellCommand.segments (ShellCommand.parse (render cmds)) = map (λ ws, ShellSegment.mkSegment ws ∅) cmds) as E.
  { unfold ShellCommand.parse. cbn [ShellCommand.segments]. rewrite splitSegments_render.
    2: { eapply Forall_impl; [exact H|]. intros ws [? Hp]. split; [by destruct ws|done]. }
    clear -H Hof. induction H as [|ws cmds Hws Hc IH]; [done|].
    cbn [map]. rewrite Hof by done. cbn [bfilter ShellSegment.tokens].
    destruct Hws as [_ Hp]. destruct ws; [done|]. cbn [length]. simpl Nat.ltb. cbv iota. by f_equal. }
  split.
  - rewrite E, map_map. apply map_id.
  - unfold ShellCommand.assignments. rewrite E. clear. induction cmds as [|ws cmds IH]; [done|].
    cbn [map fold_left ShellSegment.assignments]. by rewrite (left_id_L ∅ (∪)).
Qed.

Lemma parse_render_witness :
  let cmds := [["git"; "commit"; "-m"; "a; b && c"]; ["rm"; "-rf"; "my dir"]] in
  map ShellSegment.tokens (ShellCommand.segments (ShellCommand.parse (render cmds))) = cmds.
Proof.
  intros cmds. apply parse_render. repeat constructor; try done.
Defined.
