(* ===== verification/ToolCall.v ===== *)
(** * Tool calls (src/domain/entities/ToolCall.ts)

    What a tool invocation does, which command it runs and which paths it names. *)

From S2P Require Import Prelude JsString NodePath Paths Values SensitivePaths Shell.

Module ToolCall.

(** [input] maps a key to its string, or to [None] when its value is not a string. *)
Record ToolCall := mkCall { tool : string; input : gmap string (option string); context : PathContext }.

Definition PATH_KEYS : list string := ["file_path"; "path"; "filePath"; "notebook_path"; "target_file"].
Definition READ_TOOLS : list string := ["Read"; "Grep"; "Glob"; "NotebookRead"; "LS"].
Definition WRITE_TOOLS : list string := ["Write"; "Edit"; "MultiEdit"; "NotebookEdit"; "str_replace_editor"].

Definition isShell (c : ToolCall) : bool :=
  (tool c =? "Bash")%string || (tool c =? "Shell")%string || (tool c =? "run_terminal_cmd")%string.
Definition isMcp (c : ToolCall) : bool := startsWith (tool c) "mcp__".

Definition access (c : ToolCall) : Access :=
  if str_includes READ_TOOLS (tool c) then read
  else if str_includes WRITE_TOOLS (tool c) then write
  else write.

(** [this.input[key]] when it is a string. *)
Definition string_input (c : ToolCall) (key : string) : option string :=
  match input c !! key with Some (Some v) => Some v | _ => None end.

Definition command (c : ToolCall) : option ShellCommand :=
  if negb (isShell c) then None else ShellCommand.parse <$> string_input c "command".

(** [found.add(value)] on a set that remembers the order of insertion. *)
Definition set_add (found : list string) (v : string) : list string :=
  if str_includes found v then found else found ++ [v].

Definition expand (c : ToolCall) (raw : string) : result AbsolutePath :=
  if startsWith raw "~" then AbsolutePath.fromUserPath raw (home (context c))
  else if startsWith raw "/" then AbsolutePath.of_ raw
  else AbsolutePath.joinp (workspace (context c)) [raw].

(** A path that cannot be used is skipped. *)
Definition collect (c : ToolCall) (found : list string) (raw : string) : list string :=
  match expand c raw with
  | Ok p => set_add found (AbsolutePath.value p)
  | Err _ => found
  end.

(** The shell arguments that look like paths. *)
Definition path_tokens (s : ShellSegment) : list string :=
  bfilter (λ t, negb (startsWith t "-") && (includes t "/" || startsWith t "~")) (ShellSegment.args s).

(** Everything the call names, in the order the sources collect it. *)
Definition candidates (c : ToolCall) : list string :=
  omap (string_input c) PATH_KEYS
  ++ match command c with
     | Some cmd => concat (map path_tokens (ShellCommand.segments cmd))
     | None => []
     end.

Definition paths (c : ToolCall) : result (list AbsolutePath) :=
  rmapM AbsolutePath.of_ (fold_left (collect c) (candidates c) []).

Definition toString (c : ToolCall) : string :=
  match command c with None => tool c | Some cmd => tool c +:+ ": " +:+ ShellCommand.raw cmd end.

(** ** Properties *)

Lemma elem_of_set_add found v w : w ∈ set_add found v ↔ w = v ∨ w ∈ found.
Proof.
  unfold set_add. destruct (str_includes found v) eqn:E.
  - apply str_includes_true in E. set_solver.
  - set_solver.
Qed.

Lemma elem_of_collected c l found w :
  w ∈ fold_left (collect c) l found ↔
  w ∈ found ∨ ∃ raw p, raw ∈ l ∧ expand c raw = Ok p ∧ w = AbsolutePath.value p.
Proof.
  revert found. induction l as [|raw l IH]; intros found; simpl; [set_solver|].
  rewrite IH. unfold collect at 1. destruct (expand c raw) as [p|e] eqn:E.
  - rewrite elem_of_set_add. split.
    + intros [[->|?]|(r & q & ? & ? & ->)]; [right; exists raw, p|by left|right; exists r, q]; set_solver.
    + intros [?|(r & q & [->|?]%elem_of_cons & Hq & ->)]; [by left; right|left; left; congruence|].
      right. by exists r, q.
  - split.
    + intros [?|(r & q & ? & ? & ->)]; [by left|right; exists r, q; set_solver].
    + intros [?|(r & q & [->|?]%elem_of_cons & Hq & ->)]; [by left|congruence|right; by exists r, q].
Qed.

(** The paths of a call, whatever the order: the reparsed expansions of its candidates. *)
Lemma elem_of_paths c ps p : paths c = Ok ps →
  p ∈ ps ↔ ∃ raw q, raw ∈ candidates c ∧ expand c raw = Ok q ∧ AbsolutePath.of_ (AbsolutePath.value q) = Ok p.
Proof.
  unfold paths. intros H%rmapM_Ok. split.
  - intros [i Hi]%list_elem_of_lookup_1. destruct (Forall2_lookup_r _ _ _ _ _ H Hi) as (v & Hv & Hp).
    apply list_elem_of_lookup_2, elem_of_collected in Hv as [?|(raw & q & ? & ? & ->)]; [set_solver|].
    by exists raw, q.
  - intros (raw & q & Hr & Hq & Hp).
    assert (AbsolutePath.value q ∈ fold_left (collect c) (candidates c) []) as Hin.
    { apply elem_of_collected. right. by exists raw, q. }
    apply list_elem_of_lookup_1 in Hin as [i Hi].
    destruct (Forall2_lookup_l _ _ _ _ _ H Hi) as (p' & Hp' & E).
    assert (p' = p) as -> by congruence.
    by eapply list_elem_of_lookup_2.
Qed.

End ToolCall.
Abbreviation ToolCall := ToolCall.ToolCall.

Section properties.
Import ToolCall.

(** A call names every path it was given: a string under one of the path keys, or a
    shell argument that looks like a path, whose expansion is a well-formed path that
    reads back as itself, is among the paths of the call, for an absolute path, one
    relative to the workspace and one below the home directory alike. *)
Theorem paths_complete c ps raw p :
  paths c = Ok ps →
  ((∃ key, key ∈ PATH_KEYS ∧ input c !! key = Some (Some raw))
   ∨ ∃ cmd s, command c = Some cmd ∧ s ∈ ShellCommand.segments cmd ∧ raw ∈ ShellSegment.args s
       ∧ startsWith raw "-" = false ∧ (includes raw "/" = true ∨ startsWith raw "~" = true)) →
  expand c raw = Ok p → AbsolutePath.of_ (AbsolutePath.value p) = Ok p →
  p ∈ ps.
Proof.
  intros Hps Hraw He Hp. apply (elem_of_paths c ps p Hps). exists raw, p. split; [|done].
  unfold candidates. apply elem_of_app.
  destruct Hraw as [(key & Hk & Hi)|(cmd & s & Hc & Hs & Ha & Hd & Hl)].
  - left. apply list_elem_of_omap. exists key. split; [done|]. unfold string_input. by rewrite Hi.
  - right. rewrite Hc. apply list_elem_of_In, in_concat. exists (path_tokens s).
    rewrite <-!list_elem_of_In. split; [by apply list_elem_of_fmap_2|].
    unfold path_tokens. rewrite elem_of_bfilter, Hd. split; [done|]. simpl.
    by destruct Hl as [->| ->]; rewrite ?orb_true_r.
Qed.

Definition demo_context : PathContext :=
  mkContext (AbsolutePath.posix_path ["home"; "u"]) (AbsolutePath.posix_path ["home"; "u"; "w"]) Platform.Linux.
Definition bash (text : string) : ToolCall :=
  mkCall "Bash" {["command" := Some text]} demo_context.

Lemma paths_complete_witness :
  match paths (bash "echo hi && cat ~/.ssh/id_rsa") with
  | Ok ps => AbsolutePath.posix_path ["home"; "u"; ".ssh"; "id_rsa"] ∈ ps
  | Err _ => False
  end.
Proof.
  destruct (paths (bash "echo hi && cat ~/.ssh/id_rsa")) as [ps|e] eqn:E; [|by vm_compute in E].
  apply (paths_complete (bash "echo hi && cat ~/.ssh/id_rsa") ps "~/.ssh/id_rsa"); [exact E| |reflexivity..].
  right. exists (ShellCommand.parse "echo hi && cat ~/.ssh/id_rsa"), (ShellSegment.mkSegment ["cat"; "~/.ssh/id_rsa"] ∅).
  split; [vm_compute; reflexivity|].
  split; [apply (list_elem_of_lookup_2 _ 1); vm_compute; reflexivity|]. split; [by left|]. split; [done|]. by left.
Defined.

(** Collecting the paths can fail outright: an argument whose normal form is a text
    the path constructor refuses survives the guarded expansion and throws when the set
    is read back, whatever else the call names. *)
Theorem paths_can_throw :
  (∃ q, expand (bash "cat /a/../??/x") "/a/../??/x" = Ok q)
  ∧ ∃ e, paths (bash "cat ~/.ssh/id_rsa /a/../??/x") = Err e.
Proof. split; eexists; vm_compute; reflexivity. Qed.
End properties.
