(* ===== verification/Regex.v ===== *)
(** * Regular expressions

    The part of ECMAScript's regular expressions the rules use with [test]: characters
    and classes, sequence, alternation, repetition, the anchors of the text
    and tests of a position (the word boundary, the start of a line). [test] asks whether a match exists, so the language of the
    expression is all that matters: [rmatch] states it, [ends] computes it. *)

From S2P Require Import Prelude JsString.

Module Regex.

Inductive regex :=
| Eps
| Chars (p : ascii → bool)
| Seq (a b : regex)
| Alt (a b : regex)
| Star (a : regex)
| Bol
| Eol
| Zero (p : string → nat → bool).

(** [rmatch t r i j]: [r] matches [t] from position [i] up to position [j]. *)
Inductive rmatch (t : string) : regex → nat → nat → Prop :=
| m_eps i : rmatch t Eps i i
| m_chars p i c : String.get i t = Some c → p c = true → rmatch t (Chars p) i (S i)
| m_seq a b i j k : rmatch t a i j → rmatch t b j k → rmatch t (Seq a b) i k
| m_alt_l a b i j : rmatch t a i j → rmatch t (Alt a b) i j
| m_alt_r a b i j : rmatch t b i j → rmatch t (Alt a b) i j
| m_star_done a i : rmatch t (Star a) i i
| m_star_step a i j k : rmatch t a i j → rmatch t (Star a) j k → rmatch t (Star a) i k
| m_bol : rmatch t Bol 0 0
| m_eol : rmatch t Eol (slen t) (slen t)
| m_zero p i : p t i = true → rmatch t (Zero p) i i.

(** ** The matcher *)

(** Iterations that consume nothing add nothing, so each one may be asked to advance:
    the length of the text is fuel enough. *)
Fixpoint star_ends (step : nat → list nat) (fuel i : nat) : list nat :=
  i :: match fuel with
       | O => []
       | S f => concat (map (star_ends step f) (bfilter (λ j, i <? j) (step i)))
       end.

Fixpoint ends (t : string) (r : regex) (i : nat) : list nat :=
  match r with
  | Eps => [i]
  | Chars p => match String.get i t with
               | Some c => if p c then [S i] else []
               | None => []
               end
  | Seq a b => concat (map (ends t b) (ends t a i))
  | Alt a b => ends t a i ++ ends t b i
  | Star a => star_ends (ends t a) (slen t) i
  | Bol => if i =? 0 then [i] else []
  | Eol => if i =? slen t then [i] else []
  | Zero p => if p t i then [i] else []
  end.

(** [regex.test(text)]. *)
Definition test (r : regex) (t : string) : bool :=
  some (λ i, negb (length (ends t r i) =? 0)) (seq 0 (S (slen t))).

(** ** Building blocks *)

Definition word_at (t : string) (i : nat) : bool :=
  match String.get i t with Some c => is_word c | None => false end.
(** Whether a boundary lies between the characters [i - 1] and [i]. *)
Definition boundary (t : string) (i : nat) : bool :=
  negb (Bool.eqb (match i with O => false | S k => word_at t k end) (word_at t i)).

(** [\b] *)
Definition WordBoundary : regex := Zero boundary.
(** [^] under the [m] flag: the start, or after a line terminator. *)
Definition is_terminator (c : ascii) : bool := Ascii.eqb c newline || (code c =? 13).
Definition line_start (t : string) (i : nat) : bool :=
  match i with
  | O => true
  | S k => match String.get k t with Some c => is_terminator c | None => false end
  end.
Definition LineStart : regex := Zero line_start.
(** [.] *)
Definition Dot : regex := Chars (λ c, negb (is_terminator c)).

Definition char (c : ascii) : regex := Chars (Ascii.eqb c).
(** One character under the [i] flag. *)
Definition char_i (c : ascii) : regex := Chars (λ x, Ascii.eqb (lower c) (lower x)).
Fixpoint lit (s : string) : regex :=
  match s with "" => Eps | String c r => Seq (char c) (lit r) end.
Fixpoint lit_i (s : string) : regex :=
  match s with "" => Eps | String c r => Seq (char_i c) (lit_i r) end.
Definition opt (r : regex) : regex := Alt r Eps.
Definition plus (r : regex) : regex := Seq r (Star r).
Fixpoint seqs (l : list regex) : regex :=
  match l with [] => Eps | [r] => r | r :: l => Seq r (seqs l) end.
Fixpoint alts (l : list regex) : regex :=
  match l with [] => Chars (λ _, false) | [r] => r | r :: l => Alt r (alts l) end.

(** ** The matcher decides the language *)

Lemma get_lt t i c : String.get i t = Some c → i < slen t.
Proof.
  revert i. induction t as [|d t IH]; intros [|i] H; simpl in *; [done|done|lia|].
  apply IH in H. lia.
Qed.

Lemma rmatch_le t r i j : rmatch t r i j → i ≤ j.
Proof. induction 1; lia. Qed.

Lemma rmatch_bound t r i j : rmatch t r i j → i ≤ slen t → j ≤ slen t.
Proof. induction 1; try lia. intros _. by apply get_lt in H. Qed.

Lemma elem_of_concat_map {A B} (f : A → list B) l y :
  y ∈ concat (map f l) ↔ ∃ x, x ∈ l ∧ y ∈ f x.
Proof.
  rewrite list_elem_of_In, in_concat. setoid_rewrite in_map_iff. setoid_rewrite list_elem_of_In.
  naive_solver.
Qed.

Lemma star_ends_sound t a (step : nat → list nat) fuel i j :
  (∀ x y, x ≤ slen t → y ∈ step x → rmatch t a x y) → i ≤ slen t →
  j ∈ star_ends step fuel i → rmatch t (Star a) i j.
Proof.
  intros Hs. revert i. induction fuel as [|f IH]; intros i Hi; simpl; rewrite elem_of_cons.
  - intros [->|[]%elem_of_nil]. constructor.
  - intros [->|(k & [Hk _]%elem_of_bfilter & Hj)%elem_of_concat_map]; [constructor|].
    apply Hs in Hk; [|done]. eapply m_star_step; [exact Hk|]. apply IH; [|done].
    by eapply rmatch_bound.
Qed.

Lemma star_ends_complete t a (step : nat → list nat) fuel i j :
  (∀ x y, x ≤ slen t → rmatch t a x y → y ∈ step x) → rmatch t (Star a) i j → i ≤ slen t →
  slen t - i ≤ fuel → j ∈ star_ends step fuel i.
Proof.
  intros Hs Hm. remember (Star a) as r eqn:Er. revert fuel.
  induction Hm as [| | | | |a' i|a' i j k H1 _ H2 IH2| | |]; intros fuel Hi Hf; try discriminate.
  - destruct fuel; by left.
  - injection Er as ->. pose proof (rmatch_le _ _ _ _ H1) as Hij.
    pose proof (rmatch_bound _ _ _ _ H1 Hi) as Hj.
    destruct (decide (i = j)) as [->|Hn]; [by apply IH2|].
    destruct fuel as [|f]; [lia|]. simpl. right. apply elem_of_concat_map. exists j. split.
    + apply elem_of_bfilter. split; [by apply Hs|]. apply Nat.ltb_lt. lia.
    + apply IH2; [done|lia..].
Qed.

Lemma ends_rmatch t r i j : i ≤ slen t → j ∈ ends t r i ↔ rmatch t r i j.
Proof.
  revert i j. induction r as [|p|a IHa b IHb|a IHa b IHb|a IHa| | |p]; intros i j Hi; simpl.
  - rewrite list_elem_of_singleton. split; [intros ->; constructor|by inversion 1].
  - split.
    + destruct (String.get i t) as [c|] eqn:E; [|set_solver]. destruct (p c) eqn:Ep; [|set_solver].
      intros ->%list_elem_of_singleton. by econstructor.
    + inversion 1 as [|p' i' c Hg Hp| | | | | | | |]; subst. rewrite Hg, Hp. by left.
  - rewrite elem_of_concat_map. split.
    + intros (k & Hk%IHa & Hj); [|done]. econstructor; [exact Hk|]. apply IHb; [|done].
      by eapply rmatch_bound.
    + inversion 1 as [| |a' b' i' k j' H1 H2| | | | | | |]; subst. exists k. split; [by apply IHa|].
      apply IHb; [|done]. by eapply rmatch_bound.
  - rewrite elem_of_app, IHa, IHb by done. split; [intros []; by constructor|].
    inversion 1; subst; auto.
  - split.
    + apply star_ends_sound; [|done]. intros x y Hx. by apply IHa.
    + intros Hm. apply (star_ends_complete t a); [|done|done|lia]. intros x y Hx. by apply IHa.
  - destruct (i =? 0) eqn:E; bool_prop.
    + subst. rewrite list_elem_of_singleton. split; [intros ->; constructor|by inversion 1].
    + split; [set_solver|]. inversion 1; subst; lia.
  - destruct (i =? slen t) eqn:E; bool_prop.
    + subst. rewrite list_elem_of_singleton. split; [intros ->; constructor|by inversion 1].
    + split; [set_solver|]. inversion 1; subst; lia.
  - destruct (p t i) eqn:E.
    + rewrite list_elem_of_singleton. split; [intros ->; by constructor|by inversion 1].
    + split; [set_solver|]. inversion 1; subst; congruence.
Qed.

(** The matcher is the language: [test] answers true exactly when the expression matches
    somewhere in the text, nullable repetitions and anchors included. *)
Lemma test_iff_match r t : test r t = true ↔ ∃ i j, i ≤ slen t ∧ rmatch t r i j.
Proof.
  unfold test. rewrite some_true. split.
  - intros (i & Hi%elem_of_seq & Hn). destruct (ends t r i) as [|j l] eqn:E; [done|].
    exists i, j. split; [lia|]. apply ends_rmatch; [lia|]. rewrite E. by left.
  - intros (i & j & Hi & Hm). exists i. split; [apply elem_of_seq; lia|].
    apply ends_rmatch in Hm; [|done]. by destruct (ends t r i); [apply elem_of_nil in Hm|].
Qed.

(** ** Literals *)

Lemma get_app_here (a : string) c b : String.get (slen a) (a +:+ String c b) = Some c.
Proof. by induction a. Qed.

Lemma rmatch_lit w a b : rmatch (a +:+ w +:+ b) (lit w) (slen a) (slen a + slen w).
Proof.
  revert a. induction w as [|c w IH]; intros a; simpl.
  - rewrite Nat.add_0_r. constructor.
  - apply (m_seq _ _ _ _ (S (slen a))).
    + apply m_chars with c; [apply get_app_here|apply Ascii.eqb_refl].
    + specialize (IH (a +:+ str1 c)). rewrite slen_app, sapp_assoc in IH.
      change (slen (str1 c)) with 1 in IH. rewrite Nat.add_1_r in IH.
      by rewrite Nat.add_succ_r.
Qed.

Lemma rmatch_chars_inv t p i j : rmatch t (Chars p) i j → ∃ c, String.get i t = Some c ∧ p c = true ∧ j = S i.
Proof. inversion 1; subst; eauto. Qed.
Lemma rmatch_seq_inv t a b i j : rmatch t (Seq a b) i j → ∃ k, rmatch t a i k ∧ rmatch t b k j.
Proof. inversion 1; subst; eauto. Qed.

Lemma get_split t i c : String.get i t = Some c → ∃ a b, t = a +:+ String c b ∧ slen a = i.
Proof.
  revert i. induction t as [|d t IH]; intros [|i] H; simpl in *; try done.
  - injection H as ->. by exists "", t.
  - destruct (IH i H) as (a & b & -> & <-). by exists (String d a), b.
Qed.

Lemma rmatch_lit_inv w t i j : rmatch t (lit w) i j → i ≤ slen t →
  ∃ a b, t = a +:+ w +:+ b ∧ slen a = i.
Proof.
  revert i. induction w as [|c w IH]; intros i Hm Hi; simpl in *.
  - exists (stake i t), (sdrop i t). rewrite slen_stake. split; [by rewrite stake_sdrop|lia].
  - apply rmatch_seq_inv in Hm as (k & (c' & Hg & Hc & ->)%rmatch_chars_inv & Hm).
    apply Ascii.eqb_eq in Hc as <-. pose proof (get_lt _ _ _ Hg).
    apply IH in Hm as (a & b & -> & Ha); [|lia].
    destruct (get_split _ _ _ Hg) as (a' & b' & E & Ha').
    exists a', b. split; [|done]. rewrite E in *. f_equal. simpl. f_equal.
    assert (a' +:+ String c b' = (a' +:+ str1 c) +:+ b') as E2 by by rewrite sapp_assoc.
    rewrite E2 in E. symmetry in E.
    apply sapp_length_inj in E as [_ ->]; [done|]. rewrite slen_app, Ha', Ha. simpl. lia.
Qed.

(** A literal expression is a substring test. *)
Lemma test_lit w t : test (lit w) t = includes t w.
Proof.
  apply eq_true_iff_eq. rewrite test_iff_match, includes_true. split.
  - intros (i & j & Hi & Hm). destruct (rmatch_lit_inv _ _ _ _ Hm Hi) as (a & b & -> & _). eauto.
  - intros (a & b & ->). exists (slen a), (slen a + slen w). split; [rewrite !slen_app; lia|apply rmatch_lit].
Qed.

(** ** The [i] flag *)

(** An expression that does not tell the cases of a letter apart. *)
Fixpoint folded (r : regex) : Prop :=
  match r with
  | Chars p => ∀ c, p (lower c) = p c
  | Seq a b | Alt a b => folded a ∧ folded b
  | Star a => folded a
  | Zero _ => False
  | Eps | Bol | Eol => True
  end.

Lemma get_smap f t i : String.get i (smap f t) = f <$> String.get i t.
Proof. revert i. induction t as [|c t IH]; intros [|i]; simpl; [done..|apply IH]. Qed.

Lemma ends_lower t r i : folded r → ends (toLowerCase t) r i = ends t r i.
Proof.
  unfold toLowerCase. revert i. induction r as [|p|a IHa b IHb|a IHa b IHb|a IHa| | |]; intros i; simpl.
  - done.
  - intros Hp. rewrite get_smap. destruct (String.get i t) as [c|]; [|done]. cbn. by rewrite Hp.
  - intros [Ha Hb]. rewrite IHa by done. f_equal. apply map_ext. intros k. by apply IHb.
  - intros [Ha Hb]. by rewrite IHa, IHb.
  - intros Ha. rewrite slen_smap. generalize (slen t). intros n. revert i. induction n as [|n IH]; intros i; [done|].
    cbn [star_ends]. do 2 f_equal. rewrite IHa by done. apply map_ext. apply IH.
  - done.
  - by rewrite slen_smap.
  - done.
Qed.
Lemma test_lower r t : folded r → test r (toLowerCase t) = test r t.
Proof.
  intros Hr. unfold test. assert (slen (toLowerCase t) = slen t) as -> by apply slen_smap.
  induction (seq 0 (S (slen t))) as [|i l IH]; [done|]. simpl. by rewrite ends_lower, IH.
Qed.

Lemma folded_char_i c : folded (char_i c).
Proof. intros x. by rewrite lower_idem. Qed.
Lemma folded_lit_i w : folded (lit_i w).
Proof. induction w as [|c w IH]; simpl; [done|]. split; [|done]. intros x. by rewrite lower_idem. Qed.
Lemma folded_dot : folded Dot.
Proof. intros c. by destruct c as [[] [] [] [] [] [] [] []]. Qed.

(** ** Building matches *)

(** [r] matches the word [u] wherever it stands. *)
Definition spells (r : regex) (u : string) : Prop := ∀ a b, rmatch (a +:+ u +:+ b) r (slen a) (slen a + slen u).

Lemma spells_seq r1 r2 u1 u2 : spells r1 u1 → spells r2 u2 → spells (Seq r1 r2) (u1 +:+ u2).
Proof.
  intros H1 H2 a b. apply (m_seq _ _ _ _ (slen a + slen u1)).
  - rewrite sapp_assoc. apply H1.
  - specialize (H2 (a +:+ u1) b). rewrite slen_app, !sapp_assoc in H2. rewrite slen_app, !sapp_assoc.
    by rewrite Nat.add_assoc.
Qed.
Lemma spells_alt_l r1 r2 u : spells r1 u → spells (Alt r1 r2) u.
Proof. intros H a b. by apply m_alt_l. Qed.
Lemma spells_alt_r r1 r2 u : spells r2 u → spells (Alt r1 r2) u.
Proof. intros H a b. by apply m_alt_r. Qed.
Lemma spells_lit w : spells (lit w) w.
Proof. intros a b. apply rmatch_lit. Qed.
Lemma spells_eps : spells Eps "".
Proof. intros a b. rewrite Nat.add_0_r. constructor. Qed.
Lemma spells_chars p c : p c = true → spells (Chars p) (str1 c).
Proof.
  intros Hp a b. rewrite Nat.add_1_r. apply m_chars with c; [apply get_app_here|done].
Qed.
Lemma spells_lit_i w u : toLowerCase u = toLowerCase w → spells (lit_i w) u.
Proof.
  revert u. induction w as [|c w IH]; intros [|d u] E; try discriminate; [apply spells_eps|].
  injection E as Ed Eu. change (String d u) with (str1 d +:+ u). apply spells_seq; [|by apply IH].
  apply spells_chars. rewrite Ed. apply Ascii.eqb_refl.
Qed.
Lemma spells_star p u : sforall p u = true → spells (Star (Chars p)) u.
Proof.
  intros Hu a b. revert a. induction u as [|c u IH]; intros a; simpl.
  - rewrite Nat.add_0_r. constructor.
  - simpl in Hu. bool_prop. apply (m_star_step _ _ _ (S (slen a))).
    + apply m_chars with c; [apply get_app_here|done].
    + specialize (IH H0 (a +:+ str1 c)). rewrite slen_app, sapp_assoc in IH. change (slen (str1 c)) with 1 in IH.
      rewrite Nat.add_1_r in IH. by rewrite Nat.add_succ_r.
Qed.
Lemma spells_plus p c u : p c = true → sforall p u = true → spells (plus (Chars p)) (String c u).
Proof.
  intros Hc Hu. change (String c u) with (str1 c +:+ u). apply spells_seq; [by apply spells_chars|by apply spells_star].
Qed.

(** An anchored word at the start, and one that is the whole text. *)
Lemma test_bol r u b : spells r u → test (Seq Bol r) (u +:+ b) = true.
Proof.
  intros Hr. apply test_iff_match. exists 0, (slen u). split; [lia|]. eapply m_seq; [constructor|].
  apply (Hr "" b).
Qed.
(** [r] matches the word [u] at the end of a text. *)
Definition closes (r : regex) (u : string) : Prop := ∀ a, rmatch (a +:+ u) r (slen a) (slen (a +:+ u)).
Lemma closes_eol : closes Eol "".
Proof. intros a. rewrite sapp_nil_r. constructor. Qed.
Lemma closes_seq r1 r2 u1 u2 : spells r1 u1 → closes r2 u2 → closes (Seq r1 r2) (u1 +:+ u2).
Proof.
  intros H1 H2 a. eapply m_seq; [apply H1|]. rewrite <-sapp_assoc, <-slen_app. apply H2.
Qed.
Lemma test_whole r u : closes r u → test (Seq Bol r) u = true.
Proof.
  intros Hr. apply test_iff_match. exists 0, (slen u). split; [lia|]. eapply m_seq; [constructor|]. apply (Hr "").
Qed.
End Regex.
