(* ===== verification/Rules.v ===== *)
(** * Rules (src/domain/rules/Rule.ts, RuleRegistry.ts, src/domain/services/ScanEngine.ts)

    What a rule is, the registry that honours the switches, and the engine that applies
    the enabled rules to a batch of subjects. *)

From S2P Require Import Prelude JsString Values Entities.

Module Rule.

(** What a rule says of a hit; absent fields fall back to the rule's own. *)
Record FindingDraft := mkDraft {
  draft_title : string;
  draft_detail : string;
  draft_subject : string;
  draft_contentHash : option ContentHash;
  draft_location : option SourceLocation;
  draft_severity : option Severity;
  draft_disposition : option Disposition
}.

(** A rule over the subjects of type [T]; looking at a subject may throw. *)
Record Rule (T : Type) := mkRule {
  id : RuleId;
  severity : Severity;
  defaultDisposition : Disposition;
  title : string;
  remediation : string;
  appliesTo : T → result bool;
  inspect : T → result (list Finding)
}.
Arguments mkRule {T} _ _ _ _ _ _ _.
Arguments id {T} _.
Arguments severity {T} _.
Arguments defaultDisposition {T} _.
Arguments title {T} _.
Arguments remediation {T} _.
Arguments appliesTo {T} _ _.
Arguments inspect {T} _ _.

Definition evaluate {T} (r : Rule T) (subject : T) : result (list Finding) :=
  let! applies := appliesTo r subject in
  if negb applies then Ok [] else inspect r subject.

(** The fields [finding] takes from the rule it is called on. *)
Record Header := mkHeader {
  h_id : RuleId; h_severity : Severity; h_disposition : Disposition; h_title : string; h_remediation : string
}.
Definition or_else {A} (o : option A) (a : A) : A := match o with Some x => x | None => a end.

Definition finding (h : Header) (d : FindingDraft) : Finding :=
  Finding.mkFinding (h_id h) (or_else (draft_severity d) (h_severity h))
    (or_else (draft_disposition d) (h_disposition h)) (draft_title d) (draft_detail d)
    (h_remediation h) (draft_subject d) (draft_contentHash d) (draft_location d).

(** A draft with no fields of its own beyond the texts. *)
Definition plain_draft (t d s : string) : FindingDraft := mkDraft t d s None None None None.

(** A rule from its header and its two methods. *)
Definition of_header {T} (h : Header) (applies : T → result bool) (look : T → result (list Finding)) : Rule T :=
  mkRule (h_id h) (h_severity h) (h_disposition h) (h_title h) (h_remediation h) applies look.
End Rule.
Abbreviation Rule := Rule.Rule.

(** ** RuleRegistry *)

Module RuleRegistry.
Section registry.
Context {T : Type}.

Record RuleRegistry := mkRegistry { rules : list (Rule T) }.
Abbreviation RuleSwitches := (string → bool).
Definition ALL_RULES_ENABLED : RuleSwitches := λ _, true.

Fixpoint check_ids (seen : gset string) (rs : list (Rule T)) : result unit :=
  match rs with
  | [] => Ok tt
  | r :: rest =>
      let i := RuleId.value (Rule.id r) in
      if bool_decide (i ∈ seen) then throw ("Duplicate rule id: " +:+ i)
      else check_ids ({[i]} ∪ seen) rest
  end.

Definition of_ (rs : list (Rule T)) : result RuleRegistry :=
  let! _ := check_ids ∅ rs in Ok (mkRegistry rs).

(** A rule that blocks is enabled whatever the switches say. *)
Definition enabled (reg : RuleRegistry) (switches : RuleSwitches) : list (Rule T) :=
  bfilter (λ r, Disposition.stops (Rule.defaultDisposition r) || switches (RuleId.value (Rule.id r)))
    (rules reg).

Definition byId (reg : RuleRegistry) (i : string) : option (Rule T) :=
  find (λ r, (RuleId.value (Rule.id r) =? i)%string) (rules reg).

Lemma elem_of_enabled reg switches r :
  r ∈ enabled reg switches ↔
  r ∈ rules reg ∧ (Rule.defaultDisposition r = Disposition.BLOCK ∨ switches (RuleId.value (Rule.id r)) = true).
Proof.
  unfold enabled. rewrite elem_of_bfilter, orb_true_iff.
  destruct (Rule.defaultDisposition r); simpl; naive_solver.
Qed.
End registry.
Arguments RuleRegistry : clear implicits.
End RuleRegistry.
Abbreviation RuleRegistry := RuleRegistry.RuleRegistry.

(** ** ScanEngine *)

Module ScanEngine.
Section engine.
Context {T : Type} (reg : RuleRegistry T).

(** The two loops: for each subject, the findings of each enabled rule. *)
Definition scan (subjects : list T) (switches : string → bool) : result ScanReport :=
  let rules := RuleRegistry.enabled reg switches in
  let! perSubject := rmapM (λ s, rmap (@concat Finding) (rmapM (λ r, Rule.evaluate r s) rules)) subjects in
  Ok (ScanReport.of_ (concat perSubject)).

Lemma elem_of_rmapM_concat {A} (f : A → result (list Finding)) l ls x :
  rmapM f l = Ok ls → x ∈ concat ls ↔ ∃ a fs, a ∈ l ∧ f a = Ok fs ∧ x ∈ fs.
Proof.
  intros H%rmapM_Ok. induction H as [|a fs l ls Hf H IH]; simpl; [set_solver|].
  rewrite elem_of_app, IH. split.
  - intros [Hx|(b & gs & ? & ? & ?)]; [exists a, fs|exists b, gs]; set_solver.
  - intros (b & gs & [->|?]%elem_of_cons & ? & ?); [left; congruence|right; by exists b, gs].
Qed.

Lemma elem_of_scan subjects switches report f : scan subjects switches = Ok report →
  f ∈ ScanReport.findings report ↔
  ∃ s r fs, s ∈ subjects ∧ r ∈ RuleRegistry.enabled reg switches
    ∧ Rule.evaluate r s = Ok fs ∧ f ∈ fs.
Proof.
  unfold scan. intros H. res_inv. unfold ScanReport.of_. cbn [ScanReport.findings].
  rewrite sort_by_perm, (elem_of_rmapM_concat _ _ _ _ E). split.
  - intros (s & fs & Hs & Hf & Hin). res_inv.
    apply (elem_of_rmapM_concat _ _ _ _ E0) in Hin as (r & gs & ? & ? & ?). by exists s, r, gs.
  - intros (s & r & fs & Hs & Hr & Hf & Hin).
    apply rmapM_Ok in E. apply list_elem_of_lookup_1 in Hs as [i Hi].
    destruct (Forall2_lookup_l _ _ _ _ _ E Hi) as (gs & _ & Hg).
    exists s, gs. split; [by eapply list_elem_of_lookup_2|]. split; [done|]. res_inv.
    apply (elem_of_rmapM_concat _ _ _ _ E0). by exists r, fs.
Qed.

(** A scan throws exactly when an enabled rule throws on a subject. *)
Lemma scan_total subjects switches :
  (∀ s r, s ∈ subjects → r ∈ RuleRegistry.enabled reg switches → ∃ fs, Rule.evaluate r s = Ok fs) →
  ∃ report, scan subjects switches = Ok report.
Proof.
  intros H. unfold scan. destruct (rmapM _ subjects) as [l|e] eqn:E; [by eexists|]. exfalso. revert E.
  apply rmapM_not_Err. intros s Hs.
  destruct (rmapM (λ r, Rule.evaluate r s) (RuleRegistry.enabled reg switches)) as [l'|e'] eqn:E'; [by eexists|].
  exfalso. revert E'. apply rmapM_not_Err. intros r Hr. by apply H.
Qed.
End engine.

(** The switches can narrow noise but never remove a refusal: the findings of a
    scan are exactly those of the rules that block by default, which no switch can turn
    off, and of the other rules switched on, on each subject. *)
Theorem scan_findings {T} (reg : RuleRegistry T) subjects switches report f :
  scan reg subjects switches = Ok report →
  f ∈ ScanReport.findings report ↔
  ∃ s r fs, s ∈ subjects ∧ r ∈ RuleRegistry.rules reg
    ∧ (Rule.defaultDisposition r = Disposition.BLOCK ∨ switches (RuleId.value (Rule.id r)) = true)
    ∧ Rule.evaluate r s = Ok fs ∧ f ∈ fs.
Proof.
  intros H. rewrite (elem_of_scan reg _ _ _ _ H). setoid_rewrite RuleRegistry.elem_of_enabled. naive_solver.
Qed.

Definition demo_finding : Finding :=
  Finding.mkFinding (RuleId.mkRuleId "AG-B001" "B" 1) Severity.HIGH Disposition.BLOCK "t" "d" "r" "s" None None.
Definition demo_rule : Rule nat :=
  Rule.mkRule (RuleId.mkRuleId "AG-B001" "B" 1) Severity.HIGH Disposition.BLOCK "t" "r"
    (λ n, Ok (n =? 1)) (λ _, Ok [demo_finding]).

Lemma scan_findings_witness :
  demo_finding ∈ ScanReport.findings (ScanReport.of_ [demo_finding]).
Proof.
  apply (scan_findings (RuleRegistry.mkRegistry [demo_rule]) [0; 1] (λ _, false)); [reflexivity|].
  exists 1, demo_rule, [demo_finding]. split; [right; by left|]. split; [by left|]. split; [by left|].
  split; [reflexivity|by left].
Defined.
End ScanEngine.
