(* ===== verification/ToolCallRules.v ===== *)
(** * Rules on tool calls (src/domain/rules/toolcall)

    Family B, the refusals, and family A, the irreversible actions: one rule per class of
    the sources, in the order of [blockingRules] and [actionRules]. *)

From S2P Require Import Prelude JsString NodePath Paths Values SensitivePaths Registry Tiers.
From S2P Require Import Entities Shell ToolCall Regex Rules.
Import ToolCall Rule.

Definition rule_id (value category : string) (number : Z) : RuleId := RuleId.mkRuleId value category number.
Definition display (path : AbsolutePath) (call : ToolCall) : string :=
  AbsolutePath.toDisplay path (home (context call)).
Definition isEnvFile (path : AbsolutePath) : bool :=
  (AbsolutePath.basename path =? ".env")%string || startsWith (AbsolutePath.basename path) ".env.".

(** [[...]?.command()]: the findings for the segments a test selects. *)
Definition on_segments (h : Header) (call : ToolCall) (describe : ShellSegment → string)
    (hit : ShellSegment → bool) : list Finding :=
  match command call with
  | None => []
  | Some cmd =>
      map (λ s, finding h (plain_draft (h_title h) (describe s) (ShellSegment.toString s)))
        (bfilter hit (ShellCommand.segments cmd))
  end.

(** The findings for the paths a test selects. *)
Definition on_paths (h : Header) (call : ToolCall) (describe : AbsolutePath → string)
    (hit : AbsolutePath → bool) : result (list Finding) :=
  let! ps := paths call in
  Ok (map (λ p, finding h (plain_draft (h_title h) (describe p) (display p call))) (bfilter hit ps)).

(** ** Family B *)

Module blocking.
Definition blocking_header (value : string) (number : Z) (title remediation : string) : Header :=
  mkHeader (rule_id value "B" number) Severity.CRITICAL Disposition.BLOCK title remediation.

Section rules.
Context (registry : SensitivePathRegistry).

(** AG-B001 *)
Definition B001 : Header := blocking_header "AG-B001" 1
  "Tool call reaches for a protected path"
  "Access to credentials, persistence and shell history is configured by editing ~/.agentkeeper/allowlist.json in a text editor. There is no prompt for it, by design.".

Definition SensitivePathAccessRule : Rule ToolCall :=
  of_header B001
    (λ call, let! ps := paths call in Ok (0 <? length ps))
    (λ call,
      let a := access call in
      let! ps := paths call in
      let decided := map (λ p, (p, AccessTierResolver.decide_ registry p a (context call))) ps in
      let dangerous :=
        bfilter (λ pd, negb (AccessTier.canBeGrantedAtRuntime (AccessDecision.tier pd.2))) decided in
      Ok (map (λ pd,
            let reason := match AccessDecision.explanation pd.2 with
                          | Some e => SensitivePath.rationale e
                          | None => "This path holds credentials or grants persistence."
                          end in
            finding B001
              (plain_draft (h_title B001)
                 (tool call +:+ " would " +:+ access_name a +:+ " " +:+ display pd.1 call +:+ ". " +:+ reason)
                 (display pd.1 call))) dangerous)).

(** AG-B002 *)
Definition B002 : Header := blocking_header "AG-B002" 2
  "Tool call reads an environment file outside the workspace"
  "The current project’s own .env is available. Another project’s is not, and no task in this repository needs it.".
Definition ForeignEnvFileRule : Rule ToolCall :=
  of_header B002
    (λ call, let! ps := paths call in Ok (some isEnvFile ps))
    (λ call,
      on_paths B002 call
        (λ p, tool call +:+ " would read " +:+ display p call +:+ ", which belongs to another project.")
        (λ p, isEnvFile p && negb (AbsolutePath.contains (workspace (context call)) p))).

(** AG-B003. [(^|\/)\.(claude|gemini|cursor|codex|aider)(\.json|\/(settings|mcp)[^/]*\.json)$] *)
Definition AGENT_CONFIG : Regex.regex :=
  Regex.seqs
    [Regex.Alt Regex.Bol (Regex.char slash); Regex.lit ".";
     Regex.alts (map Regex.lit ["claude"; "gemini"; "cursor"; "codex"; "aider"]);
     Regex.Alt (Regex.lit ".json")
       (Regex.seqs [Regex.lit "/"; Regex.alts (map Regex.lit ["settings"; "mcp"]);
                    Regex.Star (Regex.Chars (λ c, negb (Ascii.eqb c slash))); Regex.lit ".json"]);
     Regex.Eol].
Definition B003 : Header := blocking_header "AG-B003" 3
  "Tool call writes agent configuration"
  "Hooks and MCP servers written here run on the next session start. Change agent settings yourself, in your editor.".
Definition AgentConfigWriteRule : Rule ToolCall :=
  of_header B003
    (λ call, Ok (bool_decide (access call = write) || isShell call))
    (λ call,
      on_paths B003 call
        (λ p, tool call +:+ " would write " +:+ display p call +:+ ", which executes on the next start.")
        (λ p, Regex.test AGENT_CONFIG (AbsolutePath.value p))).

(** AG-B004 *)
Definition B004 : Header := blocking_header "AG-B004" 4
  "Tool call changes where git looks for hooks"
  "core.hooksPath makes every git operation run code from a directory of the setter’s choosing. Set it yourself if you need it.".
Definition GitHooksPathRule : Rule ToolCall :=
  of_header B004
    (λ call, Ok (isShell call))
    (λ call,
      Ok (on_segments B004 call
            (λ s, "The command sets core.hooksPath: " +:+ ShellSegment.toString s)
            (λ s, ShellSegment.runs s "git" && str_includes (ShellSegment.tokens s) "config"
                  && some (λ t, includes t "core.hooksPath") (ShellSegment.tokens s)))).

(** AG-B005. [agentkeeper\s+(grants|uninstall|pause)] *)
Definition RECONFIGURES : Regex.regex :=
  Regex.seqs [Regex.lit "agentkeeper"; Regex.plus (Regex.Chars is_space);
              Regex.alts (map Regex.lit ["grants"; "uninstall"; "pause"])].
Definition B005 : Header := blocking_header "AG-B005" 5
  "Tool call modifies agentkeeper itself"
  "Grants are added by editing ~/.agentkeeper/allowlist.json yourself. That gap between asking and receiving is the whole permission model; a tool call cannot close it.".
Definition SelfProtectionRule : Rule ToolCall :=
  of_header B005
    (λ _, Ok true)
    (λ call,
      let! stateDir := AbsolutePath.joinp (home (context call)) [".agentkeeper"] in
      let! findings :=
        on_paths B005 call
          (λ p, tool call +:+ " would modify " +:+ display p call +:+ ".")
          (AbsolutePath.contains stateDir) in
      match command call with
      | Some cmd =>
          if Regex.test RECONFIGURES (ShellCommand.raw cmd)
          then Ok (findings ++
                 [finding B005
                    (plain_draft (h_title B005)
                       ("The command would reconfigure agentkeeper: " +:+ ShellCommand.raw cmd)
                       (ShellCommand.raw cmd))])
          else Ok findings
      | None => Ok findings
      end).

(** AG-B006 *)
Definition B006 : Header := blocking_header "AG-B006" 6
  "Tool call tries to start a command with isolation disabled"
  "AGENTKEEPER_BYPASS exists so *you* can skip the wrapper from your own shell. Reaching it from inside the agent would make the wrapper optional, which is the same as absent.".
Definition BypassEnvironmentRule : Rule ToolCall :=
  of_header B006
    (λ call, Ok (isShell call))
    (λ call,
      match command call with
      | None => Ok []
      | Some cmd =>
          let viaEnvironment := bool_decide (is_Some (ShellCommand.assignments cmd !! "AGENTKEEPER_BYPASS")) in
          let viaText := Regex.test (Regex.lit "AGENTKEEPER_BYPASS") (ShellCommand.raw cmd) in
          if negb viaEnvironment && negb viaText then Ok []
          else Ok [finding B006
                     (plain_draft (h_title B006)
                        ("The command sets AGENTKEEPER_BYPASS: " +:+ ShellCommand.raw cmd)
                        (ShellCommand.raw cmd))]
      end).

Definition blockingRules : list (Rule ToolCall) :=
  [SensitivePathAccessRule; ForeignEnvFileRule; AgentConfigWriteRule; GitHooksPathRule;
   SelfProtectionRule; BypassEnvironmentRule].
End rules.
End blocking.

(** ** Family A *)

Module actions.
Definition action_header (value : string) (number : Z) (sev : Severity) (title remediation : string) : Header :=
  mkHeader (rule_id value "A" number) sev Disposition.ASK title remediation.

(** [ShellActionRule]: a template over the segments of a shell call. *)
Definition shell_action (h : Header) (prefix : string) (matches : ShellSegment → ToolCall → bool) : Rule ToolCall :=
  of_header h
    (λ call, Ok (isShell call && bool_decide (is_Some (command call))))
    (λ call, Ok (on_segments h call (λ s, prefix +:+ ShellSegment.toString s) (λ s, matches s call))).

Definition subcommand_is (s : ShellSegment) (name : string) : bool :=
  match ShellSegment.subcommand s with Some x => (x =? name)%string | None => false end.
Definition isProgram (s : ShellSegment) (name : string) : bool := ShellSegment.runs s name.

Definition PROTECTED_BRANCHES : list string := ["main"; "master"; "release"; "production"].
Definition force_push (s : ShellSegment) : bool :=
  if negb (isProgram s "git") || negb (subcommand_is s "push") then false
  else if negb (ShellSegment.hasFlag s ["--force"; "-f"; "--force-with-lease"]) then false
  else some (λ a, some (includes a) PROTECTED_BRANCHES) (ShellSegment.args s).
Definition ForcePushRule : Rule ToolCall :=
  shell_action
    (action_header "AG-A001" 1 Severity.HIGH "Force push to a protected branch"
       "A force push discards commits on the remote. Confirm the branch and the remote first.")
    "The command force-pushes to a protected branch: " (λ s _, force_push s).

Definition PUBLISH : list (string * string) :=
  [("npm", "publish"); ("pnpm", "publish"); ("yarn", "publish"); ("cargo", "publish");
   ("twine", "upload"); ("gem", "push")].
Definition PublishRule : Rule ToolCall :=
  shell_action
    (action_header "AG-A002" 2 Severity.CRITICAL "Package publication"
       "Publishing puts code under your name onto a registry other people install from. It cannot be undone.")
    "The command publishes a package: "
    (λ s _, some (λ e, isProgram s e.1 && subcommand_is s e.2) PUBLISH).

(** The path an argument names, [None] when it names no single one. *)
Definition resolve (arg : string) (call : ToolCall) : option AbsolutePath :=
  if startsWith arg "~" then catch_null (AbsolutePath.fromUserPath arg (home (context call)))
  else if startsWith arg "/" then catch_null (AbsolutePath.of_ arg)
  else if includes arg "*" then None
  else catch_null (AbsolutePath.joinp (workspace (context call)) [arg]).

(** [/^-[a-z]*r/i] *)
Definition RECURSIVE_FLAG : Regex.regex :=
  Regex.seqs [Regex.Bol; Regex.lit "-"; Regex.Star (Regex.Chars (λ c, is_lower (lower c))); Regex.char_i "r"].
Definition recursive_delete (s : ShellSegment) (call : ToolCall) : bool :=
  if negb (isProgram s "rm") then false
  else if negb (some (Regex.test RECURSIVE_FLAG) (ShellSegment.args s)) then false
  else some (λ a, match resolve a call with
                  | None => true
                  | Some target => negb (AbsolutePath.contains (workspace (context call)) target)
                  end)
         (bfilter (λ a, negb (startsWith a "-")) (ShellSegment.args s)).
Definition RecursiveDeleteRule : Rule ToolCall :=
  shell_action
    (action_header "AG-A003" 3 Severity.CRITICAL "Recursive delete outside the workspace"
       "Check the path. Inside the workspace this is routine; outside it is not.")
    "The command deletes recursively outside the workspace: " recursive_delete.

Definition INFRASTRUCTURE : list (string * list string) :=
  [("aws", ["delete"; "terminate"; "put"; "create"; "update"; "modify"]);
   ("gcloud", ["delete"; "create"; "update"; "deploy"]);
   ("kubectl", ["delete"; "apply"; "patch"; "scale"; "drain"]);
   ("terraform", ["apply"; "destroy"]); ("pulumi", ["up"; "destroy"])].
Definition InfrastructureMutationRule : Rule ToolCall :=
  shell_action
    (action_header "AG-A004" 4 Severity.CRITICAL "Infrastructure change"
       "This command changes live infrastructure. Confirm the account and the target.")
    "The command changes infrastructure: "
    (λ s _, match find (λ e, isProgram s e.1) INFRASTRUCTURE with
            | None => false
            | Some e => some (str_includes e.2) (ShellSegment.args s)
            end).

(** [/^\/:/] and [/^(-v|--volume)?=?\/:\//] *)
Definition MOUNTS_ROOT : Regex.regex := Regex.Seq Regex.Bol (Regex.lit "/:").
Definition VOLUME_ROOT : Regex.regex :=
  Regex.seqs [Regex.Bol; Regex.opt (Regex.Alt (Regex.lit "-v") (Regex.lit "--volume"));
              Regex.opt (Regex.lit "="); Regex.lit "/:/"].
Definition DockerEscapeRule : Rule ToolCall :=
  shell_action
    (action_header "AG-A005" 5 Severity.HIGH "Container mounts the host filesystem or the Docker socket"
       "Mounting / or docker.sock hands the container everything this machine has, including the files the sandbox is keeping out of reach.")
    "The command gives a container host-level access: "
    (λ s _, if negb (isProgram s "docker") && negb (isProgram s "podman") then false
            else some (λ a, includes a "docker.sock" || Regex.test MOUNTS_ROOT a
                            || Regex.test VOLUME_ROOT a || (a =? "--privileged")%string)
                   (ShellSegment.args s)).

Definition A006 : Header := action_header "AG-A006" 6 Severity.HIGH "CI workflow modified"
  "A workflow change runs on the next push, with whatever secrets the job holds. Read the diff.".
Definition WorkflowEditRule : Rule ToolCall :=
  of_header A006
    (λ call, Ok (bool_decide (access call = write)))
    (λ call,
      on_paths A006 call (λ p, tool call +:+ " would modify " +:+ display p call +:+ ".")
        (λ p, includes (AbsolutePath.value p) "/.github/workflows/")).

(** [/(send|post|create|publish|notify|email|message|comment|tweet|upload)/i] *)
Definition OUTBOUND_MCP : Regex.regex :=
  Regex.alts (map Regex.lit_i ["send"; "post"; "create"; "publish"; "notify"; "email"; "message";
                               "comment"; "tweet"; "upload"]).
Definition A007 : Header := action_header "AG-A007" 7 Severity.HIGH "Outbound message through an MCP server"
  "This sends something out of your machine under your identity. Read what is being sent and to whom.".
Definition OutboundMessageRule : Rule ToolCall :=
  of_header A007
    (λ call, Ok (isMcp call))
    (λ call,
      if negb (Regex.test OUTBOUND_MCP (tool call)) then Ok []
      else Ok [finding A007
                 (plain_draft (h_title A007) (tool call +:+ " sends data out of this machine.") (tool call))]).

Definition actionRules : list (Rule ToolCall) :=
  [ForcePushRule; PublishRule; RecursiveDeleteRule; InfrastructureMutationRule; DockerEscapeRule;
   WorkflowEditRule; OutboundMessageRule].
End actions.

(** The identifiers are the ones [RuleId.of] makes of their texts. *)
Lemma rule_ids_parse registry :
  Forall (λ r, RuleId.of_ (RuleId.value (Rule.id r)) = Ok (Rule.id r))
    (blocking.blockingRules registry ++ actions.actionRules).
Proof. repeat constructor. Qed.
