(* ===== verification/Ports.v ===== *)
(** * Ports (src/application/ports)

    What the use cases ask of the outside world, as records of operations over an
    abstract world [W]. An operation is a function from the world to the new world and a
    result; a rejected promise is an [Err]. *)

From S2P Require Import Prelude JsString NodePath Paths Values SensitivePaths Entities.

(** ** Audit, clock and decisions (ports/index.ts) *)

(** A JSON value of an audit entry's details. *)
Inductive Detail :=
| DText (s : string) | DNull | DList (l : list string) | DBool (b : bool) | DNumber (z : Z).
Record AuditEntry := mkEntry { at_ : Z; event : string; details : list (string * Detail) }.

Inductive Verdict := allow | deny.
#[global] Instance Verdict_eq_dec : EqDecision Verdict.
Proof. solve_decision. Defined.

Record Decision := mkDecision {
  dkey : string;
  verdict : Verdict;
  dsubject : string;
  ruleIds : list string;
  decidedAt : Z
}.
#[global] Instance Decision_eq_dec : EqDecision Decision.
Proof. solve_decision. Defined.

Inductive AnswerChoice := allow_once | allow_forever | deny_once | deny_forever.
Definition answer_name (a : AnswerChoice) : string :=
  match a with
  | allow_once => "allow-once"
  | allow_forever => "allow-forever"
  | deny_once => "deny"
  | deny_forever => "deny-forever"
  end.

Record AuditLog (W : Type) := mkAuditLog { append_ : AuditEntry → M W unit }.
Record Clock (W : Type) := mkClock { now : M W Z }.
Record DecisionStore (W : Type) := mkDecisionStore {
  find_ : string → M W (option Decision);
  record_ : Decision → M W unit;
  recordMany : list Decision → M W unit;
  all_decisions : M W (list Decision)
}.
Record GrantStore (W : Type) := mkGrantStore {
  all_grants : M W (list Grant);
  add_grant : Grant → M W unit;
  revoke_grant : string → M W bool
}.
Record Prompter (W : Type) := mkPrompter { ask_ : Finding → M W (option AnswerChoice) }.
Record Logger (W : Type) := mkLogger { warn : string → M W unit }.
Arguments warn {W} _ _.
Arguments append_ {W} _ _. Arguments now {W} _. Arguments find_ {W} _ _.
Arguments record_ {W} _ _. Arguments recordMany {W} _ _. Arguments all_decisions {W} _.
Arguments all_grants {W} _. Arguments add_grant {W} _ _. Arguments revoke_grant {W} _ _.
Arguments ask_ {W} _ _.

(** [try { m } catch { }]: the changes made before a throw stay. *)
Definition swallow {W} (m : M W unit) : M W unit := λ w, ((m w).1, Ok tt).

(** [try { m } finally { cleanup }]: an error of the cleanup replaces the result. *)
Definition finally {W A} (m : M W A) (cleanup : M W unit) : M W A := λ w,
  let '(w1, r) := m w in
  match cleanup w1 with
  | (w2, Ok _) => (w2, r)
  | (w2, Err e) => (w2, Err e)
  end.

(** [new Map(items.map(item => [key(item), item])).get(k)]: the last item wins. *)
Definition map_get {A} (key : A → string) (l : list A) (k : string) : option A :=
  find (λ a, (key a =? k)%string) (rev l).

Lemma map_get_some {A} (key : A → string) l k a :
  map_get key l k = Some a → a ∈ l ∧ key a = k.
Proof.
  unfold map_get. intros [Hin Hk%String.eqb_eq]%find_spec. split; [|done].
  by rewrite <-(rev_involutive l), list_elem_of_In, <-in_rev, <-list_elem_of_In.
Qed.

Lemma map_get_none {A} (key : A → string) l k :
  map_get key l k = None ↔ ∀ a, a ∈ l → key a ≠ k.
Proof.
  unfold map_get. rewrite find_none_iff, some_false. setoid_rewrite String.eqb_neq.
  by setoid_rewrite list_elem_of_In; setoid_rewrite <-in_rev.
Qed.

(** ** The file system

    The operations the modelled clients use. [contents] is what the files hold, by the
    text of their paths: a read returns it, and a failed write or removal may leave its own
    path in any state but touches no other. *)

Record FileStat := mkStat { stat_isDirectory : bool; stat_size : Z }.
(** [None] is an absent option; [failOnLimit] and [failOnError] are compared with [true]. *)
Record ListOptions := mkListOptions {
  maxEntries : option nat;
  maxDepth : option nat;
  ignoreDirectories : option (list string);
  includeFile : option (AbsolutePath → bool);
  shouldDescend : option (AbsolutePath → bool);
  failOnLimit : bool;
  failOnError : bool
}.

Record FileSystem (W : Type) := mkFileSystem {
  read_ : AbsolutePath → M W (option string);
  write_ : AbsolutePath → string → option Z → M W unit;
  remove_ : AbsolutePath → M W unit;
  stat_ : AbsolutePath → M W (option FileStat);
  list_ : AbsolutePath → ListOptions → M W (list AbsolutePath)
}.
Arguments read_ {W} _ _. Arguments write_ {W} _ _ _ _. Arguments remove_ {W} _ _.
Arguments stat_ {W} _ _. Arguments list_ {W} _ _ _.

(** The size of a file that holds a text, one byte per code unit; nothing is a directory. *)
Definition stat_of (t : option string) : option FileStat :=
  match t with Some t => Some (mkStat false (Z.of_nat (slen t))) | None => None end.
(** A file system of single files has no listing. *)
Definition no_listing {W} : AbsolutePath → ListOptions → M W (list AbsolutePath) :=
  λ _ _ w, (w, throw "no listing").

Abbreviation Contents := (gmap string string).

(** The file at [k] holds [o], or does not exist. *)
Definition put (m : Contents) (k : string) (o : option string) : Contents :=
  match o with Some t => <[k := t]> m | None => base.delete k m end.
Definition touched (k : string) (m m' : Contents) : Prop := ∀ q, q ≠ k → m' !! q = m !! q.

Class FileLaws {W : Type} (files : FileSystem W) := {
  contents : W → Contents;
  read_law : ∀ p w, contents (read_ files p w).1 = contents w
               ∧ ∀ t, (read_ files p w).2 = Ok t → t = contents w !! AbsolutePath.value p;
  write_law : ∀ p t mode w,
    touched (AbsolutePath.value p) (contents w) (contents (write_ files p t mode w).1)
    ∧ ((write_ files p t mode w).2 = Ok tt →
        contents (write_ files p t mode w).1 = put (contents w) (AbsolutePath.value p) (Some t));
  remove_law : ∀ p w,
    touched (AbsolutePath.value p) (contents w) (contents (remove_ files p w).1)
    ∧ ((remove_ files p w).2 = Ok tt →
        contents (remove_ files p w).1 = put (contents w) (AbsolutePath.value p) None)
}.

Lemma lookup_put m k o q : put m k o !! q = if bool_decide (q = k) then o else m !! q.
Proof.
  unfold put. case_bool_decide as Hq; destruct o; subst;
    by rewrite ?lookup_insert_eq, ?lookup_delete_eq, ?lookup_insert_ne, ?lookup_delete_ne.
Qed.
Lemma lookup_put_eq m k o : put m k o !! k = o.
Proof. rewrite lookup_put. by rewrite bool_decide_true. Qed.
Lemma lookup_put_ne m k o q : q ≠ k → put m k o !! q = m !! q.
Proof. intros H. rewrite lookup_put. by rewrite bool_decide_false. Qed.

(** Putting back what was there before repairs a touched path. *)
Lemma put_touched m m' k o : touched k m m' → m !! k = o → put m' k o = m.
Proof.
  intros Ht Ho. apply map_eq. intros q. rewrite lookup_put. case_bool_decide as Hq; [by subst|by apply Ht].
Qed.
Lemma put_same m k : put m k (m !! k) = m.
Proof. by apply (put_touched m m). Qed.

(** A file system in memory that never fails. *)
Module MemoryFiles.
Definition files : FileSystem Contents :=
  mkFileSystem Contents (λ p m, (m, Ok (m !! AbsolutePath.value p)))
    (λ p t _ m, (put m (AbsolutePath.value p) (Some t), Ok tt))
    (λ p m, (put m (AbsolutePath.value p) None, Ok tt))
    (λ p m, (m, Ok (stat_of (m !! AbsolutePath.value p)))) no_listing.
#[global] Instance laws : FileLaws files.
Proof.
  exists (λ m, m).
  - intros p m. split; [done|]. by intros t [= <-].
  - intros p t mode m. split; [|done]. intros q Hq. by apply lookup_put_ne.
  - intros p m. split; [|done]. intros q Hq. by apply lookup_put_ne.
Defined.
End MemoryFiles.
