(* ===== verification/EvaluateToolCall.v ===== *)
(** * Evaluating a tool call (src/application/use-cases/EvaluateToolCall.ts)

    The PreToolUse verdict, over any audit log, decision store and clock. *)

From S2P Require Import Prelude JsString NodePath Paths Patterns Values SensitivePaths Registry.
From S2P Require Import Tiers Entities Shell ToolCall Rules ToolCallRules Ports.

Module EvaluateToolCall.

Inductive ToolCallDecision := allow_call | deny_call | ask_call.
#[global] Instance ToolCallDecision_eq_dec : EqDecision ToolCallDecision.
Proof. solve_decision. Defined.
Record ToolCallVerdict := mkVerdict {
  decision : ToolCallDecision;
  reason : string;
  findings : list Finding
}.

Section evaluate.
Context {W : Type} (engine : RuleRegistry ToolCall).
Context (decisions : DecisionStore W) (audit : AuditLog W) (clock : Clock W).
Context (switches : string → bool).

(** [record]: whatever the clock or the log throws is swallowed. *)
Definition record (event : string) (call : ToolCall) (fs : list Finding) : M W unit :=
  swallow
    (let* t := now clock in
     append_ audit
       (mkEntry t event
          [("tool", DText (ToolCall.tool call));
           ("rules", DList (map (λ f, RuleId.value (Finding.ruleId f)) fs));
           ("subjects", DList (map Finding.subject fs));
           ("disposition", DText (Disposition.name (Disposition.strictest (map Finding.disposition fs))))])).

(** The loop over the asking findings: the first one denied ends it. *)
Fixpoint review (stored : list Decision) (asking undecided : list Finding) : Finding + list Finding :=
  match asking with
  | [] => inr undecided
  | f :: rest =>
      match map_get dkey stored (Finding.decisionKey f) with
      | None => review stored rest (undecided ++ [f])
      | Some previous =>
          if bool_decide (verdict previous = deny) then inl f else review stored rest undecided
      end
  end.

Definition execute (call : ToolCall) : M W ToolCallVerdict :=
  let* report := mlift (ScanEngine.scan engine [call] switches) in
  if ScanReport.isClean report then mok (mkVerdict allow_call "no rule matched" [])
  else
    let blocking := ScanReport.blocking report in
    if 0 <? length blocking then
      let* _ := record "toolcall.blocked" call blocking in
      mok (mkVerdict deny_call (join " " (map Finding.detail blocking)) blocking)
    else
      let asking := ScanReport.interrupting report in
      let* stored := all_decisions decisions in
      match review stored asking [] with
      | inl f =>
          let* _ := record "toolcall.denied-by-decision" call [f] in
          mok (mkVerdict deny_call (Finding.detail f) [f])
      | inr [] => mok (mkVerdict allow_call "previously approved" (ScanReport.findings report))
      | inr undecided =>
          let* _ := record "toolcall.ask" call undecided in
          mok (mkVerdict ask_call (join " " (map Finding.detail undecided)) undecided)
      end.

(** ** What the loop answers *)

Definition stored_verdict (stored : list Decision) (f : Finding) : option Verdict :=
  verdict <$> map_get dkey stored (Finding.decisionKey f).

Definition undecided_in (stored : list Decision) (f : Finding) : bool :=
  match stored_verdict stored f with None => true | Some _ => false end.

Lemma review_inl stored asking undecided f : review stored asking undecided = inl f →
  f ∈ asking ∧ stored_verdict stored f = Some deny.
Proof.
  revert undecided. induction asking as [|g rest IH]; intros undecided; simpl; [done|].
  unfold stored_verdict. destruct (map_get _ _ _) as [d|] eqn:E.
  - case_bool_decide as Hd; [|intros H%IH; set_solver].
    intros [= <-]. split; [by left|]. rewrite E. by simpl; rewrite Hd.
  - intros H%IH. set_solver.
Qed.

Lemma review_inr stored asking undecided us : review stored asking undecided = inr us →
  us = undecided ++ bfilter (undecided_in stored) asking
  ∧ ∀ f, f ∈ asking → stored_verdict stored f ≠ Some deny.
Proof.
  revert undecided. induction asking as [|g rest IH]; intros undecided; simpl.
  - intros [= <-]. split; [by rewrite app_nil_r|set_solver].
  - destruct (map_get _ _ _) as [d|] eqn:E.
    + assert (stored_verdict stored g = Some (verdict d)) as Hg by (unfold stored_verdict; by rewrite E).
      unfold undecided_in at 1. rewrite Hg.
      case_bool_decide as Hd; [done|]. intros [-> H]%IH. split; [done|].
      intros f [->|Hf]%elem_of_cons; [congruence|by apply H].
    + assert (stored_verdict stored g = None) as Hg by (unfold stored_verdict; by rewrite E).
      unfold undecided_in at 1. rewrite Hg. intros [-> H]%IH. split; [by rewrite <-app_assoc|].
      intros f [->|Hf]%elem_of_cons; [congruence|by apply H].
Qed.

(** Recording never changes the verdict. *)
Lemma record_ok event call fs w : (record event call fs w).2 = Ok tt.
Proof. done. Qed.

Lemma record_then {A} event call fs (a : A) w :
  ((let* _ := record event call fs in mok a) w).2 = Ok a.
Proof. done. Qed.
End evaluate.

Section properties.
Context {W : Type}.

Lemma execute_blocked engine (decisions : DecisionStore W) audit clock switches call w report f :
  ScanEngine.scan engine [call] switches = Ok report →
  f ∈ ScanReport.findings report → Finding.disposition f = Disposition.BLOCK →
  f ∈ ScanReport.blocking report
  ∧ (execute engine decisions audit clock switches call w).2
    = Ok (mkVerdict deny_call (join " " (map Finding.detail (ScanReport.blocking report)))
            (ScanReport.blocking report)).
Proof.
  intros Hs Hf Hd. unfold execute, mseq at 1, mlift. rewrite Hs.
  assert (f ∈ ScanReport.blocking report) as Hb.
  { unfold ScanReport.blocking. rewrite elem_of_bfilter. by rewrite Hd. }
  assert (ScanReport.isClean report = false) as ->.
  { unfold ScanReport.isClean. by destruct (ScanReport.findings report); [apply elem_of_nil in Hf|]. }
  assert ((0 <? length (ScanReport.blocking report)) = true) as ->
    by by destruct (ScanReport.blocking report); [apply elem_of_nil in Hb|].
  by rewrite record_then.
Qed.

(** A blocking finding is final: when the scan of a call holds one, the verdict is
    deny with exactly the blocking findings, whatever the decision store holds and even
    when the clock or the audit log fails. *)
Theorem blocked_call_is_denied engine (decisions : DecisionStore W) audit clock switches call w report f :
  ScanEngine.scan engine [call] switches = Ok report →
  f ∈ ScanReport.findings report → Finding.disposition f = Disposition.BLOCK →
  ∃ v, (execute engine decisions audit clock switches call w).2 = Ok v
  ∧ decision v = deny_call ∧ findings v = ScanReport.blocking report ∧ f ∈ findings v.
Proof.
  intros Hs Hf Hd.
  destruct (execute_blocked engine decisions audit clock switches call w report f Hs Hf Hd) as [Hb ->].
  by eexists.
Qed.

(** A call is let through only when nothing objects: with the decisions the store
    reported, an allow verdict means no finding of the scan blocks and every finding
    that would ask is stored as allowed; an undecided one is asked about, and a denied
    one denies. *)
Theorem verdict_without_block engine (decisions : DecisionStore W) audit clock switches call w w' report stored :
  ScanEngine.scan engine [call] switches = Ok report →
  ScanReport.blocking report = [] →
  all_decisions decisions w = (w', Ok stored) →
  let asking := ScanReport.interrupting report in
  ∃ v, (execute engine decisions audit clock switches call w).2 = Ok v
  ∧ (decision v = deny_call ↔ ∃ f, f ∈ asking ∧ stored_verdict stored f = Some deny)
  ∧ (decision v = allow_call ↔ ∀ f, f ∈ asking → stored_verdict stored f = Some allow)
  ∧ (decision v = ask_call → findings v = bfilter (undecided_in stored) asking).
Proof.
  intros Hs Hb Hst asking. unfold execute, mseq at 1, mlift. rewrite Hs.
  destruct (ScanReport.isClean report) eqn:Hc.
  { unfold ScanReport.isClean in Hc. subst asking. unfold ScanReport.interrupting.
    destruct (ScanReport.findings report); [|done]. simpl. eexists. split; [done|].
    split; [|split]; simpl; [|split; [set_solver|done]|done].
    split; [done|]. intros (f & []%elem_of_nil & _). }
  rewrite Hb. cbn [length Nat.ltb Nat.leb]. unfold mseq at 1. rewrite Hst.
  fold asking. destruct (review stored asking []) as [f|us] eqn:Er.
  - apply review_inl in Er as [Hf Hd]. rewrite record_then. eexists. split; [done|]. simpl.
    split; [|split]; [|split; [done|]|done].
    + split; [|done]. intros _. by exists f.
    + intros H. apply H in Hf. congruence.
  - apply review_inr in Er as [-> Hnd]. cbn [app].
    assert (∀ f, f ∈ asking → stored_verdict stored f = None ∨ stored_verdict stored f = Some allow) as Hor.
    { intros f Hf%Hnd. destruct (stored_verdict stored f) as [[]|]; [by right|done|by left]. }
    destruct (bfilter _ asking) as [|u us] eqn:Eu.
    + eexists. split; [done|]. simpl. split; [|split; [|done]].
      * split; [done|]. intros (f & Hf & Hd). by apply Hnd in Hf.
      * split; [|done]. intros _ f Hf. destruct (Hor f Hf) as [Hn|]; [|done].
        assert (f ∈ bfilter (undecided_in stored) asking) as Hin
          by (rewrite elem_of_bfilter; unfold undecided_in; by rewrite Hn).
        rewrite Eu in Hin. by apply elem_of_nil in Hin.
    + rewrite record_then. eexists. split; [done|]. simpl. split; [|split; [|done]].
      * split; [done|]. intros (f & Hf & Hd). by apply Hnd in Hf.
      * split; [done|]. intros H. exfalso.
        assert (u ∈ bfilter (undecided_in stored) asking) as Hin
          by (rewrite Eu; by left).
        apply elem_of_bfilter in Hin as [Hu Hn]. apply H in Hu. unfold undecided_in in Hn. by rewrite Hu in Hn.
Qed.
End properties.
(** ** The tool-call engine of the program *)

Section engine.
Context (registry : SensitivePathRegistry).

(** [toolCallScanner()] of the container: the refusals, with the irreversible actions
    when the configuration turns them on. *)
Definition toolCallScanner (irreversibleActions : bool) : result (RuleRegistry ToolCall) :=
  RuleRegistry.of_ (if irreversibleActions then blocking.blockingRules registry ++ actions.actionRules
                    else blocking.blockingRules registry).

Definition rules_of (irreversibleActions : bool) : list (Rule ToolCall) :=
  blocking.blockingRules registry ++ (if irreversibleActions then actions.actionRules else []).

Lemma toolCallScanner_ok b : toolCallScanner b = Ok (RuleRegistry.mkRegistry (rules_of b)).
Proof. by destruct b. Qed.

(** A call whose paths can be listed, in a home whose state directory can be named. *)
Definition readable (call : ToolCall) (ps : list AbsolutePath) : Prop :=
  ToolCall.paths call = Ok ps
  ∧ ∃ sd, AbsolutePath.joinp (home (ToolCall.context call)) [".agentkeeper"] = Ok sd.

Lemma of_header_total {T} h (applies : T → result bool) look s :
  (∃ x, applies s = Ok x) → (∃ fs, look s = Ok fs) →
  ∃ fs, Rule.evaluate (Rule.of_header h applies look) s = Ok fs.
Proof.
  intros [x Hx] [fs Hfs]. unfold Rule.evaluate, Rule.of_header. cbn. rewrite Hx. cbn.
  destruct x; cbn; eauto.
Qed.

Lemma on_paths_total h call ps describe hit : ToolCall.paths call = Ok ps →
  ∃ fs, on_paths h call describe hit = Ok fs.
Proof. intros Hps. unfold on_paths. rewrite Hps. cbn. eauto. Qed.

(** No rule throws on a readable call. *)
Lemma evaluate_total b r call ps : readable call ps → r ∈ rules_of b → ∃ fs, Rule.evaluate r call = Ok fs.
Proof.
  intros [Hps [sd Hsd]] Hr.
  assert (Forall (λ r, ∃ fs, Rule.evaluate r call = Ok fs)
            (blocking.blockingRules registry ++ actions.actionRules)) as Hall.
  { repeat (apply Forall_cons_2; [apply of_header_total; rewrite ?Hps; cbn [rbind]; eauto using on_paths_total|]);
      [..|apply Forall_nil_2].
    - rewrite Hsd. cbn [rbind]. destruct (on_paths_total blocking.B005 call ps
        (λ p, ToolCall.tool call +:+ " would modify " +:+ display p call +:+ ".")
        (AbsolutePath.contains sd) Hps) as [fs ->]. cbn [rbind].
      case_match; [case_if|]; eauto.
    - case_match; [case_if|]; eauto.
    - case_if; eauto. }
  rewrite Forall_forall in Hall. apply Hall. unfold rules_of in Hr.
  apply elem_of_app. apply elem_of_app in Hr as [?|Hr]; [by left|right].
  destruct b; [done|by apply elem_of_nil in Hr].
Qed.

Lemma scan_readable b call ps switches : readable call ps →
  ∃ report, ScanEngine.scan (RuleRegistry.mkRegistry (rules_of b)) [call] switches = Ok report.
Proof.
  intros Hc. apply ScanEngine.scan_total. intros s r ->%list_elem_of_singleton Hr.
  apply RuleRegistry.elem_of_enabled in Hr as [Hr _]. by eapply evaluate_total.
Qed.

(** A call whose paths cannot be listed breaks the scan: AG-B001 comes first and asks for
    them, and no switch turns it off. *)
Lemma scan_unreadable b call error switches : ToolCall.paths call = Err error →
  ScanEngine.scan (RuleRegistry.mkRegistry (rules_of b)) [call] switches = Err error.
Proof.
  intros Hp. unfold ScanEngine.scan.
  assert (∃ rest, RuleRegistry.enabled (RuleRegistry.mkRegistry (rules_of b)) switches
                  = blocking.SensitivePathAccessRule registry :: rest) as [rest ->] by (eexists; reflexivity).
  cbn [rmapM]. unfold Rule.evaluate at 1, blocking.SensitivePathAccessRule at 1, Rule.of_header.
  cbn [Rule.appliesTo]. by rewrite Hp.
Qed.

(** AG-B001 speaks up for every tier-2 path a call names. *)
Lemma sensitive_path_finding call ps p : ToolCall.paths call = Ok ps → p ∈ ps →
  AccessTierResolver.tierOf registry p (ToolCall.access call) (ToolCall.context call) = AccessTier.DANGEROUS →
  ∃ fs f, Rule.evaluate (blocking.SensitivePathAccessRule registry) call = Ok fs ∧ f ∈ fs
    ∧ Finding.disposition f = Disposition.BLOCK ∧ Finding.ruleId f = rule_id "AG-B001" "B" 1
    ∧ Finding.subject f = display p call.
Proof.
  intros Hps Hp Ht. unfold Rule.evaluate, blocking.SensitivePathAccessRule, Rule.of_header.
  cbn [Rule.appliesTo Rule.inspect]. rewrite Hps. cbn [rbind].
  assert ((0 <? length ps) = true) as -> by (by destruct ps; [apply elem_of_nil in Hp|]).
  cbn [negb]. eexists _, _. split; [done|]. split.
  - apply (list_elem_of_fmap_2 _ _ (p, AccessTierResolver.decide_ registry p (ToolCall.access call) (ToolCall.context call))).
    rewrite elem_of_bfilter. split; [apply list_elem_of_fmap; by exists p|].
    cbn [snd]. unfold AccessTierResolver.tierOf in Ht. by rewrite Ht.
  - done.
Qed.
End engine.

Section tier2.
Lemma tier2_denied {W} registry b (decisions : DecisionStore W) audit clock switches call ps p w :
  readable call ps → p ∈ ps →
  AccessTierResolver.tierOf registry p (ToolCall.access call) (ToolCall.context call) = AccessTier.DANGEROUS →
  ∃ engine v, toolCallScanner registry b = Ok engine
  ∧ (execute engine decisions audit clock switches call w).2 = Ok v
  ∧ decision v = deny_call
  ∧ ∃ f, f ∈ findings v ∧ Finding.ruleId f = rule_id "AG-B001" "B" 1 ∧ Finding.subject f = display p call.
Proof.
  intros Hc Hp Ht. exists (RuleRegistry.mkRegistry (rules_of registry b)).
  destruct (scan_readable registry b call ps switches Hc) as [report Hs].
  destruct (sensitive_path_finding registry call ps p (proj1 Hc) Hp Ht) as (fs & f & He & Hf & Hd & Hi & Hsub).
  assert (f ∈ ScanReport.findings report) as Hin.
  { apply (ScanEngine.elem_of_scan _ _ _ _ _ Hs). exists call, (blocking.SensitivePathAccessRule registry), fs.
    split; [by left|]. split; [|done]. apply RuleRegistry.elem_of_enabled. split; [by left|by left]. }
  destruct (execute_blocked (RuleRegistry.mkRegistry (rules_of registry b)) decisions audit clock switches
              call w report f Hs Hin Hd) as [Hb Hv].
  eexists. split; [apply toolCallScanner_ok|]. split; [exact Hv|]. split; [done|]. by exists f.
Qed.
End tier2.

(** End to end: a call that names a tier-2 path for its access is denied, with a
    finding of AG-B001 that shows that path, whether or not the irreversible actions are
    on, whatever the switches, the stored decisions, the clock and the audit log do. *)
Theorem tier2_call_denied {W} registry b (decisions : DecisionStore W) audit clock switches call ps p w :
  readable call ps → p ∈ ps →
  AccessTierResolver.tierOf registry p (ToolCall.access call) (ToolCall.context call) = AccessTier.DANGEROUS →
  ∃ engine v, toolCallScanner registry b = Ok engine
  ∧ (execute engine decisions audit clock switches call w).2 = Ok v
  ∧ decision v = deny_call
  ∧ ∃ f, f ∈ findings v ∧ Finding.ruleId f = rule_id "AG-B001" "B" 1 ∧ Finding.subject f = display p call.
Proof. apply tier2_denied. Qed.
(** ** Running it *)

(** A log that always fails, and a store that holds one decision. *)
Definition full_disk : AuditLog unit := mkAuditLog unit (λ _ w, (w, throw "ENOSPC")).
Definition wall_clock : Clock unit := mkClock unit (mok 0%Z).
Definition stored_decisions (l : list Decision) : DecisionStore unit :=
  mkDecisionStore unit (λ k, mok (map_get dkey l k)) (λ _, mok tt) (λ _, mok tt) (mok l).

Definition no_switches : string → bool := λ _, false.
Definition all_switches : string → bool := λ _, true.
Definition run_call (b : bool) (l : list Decision) (switches : string → bool) (call : ToolCall) :
    result ToolCallVerdict :=
  match toolCallScanner default_registry b with
  | Ok engine => (execute engine (stored_decisions l) full_disk wall_clock switches call tt).2
  | Err e => Err e
  end.
Definition verdict_of (r : result ToolCallVerdict) : option ToolCallDecision :=
  match r with Ok v => Some (decision v) | Err _ => None end.

Definition push_call : ToolCall := bash "git push --force origin main".
Definition push_key : string := "AG-A001@git push --force origin main".

Lemma tier2_call_denied_witness :
  ∃ engine v, toolCallScanner default_registry false = Ok engine
  ∧ (execute engine (stored_decisions []) full_disk wall_clock no_switches (bash "cat ~/.ssh/id_rsa") tt).2 = Ok v
  ∧ decision v = deny_call.
Proof.
  destruct (tier2_call_denied default_registry false (stored_decisions []) full_disk wall_clock no_switches
    (bash "cat ~/.ssh/id_rsa") [AbsolutePath.posix_path ["home"; "u"; ".ssh"; "id_rsa"]]
    (AbsolutePath.posix_path ["home"; "u"; ".ssh"; "id_rsa"]) tt) as (engine & v & H1 & H2 & H3 & _).
  - split; [vm_compute; reflexivity|]. eexists. vm_compute. reflexivity.
  - by left.
  - vm_compute. reflexivity.
  - by exists engine, v.
Defined.

Definition demo_blocking_rule : Rule ToolCall :=
  Rule.mkRule (RuleId.mkRuleId "AG-B001" "B" 1) Severity.HIGH Disposition.BLOCK "t" "r"
    (λ _, Ok true) (λ _, Ok [ScanEngine.demo_finding]).

Lemma blocked_call_is_denied_witness :
  ∃ v, (execute (RuleRegistry.mkRegistry [demo_blocking_rule]) (stored_decisions []) full_disk wall_clock
          no_switches (bash "ls") tt).2 = Ok v ∧ decision v = deny_call.
Proof.
  destruct (blocked_call_is_denied (RuleRegistry.mkRegistry [demo_blocking_rule]) (stored_decisions [])
    full_disk wall_clock no_switches (bash "ls") tt (ScanReport.of_ [ScanEngine.demo_finding])
    ScanEngine.demo_finding) as (v & H1 & H2 & _).
  - reflexivity.
  - by left.
  - reflexivity.
  - by exists v.
Defined.

Definition demo_asking_finding : Finding := Finding.withDisposition ScanEngine.demo_finding Disposition.ASK.
Definition demo_asking_rule : Rule ToolCall :=
  Rule.mkRule (RuleId.mkRuleId "AG-A001" "A" 1) Severity.HIGH Disposition.ASK "t" "r"
    (λ _, Ok true) (λ _, Ok [demo_asking_finding]).
Definition demo_allow : Decision := mkDecision "AG-B001@s" allow "s" ["AG-B001"] 0%Z.

Lemma verdict_without_block_witness :
  ∃ v, (execute (RuleRegistry.mkRegistry [demo_asking_rule]) (stored_decisions [demo_allow]) full_disk
          wall_clock all_switches (bash "ls") tt).2 = Ok v ∧ decision v = allow_call.
Proof.
  destruct (verdict_without_block (RuleRegistry.mkRegistry [demo_asking_rule]) (stored_decisions [demo_allow])
    full_disk wall_clock all_switches (bash "ls") tt tt (ScanReport.of_ [demo_asking_finding]) [demo_allow])
    as (v & H1 & _ & H2 & _).
  - reflexivity.
  - reflexivity.
  - reflexivity.
  - exists v. split; [done|]. apply H2. intros f [->|[]%elem_of_nil]%elem_of_cons. reflexivity.
Defined.

Example force_push_is_asked :
  verdict_of (run_call true [] all_switches push_call) = Some ask_call
  ∧ verdict_of (run_call true [mkDecision push_key allow "s" ["AG-A001"] 0] all_switches push_call) = Some allow_call
  ∧ verdict_of (run_call true [mkDecision push_key deny "s" ["AG-A001"] 0] all_switches push_call) = Some deny_call
  ∧ verdict_of (run_call true [] no_switches push_call) = Some allow_call.
Proof. vm_compute. done. Qed.

(** What the refusals miss on a POSIX system, all with every rule and switch on: the
    file a plain spelling is denied for is allowed with one more leading slash, since the
    path then parses as a UNC share; a command that removes the whole protection is
    allowed when it goes by its current name; and an argument that cannot be reparsed
    makes the evaluation throw instead of denying. *)
Theorem refusals_evaded :
  verdict_of (run_call true [] all_switches (bash "cat /home/u/.ssh/id_rsa")) = Some deny_call
  ∧ verdict_of (run_call true [] all_switches (bash "cat //home/u/.ssh/id_rsa")) = Some allow_call
  ∧ verdict_of (run_call true [] all_switches (bash "agentkeeper uninstall")) = Some deny_call
  ∧ verdict_of (run_call true [] all_switches (bash "agentkeeper deactivate")) = Some allow_call
  ∧ verdict_of (run_call true [] all_switches (bash "cat ~/.ssh/id_rsa /a/../??/x")) = None.
Proof. vm_compute. done. Qed.
End EvaluateToolCall.
