(* ===== verification/GrantAccess.v ===== *)
(** * Granting access at run time (src/application/use-cases/GrantAccess.ts)

    The use case over any grant store, audit log and clock, with the anchor cache of its
    tier resolver as part of the state. [GrantStoreLaws] is what the store promises;
    [MemoryStore] is a store that keeps the promise. *)

From S2P Require Import Prelude JsString NodePath Paths Patterns Values Resources SensitivePaths.
From S2P Require Import Registry Sha256 Tiers Entities Ports.

(** ** The contract of the grant store *)

(** [add] replaces the entry of the same identity and appends; a failed [add], the log
    and the clock leave the grants alone. *)
Definition store_with (g : Grant) (l : list Grant) : list Grant :=
  bfilter (λ x, negb (Grant.id x =? Grant.id g)%string) l ++ [g].

Class GrantStoreLaws {W : Type} (grants : GrantStore W) (audit : AuditLog W) (clock : Clock W) := {
  stored : W → list Grant;
  add_law : ∀ g w, stored (add_grant grants g w).1
              = match (add_grant grants g w).2 with Ok _ => store_with g (stored w) | Err _ => stored w end;
  append_law : ∀ e w, stored (append_ audit e w).1 = stored w;
  now_law : ∀ w, stored (now clock w).1 = stored w
}.

Module GrantAccess.

Inductive RequestScope := global_scope | workspace_scope.
Record GrantRequest := mkRequest {
  resource : ResourceRef;
  access : Access;
  reason : string;
  scope : RequestScope;
  context : PathContext
}.
Inductive GrantOutcome := granted (g : Grant) | refused (message : string).

Section grant.
Context `{Digest} {W : Type} (registry : SensitivePathRegistry).
Context (grants : GrantStore W) (audit : AuditLog W) (clock : Clock W).
Abbreviation Cache := (gmap string (list AbsolutePath)).

(** A step on the cache of the resolver. *)
Definition on_cache {A} (m : M Cache A) : M (Cache * W) A :=
  λ s, ((( m s.1).1, s.2), (m s.1).2).

Definition execute (request : GrantRequest) : M (Cache * W) GrantOutcome :=
  let home := home (context request) in
  let* ok := on_cache (AccessTierResolver.canGrantAtRuntime registry (resource request)
                         (access request) (context request)) in
  if negb ok then
    let why := AccessTierResolver.explain registry (ResourceRef.path (resource request))
                 (access request) (context request) in
    let* t := in_world (now clock) in
    let* _ := in_world (append_ audit
      (mkEntry t "grant.refused"
         [("resource", DText (ResourceRef.toResourceString (resource request) home));
          ("access", DText (access_name (access request)));
          ("registryEntry", match why with Some e => DText (SensitivePath.id e) | None => DNull end)])) in
    mok (refused ("Access to " +:+ ResourceRef.toResourceString (resource request) home
                  +:+ " is not configurable while the agent is running."
                  +:+ match why with Some e => " " +:+ SensitivePath.rationale e | None => "" end
                  +:+ " It can only be changed by editing ~/.agentkeeper/allowlist.json yourself."))
  else
    let sc := match scope request with
              | global_scope => GrantScope.global_
              | workspace_scope =>
                  GrantScope.forWorkspace (WorkspaceId.fromPath (SensitivePaths.workspace (context request)))
              end in
    let* t := in_world (now clock) in
    let* g := mlift (Grant.create (Grant.mkProps (resource request) (access request) sc (Some t)
                                     (reason request) Grant.runtime)) in
    let* _ := in_world (add_grant grants g) in
    let* t' := in_world (now clock) in
    let* _ := in_world (append_ audit
      (mkEntry t' "grant.added"
         [("id", DText (Grant.id g));
          ("resource", DText (ResourceRef.toResourceString (resource request) home));
          ("access", DText (access_name (access request)));
          ("scope", DText (GrantScope.toString (Grant.scope g)))])) in
    mok (granted g).

Context `{!GrantStoreLaws grants audit clock}.

(** A grant this request may lead to. *)
Definition fits (request : GrantRequest) (g : Grant) : Prop :=
  Grant.resource g = resource request ∧ Grant.access g = access request
  ∧ Grant.origin g = Grant.runtime ∧ Grant.reason g = trim (reason request)
  ∧ AccessTierResolver.grantable registry (resource request) (access request) (context request).

Lemma cache_decides request c : AccessTierResolver.cache_ok registry c →
  AccessTierResolver.real_home (context request) →
  let run := AccessTierResolver.canGrantAtRuntime registry (resource request) (access request) (context request) in
  AccessTierResolver.cache_ok registry (run c).1
  ∧ ∀ b, (run c).2 = Ok b →
      b = true ↔ AccessTierResolver.grantable registry (resource request) (access request) (context request).
Proof. intros Hc Hh. by apply AccessTierResolver.canGrant_yields. Qed.

(** What a run-time request can do to the allowlist: a refusal, or an error before
    the store was reached, leaves it exactly as it was; otherwise one grant is put in
    it, replacing the entry of the same identity, and that grant is for the requested
    resource and access, is marked as a run-time grant and is not tier 2. *)
Theorem grant_effect request c w :
  AccessTierResolver.cache_ok registry c → AccessTierResolver.real_home (context request) →
  let run := execute request (c, w) in
  let after := stored run.1.2 in
  AccessTierResolver.cache_ok registry run.1.1
  ∧ match run.2 with
    | Ok (refused _) =>
        after = stored w
        ∧ ¬ AccessTierResolver.grantable registry (resource request) (access request) (context request)
    | Ok (granted g) => after = store_with g (stored w) ∧ fits request g
    | Err _ => after = stored w ∨ ∃ g, after = store_with g (stored w) ∧ fits request g
    end.
Proof.
  intros Hc Hh. destruct (cache_decides request c Hc Hh) as [Hc' Hb].
  unfold execute, mseq, on_cache, in_world, mlift, mok. cbn [fst snd].
  destruct (AccessTierResolver.canGrantAtRuntime _ _ _ _ c) as [c' [b|e]]; cbn [fst snd] in *; [|by auto].
  specialize (Hb b eq_refl). destruct b; cbn [negb fst snd].
  - pose proof (now_law w) as Hn. destruct (now clock w) as [w1 [t|e]]; cbn [fst snd] in *; [|by auto].
    match goal with |- context [Grant.create ?p] => destruct (Grant.create p) as [g|e] eqn:Eg end;
      cbn [fst snd]; [|by auto].
    apply Grant.create_ok in Eg as (_ & ? & ? & _ & _ & ? & ?).
    assert (fits request g) as Hfits by (repeat split; try done; by apply Hb).
    pose proof (add_law g w1) as Ha. destruct (add_grant grants g w1) as [w2 [[]|e]]; cbn [fst snd] in *;
      rewrite Hn in Ha; [|by auto].
    pose proof (now_law w2) as Hn2. destruct (now clock w2) as [w3 [t'|e]]; cbn [fst snd] in *;
      [|split; [done|]; right; exists g; split; [congruence|done]].
    match goal with |- context [append_ audit ?e w3] =>
      pose proof (append_law e w3) as Hp; destruct (append_ audit e w3) as [w4 [[]|e']] end; cbn [fst snd] in *.
    + split; [done|]. split; [congruence|done].
    + split; [done|]. right. exists g. split; [congruence|done].
  - pose proof (now_law w) as Hn. destruct (now clock w) as [w1 [t|e]]; cbn [fst snd] in *; [|by auto].
    match goal with |- context [append_ audit ?e w1] =>
      pose proof (append_law e w1) as Hp; destruct (append_ audit e w1) as [w2 [[]|e']] end; cbn [fst snd] in *.
    + split; [done|]. split; [congruence|]. intros Hg. by apply Hb in Hg.
    + split; [done|]. left. congruence.
Qed.
End grant.
End GrantAccess.

(** ** A store in memory *)

Module MemoryStore.
Record World := mkWorld { allowlist : list Grant; log : list AuditEntry }.
Definition grants : GrantStore World :=
  mkGrantStore World (λ w, (w, Ok (allowlist w)))
    (λ g w, (mkWorld (store_with g (allowlist w)) (log w), Ok tt))
    (λ i w, let rest := bfilter (λ x, negb (Grant.id x =? i)%string) (allowlist w) in
            (mkWorld rest (log w), Ok (negb (length rest =? length (allowlist w))))).
Definition audit : AuditLog World :=
  mkAuditLog World (λ e w, (mkWorld (allowlist w) (log w ++ [e]), Ok tt)).
Definition clock : Clock World := mkClock World (mok 0%Z).
#[global] Instance laws : GrantStoreLaws grants audit clock.
Proof. by exists allowlist. Defined.
End MemoryStore.

Section witness.
Import GrantAccess.
Definition request_for (r : ResourceRef) : GrantRequest :=
  mkRequest r read "build cache" workspace_scope
    (mkContext (AbsolutePath.posix_path ["home"; "u"]) (AbsolutePath.posix_path ["home"; "u"; "w"]) Platform.Linux).
Definition run_request (r : ResourceRef) : (gmap string (list AbsolutePath) * MemoryStore.World) * result GrantOutcome :=
  execute default_registry MemoryStore.grants MemoryStore.audit MemoryStore.clock (request_for r)
    (∅, MemoryStore.mkWorld [] []).
Definition ssh_directory : ResourceRef := ResourceRef.subtree (AbsolutePath.posix_path ["home"; "u"; ".ssh"]).

Example request_outcomes :
  length (MemoryStore.allowlist (run_request ssh_directory).1.2) = 0
  ∧ length (MemoryStore.allowlist (run_request (ResourceRef.subtree (AbsolutePath.posix_path ["opt"; "cache"]))).1.2) = 1.
Proof. vm_compute. done. Qed.

Lemma grant_effect_witness :
  match (run_request ssh_directory).2 with
  | Ok (refused _) => MemoryStore.allowlist (run_request ssh_directory).1.2 = []
  | _ => False
  end.
Proof.
  pose proof (grant_effect default_registry MemoryStore.grants MemoryStore.audit MemoryStore.clock
    (request_for ssh_directory) ∅ (MemoryStore.mkWorld [] []) (AccessTierResolver.cache_ok_empty _)
    eq_refl) as [_ He].
  assert (match (run_request ssh_directory).2 with Ok (refused _) => true | _ => false end = true) as Hr
    by (vm_compute; reflexivity).
  revert Hr He. unfold run_request.
  match goal with |- context [snd ?r] => destruct r as [[m w] [[g|reason]|e]] end; cbn [fst snd]; intros Hr He;
    [discriminate Hr| |discriminate Hr].
  apply He.
Defined.
End witness.
