(* ===== verification/NodeFileSystem.v ===== *)
(** * Listing a tree of files (src/infrastructure/fs/NodeFileSystem.ts)

    The walk behind [FileSystem.list]: what a directory holds is given as a tree, as
    [readdir] shows it; a directory that cannot be read carries the error. *)

From S2P Require Import Prelude JsString NodePath Paths Ports.

Module NodeFileSystem.

Definition DEFAULT_IGNORES : list string :=
  ["node_modules"; ".venv"; "venv"; "dist"; "build"; "target"; "vendor"; ".next"; ".turbo"; ".cache"; "coverage"].

Record ReadError := mkReadError { error_missing : bool; error_code : option string }.
(** An entry that is neither a file nor a directory, a symbolic link for one, is [other]. *)
Inductive Entry :=
| file_entry (name : string)
| other_entry (name : string)
| dir_entry (name : string) (listing : list Entry + ReadError).
Definition entry_name (e : Entry) : string :=
  match e with file_entry n | other_entry n | dir_entry n _ => n end.

Definition limit_error {A} (root : AbsolutePath) (limit : nat) (kind : string) : result A :=
  throw ("Refusing a partial filesystem result for " +:+ AbsolutePath.value root +:+ ": " +:+ kind +:+ " limit "
         +:+ string_of_nat limit +:+ " was reached").
Definition access_error {A} (operation : string) (path : AbsolutePath) (code : option string) : result A :=
  Err (FileSystemAccessError operation (AbsolutePath.value path) code).

Section list.
Context (root : AbsolutePath) (options : ListOptions).

Definition ignores : list string := default DEFAULT_IGNORES (ignoreDirectories options).
Definition limit : nat := default 20000 (maxEntries options).
Definition depth_limit : nat := default 12 (maxDepth options).
(** [options.shouldDescend?.(child) === false], and the same of [includeFile]. *)
Definition refuses (test : option (AbsolutePath → bool)) (p : AbsolutePath) : bool :=
  match test with Some f => negb (f p) | None => false end.

Definition limited (kind : string) (n : nat) (found : list AbsolutePath) : result (list AbsolutePath) :=
  if failOnLimit options then limit_error root n kind else Ok found.

(** The loop over the entries of one directory; [visit] is its body. *)
Fixpoint loop (visit : Entry → list AbsolutePath → result (list AbsolutePath)) (entries : list Entry)
    (found : list AbsolutePath) : result (list AbsolutePath) :=
  match entries with
  | [] => Ok found
  | e :: rest =>
      if limit <=? length found then limited "entries" limit found
      else let! found := visit e found in loop visit rest found
  end.

Definition walk_with (visit : Entry → list AbsolutePath → result (list AbsolutePath)) (directory : AbsolutePath)
    (depth : nat) (listing : list Entry + ReadError) (found : list AbsolutePath) : result (list AbsolutePath) :=
  if limit <=? length found then limited "entries" limit found
  else if depth_limit <? depth then limited "depth" depth_limit found
  else match listing with
       | inr error =>
           if failOnError options && negb (error_missing error)
           then access_error "list" directory (error_code error) else Ok found
       | inl entries => loop visit entries found
       end.

Fixpoint visit (directory : AbsolutePath) (depth : nat) (e : Entry) (found : list AbsolutePath) :
    result (list AbsolutePath) :=
  let! child := AbsolutePath.joinp directory [entry_name e] in
  match e with
  | dir_entry name listing =>
      if str_includes ignores name then Ok found
      else if refuses (shouldDescend options) child then Ok found
      else walk_with (visit child (S depth)) child (S depth) listing found
  | file_entry _ => Ok (if refuses (includeFile options) child then found else found ++ [child])
  | other_entry _ => Ok found
  end.

Definition walk (directory : AbsolutePath) (depth : nat) (listing : list Entry + ReadError)
    (found : list AbsolutePath) : result (list AbsolutePath) :=
  walk_with (visit directory depth) directory depth listing found.

Definition list_files (listing : list Entry + ReadError) : result (list AbsolutePath) := walk root 0 listing [].

(** ** What a listing holds *)

(** A file the walk is meant to find below a directory: an ordinary file the caller wants,
    under directories that are neither ignored nor refused and could be read. *)
Inductive visible : AbsolutePath → Entry → AbsolutePath → Prop :=
| visible_file dir name child :
    AbsolutePath.joinp dir [name] = Ok child → refuses (includeFile options) child = false →
    visible dir (file_entry name) child
| visible_below dir name entries child e p :
    AbsolutePath.joinp dir [name] = Ok child → name ∉ ignores → refuses (shouldDescend options) child = false →
    e ∈ entries → visible child e p → visible dir (dir_entry name (inl entries)) p.

Definition visible_in (dir : AbsolutePath) (listing : list Entry + ReadError) (p : AbsolutePath) : Prop :=
  ∃ entries e, listing = inl entries ∧ e ∈ entries ∧ visible dir e p.

Section entry_ind.
Context (P : Entry → Prop) (Hfile : ∀ n, P (file_entry n)) (Hother : ∀ n, P (other_entry n)).
Context (Hdir : ∀ n l, match l with inl es => Forall P es | inr _ => True end → P (dir_entry n l)).
Fixpoint entry_ind' (e : Entry) : P e :=
  match e with
  | file_entry n => Hfile n
  | other_entry n => Hother n
  | dir_entry n l =>
      Hdir n l (match l return match l with inl es => Forall P es | inr _ => True end with
                | inl es => (fix go es := match es return Forall P es with
                                          | [] => List.Forall_nil _
                                          | x :: r => List.Forall_cons _ _ _ (entry_ind' x) (go r) end) es
                | inr _ => I
                end)
  end.
End entry_ind.

(** A step of the walk appends exactly the given files. *)
Definition appends (run : list AbsolutePath → result (list AbsolutePath)) (Q : AbsolutePath → Prop) : Prop :=
  ∀ found found', run found = Ok found' → ∃ new, found' = found ++ new ∧ ∀ p, p ∈ new ↔ Q p.

Lemma loop_appends visit_ (Q : Entry → AbsolutePath → Prop) entries : failOnLimit options = true →
  Forall (λ e, appends (visit_ e) (Q e)) entries → appends (loop visit_ entries) (λ p, ∃ e, e ∈ entries ∧ Q e p).
Proof.
  intros Hl Hes. induction Hes as [|e es He Hes IH]; intros found found'; cbn [loop].
  - intros [= <-]. exists []. rewrite app_nil_r. set_solver.
  - unfold limited. rewrite Hl. case_if; [done|]. intros H. res_inv.
    destruct (He _ _ E) as (n1 & -> & H1). destruct (IH _ _ H) as (n2 & -> & H2).
    exists (n1 ++ n2). rewrite app_assoc. split; [done|]. intros p. rewrite elem_of_app, H1, H2. set_solver.
Qed.

Lemma walk_appends visit_ (Q : Entry → AbsolutePath → Prop) dir depth listing : failOnLimit options = true →
  match listing with inl es => Forall (λ e, appends (visit_ e) (Q e)) es | inr _ => True end →
  appends (walk_with visit_ dir depth listing) (λ p, ∃ entries e, listing = inl entries ∧ e ∈ entries ∧ Q e p).
Proof.
  intros Hl Hes found found'. unfold walk_with, limited. rewrite Hl. case_if; [done|]. case_if; [done|].
  destruct listing as [es|error].
  - intros H. destruct (loop_appends _ _ _ Hl Hes _ _ H) as (new & -> & Hn). exists new. split; [done|].
    intros p. rewrite Hn. naive_solver.
  - case_if; [done|]. intros [= <-]. exists []. rewrite app_nil_r. set_solver.
Qed.

Lemma visit_appends e : failOnLimit options = true → ∀ dir depth, appends (visit dir depth e) (visible dir e).
Proof.
  intros Hl. induction e as [n|n|n listing IH] using entry_ind'; intros dir depth found found'; cbn [visit entry_name];
    intros H; res_inv.
  - destruct (refuses (includeFile options) a) eqn:Er.
    + exists []. rewrite app_nil_r. split; [done|]. intros p. split; [by intros ?%elem_of_nil|].
      inversion 1; subst. congruence.
    + exists [a]. split; [done|]. intros p. rewrite list_elem_of_singleton. split.
      * intros ->. by constructor.
      * inversion 1; subst. congruence.
  - exists []. rewrite app_nil_r. split; [done|]. intros p. split; [by intros ?%elem_of_nil|by inversion 1].
  - destruct (str_includes ignores n) eqn:Ei.
    { res_inv. exists []. rewrite app_nil_r. split; [done|]. intros p. split; [by intros ?%elem_of_nil|].
      apply str_includes_true in Ei. by inversion 1; subst. }
    assert (n ∉ ignores) as Hni by (rewrite <-str_includes_true; congruence).
    destruct (refuses (shouldDescend options) a) eqn:Ed.
    { res_inv. exists []. rewrite app_nil_r. split; [done|]. intros p. split; [by intros ?%elem_of_nil|].
      inversion 1; subst. congruence. }
    apply (walk_appends (visit a (S depth)) (visible a)) in H as (new & -> & Hn); [|done|].
    + exists new. split; [done|]. intros p. rewrite Hn. split.
      * intros (es & e & -> & He & Hv). by eapply visible_below.
      * inversion 1 as [|? ? es child e ? Hj ? ? He Hv]; subst.
        assert (child = a) as -> by congruence. by exists es, e.
    + destruct listing as [es|]; [|done]. eapply Forall_impl; [exact IH|]. intros x Hx. apply Hx.
Qed.

(** The list never grows beyond the limit. *)
Definition bounded (run : list AbsolutePath → result (list AbsolutePath)) : Prop :=
  ∀ found found', length found < limit → run found = Ok found' → length found' ≤ limit.
Lemma loop_bounded visit_ entries : Forall (λ e, bounded (visit_ e)) entries →
  ∀ found found', length found ≤ limit → loop visit_ entries found = Ok found' → length found' ≤ limit.
Proof.
  intros Hes. induction Hes as [|e es He Hes IH]; intros found found' Hf; cbn [loop]; [by intros [= <-]|].
  unfold limited. destruct (limit <=? length found) eqn:E; bool_prop.
  - case_if; [done|]. by intros [= <-].
  - intros H. res_inv. eapply IH; [|exact H]. by eapply He.
Qed.
Lemma visit_bounded e dir depth : bounded (visit dir depth e).
Proof.
  revert dir depth. induction e as [n|n|n listing IH] using entry_ind'; intros dir depth found found' Hf;
    cbn [visit entry_name]; intros H; res_inv.
  - case_if; [lia|]. rewrite length_app. simpl. lia.
  - lia.
  - revert H. unfold walk_with, limited. case_if; [intros [= <-]; lia|]. case_if; [intros [= <-]; lia|].
    destruct (limit <=? length found) eqn:E1; bool_prop; [lia|].
    case_if; [case_if; [done|intros [= <-]; lia]|].
    destruct listing as [es|error]; [|case_if; [done|intros [= <-]; lia]].
    apply loop_bounded; [|lia]. eapply Forall_impl; [exact IH|]. intros x Hx. apply Hx.
Qed.
End list.

(** A listing that is to fail on its limits is complete: when it returns, it holds
    exactly the ordinary files the caller wants below directories it was not told to skip
    and could read, and no more of them than the limit. *)
Theorem listing_exact root options listing found : failOnLimit options = true →
  list_files root options listing = Ok found →
  (∀ p, p ∈ found ↔ visible_in options root listing p) ∧ length found ≤ limit options.
Proof.
  intros Hl H. split.
  - apply (walk_appends root options (visit root options root 0) (visible options root)) in H as (new & -> & Hn); [done|done|].
    destruct listing as [es|]; [|done]. apply Forall_forall. intros e _. by apply visit_appends.
  - revert H. unfold list_files, walk, walk_with, limited. rewrite Hl. case_if; [done|]. case_if; [done|].
    destruct listing as [es|error]; [|case_if; [done|intros [= <-]; simpl; lia]].
    apply loop_bounded; [|simpl; lia]. apply Forall_forall. intros e _. apply visit_bounded.
Qed.
End NodeFileSystem.
