(* ===== verification/Artifact.v ===== *)
(** * Artifacts (src/domain/entities/Artifact.ts, src/domain/rules/artifact/ArtifactRule.ts)

    A file already read, as the rules see it, and the template of the rules on it: paths
    relative to the workspace, matched without regard to case, and JSON read through its
    comments. *)

From S2P Require Import Prelude JsString JsMap JsNumber Json NodePath Paths Patterns Values Entities Rules.

Module Artifact.

Record Artifact := mkArtifact {
  path : AbsolutePath;
  workspace : AbsolutePath;
  content : string;
  hash : ContentHash;
  previousHash : option ContentHash
}.

(** The constructor hashes the content. *)
Definition create `{Digest} (path workspace : AbsolutePath) (content : string)
    (previous : option ContentHash) : Artifact :=
  mkArtifact path workspace content (ContentHash.fromContent content) previous.

Definition relativePath (a : Artifact) : string :=
  if negb (AbsolutePath.contains (workspace a) (path a)) then AbsolutePath.value (path a)
  else if AbsolutePath.equals (workspace a) (path a) then "."
  else sdrop (slen (AbsolutePath.value (workspace a)) + 1) (AbsolutePath.value (path a)).

Definition basename (a : Artifact) : string := AbsolutePath.basename (path a).
Definition relativeSegments (a : Artifact) : list string := split slash (relativePath a).
Definition lines (a : Artifact) : list string := split_lines (content a).

(** Where the loop of [stripJsonComments] is; the flag is [escaped]. *)
Inductive Mode := code_mode | string_mode (escaped : bool) | line_comment | block_comment.

Fixpoint strip (mode : Mode) (text : string) : string :=
  match text with
  | "" => ""
  | String c r =>
      match mode with
      | string_mode escaped =>
          String c (strip (if escaped then string_mode false
                           else if Ascii.eqb c backslash then string_mode true
                           else if Ascii.eqb c dquote then code_mode
                           else string_mode false) r)
      | line_comment => if Ascii.eqb c newline then String c (strip code_mode r) else strip line_comment r
      | block_comment =>
          match r with
          | String d r' => if Ascii.eqb c "*" && Ascii.eqb d slash then strip code_mode r' else strip block_comment r
          | "" => ""
          end
      | code_mode =>
          if Ascii.eqb c dquote then String c (strip (string_mode false) r)
          else match r with
               | String d r' =>
                   if Ascii.eqb c slash && Ascii.eqb d slash then strip line_comment r'
                   else if Ascii.eqb c slash && Ascii.eqb d "*" then strip block_comment r'
                   else String c (strip code_mode r)
               | "" => String c ""
               end
      end
  end.
Definition stripJsonComments (text : string) : string := strip code_mode text.

(** The parsed text, [null] when it is not JSON. The first answer is kept by the object,
    which cannot be told from parsing again. *)
Definition json (a : Artifact) : Json :=
  match JSON.parse (stripJsonComments (content a)) with Some v => v | None => JNull end.
Definition toString (a : Artifact) : string := relativePath a.

Example strip_sample :
  stripJsonComments ("{" +:+ JSON.q "//" +:+ ": 1, // one" +:+ nl +:+ "/*/ two */" +:+ JSON.q "/*" +:+ ": 2}")
  = "{" +:+ JSON.q "//" +:+ ": 1, " +:+ nl +:+ JSON.q "/*" +:+ ": 2}".
Proof. reflexivity. Qed.

(** ** Plain JSON reads as it is *)

(** Text that the comment handling passes over. *)
Definition inert (s : string) : Prop := ∀ t, strip code_mode (s +:+ t) = s +:+ strip code_mode t.

Lemma inert_app s t : inert s → inert t → inert (s +:+ t).
Proof. intros Hs Ht u. by rewrite !sapp_assoc, Hs, Ht. Qed.
Lemma inert_chars s : sforall (λ c, negb (Ascii.eqb c slash || Ascii.eqb c dquote)) s = true → inert s.
Proof.
  intros Hs t. induction s as [|c s IH]; [done|]. cbn in Hs. bool_prop. specialize (IH H0).
  cbn [String.append strip]. rewrite H1, H. cbn [andb]. rewrite <-IH. by destruct (s +:+ t).
Qed.
Lemma inert_join sep l : inert sep → Forall inert l → inert (join sep l).
Proof.
  intros Hs Hl. induction Hl as [|x l Hx Hl IH]; [done|]. destruct l; [done|].
  rewrite join_cons by done. by apply inert_app; [|apply inert_app].
Qed.

Lemma strip_json_char c t : strip (string_mode false) (json_char c +:+ t) = json_char c +:+ strip (string_mode false) t.
Proof. by destruct c as [[] [] [] [] [] [] [] []]. Qed.
Lemma inert_string s : inert (JSON_stringify s).
Proof.
  intros t. unfold JSON_stringify. rewrite !sapp_assoc.
  change (strip code_mode (str1 dquote +:+ ?x)) with (str1 dquote +:+ strip (string_mode false) x). f_equal.
  induction s as [|c s IH]; [done|]. cbn [json_body]. by rewrite !sapp_assoc, strip_json_char, IH.
Qed.
Lemma inert_int z : inert (string_of_Z z).
Proof.
  assert (∀ n, (0 ≤ n)%Z → inert (string_of_Z n)) as Hn.
  { intros n Hn. apply inert_chars. destruct (string_of_Z_spec n Hn) as (Hd & _).
    eapply sforall_impl; [|exact Hd]. intros c. by destruct c as [[] [] [] [] [] [] [] []]. }
  destruct (Z.ltb_spec z 0) as [Hz|Hz]; [|by apply Hn].
  assert (string_of_Z z = "-" +:+ string_of_Z (- z)) as ->.
  { unfold string_of_Z. destruct (Z.ltb_spec z 0), (Z.ltb_spec (- z) 0); try lia. done. }
  apply inert_app; [by apply inert_chars|apply Hn; lia].
Qed.
Lemma inert_ws w : JSON.ws w → inert w.
Proof.
  intros Hw. apply inert_chars. eapply sforall_impl; [|exact Hw]. intros c. by destruct c as [[] [] [] [] [] [] [] []].
Qed.

Lemma inert_wrap gap indent open close items : JSON.ws gap → JSON.ws indent → inert open → inert close →
  Forall inert items → inert (JSON.wrap gap indent open close items).
Proof.
  intros Hg Hi Ho Hc Hl. destruct items as [|x l]; [by apply inert_app|].
  destruct (JSON.wrap_shape gap indent Hg Hi) as (w0 & w1 & Hw0 & Hw1 & Hwrap). rewrite Hwrap by done.
  repeat apply inert_app; auto using inert_ws. apply inert_join; [|done].
  apply inert_app; [by apply inert_chars|by apply inert_ws].
Qed.

Lemma inert_serialize gap v : JSON.ws gap → JSON.canonical v → ∀ indent, JSON.ws indent →
  inert (JSON.serialize gap indent v).
Proof.
  intros Hg. induction v as [|b|n|s|l IH|m IH] using json_ind'; intros Hc indent Hi; inv Hc.
  - by apply inert_chars.
  - destruct b; by apply inert_chars.
  - apply inert_int.
  - apply inert_string.
  - apply inert_wrap; [done..|by apply inert_chars|by apply inert_chars|].
    apply Forall_map, Forall_forall. intros x Hx. rewrite Forall_forall in IH, H0. cbn.
    apply IH; [done|by apply H0|by apply JSON.ws_app].
  - cbn [JSON.serialize]. rewrite JSON.own_order_map, H1.
    apply inert_wrap; [done..|by apply inert_chars|by apply inert_chars|].
    apply Forall_map, Forall_map, Forall_forall. intros kv Hkv. cbv beta. unfold JSON.member. cbn [fst snd].
    rewrite Forall_forall in IH. pose proof (proj1 (Forall_forall _ _) H2) as Hcan.
    apply inert_app; [apply inert_string|]. apply inert_app; [by apply inert_chars|].
    apply inert_app; [by destruct (gap =? "")%string; apply inert_chars|].
    apply IH; [done|apply Hcan; by apply list_elem_of_fmap_2|by apply JSON.ws_app].
Qed.

(** A file that holds the JSON text of a value reads as that value, whatever its strings
    hold: the comment handling never touches a string. *)
Lemma json_of_stringify a gap v w : JSON.ws gap → JSON.ws w → JSON.canonical v →
  content a = JSON.stringify gap v +:+ w → json a = v.
Proof.
  intros Hg Hw Hv Ha. unfold json, stripJsonComments. rewrite Ha.
  pose proof (inert_app _ _ (inert_serialize gap v Hg Hv "" eq_refl) (inert_ws w Hw) "") as H.
  cbn [strip] in H. rewrite !sapp_nil_r in H. fold (JSON.stringify gap v) in H. rewrite H.
  by rewrite (JSON.parse_stringify gap v w Hg Hw Hv).
Qed.
End Artifact.
Abbreviation Artifact := Artifact.Artifact.

(** ** The template of the rules *)

Module ArtifactRule.
Import Artifact.

Definition matchSegment (pattern segment : string) : bool :=
  if negb (has_char PathPattern.star pattern) then (pattern =? segment)%string
  else
    let parts := split PathPattern.star pattern in
    let first := PathPattern.first_part parts in
    let last := PathPattern.last_part (tail parts) in
    startsWith segment first && endsWith segment last && (slen first + slen last <=? slen segment).

Fixpoint match_ (pattern : list string) : list string → bool :=
  match pattern with
  | [] => λ target, match target with [] => true | _ => false end
  | head :: rest =>
      if (head =? PathPattern.RECURSIVE)%string then
        fix skip (target : list string) : bool :=
          match_ rest target || match target with [] => false | _ :: t => skip t end
      else λ target,
        match target with
        | [] => false
        | segment :: t => if negb (matchSegment head segment) then false else match_ rest t
        end
  end.

Definition matchRelative (pattern relativePath : string) : bool :=
  match_ (split slash (toLowerCase pattern)) (split slash (toLowerCase relativePath)).

(** [appliesTo] of a rule that reads the files at [paths]. *)
Definition appliesTo (paths : list string) (a : Artifact) : bool :=
  some (λ p, matchRelative p (relativePath a)) paths.

(** [ArtifactRule.at(value, ...keys)] for keys no prototype has. *)
Definition at_ (value : Json) (keys : list string) : option Json :=
  fold_left (λ current key, match current with
                            | Some v => if JSON.isObject v then JSON.prop v key else None
                            | None => None
                            end) keys (Some value).

(** ** The matcher decides the globs of [PathPattern] *)

(** A segment with at most one star, as all shipped patterns have. *)
Definition simple (pattern : string) : bool := length (split PathPattern.star pattern) <=? 2.

Lemma matchSegment_simple p s : simple p = true → matchSegment p s = PathPattern.matchSegment p s.
Proof.
  unfold simple, matchSegment, PathPattern.matchSegment. intros Hp. case_if; [done|].
  apply negb_false_iff, PathPattern.split_star_shape in Heqb as (f & ms & l & E). rewrite E in Hp |- *.
  bool_prop. rewrite length_cons, length_app in Hp. destruct ms; [|simpl in Hp; lia]. cbn [app tail removelast].
  cbn [PathPattern.first_part PathPattern.match_middles]. unfold PathPattern.last_part. cbn [last].
  destruct (startsWith s f), (endsWith s l); cbn [negb andb]; rewrite ?andb_true_r, ?andb_false_r; try done;
    destruct (slen s <? slen f + slen l) eqn:E1; try done; bool_prop.
  - apply Nat.leb_gt. lia.
  - apply Nat.leb_le. lia.
Qed.

Definition plain_segment (p : string) : bool := (p =? PathPattern.RECURSIVE)%string || simple p.
Lemma match_simple ps ts : every plain_segment ps = true → match_ ps ts = PathPattern.matchSegments ps ts.
Proof.
  revert ts. induction ps as [|p ps IH]; intros ts Hs; [done|]. cbn in Hs. apply andb_true_iff in Hs as [Hp Hs].
  cbn [match_ PathPattern.matchSegments]. unfold plain_segment in Hp. destruct (p =? PathPattern.RECURSIVE)%string.
  - induction ts as [|t ts IHt]; cbn; by rewrite IH, ?IHt.
  - destruct ts as [|t ts]; [done|]. rewrite matchSegment_simple by done. case_if; [done|]. by apply IH.
Qed.

(** On patterns whose segments are [**] or have at most one star, which are all the rules
    use, the relative matcher decides the globs of the path patterns, cases aside. *)
Lemma matchRelative_glob pattern rel : every plain_segment (split slash (toLowerCase pattern)) = true →
  matchRelative pattern rel = true
  ↔ PathPattern.glob (split slash (toLowerCase pattern)) (split slash (toLowerCase rel)).
Proof. intros Hp. unfold matchRelative. by rewrite match_simple, PathPattern.matchSegments_glob. Qed.
End ArtifactRule.
