(* ===== verification/ArtifactRules.v ===== *)
(** * Rules on artifacts (src/domain/rules/artifact)

    Families H (hooks), E (environment and MCP), I (instructions) and C (continuous
    integration): one rule per class of the sources, in the order of [ARTIFACT_RULES].
    Contents are strings of code units below 256, so of the invisible characters only the
    soft hyphen can occur, and a tag character cannot. *)

From S2P Require Import Prelude JsString JsMap JsNumber Json NodePath Paths Patterns Values Entities.
From S2P Require Import Regex Rules Artifact.
Import Rule Artifact.

Definition quoted (s : string) : string := str1 dquote +:+ s +:+ str1 dquote.

(** A finding on an artifact: the rule's title and the hash of the content. *)
Definition hit (h : Header) (a : Artifact) (detail subject : string) (loc : option SourceLocation) : Finding :=
  finding h (mkDraft (h_title h) detail subject (Some (hash a)) loc None None).
(** The first line a text test selects. *)
Definition locate (a : Artifact) (needle : string → bool) : result (option SourceLocation) :=
  SourceLocation.firstMatch (content a) needle.
Definition locate_text (a : Artifact) (needle : string) : result (option SourceLocation) :=
  locate a (λ line, includes line needle).
Definition artifact_rule (h : Header) (paths : list string) (look : Artifact → result (list Finding)) : Rule Artifact :=
  of_header h (λ a, Ok (ArtifactRule.appliesTo paths a)) look.

(** ** hooks.ts *)

Module hooks.
Definition AGENT_SETTINGS : list string := [".claude/settings.json"; ".claude/settings.local.json"].

Definition H001 : Header :=
  mkHeader (RuleId.mkRuleId "AG-H001" "H" 1) Severity.HIGH Disposition.ASK
    "Repository settings define an agent hook"
    "Open the file and read the command. A hook committed to a repository runs on your machine with your permissions, every session, without asking.".
Definition RepositoryHookRule : Rule Artifact :=
  artifact_rule H001 AGENT_SETTINGS
    (λ a,
      match ArtifactRule.at_ (json a) ["hooks"] with
      | Some (JObject hooks) =>
          let names := map fst (JSON.own_order hooks) in
          if length names =? 0 then Ok []
          else
            let! loc := locate_text a (quoted "hooks") in
            Ok [hit H001 a
                  (relativePath a +:+ " defines " +:+ string_of_nat (length names) +:+ " hook ("
                   +:+ join ", " names +:+ ").")
                  (relativePath a) loc]
      | _ => Ok []
      end).

Definition H002 : Header :=
  mkHeader (RuleId.mkRuleId "AG-H002" "H" 2) Severity.CRITICAL Disposition.ASK
    "Hook runs at session start"
    "This is the ChainDrop pattern: a compromised dependency plants a SessionStart hook that fires the next time the agent opens. Read the command before allowing it.".
Definition SessionStartHookRule : Rule Artifact :=
  artifact_rule H002 AGENT_SETTINGS
    (λ a,
      match ArtifactRule.at_ (json a) ["hooks"] with
      | Some (JObject hooks) =>
          rmapM (λ name,
              let! loc := locate_text a name in
              Ok (hit H002 a (relativePath a +:+ " runs a command on every " +:+ name +:+ ".") (relativePath a) loc))
            (bfilter (λ name, (name =? "SessionStart")%string) (map fst (JSON.own_order hooks)))
      | _ => Ok []
      end).

Definition H003 : Header :=
  mkHeader (RuleId.mkRuleId "AG-H003" "H" 3) Severity.CRITICAL Disposition.ASK
    "VS Code task runs on folder open"
    "Opening this repository in your editor executes the task. Remove runOptions.runOn or read the command first.".
(** [JSON.stringify(at(task, key) ?? fallback)] *)
Definition stringify_or (task : Json) (key fallback : string) : string :=
  JSON.stringify "" (match ArtifactRule.at_ task [key] with
                     | None | Some JNull => JString fallback
                     | Some v => v
                     end).
Definition is_text (v : option Json) (s : string) : bool :=
  match v with Some (JString t) => (t =? s)%string | _ => false end.
Definition FolderOpenTaskRule : Rule Artifact :=
  artifact_rule H003 [".vscode/tasks.json"]
    (λ a,
      match ArtifactRule.at_ (json a) ["tasks"] with
      | Some (JArray tasks) =>
          rmapM (λ task,
              let! loc := locate_text a "folderOpen" in
              Ok (hit H003 a
                    ("Task " +:+ stringify_or task "label" "unnamed" +:+ " runs "
                     +:+ stringify_or task "command" "" +:+ " when the folder opens.")
                    (relativePath a) loc))
            (bfilter (λ task, is_text (ArtifactRule.at_ task ["runOptions"; "runOn"]) "folderOpen") tasks)
      | _ => Ok []
      end).

Definition H004 : Header :=
  mkHeader (RuleId.mkRuleId "AG-H004" "H" 4) Severity.HIGH Disposition.ASK
    "Dev container runs a lifecycle command"
    "initializeCommand runs on the host, not in the container. Read it before reopening the folder in a container.".
Definition LIFECYCLE : list string :=
  ["initializeCommand"; "onCreateCommand"; "postCreateCommand"; "postStartCommand"; "postAttachCommand"].
Definition DevcontainerLifecycleRule : Rule Artifact :=
  artifact_rule H004 [".devcontainer/devcontainer.json"; ".devcontainer/**/devcontainer.json"]
    (λ a,
      match json a with
      | JObject document =>
          match bfilter (JsMap.has document) LIFECYCLE with
          | [] => Ok []
          | first :: _ as present =>
              let! loc := locate_text a first in
              Ok [hit H004 a (relativePath a +:+ " defines " +:+ join ", " present +:+ ".") (relativePath a) loc]
          end
      | _ => Ok []
      end).

Definition H005 : Header :=
  mkHeader (RuleId.mkRuleId "AG-H005" "H" 5) Severity.HIGH Disposition.ASK
    "Repository carries a git hook"
    "Hooks in .git/hooks run on checkout, merge and commit. Read the script, then remove it or allow it deliberately.".
Definition ClonedGitHookRule : Rule Artifact :=
  artifact_rule H005 [".git/hooks/*"]
    (λ a,
      if endsWith (basename a) ".sample" then Ok []
      else
        let! loc := SourceLocation.atLine 1 (head (lines a)) in
        Ok [hit H005 a (relativePath a +:+ " will run during ordinary git operations.") (relativePath a) (Some loc)]).

Definition H006 : Header :=
  mkHeader (RuleId.mkRuleId "AG-H006" "H" 6) Severity.MEDIUM Disposition.OBSERVE
    "Repository carries a .envrc"
    "With direnv installed, this file executes when you enter the directory. `direnv allow` is the moment to read it.".
Definition DirenvRule : Rule Artifact :=
  artifact_rule H006 [".envrc"]
    (λ a, Ok [hit H006 a (relativePath a +:+ " executes on directory entry when direnv is installed.")
                (relativePath a) None]).
End hooks.

(** ** env.ts *)

Module env.
Definition MCP_FILES : list string := [".mcp.json"; ".cursor/mcp.json"; ".vscode/mcp.json"].
Definition ENDPOINT_VARIABLES : list string :=
  ["ANTHROPIC_BASE_URL"; "ANTHROPIC_AUTH_TOKEN"; "ANTHROPIC_API_URL"; "OPENAI_BASE_URL"; "OPENAI_API_BASE";
   "GOOGLE_GEMINI_BASE_URL"; "GEMINI_API_BASE"; "AWS_ENDPOINT_URL_BEDROCK"].

Definition E001 : Header :=
  mkHeader (RuleId.mkRuleId "AG-E001" "E" 1) Severity.CRITICAL Disposition.ASK
    "Repository ships a .gemini/.env"
    "CVE-2026-12537: Gemini CLI before 0.39.1 executed content from this file. Upgrade, and delete the committed file — an environment file belongs on your machine, not in a repo.".
Definition GeminiEnvRule : Rule Artifact :=
  artifact_rule E001 [".gemini/.env"; ".gemini/**/.env"]
    (λ a, Ok [hit E001 a (relativePath a +:+ " is loaded by Gemini CLI when it starts in this directory.")
                (relativePath a) None]).

Definition E002 : Header :=
  mkHeader (RuleId.mkRuleId "AG-E002" "E" 2) Severity.CRITICAL Disposition.ASK
    "Repository defines an MCP server"
    "The agent launches this command when the session opens. Read the command and its arguments; the decision is remembered per file content, so an edited definition asks again.".
Definition describeArgs (args : option Json) : result string :=
  match args with
  | Some (JArray l) => rmap (join " ") (rmapM JSON.to_string l)
  | _ => Ok ""
  end.
(** [String(at(definition, 'command') ?? 'unknown command')] *)
Definition command_text (definition : Json) : result string :=
  match ArtifactRule.at_ definition ["command"] with
  | None | Some JNull => Ok "unknown command"
  | Some v => JSON.to_string v
  end.
(** [trim] belongs to the last of the three templates alone. *)
Definition McpServerRule : Rule Artifact :=
  artifact_rule E002 MCP_FILES
    (λ a,
      match ArtifactRule.at_ (json a) ["mcpServers"] with
      | Some (JObject servers) =>
          rmapM (λ server,
              let! command := command_text server.2 in
              let! args := describeArgs (ArtifactRule.at_ server.2 ["args"]) in
              let! loc := locate_text a (quoted server.1) in
              Ok (hit E002 a
                    (relativePath a +:+ " launches " +:+ quoted server.1 +:+ ": " +:+ command +:+ " " +:+ trim args)
                    (relativePath a +:+ "#" +:+ server.1) loc))
            (JSON.own_order servers)
      | _ => Ok []
      end).

Definition E003 : Header :=
  mkHeader (RuleId.mkRuleId "AG-E003" "E" 3) Severity.MEDIUM Disposition.OBSERVE
    "MCP server is fetched without a pinned version"
    "Pin the version (`package@1.2.3`). Without a pin, the code that runs on your machine can change under you at any time, and the approval you gave once no longer means anything.".
Definition isPinned (specifier : string) : bool :=
  match lastIndexOf specifier "@" with
  | None | Some 0 => false
  | Some at_ => match sdrop (S at_) specifier with String c _ => is_digit c | "" => false end
  end.
Definition package_text (v : Json) : option string :=
  match v with JString s => if startsWith s "-" then None else Some s | _ => None end.
Fixpoint first_package (args : list Json) : option string :=
  match args with
  | [] => None
  | v :: rest => match package_text v with Some s => Some s | None => first_package rest end
  end.
Definition FETCHERS : list string := ["npx"; "uvx"; "pnpx"].
(** The findings for one server: one or none. *)
Definition unpinned (a : Artifact) (server : string * Json) : result (list Finding) :=
  match ArtifactRule.at_ server.2 ["command"] with
  | Some (JString command) =>
      if negb (str_includes FETCHERS command) then Ok []
      else
        let args := match ArtifactRule.at_ server.2 ["args"] with Some (JArray l) => l | _ => [] end in
        match first_package args with
        | None => Ok []
        | Some specifier =>
            if isPinned specifier then Ok []
            else
              let! loc := locate_text a (quoted server.1) in
              Ok [hit E003 a
                    (quoted server.1 +:+ " runs " +:+ command +:+ " " +:+ specifier +:+ " with no version pin.")
                    (relativePath a +:+ "#" +:+ server.1) loc]
        end
  | _ => Ok []
  end.
Definition UnpinnedMcpServerRule : Rule Artifact :=
  artifact_rule E003 MCP_FILES
    (λ a,
      match ArtifactRule.at_ (json a) ["mcpServers"] with
      | Some (JObject servers) => rmap (@concat Finding) (rmapM (unpinned a) (JSON.own_order servers))
      | _ => Ok []
      end).

Definition E004 : Header :=
  mkHeader (RuleId.mkRuleId "AG-E004" "E" 4) Severity.CRITICAL Disposition.BLOCK
    "Repository redirects the model endpoint"
    "CVE-2026-21852: a repository that sets the base URL routes your traffic — and your API key — through a server it chose. There is no legitimate reason for a checked-in file to do this.".
Definition ENDPOINT_FILES : list string :=
  [".env"; ".env.*"; ".envrc"; ".gemini/.env"; ".claude/settings.json"; ".claude/settings.local.json";
   ".vscode/settings.json"; ".cursor/environment.json"; "mise.toml"; ".tool-versions"].
Definition EndpointOverrideRule : Rule Artifact :=
  artifact_rule E004 ENDPOINT_FILES
    (λ a,
      match find (includes (content a)) ENDPOINT_VARIABLES with
      | None => Ok []
      | Some variable =>
          let! loc := locate_text a variable in
          Ok [hit E004 a
                (relativePath a +:+ " sets " +:+ variable +:+ ", redirecting where your requests and key go.")
                (relativePath a) loc]
      end).

Definition E005 : Header :=
  mkHeader (RuleId.mkRuleId "AG-E005" "E" 5) Severity.HIGH Disposition.ASK
    "Repository pre-approves its own MCP servers"
    "This flag removes the prompt that would otherwise let you see what the server runs. Approving servers is a decision for your user settings, not for a cloned repository.".
Definition AUTO_APPROVE_KEYS : list string := ["enableAllProjectMcpServers"; "enabledMcpjsonServers"].
Definition approves (v : option Json) : bool :=
  match v with Some (JBool true) => true | Some (JArray l) => 0 <? length l | _ => false end.
Definition McpAutoApprovalRule : Rule Artifact :=
  artifact_rule E005 [".claude/settings.json"; ".claude/settings.local.json"]
    (λ a,
      match json a with
      | JObject document =>
          rmapM (λ key,
              let! loc := locate_text a key in
              Ok (hit E005 a (relativePath a +:+ " sets " +:+ key +:+ ", approving MCP servers without asking.")
                    (relativePath a) loc))
            (bfilter (λ key, approves (JsMap.get document key)) AUTO_APPROVE_KEYS)
      | _ => Ok []
      end).
End env.

(** ** instructions.ts *)

Module instructions.
Import Regex.

Definition INSTRUCTION_FILES : list string :=
  ["CLAUDE.md"; "CLAUDE.local.md"; "AGENTS.md"; "GEMINI.md"; ".cursorrules"; ".cursor/rules/**";
   ".github/copilot-instructions.md"; ".windsurfrules"; "**/CLAUDE.md"; "**/AGENTS.md"].

Definition spaces : regex := Star (Chars is_space).
Definition spaces1 : regex := plus (Chars is_space).
Definition pipe : ascii := "|"%char.
(** [[^\n|]*] *)
Definition up_to_pipe : regex := Star (Chars (λ c, negb (Ascii.eqb c newline || Ascii.eqb c pipe))).
(** [(?:curl|wget)], and a shell with an optional prefix of its name *)
Definition fetcher : regex := Alt (lit_i "curl") (lit_i "wget").
Definition shell (prefixes : list string) : regex := Seq (opt (alts (map lit_i prefixes))) (lit_i "sh").
Definition sudo : regex := opt (Seq (lit_i "sudo") spaces1).
Definition quote_mark (c : ascii) : bool := Ascii.eqb c dquote || Ascii.eqb c squote.
Definition no_quotes : regex := Star (Chars (λ c, negb (quote_mark c))).
(** [[a-z]] under the [i] flag *)
Definition letter_i : regex := Chars (λ c, is_lower c || is_upper c).

Definition EXECUTION_PATTERNS : list (regex * string) :=
  [(seqs [WordBoundary; fetcher; WordBoundary; up_to_pipe; char pipe; spaces; sudo;
          shell ["ba"; "z"; "d"; "k"]; WordBoundary],
    "download piped into a shell");
   (seqs [WordBoundary; lit_i "base64"; WordBoundary; up_to_pipe; Alt (lit_i "-d") (lit_i "--decode"); up_to_pipe;
          char pipe; spaces; shell ["ba"; "z"]; WordBoundary],
    "base64 payload piped into a shell");
   (seqs [WordBoundary; lit_i "eval"; spaces;
          opt (Chars (λ c, quote_mark c || Ascii.eqb c "`")); lit "$("; spaces; fetcher],
    "eval of downloaded content");
   (seqs [WordBoundary; lit_i "python"; opt (lit "3"); spaces1; lit_i "-c"; spaces1; Chars quote_mark;
          no_quotes; Alt (lit_i "urllib") (lit_i "requests"); no_quotes; lit_i "exec"],
    "python one-liner that fetches and executes");
   (seqs [char pipe; spaces; sudo; shell ["ba"; "z"]; spaces1; lit "-"; Star letter_i; lit_i "c"; WordBoundary],
    "pipe into an inline shell")].

Definition I001 : Header :=
  mkHeader (RuleId.mkRuleId "AG-I001" "I" 1) Severity.HIGH Disposition.ASK
    "Instruction file tells the agent to execute remote content"
    "The agent treats this file as trusted input. Read the command it is being told to run; if you did not write this line, treat the repository as hostile.".
Definition ExecutionImperativeRule : Rule Artifact :=
  artifact_rule I001 INSTRUCTION_FILES
    (λ a,
      rmapM (λ pw,
          let! loc := locate a (test pw.1) in
          Ok (hit I001 a (relativePath a +:+ " contains a " +:+ pw.2 +:+ ".") (relativePath a) loc))
        (bfilter (λ pw, test pw.1 (content a)) EXECUTION_PATTERNS)).

(** Of the class of invisible characters only U+00AD is below 256; the tag characters need
    two code units above it. *)
Definition INVISIBLE : regex := Chars (λ c, code c =? 173).
Definition TAG_CHARACTERS : regex := Chars (λ _, false).

(** [content.match(/<!--[\s\S]*?-->/g)]: from each opening to the nearest closing after it;
    the search goes on behind the closing. The text gets shorter, so its length is fuel. *)
Fixpoint html_comments (fuel : nat) (text : string) : list string :=
  match fuel with
  | O => []
  | S f =>
      match indexOf text "<!--" with
      | None => []
      | Some i =>
          let body := sdrop (i + 4) text in
          match indexOf body "-->" with
          | None => []
          | Some j => ("<!--" +:+ stake j body +:+ "-->") :: html_comments f (sdrop (j + 3) body)
          end
      end
  end.

(** [\b(ignore|...)\b] under the [i] flag *)
Definition IMPERATIVE : regex :=
  seqs [WordBoundary;
        alts (map lit_i ["ignore"; "disregard"; "instead"; "system"; "assistant"; "must"; "always"; "never"; "secret";
                         "exfiltrat"; "send"; "upload"; "token"; "credential"]);
        WordBoundary].
Definition findInstructionalComment (content : string) : option string :=
  find (λ comment, (40 <? slen comment) && test IMPERATIVE comment) (html_comments (S (slen content)) content).

Definition I002 : Header :=
  mkHeader (RuleId.mkRuleId "AG-I002" "I" 2) Severity.HIGH Disposition.ASK
    "Instruction file contains text you cannot see"
    "The agent reads this; your editor does not show it. Text that hides from the reviewer and not from the model has exactly one purpose.".
Definition HiddenInstructionRule : Rule Artifact :=
  artifact_rule I002 INSTRUCTION_FILES
    (λ a,
      let! invisible :=
        if test INVISIBLE (content a) then
          let! loc := locate a (test INVISIBLE) in
          Ok [hit I002 a (relativePath a +:+ " contains zero-width or bidirectional control characters.")
                (relativePath a) loc]
        else Ok [] in
      let! tags :=
        if test TAG_CHARACTERS (content a) then
          let! loc := locate a (test TAG_CHARACTERS) in
          Ok [hit I002 a (relativePath a +:+ " contains Unicode tag characters, which render as nothing.")
                (relativePath a) loc]
        else Ok [] in
      let! comments :=
        match findInstructionalComment (content a) with
        | None => Ok []
        | Some _ =>
            let! loc := locate_text a "<!--" in
            Ok [hit I002 a (relativePath a +:+ " hides an instruction inside an HTML comment.")
                  (relativePath a) loc]
        end in
      Ok (invisible ++ tags ++ comments)).

Definition I003 : Header :=
  mkHeader (RuleId.mkRuleId "AG-I003" "I" 3) Severity.MEDIUM Disposition.OBSERVE
    "Instruction file changed since the last run"
    "A file you already read can change under a `git pull`. Review the diff before the next session rather than after it.".
Definition InstructionDriftRule : Rule Artifact :=
  of_header I003
    (λ a, Ok (ArtifactRule.appliesTo INSTRUCTION_FILES a && bool_decide (is_Some (previousHash a))))
    (λ a,
      match previousHash a with
      | None => Ok []
      | Some previous =>
          if ContentHash.equals previous (hash a) then Ok []
          else Ok [hit I003 a
                     (relativePath a +:+ " changed from " +:+ ContentHash.short previous +:+ " to "
                      +:+ ContentHash.short (hash a) +:+ " since the last scan.")
                     (relativePath a) None]
      end).
End instructions.

(** ** ci.ts *)

Module ci.
Import Regex.

Definition WORKFLOWS : list string := [".github/workflows/*.yml"; ".github/workflows/*.yaml"].
Definition AGENT_ACTIONS : list string :=
  ["anthropics/claude-code-action"; "google-github-actions/run-gemini-cli"; "openai/codex-action";
   "github/copilot-cli-action"].
Definition AGENT_COMMANDS : regex :=
  seqs [WordBoundary; alts (map lit ["claude"; "gemini"; "codex"; "aider"; "cursor-agent"]); WordBoundary].
Definition isAgentWorkflow (content : string) : bool :=
  some (includes content) AGENT_ACTIONS || test AGENT_COMMANDS content.

(** A known-vulnerable client: the text before its version, whether that text must not
    follow a word character or a hyphen, and the version that fixes it. *)
Record Vulnerable := mkVulnerable {
  v_name : string; v_prefix : string; v_guarded : bool; v_fixedIn : string; v_cve : string }.
Definition VULNERABLE : list Vulnerable :=
  [mkVulnerable "run-gemini-cli" "google-github-actions/run-gemini-cli@" false "0.1.22" "CVE-2026-12537";
   mkVulnerable "gemini-cli" "gemini-cli@" true "0.39.1" "CVE-2026-12537";
   mkVulnerable "claude-code" "@anthropic-ai/claude-code@" false "2.1.163" "CVE-2026-54316"].

(** [\d+], greedily: the digits and the rest. *)
Definition digits1 (s : string) : option (string * string) :=
  let d := take_while is_digit s in
  if (d =? "")%string then None else Some (d, skip_while is_digit s).
Definition skip_char (c : ascii) (s : string) : option string :=
  match s with String x r => if Ascii.eqb x c then Some r else None | "" => None end.
(** [(\d+\.\d+\.\d+)] at the start of the text. *)
Definition version_at (s : string) : option string :=
  match digits1 s with
  | None => None
  | Some (x, r) =>
      match skip_char "." r ≫= digits1 with
      | None => None
      | Some (y, r') =>
          match skip_char "." r' ≫= digits1 with
          | None => None
          | Some (z, _) => Some (x +:+ "." +:+ y +:+ "." +:+ z)
          end
      end
  end.
(** [prefix v?(version)] at the start of the text: the version and the whole match. A digit
    run is followed by no digit and a [v] is no digit, so backtracking finds nothing more. *)
Definition pin_at (prefix s : string) : option (string * string) :=
  if startsWith s prefix then
    let r := sdrop (slen prefix) s in
    let '(v, r) := match skip_char "v" r with Some r' => ("v", r') | None => ("", r) end in
    (λ version, (version, prefix +:+ v +:+ version)) <$> version_at r
  else None.
(** [content.matchAll(pattern)]: [skip] characters belong to the previous match, [prev] is
    the character before. *)
Fixpoint pins (entry : Vulnerable) (skip : nat) (prev : option ascii) (s : string) : list (string * string) :=
  match s with
  | "" => []
  | String c r =>
      match skip with
      | S k => pins entry k (Some c) r
      | O =>
          let blocked := v_guarded entry
                         && match prev with Some p => is_word p || Ascii.eqb p "-" | None => false end in
          match (if blocked then None else pin_at (v_prefix entry) s) with
          | Some (version, match0) => (version, match0) :: pins entry (slen match0 - 1) (Some c) r
          | None => pins entry 0 (Some c) r
          end
      end
  end.

(** The sign of the difference is all that is used. *)
Fixpoint compare_parts (n : nat) (a b : list Z) : Z :=
  match n with
  | O => 0
  | S k =>
      let difference := (match a with x :: _ => x | [] => 0 end - match b with y :: _ => y | [] => 0 end)%Z in
      if (difference =? 0)%Z then compare_parts k (tail a) (tail b) else difference
  end.
Definition numbers (version : string) : list Z := map (digits_value 0) (split "." version).
Definition compareVersions (left_ right_ : string) : Z := compare_parts 3 (numbers left_) (numbers right_).

Definition C001 : Header :=
  mkHeader (RuleId.mkRuleId "AG-C001" "C" 1) Severity.CRITICAL Disposition.BLOCK
    "Workflow pins a known-vulnerable agent CLI"
    "Upgrade to the fixed version listed in the finding, then re-run.".
Definition vulnerable_pins (a : Artifact) (entry : Vulnerable) : result (list Finding) :=
  rmapM (λ pin,
      let! loc := locate_text a pin.2 in
      Ok (hit C001 a
            (v_name entry +:+ " " +:+ pin.1 +:+ " is affected by " +:+ v_cve entry +:+ "; fixed in "
             +:+ v_fixedIn entry +:+ ".") (relativePath a) loc))
    (bfilter (λ pin, (compareVersions pin.1 (v_fixedIn entry) <? 0)%Z) (pins entry 0 None (content a))).
Definition VulnerableCliVersionRule : Rule Artifact :=
  artifact_rule C001 WORKFLOWS (λ a, rmap (@concat Finding) (rmapM (vulnerable_pins a) VULNERABLE)).

Definition C002 : Header :=
  mkHeader (RuleId.mkRuleId "AG-C002" "C" 2) Severity.HIGH Disposition.ASK
    "Workflow disables the agent permission prompt"
    "In CI nobody is there to answer a prompt, so this flag means every tool call is approved. Pair it with a narrow token and a job that holds no other secrets.".
Definition YOLO_FLAGS : list string :=
  ["--yolo"; "--dangerously-skip-permissions"; "--approval-mode=yolo"; "--full-auto"].
Definition PermissionSkipFlagRule : Rule Artifact :=
  artifact_rule C002 WORKFLOWS
    (λ a,
      match find (includes (content a)) YOLO_FLAGS with
      | None => Ok []
      | Some flag =>
          let! loc := locate_text a flag in
          Ok [hit C002 a (relativePath a +:+ " passes " +:+ flag +:+ ".") (relativePath a) loc]
      end).

(** [/^\s*-\s+(uses|run):/] *)
Definition STEP : regex :=
  seqs [Bol; Star (Chars is_space); lit "-"; plus (Chars is_space); Alt (lit "uses") (lit "run"); lit ":"].
Definition isAgentStep (line : string) : bool :=
  if negb (test STEP line) then false
  else some (includes line) AGENT_ACTIONS || test AGENT_COMMANDS line.

(** [lines.findIndex(isAgentStep)]: the index, the line and the lines after it. *)
Fixpoint find_step (index : Z) (ls : list string) : option (Z * string * list string) :=
  match ls with
  | [] => None
  | l :: rest => if isAgentStep l then Some (index, l, rest) else find_step (index + 1) rest
  end.

Definition C003 : Header :=
  mkHeader (RuleId.mkRuleId "AG-C003" "C" 3) Severity.MEDIUM Disposition.OBSERVE
    "Steps run after the agent step"
    "Anything the agent wrote is consumed by the steps that follow it. Put the agent last, or treat everything after it as untrusted input.".
Definition AgentStepNotLastRule : Rule Artifact :=
  artifact_rule C003 WORKFLOWS
    (λ a,
      if negb (isAgentWorkflow (content a)) then Ok []
      else match find_step 0 (lines a) with
           | None => Ok []
           | Some (index, line, following) =>
               if negb (some (test STEP) following) then Ok []
               else
                 let! loc := SourceLocation.atLine (index + 1) (Some line) in
                 Ok [hit C003 a (relativePath a +:+ " runs further steps after the agent step.")
                       (relativePath a) (Some loc)]
           end).

Definition C004 : Header :=
  mkHeader (RuleId.mkRuleId "AG-C004" "C" 4) Severity.HIGH Disposition.ASK
    "Two agent passes share one checkout"
    "The first pass can write an instruction file that the second one loads as trusted input. Check out again between passes, or run them in separate jobs.".
(** [/uses:.*(codex|claude|gemini)/i] *)
Definition USES_AGENT : regex :=
  seqs [lit_i "uses"; lit ":"; Star Dot; alts (map lit_i ["codex"; "claude"; "gemini"])].
Definition DoublePassRule : Rule Artifact :=
  artifact_rule C004 WORKFLOWS
    (λ a,
      let checkouts := length (bfilter (λ l, includes l "actions/checkout@") (lines a)) in
      let passes := length (bfilter isAgentStep (lines a)) in
      if (passes <? 2) || (passes - 1 <? checkouts) then Ok []
      else
        let! loc := locate a (test USES_AGENT) in
        Ok [hit C004 a
              (relativePath a +:+ " runs " +:+ string_of_nat passes +:+ " agent steps over "
               +:+ string_of_nat checkouts +:+ " checkout(s).") (relativePath a) loc]).

Definition UNTRUSTED_TRIGGERS : list string :=
  ["issue_comment"; "pull_request_target"; "issues"; "discussion"; "discussion_comment"].
(** [^\s{0,4}name:|^on:\s*name\b|\[.*\bname\b.*\]] under the [m] flag *)
Definition trigger_pattern (name : string) : regex :=
  let space := opt (Chars is_space) in
  alts [seqs [LineStart; space; space; space; space; lit name; lit ":"];
        seqs [LineStart; lit "on:"; Star (Chars is_space); lit name; WordBoundary];
        seqs [lit "["; Star Dot; WordBoundary; lit name; WordBoundary; Star Dot; lit "]"]].
(** [\$\{\{\s*secrets\.] *)
Definition SECRETS : regex := seqs [lit "${{"; Star (Chars is_space); lit "secrets."].

Definition C005 : Header :=
  mkHeader (RuleId.mkRuleId "AG-C005" "C" 5) Severity.CRITICAL Disposition.ASK
    "Agent job reachable by an untrusted trigger holds secrets"
    "Anyone who can open an issue can put text into this prompt, and the job has credentials. Gate it behind a label or an author check, or move the secrets out of the job.".
Definition UntrustedTriggerRule : Rule Artifact :=
  artifact_rule C005 WORKFLOWS
    (λ a,
      if negb (isAgentWorkflow (content a)) then Ok []
      else match find (λ name, test (trigger_pattern name) (content a)) UNTRUSTED_TRIGGERS with
           | None => Ok []
           | Some trigger =>
               if negb (test SECRETS (content a)) then Ok []
               else
                 let! loc := locate_text a trigger in
                 Ok [hit C005 a
                       (relativePath a +:+ " is triggered by " +:+ trigger +:+ " and passes a secret to the agent.")
                       (relativePath a) loc]
           end).
End ci.

(** ** index.ts *)

Definition ARTIFACT_RULES : list (Rule Artifact) :=
  [hooks.RepositoryHookRule; hooks.SessionStartHookRule; hooks.FolderOpenTaskRule; hooks.DevcontainerLifecycleRule;
   hooks.ClonedGitHookRule; hooks.DirenvRule;
   env.GeminiEnvRule; env.McpServerRule; env.UnpinnedMcpServerRule; env.EndpointOverrideRule; env.McpAutoApprovalRule;
   instructions.ExecutionImperativeRule; instructions.HiddenInstructionRule; instructions.InstructionDriftRule;
   ci.VulnerableCliVersionRule; ci.PermissionSkipFlagRule; ci.AgentStepNotLastRule; ci.DoublePassRule;
   ci.UntrustedTriggerRule].
Definition artifact_registry : RuleRegistry Artifact := RuleRegistry.mkRegistry ARTIFACT_RULES.

Lemma artifact_registry_ok : RuleRegistry.of_ ARTIFACT_RULES = Ok artifact_registry.
Proof.
  unfold RuleRegistry.of_, artifact_registry.
  assert (RuleRegistry.check_ids ∅ ARTIFACT_RULES = Ok tt) as -> by (vm_compute; reflexivity). done.
Qed.
(** The identifiers are the ones [RuleId.of] makes of their texts. *)
Lemma artifact_ids_parse : Forall (λ r, RuleId.of_ (RuleId.value (Rule.id r)) = Ok (Rule.id r)) ARTIFACT_RULES.
Proof. repeat constructor. Qed.

(** ** What the rules answer *)

(** A look at an artifact that answers, with findings of the rule on this content only. *)
Definition of_rule (h : Header) (a : Artifact) (f : Finding) : Prop :=
  Finding.ruleId f = h_id h ∧ Finding.severity f = h_severity h ∧ Finding.disposition f = h_disposition h
  ∧ Finding.contentHash f = Some (hash a).
Definition answers (h : Header) (a : Artifact) (r : result (list Finding)) : Prop :=
  ∃ fs, r = Ok fs ∧ Forall (of_rule h a) fs.

Lemma of_rule_hit h a d s l : of_rule h a (hit h a d s l).
Proof. done. Qed.
Lemma answers_nil h a : answers h a (Ok []).
Proof. by exists []. Qed.
Lemma answers_hit h a d s l : answers h a (Ok [hit h a d s l]).
Proof. exists [hit h a d s l]. split; [done|]. by constructor. Qed.
Lemma answers_app h a fs gs : Forall (of_rule h a) fs → answers h a (Ok gs) → answers h a (Ok (fs ++ gs)).
Proof. intros Hf (x & [= <-] & Hg). exists (fs ++ gs). split; [done|]. by apply Forall_app. Qed.
Lemma answers_locate h a needle (k : option SourceLocation → result (list Finding)) :
  (∀ loc, answers h a (k loc)) → answers h a (let! loc := locate a needle in k loc).
Proof.
  intros Hk. unfold locate. destruct (SourceLocation.firstMatch_total (content a) needle) as [loc ->]. apply Hk.
Qed.
Lemma answers_bind h a r (k : list Finding → result (list Finding)) :
  answers h a r → (∀ fs, Forall (of_rule h a) fs → answers h a (k fs)) → answers h a (let! fs := r in k fs).
Proof. intros (fs & -> & Hf) Hk. by apply Hk. Qed.
Lemma answers_map {A} h a (f : A → result Finding) l :
  (∀ x, x ∈ l → ∃ y, f x = Ok y ∧ of_rule h a y) → answers h a (rmapM f l).
Proof.
  intros Hf. induction l as [|x l IH]; [apply answers_nil|]. cbn [rmapM].
  destruct (Hf x) as (y & -> & Hy); [by left|]. cbn [rbind].
  destruct IH as (fs & -> & Hfs). { intros z Hz. apply Hf. by right. }
  exists (y :: fs). split; [done|]. by constructor.
Qed.
Lemma answers_concat {A} h a (f : A → result (list Finding)) l :
  (∀ x, x ∈ l → answers h a (f x)) → answers h a (rmap (@concat Finding) (rmapM f l)).
Proof.
  intros Hf. induction l as [|x l IH]; [by exists []|]. cbn [rmapM].
  destruct (Hf x) as (fs & -> & Hfs); [by left|]. cbn [rbind].
  destruct IH as (gs & E & Hgs). { intros z Hz. apply Hf. by right. }
  destruct (rmapM f l) as [gss|]; [|done]. injection E as <-. exists (fs ++ concat gss). split; [done|]. by apply Forall_app.
Qed.
Lemma find_step_range ls i index line rest : ci.find_step i ls = Some (index, line, rest) → (i ≤ index)%Z.
Proof.
  revert i. induction ls as [|l ls IH]; intros i; cbn; [done|]. case_if; [intros [= <- _ _]; lia|].
  intros H%IH. lia.
Qed.
Lemma atLine_ok l e : (1 ≤ l)%Z → ∃ loc, SourceLocation.atLine l e = Ok loc.
Proof. intros Hl. unfold SourceLocation.atLine. destruct (Z.ltb_spec l 1); [lia|]. by eexists. Qed.

(** One finding per item, after the search for its line. *)
Ltac located :=
  unfold locate_text, locate;
  match goal with |- context [SourceLocation.firstMatch ?t ?n] =>
    destruct (SourceLocation.firstMatch_total t n) as [? ->] end;
  eexists; split; [reflexivity|done].
Ltac answer :=
  repeat first
    [ apply answers_nil | apply answers_hit | apply answers_locate; intros ?
    | apply answers_map; intros ? _; located
    | match goal with |- answers _ _ (match ?x with _ => _ end) => destruct x eqn:? end
    | match goal with |- answers _ _ (if ?x then _ else _) => destruct x eqn:? end ].

(** The header a rule reports under. *)
Definition header_of (r : Rule Artifact) : Header :=
  mkHeader (Rule.id r) (Rule.severity r) (Rule.defaultDisposition r) (Rule.title r) (Rule.remediation r).

Lemma unpinned_answers a server : answers env.E003 a (env.unpinned a server).
Proof. unfold env.unpinned. cbv zeta. answer. Qed.
Lemma vulnerable_answers a entry : answers ci.C001 a (ci.vulnerable_pins a entry).
Proof. unfold ci.vulnerable_pins. answer. Qed.
Lemma hidden_answers a : answers instructions.I002 a (Rule.inspect instructions.HiddenInstructionRule a).
Proof.
  cbn [Rule.inspect instructions.HiddenInstructionRule artifact_rule of_header].
  apply answers_bind; [answer|]. intros fs Hfs. apply answers_bind; [answer|]. intros gs Hgs.
  apply answers_bind; [answer|]. intros hs Hhs. do 2 (apply answers_app; [done|]). by exists hs.
Qed.
Lemma step_answers a : answers ci.C003 a (Rule.inspect ci.AgentStepNotLastRule a).
Proof.
  cbn [Rule.inspect ci.AgentStepNotLastRule artifact_rule of_header].
  case_if; [apply answers_nil|]. destruct (ci.find_step 0 (lines a)) as [[[index line] rest]|] eqn:E; [|apply answers_nil].
  case_if; [apply answers_nil|]. apply find_step_range in E.
  destruct (atLine_ok (index + 1) (Some line)) as [loc ->]; [lia|]. apply answers_hit.
Qed.

(** C40. Every rule on artifacts but the one on server definitions answers, whatever the content
    of the file is: neither malformed JSON nor a value of an unexpected type makes a scan
    fail. Every finding carries the identifier, severity and disposition of its rule, and
    its decision key is the hash of the content alone. *)
Theorem artifact_rules_answer rule a : rule ∈ ARTIFACT_RULES → RuleId.value (Rule.id rule) ≠ "AG-E002" →
  ∃ fs, Rule.evaluate rule a = Ok fs
  ∧ ∀ f, f ∈ fs → Finding.ruleId f = Rule.id rule ∧ Finding.severity f = Rule.severity rule
      ∧ Finding.disposition f = Rule.defaultDisposition rule
      ∧ Finding.decisionKey f = ContentHash.toString (hash a).
Proof.
  intros Hr Hne. enough (answers (header_of rule) a (Rule.evaluate rule a)) as (fs & E & Hfs).
  { exists fs. split; [done|]. intros f Hf. rewrite Forall_forall in Hfs. destruct (Hfs f Hf) as (H1 & H2 & H3 & H4).
    split_and!; [done..|]. unfold Finding.decisionKey. by rewrite H4. }
  assert (∀ r : result bool, (∃ b, r = Ok b) → answers (header_of rule) a (Rule.inspect rule a) →
    answers (header_of rule) a (let! applies := r in if negb applies then Ok [] else Rule.inspect rule a)) as Hev.
  { intros r [b ->] Hi. cbn [rbind]. case_if; [apply answers_nil|done]. }
  unfold ARTIFACT_RULES in Hr.
  repeat (apply elem_of_cons in Hr as [->|Hr];
    [apply Hev; [by eexists|]; clear Hev;
     first [by apply hidden_answers|by apply step_answers|done
           |apply answers_concat; intros ? _; by (apply unpinned_answers || apply vulnerable_answers)
           |match goal with |- context [Rule.inspect ?r a] =>
              let k := eval hnf in r in change (Rule.inspect r a) with (Rule.inspect k a); cbn [Rule.inspect] end; answer;
            try (apply answers_concat; intros ? _; apply unpinned_answers)]|]).
  by apply elem_of_nil in Hr.
Qed.

(** The exception: a server whose command is an object that owns a [toString] cannot be
    turned into a text, and the scan of the repository throws. *)
Definition hostile_mcp : string :=
  JSON.stringify "" (JObject [("mcpServers", JObject [("x", JObject [("command", JObject [("toString", JNull)])])])]).
Lemma relativePath_below `{Digest} path workspace text prev rel :
  AbsolutePath.value path = AbsolutePath.value workspace +:+ "/" +:+ rel →
  AbsolutePath.contains workspace path = true → AbsolutePath.equals workspace path = false →
  relativePath (Artifact.create path workspace text prev) = rel.
Proof.
  intros Hv Hc He. unfold relativePath. cbn [Artifact.create Artifact.workspace Artifact.path]. rewrite Hc, He, Hv. cbn [negb].
  replace (slen (AbsolutePath.value workspace) + 1) with (slen (AbsolutePath.value workspace +:+ "/")) by by rewrite slen_app.
  by rewrite <-sapp_assoc, sdrop_app.
Qed.
Lemma hostile_inspect a : content a = hostile_mcp →
  Rule.inspect env.McpServerRule a = throw "Cannot convert object to primitive value".
Proof.
  intros Hc. cbn [Rule.inspect env.McpServerRule artifact_rule of_header].
  assert (json a = JObject [("mcpServers", JObject [("x", JObject [("command", JObject [("toString", JNull)])])])]) as ->.
  { unfold json. rewrite Hc. by vm_compute. }
  done.
Qed.
Lemma hostile_server_throws `{Digest} path workspace prev :
  AbsolutePath.value path = AbsolutePath.value workspace +:+ "/.mcp.json" →
  AbsolutePath.contains workspace path = true → AbsolutePath.equals workspace path = false →
  Rule.evaluate env.McpServerRule (Artifact.create path workspace hostile_mcp prev)
  = throw "Cannot convert object to primitive value".
Proof.
  intros Hv Hc He. unfold Rule.evaluate. rewrite hostile_inspect by done.
  cbn [Rule.appliesTo env.McpServerRule artifact_rule of_header]. unfold ArtifactRule.appliesTo.
  by rewrite (relativePath_below path workspace _ _ ".mcp.json").
Qed.
