(* ===== verification/ScanWorkspace.v ===== *)
(** * Scanning a workspace (src/application/use-cases/ScanWorkspace.ts)

    The scan of a repository: which files are looked at, the artifacts made of them, the
    rules, the decisions that silence a finding and the hashes remembered for the next
    time. The files are read one after another here; the source reads eight at a time and
    keeps their order. *)

From S2P Require Import Prelude JsString JsMap NodePath Paths Patterns Values Entities Ports.
From S2P Require Import Regex Rules NodeFileSystem Artifact ArtifactRules.

(** ** What the scan relies on

    The texts and sizes of files and the stored decisions, as far as the scan sees them:
    only [recordMany] changes the decisions, and a batch that was stored wins over what
    was there, the last record of a key over the earlier ones. *)
Class ScanLaws {W : Type} (files : FileSystem W) (decisions : DecisionStore W) (clock : Clock W) := {
  text_at : W → Contents;
  stat_at : W → AbsolutePath → option FileStat;
  known : W → list Decision;
  same_view : W → W → Prop := λ w w', text_at w' = text_at w ∧ stat_at w' = stat_at w ∧ known w' = known w;
  list_quiet : ∀ p o w, same_view w (list_ files p o w).1;
  now_quiet : ∀ w, same_view w (now clock w).1;
  stat_answer : ∀ p w, same_view w (stat_ files p w).1 ∧ ∀ st, (stat_ files p w).2 = Ok st → st = stat_at w p;
  read_answer : ∀ p w, same_view w (read_ files p w).1
                  ∧ ∀ t, (read_ files p w).2 = Ok t → t = text_at w !! AbsolutePath.value p;
  all_answer : ∀ w, same_view w (all_decisions decisions w).1
                  ∧ ∀ l, (all_decisions decisions w).2 = Ok l → l = known w;
  record_answer : ∀ ds w, text_at (recordMany decisions ds w).1 = text_at w
                  ∧ ((recordMany decisions ds w).2 = Ok tt → ∀ k,
                      map_get dkey (known (recordMany decisions ds w).1) k
                      = match map_get dkey ds k with Some d => Some d | None => map_get dkey (known w) k end)
}.

Module ScanWorkspace.
Import Regex.

Definition MAX_SCANNED_ARTIFACT_BYTES : Z := 524288.

(** [.+] and [.*] *)
Definition anything : regex := Star Dot.
Definition something : regex := plus Dot.
(** An expression for the whole text, under the [i] flag. *)
Definition whole (l : list regex) : regex := seqs ([Bol] ++ l ++ [Eol]).

Definition INTERESTING : list regex :=
  [whole [lit_i ".claude/settings"; opt (lit_i ".local"); lit_i ".json"];
   whole [lit_i ".claude/"; anything; lit_i ".json"];
   whole [lit_i ".vscode/"; alts (map lit_i ["tasks"; "settings"; "mcp"]); lit_i ".json"];
   whole [lit_i ".devcontainer/"; anything; lit_i "devcontainer.json"];
   whole [lit_i ".git/hooks/"; plus (Chars (λ c, negb (Ascii.eqb c ".")))];
   whole [lit_i ".envrc"];
   whole [lit_i ".env"; opt (Seq (lit_i ".") something)];
   whole [lit_i ".gemini/"; anything];
   whole [lit_i "."; alts (map lit_i ["mcp"; "cursorrules"; "windsurfrules"])];
   whole [lit_i ".mcp.json"];
   whole [lit_i ".cursor/"; anything];
   whole [alts (map lit_i ["CLAUDE"; "AGENTS"; "GEMINI"]); opt (lit_i ".local"); lit_i ".md"];
   whole [lit_i ".github/";
          Alt (seqs [lit_i "workflows/"; something; lit_i ".y"; opt (lit_i "a"); lit_i "ml"])
              (lit_i "copilot-instructions.md")]].

(** [(?:\/|$)] *)
Definition segment_end : regex := Alt (lit_i "/") Eol.
Definition INTERESTING_TREES : list regex :=
  [seqs [Bol; lit_i ".claude"; segment_end];
   seqs [Bol; lit_i ".vscode"; segment_end];
   seqs [Bol; lit_i ".devcontainer"; segment_end];
   seqs [Bol; lit_i ".git"; Alt (Seq (lit_i "/hooks") segment_end) Eol];
   seqs [Bol; lit_i ".gemini"; segment_end];
   seqs [Bol; lit_i ".cursor"; segment_end];
   seqs [Bol; lit_i ".github"; Alt (Seq (lit_i "/workflows") segment_end) Eol]].

Definition interesting (relative : string) : bool := some (λ r, test r relative) INTERESTING.
Definition in_tree (relative : string) : bool := some (λ r, test r relative) INTERESTING_TREES.

Definition relativeTo (workspace path : AbsolutePath) : string :=
  if AbsolutePath.contains workspace path
  then sdrop (slen (AbsolutePath.value workspace) + 1) (AbsolutePath.value path)
  else AbsolutePath.value path.
Definition isInteresting (workspace path : AbsolutePath) : bool := interesting (relativeTo workspace path).

(** What the scan asks of the walk. *)
Definition scan_options (workspace : AbsolutePath) : ListOptions :=
  mkListOptions (Some 20000) (Some 24) None (Some (isInteresting workspace))
    (Some (λ p, in_tree (relativeTo workspace p))) true false.

Section scan.
Context `{Digest} {W : Type} (files : FileSystem W) (engine : RuleRegistry Artifact).
Context (decisions : DecisionStore W) (switches : string → bool) (clock : Clock W).

Record ScanResult := mkScanResult { report : ScanReport; filesInspected : nat }.

Definition driftKey (workspace : AbsolutePath) (relativePath : string) : string :=
  "drift:" +:+ WorkspaceId.toString (WorkspaceId.fromPath workspace) +:+ ":" +:+ relativePath.

(** A record that is no hash is as good as none. *)
Definition previousHash (record : option Decision) : option ContentHash :=
  match record with
  | None => None
  | Some d => catch_null (ContentHash.parse (dsubject d))
  end.

Definition inspect (workspace : AbsolutePath) (byKey : list (string * Decision)) (path : AbsolutePath) : M W (option Artifact) :=
  let relative := relativeTo workspace path in
  let* info := stat_ files path in
  let* _ := match info with
            | Some i =>
                if (MAX_SCANNED_ARTIFACT_BYTES <? stat_size i)%Z
                then mlift (throw ("Refusing a partial scan: " +:+ relative +:+ " is " +:+ string_of_Z (stat_size i)
                              +:+ " bytes (limit " +:+ string_of_Z MAX_SCANNED_ARTIFACT_BYTES +:+ ")"))
                else mok tt
            | None => mok tt
            end in
  let* content := read_ files path in
  mok (match content with
       | None => None
       | Some text =>
           Some (Artifact.create path workspace text
                   (previousHash (JsMap.get byKey (driftKey workspace relative))))
       end).

(** Already approved findings are not shown again. *)
Definition approved (byKey : list (string * Decision)) (f : Finding) : bool :=
  match JsMap.get byKey (Finding.decisionKey f) with
  | Some d => bool_decide (verdict d = allow)
  | None => false
  end.
Definition applyDecisions (byKey : list (string * Decision)) (r : ScanReport) : ScanReport :=
  ScanReport.of_ (bfilter (λ f, negb (approved byKey f)) (ScanReport.findings r)).

Definition drifted (a : Artifact) : bool :=
  match Artifact.previousHash a with None => true | Some h => negb (ContentHash.equals h (Artifact.hash a)) end.
Definition drift_record (workspace : AbsolutePath) (a : Artifact) : M W Decision :=
  let* t := now clock in
  mok (mkDecision (driftKey workspace (Artifact.relativePath a)) allow (ContentHash.toString (Artifact.hash a)) [] t).
Definition recordArtifactHashes (workspace : AbsolutePath) (artifacts : list Artifact) : M W unit :=
  let changed := bfilter drifted artifacts in
  if length changed =? 0 then mok tt
  else
    let* records := mmapM (drift_record workspace) changed in
    recordMany decisions records.

Definition execute (workspace : AbsolutePath) : M W ScanResult :=
  let* candidates := list_ files workspace (scan_options workspace) in
  let* stored := all_decisions decisions in
  let byKey := JsMap.of_list dkey stored in
  let* inspected := mmapM (inspect workspace byKey) (bfilter (isInteresting workspace) candidates) in
  let artifacts := omap id inspected in
  let* r := mlift (ScanEngine.scan engine artifacts switches) in
  let* _ := recordArtifactHashes workspace artifacts in
  mok (mkScanResult (applyDecisions byKey r) (length artifacts)).

(** ** What a scan reports *)

Context `{L : !ScanLaws files decisions clock}.

(** The view of the world a scan starts from. *)
Definition seen (w w' : W) : Prop := text_at w' = text_at w ∧ stat_at w' = stat_at w ∧ known w' = known w.
Lemma seen_refl w : seen w w. Proof. done. Qed.
Lemma seen_trans w w1 w2 : seen w w1 → seen w1 w2 → seen w w2.
Proof. intros (H1 & H2 & H3) (H4 & H5 & H6). split_and!; congruence. Qed.

(** The artifact made of a candidate, when there is a file. *)
Definition artifact_at (w : W) (workspace path : AbsolutePath) : option Artifact :=
  (λ text, Artifact.create path workspace text
             (previousHash (map_get dkey (known w) (driftKey workspace (relativeTo workspace path)))))
  <$> text_at w !! AbsolutePath.value path.
Definition small (w : W) (path : AbsolutePath) : Prop :=
  match stat_at w path with Some i => (stat_size i ≤ MAX_SCANNED_ARTIFACT_BYTES)%Z | None => True end.

Lemma get_map_get (l : list Decision) k : JsMap.get (JsMap.of_list dkey l) k = map_get dkey l k.
Proof. by rewrite JsMap.get_of_list. Qed.

Lemma inspect_yields w workspace path :
  yields (seen w) (inspect workspace (JsMap.of_list dkey (known w)) path)
    (λ o, o = artifact_at w workspace path ∧ small w path).
Proof.
  unfold inspect. eapply (yields_seq _ _ _ (λ st, st = stat_at w path)).
  { intros w1 Hw1. destruct (stat_answer path w1) as [Hq Ha]. split; [by eapply seen_trans|].
    intros st Hst. rewrite (Ha st Hst). by destruct Hw1 as (_ & -> & _). }
  intros st ->. eapply (yields_seq _ _ _ (λ _, small w path)).
  { unfold small. destruct (stat_at w path) as [i|]; [|by apply yields_ok].
    destruct (MAX_SCANNED_ARTIFACT_BYTES <? stat_size i)%Z eqn:E; [by apply yields_lift|].
    apply yields_ok. bool_prop. done. }
  intros _ Hsmall. eapply (yields_seq _ _ _ (λ t, t = text_at w !! AbsolutePath.value path)).
  { intros w1 Hw1. destruct (read_answer path w1) as [Hq Ha]. split; [by eapply seen_trans|].
    intros t Ht. rewrite (Ha t Ht). by destruct Hw1 as (-> & _). }
  intros t ->. apply yields_ok. split; [|done]. unfold artifact_at. rewrite get_map_get.
  by destruct (text_at w !! AbsolutePath.value path).
Qed.

(** What stands before the decisions are consulted and the hashes recorded. *)
Lemma scan_yields w workspace candidates :
  yields (seen w) (mmapM (inspect workspace (JsMap.of_list dkey (known w)))
                     (bfilter (isInteresting workspace) candidates))
    (λ inspected, omap id inspected = omap (artifact_at w workspace) (bfilter (isInteresting workspace) candidates)
       ∧ ∀ p, p ∈ candidates → isInteresting workspace p = true → small w p).
Proof.
  eapply yields_mono; [apply (yields_mmapM _ _ (λ p o, o = artifact_at w workspace p ∧ small w p))|].
  - intros p _. apply inspect_yields.
  - intros os Hos. split.
    + induction Hos as [|p o ps os [-> _] _ IH]; [done|]. cbn. by rewrite IH.
    + intros p Hp Hi. assert (p ∈ bfilter (isInteresting workspace) candidates) as Hin by by apply elem_of_bfilter.
      apply list_elem_of_lookup_1 in Hin as [k Hk]. destruct (Forall2_lookup_l _ _ _ _ _ Hos Hk) as (o & _ & _ & Hs). done.
Qed.

(** A scan that returns, taken apart. *)
Lemma execute_inv workspace w w' r : execute workspace w = (w', Ok r) →
  ∃ candidates w1 report0,
    (list_ files workspace (scan_options workspace) w).2 = Ok candidates
    ∧ (∀ p, p ∈ candidates → isInteresting workspace p = true → small w p)
    ∧ let artifacts := omap (artifact_at w workspace) (bfilter (isInteresting workspace) candidates) in
      ScanEngine.scan engine artifacts switches = Ok report0
      ∧ report r = applyDecisions (JsMap.of_list dkey (known w)) report0
      ∧ filesInspected r = length artifacts
      ∧ seen w w1
      ∧ recordArtifactHashes workspace artifacts w1 = (w', Ok tt).
Proof.
  unfold execute, mseq at 1. pose proof (list_quiet workspace (scan_options workspace) w) as Hq0.
  destruct (list_ files workspace (scan_options workspace) w) as [wa [candidates|]] eqn:E0; [|done]. cbn [fst snd] in *.
  unfold mseq at 1. destruct (all_answer wa) as [Hq1 Ha1].
  destruct (all_decisions decisions wa) as [wb [stored|]] eqn:E1; [|done]. cbn [fst snd] in *.
  rewrite (Ha1 stored eq_refl). assert (known wa = known w) as -> by apply Hq0.
  assert (seen w wb) as Hwb by by eapply seen_trans.
  unfold mseq at 1. destruct (scan_yields w workspace candidates wb Hwb) as [Hwc Hins].
  destruct (mmapM _ _ wb) as [wc [inspected|]]; [|done]. cbn [fst snd] in *.
  destruct (Hins inspected eq_refl) as [Hin Hsmall]. rewrite Hin.
  unfold mseq at 1, mlift. destruct (ScanEngine.scan engine _ switches) as [report0|] eqn:Es; [|done].
  unfold mseq. destruct (recordArtifactHashes workspace _ wc) as [wd [[]|]] eqn:Er; [|done].
  intros [= <- <-]. exists candidates, wc, report0. by rewrite Er.
Qed.

Lemma approved_iff w f : approved (JsMap.of_list dkey (known w)) f = false
  ↔ ∀ d, map_get dkey (known w) (Finding.decisionKey f) = Some d → verdict d ≠ allow.
Proof.
  unfold approved. rewrite get_map_get. destruct (map_get dkey (known w) (Finding.decisionKey f)) as [d|]; [|naive_solver].
  rewrite bool_decide_eq_false. naive_solver.
Qed.

(** The findings of a scan that returns. *)
Lemma findings_exact workspace w w' r : execute workspace w = (w', Ok r) →
  ∃ candidates, (list_ files workspace (scan_options workspace) w).2 = Ok candidates
  ∧ (∀ p, p ∈ candidates → isInteresting workspace p = true → small w p)
  ∧ ∀ f, f ∈ ScanReport.findings (report r) ↔
      (∃ p a rule fs, p ∈ candidates ∧ isInteresting workspace p = true ∧ artifact_at w workspace p = Some a
         ∧ rule ∈ RuleRegistry.enabled engine switches ∧ Rule.evaluate rule a = Ok fs ∧ f ∈ fs)
      ∧ ∀ d, map_get dkey (known w) (Finding.decisionKey f) = Some d → verdict d ≠ allow.
Proof.
  intros (candidates & w1 & report0 & Hl & Hsmall & Hs & Hr & _)%execute_inv.
  exists candidates. split_and!; [done..|]. intros f. rewrite Hr. unfold applyDecisions, ScanReport.of_.
  cbn [ScanReport.findings]. rewrite sort_by_perm, elem_of_bfilter, negb_true_iff, approved_iff.
  rewrite (ScanEngine.elem_of_scan _ _ _ _ _ Hs). apply and_iff_compat_r. split.
  - intros (a & rule & fs & Ha & Hrule & He & Hf). apply list_elem_of_omap in Ha as (p & [Hp Hi]%elem_of_bfilter & Ha).
    by exists p, a, rule, fs.
  - intros (p & a & rule & fs & Hp & Hi & Ha & Hrule & He & Hf). exists a, rule, fs. split; [|done].
    apply list_elem_of_omap. exists p. split; [by apply elem_of_bfilter|done].
Qed.

(** C26. A scan that returns has looked at every file of the listing that it is interested in,
    none of which is above the size limit, and counts those that exist. Its report holds
    exactly the findings of the rules that block or are switched on, on the artifacts made
    of these files, but for the ones whose decision key was allowed before: nothing is
    made up, and nothing is dropped for another reason. *)
Theorem scan_exact workspace w w' r : execute workspace w = (w', Ok r) →
  ∃ candidates, (list_ files workspace (scan_options workspace) w).2 = Ok candidates
  ∧ (∀ p, p ∈ candidates → isInteresting workspace p = true → small w p)
  ∧ filesInspected r = length (omap (artifact_at w workspace) (bfilter (isInteresting workspace) candidates))
  ∧ ∀ f, f ∈ ScanReport.findings (report r) ↔
      (∃ p a rule fs, p ∈ candidates ∧ isInteresting workspace p = true ∧ artifact_at w workspace p = Some a
         ∧ rule ∈ RuleRegistry.enabled engine switches ∧ Rule.evaluate rule a = Ok fs ∧ f ∈ fs)
      ∧ ∀ d, map_get dkey (known w) (Finding.decisionKey f) = Some d → verdict d ≠ allow.
Proof.
  intros Hrun. pose proof (findings_exact _ _ _ _ Hrun) as (candidates & Hl & Hsmall & Hf).
  apply execute_inv in Hrun as (candidates' & _ & _ & Hl' & _ & _ & _ & Hn & _).
  rewrite Hl in Hl'. injection Hl' as <-. by exists candidates.
Qed.

(** ** The hashes a scan leaves behind *)

Lemma relativeTo_value workspace path rel : AbsolutePath.contains workspace path = true →
  AbsolutePath.value workspace ≠ AbsolutePath.root workspace → interesting (relativeTo workspace path) = true →
  relativeTo workspace path = rel → AbsolutePath.value path = AbsolutePath.value workspace +:+ "/" +:+ rel.
Proof.
  unfold relativeTo. intros Hc Hroot Hi. rewrite Hc in Hi |- *. revert Hc. unfold AbsolutePath.contains.
  repeat (case_if; [done|]). rewrite (proj2 (String.eqb_neq _ _) Hroot). intros [E|E]%orb_true_iff.
  - apply String.eqb_eq in E. exfalso. revert Hi. rewrite E.
    assert (sdrop (slen (AbsolutePath.value workspace) + 1) (AbsolutePath.value workspace) = "") as ->; [|by vm_compute].
    pose proof (slen_sdrop (slen (AbsolutePath.value workspace) + 1) (AbsolutePath.value workspace)) as Hlen.
    destruct (sdrop _ _); [done|]. simpl in Hlen. lia.
  - apply startsWith_true in E as [t E]. rewrite E. intros <-.
    replace (slen (AbsolutePath.value workspace) + 1) with (slen (AbsolutePath.value workspace +:+ "/")) by by rewrite slen_app.
    rewrite sdrop_app. by rewrite sapp_assoc.
Qed.

Lemma relativePath_relativeTo workspace path text prev : AbsolutePath.contains workspace path = true →
  AbsolutePath.value workspace ≠ AbsolutePath.root workspace → interesting (relativeTo workspace path) = true →
  Artifact.relativePath (Artifact.create path workspace text prev) = relativeTo workspace path.
Proof.
  intros Hc Hroot Hi. unfold Artifact.relativePath. cbn. rewrite Hc. cbn [negb].
  assert (AbsolutePath.equals workspace path = false) as ->.
  { unfold AbsolutePath.equals. pose proof (relativeTo_value workspace path _ Hc Hroot Hi eq_refl) as E.
    apply andb_false_iff. right. apply String.eqb_neq. rewrite E. intros E'. apply (f_equal slen) in E'.
    rewrite !slen_app in E'. cbn in E'. lia. }
  unfold relativeTo. by rewrite Hc.
Qed.

Lemma driftKey_inj workspace r1 r2 : driftKey workspace r1 = driftKey workspace r2 → r1 = r2.
Proof. unfold driftKey. intros E. do 3 apply sapp_inj_l in E. done. Qed.

Lemma records_yields w workspace artifacts :
  yields (seen w) (mmapM (drift_record workspace) artifacts)
    (Forall2 (λ a d, dkey d = driftKey workspace (Artifact.relativePath a)
                     ∧ dsubject d = ContentHash.toString (Artifact.hash a)) artifacts).
Proof.
  apply yields_mmapM. intros a _. unfold drift_record. eapply (yields_seq _ _ _ (λ _, True)).
  { intros w1 Hw1. split; [|done]. eapply seen_trans; [exact Hw1|apply now_quiet]. }
  intros t _. by apply yields_ok.
Qed.

(** The decisions after the hashes were recorded: what was there, but for the records of the
    artifacts that changed. *)
Lemma record_known w w1 w' workspace artifacts : seen w w1 →
  recordArtifactHashes workspace artifacts w1 = (w', Ok tt) → ∀ k,
  map_get dkey (known w') k = map_get dkey (known w) k ∧ (∀ a, a ∈ artifacts → drifted a = true →
    driftKey workspace (Artifact.relativePath a) ≠ k)
  ∨ ∃ a d, a ∈ artifacts ∧ map_get dkey (known w') k = Some d
     ∧ k = driftKey workspace (Artifact.relativePath a) ∧ dsubject d = ContentHash.toString (Artifact.hash a).
Proof.
  intros Hw1. unfold recordArtifactHashes. destruct (length _ =? 0) eqn:E; bool_prop.
  { intros [= <-] k. left. split; [by destruct Hw1 as (_ & _ & ->)|]. intros a Ha Hd _.
    apply length_zero_iff_nil in E. assert (a ∈ bfilter drifted artifacts) as Hin by by apply elem_of_bfilter.
    rewrite E in Hin. by apply elem_of_nil in Hin. }
  unfold mseq. destruct (records_yields w workspace (bfilter drifted artifacts) w1 Hw1) as [Hq Hds].
  destruct (mmapM _ _ w1) as [w2 [ds|]]; [|done]. cbn [fst snd] in *. specialize (Hds ds eq_refl). intros Hrec k.
  destruct (record_answer ds w2) as [_ Hk]. rewrite Hrec in Hk. cbn in Hk. rewrite (Hk eq_refl k).
  destruct (map_get dkey ds k) as [d|] eqn:Ed.
  - right. apply map_get_some in Ed as [Hd Hdk]. apply list_elem_of_lookup_1 in Hd as [i Hi].
    destruct (Forall2_lookup_r _ _ _ _ _ Hds Hi) as (a & Ha & Hkey & Hsub). exists a, d.
    apply list_elem_of_lookup_2, elem_of_bfilter in Ha as [Ha _]. split_and!; [done|done|congruence|done].
  - left. split; [by destruct Hq as (_ & _ & ->)|]. intros a Ha Hd E'.
    assert (a ∈ bfilter drifted artifacts) as Hin by by apply elem_of_bfilter.
    apply list_elem_of_lookup_1 in Hin as [i Hi]. destruct (Forall2_lookup_l _ _ _ _ _ Hds Hi) as (d & Hd' & Hkey & _).
    apply list_elem_of_lookup_2 in Hd'. apply (proj1 (map_get_none dkey ds k) Ed d Hd'). congruence.
Qed.

Lemma previousHash_of_record d h : hex_string 64 (ContentHash.hex h) = true → dsubject d = ContentHash.toString h →
  previousHash (Some d) = Some h.
Proof. intros Hh E. unfold previousHash. by rewrite E, ContentHash.hash_parse_toString. Qed.

(** After a scan that returns the files are as they were, and the hash remembered for every
    file it looked at is the hash of the content it had: the next scan reports a change of
    an instruction file exactly against what this one inspected, and an approval or an
    older record under another key does not get in the way. *)
Theorem drift_settles workspace w w' r candidates p text : execute workspace w = (w', Ok r) →
  (list_ files workspace (scan_options workspace) w).2 = Ok candidates →
  (∀ q, q ∈ candidates → AbsolutePath.contains workspace q = true) →
  AbsolutePath.value workspace ≠ AbsolutePath.root workspace →
  p ∈ candidates → isInteresting workspace p = true → text_at w !! AbsolutePath.value p = Some text →
  text_at w' = text_at w
  ∧ previousHash (map_get dkey (known w') (driftKey workspace (relativeTo workspace p)))
    = Some (ContentHash.fromContent text).
Proof.
  intros (candidates' & w1 & report0 & Hl & Hsmall & Hs & Hr & _ & Hw1 & Hrec)%execute_inv Hl' Hin Hroot Hp Hi Ht.
  rewrite Hl in Hl'. injection Hl' as ->.
  set (artifacts := omap _ _) in *.
  assert (∀ a, a ∈ artifacts → ∃ q t, q ∈ candidates ∧ isInteresting workspace q = true
     ∧ text_at w !! AbsolutePath.value q = Some t ∧ Artifact.relativePath a = relativeTo workspace q
     ∧ Artifact.hash a = ContentHash.fromContent t) as Hart.
  { intros a (q & [Hq Hqi]%elem_of_bfilter & Ha)%list_elem_of_omap. unfold artifact_at in Ha.
    apply fmap_Some in Ha as (t & Hqt & ->). exists q, t. split_and!; try done.
    by apply relativePath_relativeTo; [apply Hin|..]. }
  split.
  { revert Hrec. unfold recordArtifactHashes. case_if; [intros [= <-]; apply Hw1|]. unfold mseq.
    destruct (records_yields w workspace (bfilter drifted artifacts) w1 Hw1) as [Hq _].
    destruct (mmapM _ _ w1) as [w2 [ds|]]; [|done]. intros Hrec. destruct (record_answer ds w2) as [Htx _].
    rewrite Hrec in Htx. cbn in Htx. rewrite Htx. apply Hq. }
  set (k := driftKey workspace (relativeTo workspace p)) in *.
  destruct (record_known w w1 w' workspace artifacts Hw1 Hrec k) as [[Hk Hno]|(a & d & Ha & Hk & Hkey & Hsub)]; rewrite Hk.
  - set (a := Artifact.create p workspace text (previousHash (map_get dkey (known w) k))).
    assert (a ∈ artifacts) as Ha.
    { apply list_elem_of_omap. exists p. split; [by apply elem_of_bfilter|]. unfold artifact_at. by rewrite Ht. }
    destruct (drifted a) eqn:Ed.
    + exfalso. apply (Hno a Ha Ed). unfold k. f_equal. by apply relativePath_relativeTo; [apply Hin|..].
    + unfold drifted, a, Artifact.create in Ed. cbn [Artifact.previousHash Artifact.hash] in Ed. destruct (previousHash (map_get dkey (known w) k)) as [h|]; [|done].
      apply negb_false_iff, ContentHash.equals_spec in Ed as ->. done.
  - destruct (Hart a Ha) as (q & t & Hq & Hqi & Hqt & Hrel & Hhash). rewrite Hhash in Hsub.
    rewrite (previousHash_of_record d (ContentHash.fromContent t)); [|apply sha256_hex_format|done].
    rewrite Hrel in Hkey. apply driftKey_inj in Hkey.
    pose proof (relativeTo_value workspace p _ (Hin p Hp) Hroot Hi eq_refl) as Ep.
    pose proof (relativeTo_value workspace q _ (Hin q Hq) Hroot Hqi eq_refl) as Eq. congruence.
Qed.
End scan.
End ScanWorkspace.
