(* ===== verification/ReviewFindings.v ===== *)
(** * Reviewing findings (src/application/use-cases/ReviewFindings.ts)

    The interactive pass over a report: which findings are asked about, which answers are
    remembered and what is left in the report. *)

From S2P Require Import Prelude JsString Values Entities Ports Rules.

Module ReviewFindings.

Record ReviewFindingsOutcome := mkOutcome { report : ScanReport; answers : nat; decisionsRecorded : nat }.

(** The variables of the loop. *)
Record Progress := mkProgress { kept : list Finding; answered : nat; recorded : nat }.
Definition keep (p : Progress) (f : Finding) : Progress := mkProgress (kept p ++ [f]) (answered p) (recorded p).
Definition count_answer (p : Progress) : Progress := mkProgress (kept p) (S (answered p)) (recorded p).
Definition count_record (p : Progress) : Progress := mkProgress (kept p) (answered p) (S (recorded p)).

Section review.
Context {W : Type} (prompter : Prompter W) (decisions : DecisionStore W) (audit : AuditLog W) (clock : Clock W).

Definition recordAudit (f : Finding) (answer : AnswerChoice) (persisted : bool) : M W unit :=
  let* t := now clock in
  append_ audit
    (mkEntry t "finding.reviewed"
       [("decisionKey", DText (Finding.decisionKey f)); ("rule", DText (RuleId.value (Finding.ruleId f)));
        ("subject", DText (Finding.subject f)); ("answer", DText (answer_name answer));
        ("persisted", DBool persisted)]).

Definition previousDecision (f : Finding) : M W (option Decision) := find_ decisions (Finding.decisionKey f).

(** One turn of the loop. *)
Definition review_one (p : Progress) (f : Finding) : M W Progress :=
  if negb (Disposition.interrupts (Finding.disposition f)) then mok (keep p f)
  else
    let* previous := previousDecision f in
    match previous with
    | Some d => mok (if bool_decide (verdict d = deny) then keep p f else p)
    | None =>
        let* answer := ask_ prompter f in
        match answer with
        | None => mok (keep p f)
        | Some a =>
            let p := count_answer p in
            match a with
            | allow_once => let* _ := recordAudit f a false in mok p
            | deny_once => let* _ := recordAudit f a false in mok (keep p f)
            | allow_forever | deny_forever =>
                let v := match a with allow_forever => allow | _ => deny end in
                let* t := now clock in
                let* _ := record_ decisions
                  (mkDecision (Finding.decisionKey f) v (Finding.subject f)
                     [RuleId.value (Finding.ruleId f)] t) in
                let p := count_record p in
                let p := if bool_decide (v = deny) then keep p f else p in
                let* _ := recordAudit f a true in
                mok p
            end
        end
    end.

Definition execute (r : ScanReport) : M W ReviewFindingsOutcome :=
  let* p := mfold review_one (mkProgress [] 0 0) (ScanReport.findings r) in
  mok (mkOutcome (ScanReport.of_ (kept p)) (answered p) (recorded p)).

(** ** What one turn does to the loop's variables *)

(** The user approved a finding: the store had an allowing decision for it, or the
    prompt was answered with one of the two approvals. *)
Definition approved (f : Finding) : Prop :=
  (∃ w w' d, find_ decisions (Finding.decisionKey f) w = (w', Ok (Some d)) ∧ verdict d ≠ deny)
  ∨ ∃ w w' a, ask_ prompter f w = (w', Ok (Some a)) ∧ (a = allow_once ∨ a = allow_forever).

(** The only ways a turn may end: the finding is kept or, when it is one that asks and
    was approved, dropped; a remembered answer is an answer. *)
Inductive turn (f : Finding) (p p' : Progress) : Prop :=
| turn_kept : kept p' = kept p ++ [f] → recorded p ≤ recorded p' → answered p ≤ answered p' →
    recorded p' - recorded p ≤ answered p' - answered p →
    answered p' - answered p ≤ (if Disposition.interrupts (Finding.disposition f) then 1 else 0) → turn f p p'
| turn_dropped : Finding.disposition f = Disposition.ASK → approved f → kept p' = kept p →
    recorded p ≤ recorded p' → answered p ≤ answered p' →
    recorded p' - recorded p ≤ answered p' - answered p → answered p' - answered p ≤ 1 → turn f p p'.

Lemma review_one_turn p f : yields (λ _, True) (review_one p f) (turn f p).
Proof.
  unfold review_one. destruct (Disposition.interrupts (Finding.disposition f)) eqn:Ei; cbn [negb].
  2: { apply yields_ok. apply turn_kept; simpl; try lia; rewrite ?Ei; done. }
  assert (Finding.disposition f = Disposition.ASK) as Ha by by destruct (Finding.disposition f).
  assert (∀ {A} (m : M W A), yields (λ _, True) m (λ a, ∃ w w', m w = (w', Ok a))) as Hany.
  { intros A m w _. split; [done|]. intros a Hm. exists w, (m w).1. rewrite <-Hm. by destruct (m w). }
  eapply yields_seq; [apply Hany|]. intros [d|] (w & w' & Hw).
  { apply yields_ok. case_bool_decide; [apply turn_kept|apply turn_dropped]; simpl; rewrite ?Ei; try done; try lia.
    left. by exists w, w', d. }
  eapply yields_seq; [apply Hany|]. intros [a|] (w1 & w1' & Hw1).
  2: { apply yields_ok. apply turn_kept; simpl; rewrite ?Ei; try done; lia. }
  destruct a; cbv zeta; repeat (eapply yields_seq; [apply Hany|]; intros ? _); apply yields_ok;
    try case_bool_decide; try done;
    first [apply turn_kept; simpl; rewrite ?Ei; try done; lia
          | apply turn_dropped; simpl; try done; try lia; right; eauto 6].
Qed.

(** The state of the loop after a list of findings. *)
Definition loop_ok (done_ : list Finding) (p : Progress) : Prop :=
  (∃ dropped, done_ ≡ₚ kept p ++ dropped ∧ Forall (λ f, Finding.disposition f = Disposition.ASK ∧ approved f) dropped)
  ∧ recorded p ≤ answered p
  ∧ answered p ≤ length (bfilter (λ f, Disposition.interrupts (Finding.disposition f)) done_).

Lemma loop_turn done_ f p p' : loop_ok done_ p → turn f p p' → loop_ok (done_ ++ [f]) p'.
Proof.
  intros ((ds & Hp & Hd) & Hr & Ha). unfold loop_ok. rewrite List.filter_app, length_app.
  intros [Hk ? ? ? ?|Hf Happ Hk ? ? ? ?]; (split; [|split; [lia|]]).
  - exists ds. split; [|done]. rewrite Hk, Hp. solve_Permutation.
  - simpl. destruct (Disposition.interrupts (Finding.disposition f)); simpl; lia.
  - exists (ds ++ [f]). split; [by rewrite Hk, Hp, app_assoc|]. apply Forall_app. split; [done|]. by apply Forall_singleton.
  - simpl. rewrite Hf. simpl. lia.
Qed.
End review.

(** A review never loses what is not the user's to dismiss: its report is a
    permutation of the given findings less some that ask and were approved, by a stored
    decision or by the answer to the prompt, so every blocking, observing, refused and
    unanswered finding stays; and it counts at most one answer per asking finding and at most one
    remembered decision per answer. *)
Theorem review_keeps {W} (prompter : Prompter W) (decisions : DecisionStore W) audit clock r w out :
  (execute prompter decisions audit clock r w).2 = Ok out →
  (∃ dropped, ScanReport.findings r ≡ₚ ScanReport.findings (report out) ++ dropped
     ∧ Forall (λ f, Finding.disposition f = Disposition.ASK ∧ approved prompter decisions f) dropped)
  ∧ ScanReport.blocking r ≡ₚ ScanReport.blocking (report out)
  ∧ decisionsRecorded out ≤ answers out
  ∧ answers out ≤ length (ScanReport.interrupting r).
Proof.
  intros Hout.
  assert (yields (λ _ : W, True) (mfold (review_one prompter decisions audit clock) (mkProgress [] 0 0)
            (ScanReport.findings r)) (loop_ok prompter decisions (ScanReport.findings r))) as Hl.
  { apply (yields_fold _ _ _ (loop_ok prompter decisions)).
    - intros done_ f p _ Hp. eapply yields_mono; [apply review_one_turn|]. intros p'. by apply loop_turn.
    - split; [by exists []|]. simpl. lia. }
  destruct (Hl w I) as [_ HQ]. unfold execute, mseq in Hout.
  destruct (mfold _ _ _ w) as [w' [p|e]]; [|done]. injection Hout as <-.
  destruct (HQ p eq_refl) as ((ds & Hp & Hd) & Hr & Ha).
  assert (ScanReport.findings (ScanReport.of_ (kept p)) ≡ₚ kept p) as Hs by apply sort_by_perm.
  split; [exists ds; split; [by rewrite Hp; cbn [report]; rewrite Hs|done]|].
  split; [|done]. unfold ScanReport.blocking. cbn [report]. rewrite Hp, Hs, List.filter_app.
  assert (bfilter (λ f, Disposition.stops (Finding.disposition f)) ds = []) as ->; [|by rewrite app_nil_r].
  clear -Hd. induction Hd as [|f ds [Hf _] Hd IH]; [done|]. simpl. by rewrite Hf.
Qed.

(** A reviewer who approves everything for good. *)
Definition approving : Prompter unit := mkPrompter unit (λ _, mok (Some allow_forever)).
Definition forgetful : DecisionStore unit := mkDecisionStore unit (λ _, mok None) (λ _, mok tt) (λ _, mok tt) (mok []).
Definition quiet : AuditLog unit := mkAuditLog unit (λ _, mok tt).
Definition stopped : Clock unit := mkClock unit (mok 0%Z).
Definition demo_report : ScanReport :=
  ScanReport.of_ [ScanEngine.demo_finding; Finding.withDisposition ScanEngine.demo_finding Disposition.ASK].

Lemma review_keeps_witness :
  match (execute approving forgetful quiet stopped demo_report tt).2 with
  | Ok out => ScanReport.blocking demo_report ≡ₚ ScanReport.blocking (report out)
  | Err _ => False
  end.
Proof.
  destruct (execute approving forgetful quiet stopped demo_report tt).2 as [out|e] eqn:E.
  - apply (review_keeps approving forgetful quiet stopped demo_report tt out E).
  - vm_compute in E. discriminate E.
Defined.
End ReviewFindings.
