(* ===== verification/Notification.v ===== *)
(** * Notification policy (src/domain/notification/NotificationPolicy.ts)

    How often findings may interrupt: the policy, the budget as a state machine over the
    claims made to it, and the order in which a notification is suppressed. Limits and
    times are whole milliseconds. *)

From S2P Require Import Prelude JsString JsMap.

Local Open Scope Z_scope.

(** ** The policy *)

Module NotificationPolicy.
Record NotificationPolicy := mkPolicy {
  maxPerWindow : Z;
  windowMilliseconds : Z;
  duplicateCooldownMilliseconds : Z
}.

Definition MAX_SAFE_INTEGER : Z := 2 ^ 53 - 1.
Definition isSafeInteger (n : Z) : bool := Z.abs n <=? MAX_SAFE_INTEGER.

Definition create (spec : NotificationPolicy) : result NotificationPolicy :=
  if negb (isSafeInteger (maxPerWindow spec)) || (maxPerWindow spec <? 1)
     || (windowMilliseconds spec <? 1) || (duplicateCooldownMilliseconds spec <? 1)
  then throw "Notification limits must be positive integers"
  else Ok spec.

Definition STANDARD : NotificationPolicy := mkPolicy 5 60000 (15 * 60000).

Definition valid (p : NotificationPolicy) : Prop :=
  1 ≤ maxPerWindow p ∧ 1 ≤ windowMilliseconds p ∧ 1 ≤ duplicateCooldownMilliseconds p.

Lemma create_valid spec p : create spec = Ok p → p = spec ∧ valid p.
Proof.
  unfold create, valid. case_if; [done|]. intros [= <-]. bool_prop. repeat split; lia.
Qed.
End NotificationPolicy.
Abbreviation NotificationPolicy := NotificationPolicy.NotificationPolicy.

(** ** The budget *)

Module NotificationBudget.
Import NotificationPolicy.

Inductive NotificationClaim := duplicate | rate_limit.
#[global] Instance NotificationClaim_eq_dec : EqDecision NotificationClaim.
Proof. solve_decision. Defined.

(** [recentlySent] is a map that iterates in the order of insertion. *)
Record NotificationBudget := mkBudget {
  windowStartedAt : option Z;
  sentInWindow : Z;
  recentlySent : list (string * Z)
}.
Definition fresh : NotificationBudget := mkBudget None 0 [].

Section budget.
Context (policy : NotificationPolicy).

Definition prune (now : Z) (l : list (string * Z)) : list (string * Z) :=
  bfilter (λ kv, negb (duplicateCooldownMilliseconds policy <=? now - kv.2)) l.

(** [while (size > 512) delete the oldest]. *)
Definition enforceRecentBound (l : list (string * Z)) : list (string * Z) :=
  drop (length l - 512) l.

(** The state after a claim, and [None] for a claim that was granted. *)
Definition claim (b : NotificationBudget) (key : string) (timestamp : Z) :
    NotificationBudget * option NotificationClaim :=
  let recent := prune timestamp (recentlySent b) in
  let b := mkBudget (windowStartedAt b) (sentInWindow b) recent in
  if match JsMap.get recent key with
     | Some previous => timestamp - previous <? duplicateCooldownMilliseconds policy
     | None => false
     end
  then (b, Some duplicate)
  else
    let b := if match windowStartedAt b with
                | None => true
                | Some started => windowMilliseconds policy <=? timestamp - started
                end
             then mkBudget (Some timestamp) 0 recent else b in
    if maxPerWindow policy <=? sentInWindow b then (b, Some rate_limit)
    else (mkBudget (windowStartedAt b) (sentInWindow b + 1)
            (enforceRecentBound (JsMap.set recent key timestamp)), None).

(** ** Reachable budgets *)

(** [reach b grants now]: the budget after claims at times up to [now], in the order of
    a clock that does not run backwards; [grants] are the granted ones, newest first. *)
Inductive reach : NotificationBudget → list (string * Z) → Z → Prop :=
| reach_start now : reach fresh [] now
| reach_claim b grants now key t b' :
    reach b grants now → now ≤ t → claim b key t = (b', None) →
    reach b' ((key, t) :: grants) t
| reach_refused b grants now key t b' why :
    reach b grants now → now ≤ t → claim b key t = (b', Some why) →
    reach b' grants t.

(** Granted claims in the window [[from, to)]. *)
Definition granted_in (from to : Z) (grants : list (string * Z)) : Z :=
  Z.of_nat (length (bfilter (λ kt, (from <=? kt.2) && (kt.2 <? to)) grants)).

Lemma granted_in_cons from to k t grants :
  granted_in from to ((k, t) :: grants)
  = granted_in from to grants + (if (from <=? t) && (t <? to) then 1 else 0).
Proof. unfold granted_in. simpl. case_if; simpl; lia. Qed.

Lemma granted_in_nonneg from to grants : 0 ≤ granted_in from to grants.
Proof. unfold granted_in. lia. Qed.

Lemma granted_in_mono a b c d grants : c ≤ a → b ≤ d → granted_in a b grants ≤ granted_in c d grants.
Proof.
  intros Hl Hr. induction grants as [|[k t] grants IH]; [done|]. rewrite !granted_in_cons.
  destruct (_ && _) eqn:E; bool_prop; [|case_if; lia].
  replace ((c <=? t) && (t <? d)) with true; [lia|].
  symmetry. apply andb_true_iff. rewrite Z.leb_le, Z.ltb_lt. lia.
Qed.

Lemma granted_in_split a b c grants : a ≤ b → b ≤ c →
  granted_in a c grants = granted_in a b grants + granted_in b c grants.
Proof.
  intros Hab Hbc. induction grants as [|[k t] grants IH]; [done|]. rewrite !granted_in_cons, IH.
  destruct (a <=? t) eqn:E1, (t <? c) eqn:E2, (t <? b) eqn:E3, (b <=? t) eqn:E4;
    bool_prop; simpl; lia.
Qed.

(** What a claim did, without the map of recent keys. *)
Lemma claim_granted b key t b' : claim b key t = (b', None) →
  (windowStartedAt b' = Some t ∧ sentInWindow b' = 1
     ∧ (∀ s, windowStartedAt b = Some s → windowMilliseconds policy ≤ t - s))
  ∨ (∃ s, windowStartedAt b = Some s ∧ t - s < windowMilliseconds policy
      ∧ windowStartedAt b' = Some s ∧ sentInWindow b' = sentInWindow b + 1
      ∧ sentInWindow b < maxPerWindow policy).
Proof.
  unfold claim. cbn [windowStartedAt sentInWindow recentlySent].
  case_if; [done|]. destruct (windowStartedAt b) as [s|] eqn:Es.
  - destruct (windowMilliseconds policy <=? t - s) eqn:Ew; cbn [windowStartedAt sentInWindow];
      case_if; try done; intros [= <-]; bool_prop; cbn [windowStartedAt sentInWindow].
    + left. split; [done|]. split; [done|]. by intros ? [= <-].
    + right. exists s. repeat split; lia.
  - cbn [windowStartedAt sentInWindow]. case_if; [done|]. intros [= <-]. left. by cbn.
Qed.

(** A refused claim is not spent budget. *)
Lemma claim_refused b key t b' why : 1 ≤ maxPerWindow policy → claim b key t = (b', Some why) →
  windowStartedAt b' = windowStartedAt b ∧ sentInWindow b' = sentInWindow b
  ∧ recentlySent b' = prune t (recentlySent b).
Proof.
  intros Hm. unfold claim. cbn [windowStartedAt sentInWindow recentlySent].
  case_if; [by intros [= <- _]|]. destruct (windowStartedAt b) as [s|] eqn:Es.
  - destruct (windowMilliseconds policy <=? t - s); cbn [windowStartedAt sentInWindow];
      case_if; try done; intros [= <- _]; bool_prop; [lia|by cbn].
  - cbn [windowStartedAt sentInWindow]. case_if; [bool_prop; lia|done].
Qed.

(** The invariant behind the rate: every grant is in the window or before it, the
    window holds every grant since it began, and the length of a window before it began
    saw no more than a window's worth. *)
Definition window_ok (b : NotificationBudget) (grants : list (string * Z)) (now : Z) : Prop :=
  0 ≤ sentInWindow b ≤ maxPerWindow policy
  ∧ match windowStartedAt b with
    | None => grants = []
    | Some s =>
        s ≤ now
        ∧ Forall (λ kt, kt.2 < s + windowMilliseconds policy) grants
        ∧ granted_in s (s + windowMilliseconds policy) grants = sentInWindow b
        ∧ ∀ a, s - windowMilliseconds policy < a → granted_in a s grants ≤ maxPerWindow policy
    end.

Lemma granted_in_beyond from m to grants : Forall (λ kt, kt.2 < m) grants → m ≤ to →
  granted_in from to grants = granted_in from m grants.
Proof.
  intros Hf Hto. induction Hf as [|[k t] grants Ht Hf IH]; [done|]. rewrite !granted_in_cons, IH.
  simpl in Ht. f_equal. replace (t <? to) with true by (symmetry; apply Z.ltb_lt; lia).
  by replace (t <? m) with true by (symmetry; apply Z.ltb_lt; lia).
Qed.

Lemma granted_in_after from to grants : Forall (λ kt, kt.2 < from) grants → granted_in from to grants = 0.
Proof.
  intros Hf. induction Hf as [|[k t] grants Ht Hf IH]; [done|]. rewrite granted_in_cons, IH.
  simpl in Ht. by replace (from <=? t) with false by (symmetry; apply Z.leb_gt; lia).
Qed.

(** A new grant counts where its time lies. *)
Lemma granted_in_new from to k t grants : from ≤ t < to →
  granted_in from to ((k, t) :: grants) = granted_in from to grants + 1.
Proof.
  intros Ht. rewrite granted_in_cons. replace ((from <=? t) && (t <? to)) with true; [done|].
  symmetry. apply andb_true_iff. rewrite Z.leb_le, Z.ltb_lt. lia.
Qed.
Lemma granted_in_old from to k t grants : ¬ from ≤ t < to →
  granted_in from to ((k, t) :: grants) = granted_in from to grants.
Proof.
  intros Ht. rewrite granted_in_cons. destruct (_ && _) eqn:E; [bool_prop; lia|lia].
Qed.

Lemma window_step b grants now key t b' : valid policy → window_ok b grants now → now ≤ t →
  claim b key t = (b', None) → window_ok b' ((key, t) :: grants) t.
Proof.
  intros (Hm & Hw & Hc) [Hs HI] Ht Hcl. unfold window_ok.
  apply claim_granted in Hcl as [(-> & -> & Hold)|(s & Eb & Hlt & -> & -> & Hroom)].
  - split; [lia|].
    assert (Forall (λ kt, kt.2 < t) grants
      ∧ ∀ a, t - windowMilliseconds policy < a → granted_in a t grants ≤ maxPerWindow policy) as [Hlt Hprev].
    { destruct (windowStartedAt b) as [s|]; [|subst grants; split; [constructor|]; intros a _; unfold granted_in; simpl; lia].
      specialize (Hold s eq_refl). destruct HI as (Hsn & Hf & Hcnt & _). split.
      - eapply Forall_impl; [exact Hf|]. intros [k u] Hu. simpl in *. lia.
      - intros a Ha. transitivity (granted_in s t grants); [apply granted_in_mono; lia|].
        rewrite (granted_in_beyond _ _ _ _ Hf) by lia. lia. }
    split; [lia|]. split; [|split].
    + constructor; [simpl; lia|]. eapply Forall_impl; [exact Hlt|]. intros [k u] Hu. simpl in *. lia.
    + rewrite granted_in_new by lia. by rewrite granted_in_after.
    + intros a Ha. rewrite granted_in_old by lia. by apply Hprev.
  - rewrite Eb in HI. destruct HI as (Hsn & Hf & Hcnt & Hprev).
    split; [lia|]. split; [lia|]. split; [|split].
    + constructor; [simpl; lia|done].
    + rewrite granted_in_new by lia. lia.
    + intros a Ha. rewrite granted_in_old by lia. by apply Hprev.
Qed.

(** Around the current window. *)
Lemma window_rate b grants now s a : window_ok b grants now → windowStartedAt b = Some s →
  s - windowMilliseconds policy < a →
  granted_in a (a + windowMilliseconds policy) grants ≤ 2 * maxPerWindow policy.
Proof.
  intros [Hs HI] Es Ha. rewrite Es in HI. destruct HI as (Hsn & Hf & Hcnt & Hprev).
  assert (∀ to, granted_in s to grants ≤ maxPerWindow policy) as Hcur.
  { intros to. destruct (decide (s + windowMilliseconds policy ≤ to)).
    - rewrite (granted_in_beyond _ _ _ _ Hf) by done. lia.
    - transitivity (granted_in s (s + windowMilliseconds policy) grants); [apply granted_in_mono; lia|lia]. }
  destruct (decide (a ≤ s)).
  - rewrite (granted_in_split a s) by lia. specialize (Hprev a Ha).
    specialize (Hcur (a + windowMilliseconds policy)). lia.
  - transitivity (granted_in s (a + windowMilliseconds policy) grants); [apply granted_in_mono; lia|].
    specialize (Hcur (a + windowMilliseconds policy)). lia.
Qed.

Lemma reach_window b grants now : valid policy → reach b grants now → window_ok b grants now.
Proof.
  intros Hv. induction 1 as [now|b grants now key t b' _ IH Ht Hcl|b grants now key t b' why _ [Hs HI] Ht Hcl].
  - split; [|done]. destruct Hv. simpl. lia.
  - by eapply window_step.
  - apply claim_refused in Hcl as (E1 & E2 & _); [|apply Hv]. unfold window_ok. rewrite E1, E2.
    split; [done|]. destruct (windowStartedAt b); [|done]. destruct HI as (? & ? & ?). split; [lia|done].
Qed.

Lemma reach_rate b grants now a : valid policy → reach b grants now →
  granted_in a (a + windowMilliseconds policy) grants ≤ 2 * maxPerWindow policy.
Proof.
  intros Hv. induction 1 as [now|b grants now key t b' Hr IH Ht Hcl|]; [|  |done].
  - unfold granted_in. simpl. destruct Hv. lia.
  - destruct (decide (a ≤ t < a + windowMilliseconds policy)) as [Hin|Hout]; [|by rewrite granted_in_old].
    assert (window_ok b' ((key, t) :: grants) t) as Hok
      by (eapply window_step; [done|by eapply reach_window|done|done]).
    destruct (windowStartedAt b') as [s|] eqn:Es.
    + eapply window_rate; [exact Hok|exact Es|]. destruct Hok as [_ HI]. rewrite Es in HI. lia.
    + destruct Hok as [_ HI]. by rewrite Es in HI.
Qed.

(** ** The recent keys *)

Lemma enforce_length l : (length (enforceRecentBound l) ≤ 512)%nat.
Proof. unfold enforceRecentBound. rewrite length_drop. lia. Qed.

Lemma bfilter_length {A} (f : A → bool) l : (length (bfilter f l) ≤ length l)%nat.
Proof. induction l as [|x l IH]; simpl; [done|]. case_if; simpl; lia. Qed.

Lemma reach_bound b grants now : 1 ≤ maxPerWindow policy → reach b grants now →
  (length (recentlySent b) ≤ 512)%nat.
Proof.
  intros Hm. induction 1 as [now|b grants now key t b' _ IH Ht Hcl|b grants now key t b' why _ IH Ht Hcl].
  - simpl. lia.
  - revert Hcl. unfold claim. cbn [windowStartedAt sentInWindow recentlySent].
    case_if; [done|]. case_if; case_if; try done; intros [= <-]; apply enforce_length.
  - apply claim_refused in Hcl as (_ & _ & ->); [|done]. unfold prune.
    etrans; [apply bfilter_length|done].
Qed.
End budget.

(** C38. A budget stays bounded under any stream of claims: it never remembers more than
    512 keys, never counts more grants in its window than the policy allows, and over
    any stretch of time as long as the window it grants at most twice that number. *)
Theorem budget_bounds policy b grants now a :
  valid policy → reach policy b grants now →
  (length (recentlySent b) ≤ 512)%nat
  ∧ 0 ≤ sentInWindow b ≤ maxPerWindow policy
  ∧ granted_in a (a + windowMilliseconds policy) grants ≤ 2 * maxPerWindow policy.
Proof.
  intros Hv Hr. split; [eapply reach_bound; [apply Hv|exact Hr]|].
  split; [by apply (reach_window policy b grants now)|by eapply reach_rate].
Qed.

(** A refused claim costs nothing: it leaves the window and the number of grants in
    it as they were, and of the recent keys removes only those whose cooldown is over;
    a claim whose key was granted less than a cooldown ago and is still remembered is
    refused as a duplicate. *)
Theorem refused_claim_is_free policy b key t b' why :
  1 ≤ maxPerWindow policy → claim policy b key t = (b', Some why) →
  windowStartedAt b' = windowStartedAt b ∧ sentInWindow b' = sentInWindow b
  ∧ (∀ kv, kv ∈ recentlySent b' ↔ kv ∈ recentlySent b ∧ t - kv.2 < duplicateCooldownMilliseconds policy)
  ∧ (why = duplicate ↔ ∃ u, JsMap.get (recentlySent b') key = Some u).
Proof.
  intros Hm Hcl. destruct (claim_refused policy b key t b' why Hm Hcl) as (H1 & H2 & H3).
  split; [done|]. split; [done|]. split.
  - intros kv. rewrite H3. unfold prune. rewrite elem_of_bfilter, negb_true_iff, Z.leb_gt. done.
  - rewrite H3. revert Hcl. unfold claim. cbn [windowStartedAt sentInWindow recentlySent].
    destruct (JsMap.get (prune policy t (recentlySent b)) key) as [u|] eqn:Eg.
    + assert (t - u <? duplicateCooldownMilliseconds policy = true) as ->.
      { apply Z.ltb_lt. unfold JsMap.get in Eg.
        destruct (find _ _) as [kv|] eqn:Ef; [|done]. injection Eg as <-.
        apply find_spec in Ef as [Hin _]. unfold prune in Hin.
        apply elem_of_bfilter in Hin as [_ Hin]. bool_prop. lia. }
      intros [= _ <-]. split; [by exists u|done].
    + intros Hcl. split; [intros ->|by intros [u ?]].
      revert Hcl. case_if; case_if; by intros [=].
Qed.

(** A stream of claims, each with its key and time, and the number granted. *)
Fixpoint run_claims (policy : NotificationPolicy) (b : NotificationBudget) (l : list (string * Z)) :
    NotificationBudget * list (string * Z) :=
  match l with
  | [] => (b, [])
  | (key, t) :: r =>
      match claim policy b key t with
      | (b', None) => let '(b'', g) := run_claims policy b' r in (b'', g ++ [(key, t)])
      | (b', Some _) => run_claims policy b' r
      end
  end.

Lemma run_claims_reach policy b grants now l :
  reach policy b grants now → Sorted Z.le (now :: map snd l) →
  ∃ now', reach policy (run_claims policy b l).1 ((run_claims policy b l).2 ++ grants) now'.
Proof.
  revert b grants now. induction l as [|[key t] l IH]; intros b grants now Hr Hs; simpl; [by exists now|].
  inv Hs. inv H2. destruct (claim policy b key t) as [b' [why|]] eqn:Ec.
  - apply (IH b' grants t); [by eapply reach_refused|done].
  - destruct (IH b' ((key, t) :: grants) t) as [now' Hn]; [by eapply reach_claim|done|].
    exists now'. destruct (run_claims policy b' l) as [b'' g]. simpl in *. by rewrite <-app_assoc.
Qed.

Lemma standard_valid : valid STANDARD.
Proof. by repeat split. Qed.

(** Four notifications just before the window ends and five just after. *)
Definition burst : list (string * Z) :=
  [("a", 0); ("b", 59996); ("c", 59997); ("d", 59998); ("e", 59999);
   ("f", 60000); ("g", 60001); ("h", 60002); ("i", 60003); ("j", 60004); ("k", 60005)].

Lemma budget_bounds_witness :
  (length (recentlySent (run_claims STANDARD fresh burst).1) ≤ 512)%nat
  ∧ granted_in 59990 (59990 + 60000) ((run_claims STANDARD fresh burst).2 ++ []) ≤ 10.
Proof.
  destruct (run_claims_reach STANDARD fresh [] 0 burst) as [now Hr].
  - constructor.
  - unfold burst. cbn [map snd]. repeat (constructor; try lia).
  - destruct (budget_bounds STANDARD _ _ _ 59990 standard_valid Hr)
      as (H1 & _ & H3). split; [exact H1|exact H3].
Defined.

Lemma refused_claim_is_free_witness :
  let b := (claim STANDARD fresh "a" 0).1 in
  claim STANDARD b "a" 1000 = (b, Some duplicate)
  ∧ sentInWindow (claim STANDARD b "a" 1000).1 = 1.
Proof.
  intros b. split; [reflexivity|].
  destruct (refused_claim_is_free STANDARD b "a" 1000 (claim STANDARD b "a" 1000).1 duplicate) as (_ & -> & _);
    [done|reflexivity|reflexivity].
Defined.

(** The budget is a fixed window that restarts, not a sliding one: the shipped policy
    of five a minute grants nine claims within ten milliseconds, and refuses the next. *)
Theorem window_does_not_slide :
  granted_in 59990 60010 (run_claims STANDARD fresh burst).2 = 9
  ∧ maxPerWindow STANDARD = 5 ∧ windowMilliseconds STANDARD = 60000
  ∧ (claim STANDARD (run_claims STANDARD fresh (take 10 burst)).1 "k" 60005).2 = Some rate_limit.
Proof. vm_compute. done. Qed.
End NotificationBudget.
Abbreviation NotificationBudget := NotificationBudget.NotificationBudget.

(** ** Suppression *)

Inductive NotificationSuppression := paused | approved | claimed (c : NotificationBudget.NotificationClaim).

(** The state of the budget after the decision, and [None] when the finding may notify. *)
Definition suppressNotification (policy : NotificationPolicy) (is_paused approvedHigh : bool)
    (budget : NotificationBudget) (decisionKey : string) (at_ : Z) :
    NotificationBudget * option NotificationSuppression :=
  if is_paused then (budget, Some paused)
  else if approvedHigh then (budget, Some approved)
  else let '(b, c) := NotificationBudget.claim policy budget decisionKey at_ in (b, claimed <$> c).
