(* ===== verification/Protection.v ===== *)
(** * Protection status (src/domain/protection/ProtectionStatus.ts,
    src/application/use-cases/AssessProtection.ts)

    The status value, whose constructor guards the reassuring level, and the use case
    that derives it from the probes and the known limits of the backend. *)

From S2P Require Import Prelude JsString NodePath Paths Values Network SensitivePaths Sha256 Regex.
From S2P Require Import Entities Policy.

(** ** ProtectionStatus *)

Module ProtectionStatus.
Inductive ProtectionLevel := PROTECTED | DEGRADED | UNPROTECTED | BYPASSED.
Inductive ProtectionMechanism := seatbelt | bubblewrap | appcontainer | no_mechanism.
Inductive DenyCanaryState := canary_passed | canary_failed | canary_not_run.
Inductive EnforcementState := enforced | partial | unverified | not_enforced.
Inductive NetworkProtection := net_denied | net_brokered | net_port_only | net_unrestricted | net_none.
Inductive ProtectionArea :=
  operator_area | platform_area | sandbox_area | filesystem_area | process_area | network_area | policy_area.

#[global] Instance ProtectionLevel_eq_dec : EqDecision ProtectionLevel.
Proof. solve_decision. Defined.
#[global] Instance ProtectionMechanism_eq_dec : EqDecision ProtectionMechanism.
Proof. solve_decision. Defined.
#[global] Instance DenyCanaryState_eq_dec : EqDecision DenyCanaryState.
Proof. solve_decision. Defined.
#[global] Instance EnforcementState_eq_dec : EqDecision EnforcementState.
Proof. solve_decision. Defined.
#[global] Instance NetworkProtection_eq_dec : EqDecision NetworkProtection.
Proof. solve_decision. Defined.

Record ProtectionCapabilities := mkCapabilities {
  mechanism : ProtectionMechanism;
  denyCanary : DenyCanaryState;
  filesystem : EnforcementState;
  processTree : EnforcementState;
  network : NetworkProtection
}.
Record ProtectionReason := mkReason { code_ : string; area : ProtectionArea; message : string }.
Record ProtectionStatus := mkStatus {
  level : ProtectionLevel;
  capabilities : ProtectionCapabilities;
  reasons : list ProtectionReason
}.

Definition isComplete (c : ProtectionCapabilities) (rs : list ProtectionReason) : bool :=
  negb (bool_decide (mechanism c = no_mechanism)) && bool_decide (denyCanary c = canary_passed)
  && bool_decide (filesystem c = enforced) && bool_decide (processTree c = enforced)
  && (bool_decide (network c = net_denied) || bool_decide (network c = net_brokered))
  && (length rs =? 0).

Definition create (props : ProtectionStatus) : result ProtectionStatus :=
  if bool_decide (level props = PROTECTED) && negb (isComplete (capabilities props) (reasons props))
  then throw "PROTECTED requires a passed deny canary, complete filesystem and process-tree enforcement, denied or brokered network access, and no degradation reasons"
  else Ok props.

Definition isProtected (s : ProtectionStatus) : bool := bool_decide (level s = PROTECTED).
End ProtectionStatus.
Abbreviation ProtectionStatus := ProtectionStatus.ProtectionStatus.

(** ** AssessProtection *)

Module AssessProtection.
Import ProtectionStatus.

Inductive SandboxProbeCode :=
| probe_passed | deny_canary_readable | child_deny_canary_readable | workspace_unreadable
| child_probe_failed | runner_failed | canary_timed_out | unexpected_exit.
Record SandboxProbeResult := mkProbe {
  passed : bool;
  code : SandboxProbeCode;
  childOutsideReadDenied : bool;
  detail : option string
}.

Inductive NetworkProbeCode :=
| network_passed | broker_unavailable | allowed_destination_refused | relay_failed
| arbitrary_destination_allowed | metadata_destination_allowed.
Record NetworkProbeResult := mkNetworkProbe {
  net_passed : bool;
  net_code : NetworkProbeCode;
  (** The transport the canary established: a brokered enforcement. *)
  enforcement : option SandboxPolicy.NetworkBrokerTransport
}.

Record SandboxRunner := mkRunner {
  runner_mechanism : ProtectionMechanism;
  unenforceable : SandboxPolicy → PathContext → list string
}.

Record AssessProtectionRequest := mkRequest {
  req_platform : Platform;
  runner : option SandboxRunner;
  policy : SandboxPolicy;
  context : PathContext;
  bypassed : bool;
  destinationBrokerVerified : option bool
}.

Record BrokerVerification := mkBroker {
  verified : bool;
  broker_enforcement : option SandboxPolicy.NetworkBrokerTransport;
  broker_reason : option ProtectionReason
}.

Definition INACTIVE_CAPABILITIES : ProtectionCapabilities :=
  mkCapabilities no_mechanism canary_not_run not_enforced not_enforced net_none.

Definition BROKER_REQUIRED : ProtectionReason :=
  mkReason "network.broker-required" network_area
    "Requested egress stays denied and protected runs fail closed until a verified destination broker is available.".

Definition network_code_name (c : NetworkProbeCode) : string :=
  match c with
  | network_passed => "passed"
  | broker_unavailable => "broker-unavailable"
  | allowed_destination_refused => "allowed-destination-refused"
  | relay_failed => "relay-failed"
  | arbitrary_destination_allowed => "arbitrary-destination-allowed"
  | metadata_destination_allowed => "metadata-destination-allowed"
  end.
Definition NETWORK_PROBE_MESSAGES (c : NetworkProbeCode) : string :=
  match c with
  | network_passed => "The destination broker canary passed."
  | broker_unavailable => "The destination broker refused to start for the requested destinations, so egress stays closed."
  | allowed_destination_refused => "The destination broker refused an approved destination, so protected runs would lose network access."
  | relay_failed => "An approved tunnel was established but did not carry traffic, so the broker transport is unusable."
  | arbitrary_destination_allowed => "The destination broker accepted a destination outside the allowlist; egress is not confined."
  | metadata_destination_allowed => "The destination broker accepted the cloud metadata endpoint; egress is not confined."
  end.

Definition mechanismMatchesPlatform (m : ProtectionMechanism) (p : Platform) : bool :=
  match m, p with
  | seatbelt, Platform.Darwin | bubblewrap, Platform.Linux | appcontainer, Platform.Win32 => true
  | _, _ => false
  end.
Definition mechanism_name (m : ProtectionMechanism) : string :=
  match m with
  | seatbelt => "seatbelt" | bubblewrap => "bubblewrap" | appcontainer => "appcontainer" | no_mechanism => "none"
  end.

Definition probe_code_name (c : SandboxProbeCode) : string :=
  match c with
  | probe_passed => "passed"
  | deny_canary_readable => "deny-canary-readable"
  | child_deny_canary_readable => "child-deny-canary-readable"
  | workspace_unreadable => "workspace-unreadable"
  | child_probe_failed => "child-probe-failed"
  | runner_failed => "runner-failed"
  | canary_timed_out => "canary-timed-out"
  | unexpected_exit => "unexpected-exit"
  end.
Definition probe_message (c : SandboxProbeCode) : string :=
  match c with
  | probe_passed => ""
  | deny_canary_readable => "The sandboxed process could read the outside deny canary."
  | child_deny_canary_readable => "A sandboxed child process could read the outside deny canary."
  | workspace_unreadable => "The sandbox denied the workspace allow canary, so the boundary is unusable."
  | child_probe_failed => "The child-process deny canary did not complete successfully."
  | runner_failed => "The sandbox runner could not start the canary process."
  | canary_timed_out => "The sandbox canary did not finish in time, so the boundary could not be verified."
  | unexpected_exit => "The sandbox canary returned an unrecognised result."
  end.
Definition probeFailureReason (p : SandboxProbeResult) : ProtectionReason :=
  match code p with
  | probe_passed =>
      mkReason "sandbox.probe-inconsistent" sandbox_area
        "The sandbox probe reported failure with a passing result code."
  | c =>
      let suffix := match detail p with None => "" | Some d => " (" +:+ d +:+ ")" end in
      mkReason ("sandbox." +:+ probe_code_name c) sandbox_area (probe_message c +:+ suffix)
  end.

Definition unprotected (c : string) (a : ProtectionArea) (m : string) : result ProtectionStatus :=
  create (mkStatus UNPROTECTED INACTIVE_CAPABILITIES [mkReason c a m]).

(** [/mount|wildcard|file|path/i] *)
Definition FILESYSTEM_GAP : Regex.regex := Regex.alts (map Regex.lit_i ["mount"; "wildcard"; "file"; "path"]).

Section assess.
Context `{Digest} {W : Type}.
Context (probe : SandboxRunner → Platform → M W SandboxProbeResult).
Context (network_probe : option (list NetworkRule → Platform → M W NetworkProbeResult)).

Definition verifyBroker (request : AssessProtectionRequest) (egressRequested : bool) :
    M W BrokerVerification :=
  match destinationBrokerVerified request with
  | Some v => mok (mkBroker v None None)
  | None =>
      match network_probe with
      | None => mok (mkBroker false None None)
      | Some net =>
          if negb egressRequested then mok (mkBroker false None None)
          else
            let* r := net (SandboxPolicy.network (policy request)) (req_platform request) in
            if net_passed r then mok (mkBroker true (enforcement r) None)
            else mok (mkBroker false None
                        (Some (mkReason ("network." +:+ network_code_name (net_code r)) network_area
                                 (NETWORK_PROBE_MESSAGES (net_code r)))))
      end
  end.

(** The status of a runner whose canary passed. *)
Definition judge (m : ProtectionMechanism) (gaps : list string) (egressRequested : bool)
    (broker : BrokerVerification) (childDenied : bool) : ProtectionStatus :=
  let policy_reasons := map (mkReason "policy.unenforceable" policy_area) gaps in
  let filesystem :=
    if existsb (Regex.test FILESYSTEM_GAP) gaps then partial else enforced in
  let '(filesystem, backend_reasons) :=
    match m with
    | seatbelt =>
        (partial, [mkReason "seatbelt.broad-system-read" filesystem_area
           "The current Seatbelt profile permits broad reads outside user home directories."])
    | appcontainer =>
        (partial, [mkReason "appcontainer.compatibility-surface" filesystem_area
           "Stable AppContainer confines user resources but retains a documented common-system compatibility surface."])
    | _ => (filesystem, [])
    end in
  let '(network, network_reasons) :=
    if egressRequested then
      match m with
      | appcontainer =>
          (net_denied, [mkReason "network.appcontainer-deny-only" network_area
             "AppContainer starts with zero network capabilities; requested egress stays denied until a destination broker is available."])
      | _ => if verified broker then (net_brokered, [])
             else (net_denied, [match broker_reason broker with Some r => r | None => BROKER_REQUIRED end])
      end
    else (net_denied, []) in
  let processTree := if childDenied then enforced else unverified in
  let process_reasons :=
    if bool_decide (processTree = enforced) then []
    else [mkReason "process.child-boundary-unverified" process_area
            "The deny canary was not verified in a child process."] in
  let reasons := policy_reasons ++ backend_reasons ++ network_reasons ++ process_reasons in
  mkStatus (if length reasons =? 0 then PROTECTED else DEGRADED)
    (mkCapabilities m canary_passed filesystem processTree network) reasons.

Definition execute (request : AssessProtectionRequest) : M W ProtectionStatus :=
  if bypassed request then
    mlift (create (mkStatus BYPASSED INACTIVE_CAPABILITIES
             [mkReason "operator.bypassed" operator_area "Sandbox protection was explicitly bypassed."]))
  else if negb (bool_decide (platform (context request) = req_platform request)) then
    mlift (unprotected "platform.context-mismatch" platform_area
             "The policy context platform does not match the platform being assessed.")
  else
    match runner request with
    | None =>
        let windows := bool_decide (req_platform request = Platform.Win32) in
        mlift (unprotected (if windows then "platform.windows-runner-unavailable" else "sandbox.runner-missing")
                 platform_area
                 (if windows
                  then "No Windows sandbox backend is shipped: the AppContainer backend never completed its own deny canary, and an unproven boundary is not a boundary."
                  else "No sandbox runner is available; no isolation boundary is active."))
    | Some r =>
        let m := runner_mechanism r in
        if bool_decide (m = no_mechanism) then
          mlift (unprotected "sandbox.mechanism-none" sandbox_area
                   "The selected runner executes commands without an isolation mechanism.")
        else if negb (mechanismMatchesPlatform m (req_platform request)) then
          mlift (unprotected "platform.runner-mismatch" platform_area
                   ("The " +:+ mechanism_name m +:+ " runner cannot provide a boundary on "
                    +:+ Platform.name (req_platform request) +:+ "."))
        else
          let* p := probe r (req_platform request) in
          if negb (passed p) then
            mlift (create (mkStatus UNPROTECTED
                     (mkCapabilities m canary_failed not_enforced not_enforced net_none)
                     [probeFailureReason p]))
          else
            let egressRequested := 0 <? length (SandboxPolicy.network (policy request)) in
            let* broker := verifyBroker request egressRequested in
            let pol := match broker_enforcement broker with
                       | None => policy request
                       | Some t => SandboxPolicy.withNetworkEnforcement (policy request) (SandboxPolicy.brokered t)
                       end in
            mlift (create (judge m (unenforceable r pol (context request)) egressRequested broker
                             (childOutsideReadDenied p)))
    end.

(** ** Correctness *)

Lemma status_create_ok props : level props ≠ PROTECTED → create props = Ok props.
Proof. intros Hl. unfold create. by rewrite bool_decide_false. Qed.

(** Nothing degrades the judgement only when everything the level promises holds. *)
Lemma judge_protected m gaps egress broker child : m ≠ no_mechanism →
  level (judge m gaps egress broker child) = PROTECTED ↔
  m = bubblewrap ∧ gaps = [] ∧ child = true ∧ (egress = true → verified broker = true).
Proof.
  intros Hm. unfold judge.
  destruct m, gaps as [|g gaps], egress, (verified broker), child; try done; simpl; naive_solver.
Qed.

Lemma judge_created m gaps egress broker child : m ≠ no_mechanism →
  create (judge m gaps egress broker child) = Ok (judge m gaps egress broker child).
Proof.
  intros Hm. destruct (decide (level (judge m gaps egress broker child) = PROTECTED)) as [Hl|Hl];
    [|by apply status_create_ok].
  unfold create. rewrite Hl. apply judge_protected in Hl as (-> & -> & -> & Hv); [|done].
  unfold judge. destruct egress; simpl; [|done]. by rewrite Hv.
Qed.
End assess.

(** What has to hold for the reassuring level, of the request and of what the probes
    reported. *)
Definition fully_protected `{Digest} (request : AssessProtectionRequest) (r : SandboxRunner)
    (p : SandboxProbeResult) (broker : BrokerVerification) : Prop :=
  runner_mechanism r = bubblewrap ∧ req_platform request = Platform.Linux
  ∧ passed p = true ∧ childOutsideReadDenied p = true
  ∧ unenforceable r (match broker_enforcement broker with
                     | None => policy request
                     | Some t => SandboxPolicy.withNetworkEnforcement (policy request) (SandboxPolicy.brokered t)
                     end) (context request) = []
  ∧ (SandboxPolicy.network (policy request) ≠ [] → verified broker = true).

(** C25. The status is honest and always available: whenever the probes answer, the
    assessment returns a status instead of throwing, and that status is PROTECTED
    exactly when protection was not bypassed, the platforms agree, the runner is
    bubblewrap on Linux, its canary passed in the process and in a child, the backend
    enforces the whole policy in the shape it will run in, and requested egress goes
    through a verified broker. *)
Theorem assessment_honest `{Digest} {W} probe network_probe (request : AssessProtectionRequest) (w w1 w2 : W) r p broker :
  runner request = Some r →
  probe r (req_platform request) w = (w1, Ok p) →
  verifyBroker network_probe request (0 <? length (SandboxPolicy.network (policy request))) w1 = (w2, Ok broker) →
  ∃ status, (execute probe network_probe request w).2 = Ok status
  ∧ (level status = PROTECTED ↔
     bypassed request = false ∧ platform (context request) = req_platform request
     ∧ fully_protected request r p broker).
Proof.
  intros Hr Hp Hb. unfold execute, fully_protected. rewrite Hr.
  destruct (bypassed request); [eexists; split; [done|]; simpl; naive_solver|].
  case_bool_decide as Hpl; cbn [negb]; [|eexists; split; [done|]; simpl; naive_solver].
  case_bool_decide as Hm; [eexists; split; [done|]; simpl; rewrite Hm; naive_solver|].
  destruct (mechanismMatchesPlatform (runner_mechanism r) (req_platform request)) eqn:Hmp; cbn [negb].
  2: { eexists. split; [done|]. simpl. split; [done|].
       intros (_ & _ & Hbw & Hl & _). by rewrite Hbw, Hl in Hmp. }
  unfold mseq at 1. rewrite Hp. destruct (passed p) eqn:Hpass; cbn [negb].
  2: { eexists. split; [done|]. simpl. naive_solver. }
  unfold mseq at 1. rewrite Hb. unfold mlift. rewrite judge_created by done.
  eexists. split; [done|]. rewrite judge_protected by done.
  split.
  - intros (Hbw & Hg & Hc & Hv). rewrite Hbw in Hmp. repeat split; try done.
    + by destruct (req_platform request).
    + intros Hn. apply Hv. by destruct (SandboxPolicy.network (policy request)).
  - intros (_ & _ & Hbw & _ & _ & Hc & Hg & Hv). repeat split; try done.
    intros Hn. apply Hv. intros E. by rewrite E in Hn.
Qed.

Definition demo_runner : SandboxRunner := mkRunner bubblewrap (λ _ _, []).
Definition demo_policy : SandboxPolicy :=
  SandboxPolicy.construct
    (SandboxPolicy.mkPolicyProps (AbsolutePath.posix_path ["w"]) [] [] [] [] [NetworkRule.loopback] None None).
Definition demo_request : AssessProtectionRequest :=
  mkRequest Platform.Linux (Some demo_runner) demo_policy
    (mkContext (AbsolutePath.posix_path ["home"; "u"]) (AbsolutePath.posix_path ["w"]) Platform.Linux) false None.
Definition demo_probe : SandboxRunner → Platform → M unit SandboxProbeResult :=
  λ _ _, mok (mkProbe true probe_passed true None).
Definition demo_network : list NetworkRule → Platform → M unit NetworkProbeResult :=
  λ _ _, mok (mkNetworkProbe true network_passed (Some (SandboxPolicy.tcp_loopback 4000))).

Lemma assessment_honest_witness :
  ∃ status, (execute demo_probe (Some demo_network) demo_request tt).2 = Ok status ∧ level status = PROTECTED.
Proof.
  destruct (assessment_honest demo_probe (Some demo_network) demo_request tt tt tt demo_runner
    (mkProbe true probe_passed true None) (mkBroker true (Some (SandboxPolicy.tcp_loopback 4000)) None))
    as (status & H1 & H2).
  - reflexivity.
  - reflexivity.
  - reflexivity.
  - exists status. split; [exact H1|]. apply H2. by repeat split.
Defined.
End AssessProtection.
