(* ===== verification/PersistenceRules.v ===== *)
(** * Persistence rules (src/domain/rules/persistence/index.ts)

    Family P: what a change outside the repository means. One template, and per rule its
    patterns, its description of a change and what to point at in the file. *)

From S2P Require Import Prelude JsString NodePath Paths Patterns Values SensitivePaths Entities.
From S2P Require Import Regex Rules.
Import Rule BaselineChange.

Module PersistenceRules.

(** What a subclass supplies. *)
Record Spec := mkSpec {
  spec_header : Header;
  patterns : list string;
  describe : BaselineChange → option string;
  needle : Regex.regex
}.

(** The default description and the default needle [/.*/], which every line matches. *)
Definition was_kind (c : BaselineChange) : string := display c +:+ " was " +:+ kind_name (kind c) +:+ ".".
Definition describe_default (c : BaselineChange) : option string := Some (was_kind c).
Definition ANYTHING : Regex.regex := Regex.Star (Regex.Chars (λ c, negb (Ascii.eqb c newline))).

(** The compiled patterns are cached on the rule; compiling them is a function of the
    rule, so the cache is not part of the state. *)
Definition compiled (s : Spec) : result (list PathPattern) := rmapM PathPattern.of_ (patterns s).

Definition appliesTo_ (s : Spec) (c : BaselineChange) : result bool :=
  let! ps := compiled s in
  Ok (some (λ p, PathPattern.matches p (path c) (home (context c))) ps).

Definition inspect_ (s : Spec) (c : BaselineChange) : result (list Finding) :=
  match describe s c with
  | None => Ok []
  | Some detail =>
      let! sev := if sandboxActive c then Severity.escalated (h_severity (spec_header s))
                  else Ok (h_severity (spec_header s)) in
      let! loc := match content c with
                  | None => Ok None
                  | Some text => SourceLocation.firstMatch text (Regex.test (needle s))
                  end in
      Ok [finding (spec_header s)
            (mkDraft (h_title (spec_header s))
               (if sandboxActive c
                then detail +:+ " This happened while isolation was active, so something got around it."
                else detail)
               (display c) (currentHash c) loc (Some sev) None)]
  end.

Definition persistence_rule (s : Spec) : Rule BaselineChange :=
  of_header (spec_header s) (appliesTo_ s) (inspect_ s).

Definition p_header (value : string) (number : Z) (sev : Severity) (title remediation : string) : Header :=
  mkHeader (RuleId.mkRuleId value "P" number) sev Disposition.ASK title remediation.

Definition ZshEnvRule : Spec :=
  mkSpec (p_header "AG-P001" 1 Severity.CRITICAL "~/.zshenv changed"
            "~/.zshenv is read by every zsh process, including non-interactive ones. Review the diff; the previous version is in ~/.agentkeeper/backups/.")
    ["~/.zshenv"] describe_default ANYTHING.

Definition ShellStartupRule : Spec :=
  mkSpec (p_header "AG-P002" 2 Severity.HIGH "A shell startup file changed"
            "Version managers and plugin frameworks edit these legitimately on update. Confirm the change matches something you just installed.")
    ["~/.zshrc"; "~/.bashrc"; "~/.bash_profile"; "~/.profile"; "~/.config/fish/config.fish";
     "~/.config/fish/conf.d/**"] describe_default ANYTHING.

(** [/(hooksPath|sshCommand|\[alias\]|\[credential\]|credential\.helper)/i] *)
Definition DANGEROUS_GIT_KEYS : Regex.regex :=
  Regex.alts (map Regex.lit_i ["hooksPath"; "sshCommand"; "[alias]"; "[credential]"; "credential.helper"]).
Definition GitConfigRule : Spec :=
  mkSpec (p_header "AG-P003" 3 Severity.CRITICAL "Global git configuration gained an executable setting"
            "core.hooksPath, credential.helper and shell aliases each run a command during ordinary git use. Remove the entry if you did not add it.")
    ["~/.gitconfig"; "~/.config/git/config"]
    (λ c, if negb (contains c (Regex.test DANGEROUS_GIT_KEYS)) then None
          else Some (display c +:+ " now contains a setting that executes a command."))
    DANGEROUS_GIT_KEYS.

Definition AutostartUnitRule : Spec :=
  mkSpec (p_header "AG-P004" 4 Severity.CRITICAL "A login-time service appeared or changed"
            "A launch agent or user unit starts on every login and restarts itself. Remove it unless you installed it deliberately.")
    ["~/Library/LaunchAgents/**"; "~/.config/systemd/user/**"] describe_default ANYTHING.

Definition CrontabRule : Spec :=
  mkSpec (p_header "AG-P005" 5 Severity.CRITICAL "Scheduled tasks changed"
            "A cron entry runs on a schedule regardless of what you are doing. Review it.")
    ["/private/var/at/tabs/**"; "/var/spool/cron/**"] describe_default ANYTHING.

(** [/(ProxyCommand|LocalCommand|PermitLocalCommand)/] *)
Definition SSH_EXECUTION : Regex.regex :=
  Regex.alts (map Regex.lit ["ProxyCommand"; "LocalCommand"; "PermitLocalCommand"]).
Definition SshPersistenceRule : Spec :=
  mkSpec (p_header "AG-P006" 6 Severity.CRITICAL "SSH access or configuration changed"
            "A key in authorized_keys is permanent remote access; ProxyCommand runs on every connection. Both are worth reading line by line.")
    ["~/.ssh/authorized_keys"; "~/.ssh/config"]
    (λ c, if (AbsolutePath.basename (path c) =? "authorized_keys")%string
          then Some (display c +:+ " changed: someone may now be able to log in to this machine.")
          else if negb (contains c (Regex.test SSH_EXECUTION)) then Some (was_kind c)
          else Some (display c +:+ " now runs a command on every SSH connection."))
    SSH_EXECUTION.

(** [/(registry\s*=|_authToken|_auth\s*=)/] *)
Definition NPM_SENSITIVE : Regex.regex :=
  let spaces := Regex.Star (Regex.Chars is_space) in
  Regex.alts [Regex.seqs [Regex.lit "registry"; spaces; Regex.lit "="]; Regex.lit "_authToken";
              Regex.seqs [Regex.lit "_auth"; spaces; Regex.lit "="]].
Definition NpmrcRule : Spec :=
  mkSpec (p_header "AG-P007" 7 Severity.HIGH "~/.npmrc registry or token changed"
            "A changed registry redirects every install to a server of somebody else’s choosing. A new token is worth explaining.")
    ["~/.npmrc"]
    (λ c, if negb (contains c (Regex.test NPM_SENSITIVE)) then None
          else Some (display c +:+ " changed its registry or an authentication token."))
    NPM_SENSITIVE.

Definition AgentConfigDriftRule : Spec :=
  mkSpec (p_header "AG-P008" 8 Severity.HIGH "Agent configuration changed outside agentkeeper"
            "Hooks and MCP servers in global agent settings apply to every project you open. Confirm you made this change.")
    ["~/.claude/settings*.json"; "~/.claude.json"; "~/.gemini/settings.json"; "~/.cursor/mcp.json"]
    describe_default ANYTHING.

Definition AgentkeeperControlPlaneDriftRule : Spec :=
  mkSpec (p_header "AG-P009" 9 Severity.CRITICAL "Agentkeeper protected configuration changed"
            "Run `agentkeeper repair` and review the pending persistence incident. Do not approve it unless the checksum change matches an installation or configuration action you initiated.")
    ["~/.agentkeeper/config.json"; "~/.agentkeeper/allowlist.json"; "~/.agentkeeper/installation/**";
     "~/.agentkeeper/shell/**"; "~/.agentkeeper/shims/**"] describe_default ANYTHING.

Definition PERSISTENCE_SPECS : list Spec :=
  [ZshEnvRule; ShellStartupRule; GitConfigRule; AutostartUnitRule; CrontabRule; SshPersistenceRule;
   NpmrcRule; AgentConfigDriftRule; AgentkeeperControlPlaneDriftRule].
Definition PERSISTENCE_RULES : list (Rule BaselineChange) := map persistence_rule PERSISTENCE_SPECS.

(** ** Properties *)

(** Every shipped pattern compiles. *)
Lemma compiled_ok s : s ∈ PERSISTENCE_SPECS → ∃ ps, compiled s = Ok ps.
Proof.
  unfold PERSISTENCE_SPECS. rewrite !elem_of_cons.
  intros [->|[->|[->|[->|[->|[->|[->|[->|[->|[]%elem_of_nil]]]]]]]]]; eexists; vm_compute; reflexivity.
Qed.

(** A rule answers every change: no pattern, severity or line search throws. *)
Lemma evaluate_spec_total s c : s ∈ PERSISTENCE_SPECS →
  ∃ fs, evaluate (persistence_rule s) c = Ok fs.
Proof.
  intros Hs. destruct (compiled_ok s Hs) as [ps Hps].
  unfold evaluate, persistence_rule, of_header. cbn [Rule.appliesTo Rule.inspect].
  unfold appliesTo_. rewrite Hps. cbn [rbind]. case_if; [by eexists|].
  unfold inspect_. destruct (describe s c) as [d|]; [|by eexists].
  assert (∃ sev, (if sandboxActive c then Severity.escalated (h_severity (spec_header s))
                  else Ok (h_severity (spec_header s))) = Ok sev) as [sev ->].
  { destruct (sandboxActive c); [|by eexists].
    destruct (Severity.escalated_rank (h_severity (spec_header s))) as (t & -> & _). by eexists. }
  cbn [rbind]. destruct (content c) as [text|]; cbn [rbind]; [|by eexists].
  destruct (SourceLocation.firstMatch_total text (Regex.test (needle s))) as [loc ->]. by eexists.
Qed.

(** Whose findings they are: of the changed file, under its current hash, asking, and one
    rank more severe while isolation was active. *)
Lemma finding_of_change s c f fs : evaluate (persistence_rule s) c = Ok fs → f ∈ fs →
  Finding.subject f = display c ∧ Finding.contentHash f = currentHash c
  ∧ Finding.disposition f = h_disposition (spec_header s) ∧ Finding.ruleId f = h_id (spec_header s)
  ∧ Severity.rank (Finding.severity f)
    = (if sandboxActive c then Nat.min (Severity.rank (h_severity (spec_header s)) + 1) 3
       else Severity.rank (h_severity (spec_header s))).
Proof.
  unfold evaluate, persistence_rule, of_header. cbn [Rule.appliesTo Rule.inspect].
  destruct (appliesTo_ s c) as [[]|]; cbn [rbind negb]; [|by intros [= <-] ?%elem_of_nil|done].
  unfold inspect_. destruct (describe s c) as [d|]; [|by intros [= <-] ?%elem_of_nil].
  intros H Hf. destruct (sandboxActive c).
  - destruct (Severity.escalated_rank (h_severity (spec_header s))) as (t & Et & Hr).
    rewrite Et in H. cbn [rbind] in H. res_inv. apply list_elem_of_singleton in Hf as ->. cbn. by rewrite Hr.
  - cbn [rbind] in H. res_inv. apply list_elem_of_singleton in Hf as ->. done.
Qed.

Definition persistence_registry : RuleRegistry BaselineChange := RuleRegistry.mkRegistry PERSISTENCE_RULES.

Lemma persistence_registry_ok : RuleRegistry.of_ PERSISTENCE_RULES = Ok persistence_registry.
Proof.
  unfold RuleRegistry.of_, persistence_registry.
  assert (RuleRegistry.check_ids ∅ PERSISTENCE_RULES = Ok tt) as -> by (vm_compute; reflexivity). done.
Qed.

(** Scanning for persistence cannot fail and cannot be blind: on any changes and with
    any switches the scan returns a report, each finding names one of the changed files,
    carries that file's current hash, asks, and is at least high; while isolation was
    active every finding is critical. *)
Theorem persistence_scan changes switches :
  ∃ report, ScanEngine.scan persistence_registry changes switches = Ok report
  ∧ ∀ f, f ∈ ScanReport.findings report →
    ∃ c, c ∈ changes ∧ Finding.subject f = display c ∧ Finding.contentHash f = currentHash c
    ∧ Finding.disposition f = Disposition.ASK
    ∧ Severity.isAtLeast (Finding.severity f) Severity.HIGH = true
    ∧ (sandboxActive c = true → Finding.severity f = Severity.CRITICAL).
Proof.
  assert (∀ r, r ∈ RuleRegistry.enabled persistence_registry switches →
    ∃ s, s ∈ PERSISTENCE_SPECS ∧ r = persistence_rule s) as Hrules.
  { intros r [Hr _]%RuleRegistry.elem_of_enabled.
    apply list_elem_of_fmap in Hr as (s & -> & Hs). by exists s. }
  destruct (ScanEngine.scan_total persistence_registry changes switches) as [report Hr].
  { intros c r _ (s & Hs & ->)%Hrules. by apply evaluate_spec_total. }
  exists report. split; [done|]. intros f Hf.
  apply (ScanEngine.elem_of_scan _ _ _ _ _ Hr) in Hf as (c & r & fs & Hc & (s & Hs & ->)%Hrules & He & Hf).
  destruct (finding_of_change s c f fs He Hf) as (H1 & H2 & H3 & _ & H5).
  exists c. do 3 (split; [done|]).
  assert (h_disposition (spec_header s) = Disposition.ASK
          ∧ 2 ≤ Severity.rank (h_severity (spec_header s))) as [Hd Hh].
  { unfold PERSISTENCE_SPECS in Hs. rewrite !elem_of_cons in Hs.
    destruct Hs as [->|[->|[->|[->|[->|[->|[->|[->|[->|[]%elem_of_nil]]]]]]]]]; cbn; split; lia || done. }
  split; [congruence|]. split.
  - apply Severity.isAtLeast_spec. cbn. rewrite H5. case_if; lia.
  - intros Ha. rewrite Ha in H5. destruct (Finding.severity f); simpl in H5; lia || done.
Qed.
End PersistenceRules.
