(* ===== verification/Baseline.v ===== *)
(** * The snapshot outside the repositories (src/presentation/daemon/BaselineCollector.ts)

    Which files stand for the persistence surfaces of a machine: the anchors of the rows
    of the registry with the tests that decide what below them belongs to the baseline, the
    snapshot itself, and the events of the watcher that may be ignored. *)

From S2P Require Import Prelude JsString JsMap NodePath Paths Patterns Values Resources SensitivePaths Registry.
From S2P Require Import Sha256 Tiers Entities Ports NodeFileSystem MonitorPersistence.
Import MonitorPersistence.

Module BaselineCollector.

Definition PERSISTENCE_COMPANION_IDS : list string := ["npmrc"].
Definition SELF_MUTATING_STATE_FILES : list string :=
  ["audit"; "audit.log"; "baseline.json"; "persistence-pending.json"; "pause.json"].
Definition STATE_FILES : list string :=
  ["config.json"; "allowlist.json"; "installation/manifest.json"; "installation/backups"; "shell"; "shims"].

Record TargetScope := mkScope { anchor : AbsolutePath; covers : AbsolutePath → bool; recursive : bool }.
Abbreviation Scopes := (list (string * TargetScope)).

(** ** The scopes *)

Section scopes.
Context (ctx : PathContext).

Fixpoint add_state (found : Scopes) (files : list string) : result Scopes :=
  match files with
  | [] => Ok found
  | relative :: rest =>
      let! target := AbsolutePath.joinp (home ctx) [".agentkeeper"; relative] in
      add_state (JsMap.set found (AbsolutePath.value target) (mkScope target (λ _, true) true)) rest
  end.
Definition covered (existing : option TargetScope) (p : AbsolutePath) : bool :=
  match existing with Some s => covers s p | None => false end.
Definition watched (e : SensitivePath) : bool :=
  bool_decide (SensitivePath.category e = SensitivePath.persistence_category) || str_includes PERSISTENCE_COMPANION_IDS (SensitivePath.id e).
Definition is_state (e : SensitivePath) : bool := (SensitivePath.id e =? "agentkeeper-state")%string.
Definition add_row (found : Scopes) (e : SensitivePath) : result Scopes :=
  if negb (watched e) then Ok found
  else
    let! prefix := SensitivePath.literalPrefix e (home ctx) in
    match prefix with
    | None => Ok found
    | Some a =>
        if is_state e then add_state found STATE_FILES
        else
          let existing := JsMap.get found (AbsolutePath.value a) in
          Ok (JsMap.set found (AbsolutePath.value a)
                (mkScope a (λ p, covered existing p || SensitivePath.matches e p ctx)
                   (match existing with Some s => recursive s | None => false end || SensitivePath.descendsBelowPrefix e)))
    end.
Fixpoint add_rows (found : Scopes) (es : list SensitivePath) : result Scopes :=
  match es with [] => Ok found | e :: rest => let! found' := add_row found e in add_rows found' rest end.
End scopes.

(** The cache by context of the class holds what this computes. *)
Definition computeTargetScopes (registry : SensitivePathRegistry) (ctx : PathContext) : result (list TargetScope) :=
  rmap JsMap.values (add_rows ctx [] (SensitivePathRegistry.forPlatform registry (platform ctx))).

Definition targets (registry : SensitivePathRegistry) (ctx : PathContext) : result (list AbsolutePath) :=
  rmap (map anchor) (computeTargetScopes registry ctx).

Record WatchTarget := mkWatchTarget { watch_path : AbsolutePath; watch_recursive : bool }.
Definition watchTargets (registry : SensitivePathRegistry) (ctx : PathContext) : result (list WatchTarget) :=
  let! stateDir := AbsolutePath.joinp (home ctx) [".agentkeeper"] in
  let! scopes := computeTargetScopes registry ctx in
  Ok (map (λ s, mkWatchTarget (anchor s) (recursive s)) (bfilter (λ s, negb (AbsolutePath.contains stateDir (anchor s))) scopes)
      ++ [mkWatchTarget stateDir true]).

(** ** Events of the watcher *)

(** [/\.[0-9a-f]{12}\.tmp$/i] *)
Definition staging (basename : string) : bool :=
  let suffix := toLowerCase (sdrop (slen basename - 17) basename) in
  (slen suffix =? 17) && startsWith suffix "." && sforall is_hex_lower (stake 12 (sdrop 1 suffix)) && (sdrop 13 suffix =? ".tmp")%string.
Definition self_mutating (topLevel : string) : bool :=
  some (λ m, (topLevel =? m)%string || (startsWith topLevel (m +:+ ".") && endsWith topLevel ".tmp")) SELF_MUTATING_STATE_FILES.
Definition isRelevantWatchEvent (path : option AbsolutePath) (ctx : PathContext) : result bool :=
  match path with
  | None => Ok true
  | Some p =>
      let! stateDir := AbsolutePath.joinp (home ctx) [".agentkeeper"] in
      if negb (AbsolutePath.contains stateDir p) || AbsolutePath.equals p stateDir then Ok true
      else if staging (AbsolutePath.basename p) then Ok false
      else
        let relative := sdrop (slen (AbsolutePath.value stateDir) + 1) (AbsolutePath.value p) in
        Ok (negb (self_mutating (match split slash relative with top :: _ => top | [] => "" end)))
  end.

(** ** The snapshot *)

(** [code === 'EACCES' || code === 'EPERM'] *)
Definition isPermissionDenied (e : exn) : bool :=
  match e with FileSystemAccessError _ _ (Some c) => (c =? "EACCES")%string || (c =? "EPERM")%string | _ => false end.
Definition list_options (s : TargetScope) : ListOptions := mkListOptions (Some 2000) (Some 8) None (Some (covers s)) None true true.

Section collect.
Context `{Digest} {W : Type} (files : FileSystem W) (clock : Clock W) (registry : SensitivePathRegistry).

Definition inspect (s : TargetScope) : M W (TargetScope * option FileStat) :=
  let* info := stat_ files (anchor s) in mok (s, info).
Definition expand (si : TargetScope * option FileStat) : M W (list AbsolutePath) :=
  match si.2 with
  | None => mok []
  | Some info =>
      if negb (stat_isDirectory info) then mok [anchor si.1]
      else λ w, match list_ files (anchor si.1) (list_options si.1) w with
                | (w', Err e) => (w', if isPermissionDenied e then Ok [] else Err e)
                | r => r
                end
  end.
Definition entryFor (p : AbsolutePath) : M W (option BaselineEntry) :=
  let* content := read_ files p in
  match content with
  | None => mok None
  | Some text => let* t := now clock in mok (Some (mkBaselineEntry p (ContentHash.fromContent text) t))
  end.
Definition collect (ctx : PathContext) : M W (list BaselineEntry) :=
  let* scopes := mlift (computeTargetScopes registry ctx) in
  let* inspected := mmapM inspect scopes in
  let* expanded := mmapM expand inspected in
  let* entries := mmapM entryFor (concat expanded) in
  mok (omap (λ e, e) entries).
End collect.

(** ** What the scopes answer for *)

Section scoped.
Context (ctx : PathContext).

Definition state_target (k : string) : Prop :=
  ∃ f t, f ∈ STATE_FILES ∧ AbsolutePath.joinp (home ctx) [".agentkeeper"; f] = Ok t ∧ k = AbsolutePath.value t.
Definition claims (es : list SensitivePath) (p : AbsolutePath) : Prop :=
  ∃ e, e ∈ es ∧ watched e = true ∧ is_state e = false ∧ SensitivePath.matches e p ctx = true.
Definition wider (s t : TargetScope) : Prop := (∀ p, covers s p = true → covers t p = true) ∧ (recursive s = true → recursive t = true).
Definition holds_row (e : SensitivePath) (s : TargetScope) : Prop :=
  (∀ p, SensitivePath.matches e p ctx = true → covers s p = true) ∧ (SensitivePath.descendsBelowPrefix e = true → recursive s = true).

(** The scopes found so far: one for each anchor, holding every row that was passed, and
    nothing but these rows and the files of the product. *)
Record scoped (es : list SensitivePath) (found : Scopes) : Prop := {
  sc_nodup : NoDup found.*1;
  sc_keyed : ∀ k s, JsMap.get found k = Some s → AbsolutePath.value (anchor s) = k;
  sc_rows : ∀ e a, e ∈ es → watched e = true → is_state e = false → SensitivePath.literalPrefix e (home ctx) = Ok (Some a) →
    ∃ s, JsMap.get found (AbsolutePath.value a) = Some s ∧ holds_row e s;
  sc_sound : ∀ k s p, JsMap.get found k = Some s → covers s p = true → claims es p ∨ state_target k
}.

Lemma claims_more es ks p : claims es p → claims (es ++ ks) p.
Proof. intros (e & He & H). exists e. split; [apply elem_of_app; by left|done]. Qed.
Lemma holds_wider e s t : holds_row e s → wider s t → holds_row e t.
Proof. intros [H1 H2] [H3 H4]. split; auto. Qed.

Lemma scoped_set es ks found s : scoped es found →
  (∀ s0, JsMap.get found (AbsolutePath.value (anchor s)) = Some s0 → wider s0 s) →
  (∀ p, covers s p = true → claims (es ++ ks) p ∨ state_target (AbsolutePath.value (anchor s))) →
  (∀ e a, e ∈ ks → watched e = true → is_state e = false → SensitivePath.literalPrefix e (home ctx) = Ok (Some a) →
     AbsolutePath.value a = AbsolutePath.value (anchor s) ∧ holds_row e s) →
  scoped (es ++ ks) (JsMap.set found (AbsolutePath.value (anchor s)) s).
Proof.
  intros [Hn Hk Hr Hs] Hw Hc Hks. split.
  - by apply JsMap.set_nodup.
  - intros k t. rewrite JsMap.get_set. case_if; [|apply Hk]. apply String.eqb_eq in Heqb as <-. by intros [= <-].
  - intros e a [He|He]%elem_of_app H1 H2 H3.
    + destruct (Hr e a He H1 H2 H3) as (s0 & Hg & Hh). rewrite JsMap.get_set. case_if; [|by exists s0].
      apply String.eqb_eq in Heqb. rewrite <-Heqb in Hg. exists s. split; [done|]. eapply holds_wider; [exact Hh|by apply Hw].
    + destruct (Hks e a He H1 H2 H3) as [-> Hh]. exists s. by rewrite JsMap.get_set, String.eqb_refl.
  - intros k t p. rewrite JsMap.get_set. case_if.
    + apply String.eqb_eq in Heqb as <-. intros [= <-]. apply Hc.
    + intros Hg Hp. destruct (Hs k t p Hg Hp); [left; by apply claims_more|by right].
Qed.
Lemma scoped_state es files found found' : (∀ f, f ∈ files → f ∈ STATE_FILES) → scoped es found → add_state ctx found files = Ok found' →
  scoped es found'.
Proof.
  revert found. induction files as [|f files IH]; intros found Hf Hs; cbn [add_state]; [by intros <-%Ok_inj|].
  destruct (AbsolutePath.joinp _ _) as [t|] eqn:Et; [|done]. cbn [rbind]. apply IH; [intros g Hg; apply Hf; by right|].
  rewrite <-(app_nil_r es). apply (scoped_set es [] found (mkScope t (λ _, true) true)); [done|done| |by intros e a ?%elem_of_nil].
  intros p _. right. exists f, t. split_and!; [apply Hf; by left|done|done].
Qed.
Lemma scoped_row es e found found' : scoped es found → add_row ctx found e = Ok found' → scoped (es ++ [e]) found'.
Proof.
  intros Hs. unfold add_row.
  assert ((watched e = true → is_state e = false → ∀ a, SensitivePath.literalPrefix e (home ctx) = Ok (Some a) → False) →
    scoped (es ++ [e]) found) as Hskip.
  { intros Hno. destruct Hs as [Hn Hk Hr Hso]. split; [done|done| |].
    - intros e' a [He|He]%elem_of_app; [by apply Hr|]. apply list_elem_of_singleton in He as ->. intros H1 H2 H3. by destruct (Hno H1 H2 a H3).
    - intros k s p Hg Hp. destruct (Hso k s p Hg Hp); [left; by apply claims_more|by right]. }
  destruct (watched e) eqn:Ew; cbn [negb]; [|intros <-%Ok_inj; by apply Hskip].
  destruct (SensitivePath.literalPrefix e (home ctx)) as [[a|]|] eqn:Ea; [|intros <-%Ok_inj; by apply Hskip|done]. cbn [rbind].
  destruct (is_state e) eqn:Es.
  - intros Hst. eapply (scoped_state (es ++ [e]) STATE_FILES); [done| |exact Hst]. apply Hskip. by intros _ [=].
  - intros <-%Ok_inj. apply (scoped_set es [e] found (mkScope a _ _)); [done| | |]; cbn [anchor covers recursive].
    + intros s0 ->. split; cbn [covers recursive covered]; [by intros p ->|by intros ->].
    + intros p [Hp|Hp]%orb_true_iff.
      * unfold covered in Hp. destruct (JsMap.get found _) as [s0|] eqn:Eg; [|done].
        destruct (sc_sound _ _ Hs _ _ _ Eg Hp); [left; by apply claims_more|by right].
      * left. exists e. split_and!; [apply elem_of_app; right; by left|done..].
    + intros e' a' ->%list_elem_of_singleton _ _ Ha'. rewrite Ea in Ha'. injection Ha' as <-. split; [done|].
      split; cbn [covers recursive]; [intros p ->; apply orb_true_r|intros ->; apply orb_true_r].
Qed.
Lemma scoped_rows es ks found found' : scoped es found → add_rows ctx found ks = Ok found' → scoped (es ++ ks) found'.
Proof.
  revert es found. induction ks as [|e ks IH]; intros es found Hs; cbn [add_rows]; [intros <-%Ok_inj; by rewrite app_nil_r|].
  destruct (add_row ctx found e) as [found1|] eqn:E; [|done]. cbn [rbind]. intros H.
  change (e :: ks) with ([e] ++ ks). rewrite app_assoc. eapply IH; [by eapply scoped_row|done].
Qed.
(** The files of the product are held whole, whatever rows come before and after. *)
Definition product_held (files : list string) (found : Scopes) : Prop := ∀ f, f ∈ files →
  ∃ t s, AbsolutePath.joinp (home ctx) [".agentkeeper"; f] = Ok t ∧ JsMap.get found (AbsolutePath.value t) = Some s
  ∧ recursive s = true ∧ ∀ p, covers s p = true.
Lemma product_set files found k s : product_held files found →
  (∀ s0, JsMap.get found k = Some s0 → wider s0 s) → product_held files (JsMap.set found k s).
Proof.
  intros Hf Hw f Hin. destruct (Hf f Hin) as (t & s0 & Ht & Hg & Hr & Hc). exists t. rewrite JsMap.get_set. case_if; [|by exists s0].
  apply String.eqb_eq in Heqb as ->. destruct (Hw s0 Hg) as [Hw1 Hw2]. exists s. split_and!; [done|done|by apply Hw2|]. intros p. by apply Hw1.
Qed.
Lemma product_state files more found found' : product_held files found → add_state ctx found more = Ok found' → product_held (files ++ more) found'.
Proof.
  revert files found. induction more as [|f more IH]; intros files found Hf; cbn [add_state]; [intros <-%Ok_inj; by rewrite app_nil_r|].
  destruct (AbsolutePath.joinp _ _) as [t|] eqn:Et; [|done]. cbn [rbind]. intros H.
  change (f :: more) with ([f] ++ more). rewrite app_assoc. eapply IH; [|exact H]. intros g [Hg| ->%list_elem_of_singleton]%elem_of_app.
  - by apply (product_set files found); [..|done].
  - eexists t, _. rewrite JsMap.get_set, String.eqb_refl. by split_and!.
Qed.
Lemma product_row files found found' e : product_held files found → add_row ctx found e = Ok found' → product_held files found'.
Proof.
  intros Hf. unfold add_row. destruct (negb _); [by intros <-%Ok_inj|]. destruct (SensitivePath.literalPrefix e (home ctx)) as [[a|]|]; [|by intros <-%Ok_inj|done].
  cbn [rbind]. destruct (is_state e).
  - intros Hst f Hin. apply (product_state _ _ _ _ Hf Hst f). apply elem_of_app. by left.
  - intros <-%Ok_inj. apply product_set; [done|]. intros s0 ->. split; cbn [covers recursive covered]; [by intros p ->|by intros ->].
Qed.
Lemma product_rows files found found' es : product_held files found → add_rows ctx found es = Ok found' → product_held files found'.
Proof.
  revert found. induction es as [|e es IH]; intros found Hf; cbn [add_rows]; [by intros <-%Ok_inj|].
  destruct (add_row ctx found e) as [found1|] eqn:E; [|done]. cbn [rbind]. apply IH. by eapply product_row.
Qed.
Lemma product_found found found' es e a : e ∈ es → watched e = true → is_state e = true → SensitivePath.literalPrefix e (home ctx) = Ok (Some a) →
  add_rows ctx found es = Ok found' → product_held STATE_FILES found'.
Proof.
  intros He Hw Hs Ha. revert found. induction es as [|e' es IH]; intros found; [by apply elem_of_nil in He|]. cbn [add_rows].
  destruct (add_row ctx found e') as [found1|] eqn:E; [|done]. cbn [rbind]. apply elem_of_cons in He as [<-|He]; [|by apply IH].
  apply product_rows. unfold add_row in E. rewrite Hw, Ha, Hs in E. cbn [negb rbind] in E.
  by apply (product_state [] STATE_FILES found) in E; [|intros f ?%elem_of_nil].
Qed.
Lemma scoped_start : scoped [] [].
Proof. split; [constructor|done|by intros e a ?%elem_of_nil|done]. Qed.
End scoped.

(** ** The snapshot is exact *)

(** Looking at the files changes nothing that is seen, and neither does the clock; a listing
    is the walk of NodeFileSystem over the tree that is there. *)
Class LookingLaws {W : Type} (files : FileSystem W) (clock : Clock W) := {
  Seen : Type;
  see : W → Seen;
  stat_seen : Seen → AbsolutePath → result (option FileStat);
  tree_seen : Seen → AbsolutePath → list NodeFileSystem.Entry + NodeFileSystem.ReadError;
  read_seen : Seen → AbsolutePath → result (option string);
  stat_law : ∀ p w, see (stat_ files p w).1 = see w ∧ (stat_ files p w).2 = stat_seen (see w) p;
  list_law : ∀ p o w, see (list_ files p o w).1 = see w ∧ (list_ files p o w).2 = NodeFileSystem.list_files p o (tree_seen (see w) p);
  read_law : ∀ p w, see (read_ files p w).1 = see w ∧ (read_ files p w).2 = read_seen (see w) p;
  now_law : ∀ w, see (now clock w).1 = see w
}.

Section exact.
Context `{Digest} {W : Type} (files : FileSystem W) (clock : Clock W) `{!LookingLaws files clock}.
Context (registry : SensitivePathRegistry) (ctx : PathContext) (v : Seen).
Abbreviation seen := (λ w, see w = v).

Definition listing (s : TargetScope) : result (list AbsolutePath) :=
  NodeFileSystem.list_files (anchor s) (list_options s) (tree_seen v (anchor s)).
(** The files of a scope: its anchor, or the files of the anchor's tree that the scope
    covers, below directories whose names are not ignored, when the listing returns. *)
Definition held (s : TargetScope) (p : AbsolutePath) : Prop :=
  ∃ info, stat_seen v (anchor s) = Ok (Some info)
  ∧ if stat_isDirectory info
    then (∃ l, listing s = Ok l) ∧ NodeFileSystem.visible_in (list_options s) (anchor s) (tree_seen v (anchor s)) p
    else p = anchor s.
(** A scope that was looked through; only a refusal of the system leaves it out. *)
Definition looked_at (s : TargetScope) (ps : list AbsolutePath) : Prop :=
  match stat_seen v (anchor s) with
  | Ok None => ps = []
  | Ok (Some info) =>
      if stat_isDirectory info
      then match listing s with Ok l => ps = l | Err e => isPermissionDenied e = true ∧ ps = [] end
      else ps = [anchor s]
  | Err _ => False
  end.
Lemma listing_visible s l p : listing s = Ok l →
  p ∈ l ↔ NodeFileSystem.visible_in (list_options s) (anchor s) (tree_seen v (anchor s)) p.
Proof. intros Hl. by apply (NodeFileSystem.listing_exact (anchor s) (list_options s) _ l eq_refl Hl). Qed.
Lemma looked_held s ps p : looked_at s ps → p ∈ ps ↔ held s p.
Proof.
  unfold looked_at, held. destruct (stat_seen v (anchor s)) as [[info|]|]; [| |done].
  - destruct (stat_isDirectory info) eqn:Ed.
    + destruct (listing s) as [l|e] eqn:El; [intros ->; rewrite (listing_visible s l p El)|intros [_ ->]].
      * split; [intros Hp; exists info; rewrite Ed; split; [done|split; [by exists l|done]]|]. intros (? & [= <-] & Hd). rewrite Ed in Hd. by destruct Hd.
      * split; [by intros ?%elem_of_nil|]. intros (? & [= <-] & Hd). rewrite Ed in Hd. by destruct Hd as ((? & ?) & _).
    + intros ->. rewrite list_elem_of_singleton. split; [intros ->; exists info; by rewrite Ed|]. intros (? & [= <-] & Hd). by rewrite Ed in Hd.
  - intros ->. split; [by intros ?%elem_of_nil|]. by intros (? & ? & _).
Qed.

Lemma collect_inspect_yields s : yields seen (inspect files s) (λ si, si.1 = s ∧ stat_seen v (anchor s) = Ok si.2).
Proof.
  unfold inspect. eapply (yields_seq _ _ _ (λ info, stat_seen v (anchor s) = Ok info)).
  - intros w Hw. destruct (stat_law (anchor s) w) as [H1 H2]. rewrite Hw in H1, H2. split; [done|]. intros info <-. by rewrite H2.
  - intros info Hi. by apply yields_ok.
Qed.
Lemma expand_yields si : stat_seen v (anchor si.1) = Ok si.2 → yields seen (expand files si) (looked_at si.1).
Proof.
  destruct si as [s [info|]]; unfold expand, looked_at; cbn [fst snd]; intros ->; [|by apply yields_ok].
  destruct (stat_isDirectory info) eqn:Ed; cbn [negb]; [|by apply yields_ok].
  intros w Hw. destruct (list_law (anchor s) (list_options s) w) as [H1 H2]. rewrite Hw in H1, H2. fold (listing s) in H2.
  destruct (list_ files _ _ w) as [w1 [l|e]]; cbn [fst snd] in *; rewrite <-H2; (split; [done|]).
  - by intros ps [= <-].
  - destruct (isPermissionDenied e); [|done]. by intros ps [= <-].
Qed.
Lemma entryFor_yields p : yields seen (entryFor files clock p) (λ r,
  match read_seen v p with
  | Ok (Some text) => ∃ t, r = Some (mkBaselineEntry p (ContentHash.fromContent text) t)
  | Ok None => r = None
  | Err _ => False
  end).
Proof.
  unfold entryFor. eapply (yields_seq _ _ _ (λ c, read_seen v p = Ok c)).
  - intros w Hw. destruct (read_law p w) as [H1 H2]. rewrite Hw in H1, H2. split; [done|]. intros c <-. by rewrite H2.
  - intros [text|] Hr; rewrite Hr; [|by apply yields_ok]. eapply (yields_seq _ _ _ (λ _, True)).
    + intros w Hw. split; [by rewrite now_law|done].
    + intros t _. apply yields_ok. by exists t.
Qed.
(** The entry of a path, as the snapshot holds it. *)
Definition snapshot_of (scopes : list TargetScope) (entries : list BaselineEntry) : Prop :=
  ∀ p h, (∃ t, mkBaselineEntry p h t ∈ entries)
    ↔ ∃ s text, s ∈ scopes ∧ held s p ∧ read_seen v p = Ok (Some text) ∧ h = ContentHash.fromContent text.
Lemma entries_exact scopes pss rs : Forall2 looked_at scopes pss →
  Forall2 (λ p r, match read_seen v p with
                  | Ok (Some text) => ∃ t, r = Some (mkBaselineEntry p (ContentHash.fromContent text) t)
                  | Ok None => r = None
                  | Err _ => False
                  end) (concat pss) rs → snapshot_of scopes (omap (λ e : option BaselineEntry, e) rs).
Proof.
  intros Hps Hrs p h. assert (∀ q, q ∈ concat pss ↔ ∃ s, s ∈ scopes ∧ held s q) as Hheld.
  { clear Hrs. intros q. induction Hps as [|s ps scopes pss Hs Hps IH]; cbn [concat].
    - split; [by intros ?%elem_of_nil|by intros (s & ?%elem_of_nil & _)].
    - rewrite elem_of_app, IH, (looked_held s ps q Hs). setoid_rewrite elem_of_cons. naive_solver. }
  transitivity (∃ text, p ∈ concat pss ∧ read_seen v p = Ok (Some text) ∧ h = ContentHash.fromContent text).
  - clear Hheld Hps. induction Hrs as [|q r ps rs Hr Hrs IH]; [split; [by intros (t & ?%elem_of_nil)|by intros (text & ?%elem_of_nil & _)]|].
    setoid_rewrite elem_of_cons. cbn [omap list_omap]. destruct (read_seen v q) as [[text|]|] eqn:Eq; [| |done].
    + destruct Hr as [t ->]. setoid_rewrite elem_of_cons. split.
      * intros (t' & [Ht|Ht]); [injection Ht as -> -> ->; by exists text; split_and!; [left|..]|].
        destruct (proj1 IH (ex_intro _ t' Ht)) as (text' & H1 & H2 & H3). exists text'. split_and!; [by right|done..].
      * intros (text' & [->|Hin] & Hrd & ->).
        { rewrite Eq in Hrd. injection Hrd as <-. exists t. by left. }
        destruct (proj2 IH (ex_intro _ text' (conj Hin (conj Hrd eq_refl)))) as [t' Ht']. exists t'. by right.
    + subst r. rewrite IH. split; [intros (text & H1 & H2); exists text; split; [by right|done]|].
      intros (text & [->|Hin] & Hrd & Hh); [by rewrite Eq in Hrd|by exists text].
  - setoid_rewrite Hheld. naive_solver.
Qed.
Lemma collect_yields : yields seen (collect files clock registry ctx) (λ entries, ∃ scopes,
  computeTargetScopes registry ctx = Ok scopes ∧ (∀ s, s ∈ scopes → ∃ ps, looked_at s ps) ∧ snapshot_of scopes entries).
Proof.
  unfold collect. eapply (yields_seq _ _ _ (λ scopes, computeTargetScopes registry ctx = Ok scopes)); [by apply yields_lift|].
  intros scopes Hsc. eapply yields_seq; [apply yields_mmapM; intros s _; apply collect_inspect_yields|]. intros inspected Hin.
  eapply yields_seq.
  { apply yields_mmapM. intros si Hsi. apply list_elem_of_lookup in Hsi as [i Hi].
    destruct (Forall2_lookup_r _ _ _ _ _ Hin Hi) as (s & _ & [<- Hst]). by apply expand_yields. }
  intros pss Hpss. eapply yields_seq; [apply yields_mmapM; intros p _; apply entryFor_yields|]. intros rs Hrs. apply yields_ok.
  assert (Forall2 looked_at scopes pss) as Hl.
  { clear -Hin Hpss. revert pss Hpss. induction Hin as [|s si scopes inspected [Hs _] Hin IH]; intros pss Hpss; inversion Hpss; subst; [done|].
    constructor; [done|by apply IH]. }
  exists scopes. split_and!; [done| |by eapply entries_exact].
  intros s Hs. apply list_elem_of_lookup in Hs as [i Hi]. destruct (Forall2_lookup_l _ _ _ _ _ Hl Hi) as (ps & _ & H1). by exists ps.
Qed.
End exact.

(** The configuration and the checksum-managed code of the product below ~/.agentkeeper,
    written out: what an activation keeps there and nothing changes between activations. *)
Definition PRODUCT_FILES : list string := ["config.json"; "allowlist.json"; "installation/manifest.json"; "installation/backups"; "shell"; "shims"].

(** C22. The snapshot holds what the listing of the watched anchors shows, and nothing else.
    When [collect] returns, every row of the registry that is watched on the platform and
    has an anchor is held by the scope at its anchor, also when rows share the anchor, and
    the watcher descends there when the row needs it; when the row of the product's own state
    is watched, its configuration, manifest, backups, shell functions and shims each have a
    scope that covers all below it, for the watcher too; a scope covers only what such a row
    matches, or is one of these. Every scope was listed, or the system refused this process
    the tree; and the entries are exactly the readable files of the scopes with the hashes of
    their content: the anchor, or the ordinary files of its tree the scope covers. The walk
    of NodeFileSystem leaves out symbolic links and what lies below a directory named build,
    dist, vendor and the like, so these are in no snapshot although a row claims them: the
    comment that every file under the product's anchors belongs to the baseline holds but
    for them. *)
Theorem baseline_exact `{Digest} {W} (files : FileSystem W) (clock : Clock W) `{!LookingLaws files clock} registry ctx w w' entries :
  collect files clock registry ctx w = (w', Ok entries) →
  see w' = see w ∧ ∃ scopes, computeTargetScopes registry ctx = Ok scopes
  ∧ (∀ e a, e ∈ SensitivePathRegistry.forPlatform registry (platform ctx) → watched e = true → is_state e = false →
       SensitivePath.literalPrefix e (home ctx) = Ok (Some a) →
       ∃ s, s ∈ scopes ∧ AbsolutePath.value (anchor s) = AbsolutePath.value a ∧ holds_row ctx e s)
  ∧ (∀ e a f, e ∈ SensitivePathRegistry.forPlatform registry (platform ctx) → watched e = true → is_state e = true →
       SensitivePath.literalPrefix e (home ctx) = Ok (Some a) → f ∈ PRODUCT_FILES →
       ∃ t s, AbsolutePath.joinp (home ctx) [".agentkeeper"; f] = Ok t ∧ s ∈ scopes ∧ AbsolutePath.value (anchor s) = AbsolutePath.value t
         ∧ recursive s = true ∧ ∀ p, covers s p = true)
  ∧ (∀ s p, s ∈ scopes → covers s p = true →
       claims ctx (SensitivePathRegistry.forPlatform registry (platform ctx)) p ∨ state_target ctx (AbsolutePath.value (anchor s)))
  ∧ (∀ s, s ∈ scopes → ∃ ps, looked_at files clock (see w) s ps)
  ∧ snapshot_of files clock (see w) scopes entries.
Proof.
  intros Hc. destruct (collect_yields files clock registry ctx (see w) w eq_refl) as [Hw Hq]. rewrite Hc in Hw, Hq. split; [done|].
  destruct (Hq entries eq_refl) as (scopes & Hs & Hl & Hsnap). exists scopes. split; [done|].
  unfold computeTargetScopes in Hs. destruct (add_rows _ _ _) as [found|] eqn:Ef; [|done]. apply Ok_inj in Hs as <-.
  destruct (scoped_rows ctx [] _ [] found (scoped_start ctx) Ef) as [Hn Hk Hr Hso]. cbn [app] in *. split_and!; [| | |done|done].
  - intros e a He H1 H2 H3. destruct (Hr e a He H1 H2 H3) as (s & Hg & Hh). exists s. split_and!; [|by apply Hk|done].
    apply JsMap.elem_of_values. exists (AbsolutePath.value a). by apply JsMap.get_elem.
  - intros e a f He H1 H2 H3 Hf. destruct (product_found ctx [] found _ e a He H1 H2 H3 Ef f) as (t & s & Ht & Hg & Hrec & Hc').
    { clear -Hf. unfold PRODUCT_FILES, STATE_FILES in *. set_solver. }
    exists t, s. split_and!; [done| |by apply Hk|done|done]. apply JsMap.elem_of_values. exists (AbsolutePath.value t). by apply JsMap.get_elem.
  - intros s p (k & Hin)%JsMap.elem_of_values Hp. apply JsMap.get_elem in Hin; [|done]. rewrite (Hk _ _ Hin). by eapply Hso.
Qed.
End BaselineCollector.

(** ** A running example *)

Module SampleBaseline.
Import BaselineCollector NodeFileSystem.
Definition at_ (segs : list string) : AbsolutePath := AbsolutePath.posix_path ("home" :: "u" :: segs).
Definition context : PathContext := mkContext (at_ []) (at_ ["work"]) Platform.Linux.
(** A shell profile, and the tree of git's configuration: a hook that is there, and one in
    a directory of a name that the walk leaves out. *)
Definition tree : list (string * (list Entry + ReadError)) :=
  [("/home/u/.config/git", inl [file_entry "config"; dir_entry "hooks" (inl [file_entry "pre-push"]); dir_entry "build" (inl [file_entry "pre-push"])])].
Definition contents : list (string * string) :=
  [("/home/u/.bashrc", "alias g=git"); ("/home/u/.config/git/config", "[core]"); ("/home/u/.config/git/hooks/pre-push", "#!/bin/sh");
   ("/home/u/.config/git/build/pre-push", "#!/bin/sh")].
Definition stat (p : AbsolutePath) : option FileStat :=
  match JsMap.get tree (AbsolutePath.value p), JsMap.get contents (AbsolutePath.value p) with
  | Some _, _ => Some (mkStat true 0)
  | None, Some t => Some (mkStat false (Z.of_nat (slen t)))
  | None, None => None
  end.
Definition tree_at (p : AbsolutePath) : list Entry + ReadError :=
  match JsMap.get tree (AbsolutePath.value p) with Some l => l | None => inr (mkReadError true None) end.
Definition files : FileSystem unit :=
  mkFileSystem unit (λ p, mok (JsMap.get contents (AbsolutePath.value p))) (λ _ _ _, mok tt) (λ _, mok tt) (λ p, mok (stat p))
    (λ p o, mlift (list_files p o (tree_at p))).
Definition clock : Clock unit := mkClock unit (mok 1000%Z).
#[global] Instance laws : LookingLaws files clock.
Proof.
  by refine {| Seen := unit; see := λ w, w; stat_seen := λ _ p, Ok (stat p); tree_seen := λ _ p, tree_at p;
               read_seen := λ _ p, Ok (JsMap.get contents (AbsolutePath.value p)) |}; intros; destruct w.
Defined.
Definition taken : list BaselineEntry :=
  match (collect files clock Registry.default_registry context tt).2 with Ok es => es | Err _ => [] end.

(** What is in the directory named build is in no snapshot, although the row of git's
    configuration claims it. *)
Example left_out : map entry_key taken = ["/home/u/.bashrc"; "/home/u/.config/git/config"; "/home/u/.config/git/hooks/pre-push"].
Proof. vm_compute. reflexivity. Qed.
Example watch_events :
  map (λ p, isRelevantWatchEvent (Some (at_ (".agentkeeper" :: p))) context)
    [["config.json"]; ["audit"; "seg.jsonl"]; ["pause.json"]; ["pause.json.1.tmp"]; ["shims"; "claude"]; ["allowlist.json.0123456789AB.tmp"]; []]
  = map Ok [true; false; false; false; true; false; true].
Proof. vm_compute. reflexivity. Qed.
End SampleBaseline.

Lemma baseline_exact_witness : ∃ (scopes : list BaselineCollector.TargetScope) s text, s ∈ scopes
  ∧ BaselineCollector.held SampleBaseline.files SampleBaseline.clock tt s (SampleBaseline.at_ [".bashrc"])
  ∧ ContentHash.fromContent "alias g=git" = ContentHash.fromContent text.
Proof.
  destruct (BaselineCollector.baseline_exact SampleBaseline.files SampleBaseline.clock Registry.default_registry SampleBaseline.context tt tt
    SampleBaseline.taken) as (_ & scopes & _ & _ & _ & _ & _ & Hsnap).
  - assert (∀ x : unit * result (list BaselineEntry), match x.2 with Ok _ => true | Err _ => false end = true →
      x = (tt, Ok match x.2 with Ok es => es | Err _ => [] end)) as Hx by (by intros [[] [|]]).
    apply Hx. vm_compute. reflexivity.
  - destruct (proj1 (Hsnap (SampleBaseline.at_ [".bashrc"]) (ContentHash.fromContent "alias g=git"))) as (s & text & Hin & Hh & _ & Ht).
    + exists 1000%Z. vm_compute. by left.
    + exact (ex_intro _ scopes (ex_intro _ s (ex_intro _ text (conj Hin (conj Hh Ht))))).
Defined.
