(* ===== verification/Installation.v ===== *)
(** * Transactional installation (src/application/use-cases/ExecuteInstallationPlan.ts)

    The executor that applies a plan of byte-exact changes or restores every path it has
    touched, over any file system that keeps [FileLaws], and the contract it offers to the
    executor that coordinates it with services and git. *)

From S2P Require Import Prelude JsString NodePath Paths Values SensitivePaths Entities Ports.

(** ** Plans (src/application/ports/InstallationLifecycle.ts) *)

Inductive InstallationOperation := activate | deactivate | repair.
#[global] Instance InstallationOperation_eq_dec : EqDecision InstallationOperation.
Proof. solve_decision. Defined.
Inductive InstallationConflictCode :=
| backup_drift | configuration_mismatch | concurrent_change | external_state_drift | invalid_manifest
| invalid_managed_state | invalid_shared_config | managed_file_drift | managed_marker_collision
| owned_path_exists | service_id_collision | shared_file_drift.
Record InstallationConflict := mkConflict {
  conflict_code : InstallationConflictCode;
  conflict_path : AbsolutePath;
  conflict_message : string
}.
Record InstallationChange := mkInstallationChange {
  change_path : AbsolutePath;
  before : option string;
  after : option string;
  summary : string;
  mode : option Z
}.
Record InstallationPlan := mkPlan {
  operation : InstallationOperation;
  changes : list InstallationChange;
  conflicts : list InstallationConflict
}.
Record InstallationExecutionResult := mkExecution { applied : nat; dryRun : bool }.
Definition change_key (c : InstallationChange) : string := AbsolutePath.value (change_path c).

(** [InstallationExecutor.execute] *)
Definition InstallationExecutor (W : Type) : Type := InstallationPlan → M W InstallationExecutionResult.

Definition operation_name (o : InstallationOperation) : string :=
  match o with activate => "activate" | deactivate => "deactivate" | repair => "repair" end.
Definition conflict_list (cs : list InstallationConflict) : string :=
  join "; " (map (λ c, AbsolutePath.value (conflict_path c) +:+ ": " +:+ conflict_message c) cs).

(** ** The executor *)

Module TransactionalInstallationExecutor.
Section executor.
Context {W : Type} (files : FileSystem W).

Definition verify (c : InstallationChange) : M W unit :=
  let* found := read_ files (change_path c) in
  if bool_decide (found = before c) then mok tt
  else mlift (Err (InstallationConcurrentChangeError
                     ("Refusing stale installation plan; " +:+ change_key c +:+ " changed after planning"))).

Definition apply_ (c : InstallationChange) : M W unit :=
  match after c with
  | None => remove_ files (change_path c)
  | Some text => write_ files (change_path c) text (mode c)
  end.

Definition restore (c : InstallationChange) : M W unit :=
  match before c with
  | None => remove_ files (change_path c)
  | Some text => write_ files (change_path c) text None
  end.

(** The variables of [execute] that its handler reads. *)
Record Progress := mkProgress { attempted : list InstallationChange; appliedCount : nat }.

Definition commit_one (_ : unit) (c : InstallationChange) : M (Progress * W) unit :=
  let* _ := in_world (verify c) in
  let* _ := in_local (λ p, (mkProgress (attempted p ++ [c]) (appliedCount p), tt)) in
  let* _ := in_world (apply_ c) in
  in_local (λ p, (mkProgress (attempted p) (S (appliedCount p)), tt)).

(** Every restoration is tried; the errors are collected. *)
Definition restore_one (errors : list exn) (c : InstallationChange) : M W (list exn) := λ w,
  match restore c w with
  | (w', Ok _) => (w', Ok errors)
  | (w', Err e) => (w', Ok (errors ++ [e]))
  end.
Definition rollback (attempted : list InstallationChange) : M W (list exn) :=
  mfold restore_one [] (rev attempted).

Definition rollback_message : string :=
  "Installation transaction failed and could not be rolled back completely".

Definition execute (plan : InstallationPlan) : M W InstallationExecutionResult :=
  if 0 <? length (conflicts plan) then
    mlift (Err (InstallationPlanConflictError
      ("Installation " +:+ operation_name (operation plan) +:+ " has "
       +:+ string_of_nat (length (conflicts plan)) +:+ " conflict(s): " +:+ conflict_list (conflicts plan))))
  else
    let* _ := mfold (λ _ c, verify c) tt (changes plan) in
    λ w, match mfold commit_one tt (changes plan) (mkProgress [] 0, w) with
         | ((p, w'), Ok _) => (w', Ok (mkExecution (appliedCount p) false))
         | ((p, w'), Err e) =>
             (let* errors := rollback (attempted p) in
              mlift (Err (if 0 <? length errors then AggregateError (e :: errors) rollback_message else e))) w'
         end.
End executor.
End TransactionalInstallationExecutor.

(** [DryRunInstallationExecutor]: the plans it was given, and no effect on the world. *)
Module DryRunInstallationExecutor.
Definition execute (plan : InstallationPlan) : M (list InstallationPlan) InstallationExecutionResult :=
  λ plans, (plans ++ [plan], Ok (mkExecution 0 true)).
End DryRunInstallationExecutor.

(** ** What a plan does to the files *)

Section effect.
Implicit Types (cs : list InstallationChange) (m : Contents).

(** The files after the changes, and after undoing them in reverse. *)
Definition effect cs m : Contents := fold_left (λ m c, put m (change_key c) (after c)) cs m.
Definition undo cs m : Contents := fold_left (λ m c, put m (change_key c) (before c)) (rev cs) m.

(** Each change finds the text it was planned on. *)
Fixpoint fits cs m : Prop :=
  match cs with
  | [] => True
  | c :: r => m !! change_key c = before c ∧ fits r (put m (change_key c) (after c))
  end.

Lemma undo_snoc cs c m : undo (cs ++ [c]) m = undo cs (put m (change_key c) (before c)).
Proof. unfold undo. by rewrite rev_app_distr. Qed.
Lemma undo_cons c cs m : undo (c :: cs) m = put (undo cs m) (change_key c) (before c).
Proof. unfold undo. cbn [rev]. by rewrite fold_left_app. Qed.

Lemma undo_effect cs m : fits cs m → undo cs (effect cs m) = m.
Proof.
  revert m. induction cs as [|c cs IH]; intros m; [done|]. intros [Hc Hf].
  rewrite undo_cons. unfold effect. cbn [fold_left]. fold (effect cs (put m (change_key c) (after c))).
  rewrite IH by done. apply (put_touched m); [|done]. intros q Hq. by apply lookup_put_ne.
Qed.

Lemma undo_elsewhere cs m q : q ∉ map change_key cs → undo cs m !! q = m !! q.
Proof.
  induction cs as [|c cs IH]; [done|]. intros Hq. rewrite undo_cons, lookup_put_ne; set_solver.
Qed.
End effect.

(** ** The contract of an executor

    A plan is carried out completely, or the files end as they were, or the error says
    that they could not be restored; and only its own paths are touched. *)

Definition is_aggregate (e : exn) : Prop := ∃ errors message, e = AggregateError errors message.

Class ExecutorLaws {W : Type} (exec : InstallationExecutor W) := {
  exec_contents : W → Contents;
  exec_ok : ∀ plan w out, (exec plan w).2 = Ok out →
    conflicts plan = [] ∧ fits (changes plan) (exec_contents w)
    ∧ exec_contents (exec plan w).1 = effect (changes plan) (exec_contents w)
    ∧ applied out = length (changes plan);
  exec_err : ∀ plan w e, (exec plan w).2 = Err e →
    exec_contents (exec plan w).1 = exec_contents w ∨ is_aggregate e;
  exec_elsewhere : ∀ plan w k, k ∉ map change_key (changes plan) →
    exec_contents (exec plan w).1 !! k = exec_contents w !! k
}.

(** ** The executor keeps the contract *)

Section laws.
Import TransactionalInstallationExecutor.
Context {W : Type} (files : FileSystem W) `{!FileLaws files}.

Lemma file_verify_spec c w :
  contents (verify files c w).1 = contents w
  ∧ ((verify files c w).2 = Ok tt → contents w !! change_key c = before c).
Proof.
  unfold verify, mseq. destruct (read_law (change_path c) w) as [Hc Hr].
  destruct (read_ files (change_path c) w) as [w' [t|e]]; cbn [fst snd] in *; [|done].
  case_bool_decide as Hb; cbn; [|done]. split; [done|]. intros _. by rewrite <-Hb, (Hr t).
Qed.

Lemma file_apply_spec c w :
  touched (change_key c) (contents w) (contents (apply_ files c w).1)
  ∧ ((apply_ files c w).2 = Ok tt → contents (apply_ files c w).1 = put (contents w) (change_key c) (after c)).
Proof. unfold apply_. destruct (after c); [apply write_law|apply remove_law]. Qed.

Lemma file_restore_spec c w :
  touched (change_key c) (contents w) (contents (restore files c w).1)
  ∧ ((restore files c w).2 = Ok tt → contents (restore files c w).1 = put (contents w) (change_key c) (before c)).
Proof. unfold restore. destruct (before c); [apply write_law|apply remove_law]. Qed.

(** The files can be rewound to [m0] by undoing what was attempted. *)
Definition rewinds (m0 : Contents) (keys : list string) (s : Progress * W) : Prop :=
  undo (attempted s.1) (contents s.2) = m0 ∧ (∀ c, c ∈ attempted s.1 → change_key c ∈ keys)
  ∧ ∀ k, k ∉ keys → contents s.2 !! k = m0 !! k.

Lemma commit_one_spec m0 keys u c s :
  change_key c ∈ keys → rewinds m0 keys s →
  let r := commit_one files u c s in
  rewinds m0 keys r.1
  ∧ (r.2 = Ok tt → contents s.2 !! change_key c = before c
       ∧ contents r.1.2 = put (contents s.2) (change_key c) (after c)
       ∧ appliedCount r.1.1 = S (appliedCount s.1)).
Proof.
  destruct s as [p w]. intros Hk (Hu & Ha & He). unfold commit_one, mseq, in_world, in_local. cbn [fst snd] in *.
  destruct (file_verify_spec c w) as [Hv Hb]. destruct (verify files c w) as [w1 [[]|e]]; cbn [fst snd] in *.
  2:{ split; [|done]. split_and!; cbn [fst snd]; by rewrite ?Hv. }
  destruct (file_apply_spec c w1) as [Ht Hp]. rewrite Hv in Ht, Hp. specialize (Hb eq_refl).
  assert (∀ n, rewinds m0 keys (mkProgress (attempted p ++ [c]) n, (apply_ files c w1).1)) as Hrew.
  { intros n. split_and!; cbn [fst snd attempted].
    - by rewrite undo_snoc, (put_touched _ _ _ _ Ht Hb).
    - intros c' [Hc'| ->%list_elem_of_singleton]%elem_of_app; [by apply Ha|done].
    - intros k Hk'. rewrite Ht by congruence. by apply He. }
  destruct (apply_ files c w1) as [w2 [[]|e]]; cbn [fst snd] in *; [|by split].
  split; [apply Hrew|]. by rewrite Hp.
Qed.

Lemma commit_spec m0 keys cs s :
  (∀ c, c ∈ cs → change_key c ∈ keys) → rewinds m0 keys s →
  let r := mfold (commit_one files) tt cs s in
  rewinds m0 keys r.1
  ∧ (r.2 = Ok tt → fits cs (contents s.2) ∧ contents r.1.2 = effect cs (contents s.2)
       ∧ appliedCount r.1.1 = appliedCount s.1 + length cs).
Proof.
  revert s. induction cs as [|c cs IH]; intros s Hk Hs; cbn [mfold].
  { split; [done|]. intros _. cbn. split_and!; [done..|lia]. }
  destruct (commit_one_spec m0 keys tt c s) as [H1 H2]; [apply Hk; by left|done|].
  unfold mseq. destruct (commit_one files tt c s) as [s1 [[]|e]]; cbn [fst snd] in *; [|done].
  destruct (H2 eq_refl) as (Hb & Hc & Hn). destruct (IH s1) as [H3 H4]; [set_solver|done|].
  split; [done|]. intros Hr. destruct (H4 Hr) as (Hf & He & Hm). cbn [fits length].
  rewrite <-Hc. split_and!; [done|done| |lia]. rewrite He, Hc. done.
Qed.

Lemma file_restore_one_spec errors c w :
  ∃ w' errors', restore_one files errors c w = (w', Ok errors')
  ∧ touched (change_key c) (contents w) (contents w')
  ∧ (errors' = [] → errors = [] ∧ contents w' = put (contents w) (change_key c) (before c)).
Proof.
  unfold restore_one. destruct (file_restore_spec c w) as [Ht Hr].
  destruct (restore files c w) as [w' [[]|e]]; cbn [fst snd] in *; eexists _, _; split_and!; try done.
  - intros ->. auto.
  - by intros [? ?]%app_nil.
Qed.

Lemma file_rollback_fold cs errors w :
  ∃ w' errors', mfold (restore_one files) errors cs w = (w', Ok errors')
  ∧ (∀ k, k ∉ map change_key cs → contents w' !! k = contents w !! k)
  ∧ (errors' = [] → errors = []
       ∧ contents w' = fold_left (λ m c, put m (change_key c) (before c)) cs (contents w)).
Proof.
  revert errors w. induction cs as [|c cs IH]; intros errors w; [by exists w, errors|].
  destruct (file_restore_one_spec errors c w) as (w1 & e1 & H1 & Ht & Hn). cbn [mfold]. unfold mseq. rewrite H1.
  destruct (IH e1 w1) as (w2 & e2 & H2 & Hk & Hm). exists w2, e2. split_and!; [done| |].
  - intros k Hnk. cbn in Hnk. rewrite Hk by set_solver. apply Ht. set_solver.
  - intros He. destruct (Hm He) as [H3 H4]. destruct (Hn H3) as [H5 H6]. cbn [fold_left]. by rewrite H4, H6.
Qed.

Lemma file_verify_all cs w :
  contents (mfold (λ _ c, verify files c) tt cs w).1 = contents w.
Proof.
  revert w. induction cs as [|c cs IH]; intros w; [done|]. cbn [mfold]. unfold mseq.
  destruct (file_verify_spec c w) as [Hv _]. destruct (verify files c w) as [w' [[]|e]]; cbn [fst] in *; [|done].
  by rewrite IH.
Qed.

(** Complete, restored, or reported; and nothing outside the plan is touched. *)
Lemma execute_transaction plan w :
  let r := execute files plan w in
  (∀ k, k ∉ map change_key (changes plan) → contents r.1 !! k = contents w !! k)
  ∧ match r.2 with
    | Ok out => conflicts plan = [] ∧ fits (changes plan) (contents w)
        ∧ contents r.1 = effect (changes plan) (contents w)
        ∧ applied out = length (changes plan) ∧ dryRun out = false
    | Err e => contents r.1 = contents w ∨ is_aggregate e
    end.
Proof.
  destruct (execute files plan w) as [w' r] eqn:E. cbn [fst snd]. revert E. unfold execute.
  destruct (Nat.ltb_spec 0 (length (conflicts plan))) as [|Hcf]; [intros [= <- <-]; by auto|].
  assert (conflicts plan = []) as Hnil by (destruct (conflicts plan); [done|cbn in Hcf; lia]). rewrite Hnil.
  pose proof (file_verify_all (changes plan) w) as Hv. unfold mseq at 1.
  destruct (mfold _ tt (changes plan) w) as [w1 [[]|e]]; cbn [fst snd] in Hv;
    [|intros [= <- <-]; rewrite Hv; by auto].
  destruct (commit_spec (contents w1) (map change_key (changes plan)) (changes plan) (mkProgress [] 0, w1))
    as [(Hu & Ha & He) Hok].
  { intros c Hc. apply list_elem_of_fmap. by exists c. }
  { split_and!; [done|set_solver|done]. }
  cbn [fst snd attempted appliedCount] in Hok. rewrite Hv in *.
  destruct (mfold _ _ _ _) as [[p w2] [[]|e]]; cbn [fst snd attempted appliedCount] in *.
  { intros [= <- <-]. split; [done|]. destruct (Hok eq_refl) as (? & ? & ?). by split_and!. }
  unfold rollback, mseq, mlift.
  destruct (file_rollback_fold (rev (attempted p)) [] w2) as (w3 & errors & -> & Hk & Hm). intros [= <- <-]. split.
  - intros k Hnk. rewrite Hk; [by apply He|]. intros (c & -> & Hc)%list_elem_of_fmap.
    apply Hnk, Ha. by rewrite list_elem_of_In, in_rev, <-list_elem_of_In.
  - destruct errors as [|e1 errors]; cbn; [|right; by eexists _, _].
    left. destruct (Hm eq_refl) as [_ ->]. exact Hu.
Qed.

#[global] Instance execute_laws : ExecutorLaws (execute files).
Proof.
  exists contents.
  - intros plan w out Hr. destruct (execute_transaction plan w) as [_ H]. rewrite Hr in H. tauto.
  - intros plan w e Hr. destruct (execute_transaction plan w) as [_ H]. by rewrite Hr in H.
  - intros plan w k Hk. by apply (execute_transaction plan w).
Defined.

(** What no file operation changes, a transaction does not change. *)
Lemma execute_keeps (I : W → Prop) plan :
  (∀ p, yields I (read_ files p) (λ _, True)) → (∀ p t mode, yields I (write_ files p t mode) (λ _, True)) →
  (∀ p, yields I (remove_ files p) (λ _, True)) → yields I (execute files plan) (λ _, True).
Proof.
  intros Hr Hw Hd.
  assert (∀ c, yields I (verify files c) (λ _, True)) as Hv.
  { intros c. apply yields_seq with (P := λ _, True); [apply Hr|]. intros t _.
    case_bool_decide; [by apply yields_ok|by apply yields_lift]. }
  assert (∀ c, yields I (apply_ files c) (λ _, True)) as Ha by (intros c; unfold apply_; destruct (after c); auto).
  assert (∀ c, yields I (restore files c) (λ _, True)) as Hb by (intros c; unfold restore; destruct (before c); auto).
  unfold execute. case_match; [by apply yields_lift|].
  apply yields_seq with (P := λ _, True).
  { apply (yields_fold I _ _ (λ _ _, True)); [|done]. intros ? c ? _ _. apply Hv. }
  intros _ _ w Iw.
  assert (yields (λ s : Progress * W, I s.2) (mfold (commit_one files) tt (changes plan)) (λ _, True)) as Hc.
  { apply (yields_fold _ _ _ (λ _ _, True)); [|done]. intros ? c ? _ _. unfold commit_one.
    repeat (eapply yields_seq; [first [apply yields_world; auto|apply yields_local]|intros ? _]).
    apply yields_local. }
  destruct (Hc (mkProgress [] 0, w) Iw) as [Iw' _].
  destruct (mfold _ _ _ _) as [[p w'] [[]|e]]; cbn [snd fst] in *; [done|].
  enough (yields I (let* errors := rollback files (attempted p) in
    mlift (A := InstallationExecutionResult)
      (Err (if 0 <? length errors then AggregateError (e :: errors) rollback_message else e))) (λ _, True)) as Hy
    by (by apply Hy).
  apply yields_seq with (P := λ _, True); [|intros; by apply yields_lift].
  apply (yields_fold I _ _ (λ _ _, True)); [|done]. intros ? c errors _ _ w1 Iw1. unfold restore_one.
  destruct (Hb c w1 Iw1) as [H1 _]. by destruct (restore files c w1) as [w2 [[]|]].
Qed.

(** On a file system that never fails, a fresh plan is carried out. *)
Definition reliable : Prop :=
  (∀ p w, ∃ t, (read_ files p w).2 = Ok t) ∧ (∀ p t mode w, (write_ files p t mode w).2 = Ok tt)
  ∧ ∀ p w, (remove_ files p w).2 = Ok tt.

Lemma verify_runs c w : reliable → contents w !! change_key c = before c → (verify files c w).2 = Ok tt.
Proof.
  intros [Hr _] Hb. unfold verify, mseq. destruct (read_law (change_path c) w) as [_ Hl].
  destruct (Hr (change_path c) w) as [t Ht]. specialize (Hl t Ht).
  destruct (read_ files (change_path c) w) as [w' r]. cbn in *. subst r.
  rewrite bool_decide_true; [done|]. by rewrite Hl.
Qed.

Lemma apply_runs c w : reliable → (apply_ files c w).2 = Ok tt.
Proof. intros (_ & Hw & Hr). unfold apply_. destruct (after c); [apply Hw|apply Hr]. Qed.

Lemma verify_all_runs cs w : reliable → (∀ c, c ∈ cs → contents w !! change_key c = before c) →
  (mfold (λ _ c, verify files c) tt cs w).2 = Ok tt.
Proof.
  intros Hr. revert w. induction cs as [|c cs IH]; intros w Hc; [done|]. cbn [mfold]. unfold mseq.
  pose proof (verify_runs c w Hr) as Hv. destruct (file_verify_spec c w) as [Hk _].
  destruct (verify files c w) as [w' r]. cbn [fst snd] in *. rewrite Hv by (apply Hc; by left).
  apply IH. intros c' Hc'. rewrite Hk. apply Hc. by right.
Qed.

Lemma commit_runs cs s : reliable → NoDup (map change_key cs) →
  (∀ c, c ∈ cs → contents s.2 !! change_key c = before c) →
  (mfold (commit_one files) tt cs s).2 = Ok tt.
Proof.
  intros Hr. revert s. induction cs as [|c cs IH]; intros [p w] Hnd Hc; [done|].
  cbn [map fst snd] in *. apply NoDup_cons in Hnd as [Hk Hnd].
  cbn [mfold]. unfold commit_one at 1. unfold mseq, in_world, in_local. cbn [fst snd].
  pose proof (verify_runs c w Hr (Hc c ltac:(by left))) as Hv. destruct (file_verify_spec c w) as [Hvk _].
  destruct (verify files c w) as [w1 r]. cbn [fst snd] in *. subst r.
  pose proof (apply_runs c w1 Hr) as Ha. destruct (file_apply_spec c w1) as [Ht _].
  destruct (apply_ files c w1) as [w2 r]. cbn [fst snd] in *. subst r. apply IH; [done|].
  intros c' Hc'. cbn [snd]. rewrite Ht, Hvk; [apply Hc; by right|].
  intros He. apply Hk. rewrite <-He. apply list_elem_of_fmap. by exists c'.
Qed.

Lemma execute_runs plan w : reliable → conflicts plan = [] → NoDup (map change_key (changes plan)) →
  (∀ c, c ∈ changes plan → contents w !! change_key c = before c) →
  ∃ out, (execute files plan w).2 = Ok out.
Proof.
  intros Hr Hcf Hnd Hc. unfold execute. rewrite Hcf. cbn [length Nat.ltb Nat.leb]. unfold mseq.
  pose proof (verify_all_runs (changes plan) w Hr Hc) as Hv. pose proof (file_verify_all (changes plan) w) as Hk.
  destruct (mfold _ tt (changes plan) w) as [w1 r]. cbn [fst snd] in *. subst r.
  assert ((mfold (commit_one files) tt (changes plan) (mkProgress [] 0, w1)).2 = Ok tt) as Hm.
  { apply commit_runs; [done..|]. intros c. cbn [snd]. rewrite Hk. apply Hc. }
  destruct (mfold _ _ _ _) as [[p w2] r]. cbn [snd] in Hm. subst r. by eexists.
Qed.

(** C9. A plan is carried out completely or not at all. A returned result means there was
    no conflict, every change found the text it was planned on and all of them are in
    place; an error means the files are exactly as they were, unless it is the aggregate
    that says the restoration failed too; a path outside the plan is never touched. This
    holds whatever operation fails and in whatever state a failed one leaves its own
    path. On files that do not fail, a fresh plan with distinct paths is carried out. *)
Theorem transaction_all_or_nothing plan w :
  let r := execute files plan w in
  (∀ k, k ∉ map change_key (changes plan) → contents r.1 !! k = contents w !! k)
  ∧ match r.2 with
    | Ok out => conflicts plan = [] ∧ fits (changes plan) (contents w)
        ∧ contents r.1 = effect (changes plan) (contents w)
        ∧ applied out = length (changes plan) ∧ dryRun out = false
    | Err e => contents r.1 = contents w ∨ is_aggregate e
    end
  ∧ (reliable → conflicts plan = [] → NoDup (map change_key (changes plan)) →
     (∀ c, c ∈ changes plan → contents w !! change_key c = before c) → ∃ out, r.2 = Ok out).
Proof.
  cbv zeta. destruct (execute_transaction plan w) as [H1 H2]. split; [exact H1|]. split; [exact H2|].
  intros. by apply execute_runs.
Qed.

End laws.

(** A disk that fills up: after its quota of operations every write and removal fails and
    leaves garbage behind, until the fault is gone. *)
Module FailingFiles.
Record World := mkWorld { disk : Contents; good : nat; faults : nat }.
(** One operation on path [k] that would leave [o]. *)
Definition operate (k : string) (o : option string) : M World unit := λ w,
  match good w, faults w with
  | S n, _ => (mkWorld (put (disk w) k o) n (faults w), Ok tt)
  | O, S f => (mkWorld (put (disk w) k (Some "garbage")) 0 f, throw "ENOSPC")
  | O, O => (mkWorld (put (disk w) k o) 0 0, Ok tt)
  end.
Definition files : FileSystem World :=
  mkFileSystem World (λ p w, (w, Ok (disk w !! AbsolutePath.value p)))
    (λ p t _, operate (AbsolutePath.value p) (Some t)) (λ p, operate (AbsolutePath.value p) None)
    (λ p w, (w, Ok (stat_of (disk w !! AbsolutePath.value p)))) no_listing.

Lemma operate_spec k o w :
  touched k (disk w) (disk (operate k o w).1)
  ∧ ((operate k o w).2 = Ok tt → disk (operate k o w).1 = put (disk w) k o).
Proof.
  unfold operate, touched. destruct (good w), (faults w); cbn [fst snd disk]; split; try done;
    intros q Hq; by apply lookup_put_ne.
Qed.
#[global] Instance laws : FileLaws files.
Proof.
  exists disk.
  - intros p w. split; [done|]. by intros t [= <-].
  - intros p t md w. apply operate_spec.
  - intros p w. apply operate_spec.
Defined.

Definition file (name : string) : AbsolutePath := AbsolutePath.posix_path ["home"; "u"; name].
Definition plan : InstallationPlan :=
  mkPlan activate
    [mkInstallationChange (file ".zshrc") (Some "old") (Some "new") "hook" None;
     mkInstallationChange (file ".shim") None (Some "shim") "shim" (Some 448%Z)] [].
Definition start : Contents := {["/home/u/.zshrc" := "old"]}.

Example failing_outcomes :
  disk (TransactionalInstallationExecutor.execute files plan (mkWorld start 2 0)).1
    = effect (changes plan) start
  ∧ TransactionalInstallationExecutor.execute files plan (mkWorld start 1 1)
    = (mkWorld start 0 0, throw "ENOSPC")
  ∧ (∃ errors message, (TransactionalInstallationExecutor.execute files plan (mkWorld start 1 2)).2
      = Err (AggregateError errors message)).
Proof.
  split; [vm_compute; reflexivity|]. split; [vm_compute; reflexivity|].
  eexists _, _. vm_compute. reflexivity.
Qed.
End FailingFiles.

Lemma transaction_all_or_nothing_witness :
  contents (TransactionalInstallationExecutor.execute MemoryFiles.files FailingFiles.plan FailingFiles.start).1
  !! "/home/u/.bashrc" = None
  ∧ ∃ out, (TransactionalInstallationExecutor.execute MemoryFiles.files FailingFiles.plan FailingFiles.start).2 = Ok out.
Proof.
  destruct (transaction_all_or_nothing MemoryFiles.files FailingFiles.plan FailingFiles.start) as (H1 & _ & H2).
  split.
  - rewrite H1; [reflexivity|]. apply (bool_decide_unpack _). vm_compute. exact I.
  - apply H2.
    + split; [by intros; eexists|]. done.
    + reflexivity.
    + apply (bool_decide_unpack _). vm_compute. exact I.
    + intros c [-> |[-> |[]%elem_of_nil]%elem_of_cons]%elem_of_cons; reflexivity.
Defined.
