(* ===== verification/ApplyChanges.v ===== *)
(** * Applying and reverting planned changes (src/application/use-cases/ApplyChanges.ts)

    The use case behind the integrations: it keeps a backup of everything it replaces, and
    reverts from the backups. *)

From S2P Require Import Prelude JsString NodePath Paths Values SensitivePaths Entities Ports Installation.

Module ApplyChanges.

(** A [PlannedChange] has the fields of an installation change without a mode. *)
Record PlannedChange := mkPlanned {
  planned_path : AbsolutePath;
  planned_before : option string;
  planned_after : option string;
  planned_summary : string
}.
Record AppliedChange := mkApplied { applied_path : AbsolutePath; applied_backup : option AbsolutePath }.

(** Octal 700 for hook scripts, octal 600 otherwise. *)
Definition modeFor (p : AbsolutePath) : Z :=
  if includes (AbsolutePath.value p) "/git-hooks/" then 448 else 384.

Section apply.
Context `{JsDate} {W : Type} (files : FileSystem W) (backupDir : AbsolutePath)
  (audit : AuditLog W) (clock : Clock W).

Definition backup_name (t : Z) (p : AbsolutePath) : string :=
  replace_char "."%char "-"%char (replace_char colon "-"%char (toISOString t))
  +:+ "--" +:+ replace_char slash "_"%char (AbsolutePath.value p).

Definition backup (c : PlannedChange) (text : string) : M W AbsolutePath :=
  let* t := now clock in
  let* target := mlift (AbsolutePath.joinp backupDir [backup_name t (planned_path c)]) in
  let* _ := write_ files target text None in
  mok target.

Definition write_change (c : PlannedChange) : M W unit :=
  match planned_after c with
  | None => remove_ files (planned_path c)
  | Some text => write_ files (planned_path c) text (Some (modeFor (planned_path c)))
  end.

Definition apply_one (applied : list AppliedChange) (c : PlannedChange) : M W (list AppliedChange) :=
  if bool_decide (planned_before c = planned_after c) then mok applied
  else
    let* saved := match planned_before c with
                  | None => mok None
                  | Some text => let* b := backup c text in mok (Some b)
                  end in
    let* _ := write_change c in
    let* t := now clock in
    let* _ := append_ audit
      (mkEntry t "install.change"
         [("path", DText (AbsolutePath.value (planned_path c))); ("summary", DText (planned_summary c));
          ("backup", match saved with Some b => DText (AbsolutePath.value b) | None => DNull end);
          ("removed", DBool (match planned_after c with None => true | Some _ => false end))]) in
    mok (applied ++ [mkApplied (planned_path c) saved]).

Definition execute (changes : list PlannedChange) : M W (list AppliedChange) := mfold apply_one [] changes.

Definition revert_one (_ : unit) (a : AppliedChange) : M W unit :=
  match applied_backup a with
  | None => remove_ files (applied_path a)
  | Some b =>
      let* original := read_ files b in
      match original with
      | None => mok tt
      | Some text => write_ files (applied_path a) text (Some (modeFor (applied_path a)))
      end
  end.
Definition revert (applied : list AppliedChange) : M W unit := mfold revert_one tt (rev applied).
End apply.

(** ** Reverting is undoing

    The changes that were live, as the installation changes they amount to. *)
Definition as_change (c : PlannedChange) : InstallationChange :=
  mkInstallationChange (planned_path c) (planned_before c) (planned_after c) (planned_summary c) None.
Definition is_live (c : PlannedChange) : bool := negb (bool_decide (planned_before c = planned_after c)).
Definition live (cs : list PlannedChange) : list InstallationChange := map as_change (bfilter is_live cs).
Lemma live_cons c cs : live (c :: cs) = if is_live c then as_change c :: live cs else live cs.
Proof. unfold live. cbn. by destruct (is_live c). Qed.
Definition keys (cs : list PlannedChange) : list string := map (λ c, AbsolutePath.value (planned_path c)) cs.
Definition backups (applied : list AppliedChange) : list string :=
  omap (λ a, AbsolutePath.value <$> applied_backup a) applied.

Lemma backups_cons a l :
  backups (a :: l) = match applied_backup a with Some b => AbsolutePath.value b :: backups l | None => backups l end.
Proof. unfold backups. cbn. by destruct (applied_backup a). Qed.

(** An applied change whose original is in its backup. *)
Definition kept_in (m : Contents) (c : InstallationChange) (a : AppliedChange) : Prop :=
  applied_path a = change_path c
  ∧ match before c, applied_backup a with
    | None, None => True
    | Some text, Some b => m !! AbsolutePath.value b = Some text
    | _, _ => False
    end.

Section undo.
Implicit Types (m : Contents).

Lemma effect_elsewhere cs m q : q ∉ map change_key cs → effect cs m !! q = m !! q.
Proof.
  revert m. induction cs as [|c cs IH]; intros m Hq; [done|]. unfold effect. cbn [fold_left].
  fold (effect cs (put m (change_key c) (after c))). rewrite IH, lookup_put_ne; set_solver.
Qed.

Lemma fits_agree cs m m' : (∀ k, k ∈ map change_key cs → m' !! k = m !! k) → fits cs m → fits cs m'.
Proof.
  revert m m'. induction cs as [|c cs IH]; intros m m' Hk; [done|]. cbn. intros [Hc Hf]. split.
  - rewrite Hk; [done|]. cbn. by left.
  - eapply IH; [|exact Hf]. intros k Hin. rewrite !lookup_put. case_bool_decide; [done|]. apply Hk. cbn. by right.
Qed.

(** Undoing only reads the paths of the changes. *)
Lemma undo_agree cs m m' k : m' !! k = m !! k → undo cs m' !! k = undo cs m !! k.
Proof.
  intros Hk. induction cs as [|c cs IH]; [done|]. rewrite !undo_cons, !lookup_put. by case_bool_decide.
Qed.

Lemma effect_agree cs m m' q : m' !! q = m !! q → effect cs m' !! q = effect cs m !! q.
Proof.
  revert m m'. induction cs as [|c cs IH]; intros m m' Hq; [done|]. unfold effect. cbn [fold_left].
  apply IH. rewrite !lookup_put. by case_bool_decide.
Qed.
End undo.

Section laws.
Context `{JsDate} {W : Type} (files : FileSystem W) `{!FileLaws files} (backupDir : AbsolutePath)
  (audit : AuditLog W) (clock : Clock W).
Context (audit_keeps : ∀ e w, contents (append_ audit e w).1 = contents w)
  (clock_keeps : ∀ w, contents (now clock w).1 = contents w).

(** What one live change leaves behind: its backup and its new text. *)
Definition stepped (c : PlannedChange) (a : AppliedChange) (m m' : Contents) : Prop :=
  applied_path a = planned_path c
  ∧ match planned_before c, applied_backup a with
    | None, None => m' = put m (AbsolutePath.value (planned_path c)) (planned_after c)
    | Some text, Some b =>
        m' = put (put m (AbsolutePath.value b) (Some text)) (AbsolutePath.value (planned_path c)) (planned_after c)
    | _, _ => False
    end.

Lemma write_change_spec c w :
  (write_change files c w).2 = Ok tt →
  contents (write_change files c w).1 = put (contents w) (AbsolutePath.value (planned_path c)) (planned_after c).
Proof. unfold write_change. destruct (planned_after c); [apply write_law|apply remove_law]. Qed.

Lemma backup_spec c text w b :
  (backup files backupDir clock c text w).2 = Ok b →
  contents (backup files backupDir clock c text w).1 = put (contents w) (AbsolutePath.value b) (Some text).
Proof.
  unfold backup, mseq, mlift, mok. pose proof (clock_keeps w) as Hc.
  destruct (now clock w) as [w1 [t|e]]; cbn [fst snd] in *; [|done].
  destruct (AbsolutePath.joinp _ _) as [target|e]; cbn [fst snd]; [|done].
  destruct (write_law target text None w1) as [_ Hw].
  destruct (write_ files target text None w1) as [w2 [[]|e]]; cbn [fst snd] in *; [|done].
  intros [= <-]. by rewrite Hw, Hc.
Qed.

Lemma apply_one_spec applied c w w' applied' :
  apply_one files backupDir audit clock applied c w = (w', Ok applied') →
  if is_live c then ∃ a, applied' = applied ++ [a] ∧ stepped c a (contents w) (contents w')
  else applied' = applied ∧ w' = w.
Proof.
  unfold apply_one, is_live. case_bool_decide; cbn [negb]; [by intros [= <- <-]|].
  assert (∀ saved w1, (let* _ := write_change files c in let* t := now clock in
      let* _ := append_ audit (mkEntry t "install.change"
         [("path", DText (AbsolutePath.value (planned_path c))); ("summary", DText (planned_summary c));
          ("backup", match saved with Some b => DText (AbsolutePath.value b) | None => DNull end);
          ("removed", DBool (match planned_after c with None => true | Some _ => false end))]) in
      mok (applied ++ [mkApplied (planned_path c) saved])) w1 = (w', Ok applied') →
    applied' = applied ++ [mkApplied (planned_path c) saved]
      ∧ contents w' = put (contents w1) (AbsolutePath.value (planned_path c)) (planned_after c)) as Htail.
  { intros saved w1. unfold mseq, mok. pose proof (write_change_spec c w1) as Hw.
    destruct (write_change files c w1) as [w2 [[]|e]]; cbn [fst snd] in *; [|done].
    pose proof (clock_keeps w2) as Hc. destruct (now clock w2) as [w3 [t|e]]; cbn [fst snd] in *; [|done].
    match goal with |- context [append_ audit ?e w3] => pose proof (audit_keeps e w3) as Ha end.
    destruct (append_ audit _ w3) as [w4 [[]|e]]; cbn [fst snd] in *; [|done].
    intros [= <- <-]. split; [done|]. by rewrite Ha, Hc, Hw. }
  unfold mseq at 1. destruct (planned_before c) as [text|] eqn:Hb.
  - unfold mseq at 1. pose proof (backup_spec c text w) as Hs.
    destruct (backup files backupDir clock c text w) as [w1 [b|e]]; cbn [fst snd mok] in *; [|done].
    intros Hr. destruct (Htail (Some b) w1 Hr) as [-> Hm]. eexists. split; [done|].
    split; [done|]. rewrite Hb. cbn [applied_backup]. by rewrite Hm, (Hs b).
  - cbn [mok]. intros Hr. destruct (Htail None w Hr) as [-> Hm]. eexists. split; [done|].
    split; [done|]. rewrite Hb. exact Hm.
Qed.

(** The run of [execute]: the live changes took place, with the originals in the backups. *)
Lemma execute_spec cs acc w w' applied' :
  mfold (apply_one files backupDir audit clock) acc cs w = (w', Ok applied') →
  ∃ new, applied' = acc ++ new ∧
    (NoDup (backups new) → (∀ b, b ∈ backups new → b ∉ keys cs) → fits (map as_change cs) (contents w) →
     Forall2 (kept_in (contents w')) (live cs) new
     ∧ ∀ k, k ∉ backups new →
         undo (live cs) (contents w') !! k = contents w !! k
         ∧ contents w' !! k = effect (map as_change cs) (contents w) !! k).
Proof.
  revert acc w. induction cs as [|c cs IH]; intros acc w.
  { intros [= <- <-]. exists []. split; [by rewrite app_nil_r|]. by intros. }
  cbn [mfold]. unfold mseq. destruct (apply_one files backupDir audit clock acc c w) as [w1 [acc1|e]] eqn:E1; [|done].
  intros Hr. destruct (IH acc1 w1 Hr) as (new & -> & Hnew). apply apply_one_spec in E1.
  rewrite live_cons. destruct (is_live c) eqn:Hl.
  2:{ destruct E1 as [-> ->]. exists new. split; [done|]. intros Hnd Hdj [Hc Hf].
      assert (put (contents w) (change_key (as_change c)) (after (as_change c)) = contents w) as Hput.
      { unfold is_live in Hl. apply negb_false_iff, bool_decide_eq_true in Hl. cbn in *.
        rewrite <-Hl, <-Hc. apply put_same. }
      rewrite Hput in Hf. destruct Hnew as [HF Hk]; [done| |done|].
      { intros b Hb. specialize (Hdj b Hb). cbn in Hdj. set_solver. }
      split; [done|]. intros k Hkb. destruct (Hk k Hkb) as [-> ->]. split; [done|].
      cbn [map]. unfold effect at 2. cbn [fold_left]. by rewrite Hput. }
  destruct E1 as (a & -> & Hpath & Hst). exists (a :: new). split; [by rewrite <-app_assoc|].
  intros Hnd Hdj [Hc Hf].
  change (keys (c :: cs)) with (AbsolutePath.value (planned_path c) :: keys cs) in Hdj.
  set (m1 := put (contents w) (change_key (as_change c)) (after (as_change c))) in *.
  assert (∀ k, k ∉ backups (a :: new) → contents w1 !! k = m1 !! k) as Hoff.
  { intros k Hk. rewrite backups_cons in Hk. destruct (planned_before c), (applied_backup a) as [b|]; try done;
      [|by rewrite Hst]. subst m1. unfold change_key. cbn [change_path after as_change].
    rewrite Hst, !lookup_put. case_bool_decide; [done|].
    rewrite bool_decide_false; [done|]. set_solver. }
  destruct Hnew as [HF Hk].
  { rewrite backups_cons in Hnd. destruct (applied_backup a); [by apply NoDup_cons in Hnd as [_ ?]|done]. }
  { intros b Hb. rewrite backups_cons in Hdj. destruct (applied_backup a); set_solver. }
  { eapply fits_agree; [|exact Hf]. intros k Hin. apply Hoff. intros Hb. specialize (Hdj k Hb).
    rewrite map_map in Hin. fold (keys cs) in Hin. set_solver. }
  split.
  - constructor; [|done]. split; [done|]. cbn [before as_change].
    destruct (planned_before c) as [text|], (applied_backup a) as [b|] eqn:Eb; try done.
    rewrite backups_cons, Eb in Hnd, Hdj. apply NoDup_cons in Hnd as [Hb _].
    specialize (Hdj (AbsolutePath.value b) ltac:(by left)).
    rewrite (proj2 (Hk _ Hb)), effect_elsewhere, Hst, lookup_put_ne, lookup_put_eq; [done|set_solver|].
    rewrite map_map. fold (keys cs). set_solver.
  - intros k Hkb. assert (k ∉ backups new) as Hkn
      by (rewrite backups_cons in Hkb; destruct (applied_backup a); set_solver).
    destruct (Hk k Hkn) as [Hu He]. split.
    + rewrite undo_cons, lookup_put. case_bool_decide as Hkc; [by rewrite Hkc, <-Hc|].
      rewrite Hu, Hoff by done. by apply lookup_put_ne.
    + rewrite He. cbn [map]. unfold effect at 2. cbn [fold_left]. apply effect_agree. by apply Hoff.
Qed.

(** Reverting reads the backups, and so undoes the changes. *)
Lemma revert_one_spec c a w w' :
  kept_in (contents w) c a → revert_one files tt a w = (w', Ok tt) →
  contents w' = put (contents w) (change_key c) (before c).
Proof.
  intros [Hp Hb]. unfold revert_one, change_key. rewrite <-Hp.
  destruct (before c) as [text|], (applied_backup a) as [b|]; try done.
  - unfold mseq. destruct (read_law b w) as [Hc Hr].
    destruct (read_ files b w) as [w1 [t|e]]; cbn [fst snd] in *; [|done]. rewrite (Hr t), Hb by done.
    destruct (write_law (applied_path a) text (Some (modeFor (applied_path a))) w1) as [_ Hw].
    intros E. rewrite E in Hw. cbn in Hw. by rewrite Hw, Hc.
  - destruct (remove_law (applied_path a) w) as [_ Hw]. intros E. rewrite E in Hw. by apply Hw.
Qed.

Lemma revert_fold l applied w w' :
  Forall2 (kept_in (contents w)) l applied → (∀ b, b ∈ backups applied → b ∉ map change_key l) →
  mfold (revert_one files) tt applied w = (w', Ok tt) →
  contents w' = fold_left (λ m c, put m (change_key c) (before c)) l (contents w).
Proof.
  revert applied w. induction l as [|c l IH]; intros applied w HF Hdj;
    inversion HF as [|? a ? applied' Hca HF']; subst.
  { by intros [= <-]. }
  cbn [mfold]. unfold mseq. destruct (revert_one files tt a w) as [w1 [[]|e]] eqn:E; [|done].
  apply (revert_one_spec c) in E; [|done]. intros Hr. cbn [fold_left]. rewrite <-E.
  apply (IH applied' w1); [| |done].
  - apply Forall2_same_length_lookup. apply Forall2_same_length_lookup in HF' as [Hlen HF']. split; [done|].
    intros i c' a' Hc' Ha'. destruct (HF' i c' a' Hc' Ha') as [Hp Hk]. split; [done|].
    destruct (before c'), (applied_backup a') as [b|] eqn:Eb; try done. rewrite E, lookup_put_ne; [done|].
    intros Hbk. apply (Hdj (AbsolutePath.value b)); [|rewrite Hbk; by left].
    apply list_elem_of_lookup_2 in Ha'. unfold backups. apply list_elem_of_omap. exists a'.
    split; [by right|]. by rewrite Eb.
  - intros b Hb. specialize (Hdj b). rewrite backups_cons in Hdj. destruct (applied_backup a); set_solver.
Qed.

Lemma backups_rev applied b : b ∈ backups (rev applied) ↔ b ∈ backups applied.
Proof.
  unfold backups. rewrite !list_elem_of_omap. setoid_rewrite list_elem_of_In. by setoid_rewrite <-in_rev.
Qed.

(** C30. Reverting gives everything back: when the changes were applied to the files they
    were planned on, each file of a change holds what was planned, and reverting the
    applied changes ends with every file as it was before, provided the backups went to
    distinct files that no change is about. Only the backups themselves stay behind. *)
Theorem revert_restores cs w w1 w2 applied :
  fits (map as_change cs) (contents w) →
  execute files backupDir audit clock cs w = (w1, Ok applied) →
  NoDup (backups applied) → (∀ b, b ∈ backups applied → b ∉ keys cs) →
  (∀ k, k ∉ backups applied → contents w1 !! k = effect (map as_change cs) (contents w) !! k)
  ∧ (revert files applied w1 = (w2, Ok tt) →
     ∀ k, k ∉ backups applied → contents w2 !! k = contents w !! k).
Proof.
  intros Hf He Hnd Hdj. destruct (execute_spec cs [] w w1 applied He) as (new & -> & Hnew).
  destruct (Hnew Hnd Hdj Hf) as [HF Hk]. cbn [app] in *. split; [intros k Hkb; by apply Hk|].
  intros Hr k Hkb. destruct (Hk k Hkb) as [<- _]. unfold revert in Hr.
  rewrite (revert_fold (rev (live cs)) (rev new) w1 w2); [done| | |done].
  - rewrite !rev_alt. by apply Forall2_reverse.
  - intros b Hb Hin. rewrite backups_rev in Hb. apply (Hdj b Hb).
    apply list_elem_of_fmap in Hin as (c & -> & Hc). rewrite list_elem_of_In, <-in_rev, <-list_elem_of_In in Hc.
    unfold live in Hc. apply list_elem_of_fmap in Hc as (pc & -> & Hpc). apply elem_of_bfilter in Hpc as [Hpc _].
    apply list_elem_of_fmap. by exists pc.
Qed.
End laws.

(** ** A clock that stands still over files in memory *)

Module StillClock.
Definition audit : AuditLog Contents := mkAuditLog Contents (λ _, mok tt).
Definition clock : Clock Contents := mkClock Contents (mok 3%Z).
Definition backupDir : AbsolutePath := AbsolutePath.posix_path ["home"; "u"; ".agentkeeper"; "backups"].
End StillClock.

Section witness.
Import StillClock StrokeDate.
Definition in_home (segments : list string) : AbsolutePath := AbsolutePath.posix_path ("home" :: "u" :: segments).
Definition demo_changes : list PlannedChange :=
  [mkPlanned (in_home [".zshrc"]) (Some "old") (Some "new") "hook";
   mkPlanned (in_home [".shim"]) None (Some "shim") "shim"].
Definition demo_files : Contents := {["/home/u/.zshrc" := "old"]}.
Definition demo_run : Contents * result (list AppliedChange) :=
  execute MemoryFiles.files backupDir audit clock demo_changes demo_files.
Definition demo_applied : list AppliedChange :=
  [mkApplied (in_home [".zshrc"]) (Some (in_home [".agentkeeper"; "backups"; "+111--_home_u_.zshrc"]));
   mkApplied (in_home [".shim"]) None].

Lemma revert_restores_witness :
  (revert MemoryFiles.files demo_applied demo_run.1).1 !! "/home/u/.zshrc" = Some "old"
  ∧ (revert MemoryFiles.files demo_applied demo_run.1).1 !! "/home/u/.shim" = None.
Proof.
  destruct (revert_restores MemoryFiles.files backupDir audit clock (λ _ _, eq_refl) (λ _, eq_refl)
    demo_changes demo_files demo_run.1 (revert MemoryFiles.files demo_applied demo_run.1).1 demo_applied) as [_ H].
  - vm_compute. repeat split.
  - vm_compute. reflexivity.
  - apply (bool_decide_unpack _). vm_compute. exact I.
  - intros b [-> |[]%elem_of_nil]%elem_of_cons. apply (bool_decide_unpack _). vm_compute. exact I.
  - split; rewrite H; try (apply (bool_decide_unpack _); vm_compute; exact I); vm_compute; reflexivity.
Defined.

(** The proviso is needed: two paths that differ in a slash and an underscore, replaced
    within one millisecond, share a backup, and reverting gives the first the text of the
    second. *)
Definition colliding : list PlannedChange :=
  [mkPlanned (in_home ["a"; "b"]) (Some "first") (Some "x") "s";
   mkPlanned (in_home ["a_b"]) (Some "second") (Some "y") "s"].
Definition colliding_files : Contents := {["/home/u/a/b" := "first"; "/home/u/a_b" := "second"]}.

Theorem backups_collide :
  fits (map as_change colliding) colliding_files
  ∧ match execute MemoryFiles.files backupDir audit clock colliding colliding_files with
    | (w1, Ok applied) =>
        (revert MemoryFiles.files applied w1).2 = Ok tt
        ∧ (revert MemoryFiles.files applied w1).1 !! "/home/u/a/b" = Some "second"
    | (_, Err _) => False
    end.
Proof. split; [vm_compute; done|]. vm_compute. done. Qed.
End witness.
End ApplyChanges.
