(* ===== verification/Integrations.v ===== *)
(** * What `init` sets up (src/infrastructure/install/Integration.ts, integrations.ts)

    The integrations behind ApplyChanges: each plans the files it would change, with both
    sides, and the files its removal would change. The code of the later installer is in
    ManagedArtifacts; these are the classes the port [Integration] is implemented by. *)

From S2P Require Import Prelude JsString JsMap JsNumber Json NodePath Paths Values SensitivePaths Entities Ports Installation ApplyChanges.
Import ApplyChanges JSON.

Record Integration (W : Type) := mkIntegration {
  integration_id : string;
  description : string;
  plan : M W (list PlannedChange);
  uninstallPlan : M W (list PlannedChange);
  isInstalled : M W bool
}.
Arguments integration_id {W} _. Arguments description {W} _. Arguments plan {W} _. Arguments uninstallPlan {W} _.
Arguments isInstalled {W} _.

(** ** Markers *)

Module Markers.
Definition MARKER_START : string := "# >>> agentkeeper >>>".
Definition MARKER_END : string := "# <<< agentkeeper <<<".
Definition withMarkers (body : string) : string := MARKER_START +:+ nl +:+ body +:+ nl +:+ MARKER_END +:+ nl.
(** [content.indexOf(p, start)] *)
Definition indexFrom (content p : string) (start : nat) : option nat := (λ i, start + i) <$> indexOf (sdrop start content) p.
Definition stripMarkers (content : string) : string :=
  match indexOf content MARKER_START with
  | None => content
  | Some start =>
      match indexFrom content MARKER_END start with
      | None => content
      | Some end_ =>
          let tail := sdrop (end_ + slen MARKER_END) content in
          stake start content +:+ match tail with String c r => if Ascii.eqb c newline then r else tail | "" => "" end
      end
  end.
Definition hasMarkers (content : option string) : bool :=
  match content with Some c => includes c MARKER_START | None => false end.

(** *** A marked block is taken out exactly *)

(** Where two ways of cutting a text agree, the shorter head is a head of the longer. *)
Lemma cut_le a b c d : a +:+ b = c +:+ d → slen a ≤ slen c → ∃ e, c = a +:+ e ∧ b = e +:+ d.
Proof.
  revert c. induction a as [|x a IH]; intros c Heq Hle; [by exists c|]. destruct c as [|y c]; [cbn in Hle; lia|].
  cbn in *. injection Heq as -> Heq. destruct (IH c Heq) as (e & -> & ->); [lia|]. by exists e.
Qed.
(** A word of one line lies on one side of a line break. *)
Lemma word_beside p x y a b : p ≠ "" → has_char newline p = false → x +:+ p +:+ y = a +:+ nl +:+ b →
  (∃ e, a = x +:+ p +:+ e) ∨ ∃ e, x = a +:+ nl +:+ e.
Proof.
  intros Hne Hp Heq. destruct (le_lt_dec (slen (x +:+ p)) (slen a)) as [Hle|Hlt].
  - left. destruct (cut_le (x +:+ p) y a (nl +:+ b)) as (e & -> & _); [by rewrite sapp_assoc|done|]. exists e. by rewrite sapp_assoc.
  - right. destruct (le_lt_dec (slen (a +:+ nl)) (slen x)) as [Hle|Hlt'].
    + destruct (cut_le (a +:+ nl) b x (p +:+ y)) as (e & -> & _); [by rewrite sapp_assoc|done|]. exists e. by rewrite sapp_assoc.
    + exfalso. rewrite slen_app in Hlt, Hlt'. change (slen nl) with 1 in Hlt'.
      destruct (cut_le x (p +:+ y) a (nl +:+ b)) as (e & -> & He); [done|lia|]. rewrite slen_app in Hlt.
      destruct (cut_le e (nl +:+ b) p y) as (f & -> & Hf); [done|lia|].
      destruct f as [|c f]; [rewrite sapp_nil_r in Hlt; lia|]. cbn in Hf. injection Hf as <- _.
      by rewrite has_char_app, orb_true_r in Hp.
Qed.
Lemma includes_false s p : includes s p = false ↔ ¬ ∃ a b, s = a +:+ p +:+ b.
Proof. rewrite <-not_true_iff_false, includes_true. done. Qed.
Definition at_line (pre : string) : Prop := pre = "" ∨ ∃ q, pre = q +:+ nl.
(** A word behind a line break is found there when the lines before have none. *)
Lemma index_at_line pre p s : p ≠ "" → has_char newline p = false → at_line pre → includes pre p = false →
  indexOf (pre +:+ p +:+ s) p = Some (slen pre).
Proof.
  intros Hne Hp Hpre Hno. destruct (indexOf _ p) as [k|] eqn:Ek; [|exfalso; apply indexOf_none in Ek; apply Ek; by exists pre, s].
  apply indexOf_some in Ek as Hk. destruct Hk as (x & y & Hk & Hx). pose proof (indexOf_leftmost _ _ _ _ _ Ek eq_refl) as Hle.
  f_equal. destruct (decide (slen x = slen pre)) as [|Hlt]; [lia|]. exfalso. rewrite includes_false in Hno. apply Hno.
  destruct Hpre as [->|[q ->]]; [cbn in *; lia|].
  destruct (word_beside p x y q (p +:+ s)) as [[e ->]|[e ->]]; [done|done|by rewrite <-Hk, !sapp_assoc| |].
  - exists x, (e +:+ nl). by rewrite !sapp_assoc.
  - rewrite !slen_app in *. lia.
Qed.
Lemma includes_lines p a b : p ≠ "" → has_char newline p = false → includes a p = false → includes b p = false →
  includes (a +:+ nl +:+ b) p = false.
Proof.
  intros Hne Hp Ha Hb. apply includes_false. intros (x & y & Heq). rewrite includes_false in Ha, Hb.
  destruct (word_beside p x y a b) as [[e ->]|[e ->]]; [done..| |].
  - apply Ha. by exists x, e.
  - apply Hb. rewrite !sapp_assoc in Heq. apply sapp_inj_l in Heq. cbn in Heq. injection Heq as Heq. by exists e, y.
Qed.
Lemma strip_marked pre body rest : at_line pre → includes pre MARKER_START = false → includes body MARKER_END = false →
  stripMarkers (pre +:+ withMarkers body +:+ rest) = pre +:+ rest.
Proof.
  intros Hpre Hno Hbody. unfold stripMarkers, withMarkers. rewrite !sapp_assoc, index_at_line by (done || by vm_compute).
  unfold indexFrom. rewrite sdrop_app.
  set (inner := MARKER_START +:+ nl +:+ body +:+ nl).
  assert (MARKER_START +:+ nl +:+ body +:+ nl +:+ MARKER_END +:+ nl +:+ rest = inner +:+ MARKER_END +:+ nl +:+ rest) as ->
    by (unfold inner; by rewrite !sapp_assoc).
  rewrite index_at_line; [|done|by vm_compute|right; exists (MARKER_START +:+ nl +:+ body); unfold inner; by rewrite !sapp_assoc|].
  - cbn [fmap option_fmap option_map]. rewrite stake_app.
    assert (pre +:+ inner +:+ MARKER_END +:+ nl +:+ rest = (pre +:+ inner +:+ MARKER_END) +:+ nl +:+ rest) as -> by (by rewrite !sapp_assoc).
    assert (slen pre + slen inner + slen MARKER_END = slen (pre +:+ inner +:+ MARKER_END)) as -> by (rewrite !slen_app; lia).
    by rewrite sdrop_app.
  - unfold inner. apply includes_lines; [done|by vm_compute..|]. rewrite <-(sapp_nil_r (body +:+ nl)), sapp_assoc.
    by apply includes_lines; [done|by vm_compute|done|by vm_compute].
Qed.
End Markers.
Import Markers.

(** ** Shell functions *)

Definition WRAPPED_AGENTS : list string := ["claude"; "gemini"; "codex"; "cursor-agent"; "aider"].

Module ShellFunctionsIntegration.
Section shell.
Context {W : Type} (files : FileSystem W) (home stateDir : AbsolutePath) (rcFiles : list string).
(** A dash of the script's comment, whose code unit is above 255. *)
Context (dash : string).

Definition function_of (agent : string) : string :=
  agent +:+ "() {" +:+ nl
  +:+ "  if [ -n " +:+ q "${AGENTKEEPER_BYPASS:-}" +:+ " ]; then command " +:+ agent +:+ " " +:+ q "$@" +:+ "; return $?; fi" +:+ nl
  +:+ "  agentkeeper run -- " +:+ agent +:+ " " +:+ q "$@" +:+ nl +:+ "}".
Definition script : string :=
  join nl ["# Generated by agentkeeper. Sourced from your shell rc file.";
           "# Remove with: agentkeeper uninstall"; "#";
           "# AGENTKEEPER_BYPASS=1 skips the wrapper for one command. It is meant for";
           "# you, from your own terminal " +:+ dash +:+ " the agent itself is refused by AG-B006."; "";
           join (nl +:+ nl) (map function_of WRAPPED_AGENTS); ""].
Definition source_line (scriptPath : AbsolutePath) : string :=
  "[ -f " +:+ q (AbsolutePath.value scriptPath) +:+ " ] && . " +:+ q (AbsolutePath.value scriptPath).
Definition rc_after (scriptPath : AbsolutePath) (before : string) : string :=
  before +:+ (if endsWith before nl then "" else nl) +:+ withMarkers (source_line scriptPath).
Definition scriptPath : result AbsolutePath := AbsolutePath.joinp stateDir ["shell-init.sh"].

Definition plan_rc (script_ : AbsolutePath) (name : string) : M W (list PlannedChange) :=
  let* rcPath := mlift (AbsolutePath.joinp home [name]) in
  let* before := read_ files rcPath in
  mok (match before with
       | None => []
       | Some text =>
           if hasMarkers (Some text) then []
           else [mkPlanned rcPath before (Some (rc_after script_ text)) "One line sourcing the shell functions above"]
       end).
Definition plan : M W (list PlannedChange) :=
  let* script_ := mlift scriptPath in
  let* before := read_ files script_ in
  let* rcs := mmapM (plan_rc script_) rcFiles in
  mok (mkPlanned script_ before (Some script) "Shell functions that wrap each agent" :: concat rcs).

(** The loop returns at the first file with the block. *)
Fixpoint any_marked (names : list string) : M W bool :=
  match names with
  | [] => mok false
  | name :: rest =>
      let* rcPath := mlift (AbsolutePath.joinp home [name]) in
      let* text := read_ files rcPath in
      if hasMarkers text then mok true else any_marked rest
  end.
Definition isInstalled : M W bool := any_marked rcFiles.

Definition uninstall_rc (name : string) : M W (list PlannedChange) :=
  let* rcPath := mlift (AbsolutePath.joinp home [name]) in
  let* before := read_ files rcPath in
  mok (match before with
       | Some text => if hasMarkers before then [mkPlanned rcPath before (Some (stripMarkers text)) "Remove the sourcing line"] else []
       | None => []
       end).
Definition uninstallPlan : M W (list PlannedChange) :=
  let* script_ := mlift scriptPath in
  let* before := read_ files script_ in
  let* rcs := mmapM uninstall_rc rcFiles in
  mok (mkPlanned script_ before None "Remove the shell functions" :: concat rcs).

Definition integration : Integration W :=
  mkIntegration W "shell-functions" "Route claude/gemini/codex through agentkeeper automatically" plan uninstallPlan isInstalled.
End shell.
End ShellFunctionsIntegration.

(** ** The hook of the agent *)

Definition HOOK_MARKER : string := "hook pretooluse".

(** [{ ...v }]: the own properties, those of a text or an array by index. *)
Fixpoint indexed {A} (n : nat) (l : list A) : list (string * A) :=
  match l with [] => [] | x :: r => (string_of_nat n, x) :: indexed (S n) r end.
Definition spread (v : option Json) : list (string * Json) :=
  match v with
  | Some (JObject m) => own_order m
  | Some (JArray l) => indexed 0 l
  | Some (JString s) => indexed 0 (map (λ c, JString (str1 c)) (String.list_ascii_of_string s))
  | _ => []
  end.
(** [v ?? {}] *)
Definition or_empty (v : option Json) : option Json := if nullish v then Some (JObject []) else v.

Module ClaudeHookIntegration.
(** [typeof parsed === 'object' && parsed !== null ? parsed : {}], and [{}] for no JSON. *)
Definition parseSettings (raw : option string) : Json :=
  match raw with
  | None => JObject []
  | Some text => match parse text with Some v => if isObject v then v else JObject [] | None => JObject [] end
  end.
Definition hooks_of (settings : Json) : list (string * Json) := spread (or_empty (prop settings "hooks")).
Definition entry (binary : string) : Json :=
  JArray [JObject [("matcher", JString "*");
                   ("hooks", JArray [JObject [("type", JString "command"); ("command", JString (binary +:+ " " +:+ HOOK_MARKER))]])]].
Definition print (settings : list (string * Json)) : string := stringify "  " (JObject settings) +:+ nl.
Definition installed_text (binary : string) (before : option string) : string :=
  let settings := parseSettings before in
  print (JsMap.set (spread (Some settings)) "hooks" (JObject (JsMap.set (hooks_of settings) "PreToolUse" (entry binary)))).
Definition withoutHooks (settings : Json) : list (string * Json) := JsMap.delete (spread (Some settings)) "hooks".
Definition removed_text (before : string) : string :=
  let settings := parseSettings (Some before) in
  let hooks := JsMap.delete (hooks_of settings) "PreToolUse" in
  print (match hooks with [] => withoutHooks settings | _ => JsMap.set (spread (Some settings)) "hooks" (JObject hooks) end).

Section claude.
Context {W : Type} (files : FileSystem W) (home : AbsolutePath) (binary : string).
Definition settingsPath : result AbsolutePath := AbsolutePath.joinp home [".claude/settings.json"].
Definition plan : M W (list PlannedChange) :=
  let* path := mlift settingsPath in
  let* before := read_ files path in
  mok [mkPlanned path before (Some (installed_text binary before)) "Register the agentkeeper PreToolUse hook"].
Definition isInstalled : M W bool :=
  let* path := mlift settingsPath in
  let* raw := read_ files path in
  mok (match raw with Some text => includes text HOOK_MARKER | None => false end).
Definition uninstallPlan : M W (list PlannedChange) :=
  let* path := mlift settingsPath in
  let* before := read_ files path in
  mok (match before with
       | Some text =>
           if includes text HOOK_MARKER then [mkPlanned path before (Some (removed_text text)) "Remove the agentkeeper PreToolUse hook"] else []
       | None => []
       end).
Definition integration : Integration W :=
  mkIntegration W "pretooluse-hook" "Observe and refuse tool calls inside the sandbox" plan uninstallPlan isInstalled.
End claude.
End ClaudeHookIntegration.

(** ** Git hooks and the watcher *)

Module GitHookIntegration.
Definition HOOKS : list string := ["post-checkout"; "post-merge"].
Section git.
Context {W : Type} (files : FileSystem W) (exists_ : AbsolutePath → M W bool) (stateDir : AbsolutePath) (binary : string)
  (existingHooksPath : option string).
Definition hookScript (name : string) : string :=
  let chain := match existingHooksPath with
               | None => ""
               | Some path =>
                   nl +:+ "# Chain to the hooks that were configured before agentkeeper." +:+ nl
                   +:+ "[ -x " +:+ q (path +:+ "/" +:+ name) +:+ " ] && " +:+ q (path +:+ "/" +:+ name) +:+ " " +:+ q "$@" +:+ nl
               end in
  join nl ["#!/bin/sh"; "# Generated by agentkeeper. Remove with: agentkeeper uninstall"; "set -e"; chain;
           binary +:+ " scan --quiet --source git-" +:+ name +:+ " || true"; ""].
Definition directory : result AbsolutePath := AbsolutePath.joinp stateDir ["git-hooks"].
Definition hook_change (dir : AbsolutePath) (after : option string) (summary : string) (name : string) : M W PlannedChange :=
  let* path := mlift (AbsolutePath.joinp dir [name]) in
  let* before := read_ files path in
  mok (mkPlanned path before after summary).
Definition plan : M W (list PlannedChange) :=
  let* dir := mlift directory in
  mmapM (λ name, hook_change dir (Some (hookScript name)) ("git " +:+ name +:+ " hook") name) HOOKS.
Definition isInstalled : M W bool :=
  let* path := mlift (AbsolutePath.joinp stateDir ["git-hooks/post-checkout"]) in exists_ path.
Definition uninstallPlan : M W (list PlannedChange) :=
  let* dir := mlift directory in
  mmapM (λ name, hook_change dir None ("Remove the git " +:+ name +:+ " hook") name) HOOKS.
Definition integration : Integration W :=
  mkIntegration W "git-hooks" "Scan a repository after clone, checkout and merge" plan uninstallPlan isInstalled.
End git.
End GitHookIntegration.

Module DaemonIntegration.
Section daemon.
Context {W : Type} (files : FileSystem W) (exists_ : AbsolutePath → M W bool) (home : AbsolutePath) (platform : Platform) (binary : string).
Definition unitPath : result AbsolutePath :=
  AbsolutePath.joinp home [if bool_decide (platform = Platform.Darwin) then "Library/LaunchAgents/dev.agentkeeper.watcher.plist"
                           else ".config/systemd/user/agentkeeper.service"].
Definition plist : string :=
  join nl ["<?xml version=" +:+ q "1.0" +:+ " encoding=" +:+ q "UTF-8" +:+ "?>";
           "<!DOCTYPE plist PUBLIC " +:+ q "-//Apple//DTD PLIST 1.0//EN" +:+ " " +:+ q "http://www.apple.com/DTDs/PropertyList-1.0.dtd" +:+ ">";
           "<plist version=" +:+ q "1.0" +:+ ">"; "<dict>";
           "  <key>Label</key><string>dev.agentkeeper.watcher</string>"; "  <key>ProgramArguments</key>";
           "  <array><string>" +:+ binary +:+ "</string><string>daemon</string></array>";
           "  <key>RunAtLoad</key><true/>"; "  <key>KeepAlive</key><true/>"; "  <key>ProcessType</key><string>Background</string>";
           "</dict>"; "</plist>"; ""].
Definition unit_ : string :=
  join nl ["[Unit]"; "Description=agentkeeper persistence watcher"; ""; "[Service]"; "ExecStart=" +:+ binary +:+ " daemon";
           "Restart=on-failure"; "Nice=10"; ""; "[Install]"; "WantedBy=default.target"; ""].
Definition plan : M W (list PlannedChange) :=
  if bool_decide (platform = Platform.Win32) then mok []
  else
    let* path := mlift unitPath in
    let* before := read_ files path in
    mok [mkPlanned path before (Some (if bool_decide (platform = Platform.Darwin) then plist else unit_))
           "Start the watcher at login (user level, never root)"].
Definition isInstalled : M W bool := let* path := mlift unitPath in exists_ path.
Definition uninstallPlan : M W (list PlannedChange) :=
  let* path := mlift unitPath in
  let* before := read_ files path in
  mok [mkPlanned path before None "Remove the watcher"].
Definition integration : Integration W :=
  mkIntegration W "daemon" "Watch for persistence changes outside the sandbox" plan uninstallPlan isInstalled.
End daemon.
End DaemonIntegration.

(** ** Installing and removing the shell functions *)

(** At most one change for each path, about that path. *)
Definition one_each (f : AbsolutePath → list PlannedChange) : Prop := ∀ p, f p = [] ∨ ∃ b a s, f p = [mkPlanned p b a s].
Lemma effect_each f ps (m : Contents) k : one_each f → NoDup (map AbsolutePath.value ps) →
  effect (map as_change (concat (map f ps))) m !! k
  = match find (λ p, (AbsolutePath.value p =? k)%string) ps with
    | Some p => match f p with c :: _ => planned_after c | [] => m !! k end
    | None => m !! k
    end.
Proof.
  intros Hf. revert m. induction ps as [|p ps IH]; intros m Hnd; [done|]. cbn [map concat] in *. apply NoDup_cons in Hnd as [Hp Hnd].
  assert (AbsolutePath.value p = k → find (λ p, (AbsolutePath.value p =? k)%string) ps = None) as Hnone.
  { intros <-. apply find_none_iff, some_false. intros x Hx. apply String.eqb_neq. intros He. apply Hp. rewrite <-He. by apply list_elem_of_fmap_2. }
  rewrite map_app. unfold effect. rewrite fold_left_app. fold (effect (map as_change (concat (map f ps)))). rewrite IH by done. cbn [List.find].
  destruct (Hf p) as [Hfp|(b & a & s & Hfp)]; rewrite ?Hfp; cbn [map fold_left].
  - destruct (String.eqb_spec (AbsolutePath.value p) k) as [E|]; [rewrite (Hnone E), ?Hfp; by subst k|done].
  - destruct (String.eqb_spec (AbsolutePath.value p) k) as [E|E].
    + rewrite (Hnone E), ?Hfp. subst k. exact (lookup_put_eq _ _ _).
    + rewrite lookup_put_ne; [done|]. intros He. by apply E.
Qed.

Section shell.
Import ShellFunctionsIntegration.
Context {W : Type} (files : FileSystem W) `{!FileLaws files} (home stateDir : AbsolutePath) (rcFiles : list string) (dash : string).

Lemma read_yields (m : Contents) p : yields (λ w, contents w = m) (read_ files p) (λ t, t = m !! AbsolutePath.value p).
Proof. intros w Hw. destruct (read_law p w) as [H1 H2]. rewrite Hw in H1, H2. by split. Qed.

Definition install_changes (m : Contents) (script_ p : AbsolutePath) : list PlannedChange :=
  match m !! AbsolutePath.value p with
  | None => []
  | Some text => if hasMarkers (Some text) then []
                 else [mkPlanned p (Some text) (Some (rc_after script_ text)) "One line sourcing the shell functions above"]
  end.
Definition removal_changes (m : Contents) (p : AbsolutePath) : list PlannedChange :=
  match m !! AbsolutePath.value p with
  | Some text => if hasMarkers (Some text) then [mkPlanned p (Some text) (Some (stripMarkers text)) "Remove the sourcing line"] else []
  | None => []
  end.
(** The paths of the names. *)
Definition rc_paths (ps : list AbsolutePath) : Prop := Forall2 (λ name p, AbsolutePath.joinp home [name] = Ok p) rcFiles ps.

Lemma rows_yield (m : Contents) (one : string → M W (list PlannedChange)) f :
  (∀ name, yields (λ w, contents w = m) (one name) (λ l, ∃ p, AbsolutePath.joinp home [name] = Ok p ∧ l = f p)) →
  yields (λ w, contents w = m) (mmapM one rcFiles) (λ ls, ∃ ps, rc_paths ps ∧ ls = map f ps).
Proof.
  intros Hone. eapply yields_mono; [apply yields_mmapM; intros name _; apply Hone|]. intros ls Hls. unfold rc_paths.
  induction Hls as [|name l names ls (p & Hp & ->) _ (ps & Hps & ->)]; [by exists []|]. exists (p :: ps). split; [by constructor|done].
Qed.
Lemma plan_yields (m : Contents) : yields (λ w, contents w = m) (plan files home stateDir rcFiles dash) (λ cs, ∃ s ps,
  scriptPath stateDir = Ok s ∧ rc_paths ps
  ∧ cs = mkPlanned s (m !! AbsolutePath.value s) (Some (script dash)) "Shell functions that wrap each agent" :: concat (map (install_changes m s) ps)).
Proof.
  unfold plan. eapply yields_seq; [by apply (yields_lift _ _ (λ s, scriptPath stateDir = Ok s))|]. intros s Hs.
  eapply yields_seq; [apply read_yields|]. intros ? ->. eapply yields_seq.
  - apply (rows_yield m _ (install_changes m s)). intros name. unfold plan_rc.
    eapply yields_seq; [by apply (yields_lift _ _ (λ p, AbsolutePath.joinp home [name] = Ok p))|]. intros p Hp.
    eapply yields_seq; [apply read_yields|]. intros ? ->. apply yields_ok. exists p. split; [done|].
    unfold install_changes. by destruct (m !! _).
  - intros ls (ps & Hps & ->). apply yields_ok. by exists s, ps.
Qed.
Lemma removal_yields (m : Contents) : yields (λ w, contents w = m) (uninstallPlan files home stateDir rcFiles) (λ cs, ∃ s ps,
  scriptPath stateDir = Ok s ∧ rc_paths ps
  ∧ cs = mkPlanned s (m !! AbsolutePath.value s) None "Remove the shell functions" :: concat (map (removal_changes m) ps)).
Proof.
  unfold uninstallPlan. eapply yields_seq; [by apply (yields_lift _ _ (λ s, scriptPath stateDir = Ok s))|]. intros s Hs.
  eapply yields_seq; [apply read_yields|]. intros ? ->. eapply yields_seq.
  - apply (rows_yield m _ (removal_changes m)). intros name. unfold uninstall_rc.
    eapply yields_seq; [by apply (yields_lift _ _ (λ p, AbsolutePath.joinp home [name] = Ok p))|]. intros p Hp.
    eapply yields_seq; [apply read_yields|]. intros ? ->. apply yields_ok. exists p. split; [done|].
    unfold removal_changes. by destruct (m !! _).
  - intros ls (ps & Hps & ->). apply yields_ok. by exists s, ps.
Qed.

(** The text of a profile after both. *)
Definition cleaned (t : string) : string :=
  if hasMarkers (Some t) then stripMarkers t else t +:+ (if endsWith t nl then "" else nl).
Lemma rc_after_clean s t : includes (source_line s) MARKER_END = false → hasMarkers (Some t) = false →
  hasMarkers (Some (rc_after s t)) = true ∧ stripMarkers (rc_after s t) = t +:+ (if endsWith t nl then "" else nl).
Proof.
  intros Hs Ht. cbn [hasMarkers] in *. unfold rc_after. rewrite <-sapp_assoc. set (pre := t +:+ _). split.
  - apply includes_true. exists pre. unfold withMarkers. by eexists.
  - rewrite <-(sapp_nil_r (withMarkers _)), strip_marked, sapp_nil_r; [done| | |done]; unfold pre; clear pre.
    + right. destruct (endsWith t nl) eqn:E; [|by exists t]. apply endsWith_true in E as [q' ->]. exists q'. by rewrite sapp_nil_r.
    + destruct (endsWith t nl); [by rewrite sapp_nil_r|]. rewrite <-(sapp_nil_r nl).
      apply includes_lines; [done|by vm_compute|done|by vm_compute].
Qed.

Lemma rc_paths_inj ps ps' : rc_paths ps → rc_paths ps' → ps' = ps.
Proof.
  unfold rc_paths. intros H. revert ps'. induction H as [|name p names ps Hp _ IH]; intros ps' H'; inversion H'; [done|]. subst.
  f_equal; [congruence|by apply IH].
Qed.
Lemma install_one m s : one_each (install_changes m s).
Proof. intros p. unfold install_changes. destruct (m !! _) as [t|]; [destruct (hasMarkers _)|]; (by left) || (right; by eauto). Qed.
Lemma removal_one m : one_each (removal_changes m).
Proof. intros p. unfold removal_changes. destruct (m !! _) as [t|]; [destruct (hasMarkers _)|]; (by left) || (right; by eauto). Qed.

(** What the script and one profile hold after a plan with at most one change for each profile. *)
Lemma effect_script f (s : AbsolutePath) ps m b a t : one_each f → AbsolutePath.value s ∉ map AbsolutePath.value ps →
  NoDup (map AbsolutePath.value ps) →
  effect (map as_change (mkPlanned s b a t :: concat (map f ps))) m !! AbsolutePath.value s = a.
Proof.
  intros Hf Hs Hnd. change (effect (map as_change (concat (map f ps))) (put m (AbsolutePath.value s) a) !! AbsolutePath.value s = a).
  rewrite effect_each by done. replace (find _ ps) with (@None AbsolutePath); [apply lookup_put_eq|]. symmetry.
  apply find_none_iff, some_false. intros p Hp. apply String.eqb_neq. intros He. apply Hs. rewrite <-He. by apply list_elem_of_fmap_2.
Qed.
Lemma effect_profile f (s : AbsolutePath) ps m b a t p : one_each f → AbsolutePath.value s ∉ map AbsolutePath.value ps →
  NoDup (map AbsolutePath.value ps) → p ∈ ps →
  effect (map as_change (mkPlanned s b a t :: concat (map f ps))) m !! AbsolutePath.value p
  = match f p with c :: _ => planned_after c | [] => m !! AbsolutePath.value p end.
Proof.
  intros Hf Hs Hnd Hp. change (effect (map as_change (concat (map f ps))) (put m (AbsolutePath.value s) a) !! AbsolutePath.value p
    = match f p with c :: _ => planned_after c | [] => m !! AbsolutePath.value p end).
  rewrite effect_each by done.
  assert (find (λ x, (AbsolutePath.value x =? AbsolutePath.value p)%string) ps = Some p) as ->.
  { induction ps as [|x ps IH]; [by apply elem_of_nil in Hp|]. cbn in *. apply NoDup_cons in Hnd as [Hx Hnd].
    apply elem_of_cons in Hp as [<-|Hp]; [by rewrite String.eqb_refl|]. destruct (String.eqb_spec (AbsolutePath.value x) (AbsolutePath.value p)) as [E|].
    - destruct Hx. rewrite E. by apply list_elem_of_fmap_2.
    - apply IH; [|done..]. intros Hin. apply Hs. by apply elem_of_cons; right. }
  destruct (f p); [|done]. apply lookup_put_ne. intros He. apply Hs. rewrite <-He. by apply list_elem_of_fmap_2.
Qed.
Lemma effect_other f (s : AbsolutePath) ps m b a t k : one_each f → NoDup (map AbsolutePath.value ps) →
  k ≠ AbsolutePath.value s → k ∉ map AbsolutePath.value ps →
  effect (map as_change (mkPlanned s b a t :: concat (map f ps))) m !! k = m !! k.
Proof.
  intros Hf Hnd Hs Hk. change (effect (map as_change (concat (map f ps))) (put m (AbsolutePath.value s) a) !! k = m !! k).
  rewrite effect_each by done. replace (find _ ps) with (@None AbsolutePath); [by apply lookup_put_ne|]. symmetry.
  apply find_none_iff, some_false. intros p Hp. apply String.eqb_neq. intros He. apply Hk. rewrite <-He. by apply list_elem_of_fmap_2.
Qed.

(** C32. Removing the shell functions undoes installing them. Both plans are applied in turn, to any contents of the machine: then the
    script is gone; a profile that existed without a block of the program, whose text ended in a line break, holds exactly the text it had
    before, and one whose text did not ends one line break longer, which is where the removal is no exact inverse; a profile that held a
    block already loses it, as by the removal alone; a profile that did not exist still does not; and no other file has changed. *)
Theorem shell_round_trip s ps w w1 cs w2 w3 cs' :
  scriptPath stateDir = Ok s → rc_paths ps → AbsolutePath.value s ∉ map AbsolutePath.value ps → NoDup (map AbsolutePath.value ps) →
  includes (source_line s) MARKER_END = false →
  plan files home stateDir rcFiles dash w = (w1, Ok cs) →
  (∀ p, p ∈ s :: ps → contents w2 !! AbsolutePath.value p = effect (map as_change cs) (contents w) !! AbsolutePath.value p) →
  uninstallPlan files home stateDir rcFiles w2 = (w3, Ok cs') →
  effect (map as_change cs') (contents w2) !! AbsolutePath.value s = None
  ∧ (∀ p, p ∈ ps → contents w !! AbsolutePath.value p = None → effect (map as_change cs') (contents w2) !! AbsolutePath.value p = None)
  ∧ (∀ p t, p ∈ ps → contents w !! AbsolutePath.value p = Some t →
      effect (map as_change cs') (contents w2) !! AbsolutePath.value p
      = Some (if hasMarkers (Some t) then stripMarkers t else if endsWith t nl then t else t +:+ nl))
  ∧ (∀ k, k ≠ AbsolutePath.value s → k ∉ map AbsolutePath.value ps →
      effect (map as_change cs) (contents w) !! k = contents w !! k ∧ effect (map as_change cs') (contents w2) !! k = contents w2 !! k).
Proof.
  intros Hs Hps Hsp Hnd Hend Hplan Hw2 Hun.
  destruct (plan_yields _ w eq_refl) as [_ H1]. rewrite Hplan in H1. destruct (H1 _ eq_refl) as (s1 & ps1 & E1 & Hps1 & ->).
  destruct (removal_yields _ w2 eq_refl) as [_ H2]. rewrite Hun in H2. destruct (H2 _ eq_refl) as (s2 & ps2 & E2 & Hps2 & ->).
  rewrite Hs in E1, E2. apply Ok_inj in E1 as <-. apply Ok_inj in E2 as <-.
  rewrite (rc_paths_inj _ _ Hps Hps1) in *. rewrite (rc_paths_inj _ _ Hps Hps2) in *.
  pose proof (install_one (contents w) s) as I1. pose proof (removal_one (contents w2)) as I2.
  match goal with |- effect ?l _ !! _ = None ∧ _ =>
    assert (∀ p, p ∈ ps → effect l (contents w2) !! AbsolutePath.value p = cleaned <$> contents w !! AbsolutePath.value p) as Hclean end.
  { intros p Hp. rewrite effect_profile by done. specialize (Hw2 p ltac:(by right)). rewrite effect_profile in Hw2 by done.
    unfold removal_changes. rewrite Hw2. unfold install_changes, cleaned.
    destruct (contents w !! AbsolutePath.value p) as [t|] eqn:Et; rewrite ?Et; [|done].
    destruct (hasMarkers (Some t)) eqn:Hm; cbn [planned_after fmap option_fmap option_map]; rewrite ?Et, ?Hm; [done|].
    destruct (rc_after_clean s t Hend Hm) as [-> ->]. done. }
  split_and!.
  - by apply effect_script.
  - intros p Hp Hn. by rewrite Hclean, Hn.
  - intros p t Hp Ht. rewrite Hclean, Ht by done. cbn [fmap option_fmap option_map]. unfold cleaned. destruct (hasMarkers _); [done|].
    destruct (endsWith t nl); by rewrite ?sapp_nil_r.
  - intros k Hk Hk'. split; by apply effect_other.
Qed.
End shell.

(** ** A machine *)

Module SampleShell.
Definition home : AbsolutePath := AbsolutePath.mkPath "/home/u" AbsolutePath.posix_flavour "/".
Definition state : AbsolutePath := AbsolutePath.mkPath "/home/u/.agentkeeper" AbsolutePath.posix_flavour "/".
Definition at_ (name : string) : AbsolutePath := AbsolutePath.mkPath ("/home/u/" +:+ name) AbsolutePath.posix_flavour "/".
Definition rcs : list string := [".zshrc"; ".bashrc"].
Definition before_ : Contents := {[ "/home/u/.zshrc" := "alias ll=ls"; "/home/u/.notes" := "mine" ]}.
Definition planned : list PlannedChange :=
  match ShellFunctionsIntegration.plan MemoryFiles.files home state rcs "-" before_ with (_, Ok cs) => cs | _ => [] end.
Definition installed : Contents := Eval vm_compute in effect (map as_change planned) before_.
Definition removal : list PlannedChange :=
  match ShellFunctionsIntegration.uninstallPlan MemoryFiles.files home state rcs installed with (_, Ok cs) => cs | _ => [] end.

(** The agent's settings are rewritten whole: text that is no JSON is lost, and so are the user's own hooks of the same event, at the
    installation and at the removal. *)
Definition own_hooks : string := "{" +:+ q "hooks" +:+ ":{" +:+ q "PreToolUse" +:+ ":[" +:+ q "mine" +:+ "]}}".
Example settings_with_comment_lost : ClaudeHookIntegration.installed_text "ak" (Some ("// mine" +:+ own_hooks)) = ClaudeHookIntegration.installed_text "ak" None.
Proof. vm_compute. reflexivity. Qed.
Example own_hooks_lost : ClaudeHookIntegration.installed_text "ak" (Some own_hooks) = ClaudeHookIntegration.installed_text "ak" None
  ∧ ClaudeHookIntegration.removed_text (ClaudeHookIntegration.installed_text "ak" (Some own_hooks)) = "{}" +:+ nl.
Proof. split; vm_compute; reflexivity. Qed.
Example other_settings_kept : includes (ClaudeHookIntegration.installed_text "ak" (Some ("{" +:+ q "model" +:+ ":1}"))) (q "model" +:+ ": 1") = true.
Proof. vm_compute. reflexivity. Qed.
End SampleShell.
Import SampleShell.

Lemma shell_round_trip_witness :
  effect (map as_change removal) installed !! "/home/u/.agentkeeper/shell-init.sh" = None
  ∧ effect (map as_change removal) installed !! "/home/u/.zshrc" = Some ("alias ll=ls" +:+ nl).
Proof.
  destruct (shell_round_trip MemoryFiles.files home state rcs "-" (at_ ".agentkeeper/shell-init.sh") [at_ ".zshrc"; at_ ".bashrc"]
    before_ before_ planned installed installed removal) as (H1 & _ & H2 & _).
  - vm_compute. reflexivity.
  - repeat constructor.
  - by vm_compute; set_solver.
  - apply NoDup_cons; split; [set_solver|apply NoDup_singleton].
  - vm_compute. reflexivity.
  - vm_compute. reflexivity.
  - intros p Hp. vm_compute. reflexivity.
  - vm_compute. reflexivity.
  - split; [exact H1|]. exact (H2 (at_ ".zshrc") "alias ll=ls" (list_elem_of_here _ _) eq_refl).
Defined.
