(* ===== verification/ProtectionInstallation.v ===== *)
(** * Activating and deactivating the protection
      (src/application/use-cases/ExecuteProtectionInstallation.ts)

    The executor that coordinates a file plan with the resident service and the global
    git hooks path. It is written against the contract of an installation executor,
    [ExecutorLaws], and against that of the two controllers, [ExternalLaws]. *)

From S2P Require Import Prelude JsString NodePath Paths Values SensitivePaths Entities Ports Installation.

(** ** The ports (src/application/ports/SystemIntegration.ts) *)

Record ServiceRegistration := mkRegistration {
  service_platform : Platform;
  service_id : string;
  descriptorPath : AbsolutePath
}.
#[global] Instance ServiceRegistration_eq_dec : EqDecision ServiceRegistration.
Proof. solve_decision. Defined.
Record ServiceStatus := mkServiceStatus { registered : bool; active : bool; healthy : bool }.
#[global] Instance ServiceStatus_eq_dec : EqDecision ServiceStatus.
Proof. solve_decision. Defined.
Inductive Desired := desired_active | desired_absent.
#[global] Instance Desired_eq_dec : EqDecision Desired.
Proof. solve_decision. Defined.

Record ServiceController (W : Type) := mkServices {
  inspect : ServiceRegistration → M W ServiceStatus;
  setDesired : ServiceRegistration → Desired → ServiceStatus → M W unit;
  restart : ServiceRegistration → ServiceStatus → M W unit;
  restore : ServiceRegistration → ServiceStatus → M W unit
}.
Arguments inspect {W} _ _. Arguments setDesired {W} _ _ _ _. Arguments restart {W} _ _ _.
Arguments restore {W} _ _ _.
(** The outer option of [writeGlobalHooksPath] is the expectation, when there is one. *)
Record GitConfigurationController (W : Type) := mkGit {
  readGlobalHooksPath : M W (option string);
  writeGlobalHooksPath : option string → option (option string) → M W unit
}.
Arguments readGlobalHooksPath {W} _. Arguments writeGlobalHooksPath {W} _ _ _.

Inductive SystemIntegrationTransition :=
| git_hooks_path (git_before git_after : option string) (git_summary : string)
| service (registration : ServiceRegistration) (service_before : ServiceStatus) (service_after : Desired)
    (service_restart : bool) (service_summary : string).

Record ProtectionInstallationPlan := mkProtectionPlan {
  plan_operation : InstallationOperation;
  plan_installed : bool;
  plan_healthy : bool;
  filePlan : InstallationPlan;
  externalChanges : list SystemIntegrationTransition;
  plan_conflicts : list InstallationConflict
}.
Record ProtectionInstallationExecutionResult := mkProtectionResult {
  filesApplied : nat;
  externalApplied : nat;
  degraded : list string
}.

(** ** The executor *)

Module TransactionalProtectionInstallationExecutor.

Definition transition_name (t : SystemIntegrationTransition) : string :=
  match t with git_hooks_path _ _ _ => "git-hooks-path" | service _ _ _ _ _ => "service" end.
Definition stale (t : SystemIntegrationTransition) : exn :=
  SystemIntegrationConcurrentChangeError
    ("Refusing stale " +:+ transition_name t +:+ " transition; external state changed after planning").

Definition invertChange (c : InstallationChange) : InstallationChange :=
  mkInstallationChange (change_path c) (after c) (before c) ("Rollback: " +:+ summary c) (mode c).
Definition invertPlan (p : InstallationPlan) : InstallationPlan :=
  mkPlan deactivate (map invertChange (rev (changes p))) [].

Definition sameServiceStatus (l r : ServiceStatus) : bool :=
  eqb (registered l) (registered r) && eqb (active l) (active r) && eqb (healthy l) (healthy r).

Definition rollback_failed : string :=
  "Protection installation failed and could not be rolled back completely".
Definition throwRollbackAware (e : exn) (rollbackErrors : list exn) : exn :=
  if 0 <? length rollbackErrors then AggregateError (e :: rollbackErrors) rollback_failed else e.

Section executor.
Context {W : Type} (files : InstallationExecutor W) (services : ServiceController W)
  (git : GitConfigurationController W).

Definition externalPreconditionMatches (t : SystemIntegrationTransition) : M W bool :=
  match t with
  | git_hooks_path b _ _ =>
      let* found := readGlobalHooksPath git in mok (bool_decide (found = b))
  | service reg b _ _ _ =>
      let* found := inspect services reg in mok (sameServiceStatus found b)
  end.

Definition verifyExternalPrecondition (t : SystemIntegrationTransition) : M W unit :=
  let* ok := externalPreconditionMatches t in
  if ok then mok tt else mlift (Err (stale t)).

(** The answers are gathered before the first stale one is reported. *)
Definition verifyExternalPreconditions (ts : list SystemIntegrationTransition) : M W unit :=
  let* matches := mfold (λ acc t, let* ok := externalPreconditionMatches t in mok (acc ++ [(t, ok)])) [] ts in
  match find (λ tm, negb tm.2) matches with
  | Some (t, _) => mlift (Err (stale t))
  | None => mok tt
  end.

Definition applyExternal (t : SystemIntegrationTransition) : M W unit :=
  match t with
  | git_hooks_path b a _ => writeGlobalHooksPath git a (Some b)
  | service reg b _ true _ => restart services reg b
  | service reg b a false _ => setDesired services reg a b
  end.

Definition restoreExternal (t : SystemIntegrationTransition) : M W unit :=
  match t with
  | git_hooks_path b _ _ => writeGlobalHooksPath git b None
  | service reg b _ _ _ => restore services reg b
  end.

Definition restore_one (errors : list exn) (t : SystemIntegrationTransition) : M W (list exn) := λ w,
  match restoreExternal t w with
  | (w', Ok _) => (w', Ok errors)
  | (w', Err e) => (w', Ok (errors ++ [e]))
  end.
Definition rollbackExternal (attempted : list SystemIntegrationTransition) : M W (list exn) :=
  mfold restore_one [] (rev attempted).

(** The variables of a run that its handler reads. *)
Record Progress := mkProgress {
  fileResult : option InstallationExecutionResult;
  attempted : list SystemIntegrationTransition;
  degraded_ : list string;
  applied_ : nat
}.
Definition push (t : SystemIntegrationTransition) : M (Progress * W) unit :=
  in_local (λ p, (mkProgress (fileResult p) (attempted p ++ [t]) (degraded_ p) (applied_ p), tt)).
Definition pop : M (Progress * W) unit :=
  in_local (λ p, (mkProgress (fileResult p) (removelast (attempted p)) (degraded_ p) (applied_ p), tt)).
Definition count : M (Progress * W) unit :=
  in_local (λ p, (mkProgress (fileResult p) (attempted p) (degraded_ p) (S (applied_ p)), tt)).
Definition degrade (why : string) : M (Progress * W) unit :=
  in_local (λ p, (mkProgress (fileResult p) (attempted p) (degraded_ p ++ [why]) (applied_ p), tt)).
Definition set_files (r : InstallationExecutionResult) : M (Progress * W) unit :=
  in_local (λ p, (mkProgress (Some r) (attempted p) (degraded_ p) (applied_ p), tt)).

Definition attempt (t : SystemIntegrationTransition) : M (Progress * W) unit :=
  let* _ := push t in
  let* _ := in_world (applyExternal t) in
  count.

(** One transition of an activation: a service that fails is put back and named. *)
Definition activate_one (_ : unit) (t : SystemIntegrationTransition) : M (Progress * W) unit :=
  let* _ := in_world (verifyExternalPrecondition t) in
  match t with
  | service _ _ _ _ _ => λ s,
      match attempt t s with
      | (s', Ok _) => (s', Ok tt)
      | (s', Err e) =>
          (let* _ := pop in
           let* _ := in_world (swallow (restoreExternal t)) in
           degrade ("the resident watcher could not be activated: " +:+ exn_message e)) s'
      end
  | git_hooks_path _ _ _ => attempt t
  end.

Definition activateOrRepair (plan : ProtectionInstallationPlan) : M W ProtectionInstallationExecutionResult := λ w,
  match (let* r := in_world (files (filePlan plan)) in
         let* _ := set_files r in
         let* _ := mfold activate_one tt (externalChanges plan) in
         mok r) (mkProgress None [] [] 0, w) with
  | ((p, w'), Ok r) => (w', Ok (mkProtectionResult (applied r) (applied_ p) (degraded_ p)))
  | ((p, w'), Err e) =>
      (let* errors := rollbackExternal (attempted p) in
       let* errors := match fileResult p with
                      | Some _ =>
                          if 0 <? length (changes (filePlan plan)) then
                            λ w, match files (invertPlan (filePlan plan)) w with
                                 | (w', Ok _) => (w', Ok errors)
                                 | (w', Err e') => (w', Ok (errors ++ [e']))
                                 end
                          else mok errors
                      | None => mok errors
                      end in
       mlift (Err (throwRollbackAware e errors))) w'
  end.

Definition deactivate_one (_ : unit) (t : SystemIntegrationTransition) : M (Progress * W) unit :=
  let* _ := in_world (verifyExternalPrecondition t) in
  let* _ := push t in
  in_world (applyExternal t).

Definition deactivate_ (plan : ProtectionInstallationPlan) : M W ProtectionInstallationExecutionResult := λ w,
  match (let* _ := mfold deactivate_one tt (externalChanges plan) in
         in_world (files (filePlan plan))) (mkProgress None [] [] 0, w) with
  | ((p, w'), Ok r) => (w', Ok (mkProtectionResult (applied r) (length (externalChanges plan)) []))
  | ((p, w'), Err e) =>
      (let* errors := rollbackExternal (attempted p) in
       mlift (Err (throwRollbackAware e errors))) w'
  end.

Definition execute (plan : ProtectionInstallationPlan) : M W ProtectionInstallationExecutionResult :=
  if 0 <? length (plan_conflicts plan) then
    mlift (Err (ProtectionInstallationConflictError
      ("Protection installation " +:+ operation_name (plan_operation plan) +:+ " has "
       +:+ string_of_nat (length (plan_conflicts plan)) +:+ " conflict(s): " +:+ conflict_list (plan_conflicts plan))))
  else
    let* _ := verifyExternalPreconditions (externalChanges plan) in
    if bool_decide (plan_operation plan = deactivate) then deactivate_ plan else activateOrRepair plan.
End executor.
End TransactionalProtectionInstallationExecutor.

(** ** The contract of the controllers

    What the executor can see and change outside the files: the hooks path, [None], and
    what the service manager knows of each service, by the service's name. The status that
    is seen of a service may depend on the files as well: systemd knows a unit by its
    file, so that writing the file changes the status. *)
Abbreviation Target := (option string).
Definition Value : Type := option string + ServiceStatus.
Definition target (t : SystemIntegrationTransition) : Target :=
  match t with git_hooks_path _ _ _ => None | service reg _ _ _ _ => Some (service_id reg) end.
Definition value_before (t : SystemIntegrationTransition) : Value :=
  match t with git_hooks_path b _ _ => inl b | service _ b _ _ _ => inr b end.

(** The hooks path after a write: git takes an empty one for none. *)
Definition set_path (p : option string) : option string := match p with Some "" => None | _ => p end.

(** Reads return what is there; a change of one target, failed or not, leaves the files
    and every other target alone; a hooks path that was written is there; a status that
    was restored is seen with any files with which it can be seen at all; and the file
    executor changes neither the hooks path nor what the manager knows. *)
Class ExternalLaws {W : Type} (files : InstallationExecutor W) `{!ExecutorLaws files}
    (services : ServiceController W) (git : GitConfigurationController W) := {
  Managed : Type;
  hooks : W → option string;
  hooks_set : ∀ w, set_path (hooks w) = hooks w;
  managed : W → string → Managed;
  observe : string → Contents → Managed → ServiceStatus;
  files_keep : ∀ plan w, hooks (files plan w).1 = hooks w ∧ ∀ n, managed (files plan w).1 n = managed w n;
  inspect_law : ∀ reg w,
    exec_contents (inspect services reg w).1 = exec_contents w
    ∧ (hooks (inspect services reg w).1 = hooks w ∧ ∀ n, managed (inspect services reg w).1 n = managed w n)
    ∧ ∀ s, (inspect services reg w).2 = Ok s →
        s = observe (service_id reg) (exec_contents w) (managed w (service_id reg));
  read_hooks_law : ∀ w,
    exec_contents (readGlobalHooksPath git w).1 = exec_contents w
    ∧ (hooks (readGlobalHooksPath git w).1 = hooks w ∧ ∀ n, managed (readGlobalHooksPath git w).1 n = managed w n)
    ∧ ∀ h, (readGlobalHooksPath git w).2 = Ok h → h = hooks w;
  write_hooks_law : ∀ p expected w,
    exec_contents (writeGlobalHooksPath git p expected w).1 = exec_contents w
    ∧ (∀ n, managed (writeGlobalHooksPath git p expected w).1 n = managed w n)
    ∧ ((writeGlobalHooksPath git p expected w).2 = Ok tt →
        hooks (writeGlobalHooksPath git p expected w).1 = set_path p);
  set_law : ∀ reg d b w,
    exec_contents (setDesired services reg d b w).1 = exec_contents w
    ∧ hooks (setDesired services reg d b w).1 = hooks w
    ∧ ∀ n, n ≠ service_id reg → managed (setDesired services reg d b w).1 n = managed w n;
  restart_law : ∀ reg b w,
    exec_contents (restart services reg b w).1 = exec_contents w
    ∧ hooks (restart services reg b w).1 = hooks w
    ∧ ∀ n, n ≠ service_id reg → managed (restart services reg b w).1 n = managed w n;
  restore_law : ∀ reg b w,
    exec_contents (restore services reg b w).1 = exec_contents w
    ∧ (hooks (restore services reg b w).1 = hooks w
       ∧ ∀ n, n ≠ service_id reg → managed (restore services reg b w).1 n = managed w n)
    ∧ ((restore services reg b w).2 = Ok tt → ∀ c m, observe (service_id reg) c m = b →
        observe (service_id reg) c (managed (restore services reg b w).1 (service_id reg)) = b)
}.
(** What an inspection finds. *)
Definition status `{ExternalLaws} (w : W) (reg : ServiceRegistration) : ServiceStatus :=
  observe (service_id reg) (exec_contents w) (managed w (service_id reg)).

(** The targets after undoing attempts: the first attempt on a target knows its value. *)
Definition undo_at (attempts : list SystemIntegrationTransition) (f : Target → Value) (x : Target) : Value :=
  match find (λ t, bool_decide (target t = x)) attempts with Some t => value_before t | None => f x end.

Lemma effect_invert plan m :
  effect (changes (TransactionalProtectionInstallationExecutor.invertPlan plan)) m = undo (changes plan) m.
Proof.
  unfold effect, undo. cbn [changes TransactionalProtectionInstallationExecutor.invertPlan].
  generalize (rev (changes plan)) as l. intros l. revert m.
  induction l as [|c l IH]; intros m; [done|]. cbn [map fold_left]. apply IH.
Qed.

Section laws.
Import TransactionalProtectionInstallationExecutor.
Context {W : Type} (files : InstallationExecutor W) `{!ExecutorLaws files}
  (services : ServiceController W) (git : GitConfigurationController W) `{!ExternalLaws files services git}.

Lemma sameServiceStatus_eq l r : sameServiceStatus l r = true ↔ l = r.
Proof.
  unfold sameServiceStatus. destruct l, r. cbn. rewrite !andb_true_iff, !eqb_true_iff. naive_solver.
Qed.

(** What is seen of a target with the files [c]. *)
Definition seen (c : Contents) (w : W) (x : Target) : Value :=
  match x with None => inl (hooks w) | Some n => inr (observe n c (managed w n)) end.
(** The hooks path and all services are as they were. *)
Definition kept (w w' : W) : Prop := hooks w' = hooks w ∧ ∀ n, managed w' n = managed w n.
Lemma kept_seen w w' c x : kept w w' → seen c w' x = seen c w x.
Proof. intros [Hh Hm]. destruct x; cbn; congruence. Qed.

Lemma matches_spec t w :
  let r := externalPreconditionMatches services git t w in
  exec_contents r.1 = exec_contents w ∧ kept w r.1
  ∧ (r.2 = Ok true → seen (exec_contents w) w (target t) = value_before t).
Proof.
  unfold externalPreconditionMatches, mseq, mok. destruct t as [b a s|reg b a rs s]; cbn [target value_before].
  - destruct (read_hooks_law w) as (H1 & H2 & H3).
    destruct (readGlobalHooksPath git w) as [w' [h|e]]; cbn [fst snd] in *; [|done].
    split_and!; [done..|]. intros [= Hb%bool_decide_eq_true]. cbn. by rewrite <-Hb, (H3 h).
  - destruct (inspect_law reg w) as (H1 & H2 & H3).
    destruct (inspect services reg w) as [w' [h|e]]; cbn [fst snd] in *; [|done].
    split_and!; [done..|]. intros [= Hb%sameServiceStatus_eq]. cbn. by rewrite <-Hb, (H3 h).
Qed.

Lemma verify_spec t w :
  let r := verifyExternalPrecondition services git t w in
  exec_contents r.1 = exec_contents w ∧ kept w r.1.
Proof.
  unfold verifyExternalPrecondition, mseq. destruct (matches_spec t w) as (H1 & H2 & _).
  destruct (externalPreconditionMatches services git t w) as [w' [[]|e]]; cbn [fst snd mok mlift] in *; done.
Qed.

(** *** Seen with the files of the start

    Whatever happens to the files on the way, a target is judged by what is seen of it
    with the files the run started from. *)
Section start.
Context (c0 : Contents).
Abbreviation ext := (seen c0).

Lemma apply_spec t w :
  let r := applyExternal services git t w in
  exec_contents r.1 = exec_contents w ∧ (∀ x, x ≠ target t → ext r.1 x = ext w x)
  ∧ (r.2 = Ok tt → hooks r.1 = match t with git_hooks_path _ a _ => set_path a | service _ _ _ _ _ => hooks w end).
Proof.
  unfold applyExternal. destruct t as [b a s|reg b a [] s]; cbn [target].
  - destruct (write_hooks_law a (Some b) w) as (H1 & H2 & H3). split_and!; [done| |done].
    intros [n|] Hn; [|done]. cbn. by rewrite H2.
  - destruct (restart_law reg b w) as (H1 & H2 & H3). split_and!; [done| |done].
    intros [n|] Hn; cbn; [rewrite H3; congruence|congruence].
  - destruct (set_law reg a b w) as (H1 & H2 & H3). split_and!; [done| |done].
    intros [n|] Hn; cbn; [rewrite H3; congruence|congruence].
Qed.

(** A restoration, of a value that was seen with the files of the start. *)
Lemma restore_spec t w :
  let r := restoreExternal services git t w in
  exec_contents r.1 = exec_contents w ∧ (∀ x, x ≠ target t → ext r.1 x = ext w x)
  ∧ (r.2 = Ok tt → (∃ w0, ext w0 (target t) = value_before t) → ext r.1 (target t) = value_before t).
Proof.
  unfold restoreExternal. destruct t as [b a s|reg b a rs s]; cbn [target value_before].
  - destruct (write_hooks_law b None w) as (H1 & H2 & H3). split_and!; [done| |].
    + intros [n|] Hn; [|done]. cbn. by rewrite H2.
    + intros Hr [w0 Hw]. cbn in *. injection Hw as <-. by rewrite (H3 Hr), hooks_set.
  - destruct (restore_law reg b w) as (H1 & [H2 H3] & H4). split_and!; [done| |].
    + intros [n|] Hn; cbn; [rewrite H3; congruence|congruence].
    + intros Hr [w0 Hw]. cbn in *. f_equal. eapply (H4 Hr). by injection Hw.
Qed.

(** *** Undoing *)

Lemma undo_at_snoc attempts t (f g e0 : Target → Value) x :
  e0 (target t) = value_before t → (∀ y, y ≠ target t → g y = f y) →
  undo_at attempts f x = e0 x → undo_at (attempts ++ [t]) g x = e0 x.
Proof.
  intros He Hg. unfold undo_at. rewrite find_app. destruct (find _ attempts); [done|]. cbn.
  case_bool_decide as Ht; [by rewrite <-Ht|]. by rewrite Hg.
Qed.
Lemma undo_at_ext attempts (f g : Target → Value) x : g x = f x → undo_at attempts g x = undo_at attempts f x.
Proof. unfold undo_at. by destruct (find _ attempts). Qed.

(** A transition planned on what was there at the start. *)
Definition planned (w0 : W) (t : SystemIntegrationTransition) : Prop := ext w0 (target t) = value_before t.
(** The files are at [c1], and undoing the attempts leads back to the start on the good targets. *)
Record rewinds (good : Target → Prop) (w0 : W) (c1 : Contents) (s : Progress * W) : Prop := mkRewinds {
  rewinds_files : exec_contents s.2 = c1;
  rewinds_planned : ∀ t, t ∈ attempted s.1 → planned w0 t;
  rewinds_targets : ∀ x, good x → undo_at (attempted s.1) (ext s.2) x = ext w0 x
}.
Lemma rewinds_kept good w0 c1 p w w' : exec_contents w' = exec_contents w → kept w w' →
  rewinds good w0 c1 (p, w) → rewinds good w0 c1 (p, w').
Proof.
  intros Hc Hk [H1 H2 H3]. split; cbn [fst snd] in *; [congruence|done|]. intros x Hx.
  rewrite (undo_at_ext _ (ext w)); [auto|]. by apply kept_seen.
Qed.

Definition hooks_after (h : option string) (t : SystemIntegrationTransition) : option string :=
  match t with git_hooks_path _ a _ => set_path a | service _ _ _ _ _ => h end.

Lemma attempt_spec good w0 c1 t s :
  rewinds good w0 c1 s → planned w0 t →
  let r := attempt services git t s in
  rewinds good w0 c1 r.1
  ∧ attempted r.1.1 = attempted s.1 ++ [t] ∧ degraded_ r.1.1 = degraded_ s.1 ∧ fileResult r.1.1 = fileResult s.1
  ∧ (∀ x, x ≠ target t → ext r.1.2 x = ext s.2 x)
  ∧ match r.2 with
    | Ok _ => applied_ r.1.1 = S (applied_ s.1) ∧ hooks r.1.2 = hooks_after (hooks s.2) t
    | Err _ => applied_ r.1.1 = applied_ s.1
    end.
Proof.
  destruct s as [p w]. intros [Hc Hp Hu] Hb. unfold attempt, push, count, mseq, in_world, in_local. cbn [fst snd] in *.
  destruct (apply_spec t w) as (H1 & H2 & H3).
  destruct (applyExternal services git t w) as [w' [[]|e]]; cbn [fst snd attempted degraded_ fileResult applied_] in *;
    (split_and!; [|done..|]); try done.
  2: by apply H3.
  all: split; cbn [fst snd attempted]; [by rewrite H1| |intros x Hx; eapply undo_at_snoc; eauto].
  all: intros y [Hy| ->%list_elem_of_singleton]%elem_of_app; auto.
Qed.

(** Restoring in reverse, with every error collected. *)
Lemma restore_one_spec errors t w0 w : planned w0 t →
  ∃ w' errors', restore_one services git errors t w = (w', Ok errors')
  ∧ exec_contents w' = exec_contents w
  ∧ (errors' = [] → errors = [] ∧ ∀ x, ext w' x = if bool_decide (target t = x) then value_before t else ext w x).
Proof.
  intros Hp. unfold restore_one. destruct (restore_spec t w) as (H1 & H2 & H3).
  destruct (restoreExternal services git t w) as [w' [[]|e]]; cbn [fst snd] in *; eexists _, _; split_and!; try done.
  - intros ->. split; [done|]. intros x. case_bool_decide as Ht; [rewrite <-Ht|]; eauto.
  - by intros [? ?]%app_nil.
Qed.

Lemma rollback_fold l errors w0 w : (∀ t, t ∈ l → planned w0 t) →
  ∃ w' errors', mfold (restore_one services git) errors l w = (w', Ok errors')
  ∧ exec_contents w' = exec_contents w
  ∧ (errors' = [] → errors = [] ∧ ∀ x, ext w' x = undo_at (rev l) (ext w) x).
Proof.
  revert errors w. induction l as [|t l IH]; intros errors w Hl; [by exists w, errors|].
  destruct (restore_one_spec errors t w0 w) as (w1 & e1 & H1 & Hc & Hn); [apply Hl; by left|]. cbn [mfold]. unfold mseq. rewrite H1.
  destruct (IH e1 w1) as (w2 & e2 & H2 & Hk & Hm); [intros; apply Hl; by right|]. exists w2, e2. split_and!; [done|congruence|].
  intros He. destruct (Hm He) as [H3 H4]. destruct (Hn H3) as [H5 H6]. split; [done|]. intros x.
  rewrite H4. unfold undo_at. cbn [rev]. rewrite find_app. destruct (find _ (rev l)); [done|].
  rewrite H6. cbn. by case_bool_decide.
Qed.

Lemma rollback_spec good w0 c1 p w :
  rewinds good w0 c1 (p, w) →
  ∃ w' errors, rollbackExternal services git (attempted p) w = (w', Ok errors)
  ∧ exec_contents w' = c1 ∧ (errors = [] → ∀ x, good x → ext w' x = ext w0 x).
Proof.
  intros [Hc Hp Hu]. cbn [fst snd] in *. unfold rollbackExternal.
  destruct (rollback_fold (rev (attempted p)) [] w0 w) as (w' & errors & -> & H1 & H2).
  { intros t Ht. apply Hp. apply list_elem_of_In, in_rev, list_elem_of_In in Ht. done. }
  exists w', errors. split_and!; [done|congruence|]. intros He x Hx. destruct (H2 He) as [_ H3].
  by rewrite H3, rev_involutive, Hu.
Qed.

(** *** Activation *)

(** The good targets: the hooks path, and every service if restoring one never fails. *)
Definition restores : Prop := ∀ reg b w, (restore services reg b w).2 = Ok tt.
Definition good_target (x : Target) : Prop := x = None ∨ restores.

Lemma activate_one_eq u t p w :
  activate_one services git u t (p, w) =
  match verifyExternalPrecondition services git t w with
  | (w1, Err e) => ((p, w1), Err e)
  | (w1, Ok _) =>
      match t, attempt services git t (p, w1) with
      | service _ _ _ _ _, ((p2, w2), Err e) =>
          ((mkProgress (fileResult p2) (removelast (attempted p2))
              (degraded_ p2 ++ ["the resident watcher could not be activated: " +:+ exn_message e]) (applied_ p2),
            (restoreExternal services git t w2).1), Ok tt)
      | _, r => r
      end
  end.
Proof.
  unfold activate_one. unfold mseq at 1. unfold in_world at 1. cbn [fst snd].
  destruct (verifyExternalPrecondition services git t w) as [w1 [[]|e]]; [|done].
  cbn [fst snd]. destruct t; destruct (attempt services git _ (p, w1)) as [[p2 w2] [[]|e]]; done.
Qed.

Lemma activate_one_spec w0 c1 u t s :
  rewinds good_target w0 c1 s → planned w0 t →
  let r := activate_one services git u t s in
  rewinds good_target w0 c1 r.1 ∧ fileResult r.1.1 = fileResult s.1
  ∧ (r.2 = Ok tt → applied_ r.1.1 + length (degraded_ r.1.1) = S (applied_ s.1 + length (degraded_ s.1))
       ∧ hooks r.1.2 = hooks_after (hooks s.2) t
       ∧ (target t = None → degraded_ r.1.1 = degraded_ s.1)).
Proof.
  destruct s as [p w]. intros Hrew Hpl. rewrite activate_one_eq.
  cbn [fst snd] in *. destruct (verify_spec t w) as [H1 H2].
  destruct (verifyExternalPrecondition services git t w) as [w1 [[]|e]]; cbn [fst snd] in *;
    pose proof (rewinds_kept _ _ _ _ _ _ H1 H2 Hrew) as Hrew1; [|split_and!; done].
  assert (hooks w1 = hooks w) as Hh by apply H2.
  destruct (attempt_spec good_target w0 c1 t (p, w1) Hrew1 Hpl) as (A1 & A2 & A3 & A4 & A5 & A6).
  cbn [fst snd] in *. destruct t as [b a sm|reg b a rs sm]; cbn [target value_before hooks_after] in *.
  - split_and!; [done..|]. intros Hr. rewrite Hr in A6. destruct A6 as [A6 A7].
    rewrite A3, A6, A7. split_and!; [lia|done|done].
  - destruct (attempt services git _ (p, w1)) as [[p2 w2] [[]|e]]; cbn [fst snd] in *.
    { split_and!; [done..|]. intros _. destruct A6 as [A6 A7]. rewrite A3, A6, A7.
      split_and!; [lia|done|done]. }
    cbn [fst snd attempted degraded_ fileResult applied_]. rewrite A2, A3, A4, A6, removelast_last.
    destruct (restore_spec (service reg b a rs sm) w2) as (R1 & R2 & R3). cbn [target value_before] in *.
    set (w3 := (restoreExternal services git _ w2).1) in *.
    assert (∀ x, x ≠ Some (service_id reg) → ext w3 x = ext w1 x) as Hoff by (intros x Hx; by rewrite R2, A5 by done).
    split_and!; [|done|].
    + destruct A1 as [A1 _ _], Hrew1 as [_ Hp1 Hu1]. split; cbn [fst snd attempted] in *; [congruence|done|]. intros x Hx.
      rewrite <-(Hu1 x Hx). destruct (decide (x = Some (service_id reg))) as [->|Hne]; [|by apply undo_at_ext, Hoff].
      destruct Hx as [?|Hrs]; [done|]. rewrite (Hu1 (Some (service_id reg))) by (by right). specialize (Hu1 (Some (service_id reg)) ltac:(by right)).
      unfold undo_at in *. destruct (find _ (attempted p)); [done|]. rewrite R3; [symmetry; apply Hpl|apply Hrs|by exists w0].
    + intros _. rewrite length_app. cbn [length]. split_and!; [lia| |done].
      specialize (Hoff None ltac:(done)). cbn in Hoff. congruence.
Qed.

Lemma activate_fold w0 c1 ts s :
  rewinds good_target w0 c1 s → (∀ t, t ∈ ts → planned w0 t) →
  let r := mfold (activate_one services git) tt ts s in
  rewinds good_target w0 c1 r.1 ∧ fileResult r.1.1 = fileResult s.1
  ∧ (r.2 = Ok tt → applied_ r.1.1 + length (degraded_ r.1.1) = applied_ s.1 + length (degraded_ s.1) + length ts
       ∧ hooks r.1.2 = fold_left hooks_after ts (hooks s.2)
       ∧ ((∀ t, t ∈ ts → target t = None) → degraded_ r.1.1 = degraded_ s.1)).
Proof.
  revert s. induction ts as [|t ts IH]; intros s Hs Hts; cbn [mfold].
  { split; [done|]. split; [done|]. intros _. cbn. split_and!; [lia|done|done]. }
  destruct (activate_one_spec w0 c1 tt t s Hs (Hts t ltac:(by left))) as (H1 & H2 & H3). unfold mseq.
  destruct (activate_one services git tt t s) as [s1 [[]|e]]; cbn [fst snd] in *; [|done].
  destruct (IH s1 H1 (λ x Hx, Hts x ltac:(by right))) as (H4 & H5 & H6). split_and!; [done|congruence|]. intros Hr.
  destruct (H3 eq_refl) as (Ha & Hb & Hc). destruct (H6 Hr) as (Hd & He & Hf). split_and!.
  - cbn [length]. lia.
  - by rewrite He, Hb.
  - intros Ht. rewrite Hf by (intros; apply Ht; by right). apply Hc, Ht. by left.
Qed.
(** *** Deactivation *)

Definition any_target (x : Target) : Prop := True.

Lemma deactivate_one_spec w0 c1 u t s :
  rewinds any_target w0 c1 s → planned w0 t →
  let r := deactivate_one services git u t s in
  rewinds any_target w0 c1 r.1
  ∧ (r.2 = Ok tt → hooks r.1.2 = hooks_after (hooks s.2) t).
Proof.
  destruct s as [p w]. intros Hrew Hpl. unfold deactivate_one, push, mseq, in_world, in_local. cbn [fst snd] in *.
  destruct (verify_spec t w) as [H1 H2].
  destruct (verifyExternalPrecondition services git t w) as [w1 [[]|e]]; cbn [fst snd] in *;
    pose proof (rewinds_kept _ _ _ _ _ _ H1 H2 Hrew) as Hrew1; [|done].
  destruct (apply_spec t w1) as (A1 & A2 & A3). destruct Hrew1 as [Hc Hp Hu]. assert (hooks w1 = hooks w) as Hh by apply H2.
  destruct (applyExternal services git t w1) as [w2 r]; cbn [fst snd attempted] in *. split.
  - split; cbn [fst snd attempted]; [congruence| |].
    + intros y [Hy| ->%list_elem_of_singleton]%elem_of_app; auto.
    + intros x Hx. eapply undo_at_snoc; eauto.
  - intros Hr. rewrite (A3 Hr). by destruct t.
Qed.

Lemma deactivate_fold w0 c1 ts s :
  rewinds any_target w0 c1 s → (∀ t, t ∈ ts → planned w0 t) →
  let r := mfold (deactivate_one services git) tt ts s in
  rewinds any_target w0 c1 r.1
  ∧ (r.2 = Ok tt → hooks r.1.2 = fold_left hooks_after ts (hooks s.2)).
Proof.
  revert s. induction ts as [|t ts IH]; intros s Hs Hts; cbn [mfold]; [done|].
  destruct (deactivate_one_spec w0 c1 tt t s Hs (Hts t ltac:(by left))) as [H1 H2]. unfold mseq.
  destruct (deactivate_one services git tt t s) as [s1 [[]|e]]; cbn [fst snd] in *; [|done].
  destruct (IH s1 H1 (λ x Hx, Hts x ltac:(by right))) as [H3 H4]. split; [done|]. intros Hr. cbn [fold_left]. by rewrite H4, H2.
Qed.

(** *** The two orders *)

(** Nothing has changed, or the error says that it has. *)
Definition undone (good : Target → Prop) (w w' : W) (e : exn) : Prop :=
  is_aggregate e ∨ (exec_contents w' = exec_contents w ∧ ∀ x, good x → ext w' x = ext w x).

Lemma rollback_undone good w p w1 e :
  rewinds good w (exec_contents w) (p, w1) →
  let r := (let* errors := rollbackExternal services git (attempted p) in
            mlift (A := unit) (Err (throwRollbackAware e errors))) w1 in
  ∃ e', r.2 = Err e' ∧ undone good w r.1 e'.
Proof.
  intros Hr. destruct (rollback_spec _ _ _ _ _ Hr) as (w2 & errors & H1 & H2 & H3). cbv zeta. unfold mseq.
  rewrite H1. eexists. split; [done|]. destruct errors as [|e1 errors]; [right; split; auto|].
  left. by eexists _, _.
Qed.

(** Putting the files back after the targets. *)
Definition undo_files (plan : ProtectionInstallationPlan) (errors : list exn) : M W (list exn) :=
  if 0 <? length (changes (filePlan plan)) then
    λ w, match files (invertPlan (filePlan plan)) w with
         | (w', Ok _) => (w', Ok errors)
         | (w', Err e') => (w', Ok (errors ++ [e']))
         end
  else mok errors.

Lemma undo_files_spec plan errors m w :
  fits (changes (filePlan plan)) m → exec_contents w = effect (changes (filePlan plan)) m →
  ∃ w' errors', undo_files plan errors w = (w', Ok errors') ∧ kept w w'
  ∧ (errors' = [] → errors = [] ∧ exec_contents w' = m).
Proof.
  intros Hf Hw. unfold undo_files. destruct (Nat.ltb_spec 0 (length (changes (filePlan plan)))) as [_|Hl].
  - pose proof (files_keep (invertPlan (filePlan plan)) w) as Hk.
    pose proof (λ out, exec_ok (invertPlan (filePlan plan)) w out) as Hok.
    destruct (files (invertPlan (filePlan plan)) w) as [w' [out|e]]; cbn [fst snd] in *; eexists _, _; split_and!; try done.
    + intros He. split; [done|]. destruct (Hok out eq_refl) as (_ & _ & -> & _).
      by rewrite effect_invert, Hw, undo_effect.
    + by intros [? ?]%app_nil.
  - exists w, errors. split_and!; [done..|]. intros He. split; [done|]. rewrite Hw.
    destruct (changes (filePlan plan)); [done|cbn in Hl; lia].
Qed.

Lemma activateOrRepair_spec plan w : (∀ t, t ∈ externalChanges plan → planned w t) →
  let r := activateOrRepair files services git plan w in
  match r.2 with
  | Ok out => fits (changes (filePlan plan)) (exec_contents w)
      ∧ exec_contents r.1 = effect (changes (filePlan plan)) (exec_contents w)
      ∧ filesApplied out = length (changes (filePlan plan))
      ∧ hooks r.1 = fold_left hooks_after (externalChanges plan) (hooks w)
      ∧ externalApplied out + length (degraded out) = length (externalChanges plan)
      ∧ ((∀ t, t ∈ externalChanges plan → target t = None) → degraded out = [])
  | Err e => undone good_target w r.1 e
  end.
Proof.
  intros Hpl. destruct (activateOrRepair files services git plan w) as [wf r] eqn:E. cbn [fst snd]. revert E.
  unfold activateOrRepair. unfold mseq at 1. unfold in_world at 1. cbn [fst snd].
  pose proof (λ out, exec_ok (filePlan plan) w out) as Hok. pose proof (λ e, exec_err (filePlan plan) w e) as Herr.
  pose proof (files_keep (filePlan plan) w) as Hkeep.
  destruct (files (filePlan plan) w) as [w1 [res|e]]; cbn [fst snd] in *.
  2:{ destruct (Herr e eq_refl) as [He|He]; cbn; intros [= <- <-]; [right|by left]. split; [done|]. intros x _. by apply kept_seen. }
  destruct (Hok res eq_refl) as (_ & Hfits & Heff & Happ). assert (hooks w1 = hooks w) as Hh by apply Hkeep.
  unfold mseq at 1, set_files, in_local. cbn [fst snd attempted degraded_ applied_]. unfold mseq at 1.
  destruct (activate_fold w (exec_contents w1) (externalChanges plan) (mkProgress (Some res) [] [] 0, w1))
    as (Hrew & Hres & Hrun); [|done|].
  { split; [done|by intros t Ht%elem_of_nil|]. intros x _. by apply kept_seen. }
  destruct (mfold _ tt _ _) as [[p w2] [[]|e]]; cbn [fst snd fileResult applied_ degraded_] in *.
  - destruct (Hrun eq_refl) as (Hn & Hho & Hd). destruct Hrew as [Hc _ _]. cbn [fst snd] in *. intros [= <- <-]. cbn.
    cbn [length Nat.add] in Hn. split_and!; [done|congruence|done|congruence|exact Hn|exact Hd].
  - rewrite Hres. destruct (rollback_spec _ _ _ _ _ Hrew) as (w3 & errors & H1 & H2 & H3).
    unfold mseq at 1. rewrite H1. cbn [fst snd]. fold (undo_files plan errors).
    destruct (undo_files_spec plan errors (exec_contents w) w3) as (w4 & errors' & H4 & H5 & H6); [done|congruence|].
    unfold mseq. rewrite H4. intros [= <- <-]. destruct errors' as [|e1 errors']; [|left; by eexists _, _].
    destruct (H6 eq_refl) as [H7 H8]. right. split; [done|]. intros x Hx. rewrite (kept_seen _ _ _ _ H5). by apply H3.
Qed.

Lemma deactivate_spec plan w : (∀ t, t ∈ externalChanges plan → planned w t) →
  let r := deactivate_ files services git plan w in
  match r.2 with
  | Ok out => fits (changes (filePlan plan)) (exec_contents w)
      ∧ exec_contents r.1 = effect (changes (filePlan plan)) (exec_contents w)
      ∧ filesApplied out = length (changes (filePlan plan))
      ∧ hooks r.1 = fold_left hooks_after (externalChanges plan) (hooks w)
      ∧ externalApplied out = length (externalChanges plan) ∧ degraded out = []
  | Err e => undone any_target w r.1 e
  end.
Proof.
  intros Hpl. destruct (deactivate_ files services git plan w) as [wf r] eqn:E. cbn [fst snd]. revert E.
  unfold deactivate_. unfold mseq at 1.
  destruct (deactivate_fold w (exec_contents w) (externalChanges plan) (mkProgress None [] [] 0, w))
    as [Hrew Hrun]; [by split; [|intros t Ht%elem_of_nil|]|done|].
  destruct (mfold _ tt _ _) as [[p w1] [[]|e]]; cbn [fst snd] in *.
  2:{ destruct (rollback_undone any_target w p w1 e Hrew) as (e' & H1 & H2).
      unfold mseq in *. destruct (rollbackExternal _ _ _ _) as [w2 [errors|?]]; cbn in *;
      intros [= <- <-]; by injection H1 as <-. }
  unfold in_world. cbn [fst snd].
  pose proof (λ out, exec_ok (filePlan plan) w1 out) as Hok. pose proof (λ e, exec_err (filePlan plan) w1 e) as Herr.
  pose proof (files_keep (filePlan plan) w1) as Hkeep. destruct Hrew as [Hc Hp Hu]. cbn [fst snd] in *.
  destruct (files (filePlan plan) w1) as [w2 [res|e]]; cbn [fst snd] in *.
  - destruct (Hok res eq_refl) as (_ & Hfits & Heff & Happ). intros [= <- <-]. rewrite <-Hc.
    assert (hooks w2 = hooks w1) as Hh by apply Hkeep.
    split_and!; [done|done|done|by rewrite Hh, Hrun|done|done].
  - destruct (rollback_fold (rev (attempted p)) [] w w2) as (w3 & errors & H1 & H2 & H3).
    { intros t Ht. apply Hp. apply list_elem_of_In, in_rev, list_elem_of_In in Ht. done. }
    unfold mseq, rollbackExternal. rewrite H1. intros [= <- <-].
    destruct errors as [|e1 errors]; [|left; by eexists _, _]. destruct (H3 eq_refl) as [_ H4].
    destruct (Herr e eq_refl) as [He|He]; [right|by left]. split; [congruence|].
    intros x Hx. rewrite H4, rev_involutive, (undo_at_ext _ (ext w1)) by (by apply kept_seen). by apply Hu.
Qed.
End start.

(** What the plan says was there was there. *)
Lemma verify_all_spec ts w :
  let r := verifyExternalPreconditions services git ts w in
  exec_contents r.1 = exec_contents w ∧ kept w r.1
  ∧ (r.2 = Ok tt → ∀ t, t ∈ ts → planned (exec_contents w) w t).
Proof.
  set (I := λ w', exec_contents w' = exec_contents w ∧ kept w w').
  enough (yields I (verifyExternalPreconditions services git ts) (λ _, ∀ t, t ∈ ts → planned (exec_contents w) w t)) as H.
  { destruct (H w) as [[H1 H2] H3]; [by split; [|split]|]. split_and!; [done..|]. intros Hr. by apply (H3 tt). }
  apply yields_seq with (P := λ acc, map fst acc = ts ∧ ∀ t, (t, true) ∈ acc → planned (exec_contents w) w t).
  - apply (yields_fold I _ ts (λ d acc, map fst acc = d ∧ ∀ t, (t, true) ∈ acc → planned (exec_contents w) w t));
      [|split; [done|by intros t ?%elem_of_nil]]. intros d t acc _ [Hd Hacc].
    apply yields_seq with (P := λ ok, ok = true → planned (exec_contents w) w t).
    + intros w' [Hc Hk]. destruct (matches_spec t w') as (H1 & H2 & H3). split.
      * split; [congruence|]. destruct Hk, H2. split; [congruence|]. intros n. congruence.
      * intros ok Hok ->. unfold planned. by rewrite <-(kept_seen w w'), <-Hc, H3.
    + intros ok Hok. apply yields_ok. split; [by rewrite map_app, Hd|].
      intros x [Hx|Hx%list_elem_of_singleton]%elem_of_app; [by apply Hacc|]. injection Hx as -> <-. by apply Hok.
  - intros l [Hl Hok]. destruct (find _ l) as [[]|] eqn:Ef; [by apply yields_lift|]. apply yields_ok. intros t Ht.
    rewrite <-Hl in Ht. apply list_elem_of_fmap in Ht as ([t' ok] & -> & Ht). apply Hok.
    pose proof Ht as Hin. apply list_elem_of_In in Hin. pose proof (find_none _ _ Ef _ Hin) as Hb. cbn in Hb.
    apply negb_false_iff in Hb as ->. exact Ht.
Qed.

(** C10. The files, the global hooks path and the resident services change together. A
    returned result means there was no conflict, every file change found the text it was
    planned on and all of them are in place, the hooks path is the one the plan sets last
    (none for an empty one), and every external change was applied or, for a service that could not be started,
    named in [degraded] (never when deactivating, never for the hooks path). An error that
    is not the aggregate naming a failed restoration means the files and the hooks path
    are as they were, and the services look as they did, when deactivating or when
    restoring a service does not fail. Of the executor of the files it is relied on that it
    touches neither git nor the service manager; the status of a service may follow the
    files, as that of a systemd unit does. Of the controllers, that they touch no file and
    no other service, and that a status restored without an error is what is then seen. *)
Theorem protection_transaction plan w :
  let r := execute files services git plan w in
  match r.2 with
  | Ok out => plan_conflicts plan = [] ∧ fits (changes (filePlan plan)) (exec_contents w)
      ∧ exec_contents r.1 = effect (changes (filePlan plan)) (exec_contents w)
      ∧ filesApplied out = length (changes (filePlan plan))
      ∧ hooks r.1 = fold_left hooks_after (externalChanges plan) (hooks w)
      ∧ externalApplied out + length (degraded out) = length (externalChanges plan)
      ∧ (plan_operation plan = deactivate ∨ (∀ t, t ∈ externalChanges plan → target t = None) →
         degraded out = [])
  | Err e => is_aggregate e
      ∨ (exec_contents r.1 = exec_contents w ∧ hooks r.1 = hooks w
         ∧ (plan_operation plan = deactivate ∨ restores → ∀ reg, status r.1 reg = status w reg))
  end.
Proof.
  assert (∀ (good : Target → Prop) w' w'' e, good None → exec_contents w' = exec_contents w → kept w w' →
    undone (exec_contents w) good w' w'' e → is_aggregate e ∨ (exec_contents w'' = exec_contents w ∧ hooks w'' = hooks w
      ∧ ((∀ n, good (Some n)) → ∀ reg, status w'' reg = status w reg))) as Hun.
  { intros good w' w'' e Hg Hc Hk [?|[H1 H2]]; [by left|right]. split_and!; [congruence| |].
    - specialize (H2 None Hg). rewrite (kept_seen _ _ _ _ Hk) in H2. by injection H2.
    - intros Hs reg. specialize (H2 _ (Hs (service_id reg))). rewrite (kept_seen _ _ _ _ Hk) in H2. injection H2 as H2.
      unfold status. by rewrite H1, Hc, H2. }
  destruct (execute files services git plan w) as [wf r] eqn:E. cbn [fst snd]. revert E. unfold execute.
  destruct (Nat.ltb_spec 0 (length (plan_conflicts plan))) as [|Hcf]; [intros [= <- <-]; by auto|].
  assert (plan_conflicts plan = []) as -> by (destruct (plan_conflicts plan); [done|cbn in Hcf; lia]).
  destruct (verify_all_spec (externalChanges plan) w) as (Hc & Hk & Hpl). unfold mseq at 1.
  destruct (verifyExternalPreconditions services git _ w) as [w1 [[]|e]]; cbn [fst snd] in *.
  2:{ intros [= <- <-]. destruct (Hun any_target w w1 e) as [?|(H1 & H2 & H3)]; [done|done|by split| |by left|].
      { right. split; [done|]. intros x _. by apply kept_seen. }
      right. split_and!; [done..|]. intros _. by apply H3. }
  assert (hooks w1 = hooks w) as Hh by apply Hk.
  assert (∀ t, t ∈ externalChanges plan → planned (exec_contents w1) w1 t) as Hpl1.
  { intros t Ht. unfold planned. rewrite (kept_seen _ _ _ _ Hk), Hc. by apply Hpl. }
  rewrite <-Hc, <-Hh. case_bool_decide as Hop; intros E; revert E.
  - pose proof (deactivate_spec (exec_contents w1) plan w1 Hpl1) as Hd. intros E. rewrite E in Hd. cbn [fst snd] in Hd.
    destruct r as [out|e].
    + destruct Hd as (? & ? & ? & ? & Ha & Hdg). rewrite Ha, Hdg. cbn. split_and!; [done..|lia|done].
    + rewrite Hc in Hd |- *. rewrite Hh. destruct (Hun any_target w1 wf e) as [?|(H1 & H2 & H3)]; [done..|by left|].
      right. split_and!; [done..|]. intros _. by apply H3.
  - pose proof (activateOrRepair_spec (exec_contents w1) plan w1 Hpl1) as Ha. intros E. rewrite E in Ha. cbn [fst snd] in Ha.
    destruct r as [out|e].
    + destruct Ha as (? & ? & ? & ? & ? & Hg). split_and!; [done..|]. intros [?|?]; [done|]. by apply Hg.
    + rewrite Hc in Ha |- *. rewrite Hh. destruct (Hun good_target w1 wf e) as [?|(H1 & H2 & H3)]; [by left|done..|by left|].
      right. split_and!; [done..|]. intros [?|Hr]; [done|]. apply H3. intros reg. by right.
Qed.
End laws.

(** A machine in memory: files, the hooks path, the services, and a service manager that
    may refuse to start anything. *)
Module Machines.
Record Machine := mkMachine {
  disk : Contents;
  hooksPath : option string;
  running : string → ServiceStatus;
  manager : bool
}.
Definition on_disk (f : Contents → Contents) : M Machine unit := λ w,
  (mkMachine (f (disk w)) (hooksPath w) (running w) (manager w), Ok tt).
Definition files : FileSystem Machine :=
  mkFileSystem Machine (λ p w, (w, Ok (disk w !! AbsolutePath.value p)))
    (λ p t _, on_disk (λ m, put m (AbsolutePath.value p) (Some t)))
    (λ p, on_disk (λ m, put m (AbsolutePath.value p) None))
    (λ p w, (w, Ok (stat_of (disk w !! AbsolutePath.value p)))) no_listing.
Definition put_status (reg : ServiceRegistration) (s : ServiceStatus) : M Machine unit := λ w,
  (mkMachine (disk w) (hooksPath w) (λ n, if decide (n = service_id reg) then s else running w n) (manager w), Ok tt).
Definition start (reg : ServiceRegistration) (s : ServiceStatus) : M Machine unit := λ w,
  if manager w then put_status reg s w else (w, throw "no user service manager").
Definition up : ServiceStatus := mkServiceStatus true true true.
Definition down : ServiceStatus := mkServiceStatus false false false.
Definition services : ServiceController Machine :=
  mkServices Machine (λ reg w, (w, Ok (running w (service_id reg))))
    (λ reg d _, start reg (if bool_decide (d = desired_active) then up else down))
    (λ reg _, start reg up) put_status.
Definition git : GitConfigurationController Machine :=
  mkGit Machine (λ w, (w, Ok (set_path (hooksPath w))))
    (λ p expected w,
      if bool_decide (expected = None ∨ expected = Some (set_path (hooksPath w)))
      then (mkMachine (disk w) p (running w) (manager w), Ok tt)
      else (w, throw "core.hooksPath changed")).

#[global] Instance file_laws : FileLaws files.
Proof.
  exists disk.
  - intros p w. split; [done|]. by intros t [= <-].
  - intros p t md w. split; [|done]. intros q Hq. by apply lookup_put_ne.
  - intros p w. split; [|done]. intros q Hq. by apply lookup_put_ne.
Defined.

Definition executor : InstallationExecutor Machine := TransactionalInstallationExecutor.execute files.

Lemma executor_keeps plan w : hooksPath (executor plan w).1 = hooksPath w ∧ ∀ n, running (executor plan w).1 n = running w n.
Proof.
  assert (yields (λ w', hooksPath w' = hooksPath w ∧ ∀ n, running w' n = running w n) (executor plan) (λ _, True)) as H.
  { apply execute_keeps; intros; by intros w' Hw'. }
  by apply H.
Qed.
Lemma put_status_law reg s w :
  disk (put_status reg s w).1 = disk w ∧ hooksPath (put_status reg s w).1 = hooksPath w
  ∧ (∀ n, n ≠ service_id reg → running (put_status reg s w).1 n = running w n)
  ∧ running (put_status reg s w).1 (service_id reg) = s.
Proof. split_and!; [done..| |]; cbn; [intros n Hn; by rewrite decide_False|by rewrite decide_True]. Qed.
Lemma start_law reg s w :
  disk (start reg s w).1 = disk w ∧ hooksPath (start reg s w).1 = hooksPath w
  ∧ ∀ n, n ≠ service_id reg → running (start reg s w).1 n = running w n.
Proof. unfold start. destruct (manager w); [split_and!; apply put_status_law|done]. Qed.

#[global] Instance laws : ExternalLaws executor services git.
Proof.
  refine {| Managed := ServiceStatus; hooks := λ w, set_path (hooksPath w); managed := running; observe := λ _ _ s, s |}.
  - intros w. by destruct (hooksPath w) as [[]|].
  - intros p w. destruct (executor_keeps p w) as [-> ?]. done.
  - intros reg w. split_and!; [done..|]. by intros s [= <-].
  - intros w. split_and!; [done..|]. by intros h [= <-].
  - intros p expected w. cbn. case_bool_decide; cbn; by split_and!.
  - intros reg d b w. destruct (start_law reg (if bool_decide (d = desired_active) then up else down) w) as (H1 & H2 & H3).
    split_and!; [exact H1|exact (f_equal set_path H2)|exact H3].
  - intros reg b w. destruct (start_law reg up w) as (H1 & H2 & H3). split_and!; [exact H1|exact (f_equal set_path H2)|exact H3].
  - intros reg b w. destruct (put_status_law reg b w) as (H1 & H2 & H3 & H4).
    split_and!; [exact H1|exact (f_equal set_path H2)|exact H3|]. intros _ c m _. exact H4.
Defined.

Definition watcher : ServiceRegistration :=
  mkRegistration Platform.Darwin "watch" (AbsolutePath.posix_path ["home"; "u"; "watch.plist"]).
Definition plan (op : InstallationOperation) : ProtectionInstallationPlan :=
  mkProtectionPlan op false false FailingFiles.plan
    [git_hooks_path None (Some "/home/u/.hooks") "hooks"; service watcher down desired_active false "watcher"] [].
Definition machine (manager : bool) : Machine := mkMachine FailingFiles.start None (λ _, down) manager.
Definition run (op : InstallationOperation) (w : Machine) : Machine * result ProtectionInstallationExecutionResult :=
  TransactionalProtectionInstallationExecutor.execute executor services git (plan op) w.

Definition refused : string :=
  "the resident watcher could not be activated: no user service manager".
Example machine_outcomes :
  (run activate (machine true)).2 = Ok (mkProtectionResult 2 2 [])
  ∧ (run activate (machine false)).2 = Ok (mkProtectionResult 2 1 [refused])
  ∧ running (run activate (machine true)).1 "watch" = up
  ∧ (run deactivate (machine false)).2 = throw "no user service manager"
  ∧ hooksPath (run deactivate (machine false)).1 = None.
Proof. split_and!; vm_compute; reflexivity. Qed.
End Machines.

Lemma protection_transaction_witness :
  Machines.hooksPath (Machines.run activate (Machines.machine false)).1 = Some "/home/u/.hooks"
  ∧ Machines.disk (Machines.run deactivate (Machines.machine false)).1 = FailingFiles.start.
Proof.
  split.
  - pose proof (protection_transaction Machines.executor Machines.services Machines.git
      (Machines.plan activate) (Machines.machine false)) as H.
    pose proof (proj1 (proj2 Machines.machine_outcomes)) as E. unfold Machines.run in *.
    cbv zeta in H. rewrite E in H. destruct H as (_ & _ & _ & _ & H & _). etransitivity; [exact H|reflexivity].
  - pose proof (protection_transaction Machines.executor Machines.services Machines.git
      (Machines.plan deactivate) (Machines.machine false)) as H.
    pose proof (proj1 (proj2 (proj2 (proj2 Machines.machine_outcomes)))) as E. unfold Machines.run in *.
    cbv zeta in H. rewrite E in H. destruct H as [(errors & m & [=])|[H _]]. exact H.
Defined.
