(* ===== verification/Services.v ===== *)
(** * Application services (src/application/services/)

    The programs that schedule others: a pool of workers, a log that keeps its order, and a
    job that never overlaps itself. Each is a machine whose moves are the turns of the event
    loop, so that every interleaving the promises allow is a path of the machine. *)

From S2P Require Import Prelude JsString JsNumber Entities Ports.

(** ** The pool (BoundedConcurrency.ts)

    [outcome i] is how the operation on item [i] settles; the order in which the pending
    operations settle is free. *)

Module BoundedConcurrency.

Inductive Worker := busy (index : nat) | finished | failed (index : nat) (e : exn).
#[global] Instance Worker_eq_dec : EqDecision Worker.
Proof. solve_decision. Defined.
Record Pool (R : Type) := mkPool {
  cursor : nat;
  results : list (option R);
  workers : list Worker;
  calls : list nat;
  rejected : option exn
}.
Arguments mkPool {R} _ _ _ _ _. Arguments cursor {R} _. Arguments results {R} _.
Arguments workers {R} _. Arguments calls {R} _. Arguments rejected {R} _.

Definition MAX_SAFE_INTEGER : Z := 9007199254740991.
Definition valid_limit (n : JsNumber) : bool :=
  match n with Int z => (Z.abs z <=? MAX_SAFE_INTEGER)%Z && (1 <=? z)%Z | _ => false end.
(** [String(n)]; the sign of an infinity is not kept. *)
Definition number_text (n : JsNumber) : string :=
  match n with NotFinite true => "NaN" | NotFinite false => "Infinity" | _ => JSON_number n end.
Definition limit (n : JsNumber) : nat := match n with Int z => Z.to_nat z | _ => 0 end.

Section pool.
Context {R : Type} (n : nat).
Implicit Types (p : Pool R).

(** The head of a worker's loop: the next item, if there is one, is started. *)
Definition next (cur : nat) : Worker := if cur <? n then busy cur else finished.
Definition start_item p (ws : list Worker) : Pool R :=
  if cursor p <? n
  then mkPool (S (cursor p)) (results p) ws (calls p ++ [cursor p]) (rejected p)
  else mkPool (cursor p) (results p) ws (calls p) (rejected p).
Definition spawn p : Pool R := start_item p (workers p ++ [next (cursor p)]).
Definition start (count : nat) : Pool R :=
  Nat.iter count spawn (mkPool 0 (replicate n None) [] [] None).

(** The operation that worker [k] waits for settles; the first failure rejects the map. *)
Definition settle (k i : nat) (r : result R) p : Pool R :=
  match r with
  | Ok v =>
      let p := mkPool (cursor p) (<[i := Some v]> (results p)) (workers p) (calls p) (rejected p) in
      start_item p (<[k := next (cursor p)]> (workers p))
  | Err e =>
      mkPool (cursor p) (results p) (<[k := failed i e]> (workers p)) (calls p)
        (match rejected p with Some e' => Some e' | None => Some e end)
  end.

(** What the returned promise says so far. *)
Definition answer p : option (result (list (option R))) :=
  match rejected p with
  | Some e => Some (Err e)
  | None => if forallb (λ w, bool_decide (w = finished)) (workers p) then Some (Ok (results p)) else None
  end.

(** The function itself up to its first [await]. *)
Definition mapWithConcurrency (concurrency : JsNumber) : result (Pool R) :=
  if negb (valid_limit concurrency)
  then throw ("Concurrency must be a positive integer: " +:+ number_text concurrency)
  else if n =? 0 then Ok (mkPool 0 [] [] [] None)
  else Ok (start (Nat.min (limit concurrency) n)).

Context (outcome : nat → result R).

Inductive step p : Pool R → Prop :=
| step_settle k i : workers p !! k = Some (busy i) → step p (settle k i (outcome i) p).

(** *** What every reachable pool satisfies *)

Record valid (count : nat) p : Prop := mkValid {
  valid_workers : length (workers p) = count;
  valid_results : length (results p) = n;
  valid_cursor : cursor p ≤ n;
  valid_calls : calls p = seq 0 (cursor p);
  valid_done : ∀ i, i < cursor p →
    (∃ k, workers p !! k = Some (busy i))
    ∨ (∃ k e, workers p !! k = Some (failed i e))
    ∨ ∃ v, results p !! i = Some (Some v);
  valid_busy : ∀ k i, workers p !! k = Some (busy i) → i < cursor p;
  valid_value : ∀ i v, results p !! i = Some (Some v) → outcome i = Ok v;
  valid_failed : ∀ k i e, workers p !! k = Some (failed i e) → outcome i = Err e ∧ i < cursor p;
  valid_finished : ∀ k, workers p !! k = Some finished → cursor p = n;
  valid_rejected : match rejected p with
    | Some e => ∃ k i, workers p !! k = Some (failed i e)
    | None => ∀ k i e, workers p !! k ≠ Some (failed i e)
    end
}.

(** Items left to start, and operations pending. *)
Definition is_busy (w : Worker) : bool := match w with busy _ => true | _ => false end.
Fixpoint busy_count (ws : list Worker) : nat :=
  match ws with [] => 0 | w :: r => (if is_busy w then 1 else 0) + busy_count r end.
Definition left_ p : nat := (n - cursor p) + busy_count (workers p).

Lemma busy_count_app ws w : busy_count (ws ++ [w]) = busy_count ws + if is_busy w then 1 else 0.
Proof. induction ws as [|w0 ws IH]; cbn; [lia|]. rewrite IH. lia. Qed.
Lemma busy_count_insert ws k w0 w : ws !! k = Some w0 →
  busy_count (<[k := w]> ws) + (if is_busy w0 then 1 else 0) = busy_count ws + if is_busy w then 1 else 0.
Proof.
  revert k. induction ws as [|w1 ws IH]; intros [|k] Hk; try done.
  - cbn in *. injection Hk as ->. lia.
  - specialize (IH k Hk). change (<[S k := w]> (w1 :: ws)) with (w1 :: <[k := w]> ws). cbn [busy_count]. lia.
Qed.

(** A worker slot [k0] takes the next item after its result, if it had one, is stored. *)
Lemma start_item_valid count count' p res ws k0 :
  valid count p → length ws = count' → length res = n → ws !! k0 = Some (next (cursor p)) →
  (∀ k, k ≠ k0 → ws !! k = workers p !! k) →
  (∀ i, workers p !! k0 = Some (busy i) → ∃ v, res !! i = Some (Some v)) →
  (∀ i e, workers p !! k0 ≠ Some (failed i e)) →
  (∀ i v, res !! i = Some (Some v) → outcome i = Ok v) →
  (∀ i v, results p !! i = Some (Some v) → is_Some (res !! i ≫= id)) →
  valid count' (start_item (mkPool (cursor p) res (workers p) (calls p) (rejected p)) ws).
Proof.
  intros [Hw Hr Hc Hcalls Hdone Hbusy Hval Hfail Hfin Hrej] Hlw Hlr Hk0 Hks Hres Hnf Hv Hkeep.
  assert (∀ k w, ws !! k = Some w → w = next (cursor p) ∨ workers p !! k = Some w) as Hcase.
  { intros k w Hk. destruct (decide (k = k0)) as [->|Hne]; [left; congruence|right; by rewrite <-Hks]. }
  assert (∀ i, i < cursor p → (∃ k, ws !! k = Some (busy i)) ∨ (∃ k e, ws !! k = Some (failed i e))
    ∨ ∃ v, res !! i = Some (Some v)) as Hd.
  { intros i Hi. destruct (Hdone i Hi) as [[k Hk]|[(k & e & Hk)|[v Hk]]].
    - destruct (decide (k = k0)) as [->|Hne]; [right; right; by apply Hres|left; exists k; by rewrite Hks].
    - destruct (decide (k = k0)) as [->|Hne]; [by destruct (Hnf i e)|right; left; exists k, e; by rewrite Hks].
    - right; right. destruct (Hkeep i v Hk) as [x Hx]. exists x.
      destruct (res !! i) as [[y|]|]; cbn in Hx; congruence. }
  assert (∀ k i e, ws !! k = Some (failed i e) → workers p !! k = Some (failed i e)) as Hfw.
  { intros k i e Hk. destruct (Hcase k _ Hk) as [Hn|?]; [|done]. unfold next in Hn. by destruct (cursor p <? n). }
  unfold start_item, next in *. cbn [cursor results workers calls rejected].
  destruct (Nat.ltb_spec (cursor p) n) as [Hlt|Hge];
    (constructor; cbn [cursor results workers calls rejected]; [done|done| | | | |done| | |]).
  - lia.
  - rewrite Hcalls, seq_S. done.
  - intros i Hi. destruct (decide (i = cursor p)) as [->|]; [left; by exists k0|apply Hd; lia].
  - intros k i Hk. destruct (Hcase k _ Hk) as [[= ->]|Hk']; [lia|]. specialize (Hbusy k i Hk'). lia.
  - intros k i e Hk. destruct (Hfail k i e (Hfw _ _ _ Hk)). split; [done|lia].
  - intros k Hk. destruct (Hcase k _ Hk) as [[=]|Hk']. specialize (Hfin k Hk'). lia.
  - destruct (rejected p) as [e|]; [|intros k i e Hk; by eapply Hrej, Hfw].
    destruct Hrej as (k & i & Hk). exists k, i. rewrite Hks; [done|]. intros ->. by eapply Hnf.
  - done.
  - done.
  - exact Hd.
  - intros k i Hk. destruct (Hcase k _ Hk) as [[=]|Hk']. by eapply Hbusy.
  - intros k i e Hk. by eapply Hfail, Hfw.
  - intros k Hk. lia.
  - destruct (rejected p) as [e|]; [|intros k i e Hk; by eapply Hrej, Hfw].
    destruct Hrej as (k & i & Hk). exists k, i. rewrite Hks; [done|]. intros ->. by eapply Hnf.
Qed.

Lemma start_valid count : valid count (start count).
Proof.
  induction count as [|count IH].
  { constructor; cbn; try done; [by rewrite length_replicate|lia| |].
    - intros i Hi. lia.
    - intros i v [[=] _]%lookup_replicate. }
  change (start (S count)) with (spawn (start count)). set (p := start count) in *. clearbody p. pose proof IH as [Hw Hr Hc Hcalls Hdone Hbusy Hval Hfail Hfin Hrej].
  assert (workers p !! count = None) as Hnone by (apply lookup_ge_None; lia).
  unfold spawn. destruct p as [cur res ws cs rej]. cbn [cursor workers results] in *.
  apply (start_item_valid count (S count) (mkPool cur res ws cs rej) res _ count); cbn [cursor workers results];
    try done.
  - rewrite length_app. cbn. lia.
  - rewrite lookup_app_r, Hw, Nat.sub_diag; [done|lia].
  - intros k Hk. destruct (decide (k < count)) as [Hlt|Hge]; [by rewrite lookup_app_l by lia|].
    rewrite !lookup_ge_None_2; [done|lia|rewrite length_app; cbn; lia].
  - intros i Hi. congruence.
  - intros i e. congruence.
  - intros i v ->. by eexists.
Qed.

Lemma step_valid count p p' : valid count p → step p p' → valid count p'.
Proof.
  intros Hv [k i Hk]. pose proof Hv as [Hw Hr Hc Hcalls Hdone Hbusy Hval Hfail Hfin Hrej].
  assert (k < length (workers p)) as Hlk by (apply lookup_lt_is_Some_1; by eexists).
  pose proof (Hbusy k i Hk) as Hi. unfold settle. destruct (outcome i) as [v|e] eqn:Ho.
  - destruct p as [cur res ws cs rej]; cbn [cursor workers results calls rejected] in *.
    apply (start_item_valid count count (mkPool cur res ws cs rej) _ _ k); cbn [cursor workers results]; try done.
    + by rewrite length_insert.
    + by rewrite length_insert.
    + by apply list_lookup_insert_eq.
    + intros k' Hk'. by rewrite list_lookup_insert_ne.
    + intros j Hj. rewrite Hk in Hj. injection Hj as <-. exists v. apply list_lookup_insert_eq. lia.
    + intros j e. congruence.
    + intros j x [(-> & [= ->] & _)|[Hne Hj]]%list_lookup_insert_Some; [done|by apply Hval].
    + intros j x Hj. destruct (decide (i = j)) as [->|Hne].
      * rewrite list_lookup_insert_eq by lia. by eexists.
      * rewrite list_lookup_insert_ne, Hj by done. by eexists.
  - constructor; cbn [cursor results workers calls rejected]; try done.
    + by rewrite length_insert.
    + intros j Hj. destruct (Hdone j Hj) as [[k' Hk']|[(k' & e' & Hk')|?]]; [| |by right; right].
      * destruct (decide (k' = k)) as [->|Hne]; [|left; exists k'; by rewrite list_lookup_insert_ne].
        right; left. exists k, e. rewrite list_lookup_insert_eq by done. congruence.
      * right; left. exists k', e'. rewrite list_lookup_insert_ne; [done|]. intros ->. congruence.
    + intros k' j [(_ & [=] & _)|[_ Hj]]%list_lookup_insert_Some. by eapply Hbusy.
    + intros k' j e' [(-> & [= <- <-] & _)|[_ Hj]]%list_lookup_insert_Some; [done|by eapply Hfail].
    + intros k' [(_ & [=] & _)|[_ Hj]]%list_lookup_insert_Some. by eapply Hfin.
    + destruct (rejected p) as [e'|].
      * destruct Hrej as (k' & j & Hj). exists k', j. rewrite list_lookup_insert_ne; [done|]. intros ->. congruence.
      * exists k, i. by apply list_lookup_insert_eq.
Qed.

Lemma step_left count p p' : valid count p → step p p' → left_ p = S (left_ p').
Proof.
  intros Hv [k i Hk]. pose proof (valid_cursor _ _ Hv) as Hc. unfold settle, left_.
  destruct (outcome i) as [v|e]; unfold start_item, next; cbn [cursor workers].
  - destruct (Nat.ltb_spec (cursor p) n); cbn [cursor workers].
    + pose proof (busy_count_insert _ _ _ (busy (cursor p)) Hk) as Hb. cbn in Hb. lia.
    + pose proof (busy_count_insert _ _ _ finished Hk) as Hb. cbn in Hb. lia.
  - pose proof (busy_count_insert _ _ _ (failed i e) Hk) as Hb. cbn in Hb. lia.
Qed.

Lemma start_left count : left_ (start count) = n.
Proof.
  induction count as [|count IH]; [unfold left_; cbn; lia|]. pose proof (start_valid count) as Hv.
  change (start (S count)) with (spawn (start count)). revert IH. pose proof (valid_cursor _ _ Hv) as Hc.
  unfold left_, spawn, start_item, next.
  destruct (Nat.ltb_spec (cursor (start count)) n); cbn [cursor workers];
    rewrite busy_count_app; cbn; lia.
Qed.

Lemma no_busy_answered count p : valid count p → (∀ k i, workers p !! k ≠ Some (busy i)) → is_Some (answer p).
Proof.
  intros Hv Hb. unfold answer. pose proof (valid_rejected _ _ Hv) as Hrej. destruct (rejected p) as [e|]; [done|].
  replace (forallb _ _) with true; [done|]. symmetry. apply forallb_forall. intros w Hw%list_elem_of_In.
  apply bool_decide_eq_true. apply list_elem_of_lookup in Hw as [k Hk]. destruct w as [i| |i e]; [|done|].
  - by destruct (Hb k i).
  - by destruct (Hrej k i e).
Qed.

Lemma answer_ok count p rs : valid count p → 0 < count → answer p = Some (Ok rs) →
  rs = results p ∧ ∀ i, i < n → ∃ v, outcome i = Ok v ∧ rs !! i = Some (Some v).
Proof.
  intros Hv Hc. unfold answer. pose proof (valid_rejected _ _ Hv) as Hrej. destruct (rejected p) as [e|]; [done|].
  destruct (forallb _ _) eqn:Hf; [|done]. intros [= <-]. rewrite forallb_forall in Hf.
  assert (∀ k w, workers p !! k = Some w → w = finished) as Hall.
  { intros k w Hk. apply (bool_decide_eq_true _), Hf, list_elem_of_In, list_elem_of_lookup. by exists k. }
  assert (cursor p = n) as Hcur.
  { destruct (lookup_lt_is_Some_2 (workers p) 0) as [w Hw]; [by rewrite (valid_workers _ _ Hv)|].
    eapply (valid_finished _ _ Hv 0). rewrite Hw. f_equal. by eapply Hall. }
  split; [done|]. intros i Hi. rewrite <-Hcur in Hi.
  destruct (valid_done _ _ Hv i Hi) as [[k Hk]|[(k & e & Hk)|[v Hk]]].
  - specialize (Hall k _ Hk). done.
  - specialize (Hall k _ Hk). done.
  - exists v. split; [by eapply (valid_value _ _ Hv)|done].
Qed.

Lemma answer_stays p p' a : answer p = Some a → step p p' → answer p' = Some a.
Proof.
  unfold answer. intros Ha [k i Hk]. destruct (rejected p) as [e|] eqn:He.
  - unfold settle, start_item. destruct (outcome i); cbn [cursor rejected].
    + destruct (cursor p <? n); cbn [rejected]; by rewrite He.
    + by rewrite He.
  - exfalso. destruct (forallb _ _) eqn:Hf; [|done]. rewrite forallb_forall in Hf.
    assert (bool_decide (busy i = finished) = true) as Hb; [|by apply bool_decide_eq_true in Hb].
    apply Hf, list_elem_of_In, list_elem_of_lookup. by exists k.
Qed.

Lemma busy_count_bound ws : busy_count ws ≤ length ws.
Proof. induction ws as [|w ws IH]; cbn; [lia|]. destruct (is_busy w); lia. Qed.
Lemma steps_valid count p p' : valid count p → rtc step p p' → valid count p'.
Proof. intros Hv Hs. revert Hv. induction Hs as [|p p1 p2 H1 _ IH]; eauto using step_valid. Qed.
Lemma steps_bounded count p k p' : valid count p → nsteps step k p p' →
  left_ p = k + left_ p' ∧ ∀ a, answer p = Some a → answer p' = Some a.
Proof.
  intros Hv Hs. revert Hv. induction Hs as [p|k p p1 p2 H1 _ IH]; intros Hv; [done|].
  destruct (IH (step_valid _ _ _ Hv H1)) as [H2 H3]. split.
  - rewrite (step_left _ _ _ Hv H1). lia.
  - intros a Ha. by eapply H3, answer_stays.
Qed.

(** A pool that was launched is valid, with at most [concurrency] workers. *)
Lemma launched concurrency p : mapWithConcurrency concurrency = Ok p →
  ∃ count, valid count p ∧ count ≤ limit concurrency ∧ left_ p = n ∧ (count = 0 → n = 0).
Proof.
  unfold mapWithConcurrency. destruct (valid_limit concurrency) eqn:Hl; [|done]. cbn [negb].
  destruct (Nat.eqb_spec n 0) as [Hn|Hn]; intros [= <-].
  - exists 0. pose proof (start_valid 0) as H. pose proof (start_left 0) as Hs.
    unfold start in *. cbn in H, Hs. replace (replicate n (@None R)) with (@nil (option R)) in * by (by rewrite Hn).
    split_and!; [done|lia|done|done].
  - exists (Nat.min (limit concurrency) n). split_and!; [apply start_valid|lia|apply start_left|].
    destruct concurrency as [z| |]; try done. cbn in Hl |- *. apply andb_true_iff in Hl as [_ Hz%Z.leb_le]. lia.
Qed.
End pool.

(** C29. Whatever order the operations settle in, at most [concurrency] are pending at a
    time; the items are started in input order, each once; after at most one settlement
    per item nothing is pending and the promise is settled, and once settled it stays so;
    it is fulfilled with the results of all the items in input order, and rejected only
    with the failure of an item that was started. *)
Theorem pool_order {R} n (outcome : nat → result R) concurrency p0 p :
  mapWithConcurrency n concurrency = Ok p0 → rtc (step n outcome) p0 p →
  busy_count (workers p) ≤ limit concurrency
  ∧ calls p = seq 0 (cursor p) ∧ cursor p ≤ n
  ∧ (∀ rs, answer p = Some (Ok rs) → length rs = n ∧ ∀ i, i < n → ∃ v, outcome i = Ok v ∧ rs !! i = Some (Some v))
  ∧ (∀ e, answer p = Some (Err e) → ∃ i, i ∈ calls p ∧ outcome i = Err e)
  ∧ ((∀ p', ¬ step n outcome p p') → is_Some (answer p))
  ∧ (∀ k p', nsteps (step n outcome) k p p' → k ≤ n ∧ ∀ a, answer p = Some a → answer p' = Some a).
Proof.
  intros Hp Hs. destruct (launched n outcome concurrency p0 Hp) as (count & Hv0 & Hcount & Hleft & Hz).
  pose proof (steps_valid n outcome _ _ _ Hv0 Hs) as Hv. split_and!.
  - pose proof (busy_count_bound (workers p)). rewrite (valid_workers _ _ _ _ Hv) in *. lia.
  - apply (valid_calls _ _ _ _ Hv).
  - apply (valid_cursor _ _ _ _ Hv).
  - intros rs Ha. destruct (decide (count = 0)) as [Hc|Hc].
    + pose proof Ha as Ha'. unfold answer in Ha'. destruct (rejected p); [done|].
      destruct (forallb _ _); [|done]. injection Ha' as <-. split; [apply (valid_results _ _ _ _ Hv)|].
      rewrite (Hz Hc). lia.
    + destruct (answer_ok n outcome count p rs Hv) as [-> H]; [lia|done|].
      split; [apply (valid_results _ _ _ _ Hv)|done].
  - intros e. unfold answer. pose proof (valid_rejected _ _ _ _ Hv) as Hrej. destruct (rejected p) as [e'|].
    + intros [= ->]. destruct Hrej as (k & i & Hk). destruct (valid_failed _ _ _ _ Hv _ _ _ Hk).
      exists i. split; [|done]. rewrite (valid_calls _ _ _ _ Hv). apply elem_of_seq. lia.
    + by destruct (forallb _ _).
  - intros Hstuck. eapply no_busy_answered; [exact Hv|]. intros k i Hk. by eapply Hstuck, step_settle.
  - intros k p' Hk. destruct (steps_bounded n outcome _ _ _ _ Hv Hk) as [H1 H2]. split; [|done].
    apply rtc_nsteps in Hs as [j Hj]. destruct (steps_bounded n outcome _ _ _ _ Hv0 Hj) as [H3 _]. lia.
Qed.

(** Three items on two workers: the second settles first, and the order is kept. *)
Definition squares (i : nat) : result nat := Ok (i * i).
Lemma pool_order_witness :
  ∃ p0 p, mapWithConcurrency 3 (Int 2) = Ok p0 ∧ rtc (step 3 squares) p0 p
  ∧ answer p = Some (Ok [Some 0; Some 1; Some 4]) ∧ calls p = seq 0 (cursor p).
Proof.
  set (p0 := start (R := nat) 3 2).
  set (p1 := settle 3 1 1 (squares 1) p0). set (p2 := settle 3 0 0 (squares 0) p1).
  set (p3 := settle 3 1 2 (squares 2) p2).
  assert (rtc (step 3 squares) p0 p3) as Hs.
  { apply rtc_l with p1; [apply (step_settle 3 squares p0 1 1); reflexivity|].
    apply rtc_l with p2; [apply (step_settle 3 squares p1 0 0); reflexivity|].
    apply rtc_once, (step_settle 3 squares p2 1 2). reflexivity. }
  exists p0, p3. split; [reflexivity|]. split; [exact Hs|]. split; [reflexivity|].
  apply (pool_order 3 squares (Int 2) p0 p3); [reflexivity|exact Hs].
Defined.
End BoundedConcurrency.

(** ** The serial log (SerialAuditLog.ts)

    A promise of the log is the index of the append that made it; [None] is the promise
    that is resolved from the start. *)

Module SerialAuditLog.
Inductive Status := waiting | running | settled (r : result unit).
#[global] Instance Status_eq_dec : EqDecision Status.
Proof. solve_decision. Defined.
Record Operation (A : Type) := mkOperation { entry : A; after : option nat; status : Status }.
Arguments mkOperation {A} _ _ _. Arguments entry {A} _. Arguments after {A} _. Arguments status {A} _.
Record Reader := mkReader { awaits : option nat; reading : bool }.
(** [calls]: the entries handed to the inner log, in the order of the calls. *)
Record Log (A : Type) := mkLog {
  operations : list (Operation A);
  tail : option nat;
  readers : list Reader;
  calls : list A
}.
Arguments mkLog {A} _ _ _ _. Arguments operations {A} _. Arguments tail {A} _.
Arguments readers {A} _. Arguments calls {A} _.

Section log.
Context {A : Type}.
Implicit Types (l : Log A) (o : Operation A).

Definition empty_log : Log A := mkLog [] None [] [].

(** [tail.catch]: the promise others wait for is settled when its operation is, either way. *)
Definition is_settled l (promise : option nat) : bool :=
  match promise with
  | None => true
  | Some i => match operations l !! i with Some (mkOperation _ _ (settled _)) => true | _ => false end
  end.
Definition set_status (s : Status) o : Operation A := mkOperation (entry o) (after o) s.

Definition append (e : A) l : Log A :=
  mkLog (operations l ++ [mkOperation e (tail l) waiting]) (Some (length (operations l))) (readers l) (calls l).
Definition since l : Log A :=
  mkLog (operations l) (tail l) (readers l ++ [mkReader (tail l) false]) (calls l).
(** The turn in which a promise that is settled runs what waits for it. *)
Definition call_inner (i : nat) l : Log A :=
  match operations l !! i with
  | Some o => mkLog (<[i := set_status running o]> (operations l)) (tail l) (readers l) (calls l ++ [entry o])
  | None => l
  end.
Definition settle (i : nat) (r : result unit) l : Log A :=
  mkLog (alter (set_status (settled r)) i (operations l)) (tail l) (readers l) (calls l).
Definition read_inner (j : nat) l : Log A :=
  mkLog (operations l) (tail l) (alter (λ r, mkReader (awaits r) true) j (readers l)) (calls l).

Inductive step l : Log A → Prop :=
| step_append e : step l (append e l)
| step_since : step l (since l)
| step_call i o : operations l !! i = Some o → status o = waiting → is_settled l (after o) = true →
    step l (call_inner i l)
| step_settle i o r : operations l !! i = Some o → status o = running → step l (settle i r l)
| step_read j r : readers l !! j = Some r → reading r = false → is_settled l (awaits r) = true →
    step l (read_inner j l).

(** The chain: [k] operations have settled, at most one runs, the others wait. *)
Definition linked (i : nat) : option nat := match i with O => None | S j => Some j end.
Definition is_running (s : Status) : bool := match s with running => true | _ => false end.
Record chained (k : nat) (busy : bool) l : Prop := mkChained {
  chain_link : ∀ i o, operations l !! i = Some o → after o = linked i;
  chain_tail : tail l = linked (length (operations l));
  chain_settled : ∀ i o, operations l !! i = Some o → i < k → ∃ r, status o = settled r;
  chain_running : ∀ o, operations l !! k = Some o → status o = if busy then running else waiting;
  chain_waiting : ∀ i o, operations l !! i = Some o → k < i → status o = waiting;
  chain_length : k + (if busy then 1 else 0) ≤ length (operations l);
  chain_calls : calls l = map entry (take (k + if busy then 1 else 0) (operations l));
  chain_readers : ∀ j r, readers l !! j = Some r →
    ∃ m, awaits r = linked m ∧ m ≤ length (operations l) ∧ (reading r = true → m ≤ k)
}.

Lemma settled_before k busy l m : chained k busy l → m ≤ length (operations l) →
  is_settled l (linked m) = true ↔ m ≤ k.
Proof.
  intros H Hm. destruct m as [|m]; cbn; [split; [lia|done]|].
  destruct (lookup_lt_is_Some_2 (operations l) m) as [o Ho]; [lia|]. rewrite Ho. split.
  - intros Hs. destruct (decide (m < k)); [lia|]. exfalso. destruct o as [e a s]. cbn in Hs.
    destruct (decide (m = k)) as [->|].
    + pose proof (chain_running _ _ _ H _ Ho) as Hr. cbn in Hr. subst s. by destruct busy.
    + pose proof (chain_waiting _ _ _ H _ _ Ho) as Hr. cbn in Hr. rewrite Hr in Hs by lia. done.
  - intros Hk. destruct (chain_settled _ _ _ H _ _ Ho) as [r Hr]; [lia|]. destruct o. cbn in Hr. by subst.
Qed.

Lemma status_at k busy l i o : chained k busy l → operations l !! i = Some o →
  match status o with
  | settled _ => i < k
  | running => i = k ∧ busy = true
  | waiting => if busy then k < i else k ≤ i
  end.
Proof.
  intros H Ho. destruct (Nat.lt_trichotomy i k) as [Hlt|[->|Hgt]].
  - by destruct (chain_settled _ _ _ H _ _ Ho Hlt) as [r ->].
  - rewrite (chain_running _ _ _ H _ Ho). destruct busy; cbn; auto.
  - rewrite (chain_waiting _ _ _ H _ _ Ho Hgt). destruct busy; lia.
Qed.

Lemma take_set_status j i s (ops : list (Operation A)) :
  map entry (take j (alter (set_status s) i ops)) = map entry (take j ops).
Proof.
  revert j i. induction ops as [|o ops IH]; intros [|j] [|i]; cbn; try done. f_equal. apply IH.
Qed.

Lemma append_chained k busy l e : chained k busy l → chained k busy (append e l).
Proof.
  intros [H1 H2 H3 H4 H5 H6 H7 H8]. unfold append.
  assert (∀ i o, (operations l ++ [mkOperation e (tail l) waiting]) !! i = Some o →
    operations l !! i = Some o ∨ (i = length (operations l) ∧ o = mkOperation e (tail l) waiting)) as Hc.
  { intros i o [?|[Hl Hs]]%lookup_app_Some; [by left|right].
    apply list_lookup_singleton_Some in Hs as [? <-]. split; [lia|done]. }
  constructor; cbn [operations tail readers calls].
  - intros i o [?|[-> ->]]%Hc; [by apply H1|done].
  - by rewrite length_app, Nat.add_1_r.
  - intros i o [?|[-> ->]]%Hc Hi; [by eapply H3|]. lia.
  - intros o [?|[Hk ->]]%Hc; [by apply H4|]. cbn. destruct busy; [lia|done].
  - intros i o [?|[-> ->]]%Hc Hi; [by eapply H5|done].
  - rewrite length_app. lia.
  - by rewrite take_app_le.
  - intros j r Hj. destruct (H8 j r Hj) as (m & Ha & Hm & Hr). exists m. rewrite length_app.
    split_and!; [done|lia|done].
Qed.

Lemma since_chained k busy l : chained k busy l → chained k busy (since l).
Proof.
  intros [H1 H2 H3 H4 H5 H6 H7 H8]. constructor; cbn [operations tail readers calls since]; try done.
  intros j r [Hj|[_ Hs]]%lookup_app_Some; [by apply (H8 j)|].
  apply list_lookup_singleton_Some in Hs as [_ <-]. exists (length (operations l)). split_and!; [done|lia|done].
Qed.

Lemma call_chained k busy l i o : chained k busy l →
  operations l !! i = Some o → status o = waiting → is_settled l (after o) = true →
  i = k ∧ busy = false ∧ chained k true (call_inner i l).
Proof.
  intros H Ho Hs Ha. pose proof (status_at _ _ _ _ _ H Ho) as Hi. rewrite Hs in Hi.
  pose proof (lookup_lt_Some _ _ _ Ho) as Hl.
  rewrite (chain_link _ _ _ H _ _ Ho) in Ha. apply (settled_before _ _ _ _ H) in Ha; [|lia].
  destruct busy; [lia|]. assert (i = k) as -> by lia. split_and!; [done..|].
  destruct H as [H1 H2 H3 H4 H5 H6 H7 H8]. unfold call_inner. rewrite Ho.
  constructor; cbn [operations tail readers calls].
  - intros i o' [(<- & <- & _)|[_ Hi']]%list_lookup_insert_Some; [exact (H1 _ _ Ho)|by apply H1].
  - by rewrite length_insert.
  - intros i o' [(<- & _)|[_ Hi']]%list_lookup_insert_Some Hlt; [lia|by eapply H3].
  - intros o' [(_ & <- & _)|[Hne _]]%list_lookup_insert_Some; done.
  - intros i o' [(<- & _)|[_ Hi']]%list_lookup_insert_Some Hlt; [lia|by eapply H5].
  - rewrite length_insert. lia.
  - rewrite H7, Nat.add_0_r, Nat.add_1_r, (take_S_r _ _ (set_status running o)) by (by apply list_lookup_insert_eq).
    by rewrite take_insert_ge, map_app by lia.
  - intros j r Hj. rewrite length_insert. by apply (H8 j).
Qed.

Lemma settle_chained k busy l i o r : chained k busy l →
  operations l !! i = Some o → status o = running → i = k ∧ busy = true ∧ chained (S k) false (settle i r l).
Proof.
  intros H Ho Hs. pose proof (status_at _ _ _ _ _ H Ho) as Hi. rewrite Hs in Hi. destruct Hi as [-> ->].
  split_and!; [done..|]. pose proof (lookup_lt_Some _ _ _ Ho) as Hl.
  destruct H as [H1 H2 H3 H4 H5 H6 H7 H8]. unfold settle.
  assert (∀ i o', alter (set_status (settled r)) k (operations l) !! i = Some o' →
    (i = k ∧ o' = set_status (settled r) o) ∨ (i ≠ k ∧ operations l !! i = Some o')) as Hc.
  { intros i o' Hi. destruct (decide (i = k)) as [->|Hne].
    - rewrite list_lookup_alter_eq, Ho in Hi. injection Hi as <-. by left.
    - rewrite list_lookup_alter_ne in Hi by done. by right. }
  constructor; cbn [operations tail readers calls].
  - intros i o' [[-> ->]|[? ?]]%Hc; [exact (H1 _ _ Ho)|by apply H1].
  - by rewrite length_alter.
  - intros i o' [[-> ->]|[? ?]]%Hc Hi; [by eexists|]. eapply H3; [done|lia].
  - intros o' [[? ?]|[? ?]]%Hc; [lia|]. eapply H5; [done|lia].
  - intros i o' [[-> ->]|[? ?]]%Hc Hi; [lia|]. eapply H5; [done|lia].
  - rewrite length_alter. lia.
  - rewrite H7, take_set_status. do 2 f_equal. lia.
  - intros j x Hj. rewrite length_alter. destruct (H8 j x Hj) as (m & ? & ? & Hr). exists m.
    split_and!; [done..|]. intros Hx. specialize (Hr Hx). lia.
Qed.

Lemma read_chained k busy l j r : chained k busy l →
  readers l !! j = Some r → is_settled l (awaits r) = true → chained k busy (read_inner j l).
Proof.
  intros H Hj Hs. pose proof H as [H1 H2 H3 H4 H5 H6 H7 H8]. constructor; cbn [operations tail readers calls read_inner]; try done.
  intros i x Hi. destruct (decide (i = j)) as [->|Hne].
  - rewrite list_lookup_alter_eq, Hj in Hi. injection Hi as <-. cbn. destruct (H8 j r Hj) as (m & Ha & Hm & _).
    exists m. split_and!; [done..|]. intros _. rewrite Ha in Hs. by eapply settled_before.
  - rewrite list_lookup_alter_ne in Hi by done. by apply (H8 i).
Qed.

Lemma step_chained k busy l l' : chained k busy l → step l l' → ∃ k' busy', chained k' busy' l' ∧ k ≤ k'.
Proof.
  intros H [e| |i o Ho Hs Ha|i o r Ho Hs|j r Hj _ Hs].
  - exists k, busy. split; [by apply append_chained|done].
  - exists k, busy. split; [by apply since_chained|done].
  - destruct (call_chained _ _ _ _ _ H Ho Hs Ha) as (_ & _ & H'). by exists k, true.
  - destruct (settle_chained _ _ _ _ _ r H Ho Hs) as (_ & _ & H'). exists (S k), false. split; [done|lia].
  - exists k, busy. split; [by eapply read_chained|done].
Qed.
Lemma steps_chained l : rtc step empty_log l → ∃ k busy, chained k busy l.
Proof.
  cut (∀ l0, rtc step l0 l → (∃ k busy, chained k busy l0) → ∃ k busy, chained k busy l).
  { intros H Hl. apply (H _ Hl). exists 0, false. constructor; cbn; done. }
  intros l0 Hs. induction Hs as [|l0 l1 l2 H1 _ IH]; [done|]. intros (k & busy & H). apply IH.
  destruct (step_chained _ _ _ _ H H1) as (k' & busy' & H' & _). by exists k', busy'.
Qed.

(** Whenever appends, reads and settlements happen, entries reach the inner log in the
    order they were appended and one at a time; a failed append neither blocks nor drops a
    later one, since some call or settlement is possible until every operation has
    settled; and a read reaches the inner log only after every append made before it has
    settled. *)
Theorem serial_log l : rtc step empty_log l →
  (∃ rest, map entry (operations l) = calls l ++ rest)
  ∧ (∀ i j oi oj, operations l !! i = Some oi → operations l !! j = Some oj →
      status oi = running → status oj = running → i = j)
  ∧ (∀ i j oi oj, operations l !! i = Some oi → operations l !! j = Some oj → i < j →
      status oj ≠ waiting → ∃ r, status oi = settled r)
  ∧ ((∃ i o, operations l !! i = Some o ∧ ∀ r, status o ≠ settled r) →
      (∃ i o, operations l !! i = Some o ∧ status o = running)
      ∨ ∃ i o, operations l !! i = Some o ∧ status o = waiting ∧ is_settled l (after o) = true)
  ∧ (∀ j r, readers l !! j = Some r → reading r = true →
      ∃ m, awaits r = linked m ∧ ∀ i o, operations l !! i = Some o → i < m → ∃ x, status o = settled x).
Proof.
  intros (k & busy & H)%steps_chained. split_and!.
  - eexists. rewrite (chain_calls _ _ _ H), <-map_app, take_drop. done.
  - intros i j oi oj Hi Hj Hsi Hsj. pose proof (status_at _ _ _ _ _ H Hi) as H1. pose proof (status_at _ _ _ _ _ H Hj) as H2.
    rewrite Hsi in H1. rewrite Hsj in H2. destruct H1, H2. congruence.
  - intros i j oi oj Hi Hj Hlt Hw. apply (chain_settled _ _ _ H _ _ Hi).
    pose proof (status_at _ _ _ _ _ H Hj) as H2. destruct (status oj); [done|lia|lia].
  - intros (i & o & Hi & Hn). pose proof (status_at _ _ _ _ _ H Hi) as H1.
    assert (k ≤ i) as Hk by (destruct (status o) as [| |r]; [destruct busy; lia|lia|by destruct (Hn r)]).
    destruct (lookup_lt_is_Some_2 (operations l) k) as [ok Hok].
    { apply lookup_lt_Some in Hi. lia. }
    pose proof (chain_running _ _ _ H _ Hok) as Hr. destruct busy; [left|right]; exists k, ok; [done|].
    split_and!; [done..|]. rewrite (chain_link _ _ _ H _ _ Hok). apply (settled_before _ _ _ _ H); [|done].
    apply lookup_lt_Some in Hok. lia.
  - intros j r Hj Hr. destruct (chain_readers _ _ _ H _ _ Hj) as (m & Ha & Hm & Hk). exists m. split; [done|].
    intros i o Hi Hlt. apply (chain_settled _ _ _ H _ _ Hi). specialize (Hk Hr). lia.
Qed.
End log.

(** Two appends and a read; the first append fails, and the second still goes through. *)
Lemma serial_log_witness :
  ∃ l, rtc step empty_log l ∧ calls l = ["first"; "second"]
  ∧ ∃ rest, map entry (operations l) = calls l ++ rest.
Proof.
  set (l3 := since (append "second" (append "first" empty_log))).
  set (l4 := call_inner 0 l3). set (l5 := settle 0 (throw "disk full") l4). set (l6 := call_inner 1 l5).
  assert (rtc step empty_log l6) as Hs.
  { eapply rtc_l; [apply (step_append _ "first")|]. eapply rtc_l; [apply (step_append _ "second")|].
    eapply rtc_l; [apply step_since|]. eapply rtc_l; [eapply (step_call _ 0); reflexivity|].
    eapply rtc_l; [eapply (step_settle _ 0 _ (throw "disk full")); reflexivity|].
    apply rtc_once. eapply (step_call _ 1); reflexivity. }
  exists l6. split; [exact Hs|]. split; [reflexivity|]. apply (serial_log l6 Hs).
Defined.
End SerialAuditLog.

(** ** The single-flight scheduler (SingleFlightScheduler.ts)

    [drains] are the calls of [drain] that have not been cleaned up, each at the [await] it
    has reached; a task that ran to its end, the report of an error, and the [finally]
    that clears [inFlight] are turns of their own. The task itself does not call
    [request] before its first [await]. *)

Module SingleFlightScheduler.
Inductive Phase := running | reporting | settling.
#[global] Instance Phase_eq_dec : EqDecision Phase.
Proof. solve_decision. Defined.
(** [starts] counts the calls of the task. *)
Record Scheduler := mkScheduler { dirty : bool; inFlight : bool; drains : list Phase; starts : nat }.

Definition init : Scheduler := mkScheduler false false [] 0.
Definition active (s : Scheduler) : bool := inFlight s.

(** The head of the loop of drain [k]. *)
Definition loop (k : nat) (s : Scheduler) : Scheduler :=
  if dirty s
  then mkScheduler false (inFlight s) (<[k := running]> (drains s)) (S (starts s))
  else mkScheduler (dirty s) (inFlight s) (<[k := settling]> (drains s)) (starts s).
(** A new drain runs to its first [await] before [inFlight] is set. *)
Definition drain (s : Scheduler) : Scheduler :=
  loop (length (drains s)) (mkScheduler (dirty s) (inFlight s) (drains s ++ [settling]) (starts s)).
Definition request (s : Scheduler) : Scheduler :=
  let s := mkScheduler true (inFlight s) (drains s) (starts s) in
  if inFlight s then s
  else let s := drain s in mkScheduler (dirty s) true (drains s) (starts s).

Inductive Turn :=
| requests
| task_ends (k : nat) (outcome : result unit)
| error_reported (k : nat)
| cleans_up (k : nat).

(** The next turn, when it is the turn of what it names. *)
Definition take_turn (t : Turn) (s : Scheduler) : option Scheduler :=
  match t with
  | requests => Some (request s)
  | task_ends k r =>
      if bool_decide (drains s !! k = Some running)
      then Some (match r with
                 | Ok _ => loop k s
                 | Err _ => mkScheduler (dirty s) (inFlight s) (<[k := reporting]> (drains s)) (starts s)
                 end)
      else None
  | error_reported k =>
      if bool_decide (drains s !! k = Some reporting) then Some (loop k s) else None
  | cleans_up k =>
      if bool_decide (drains s !! k = Some settling)
      then Some (mkScheduler (dirty s) false (delete k (drains s)) (starts s)) else None
  end.
Fixpoint turns (ts : list Turn) (s : Scheduler) : option Scheduler :=
  match ts with [] => Some s | t :: r => take_turn t s ≫= turns r end.

(** At most one drain, and [inFlight] says whether there is one. *)
Definition single (s : Scheduler) : Prop :=
  (inFlight s = false ∧ drains s = []) ∨ (inFlight s = true ∧ ∃ ph, drains s = [ph]).

Definition is_request (t : Turn) : bool := match t with requests => true | _ => false end.
Definition count_requests (ts : list Turn) : nat := length (List.filter is_request ts).
(** What is still to be served by a start, and what the drain has still to do. *)
Definition credit (s : Scheduler) : nat := if dirty s then 1 else 0.
Definition work (s : Scheduler) : nat :=
  (if dirty s then 3 else 0)
  + match drains s with running :: _ => 3 | reporting :: _ => 2 | settling :: _ => 1 | [] => 0 end.

Lemma take_turn_cases t s s' : single s → take_turn t s = Some s' →
  single s'
  ∧ starts s' + credit s' ≤ starts s + credit s + (if is_request t then 1 else 0)
  ∧ (is_request t = false → work s' < work s)
  ∧ starts s ≤ starts s'
  ∧ (starts s < starts s' ∨ dirty s = false
     ∨ (dirty s' = true ∧ (settling ∉ drains s → settling ∉ drains s' ∧ (drains s ≠ [] → drains s' ≠ [])))).
Proof.
  destruct s as [d f ds n]. intros [[Hf Hds]|[Hf [ph Hds]]]; cbn in Hf, Hds; subst; destruct t as [|k r|k|k]; cbn.
  - intros [= <-]. cbn. split_and!; [right; eauto|destruct d; cbn; lia|done|lia|left; lia].
  - intros H. by case_bool_decide.
  - intros H. by case_bool_decide.
  - intros H. by case_bool_decide.
  - intros [= <-]. cbn. split_and!; [right; eauto|destruct d; cbn; lia|done|lia|by auto 10].
  - case_bool_decide as Hk; [|done]. destruct k as [|k]; [|done]. injection Hk as ->.
    destruct r as [[]|e]; intros [= <-]; unfold loop; destruct d; cbn;
      (split_and!; [right; eauto|lia|lia|lia|]); try (left; lia); try by auto.
    right; right. split; [done|]. intros _. split; [set_solver|done].
  - case_bool_decide as Hk; [|done]. destruct k as [|k]; [|done]. injection Hk as ->.
    intros [= <-]; unfold loop; destruct d; cbn;
      (split_and!; [right; eauto|lia|lia|lia|]); [left; lia|by auto].
  - case_bool_decide as Hk; [|done]. destruct k as [|k]; [|done]. injection Hk as ->.
    intros [= <-]. cbn. split_and!; [left; done|destruct d; cbn; lia|destruct d; lia|lia|].
    destruct d; [right; right|by auto]. split; [done|]. intros Hn. set_solver.
Qed.

Lemma turns_cases ts s s' : single s → turns ts s = Some s' →
  single s'
  ∧ starts s' + credit s' ≤ starts s + credit s + count_requests ts
  ∧ starts s ≤ starts s'
  ∧ (List.filter is_request ts = [] → length ts + work s' ≤ work s).
Proof.
  revert s. induction ts as [|t ts IH]; intros s Hs.
  { intros [= <-]. cbn. split_and!; [done|lia|lia|lia]. }
  cbn [turns]. destruct (take_turn t s) as [s1|] eqn:Ht; [|done]. cbn. intros Hts.
  destruct (take_turn_cases t s s1 Hs Ht) as (H1 & H2 & H3 & H4 & _).
  destruct (IH s1 H1 Hts) as (H5 & H6 & H7 & H8). unfold count_requests in *. cbn.
  destruct (is_request t) eqn:Hr; cbn; split_and!; try done; try lia.
  intros Hn. specialize (H3 eq_refl). specialize (H8 Hn). lia.
Qed.

(** A dirty scheduler whose drain is not past its loop starts the task before it idles. *)
Lemma dirty_served ts s s' : single s → dirty s = true → settling ∉ drains s → drains s ≠ [] →
  turns ts s = Some s' → drains s' = [] → starts s < starts s'.
Proof.
  revert s. induction ts as [|t ts IH]; intros s Hs Hd Hn Hne; [by intros [= <-]|].
  cbn [turns]. destruct (take_turn t s) as [s1|] eqn:Ht; [|done]. cbn. intros Hts Hidle.
  destruct (take_turn_cases t s s1 Hs Ht) as (H1 & _ & _ & H4 & [Hlt|[?|[Hd1 Hk]]]); [|congruence|].
  - destruct (turns_cases ts s1 s' H1 Hts) as (_ & _ & ? & _). lia.
  - destruct (Hk Hn) as [Hk1 Hk2]. specialize (IH s1 H1 Hd1 Hk1 (Hk2 Hne) Hts Hidle). lia.
Qed.

(** C33. Runs of the task never overlap, and there are no more of them than requests; a
    request that arrives while nothing runs, while the task runs, or while an error is
    reported is served by a run that starts after it, before the scheduler idles; and
    without new requests it idles after at most six turns, each of which is possible
    whatever the task and the reporting do. *)
Theorem no_event_lost ts s : turns ts init = Some s →
  (length (drains s) ≤ 1 ∧ (active s = true ↔ drains s ≠ []))
  ∧ starts s ≤ count_requests ts
  ∧ (settling ∉ drains s → ∀ later s', turns later (request s) = Some s' → drains s' = [] → starts s < starts s')
  ∧ (drains s ≠ [] → ∃ t s', is_request t = false ∧ take_turn t s = Some s')
  ∧ (∀ later s', List.filter is_request later = [] → turns later s = Some s' → length later ≤ 6).
Proof.
  intros Hts. destruct (turns_cases ts init s) as (Hs & Hc & _ & _); [by left|done|]. cbn in Hc.
  split_and!.
  - destruct Hs as [[_ ->]|[_ [ph ->]]]; cbn; lia.
  - unfold active. destruct Hs as [[-> ->]|[-> [ph ->]]]; done.
  - lia.
  - intros Hn later s' Hl Hidle. destruct Hs as [[Hf Hds]|[Hf [ph Hds]]].
    + assert (single (request s)) as Hr by (destruct (take_turn_cases requests s (request s)) as [? _]; [by left|done|done]).
      destruct (turns_cases later (request s) s' Hr Hl) as (_ & _ & Hm & _).
      destruct s as [d f ds n]. cbn in *. subst. cbn in Hm. lia.
    + assert (request s = mkScheduler true (inFlight s) (drains s) (starts s)) as Hr by (unfold request; cbn; by rewrite Hf).
      rewrite Hr in Hl. apply (dirty_served later _ s') in Hl; [done| |done|done|by rewrite Hds|done].
      right. split; [done|]. by exists ph.
  - destruct Hs as [[_ ->]|[_ [ph Hds]]]; [done|]. intros _.
    destruct ph; [exists (task_ends 0 (Ok tt))|exists (error_reported 0)|exists (cleans_up 0)];
      eexists; (split; [done|]); cbn; rewrite Hds; cbn; rewrite bool_decide_true by done; done.
  - intros later s' Hn Hl. destruct (turns_cases later s s' Hs Hl) as (_ & _ & _ & Hw).
    specialize (Hw Hn). assert (work s ≤ 6); [|lia]. unfold work.
    destruct (dirty s), (drains s) as [|[]]; lia.
Qed.

(** A burst during a run: one more run serves it. *)
Lemma no_event_lost_witness :
  ∃ s, turns [requests; requests; requests; task_ends 0 (throw "boom"); error_reported 0; requests;
              task_ends 0 (Ok tt); task_ends 0 (Ok tt); cleans_up 0] init = Some s
  ∧ starts s = 3 ∧ drains s = [] ∧ length (drains s) ≤ 1.
Proof.
  eexists. split; [reflexivity|]. split; [reflexivity|]. split; [reflexivity|].
  refine (proj1 (proj1 (no_event_lost _ _ _))).
  instantiate (1 := [requests; requests; requests; task_ends 0 (throw "boom"); error_reported 0; requests;
              task_ends 0 (Ok tt); task_ends 0 (Ok tt); cleans_up 0]). reflexivity.
Defined.

(** Between the end of the loop and the [finally], a request is forgotten: it sets [dirty]
    and nothing will look at it before the next request. *)
Lemma late_request_lost :
  ∃ s s', turns [requests; task_ends 0 (Ok tt)] init = Some s ∧ turns [cleans_up 0] (request s) = Some s'
  ∧ starts s' = starts s ∧ dirty s' = true ∧ active s' = false.
Proof. eexists _, _. repeat (split; [reflexivity|]). reflexivity. Qed.
End SingleFlightScheduler.

(** ** The upgrade monitor (UpgradeMonitor.ts) *)

Module UpgradeMonitor.
Section monitor.
Context {W : Type} (readInstalledVersion : M W (option string)) (onStale : string → M W unit).
Definition AGENTKEEPER_DEV_VERSION : string := "0.0.0-dev".
Definition checkOnce (runningVersion : string) : M W bool :=
  if String.eqb runningVersion AGENTKEEPER_DEV_VERSION then mok false
  else
    let* installed := readInstalledVersion in
    match installed with
    | None => mok false
    | Some v => if String.eqb v runningVersion then mok false else let* _ := onStale v in mok true
    end.

(** True exactly when a known, differing version is installed, which was then announced. *)
Lemma checkOnce_spec running w :
  (checkOnce running w).2 = Ok true →
  running ≠ AGENTKEEPER_DEV_VERSION
  ∧ ∃ v w1, readInstalledVersion w = (w1, Ok (Some v)) ∧ v ≠ running ∧ checkOnce running w = ((onStale v w1).1, Ok true).
Proof.
  unfold checkOnce, mseq. destruct (String.eqb_spec running AGENTKEEPER_DEV_VERSION); [done|].
  destruct (readInstalledVersion w) as [w1 [[v|]|e]] eqn:E; [|done|done].
  destruct (String.eqb_spec v running); [done|]. destruct (onStale v w1) as [w2 [[]|e]] eqn:E2; [|done]. intros _.
  split; [done|]. exists v, w1. rewrite E2. done.
Qed.
End monitor.
End UpgradeMonitor.
