(* ===== verification/RunSandboxed.v ===== *)
(** * A protected run (src/application/use-cases/RunSandboxed.ts)

    `agentkeeper run`: the policy is built for the real home and workspace, the broker is
    started when the policy names destinations, the backend is asked what it cannot
    enforce, and only then is the command launched; the scratch directory and the broker
    go away on every path. The use case is written over the ports it calls;
    [LaunchLaws] says which of them leaves which mark on the run. *)

From S2P Require Import Prelude JsString NodePath Paths Patterns Values Resources Network SensitivePaths.
From S2P Require Import Registry Sha256 Tiers Entities Policy Environment Ports Protection.

(** ** The ports (src/application/ports/SandboxRunner.ts, NetworkBroker.ts, index.ts) *)

Module Launching.
Record Environment := mkEnvironment {
  caller_home : AbsolutePath;
  identityHome : AbsolutePath;
  cwd : AbsolutePath;
  env_platform : Platform;
  variables : EnvironmentSanitizer.Source;
  toolchainRoots : list AbsolutePath
}.
(** The operations of the file system that a launch uses. *)
Record LaunchFiles (W : Type) := mkLaunchFiles {
  realPath : AbsolutePath → M W AbsolutePath;
  makeTemporaryDirectory : AbsolutePath → string → M W AbsolutePath;
  removeDirectory : AbsolutePath → M W unit
}.
Arguments realPath {W} _ _. Arguments makeTemporaryDirectory {W} _ _ _. Arguments removeDirectory {W} _ _.

Record SandboxCommand := mkCommand {
  executable : string;
  args : list string;
  command_cwd : AbsolutePath;
  env : gmap string string
}.
Record SandboxRunResult := mkRunResult { exitCode : Z; signal : option string }.
Record SandboxRunner (W : Type) := mkRunner {
  mechanism : ProtectionStatus.ProtectionMechanism;
  unenforceable : SandboxPolicy.SandboxPolicy → PathContext → list string;
  run : SandboxPolicy.SandboxPolicy → PathContext → SandboxCommand → M W SandboxRunResult
}.
Arguments mechanism {W} _. Arguments unenforceable {W} _ _ _. Arguments run {W} _ _ _ _.

Record DestinationBrokerStartRequest := mkStart {
  destinations : list NetworkRule;
  start_platform : Platform;
  start_scratch : AbsolutePath
}.
Record DestinationBrokerSession (W : Type) := mkSession {
  proxyUrl : string;
  enforcement : SandboxPolicy.NetworkBrokerTransport;
  close : M W unit
}.
Arguments proxyUrl {W} _. Arguments enforcement {W} _. Arguments close {W} _.
Record DestinationBroker (W : Type) := mkBroker {
  start : DestinationBrokerStartRequest → M W (DestinationBrokerSession W)
}.
Arguments start {W} _ _.
End Launching.
Import Launching.

(** ** The use case *)

Module RunSandboxed.
Import SandboxPolicy.

Record RunRequest := mkRequest {
  request_executable : string;
  request_args : list string;
  request_profile : StarterProfile
}.
Record RunOutcome := mkOutcome {
  outcome_exitCode : Z;
  outcome_policy : SandboxPolicy;
  outcome_mechanism : string;
  warnings : list string
}.

Definition unenforceable_error (mech : string) (reason : string) (gaps : list string) : exn :=
  UnenforceablePolicyError mech reason gaps.

Definition executableName (executable : string) : string :=
  let basename := match last (split slash (replace_char backslash slash executable)) with
                  | Some w => w | None => "" end in
  EnvironmentPolicy.strip_extension (toLowerCase basename).

Definition trustedTemporaryRoot (ctx : PathContext) : result AbsolutePath :=
  match platform ctx with
  | Platform.Darwin => AbsolutePath.of_ "/private/tmp"
  | Platform.Linux => AbsolutePath.of_ "/tmp"
  | Platform.Win32 => AbsolutePath.joinp (home ctx) ["AppData"; "Local"; "Temp"]
  end.

Definition agent_directories (executable : string) : list string :=
  if (executable =? "claude")%string || (executable =? "claude-code")%string then [".claude"; ".config/claude"]
  else if (executable =? "codex")%string then [".codex"]
  else if (executable =? "gemini")%string then [".gemini"]
  else if (executable =? "opencode")%string
  then [".config/opencode"; ".local/share/opencode"; ".cache/opencode"]
  else if (executable =? "cursor-agent")%string then [".cursor"]
  else [].
Definition agentStateDirs (home : AbsolutePath) (executable : string) : result (list AbsolutePath) :=
  rmapM (λ entry, AbsolutePath.joinp home [entry]) (agent_directories executable).

Definition enforcement_kind (e : NetworkEnforcement) : string :=
  match e with closed => "closed" | unconfigured => "unconfigured" | brokered _ => "brokered" end.

(** What the launcher sets whatever the caller's environment says. *)
Definition launcher_variables (ctx : PathContext) (scratch : AbsolutePath) (proxy : option string) :
    list (string * string) :=
  [("HOME", AbsolutePath.value (home ctx)); ("PWD", AbsolutePath.value (SensitivePaths.workspace ctx));
   ("TMPDIR", AbsolutePath.value scratch); ("TMP", AbsolutePath.value scratch); ("TEMP", AbsolutePath.value scratch)]
  ++ (if bool_decide (platform ctx = Platform.Win32) then [("USERPROFILE", AbsolutePath.value (home ctx))] else [])
  ++ [("AGENTKEEPER_ACTIVE", "1")]
  ++ match proxy with
     | None => []
     | Some url =>
         [("HTTP_PROXY", url); ("HTTPS_PROXY", url); ("ALL_PROXY", url); ("http_proxy", url); ("https_proxy", url);
          ("all_proxy", url); ("npm_config_proxy", url); ("npm_config_https_proxy", url); ("NO_PROXY", "");
          ("no_proxy", ""); ("NODE_USE_ENV_PROXY", "1"); ("AGENTKEEPER_BROKER_ACTIVE", "1")]
     end.
(** [{ ...base, ...more }] *)
Definition spread (base : gmap string string) (more : list (string * string)) : gmap string string :=
  fold_left (λ m kv, <[kv.1 := kv.2]> m) more base.

Section run.
Context `{Digest} {W : Type} (registry : SensitivePathRegistry) (environment : Environment).
Context (runner : option (SandboxRunner W)) (grants : GrantStore W) (files : LaunchFiles W).
Context (audit : AuditLog W) (clock : Clock W) (logger : Logger W).
Context (destinationBroker : option (DestinationBroker W)).
Abbreviation Cache := (gmap string (list AbsolutePath)).

Definition on_cache {A} (m : M Cache A) : M (Cache * W) A := λ s, (((m s.1).1, s.2), (m s.1).2).

(** [for (const x of xs) f(x)] *)
Definition for_each {S A} (f : A → M S unit) (l : list A) : M S unit := mfold (λ _ x, f x) tt l.
Definition resolveAll (paths : list AbsolutePath) : M W (list AbsolutePath) :=
  mfold (λ acc p, let* r := realPath files p in mok (acc ++ [r])) [] paths.

Definition assertCallerHomeDoesNotContainWorkspace (ctx : PathContext) : M W unit :=
  let* callerHome := realPath files (caller_home environment) in
  if negb (AbsolutePath.equals callerHome (home ctx))
     && AbsolutePath.contains (SensitivePaths.workspace ctx) callerHome
  then
    let* ssh := mlift (AbsolutePath.joinp callerHome [".ssh"]) in
    mlift (Err (UnsafeWorkspaceError (AbsolutePath.value (SensitivePaths.workspace ctx)) (AbsolutePath.value ssh)
                  "caller-home"))
  else mok tt.

Definition resolveContext : M W PathContext :=
  let* h := realPath files (identityHome environment) in
  let* ws := realPath files (cwd environment) in
  let ctx := mkContext h ws (env_platform environment) in
  let* _ := assertCallerHomeDoesNotContainWorkspace ctx in
  mok ctx.

Definition selectRunner : result (SandboxRunner W) :=
  match runner with
  | Some r => Ok r
  | None => Err (unenforceable_error "none" "backend-unavailable"
      ["No supported OS sandbox backend is available; without layer 1 the command would have full user permissions."])
  end.

(** The grants that may enter the policy. *)
Definition trusted_grants (callerHome : AbsolutePath) (ctx : PathContext) (stored : list Grant) : list Grant :=
  if AbsolutePath.equals callerHome (home ctx) then stored
  else bfilter (λ g, negb (bool_decide (Grant.origin g = Grant.manual))) stored.

(** What [buildPolicy] throws in place of an error. *)
Definition policy_error (e : exn) : exn :=
  match e with
  | UnsafeWorkspaceError _ _ _ => e
  | _ => JsError ("Could not build a sandbox policy: " +:+ exn_message e
                  +:+ ". Refusing to start the command unconfined.")
  end.
Definition buildPolicy (profile : StarterProfile) (ctx : PathContext) (scratch : AbsolutePath) (executable : string) :
    M (Cache * W) SandboxPolicy :=
  map_error policy_error
    (let* callerHome := in_world (realPath files (caller_home environment)) in
     let* storedGrants := in_world (all_grants grants) in
     let trusted := trusted_grants callerHome ctx storedGrants in
     let* _ := if negb (length trusted =? length storedGrants)
               then in_world (warn logger "Ignored hand-written grants from a non-canonical HOME.")
               else mok tt in
     let* toolchains := in_world (resolveAll (toolchainRoots environment)) in
     let* state := mlift (AbsolutePath.joinp (home ctx) [".agentkeeper"]) in
     let* stateDir := in_world (realPath files state) in
     let* agents := mlift (agentStateDirs (home ctx) (executableName executable)) in
     let* agentDirs := in_world (resolveAll agents) in
     let* built := on_cache (PolicyBuilder.build registry
       (PolicyBuilder.mkInput profile trusted ctx (WorkspaceId.fromPath (SensitivePaths.workspace ctx))
          toolchains stateDir agentDirs [scratch])) in
     let* _ := for_each (λ entry, in_world (warn logger
         ("Not granted: " +:+ PolicyBuilder.resource entry +:+ " (" +:+ access_name (PolicyBuilder.rejected_access entry)
          +:+ ") — " +:+ PolicyBuilder.detail entry))) (PolicyBuilder.rejected built) in
     mok (PolicyBuilder.policy built)).

(** The body of the [try], whose variable [brokerSession] its [finally] reads. *)
Abbreviation Body A := (M (option (DestinationBrokerSession W) * (Cache * W)) A).
Definition port {A} (m : M W A) : Body A := in_world (in_world m).

Definition startBroker (mech : string) (ctx : PathContext) (scratch : AbsolutePath) (policy : SandboxPolicy) :
    Body SandboxPolicy :=
  if negb (0 <? length (network policy)) then mok policy
  else
    match destinationBroker with
    | None => mlift (Err (unenforceable_error mech "policy-gap"
        ["Destination-controlled network was requested, but no broker is configured."]))
    | Some b =>
        let* session := map_error
            (λ e, unenforceable_error mech "policy-gap" ["Destination broker could not start: " +:+ exn_message e])
            (port (start b (mkStart (network policy) (platform ctx) scratch))) in
        let* _ := in_local (λ _, (Some session, tt)) in
        mok (withNetworkEnforcement policy (brokered (enforcement session)))
    end.

(** From the answer of the backend to the end. *)
Definition launch_body (request : RunRequest) (ctx : PathContext) (r : SandboxRunner W) (scratch : AbsolutePath)
    (policy : SandboxPolicy) : Body RunOutcome :=
  let mech := AssessProtection.mechanism_name (mechanism r) in
  let gaps := unenforceable r policy ctx in
  if 0 <? length gaps then mlift (Err (unenforceable_error mech "policy-gap" gaps))
  else
    let* allowed := mlift (EnvironmentPolicy.forExecutable (request_executable request)) in
    let sanitized := EnvironmentSanitizer.sanitize (variables environment) allowed in
    let* session := in_local (λ session, (session, session)) in
    let env := spread (EnvironmentSanitizer.environment sanitized)
                 (launcher_variables ctx scratch (proxyUrl <$> session)) in
    let* t := port (now clock) in
    let* _ := port (append_ audit (mkEntry t "run.start"
      [("mechanism", DText mech);
       ("workspace", DText (AbsolutePath.value (SensitivePaths.workspace ctx)));
       ("executable", DText (request_executable request));
       ("unenforced", DNumber 0);
       ("environmentRemovedCount", DNumber (Z.of_nat (EnvironmentSanitizer.removedCount sanitized)));
       ("environmentRemovedNames", DList (EnvironmentSanitizer.removedNames sanitized));
       ("networkDestinationCount", DNumber (Z.of_nat (length (network policy))));
       ("networkEnforcement", DText (enforcement_kind (networkEnforcement policy)))])) in
    let* result := port (run r policy ctx
      (mkCommand (request_executable request) (request_args request) (SensitivePaths.workspace ctx) env)) in
    let* t' := port (now clock) in
    let* _ := port (append_ audit (mkEntry t' "run.finish"
      [("exitCode", DNumber (exitCode result));
       ("signal", match signal result with Some s => DText s | None => DNull end)])) in
    mok (mkOutcome (exitCode result) policy mech []).

Definition try_body (request : RunRequest) (ctx : PathContext) (r : SandboxRunner W) (scratch : AbsolutePath) :
    Body RunOutcome :=
  let mech := AssessProtection.mechanism_name (mechanism r) in
  let* policy := in_world (buildPolicy (request_profile request) ctx scratch (request_executable request)) in
  let* policy := startBroker mech ctx scratch policy in
  launch_body request ctx r scratch policy.

Definition close_session (session : option (DestinationBrokerSession W)) : M W unit :=
  match session with Some s => close s | None => mok tt end.

Definition execute (request : RunRequest) : M (Cache * W) RunOutcome :=
  let* ctx := in_world resolveContext in
  let* r := mlift selectRunner in
  let* root := mlift (trustedTemporaryRoot ctx) in
  let* scratch := in_world (makeTemporaryDirectory files root "agentkeeper-") in
  λ s, match try_body request ctx r scratch (None, s) with
       | ((session, s1), out) =>
           finally (λ s, (s, out))
             (in_world (finally (close_session session) (removeDirectory files scratch))) s1
       end.
End run.
End RunSandboxed.

(** ** The marks of a run *)

Inductive Mark :=
| made (scratch : AbsolutePath)
| broker_started (request : DestinationBrokerStartRequest)
| launched (policy : SandboxPolicy.SandboxPolicy) (context : PathContext) (command : SandboxCommand)
| broker_closed
| removed (scratch : AbsolutePath).

(** Only a made directory, a started or closed broker, a launch and a removal leave a mark;
    resolved paths are values of the constructor. *)
Class LaunchLaws {W : Type} (runner : option (SandboxRunner W)) (grants : GrantStore W) (files : LaunchFiles W)
    (audit : AuditLog W) (clock : Clock W) (logger : Logger W) (broker : option (DestinationBroker W)) := {
  marks : W → list Mark;
  realPath_law : ∀ p w, marks (realPath files p w).1 = marks w
    ∧ ∀ q, (realPath files p w).2 = Ok q → AbsolutePath.of_ (AbsolutePath.value q) = Ok q;
  make_law : ∀ root prefix w, let r := makeTemporaryDirectory files root prefix w in
    marks r.1 = marks w ++ match r.2 with Ok d => [made d] | Err _ => [] end;
  removal_law : ∀ d w, marks (removeDirectory files d w).1 = marks w ++ [removed d];
  grants_law : ∀ w, marks (all_grants grants w).1 = marks w;
  audit_law : ∀ e w, marks (append_ audit e w).1 = marks w;
  clock_law : ∀ w, marks (now clock w).1 = marks w;
  warn_law : ∀ m w, marks (warn logger m w).1 = marks w;
  start_law : ∀ b request w, broker = Some b → let r := start b request w in
    marks r.1 = marks w ++ match r.2 with Ok _ => [broker_started request] | Err _ => [] end
    ∧ ∀ session w', r.2 = Ok session → marks (close session w').1 = marks w' ++ [broker_closed];
  run_law : ∀ r policy ctx command w, runner = Some r →
    marks (run r policy ctx command w).1 = marks w ++ [launched policy ctx command]
}.

Section protocol.
Import SandboxPolicy RunSandboxed.
Context `{Digest} {W : Type} (registry : SensitivePathRegistry) (environment : Environment).
Context (runner : option (SandboxRunner W)) (grants : GrantStore W) (files : LaunchFiles W).
Context (audit : AuditLog W) (clock : Clock W) (logger : Logger W) (broker : option (DestinationBroker W)).
Context `{!LaunchLaws runner grants files audit clock logger broker}.
Abbreviation Cache := (gmap string (list AbsolutePath)).

(** The policy built for a launch: tier-2 paths only by a manual grant read from the store
    while the caller's home is the real one, and no network but the profile's. *)
Definition well_built (request : RunRequest) (ctx : PathContext) (p : SandboxPolicy) : Prop :=
  network p = StarterProfile.network (request_profile request)
  ∧ ∃ callerHome stored w1 w2,
      (realPath files (caller_home environment) w1).2 = Ok callerHome
      ∧ (all_grants grants w2).2 = Ok stored
      ∧ ∀ a path, AccessTierResolver.tierOf registry path a ctx = AccessTier.DANGEROUS →
          allows p a path ctx = true →
          ∃ g, g ∈ stored ∧ Grant.origin g = Grant.manual ∧ Grant.access g = a
             ∧ ResourceRef.covers (Grant.resource g) path = true
             ∧ AbsolutePath.equals callerHome (home ctx) = true.

(** A launch that the boundary holds for. *)
Definition confined (request : RunRequest) (scratch : AbsolutePath) (p : SandboxPolicy) (ctx : PathContext)
    (cmd : SandboxCommand) : Prop :=
  well_built request ctx p
  ∧ (∃ r, runner = Some r ∧ unenforceable r p ctx = [])
  ∧ match networkEnforcement p with
    | closed => network p = []
    | unconfigured => False
    | brokered _ => network p ≠ []
    end
  ∧ executable cmd = request_executable request ∧ args cmd = request_args request
  ∧ command_cwd cmd = SensitivePaths.workspace ctx
  ∧ ∃ allowed proxy, EnvironmentPolicy.forExecutable (request_executable request) = Ok allowed
      ∧ (is_Some proxy ↔ network p ≠ [])
      ∧ ∀ name value, env cmd !! name = Some value ↔
          (name, value) ∈ launcher_variables ctx scratch proxy
          ∨ name ∉ (launcher_variables ctx scratch proxy).*1
            ∧ variables environment !! name = Some (Some value)
            ∧ EnvironmentPolicy.allows allowed name = true.

(** The only shapes of a run's marks. *)
Definition protocol (request : RunRequest) (t : list Mark) : Prop :=
  t = [] ∨ ∃ scratch session launch,
    t = made scratch :: match session with Some s => [broker_started s] | None => [] end ++ launch
        ++ match session with Some _ => [broker_closed] | None => [] end ++ [removed scratch]
    ∧ (launch = [] ∨ ∃ p ctx cmd, launch = [launched p ctx cmd] ∧ confined request scratch p ctx cmd
         ∧ (is_Some session ↔ network p ≠ [])).

(** *** Operations without marks *)

(** [quiet m w Q]: from a state with the world's marks [w], no mark is left. *)
Definition at_marks (ms : list Mark) (s : Cache * W) : Prop :=
  AccessTierResolver.cache_ok registry s.1 ∧ marks s.2 = ms.

Lemma realPath_yields ms p : yields (λ w, marks w = ms) (realPath files p)
  (λ q, (∃ w, (realPath files p w).2 = Ok q) ∧ AbsolutePath.of_ (AbsolutePath.value q) = Ok q).
Proof.
  intros w Hw. destruct (realPath_law p w) as [H1 H2]. split; [congruence|]. intros q Hq.
  split; [by exists w|by apply H2].
Qed.

Lemma resolveAll_yields ms l : yields (λ w, marks w = ms) (resolveAll files l) (λ _, True).
Proof.
  apply (yields_fold _ _ l (λ _ _, True)); [|done]. intros _ p acc _ _.
  eapply yields_seq; [apply realPath_yields|]. intros q _. by apply yields_ok.
Qed.

Lemma in_cache_yields {A} ms (m : M W A) Q :
  yields (λ w, marks w = ms) m Q → yields (at_marks ms) (in_world m) Q.
Proof. intros Hm [c w] [Hc Hw]. destruct (Hm w Hw) as [H1 H2]. split; [by split|done]. Qed.

Lemma spread_iff base more name value : NoDup more.*1 →
  spread base more !! name = Some value ↔
  (name, value) ∈ more ∨ name ∉ more.*1 ∧ base !! name = Some value.
Proof.
  revert base. induction more as [|[k v] more IH]; intros base Hnd; cbn in *.
  { split; [right; split; [set_solver|done]|intros [?|[_ ?]]; [set_solver|done]]. }
  apply NoDup_cons in Hnd as [Hk Hnd]. unfold spread in *. cbn. rewrite (IH _ Hnd).
  rewrite !elem_of_cons. destruct (decide (name = k)) as [->|Hne].
  - rewrite lookup_insert_eq. split.
    + intros [Hin|[_ [= ->]]]; [|by left; left]. exfalso. apply Hk, list_elem_of_fmap. by exists (k, value).
    + intros [[[= ->]|Hin]|[Hn _]]; [right; split; [done|done]|by left|]. exfalso. apply Hn. by left.
  - rewrite lookup_insert_ne by done. naive_solver.
Qed.

Lemma launcher_NoDup ctx scratch proxy : NoDup (launcher_variables ctx scratch proxy).*1.
Proof.
  unfold launcher_variables. destruct (platform ctx), proxy; cbn;
    apply (bool_decide_unpack _); vm_compute; exact I.
Qed.

(** *** The phases *)

Lemma resolveContext_yields ms : yields (λ w, marks w = ms) (resolveContext environment files)
  AccessTierResolver.real_home.
Proof.
  unfold resolveContext. eapply yields_seq; [apply realPath_yields|]. intros h [_ Hh].
  eapply yields_seq; [apply realPath_yields|]. intros ws _.
  eapply yields_seq with (P := λ _, True); [|intros _ _; by apply yields_ok].
  unfold assertCallerHomeDoesNotContainWorkspace. eapply yields_seq; [apply realPath_yields|]. intros q _.
  case_match; [|by apply yields_ok]. eapply yields_seq with (P := λ _, True); [by apply yields_lift|intros; by apply yields_lift].
Qed.

Lemma trusted_grants_spec callerHome ctx stored g : g ∈ trusted_grants callerHome ctx stored →
  g ∈ stored ∧ (Grant.origin g = Grant.manual → AbsolutePath.equals callerHome (home ctx) = true).
Proof.
  unfold trusted_grants. destruct (AbsolutePath.equals callerHome (home ctx)); [done|].
  intros [Hg Ho%negb_true_iff%bool_decide_eq_false]%elem_of_bfilter. done.
Qed.

Lemma build_well_built request ctx ms callerHome stored input w1 w2 :
  AccessTierResolver.real_home ctx →
  PolicyBuilder.context input = ctx → PolicyBuilder.profile input = request_profile request →
  PolicyBuilder.grants input = trusted_grants callerHome ctx stored →
  (realPath files (caller_home environment) w1).2 = Ok callerHome → (all_grants grants w2).2 = Ok stored →
  yields (at_marks ms) (on_cache (W := W) (PolicyBuilder.build registry input)) (λ b, well_built request ctx (PolicyBuilder.policy b)
    ∧ networkEnforcement (PolicyBuilder.policy b)
      = if length (network (PolicyBuilder.policy b)) =? 0 then closed else unconfigured).
Proof.
  intros Hh Hctx Hprof Hgr H1 H2 [c w] [Hc Hw]. unfold on_cache. cbn [fst snd] in *.
  assert (AccessTierResolver.real_home (PolicyBuilder.context input)) as Hh' by congruence.
  destruct (PolicyProperties.build_yields registry input Hh' c Hc) as [Hc' _]. split; [by split|].
  intros b Hb. destruct (PolicyProperties.build_network registry input c I) as [_ Hn].
  destruct (Hn b Hb) as [Hnet Henf]. rewrite Hnet, Hprof in *. split; [|done]. split; [done|].
  exists callerHome, stored, w1, w2. split_and!; [done..|]. intros a path Ht Ha.
  destruct (PolicyBuilder.build registry input c) as [c' r] eqn:E. cbn [snd] in Hb. subst r ctx.
  apply (PolicyProperties.tier2_iff registry input c c' b a path Hc Hh' E Ht) in Ha
    as (g & Hg & _ & Ho & Hacc & _ & Hcov). rewrite Hgr in Hg. apply trusted_grants_spec in Hg as [Hg Hman].
  exists g. split_and!; auto.
Qed.

Lemma buildPolicy_yields request ctx scratch ms : AccessTierResolver.real_home ctx →
  yields (at_marks ms)
    (buildPolicy registry environment grants files logger (request_profile request) ctx scratch (request_executable request))
    (λ p, well_built request ctx p
          ∧ networkEnforcement p = if length (network p) =? 0 then closed else unconfigured).
Proof.
  intros Hh. apply yields_map_error.
  eapply yields_seq; [apply in_cache_yields, realPath_yields|]. intros callerHome [[w1 H1] _].
  eapply yields_seq with (P := λ stored, ∃ w2, (all_grants grants w2).2 = Ok stored).
    { apply in_cache_yields. intros w Hw. split; [by rewrite grants_law|]. intros stored ?. by exists w. }
  intros stored [w2 H2].
  eapply yields_seq with (P := λ _, True).
    { case_match; [|by apply yields_ok]. apply in_cache_yields. intros w Hw. by rewrite warn_law. }
  intros _ _. eapply yields_seq; [apply in_cache_yields, resolveAll_yields|]. intros toolchains _.
  eapply yields_seq with (P := λ _, True); [by apply yields_lift|]. intros state _.
  eapply yields_seq; [apply in_cache_yields, realPath_yields|]. intros stateDir _.
  eapply yields_seq with (P := λ _, True); [by apply yields_lift|]. intros agents _.
  eapply yields_seq; [apply in_cache_yields, resolveAll_yields|]. intros agentDirs _.
  eapply yields_seq; [by eapply (build_well_built request ctx ms callerHome stored _ w1 w2)|]. intros b Hb.
  eapply yields_seq with (P := λ _, True); [|intros _ _; by apply yields_ok].
  apply (yields_fold _ _ _ (λ _ _, True)); [|done]. intros _ entry [] _ _. apply in_cache_yields.
  intros w Hw. by rewrite warn_law.
Qed.

(** *** The body of the [try] *)

Abbreviation Session := (DestinationBrokerSession W).
Definition closes (session : option Session) : Prop :=
  match session with
  | Some x => ∀ w, marks (close x w).1 = marks w ++ [broker_closed]
  | None => True
  end.
Definition opening (session : option Session) (ctx : PathContext) (scratch : AbsolutePath) (p : SandboxPolicy) :
    option DestinationBrokerStartRequest :=
  match session with Some _ => Some (mkStart (network p) (platform ctx) scratch) | None => None end.
Definition opening_marks (o : option DestinationBrokerStartRequest) : list Mark :=
  match o with Some r => [broker_started r] | None => [] end.

(** The policy a launch gets from the built one, and the session that goes with it. *)
Definition armed (p p' : SandboxPolicy) (session : option Session) : Prop :=
  match session with
  | None => network p = [] ∧ p' = p
  | Some x => network p ≠ [] ∧ p' = withNetworkEnforcement p (brokered (enforcement x))
  end.

Lemma startBroker_spec bo mech ctx scratch p c w : bo = broker →
  let r := startBroker bo mech ctx scratch p (None, (c, w)) in
  ∃ session w', r.1 = (session, (c, w')) ∧ closes session
  ∧ marks w' = marks w ++ opening_marks (opening session ctx scratch p)
  ∧ ∀ p', r.2 = Ok p' → armed p p' session.
Proof.
  intros Hbo. unfold startBroker. destruct (Nat.ltb_spec 0 (length (network p))) as [Hn|Hn]; cbn [negb].
  2:{ exists None, w. rewrite app_nil_r. split_and!; [done..|]. intros p' [= <-].
      split; [|done]. destruct (network p); [done|cbn in Hn; lia]. }
  destruct bo as [b|]; [|exists None, w; by rewrite app_nil_r].
  unfold mseq, map_error, port, in_world, in_local. cbn [fst snd].
  destruct (start_law b (mkStart (network p) (platform ctx) scratch) w (eq_sym Hbo)) as [H1 H2].
  destruct (start b _ w) as [w' [x|e]]; cbn [fst snd] in *.
  - exists (Some x), w'. split_and!; [done|intros w2; by apply (H2 x)|done|]. intros p' [= <-].
    split; [|done]. intros Hnil. rewrite Hnil in Hn. cbn in Hn. lia.
  - exists None, w'. by split_and!.
Qed.

(** What the body leaves behind. *)
Definition body_post (request : RunRequest) (ctx : PathContext) (scratch : AbsolutePath) (ms : list Mark)
    (r : (option Session * (Cache * W)) * result RunOutcome) : Prop :=
  AccessTierResolver.cache_ok registry r.1.2.1 ∧ closes r.1.1
  ∧ ∃ opened launch, marks r.1.2.2 = ms ++ opening_marks opened ++ launch
    ∧ (is_Some opened ↔ is_Some r.1.1)
    ∧ (launch = [] ∨ ∃ p cmd, launch = [launched p ctx cmd] ∧ confined request scratch p ctx cmd
         ∧ (is_Some opened ↔ network p ≠ []))
    ∧ ∀ out, r.2 = Ok out → ∃ cmd, launch = [launched (outcome_policy out) ctx cmd].


Lemma launch_spec request ctx r scratch p0 p session c w ms opened :
  runner = Some r → AccessTierResolver.cache_ok registry c → closes session → armed p0 p session →
  well_built request ctx p0 →
  networkEnforcement p0 = (if length (network p0) =? 0 then closed else unconfigured) →
  opened = opening session ctx scratch p0 → marks w = ms ++ opening_marks opened →
  body_post request ctx scratch ms
    (launch_body environment audit clock request ctx r scratch p (session, (c, w))).
Proof.
  intros Hr Hc Hcl Harm Hwb Henf Hop Hms.
  assert (network p = network p0 ∧ (∀ a path, allows p a path ctx = allows p0 a path ctx)
    ∧ (is_Some opened ↔ network p ≠ []) ∧ (is_Some opened ↔ is_Some session)
    ∧ match networkEnforcement p with closed => network p = [] | unconfigured => False | brokered _ => network p ≠ [] end)
    as (Hnet & Hal & Hopn & Hops & Hen).
  { subst opened. destruct session as [x|]; cbn in Harm |- *; destruct Harm as [Hn ->].
    - split_and!; done.
    - rewrite Henf, Hn. cbn. split_and!; try done; by split; [intros []|]. }
  assert (∀ w' launch out, marks w' = marks w ++ launch →
    (launch = [] ∨ ∃ p' cmd, launch = [launched p' ctx cmd] ∧ confined request scratch p' ctx cmd ∧ p' = p) →
    (∀ o, out = Ok o → ∃ cmd, launch = [launched (outcome_policy o) ctx cmd]) →
    body_post request ctx scratch ms ((session, (c, w')), out)) as Hpost.
  { intros w' launch out Hw' Hl Ho. split; [done|]. split; [done|]. exists opened, launch. cbn [fst snd].
    split_and!; [by rewrite Hw', Hms, <-app_assoc|done| |done].
    destruct Hl as [->|(p' & cmd & -> & Hconf & ->)]; [by left|right]. by exists p, cmd. }
  unfold launch_body. destruct (Nat.ltb_spec 0 (length (unenforceable r p ctx))) as [Hg|Hg].
  { apply (Hpost w []); [by rewrite app_nil_r|by left|done]. }
  unfold mseq at 1, mlift. destruct (EnvironmentPolicy.forExecutable _) as [allowed|e] eqn:Hall.
  2:{ apply (Hpost w []); [by rewrite app_nil_r|by left|done]. }
  unfold mseq, port, in_world, in_local. cbn [fst snd].
  set (cmd := mkCommand _ _ _ _).
  pose proof (clock_law w) as H1. destruct (now clock w) as [w1 [t|e]]; cbn [fst snd] in *;
    [|apply (Hpost w1 []); [by rewrite app_nil_r|by left|done]].
  match goal with |- context [append_ audit ?e w1] => pose proof (audit_law e w1) as H2; destruct (append_ audit e w1) as [w2 [u|x]] end;
    cbn [fst snd] in *; [|apply (Hpost w2 []); [rewrite app_nil_r; congruence|by left|done]].
  pose proof (run_law r p ctx cmd w2 Hr) as H3.
  assert (confined request scratch p ctx cmd) as Hconf.
  { split.
    - destruct Hwb as [Hn (ch & st & v1 & v2 & Hv1 & Hv2 & Ht)]. split; [congruence|].
      exists ch, st, v1, v2. split_and!; [done..|]. intros a path. rewrite Hal. apply Ht.
    - split_and!; [|done..|].
      + exists r. split; [done|]. destruct (unenforceable r p ctx); [done|cbn in Hg; lia].
      + exists allowed, (proxyUrl <$> session). split_and!; [done| |].
        * rewrite fmap_is_Some, <-Hops. exact Hopn.
        * intros name value. unfold cmd. cbn [env]. rewrite spread_iff by apply launcher_NoDup.
          by rewrite EnvironmentSanitizer.sanitize_iff. }
  assert (∀ w' out, marks w' = marks w ++ [launched p ctx cmd] →
    (∀ o, out = Ok o → outcome_policy o = p) → body_post request ctx scratch ms ((session, (c, w')), out)) as Hafter.
  { intros w' out Hw' Ho. apply (Hpost w' [launched p ctx cmd]); [done|right; by exists p, cmd|].
    intros o Hout. exists cmd. by rewrite (Ho o Hout). }
  destruct (run r p ctx cmd w2) as [w3 [res|x]]; cbn [fst snd] in *; [|apply Hafter; [congruence|done]].
  pose proof (clock_law w3) as H4. destruct (now clock w3) as [w4 [t'|x]]; cbn [fst snd] in *;
    [|apply Hafter; [congruence|done]].
  match goal with |- context [append_ audit ?e w4] => pose proof (audit_law e w4) as H5; destruct (append_ audit e w4) as [w5 [u'|x]] end;
    cbn [fst snd] in *; (apply Hafter; [congruence|]); [|done]. by intros o [= <-].
Qed.

Lemma try_body_spec request ctx r scratch c w :
  runner = Some r → AccessTierResolver.real_home ctx → AccessTierResolver.cache_ok registry c →
  body_post request ctx scratch (marks w)
    (try_body registry environment grants files audit clock logger broker request ctx r scratch (None, (c, w))).
Proof.
  intros Hr Hh Hc. unfold try_body. unfold mseq at 1. unfold in_world at 1. cbn [fst snd].
  destruct (buildPolicy_yields request ctx scratch (marks w) Hh (c, w)) as [[H1 H2] H3]; [done|].
  destruct (buildPolicy _ _ _ _ _ _ _ _ _ (c, w)) as [[c1 w1] [p|e]]; cbn [fst snd] in *.
  2:{ split; [done|]. split; [done|]. exists None, []. cbn. rewrite app_nil_r.
      split_and!; [done|by split; intros []|by left|done]. }
  destruct (H3 p eq_refl) as [Hwb Henf]. unfold mseq.
  destruct (startBroker_spec broker (AssessProtection.mechanism_name (mechanism r)) ctx scratch p c1 w1 eq_refl)
    as (session & w2 & Hs & Hcl & Hm & Harm).
  destruct (startBroker _ _ _ _ _ _) as [s2 [p'|e]]; cbn [fst snd] in *; subst s2.
  - apply (launch_spec request ctx r scratch p p' session c1 w2 (marks w) (opening session ctx scratch p)); try done.
    + by apply Harm.
    + congruence.
  - split; [done|]. split; [done|]. exists (opening session ctx scratch p), []. cbn. rewrite app_nil_r.
    split_and!; [congruence| |by left|done]. by destruct session; split; intros [].
Qed.

Lemma selectRunner_ok r : selectRunner runner = Ok r → runner = Some r.
Proof. unfold selectRunner. destruct (runner : option (SandboxRunner W)); [by intros [= <-]|done]. Qed.

(** Closing and removing, in any event, mark the end. *)
Lemma cleanup_spec session scratch w : closes session →
  marks (finally (close_session session) (removeDirectory files scratch) w).1
  = marks w ++ match session with Some _ => [broker_closed] | None => [] end ++ [removed scratch].
Proof.
  intros Hcl. unfold finally, close_session. destruct session as [x|]; cbn [closes] in Hcl.
  - specialize (Hcl w). destruct (close x w) as [w1 o]; cbn [fst] in Hcl.
    pose proof (removal_law scratch w1) as H1.
    destruct (removeDirectory files scratch w1) as [w2 [u|e]]; cbn [fst] in *; by rewrite H1, Hcl, <-app_assoc.
  - cbn. pose proof (removal_law scratch w) as H1.
    by destruct (removeDirectory files scratch w) as [w2 [u|e]]; cbn [fst] in *.
Qed.

(** C4. A run leaves nothing but one of these traces: nothing at all; or a scratch
    directory that is made first and removed last, around a broker that is closed whenever
    it was started, around at most one launch. A launch happens only under a policy that
    was built for it, of which the backend enforces everything, whose network is closed
    or brokered, which opens a tier-2 path only by a manual grant of the store under the
    caller's real home; in the workspace, with an environment in which every variable is
    the launcher's or was allowed through. This holds whatever the ports answer. *)
Theorem protected_run request c w :
  AccessTierResolver.cache_ok registry c →
  let r := execute registry environment runner grants files audit clock logger broker request (c, w) in
  AccessTierResolver.cache_ok registry r.1.1
  ∧ ∃ t, marks r.1.2 = marks w ++ t ∧ protocol request t
    ∧ ∀ out, r.2 = Ok out → ∃ ctx cmd, launched (outcome_policy out) ctx cmd ∈ t.
Proof.
  intros Hc. destruct (execute _ _ _ _ _ _ _ _ _ request (c, w)) as [s res] eqn:E. cbn [fst snd]. revert E.
  assert (∀ w', marks w' = marks w → (c, w') = s → (∃ e, res = Err e) →
    AccessTierResolver.cache_ok registry s.1 ∧ ∃ t, marks s.2 = marks w ++ t ∧ protocol request t
    ∧ ∀ out, res = Ok out → ∃ ctx cmd, launched (outcome_policy out) ctx cmd ∈ t) as Hquiet.
  { intros w' Hw' <- [e ->]. split; [done|]. exists []. rewrite app_nil_r. split_and!; [done|by left|done]. }
  unfold execute. unfold mseq at 1. unfold in_world at 1. cbn [fst snd].
  destruct (resolveContext_yields (marks w) w eq_refl) as [H1 H2].
  destruct (resolveContext environment files w) as [w1 [ctx|e]]; cbn [fst snd] in *.
  2:{ intros [= <- <-]. apply (Hquiet w1); [done..|by eexists]. }
  specialize (H2 ctx eq_refl). unfold mseq at 1, mlift at 1.
  destruct (selectRunner runner) as [r|e] eqn:Hsel; [|intros [= <- <-]; apply (Hquiet w1); [done..|by eexists]].
  apply selectRunner_ok in Hsel. unfold mseq at 1, mlift at 1.
  destruct (trustedTemporaryRoot ctx) as [root|e]; [|intros [= <- <-]; apply (Hquiet w1); [done..|by eexists]].
  unfold mseq at 1. unfold in_world at 1. cbn [fst snd]. pose proof (make_law root "agentkeeper-" w1) as Hmk.
  destruct (makeTemporaryDirectory files root "agentkeeper-" w1) as [w2 [scratch|e]]; cbn [fst snd] in *.
  2:{ rewrite app_nil_r in Hmk. intros [= <- <-]. apply (Hquiet w2); [congruence|done|by eexists]. }
  pose proof (try_body_spec request ctx r scratch c w2 Hsel H2 Hc) as Hbody.
  destruct (try_body _ _ _ _ _ _ _ _ request ctx r scratch (None, (c, w2))) as [[session [c3 w3]] out].
  destruct Hbody as (Hc3 & Hcl & opened & launch & Hm & Hop & Hl & Hout). cbn [fst snd] in *.
  pose proof (cleanup_spec session scratch w3 Hcl) as Hclean. unfold finally at 1, in_world. cbn [fst snd].
  destruct (finally (close_session session) (removeDirectory files scratch) w3) as [w4 [u|e]]; cbn [fst snd] in *;
    intros [= <- <-]; cbn [fst snd]; (split; [done|]);
    exists (made scratch :: match opened with Some s => [broker_started s] | None => [] end ++ launch
            ++ match opened with Some _ => [broker_closed] | None => [] end ++ [removed scratch]);
    (split; [rewrite Hclean, Hm, Hmk, H1; rewrite <-!app_assoc; cbn; do 3 f_equal;
             destruct opened, session; try done; [destruct (proj1 Hop)|destruct (proj2 Hop)]; done|]);
    (split; [right; exists scratch, opened, launch; split; [done|];
             destruct Hl as [->|(p & cmd & -> & Hconf & Hi)]; [by left|right; by exists p, ctx, cmd]|]); [|done].
  intros o ->. destruct (Hout o eq_refl) as [cmd ->]. exists ctx, cmd. set_solver.
Qed.
End protocol.

(** ** A machine whose ports keep the laws: its world is the trace of the run. *)
Module TraceMachine.
Import PolicyProperties RunSandboxed.
Abbreviation World := (list Mark).
Definition say (m : Mark) : M World unit := λ w, (w ++ [m], Ok tt).
Definition scratch : AbsolutePath := AbsolutePath.posix_path ["tmp"; "agentkeeper-x"].
Definition runner (gaps : list string) : SandboxRunner World :=
  mkRunner World ProtectionStatus.bubblewrap (λ _ _, gaps)
    (λ p ctx cmd, let* _ := say (launched p ctx cmd) in mok (mkRunResult 0 None)).
Definition grants (stored : list Grant) : GrantStore World :=
  mkGrantStore World (mok stored) (λ _, mok tt) (λ _, mok false).
Definition files : LaunchFiles World :=
  mkLaunchFiles World
    (λ p w, (w, match AbsolutePath.of_ (AbsolutePath.value p) with
                | Ok q => if bool_decide (q = p) then Ok p else throw "ENOENT"
                | Err e => Err e
                end))
    (λ _ _ w, (w ++ [made scratch], Ok scratch)) (λ d, say (removed d)).
Definition audit : AuditLog World := mkAuditLog World (λ _, mok tt).
Definition clock : Clock World := mkClock World (mok 0%Z).
Definition logger : Logger World := mkLogger World (λ _, mok tt).
Definition session : DestinationBrokerSession World :=
  mkSession World "http://127.0.0.1:1" (SandboxPolicy.tcp_loopback 1) (say broker_closed).
Definition broker : DestinationBroker World :=
  mkBroker World (λ r w, (w ++ [broker_started r], Ok session)).

#[global] Instance laws gaps stored :
  LaunchLaws (Some (runner gaps)) (grants stored) files audit clock logger (Some broker).
Proof.
  exists (λ w, w).
  - intros p w. split; [done|]. cbn. intros q.
    destruct (AbsolutePath.of_ (AbsolutePath.value p)) as [q'|e] eqn:E; [|done].
    case_bool_decide; [|done]. intros [= <-]. congruence.
  - done.
  - done.
  - intros w. by destruct stored.
  - done.
  - done.
  - done.
  - intros b r w [= <-]. split; [done|]. by intros x w' [= <-].
  - intros r p ctx cmd w [= <-]. done.
Defined.

Definition environment : Environment :=
  mkEnvironment demo_home demo_home (SensitivePaths.workspace demo_context) Platform.Linux
    {["PATH" := Some "/usr/bin"; "SECRET" := Some "x"; "AGENTKEEPER_ACTIVE" := Some "0"]} [].
Definition profile : StarterProfile :=
  StarterProfile.mkProfile "demo" "demo" "" [] [] [NetworkRule.loopback].
Definition demo_run (gaps : list string) (profile : StarterProfile) :=
  execute default_registry environment (Some (runner gaps)) (grants []) files audit clock logger (Some broker)
    (mkRequest "codex" ["--help"] profile) (∅, []).

Definition kind (m : Mark) : string :=
  match m with
  | made _ => "made" | broker_started _ => "started" | launched _ _ _ => "launched"
  | broker_closed => "closed" | removed _ => "removed"
  end.
Definition launched_env (t : list Mark) (name : string) : option string :=
  match find (λ m, match m with launched _ _ _ => true | _ => false end) t with
  | Some (launched _ _ cmd) => env cmd !! name
  | _ => None
  end.
Example demo_runs :
  map kind (demo_run [] profile).1.2 = ["made"; "started"; "launched"; "closed"; "removed"]
  ∧ map kind (demo_run [] demo_profile).1.2 = ["made"; "launched"; "removed"]
  ∧ map kind (demo_run ["no wildcard"] profile).1.2 = ["made"; "started"; "closed"; "removed"]
  ∧ map (launched_env (demo_run [] profile).1.2) ["PATH"; "SECRET"; "AGENTKEEPER_ACTIVE"; "HTTP_PROXY"]
    = [Some "/usr/bin"; None; Some "1"; Some "http://127.0.0.1:1"].
Proof. split_and!; vm_compute; reflexivity. Qed.
End TraceMachine.

Lemma protected_run_witness :
  ∃ t, (TraceMachine.demo_run [] TraceMachine.profile).1.2 = [] ++ t
  ∧ protocol default_registry TraceMachine.environment (Some (TraceMachine.runner []))
      (TraceMachine.grants []) TraceMachine.files
      (RunSandboxed.mkRequest "codex" ["--help"] TraceMachine.profile) t.
Proof.
  destruct (protected_run default_registry TraceMachine.environment (Some (TraceMachine.runner []))
    (TraceMachine.grants []) TraceMachine.files TraceMachine.audit TraceMachine.clock TraceMachine.logger
    (Some TraceMachine.broker) (RunSandboxed.mkRequest "codex" ["--help"] TraceMachine.profile) ∅ [])
    as (_ & t & H1 & H2 & _).
  - apply AccessTierResolver.cache_ok_empty.
  - exists t. split; [exact H1|exact H2].
Defined.
