(* ===== verification/DestinationGuard.v ===== *)
(** * The destination guard (src/infrastructure/network/DestinationGuard.ts)

    The decision the broker takes after name resolution and before it connects: which
    addresses are public, which are loopback, and the strict parser of CONNECT
    authorities. [isIP] of [node:net] is modelled as the platform library. *)

From Stdlib Require Import ZifyBool.
From S2P Require Import Prelude JsString JsNumber Network.

(** ** [isIP] of [node:net] *)

Module NodeNet.
(** [25[0-5]|2[0-4]\d|1\d\d|[1-9]\d|\d] *)
Definition v4_segment (s : string) : bool :=
  sforall is_digit s && (1 <=? slen s) && (slen s <=? 3) && (digits_value 0 s <=? 255)%Z
  && ((slen s =? 1) || negb (startsWith s "0")).
Definition isIPv4 (s : string) : bool :=
  let parts := split "."%char s in (length parts =? 4) && every v4_segment parts.

(** [[0-9a-fA-F]{1,4}] *)
Definition v6_segment (s : string) : bool :=
  sforall (λ c, is_hex_lower (lower c)) s && (1 <=? slen s) && (slen s <=? 4).
(** [s.split('::')] *)
Fixpoint split2 (s : string) : list string :=
  match s with
  | "" => [""]
  | String ":" (String ":" r) => "" :: split2 r
  | String c r => match split2 r with [] => [str1 c] | w :: ws => String c w :: ws end
  end.
Definition groups (s : string) : list string := if (s =? "")%string then [] else split colon s.
(** How many 16-bit groups a run of segments stands for; only a final one may be dotted. *)
Fixpoint group_count (dotted : bool) (l : list string) : option nat :=
  match l with
  | [] => Some 0
  | [x] => if v6_segment x then Some 1 else if dotted && isIPv4 x then Some 2 else None
  | x :: r => if v6_segment x then S <$> group_count dotted r else None
  end.
(** [(?:%[0-9a-zA-Z-.:]{1,})?] *)
Definition zone_char (c : ascii) : bool :=
  is_digit c || is_lower (lower c) || Ascii.eqb c "-" || Ascii.eqb c "." || Ascii.eqb c colon.
Definition without_zone (s : string) : option string :=
  match indexOf s "%" with
  | None => Some s
  | Some i => let zone := sdrop (S i) s in
              if sforall zone_char zone && (1 <=? slen zone) then Some (stake i s) else None
  end.
Definition isIPv6 (s : string) : bool :=
  match without_zone s with
  | None => false
  | Some t =>
      match split2 t with
      | [one] => match group_count true (groups one) with Some n => n =? 8 | None => false end
      | [before; after] =>
          match group_count false (groups before), group_count true (groups after) with
          | Some n, Some m => n + m <=? 7
          | _, _ => false
          end
      | _ => false
      end
  end.
Definition isIP (s : string) : nat := if isIPv4 s then 4 else if isIPv6 s then 6 else 0.

Example isIP_samples :
  map isIP ["127.0.0.1"; "127.0.0.01"; "1.2.3"; "::1"; "::"; "1::2::3"; "::ffff:10.0.0.1"; "1:2:3:4:5:6:7:8";
            "1:2:3:4:5:6:7::"; "1:2:3:4:5:6:7:8::"; ":::"; "fe80::1%eth0"; "2001:db8::12345"; "host"; ""]
  = [4; 0; 0; 6; 6; 0; 6; 6; 6; 0; 0; 6; 0; 0; 0].
Proof. reflexivity. Qed.
End NodeNet.
Import NodeNet.

(** ** Addresses *)

Module DestinationGuard.

(** [/^\d{1,3}$/] *)
Definition octet_text (s : string) : bool := sforall is_digit s && (1 <=? slen s) && (slen s <=? 3).
Definition parseIpv4 (address : string) : option (list Z) :=
  let parts := split "."%char address in
  if negb (length parts =? 4) then None
  else
    let values := map (digits_value 0) parts in
    if some (λ p, negb (octet_text p) || (255 <? digits_value 0 p)%Z) parts then None else Some values.

Open Scope Z_scope.

(** [Number.parseInt(token, 16)] of a token that [/^[0-9a-f]{1,4}$/] admits. *)
Definition hex_value (c : ascii) : Z := if is_digit c then digit_value c else Z.of_nat (code c) - 87.
Fixpoint hex_digits (acc : Z) (s : string) : Z :=
  match s with "" => acc | String c r => hex_digits (16 * acc + hex_value c) r end.
Definition word_text (s : string) : bool :=
  sforall is_hex_lower s && (1 <=? slen s)%nat && (slen s <=? 4)%nat.

(** The loop of [parseIpv6Part]; [last_] is [tokens.at(-1)], compared as a text. *)
Fixpoint parse_tokens (last_ : string) (tokens : list string) (words : list Z) : option (list Z) :=
  match tokens with
  | [] => Some words
  | token :: rest =>
      if includes token "." then
        match parseIpv4 token with
        | Some [a; b; c; d] =>
            if negb (token =? last_)%string then None
            else parse_tokens last_ rest (words ++ [Z.lor (Z.shiftl a 8) b; Z.lor (Z.shiftl c 8) d])
        | _ => None
        end
      else if negb (word_text token) then None
      else parse_tokens last_ rest (words ++ [hex_digits 0 token])
  end.
Definition parseIpv6Part (raw : string) : option (list Z) :=
  if (slen raw =? 0)%nat then Some []
  else let tokens := split colon raw in parse_tokens (List.last tokens "") tokens [].

Definition ipv6Words (address : string) : option (list Z) :=
  let normalized := toLowerCase address in
  let pieces := split2 normalized in
  if includes normalized "%" || (2 <? length pieces)%nat then None
  else
    match parseIpv6Part (List.nth 0 pieces ""), parseIpv6Part (List.nth 1 pieces "") with
    | Some h, Some t =>
        if negb (includes normalized "::") then if (length h =? 8)%nat then Some h else None
        else
          let missing := (8 - Z.of_nat (length h) - Z.of_nat (length t)) in
          if missing <? 1 then None else Some (h ++ replicate (Z.to_nat missing) 0 ++ t)
    | _, _ => None
    end.

Definition word (ws : list Z) (i : nat) : Z := List.nth i ws 0.
Definition isIpv4Mapped (ws : list Z) : bool :=
  every (λ w, w =? 0) (take 5 ws) && (word ws 5 =? 65535).

Definition isPublicIpv4 (address : string) : bool :=
  match parseIpv4 address with
  | Some [a; b; c; d] =>
      if (a =? 0) || (a =? 10) || (a =? 127) || (224 <=? a) then false
      else if (a =? 100) && (64 <=? b) && (b <=? 127) then false
      else if (a =? 169) && (b =? 254) then false
      else if (a =? 172) && (16 <=? b) && (b <=? 31) then false
      else if (a =? 192) && (b =? 168) then false
      else if (a =? 192) && (b =? 0) && ((c =? 0) || (c =? 2)) then false
      else if (a =? 192) && (b =? 88) && (c =? 99) then false
      else if (a =? 198) && ((b =? 18) || (b =? 19) || ((b =? 51) && (c =? 100))) then false
      else if (a =? 203) && (b =? 0) && (c =? 113) then false
      else true
  | _ => false
  end.

Definition dotted (a b c d : Z) : string :=
  string_of_Z a +:+ "." +:+ string_of_Z b +:+ "." +:+ string_of_Z c +:+ "." +:+ string_of_Z d.

Definition isPublicAddress (address : string) : bool :=
  match isIP address with
  | 4%nat => isPublicIpv4 address
  | 6%nat =>
      match ipv6Words address with
      | None => false
      | Some ws =>
          if isIpv4Mapped ws then
            isPublicIpv4 (dotted (Z.shiftr (word ws 6) 8) (Z.land (word ws 6) 255)
                            (Z.shiftr (word ws 7) 8) (Z.land (word ws 7) 255))
          else if negb (Z.land (word ws 0) 57344 =? 8192) then false
          else if (word ws 0 =? 8193) && (word ws 1 =? 3512) then false
          else if (word ws 0 =? 8193) && (word ws 1 =? 0) then false
          else if (word ws 0 =? 8193) && (word ws 1 =? 2) then false
          else true
      end
  | _ => false
  end.

Definition isLoopbackAddress (address : string) : bool :=
  if (isIP address =? 4)%nat then
    match parseIpv4 address with Some (a :: _) => a =? 127 | _ => false end
  else
    match ipv6Words address with
    | None => false
    | Some ws =>
        if every (λ w, w =? 0) (take 7 ws) && (word ws 7 =? 1) then true
        else if negb (isIpv4Mapped ws) then false
        else Z.shiftr (word ws 6) 8 =? 127
    end.

Definition loopbackHost (host : string) : bool :=
  let normalized := NetworkRule.strip_dot (toLowerCase host) in
  (normalized =? "localhost")%string || endsWith normalized ".localhost" || isLoopbackAddress normalized.

(** ** The decision *)

Record ResolvedAddress := mkAddress { address : string; family : nat }.
Inductive DestinationDenialReason :=
| destination_not_allowed | dns_empty | non_public_address | loopback_resolution_mismatch.
Inductive DestinationAuthorization :=
| authorized (pinnedAddress : string) (pinned_family : nat)
| denied (reason : DestinationDenialReason).

Definition authorize (host : string) (port : JsNumber) (rules : list NetworkRule)
    (addresses : list ResolvedAddress) : DestinationAuthorization :=
  let loopbackRule := find (λ r, NetworkRule.allowsLoopback r && loopbackHost host) rules in
  let exactRule := find (λ r, NetworkRule.isExplicitDestination r && NetworkRule.matches r host port) rules in
  match loopbackRule, exactRule with
  | None, None => denied destination_not_allowed
  | _, _ =>
      match addresses with
      | [] => denied dns_empty
      | selected :: _ =>
          match loopbackRule with
          | Some _ =>
              if negb (every (λ a, isLoopbackAddress (address a)) addresses)
              then denied loopback_resolution_mismatch
              else authorized (address selected) (family selected)
          | None =>
              if negb (every (λ a, isPublicAddress (address a)) addresses)
              then denied non_public_address
              else authorized (address selected) (family selected)
          end
      end
  end.

(** ** CONNECT authorities *)

(** [/[\u0000-\u0020\u007f/@\\]/] *)
Definition forbidden (c : ascii) : bool :=
  in_range 0 32 c || (code c =? 127)%nat || Ascii.eqb c slash || Ascii.eqb c "@" || Ascii.eqb c backslash.
(** [/^\d{1,5}$/] *)
Definition port_text (s : string) : bool := sforall is_digit s && (1 <=? slen s)%nat && (slen s <=? 5)%nat.
(** The groups of [/^\[([^\]]+)]:(\d{1,5})$/]. *)
Definition bracketed (s : string) : option (string * string) :=
  match s with
  | String "[" r =>
      match indexOf r "]" with
      | Some i =>
          let host := stake i r in
          match sdrop (S i) r with
          | String ":" p => if (0 <? slen host)%nat && port_text p then Some (host, p) else None
          | _ => None
          end
      | None => None
      end
  | _ => None
  end.

Definition check_port (host rawPort : string) : result (string * Z) :=
  let port := digits_value 0 rawPort in
  if (port <? 1) || (65535 <? port) then throw "CONNECT port is outside 1..65535" else Ok (host, port).

Definition parseConnectAuthority (authority : string) : result (string * Z) :=
  if (slen authority =? 0)%nat || (512 <? slen authority)%nat || sexists forbidden authority
  then throw "Invalid CONNECT authority"
  else if startsWith authority "[" then
    match bracketed authority with
    | Some (host, rawPort) =>
        if negb (isIP host =? 6)%nat then throw "Invalid bracketed IPv6 CONNECT authority"
        else check_port host rawPort
    | None => throw "Invalid bracketed IPv6 CONNECT authority"
    end
  else
    match lastIndexOf authority ":" with
    | None | Some O => throw "CONNECT authority must contain one explicit port"
    | Some separator =>
        if negb (bool_decide (indexOf authority ":" = Some separator))
        then throw "CONNECT authority must contain one explicit port"
        else
          let host := NetworkRule.strip_dot (toLowerCase (stake separator authority)) in
          let rawPort := sdrop (S separator) authority in
          if negb (port_text rawPort) then throw "Invalid CONNECT port" else check_port host rawPort
    end.

Example samples :
  map isPublicAddress ["8.8.8.8"; "10.1.2.3"; "100.64.0.1"; "169.254.169.254"; "198.51.100.7"; "2606:4700::1111"; "::1";
                       "::ffff:10.0.0.1"; "::ffff:8.8.8.8"; "fe80::1"; "2001:db8::1"; "fd00::1"]
  = [true; false; false; false; false; true; false; false; true; false; false; false]
  ∧ map isLoopbackAddress ["127.0.0.9"; "::1"; "::ffff:127.1.1.1"; "0.0.0.0"] = [true; true; true; false]
  ∧ parseConnectAuthority "Example.COM.:443" = Ok ("example.com", 443)
  ∧ parseConnectAuthority "[2001:db8::1]:80" = Ok ("2001:db8::1", 80).
Proof. vm_compute. done. Qed.

(** ** Dotted addresses *)

Definition octet (a : Z) : Prop := 0 <= a <= 255.

Lemma octet_spec a : octet a →
  v4_segment (string_of_Z a) = true ∧ octet_text (string_of_Z a) = true ∧ digits_value 0 (string_of_Z a) = a
  ∧ has_char "." (string_of_Z a) = false.
Proof.
  intros Ha. unfold octet in Ha. destruct (string_of_Z_spec a) as (H1 & H2 & H3 & H4 & H5); [lia|].
  assert (slen (string_of_Z a) <= 3)%nat as Hl by (apply (H3 3%nat); [cbn; lia|lia]).
  unfold v4_segment, octet_text. rewrite H1, H2. split_and!; try done; [|lia|by apply digits_no_char].
  destruct H5 as [Hs|H5]; [|change "0" with (str1 "0"); rewrite H5; lia].
  assert (slen (string_of_Z a) <= 1)%nat by (apply (H3 1%nat); [cbn; lia|lia]). lia.
Qed.

Lemma dotted_parts a b c d : octet a → octet b → octet c → octet d →
  split "."%char (dotted a b c d) = [string_of_Z a; string_of_Z b; string_of_Z c; string_of_Z d].
Proof.
  intros Ha Hb Hc Hd. unfold dotted.
  change (string_of_Z a +:+ "." +:+ string_of_Z b +:+ "." +:+ string_of_Z c +:+ "." +:+ string_of_Z d)
    with (join (str1 ".") [string_of_Z a; string_of_Z b; string_of_Z c; string_of_Z d]).
  apply split_join; [done|]. repeat constructor; by apply octet_spec.
Qed.

Lemma parseIpv4_dotted a b c d : octet a → octet b → octet c → octet d →
  parseIpv4 (dotted a b c d) = Some [a; b; c; d] ∧ isIPv4 (dotted a b c d) = true.
Proof.
  intros Ha Hb Hc Hd. unfold parseIpv4, isIPv4. rewrite dotted_parts by done. cbn.
  destruct (octet_spec a Ha) as (-> & -> & -> & _), (octet_spec b Hb) as (-> & -> & -> & _),
    (octet_spec c Hc) as (-> & -> & -> & _), (octet_spec d Hd) as (-> & -> & -> & _).
  unfold octet in *. split; [|done].
  destruct (Z.ltb_spec 255 a), (Z.ltb_spec 255 b), (Z.ltb_spec 255 c), (Z.ltb_spec 255 d); (lia || done).
Qed.

Lemma parseIpv4_octets s ws : parseIpv4 s = Some ws →
  ∃ a b c d, ws = [a; b; c; d] ∧ octet a ∧ octet b ∧ octet c ∧ octet d.
Proof.
  unfold parseIpv4. destruct (length (split "."%char s) =? 4)%nat eqn:Hl; [|done]. cbn [negb].
  destruct (some _ _) eqn:Hs; [done|]. intros [= <-]. rewrite some_false in Hs.
  assert (∀ x, x ∈ split "."%char s → octet (digits_value 0 x)) as Ho.
  { intros x Hx. specialize (Hs x Hx). apply orb_false_iff in Hs as [Ht%negb_false_iff Hv]. unfold octet.
    split; [|lia]. clear -Ht. unfold octet_text in Ht. apply andb_true_iff in Ht as [[Ht _]%andb_true_iff _].
    assert (∀ v, 0 <= v → 0 <= digits_value v x) as H; [|by apply H].
    induction x as [|y x IH]; intros v Hv; [done|]. cbn in Ht |- *. apply andb_true_iff in Ht as [Hy Hx].
    apply IH; [done|]. unfold is_digit, in_range in Hy. unfold digit_value. lia. }
  destruct (split "."%char s) as [|a [|b [|c [|d [|]]]]]; try done. cbn.
  eexists _, _, _, _. split; [done|]. split_and!; apply Ho; set_solver.
Qed.

(** ** Blocks of addresses

    The special-purpose blocks of IPv4 that are not globally reachable, in the notation
    of their registry: base and prefix length. *)
Definition ip32 (a b c d : Z) : Z := a * 16777216 + b * 65536 + c * 256 + d.
Definition in_block (ip : Z) (block : Z * Z) : bool :=
  Z.shiftr ip (32 - block.2) =? Z.shiftr block.1 (32 - block.2).
Definition SPECIAL_BLOCKS : list (Z * Z) :=
  [(ip32 0 0 0 0, 8); (ip32 10 0 0 0, 8); (ip32 100 64 0 0, 10); (ip32 127 0 0 0, 8); (ip32 169 254 0 0, 16);
   (ip32 172 16 0 0, 12); (ip32 192 0 0 0, 24); (ip32 192 0 2 0, 24); (ip32 192 88 99 0, 24); (ip32 192 168 0 0, 16);
   (ip32 198 18 0 0, 15); (ip32 198 51 100 0, 24); (ip32 203 0 113 0, 24); (ip32 224 0 0 0, 3)].
Definition special (ip : Z) : bool := some (in_block ip) SPECIAL_BLOCKS.

Lemma in_block_interval ip base len : 0 <= len <= 32 → base mod 2 ^ (32 - len) = 0 →
  in_block ip (base, len) = (base <=? ip) && (ip <? base + 2 ^ (32 - len)).
Proof.
  intros Hl Hb. unfold in_block. cbn [fst snd]. rewrite !Z.shiftr_div_pow2 by lia.
  set (m := 2 ^ (32 - len)) in *. assert (0 < m) as Hm by (apply Z.pow_pos_nonneg; lia).
  pose proof (Z_div_mod_eq_full ip m). pose proof (Z_div_mod_eq_full base m). pose proof (Z.mod_pos_bound ip m Hm).
  apply eq_iff_eq_true. rewrite andb_true_iff, Z.eqb_eq, Z.leb_le, Z.ltb_lt. nia.
Qed.

Lemma special_intervals ip : special ip =
  some (λ b, (b.1 <=? ip) && (ip <? b.1 + 2 ^ (32 - b.2))) SPECIAL_BLOCKS.
Proof.
  unfold special, SPECIAL_BLOCKS, some. cbn [existsb fst snd].
  rewrite !in_block_interval by first [lia|reflexivity]. done.
Qed.

(** The tests on octets that the code makes, block by block. *)
Definition octet_tests (a b c : Z) : list bool :=
  [a =? 0; a =? 10; (a =? 100) && (64 <=? b) && (b <=? 127); a =? 127; (a =? 169) && (b =? 254);
   (a =? 172) && (16 <=? b) && (b <=? 31); (a =? 192) && (b =? 0) && (c =? 0); (a =? 192) && (b =? 0) && (c =? 2);
   (a =? 192) && (b =? 88) && (c =? 99); (a =? 192) && (b =? 168); (a =? 198) && ((b =? 18) || (b =? 19));
   (a =? 198) && (b =? 51) && (c =? 100); (a =? 203) && (b =? 0) && (c =? 113); 224 <=? a].

Lemma special_octets a b c d : octet a → octet b → octet c → octet d →
  special (ip32 a b c d) = some id (octet_tests a b c).
Proof.
  unfold octet. intros Ha Hb Hc Hd. rewrite special_intervals. unfold SPECIAL_BLOCKS, octet_tests, some, ip32.
  cbn -[Z.mul Z.add Z.ltb Z.leb Z.eqb Z.pow Z.sub]. unfold id.
  repeat match goal with |- orb _ _ = orb _ _ => apply f_equal2; [lia|] end. done.
Qed.

Lemma isPublicIpv4_tests a b c d s : parseIpv4 s = Some [a; b; c; d] →
  isPublicIpv4 s = negb (some id (octet_tests a b c)).
Proof.
  intros Hs. unfold isPublicIpv4. rewrite Hs. unfold octet_tests, some. cbn [existsb]. unfold id.
  destruct (a =? 0), (a =? 10), (a =? 127), (224 <=? a); rewrite ?orb_true_r; try done. cbn [orb].
  destruct ((a =? 100) && (64 <=? b) && (b <=? 127)), ((a =? 169) && (b =? 254)),
    ((a =? 172) && (16 <=? b) && (b <=? 31)), ((a =? 192) && (b =? 168)); rewrite ?orb_true_r; try done. cbn [orb].
  destruct (a =? 192), (b =? 0), (c =? 0), (c =? 2), (b =? 88), (c =? 99); rewrite ?orb_true_r; try done; cbn [orb andb];
  destruct (a =? 198), (b =? 18), (b =? 19), (b =? 51), (c =? 100), (a =? 203), (c =? 113); done.
Qed.

(** ** What [isIP] admits *)

Definition DIGITS : list ascii := map digit_char (seq 0 10).
Lemma is_digit_in c : is_digit c = true → c ∈ DIGITS.
Proof.
  intros Hc. assert (c = digit_char (code c - 48)) as ->.
  { unfold digit_char, chr, code. unfold is_digit, in_range, code in Hc.
    replace (48 + (nat_of_ascii c - 48))%nat with (nat_of_ascii c) by lia. by rewrite ascii_nat_embedding. }
  apply list_elem_of_fmap. eexists. split; [done|]. apply elem_of_seq. unfold is_digit, in_range in Hc. lia.
Qed.
Definition short_numbers : list string :=
  map str1 DIGITS ++ (x ← DIGITS; y ← DIGITS; [String x (str1 y)])
  ++ (x ← DIGITS; y ← DIGITS; z ← DIGITS; [String x (String y (str1 z))]).

Lemma canonical_octet s : v4_segment s = true → octet (digits_value 0 s) ∧ s = string_of_Z (digits_value 0 s).
Proof.
  intros Hs.
  assert (forallb (λ s, if v4_segment s then bool_decide (0 <= digits_value 0 s) && (s =? string_of_Z (digits_value 0 s))%string
                        else true) short_numbers = true) as Hall by (vm_compute; reflexivity).
  rewrite forallb_forall in Hall. assert (In s short_numbers) as Hin.
  { unfold v4_segment in Hs. rewrite !andb_true_iff in Hs. destruct Hs as ((((Hd & H1) & H3) & _) & _).
    apply list_elem_of_In. unfold short_numbers. rewrite !elem_of_app.
    destruct s as [|x [|y [|z [|u s]]]]; cbn in H1, H3, Hd; try lia; rewrite ?andb_true_iff in Hd.
    - left. apply list_elem_of_fmap. exists x. split; [done|]. apply is_digit_in; tauto.
    - destruct Hd as (Hx & Hy & _). right; left. apply list_elem_of_bind. exists x. split; [|by apply is_digit_in].
      apply list_elem_of_bind. exists y. split; [by left|by apply is_digit_in].
    - destruct Hd as (Hx & Hy & Hz & _). right; right. apply list_elem_of_bind. exists x. split; [|by apply is_digit_in].
      apply list_elem_of_bind. exists y. split; [|by apply is_digit_in].
      apply list_elem_of_bind. exists z. split; [by left|by apply is_digit_in]. }
  specialize (Hall s Hin). rewrite Hs in Hall. apply andb_true_iff in Hall as [H0%bool_decide_eq_true Heq%String.eqb_eq].
  split; [|done]. unfold v4_segment in Hs. unfold octet. rewrite !andb_true_iff in Hs. lia.
Qed.

Lemma isIPv4_iff s : isIPv4 s = true ↔
  ∃ a b c d, octet a ∧ octet b ∧ octet c ∧ octet d ∧ s = dotted a b c d.
Proof.
  split; [|intros (a & b & c & d & Ha & Hb & Hc & Hd & ->); by apply parseIpv4_dotted].
  unfold isIPv4. intros [Hl Hs]%andb_true_iff. rewrite every_true in Hs. pose proof (join_split "."%char s) as Hj.
  destruct (split "."%char s) as [|x [|y [|z [|u [|]]]]]; try done.
  destruct (canonical_octet x) as [Hx Ex]; [apply Hs; set_solver|].
  destruct (canonical_octet y) as [Hy Ey]; [apply Hs; set_solver|].
  destruct (canonical_octet z) as [Hz Ez]; [apply Hs; set_solver|].
  destruct (canonical_octet u) as [Hu Eu]; [apply Hs; set_solver|].
  exists (digits_value 0 x), (digits_value 0 y), (digits_value 0 z), (digits_value 0 u). split_and!; [done..|].
  unfold dotted. rewrite <-Ex, <-Ey, <-Ez, <-Eu. rewrite <-Hj. done.
Qed.

(** ** Words of an IPv6 address *)

Definition word_range (w : Z) : Prop := 0 <= w < 65536.

Lemma lor_octets a b : octet a → octet b → Z.lor (Z.shiftl a 8) b = a * 256 + b.
Proof.
  unfold octet. intros Ha Hb. rewrite <-Z.add_nocarry_lor; [by rewrite Z.shiftl_mul_pow2 by lia|].
  apply Z.bits_inj'. intros n Hn. rewrite Z.land_spec, Z.shiftl_spec, Z.bits_0 by done.
  destruct (Z.lt_ge_cases n 8) as [Hlt|Hge]; [by rewrite Z.testbit_neg_r by lia|].
  rewrite <-(Z.mod_small b (2 ^ 8)) by lia. rewrite Z.mod_pow2_bits_high by lia. apply andb_false_r.
Qed.

Lemma hex_digits_range s acc : 0 <= acc → sforall is_hex_lower s = true →
  0 <= hex_digits acc s < (acc + 1) * 16 ^ Z.of_nat (slen s).
Proof.
  revert acc. induction s as [|c s IH]; intros acc Ha Hs; [cbn; lia|]. cbn [sforall] in Hs.
  apply andb_true_iff in Hs as [Hc Hs]. cbn [hex_digits slen String.length].
  assert (0 <= hex_value c < 16) as Hv.
  { unfold is_hex_lower, is_digit, in_range in Hc. unfold hex_value, is_digit, in_range, digit_value.
    destruct (_ && _) eqn:E; lia. }
  destruct (IH (16 * acc + hex_value c)) as [H1 H2]; [lia|done|]. split; [done|].
  rewrite Nat2Z.inj_succ, Z.pow_succ_r by lia.
  assert (0 < 16 ^ Z.of_nat (slen s)) by (apply Z.pow_pos_nonneg; lia). nia.
Qed.

Lemma parse_tokens_range last_ tokens words ws : parse_tokens last_ tokens words = Some ws →
  Forall word_range words → Forall word_range ws.
Proof.
  revert words. induction tokens as [|t tokens IH]; intros words; cbn [parse_tokens]; [by intros [= <-]|].
  destruct (includes t ".").
  - destruct (parseIpv4 t) as [v|] eqn:Hv; [|done].
    destruct (parseIpv4_octets t v Hv) as (a & b & c & d & -> & Ha & Hb & Hc & Hd).
    destruct (negb _); [done|]. intros Hp Hw. apply (IH _ Hp). rewrite !lor_octets by done.
    unfold octet in *. apply Forall_app. split; [done|]. repeat constructor; unfold word_range; lia.
  - destruct (word_text t) eqn:Ht; [|done]. cbn [negb]. intros Hp Hw. apply (IH _ Hp). apply Forall_app. split; [done|].
    constructor; [|done]. unfold word_text in Ht. rewrite !andb_true_iff in Ht. destruct Ht as [[Ht1 Ht2] Ht3].
    destruct (hex_digits_range t 0) as [H1 H2]; [lia|done|]. split; [done|].
    eapply Z.lt_le_trans; [exact H2|]. change 65536 with ((0 + 1) * 16 ^ 4).
    apply Z.mul_le_mono_nonneg_l; [lia|]. apply Z.pow_le_mono_r; lia.
Qed.

Lemma ipv6Words_range s ws : ipv6Words s = Some ws → length ws = 8%nat ∧ Forall word_range ws.
Proof.
  assert (∀ raw l, parseIpv6Part raw = Some l → Forall word_range l) as Hpart.
  { intros raw l. unfold parseIpv6Part. destruct (_ =? _)%nat; [by intros [= <-]|].
    intros Hp. by apply (parse_tokens_range _ _ _ _ Hp). }
  unfold ipv6Words. destruct (_ || _); [done|].
  destruct (parseIpv6Part _) as [h|] eqn:Hh; [|done]. destruct (parseIpv6Part (List.nth 1 _ _)) as [t|] eqn:Ht; [|done].
  apply Hpart in Hh, Ht. destruct (negb _).
  { destruct (length h =? 8)%nat eqn:Hl; [|done]. intros [= <-]. split; [lia|done]. }
  destruct (Z.ltb_spec (8 - Z.of_nat (length h) - Z.of_nat (length t)) 1); [done|]. intros [= <-]. split.
  - rewrite !length_app, length_replicate. lia.
  - rewrite !Forall_app. split_and!; [done| |done]. apply Forall_replicate. unfold word_range. lia.
Qed.

Lemma word_in_range ws i : length ws = 8%nat → Forall word_range ws → (i < 8)%nat → word_range (word ws i).
Proof. intros Hl Hf Hi. unfold word. rewrite Forall_forall in Hf. apply Hf, list_elem_of_In, nth_In. lia. Qed.

Lemma land_prefix w : word_range w → (Z.land w 57344 =? 8192) = (8192 <=? w) && (w <? 16384).
Proof.
  unfold word_range. intros Hw. assert (Z.land w 57344 = Z.shiftl (Z.land (Z.shiftr w 13) (Z.ones 3)) 13) as ->.
  { change 57344 with (Z.shiftl (Z.ones 3) 13). apply Z.bits_inj'. intros n Hn.
    rewrite Z.land_spec, !Z.shiftl_spec by done. destruct (Z.lt_ge_cases n 13).
    - rewrite !(Z.testbit_neg_r _ (n - 13)) by lia. apply andb_false_r.
    - rewrite Z.land_spec, Z.shiftr_spec by lia. by replace (n - 13 + 13) with n by lia. }
  rewrite Z.land_ones, Z.shiftr_div_pow2, Z.shiftl_mul_pow2 by lia. change (2 ^ 13) with 8192. change (2 ^ 3) with 8.
  rewrite Z.mod_small by (split; [apply Z.div_pos; lia|apply Z.div_lt_upper_bound; lia]).
  pose proof (Z_div_mod_eq_full w 8192). pose proof (Z.mod_pos_bound w 8192). lia.
Qed.

(** ** Public destinations

    A dotted address outside the special-purpose blocks; an IPv6 address that maps one, or
    whose first 32 bits are in 2000::/3 but are not documentation, Teredo or benchmarking. *)
Definition routable_words (ws : list Z) : Prop :=
  if isIpv4Mapped ws then special (word ws 6 * 65536 + word ws 7) = false
  else let p := word ws 0 * 65536 + word ws 1 in
       in_block p (ip32 32 0 0 0, 3) = true
       ∧ p ≠ ip32 32 1 13 184 ∧ p ≠ ip32 32 1 0 0 ∧ p ≠ ip32 32 1 0 2.
Definition Public (s : string) : Prop :=
  (∃ a b c d, octet a ∧ octet b ∧ octet c ∧ octet d ∧ s = dotted a b c d ∧ special (ip32 a b c d) = false)
  ∨ (isIPv4 s = false ∧ isIPv6 s = true ∧ ∃ ws, ipv6Words s = Some ws ∧ routable_words ws).

Lemma isPublicIpv4_special a b c d : octet a → octet b → octet c → octet d →
  isPublicIpv4 (dotted a b c d) = negb (special (ip32 a b c d)).
Proof.
  intros Ha Hb Hc Hd. rewrite (isPublicIpv4_tests a b c d) by (by apply parseIpv4_dotted).
  by rewrite special_octets.
Qed.

Lemma split_word w : word_range w → octet (Z.shiftr w 8) ∧ octet (Z.land w 255)
  ∧ w = Z.shiftr w 8 * 256 + Z.land w 255.
Proof.
  unfold word_range, octet. intros Hw. change 255 with (Z.ones 8). rewrite Z.land_ones, Z.shiftr_div_pow2 by lia.
  change (2 ^ 8) with 256. change (Z.ones 8) with 255.
  pose proof (Z_div_mod_eq_full w 256). pose proof (Z.mod_pos_bound w 256). split_and!; lia.
Qed.

Lemma isPublicAddress_words ws : length ws = 8%nat → Forall word_range ws →
  (if isIpv4Mapped ws then
     isPublicIpv4 (dotted (Z.shiftr (word ws 6) 8) (Z.land (word ws 6) 255)
                     (Z.shiftr (word ws 7) 8) (Z.land (word ws 7) 255))
   else if negb (Z.land (word ws 0) 57344 =? 8192) then false
   else if (word ws 0 =? 8193) && (word ws 1 =? 3512) then false
   else if (word ws 0 =? 8193) && (word ws 1 =? 0) then false
   else if (word ws 0 =? 8193) && (word ws 1 =? 2) then false
   else true) = true ↔ routable_words ws.
Proof.
  intros Hl Hf. unfold routable_words. pose proof (λ i, word_in_range ws i Hl Hf) as Hw.
  destruct (isIpv4Mapped ws).
  - destruct (split_word (word ws 6)) as (H1 & H2 & H3); [apply Hw; lia|].
    destruct (split_word (word ws 7)) as (H4 & H5 & H6); [apply Hw; lia|].
    rewrite isPublicIpv4_special, negb_true_iff by done.
    replace (ip32 _ _ _ _) with (word ws 6 * 65536 + word ws 7); [done|].
    unfold ip32. rewrite H3 at 1. rewrite H6 at 1. lia.
  - pose proof (Hw 0%nat ltac:(lia)) as H0. pose proof (Hw 1%nat ltac:(lia)) as H1.
    rewrite land_prefix, in_block_interval by first [done|lia|reflexivity].
    unfold word_range in *. unfold ip32. change (2 ^ (32 - 3)) with 536870912.
    set (w0 := word ws 0) in *. set (w1 := word ws 1) in *. clearbody w0 w1. clear -H0 H1.
    destruct (negb _) eqn:E1; [split; [done|intros; lia]|].
    destruct ((w0 =? 8193) && (w1 =? 3512)) eqn:E2; [split; [done|intros; lia]|].
    destruct ((w0 =? 8193) && (w1 =? 0)) eqn:E3; [split; [done|intros; lia]|].
    destruct ((w0 =? 8193) && (w1 =? 2)) eqn:E4; [split; [done|intros; lia]|]. split; [intros _; lia|done].
Qed.

Lemma isPublicAddress_iff s : isPublicAddress s = true ↔ Public s.
Proof.
  unfold isPublicAddress, isIP, Public. destruct (isIPv4 s) eqn:H4.
  - apply isIPv4_iff in H4 as (a & b & c & d & Ha & Hb & Hc & Hd & ->).
    rewrite isPublicIpv4_special, negb_true_iff by done. split.
    + intros Hs. left. exists a, b, c, d. by split_and!.
    + intros [(a' & b' & c' & d' & Ha' & Hb' & Hc' & Hd' & Heq & Hs)|(? & _)]; [|done].
      destruct (parseIpv4_dotted a b c d) as [E1 _]; [done..|]. destruct (parseIpv4_dotted a' b' c' d') as [E2 _]; [done..|].
      rewrite Heq in E1. rewrite E1 in E2. by injection E2 as -> -> -> ->.
  - destruct (isIPv6 s) eqn:H6.
    + split.
      * intros H. right. split_and!; [done..|]. destruct (ipv6Words s) as [ws|] eqn:Hw; [|done].
        exists ws. split; [done|]. destruct (ipv6Words_range s ws Hw). by apply isPublicAddress_words.
      * intros [(a & b & c & d & Ha & Hb & Hc & Hd & -> & _)|(_ & _ & ws & Hw & Hr)].
        { destruct (parseIpv4_dotted a b c d) as [_ E]; [done..|congruence]. }
        rewrite Hw. destruct (ipv6Words_range s ws Hw). by apply isPublicAddress_words.
    + split; [done|]. intros [(a & b & c & d & Ha & Hb & Hc & Hd & -> & _)|(_ & ? & _)]; [|done].
      destruct (parseIpv4_dotted a b c d) as [_ E]; [done..|congruence].
Qed.

Lemma authorize_authorized host port rules addresses p f :
  authorize host port rules addresses = authorized p f ↔
  (∃ rest, addresses = mkAddress p f :: rest)
  ∧ if some (λ r, NetworkRule.allowsLoopback r && loopbackHost host) rules
    then ∀ x, x ∈ addresses → isLoopbackAddress (address x) = true
    else (∃ r, r ∈ rules ∧ NetworkRule.isExplicitDestination r = true ∧ NetworkRule.matches r host port = true)
         ∧ ∀ x, x ∈ addresses → Public (address x).
Proof.
  assert (∀ q : ResolvedAddress → bool, every q addresses = true ↔ ∀ x, x ∈ addresses → q x = true) as Hev
    by (intros q; apply every_true).
  unfold authorize. destruct (find (λ r, NetworkRule.allowsLoopback r && loopbackHost host) rules) as [lr|] eqn:Hl.
  - assert (some (λ r, NetworkRule.allowsLoopback r && loopbackHost host) rules = true) as ->.
    { apply some_true. apply find_spec in Hl as [? ?]. by exists lr. }
    transitivity (match addresses with [] => False | x :: _ => every (λ a, isLoopbackAddress (address a)) addresses = true
      ∧ address x = p ∧ family x = f end).
    { destruct addresses as [|x rest], (find _ rules); try done; (destruct (every _ _); cbn; split;
        [by intros [= <- <-]|by intros (_ & <- & <-)|done|by intros [? _]]). }
    destruct addresses as [|[xa xf] rest]; [split; [done|by intros [[? ?] _]]|]. rewrite Hev. cbn [address family].
    split; [intros (? & <- & <-); split; [by exists rest|done]|]. intros [[r [= <- <- <-]] ?]. done.
  - assert (some (λ r, NetworkRule.allowsLoopback r && loopbackHost host) rules = false) as ->.
    { by apply find_none_iff. }
    destruct (find (λ r, NetworkRule.isExplicitDestination r && _ r host port) rules) as [er|] eqn:He.
    + apply find_spec in He as [Hin [He Hm]%andb_true_iff].
      transitivity (match addresses with [] => False | x :: _ => every (λ a, isPublicAddress (address a)) addresses = true
        ∧ address x = p ∧ family x = f end).
      { destruct addresses as [|x rest]; [done|]. destruct (every _ _); cbn; split;
          [by intros [= <- <-]|by intros (_ & <- & <-)|done|by intros [? _]]. }
      destruct addresses as [|[xa xf] rest]; [split; [done|by intros [[? ?] _]]|]. rewrite Hev. cbn [address family].
      setoid_rewrite isPublicAddress_iff.
      split; [intros (? & <- & <-); split; [by exists rest|by eauto 10]|]. by intros [[r [= <- <- <-]] [_ ?]].
    + split; [done|]. intros [_ [(r & Hr & He1 & He2) _]]. exfalso.
      apply find_none_iff in He. rewrite some_false in He. specialize (He r Hr). by rewrite He1, He2 in He.
Qed.

(** *** The special-purpose blocks of IPv6

    Blocks (base and prefix length) that are not for the public network: those of the
    registry, with the private and multicast ones. The block of mapped addresses is left
    out, they are judged as the IPv4 address they hold. *)
Definition ip128 (ws : list Z) : Z := fold_left (λ acc w, acc * 65536 + w) ws 0.
Definition block6 (w0 w1 w2 w7 len : Z) : Z * Z := (ip128 [w0; w1; w2; 0; 0; 0; 0; w7], len).
Definition in_block6 (ip : Z) (block : Z * Z) : bool :=
  Z.shiftr ip (128 - block.2) =? Z.shiftr block.1 (128 - block.2).
Definition SPECIAL_BLOCKS6 : list (Z * Z) :=
  [block6 0 0 0 0 128 (* the unspecified address *); block6 0 0 0 1 128 (* loopback *); block6 100 65435 1 0 48 (* local translation *);
   block6 256 0 0 0 64 (* discard *); block6 8193 0 0 0 32 (* Teredo *); block6 8193 2 0 0 48 (* benchmarking *);
   block6 8193 16 0 0 28 (* ORCHID *); block6 8193 3512 0 0 32 (* documentation *); block6 8194 0 0 0 16 (* 6to4 *);
   block6 16383 0 0 0 20 (* documentation *); block6 24320 0 0 0 16 (* segment routing *); block6 64512 0 0 0 7 (* unique local *);
   block6 65152 0 0 0 10 (* link-local *); block6 65280 0 0 0 8 (* multicast *)].
(** The three of them that the guard takes for public. *)
Definition LET_THROUGH : list (Z * Z) := [block6 8193 16 0 0 28; block6 8194 0 0 0 16; block6 16383 0 0 0 20].

Lemma in_block6_interval ip base len : 0 <= len <= 128 → base mod 2 ^ (128 - len) = 0 →
  in_block6 ip (base, len) = (base <=? ip) && (ip <? base + 2 ^ (128 - len)).
Proof.
  intros Hl Hb. unfold in_block6. cbn [fst snd]. rewrite !Z.shiftr_div_pow2 by lia.
  set (m := 2 ^ (128 - len)) in *. assert (0 < m) as Hm by (apply Z.pow_pos_nonneg; lia).
  pose proof (Z_div_mod_eq_full ip m). pose proof (Z_div_mod_eq_full base m). pose proof (Z.mod_pos_bound ip m Hm).
  apply eq_iff_eq_true. rewrite andb_true_iff, Z.eqb_eq, Z.leb_le, Z.ltb_lt. nia.
Qed.
Lemma special6_words ws block : length ws = 8%nat → Forall word_range ws → block ∈ SPECIAL_BLOCKS6 → in_block6 (ip128 ws) block = true →
  routable_words ws ↔ block ∈ LET_THROUGH.
Proof.
  intros Hl Hf Hb Hin. destruct ws as [|w0 [|w1 [|w2 [|w3 [|w4 [|w5 [|w6 [|w7 [|]]]]]]]]]; try done.
  rewrite !Forall_cons in Hf. destruct Hf as (H0 & H1 & H2 & H3 & H4 & H5 & H6 & H7 & _). unfold word_range in *.
  unfold routable_words, word, isIpv4Mapped. cbn [List.nth take every forallb].
  repeat (apply elem_of_cons in Hb as [->|Hb]); [..|by apply elem_of_nil in Hb].
  all: unfold block6 in Hin; rewrite in_block6_interval in Hin by first [lia|reflexivity].
  all: rewrite in_block_interval by first [lia|reflexivity].
  all: change (word [w0; w1; w2; w3; w4; w5; w6; w7] 5) with w5; unfold ip128, ip32 in *; cbn [fold_left] in Hin.
  all: match goal with |- context [if ?b then _ else _] => destruct b eqn:Hm end; [exfalso; lia|].
  all: rewrite <-(bool_decide_eq_true (_ ∈ LET_THROUGH)).
  all: match goal with |- context [bool_decide ?P] => let b := eval vm_compute in (bool_decide P) in change (bool_decide P) with b end.
  all: lia.
Qed.
Lemma isIP_6 s : isIP s = 6%nat → isIPv4 s = false ∧ isIPv6 s = true.
Proof. unfold isIP. destruct (isIPv4 s); [done|]. by destruct (isIPv6 s). Qed.
Lemma public_words s ws : isIP s = 6%nat → ipv6Words s = Some ws → Public s ↔ routable_words ws.
Proof.
  intros [H4 H6]%isIP_6 Hw. split; [|intros Hr; right; split_and!; [done|done|by exists ws]].
  intros [(a & b & c & d & Ha & Hb & Hc & Hd & -> & _)|(_ & _ & ws' & Hw' & Hr)].
  - destruct (parseIpv4_dotted a b c d) as [_ E]; [done..|congruence].
  - rewrite Hw in Hw'. by injection Hw' as <-.
Qed.


(** The metadata service, in a 6to4 address. *)
Lemma sixtofour_public :
  isPublicAddress "2002:a9fe:a9fe::1" = true ∧ special (ip32 169 254 169 254) = true.
Proof. by vm_compute. Qed.

(** ** CONNECT authorities, both ways *)

Lemma prefix_char c d s : String.prefix (str1 c) (String d s) = Ascii.eqb c d.
Proof. apply startsWith_char. Qed.

Lemma lastIndexOf_none c s : has_char c s = false → lastIndexOf s (str1 c) = None.
Proof.
  induction s as [|d s IH]; [done|]. cbn [has_char lastIndexOf]. intros [Hd Hs]%orb_false_iff.
  rewrite IH, prefix_char by done. by rewrite Ascii.eqb_sym, Hd.
Qed.
Lemma lastIndexOf_last c a b : has_char c b = false → lastIndexOf (a +:+ String c b) (str1 c) = Some (slen a).
Proof.
  intros Hb. induction a as [|d a IH]; cbn [String.append lastIndexOf].
  - rewrite lastIndexOf_none, prefix_char by done. by rewrite Ascii.eqb_refl.
  - by rewrite IH.
Qed.
Lemma indexOf_first c a b : has_char c a = false → indexOf (a +:+ String c b) (str1 c) = Some (slen a).
Proof.
  induction a as [|d a IH]; cbn [String.append indexOf has_char].
  - intros _. by rewrite prefix_char, Ascii.eqb_refl.
  - intros [Hd Ha]%orb_false_iff. rewrite prefix_char, Ascii.eqb_sym, Hd, IH by done. done.
Qed.

Lemma port_facts port : 1 <= port <= 65535 →
  port_text (string_of_Z port) = true ∧ digits_value 0 (string_of_Z port) = port
  ∧ has_char colon (string_of_Z port) = false ∧ (slen (string_of_Z port) <= 5)%nat
  ∧ sexists forbidden (string_of_Z port) = false.
Proof.
  intros Hp. destruct (string_of_Z_spec port) as (H1 & H2 & H3 & H4 & _); [lia|].
  assert (slen (string_of_Z port) <= 5)%nat as Hl by (apply (H3 5%nat); [cbn; lia|lia]).
  unfold port_text. rewrite H1. split_and!; [lia|done|by apply digits_no_char|done|].
  apply sexists_false. eapply sforall_impl; [|exact H1]. intros c. destruct c as [[] [] [] [] [] [] [] []]; by vm_compute.
Qed.
Lemma check_port_ok host port : 1 <= port <= 65535 → check_port host (string_of_Z port) = Ok (host, port).
Proof.
  intros Hp. unfold check_port. destruct (port_facts port Hp) as (_ & -> & _).
  destruct (Z.ltb_spec port 1), (Z.ltb_spec 65535 port); (lia || done).
Qed.

Lemma forbidden_host c : NetworkRule.host_char c = true → negb (forbidden c) = true.
Proof. destruct c as [[] [] [] [] [] [] [] []]; vm_compute; intros [=]; done. Qed.
Lemma forbidden_v6 c : is_hex_lower c || Ascii.eqb c colon || Ascii.eqb c "." = true → negb (forbidden c) = true.
Proof. destruct c as [[] [] [] [] [] [] [] []]; vm_compute; intros [=]; done. Qed.

Lemma sexists_app p s t : sexists p (s +:+ t) = sexists p s || sexists p t.
Proof. induction s as [|c s IH]; [done|]. cbn. rewrite IH. apply orb_assoc. Qed.

Lemma connect_host host port : sforall NetworkRule.host_char host = true → (1 <= slen host <= 253)%nat →
  endsWith host "." = false → 1 <= port <= 65535 →
  parseConnectAuthority (host +:+ ":" +:+ string_of_Z port) = Ok (host, port).
Proof.
  intros Hh Hl Hd Hp. destruct (port_facts port Hp) as (P1 & P2 & P3 & P4 & P5).
  assert (has_char colon host = false) as Hc.
  { clear -Hh. induction host as [|c h IH]; [done|]. cbn in Hh |- *. apply andb_true_iff in Hh as [Hc Hh].
    rewrite IH by done. destruct (Ascii.eqb_spec c colon) as [->|]; [by vm_compute in Hc|done]. }
  assert (sexists forbidden host = false) as Hf.
  { apply sexists_false. eapply sforall_impl; [|exact Hh]. apply forbidden_host. }
  change (":" +:+ string_of_Z port) with (String colon (string_of_Z port)).
  unfold parseConnectAuthority. rewrite sexists_app, slen_app, Hf. cbn [sexists orb slen String.length].
  change (forbidden colon) with false. rewrite P5. cbn [orb].
  destruct (Nat.eqb_spec (slen host + S (slen (string_of_Z port))) 0); [lia|].
  destruct (Nat.ltb_spec 512 (slen host + S (slen (string_of_Z port)))); [lia|]. cbn [orb].
  destruct host as [|c h]; [cbn in Hl; lia|]. set (host := String c h) in *.
  assert (startsWith (host +:+ String colon (string_of_Z port)) "[" = false) as ->.
  { unfold host. cbn [String.append]. change "[" with (str1 "["). rewrite startsWith_char.
    destruct (Ascii.eqb_spec "[" c) as [<-|]; [|done]. by cbn in Hh. }
  change ":" with (str1 colon). rewrite lastIndexOf_last, indexOf_first by done.
  rewrite bool_decide_true by done. cbn [negb].
  replace (sdrop (S (slen host)) (host +:+ String colon (string_of_Z port))) with (string_of_Z port)
    by (replace (S (slen host)) with (slen host + 1)%nat by lia; by rewrite <-sdrop_sdrop, sdrop_app).
  rewrite stake_app, P1. cbn [negb]. rewrite check_port_ok by done.
  assert (NetworkRule.strip_dot (toLowerCase host) = host) as ->; [|done].
  unfold toLowerCase. rewrite smap_id by
    (eapply sforall_impl; [|exact Hh]; intros x Hx; by apply NetworkRule.host_char_facts).
  unfold NetworkRule.strip_dot. by rewrite Hd.
Qed.

Lemma connect_v6 host port : sforall (λ c, is_hex_lower c || Ascii.eqb c colon || Ascii.eqb c ".") host = true →
  isIP host = 6%nat → (slen host <= 253)%nat → 1 <= port <= 65535 →
  parseConnectAuthority ("[" +:+ host +:+ "]:" +:+ string_of_Z port) = Ok (host, port).
Proof.
  intros Hh H6 Hl Hp. destruct (port_facts port Hp) as (P1 & P2 & P3 & P4 & P5).
  assert (has_char "]" host = false) as Hc.
  { clear -Hh. induction host as [|c h IH]; [done|]. cbn in Hh |- *. apply andb_true_iff in Hh as [Hc Hh].
    rewrite IH by done. destruct (Ascii.eqb_spec c "]") as [->|]; [by vm_compute in Hc|done]. }
  assert (sexists forbidden host = false) as Hf.
  { apply sexists_false. eapply sforall_impl; [|exact Hh]. apply forbidden_v6. }
  change ("[" +:+ host +:+ "]:" +:+ string_of_Z port)
    with (String "[" (host +:+ String "]" (String colon (string_of_Z port)))).
  unfold parseConnectAuthority. cbn [sexists slen String.length]. change (forbidden "[") with false.
  rewrite sexists_app, slen_app, Hf. cbn [sexists orb slen String.length].
  change (forbidden "]") with false. change (forbidden colon) with false. rewrite P5. cbn [orb].
  destruct (Nat.eqb_spec (S (slen host + S (S (slen (string_of_Z port))))) 0); [lia|].
  destruct (Nat.ltb_spec 512 (S (slen host + S (S (slen (string_of_Z port)))))); [lia|]. cbn [orb].
  change "[" with (str1 "["). rewrite startsWith_char. cbn [Ascii.eqb Bool.eqb].
  unfold bracketed. change "]" with (str1 "]"). rewrite indexOf_first, stake_app by done.
  replace (sdrop (S (slen host)) (host +:+ String "]" (String colon (string_of_Z port))))
    with (String colon (string_of_Z port))
    by (replace (S (slen host)) with (slen host + 1)%nat by lia; by rewrite <-sdrop_sdrop, sdrop_app).
  rewrite P1. destruct (Nat.ltb_spec 0 (slen host)) as [_|H0].
  2:{ destruct host; [by vm_compute in H6|cbn in H0; lia]. }
  cbn [andb colon]. rewrite H6, check_port_ok by done. done.
Qed.

Lemma connect_sound authority host port : parseConnectAuthority authority = Ok (host, port) →
  1 <= port <= 65535 ∧ (slen authority <= 512)%nat
  ∧ ∃ digits, port_text digits = true ∧ digits_value 0 digits = port
    ∧ ((∃ raw, authority = raw +:+ ":" +:+ digits ∧ raw ≠ "" ∧ has_char colon raw = false
          ∧ host = NetworkRule.strip_dot (toLowerCase raw))
       ∨ authority = "[" +:+ host +:+ "]:" +:+ digits ∧ isIP host = 6%nat).
Proof.
  assert (∀ h ds, check_port h ds = Ok (host, port) → h = host ∧ digits_value 0 ds = port ∧ 1 <= port <= 65535) as Hcp.
  { intros h ds. unfold check_port. destruct (Z.ltb_spec (digits_value 0 ds) 1); [done|].
    destruct (Z.ltb_spec 65535 (digits_value 0 ds)); [done|]. intros [= <- <-]. split_and!; (done || lia). }
  unfold parseConnectAuthority. destruct (Nat.eqb_spec (slen authority) 0); [done|].
  destruct (Nat.ltb_spec 512 (slen authority)); [done|]. destruct (sexists forbidden authority); [done|]. cbn [orb].
  destruct (startsWith authority "[") eqn:Hb.
  - destruct (bracketed authority) as [[h ds]|] eqn:Hbr; [|done].
    destruct (isIP h =? 6)%nat eqn:H6; [|done]. cbn [negb]. intros (<- & Hv & Hr)%Hcp. split_and!; [lia..|lia|].
    apply startsWith_true in Hb as [r ->]. cbn [String.append bracketed] in Hbr.
    destruct (indexOf r "]") as [k|] eqn:Hk; [|done]. apply indexOf_some in Hk as (x & y & -> & <-).
    rewrite stake_app in Hbr. change (x +:+ "]" +:+ y) with (x +:+ String "]" y) in Hbr.
    replace (sdrop (S (slen x)) (x +:+ String "]" y)) with y in Hbr
      by (replace (S (slen x)) with (slen x + 1)%nat by lia; by rewrite <-sdrop_sdrop, sdrop_app).
    destruct y as [|c y]; [done|]. destruct (decide (c = colon)) as [->|Hne].
    2:{ exfalso. revert Hbr Hne. clear. destruct c as [[] [] [] [] [] [] [] []]; done. }
    cbn [colon] in Hbr. destruct (_ && _) eqn:E; [|done]. injection Hbr as <- <-.
    apply andb_true_iff in E as [_ E]. exists y. split_and!; [done..|]. right. split; [done|]. by apply Nat.eqb_eq.
  - destruct (lastIndexOf authority ":") as [[|k]|]; [done| |done].
    destruct (bool_decide (indexOf authority ":" = Some (S k))) eqn:Hi; [|done]. cbn [negb].
    apply bool_decide_eq_true in Hi. destruct (port_text (sdrop (S (S k)) authority)) eqn:Hp; [|done]. cbn [negb].
    intros (<- & Hv & Hr)%Hcp. split_and!; [lia..|lia|]. exists (sdrop (S (S k)) authority).
    split_and!; [done..|]. left. pose proof Hi as Hi'. apply indexOf_some in Hi as (x & y & E & Hx).
    exists x. assert (stake (S k) authority = x) as -> by (rewrite <-Hx, E; apply stake_app).
    assert (sdrop (S (S k)) authority = y) as ->.
    { rewrite E. change (x +:+ ":" +:+ y) with (x +:+ String colon y).
      replace (S (S k)) with (slen x + 1)%nat by lia. by rewrite <-sdrop_sdrop, sdrop_app. }
    split_and!; [done|by intros ->| |done].
    destruct (has_char colon x) eqn:Hx'; [|done]. exfalso. rewrite <-includes_char in Hx'.
    apply includes_true in Hx' as (u & v & ->).
    pose proof (indexOf_leftmost _ _ _ u (v +:+ ":" +:+ y) Hi') as Hle.
    rewrite !slen_app in Hx. change (slen (str1 colon)) with 1%nat in Hx.
    specialize (Hle ltac:(rewrite E; change ":" with (str1 colon); by rewrite !sapp_assoc)). lia.
Qed.

(** An authority names its host and port unambiguously: a normal host name, or a lower-case
    IPv6 address in brackets, with a port in decimal parses to exactly these; and whatever
    parses is one host, one colon and one port in range. *)
Theorem connect_authority :
  (∀ host port, sforall NetworkRule.host_char host = true → (1 <= slen host <= 253)%nat →
     endsWith host "." = false → 1 <= port <= 65535 →
     parseConnectAuthority (host +:+ ":" +:+ string_of_Z port) = Ok (host, port))
  ∧ (∀ host port, sforall (λ c, is_hex_lower c || Ascii.eqb c colon || Ascii.eqb c ".") host = true →
       isIP host = 6%nat → (slen host <= 253)%nat → 1 <= port <= 65535 →
       parseConnectAuthority ("[" +:+ host +:+ "]:" +:+ string_of_Z port) = Ok (host, port))
  ∧ (∀ authority host port, parseConnectAuthority authority = Ok (host, port) →
       1 <= port <= 65535 ∧ (slen authority <= 512)%nat
       ∧ ∃ digits, port_text digits = true ∧ digits_value 0 digits = port
         ∧ ((∃ raw, authority = raw +:+ ":" +:+ digits ∧ raw ≠ "" ∧ has_char colon raw = false
               ∧ host = NetworkRule.strip_dot (toLowerCase raw))
            ∨ authority = "[" +:+ host +:+ "]:" +:+ digits ∧ isIP host = 6%nat)).
Proof. split_and!; [apply connect_host|apply connect_v6|apply connect_sound]. Qed.
End DestinationGuard.

Lemma connect_authority_witness :
  DestinationGuard.parseConnectAuthority ("example.com" +:+ ":" +:+ string_of_Z 443) = Ok ("example.com", 443%Z).
Proof. apply DestinationGuard.connect_authority; [reflexivity|cbn; lia|reflexivity|lia]. Defined.
