(* ===== verification/Bubblewrap.v ===== *)
(** * The Linux sandbox (src/infrastructure/sandbox/BubblewrapArgumentBuilder.ts)

    The translation of a policy into arguments of [bwrap], and what a process sees in the
    mount namespace these arguments describe. *)

From S2P Require Import Prelude JsString NodePath Paths Patterns Values Resources Network.
From S2P Require Import SensitivePaths Registry Sha256 Tiers Entities Policy RunSandboxed.
Import SandboxPolicy Launching TextPaths.

Module BubblewrapArgumentBuilder.

Definition SYSTEM_ROOTS : list string :=
  ["/usr"; "/bin"; "/sbin"; "/lib"; "/lib64"; "/etc"; "/opt"; "/nix"; "/var/lib"].

Definition isCoveredBySystem (p : AbsolutePath) : bool :=
  some (λ root, (AbsolutePath.value p =? root)%string || startsWith (AbsolutePath.value p) (root +:+ "/")) SYSTEM_ROOTS.

(** Read as a single file, and not inside anything writable. *)
Definition isReadOnlyFile (p : SandboxPolicy) (anchor : AbsolutePath) : bool :=
  some (λ r, ResourceRef.is_file r && AbsolutePath.equals (ResourceRef.path r) anchor) (reads p)
  && negb (some (λ r, ResourceRef.covers r anchor) (writes p)).

Definition prologue : list string :=
  ["--die-with-parent"; "--unshare-user"; "--unshare-net"; "--unshare-pid"; "--unshare-uts"; "--unshare-ipc";
   "--unshare-cgroup-try"; "--new-session"; "--proc"; "/proc"; "--dev"; "/dev"].

(** [args.push(flag, path, path)] *)
Definition bind_args (flag path : string) : list string := [flag; path; path].
Definition ref_args (flag : string) (r : ResourceRef) : list string :=
  bind_args flag (AbsolutePath.value (ResourceRef.path r)).

(** The three [continue]s of the loop over the refusals. *)
Definition kept (p : SandboxPolicy) (d : DenyRule) (anchor : AbsolutePath) : bool :=
  match DenyRule.exceptWithin d with Some w => AbsolutePath.contains w anchor | None => false end
  || some (λ o, ResourceRef.covers (ref o) anchor) (overrides p)
  || bool_decide (DenyRule.access d = write) && isReadOnlyFile p anchor.
Definition deny_args (p : SandboxPolicy) (ctx : PathContext) (d : DenyRule) : result (list string) :=
  let! anchor := PathPattern.literalPrefix (DenyRule.pattern d) (home ctx) in
  Ok (match anchor with
      | None => []
      | Some a => if kept p d a then [] else ["--tmpfs"; AbsolutePath.value a]
      end).

Definition override_args (o : PolicyOverride) : list string :=
  ref_args (match access o with read => "--ro-bind-try" | write => "--bind-try" end) (ref o).

Definition build (p : SandboxPolicy) (ctx : PathContext) (command : SandboxCommand) : result (list string) :=
  let! shadows := rmapM (deny_args p ctx) (denies p) in
  Ok (prologue
      ++ concat (map (bind_args "--ro-bind-try") SYSTEM_ROOTS)
      ++ ["--tmpfs"; AbsolutePath.value (home ctx)]
      ++ concat (map (ref_args "--ro-bind-try")
                   (bfilter (λ r, negb (isCoveredBySystem (ResourceRef.path r))) (reads p)))
      ++ concat (map (ref_args "--bind-try") (writes p))
      ++ concat shadows
      ++ concat (map override_args (overrides p))
      ++ ["--chdir"; AbsolutePath.value (command_cwd command); "--"; executable command] ++ args command).

(** ** What the arguments mean

    The reading of the options used above that bubblewrap documents. The namespace starts
    empty; the operations are carried out in the order of the arguments, and one over a
    directory hides what earlier ones put there. A bind whose source does not exist is
    left out under its [-try] form. Everything behind the double dash is the command. *)

Inductive Mount :=
| fresh (dst : string)
| ro_bind (src dst : string)
| rw_bind (src dst : string).

Fixpoint read_args (l : list string) : list Mount :=
  match l with
  | [] => []
  | o :: l1 =>
      if (o =? "--")%string then []
      else match l1 with
           | [] => []
           | d :: l2 =>
               if str_includes ["--tmpfs"; "--proc"; "--dev"] o then fresh d :: read_args l2
               else if (o =? "--chdir")%string then read_args l2
               else if str_includes ["--ro-bind-try"; "--bind-try"] o
               then match l2 with
                    | [] => []
                    | d' :: l3 => (if (o =? "--bind-try")%string then rw_bind d d' else ro_bind d d') :: read_args l3
                    end
               else read_args l1
           end
  end.

(** What the process can do with the file that stands at a path of the host. *)
Inductive Exposure := hidden | readable | writable.
#[global] Instance exposure_dec : EqDecision Exposure.
Proof. solve_decision. Defined.

Section namespace.
Context (present : string → bool).

Definition target (m : Mount) : string := match m with fresh d | ro_bind _ d | rw_bind _ d => d end.
Definition active (m : Mount) (path : string) : bool :=
  under (target m) path && match m with fresh _ => true | ro_bind s _ | rw_bind s _ => present s end.
Definition effect (m : Mount) : Exposure :=
  match m with fresh _ => hidden | ro_bind _ _ => readable | rw_bind _ _ => writable end.
Definition step (path : string) (e : Exposure) (m : Mount) : Exposure := if active m path then effect m else e.
(** Every bind here is over its own path, so a path of the host stands at itself. *)
Definition exposure (ms : list Mount) (path : string) : Exposure := foldl (step path) hidden ms.

(** The last operation over a path decides. *)
Lemma exposure_app ms ns path : exposure (ms ++ ns) path = foldl (step path) (exposure ms path) ns.
Proof. apply foldl_app. Qed.
Lemma step_inactive path ns e : (∀ m, m ∈ ns → active m path = false) → foldl (step path) e ns = e.
Proof.
  revert e. induction ns as [|m ns IH]; intros e H; [done|]. cbn [foldl]. unfold step at 2. rewrite H by by left.
  apply IH. intros x Hx. apply H. by right.
Qed.
Lemma exposure_cases ms ns path :
  (∃ m, m ∈ ns ∧ active m path = true ∧ exposure (ms ++ ns) path = effect m)
  ∨ (∀ m, m ∈ ns → active m path = false) ∧ exposure (ms ++ ns) path = exposure ms path.
Proof.
  induction ns as [|m ns IH] using rev_ind.
  - right. rewrite app_nil_r. split; [|done]. by intros m ?%elem_of_nil.
  - rewrite app_assoc, exposure_app. cbn [foldl]. unfold step. destruct (active m path) eqn:E.
    + left. exists m. split; [|done]. apply elem_of_app. right. by left.
    + destruct IH as [(x & Hx & Ha & Hv)|[Hn Hv]].
      * left. exists x. split; [|done]. apply elem_of_app. by left.
      * right. split; [|done]. intros x [Hx| ->%list_elem_of_singleton]%elem_of_app; [by apply Hn|done].
Qed.
End namespace.

(** ** The plan behind the arguments *)

Definition bind_ro (t : string) : Mount := ro_bind t t.
Definition bind_rw (t : string) : Mount := rw_bind t t.
Definition system_part (ctx : PathContext) : list Mount :=
  [fresh "/proc"; fresh "/dev"] ++ map bind_ro SYSTEM_ROOTS ++ [fresh (AbsolutePath.value (home ctx))].
Definition opened_part (p : SandboxPolicy) : list Mount :=
  map (bind_ro ∘ ref_text) (bfilter (λ r, negb (isCoveredBySystem (ResourceRef.path r))) (reads p))
  ++ map (bind_rw ∘ ref_text) (writes p).
Definition override_mount (o : PolicyOverride) : Mount :=
  match access o with read => bind_ro (ref_text (ref o)) | write => bind_rw (ref_text (ref o)) end.

Lemma read_binds {A} flag (f : A → string) (l : list A) rest :
  (flag = "--ro-bind-try" ∨ flag = "--bind-try") →
  read_args (concat (map (λ x, bind_args flag (f x)) l) ++ rest)
  = map ((if (flag =? "--bind-try")%string then bind_rw else bind_ro) ∘ f) l ++ read_args rest.
Proof.
  intros Hf. induction l as [|x l IH]; [done|]. cbn [map concat app]. rewrite <-app_assoc.
  cbn [bind_args app]. destruct Hf as [-> | ->]; cbn -[String.append]; by rewrite IH.
Qed.

Lemma read_shadows p ctx ds shadows rest : rmapM (deny_args p ctx) ds = Ok shadows →
  ∃ ms, read_args (concat shadows ++ rest) = ms ++ read_args rest
  ∧ ∀ m, m ∈ ms ↔ ∃ d a, d ∈ ds ∧ PathPattern.literalPrefix (DenyRule.pattern d) (home ctx) = Ok (Some a)
                   ∧ kept p d a = false ∧ m = fresh (AbsolutePath.value a).
Proof.
  revert shadows. induction ds as [|d ds IH]; intros shadows; cbn [rmapM].
  { intros [= <-]. exists []. split; [done|]. intros m. split; [by intros ?%elem_of_nil|].
    by intros (? & ? & ?%elem_of_nil & _). }
  unfold deny_args at 1. destruct (PathPattern.literalPrefix (DenyRule.pattern d) (home ctx)) as [anchor|] eqn:E; [|done].
  cbn [rbind]. destruct (rmapM (deny_args p ctx) ds) as [l|]; [|done]. intros [= <-].
  destruct (IH l eq_refl) as (ms & Hr & Hm). cbn [concat]. rewrite <-app_assoc.
  destruct anchor as [a|]; [destruct (kept p d a) eqn:Ek|].
  2: { exists (fresh (AbsolutePath.value a) :: ms). cbn -[String.append]. rewrite Hr. split; [done|].
       intros m. rewrite elem_of_cons, Hm. split.
       - intros [->|(d' & a' & Hd & H)]; [exists d, a|exists d', a']; (split; [by (left || right)|done]).
       - intros (d' & a' & [->|Hd]%elem_of_cons & Hp & Hk & ->); [left; congruence|right; by exists d', a']. }
  all: exists ms; split; [exact Hr|]; intros m; rewrite Hm; split;
    [intros (d' & a' & Hd & H); exists d', a'; split; [by right|done]|
     intros (d' & a' & [->|Hd]%elem_of_cons & Hp & Hk & ->); [congruence|by exists d', a']].
Qed.

(** The arguments of a policy, read back. *)
Lemma read_build p ctx command l : build p ctx command = Ok l →
  ∃ shadows, read_args l = system_part ctx ++ opened_part p ++ shadows ++ map override_mount (overrides p)
  ∧ ∀ m, m ∈ shadows ↔ ∃ d a, d ∈ denies p ∧ PathPattern.literalPrefix (DenyRule.pattern d) (home ctx) = Ok (Some a)
                         ∧ kept p d a = false ∧ m = fresh (AbsolutePath.value a).
Proof.
  unfold build. destruct (rmapM (deny_args p ctx) (denies p)) as [sh|] eqn:E; [|done]. cbn [rbind].
  intros <-%Ok_inj.
  edestruct read_shadows as (ms & Hr & Hm); [exact E|]. exists ms. split; [|exact Hm].
  change (read_args (prologue ++ ?x)) with (fresh "/proc" :: fresh "/dev" :: read_args x).
  change (map (bind_args "--ro-bind-try") SYSTEM_ROOTS) with (map (λ x, bind_args "--ro-bind-try" (id x)) SYSTEM_ROOTS).
  rewrite (read_binds "--ro-bind-try" id SYSTEM_ROOTS) by by left.
  change (read_args (["--tmpfs"; ?h] ++ ?x)) with (fresh h :: read_args x).
  change (ref_args "--ro-bind-try") with (λ r, bind_args "--ro-bind-try" (ref_text r)).
  rewrite (read_binds "--ro-bind-try" ref_text) by by left.
  change (ref_args "--bind-try") with (λ r, bind_args "--bind-try" (ref_text r)).
  rewrite (read_binds "--bind-try" ref_text) by by right. rewrite Hr.
  assert (∀ os rest, read_args (concat (map override_args os) ++ rest) = map override_mount os ++ read_args rest) as ->.
  { clear. induction os as [|o os IH]; intros rest; [done|]. cbn [map concat]. rewrite <-app_assoc.
    unfold override_args at 1, override_mount at 1. destruct (access o); cbn -[String.append]; by rewrite IH. }
  unfold system_part, opened_part. rewrite <-!app_assoc. cbn -[String.append map SYSTEM_ROOTS]. by rewrite app_nil_r.
Qed.

(** ** What the namespace shows *)

Definition sees (present : string → bool) (l : list string) (q : AbsolutePath) : Exposure :=
  exposure present (read_args l) (AbsolutePath.value q).

Definition override_exposure (o : PolicyOverride) : Exposure :=
  match access o with read => readable | write => writable end.

(** What made a path visible: an override over it, or else a reference or a system
    directory over it that no refusal with an anchor above the path has shadowed. *)
Lemma visible_because present p ctx command l q : build p ctx command = Ok l → sees present l q ≠ hidden →
  (∃ o, o ∈ overrides p ∧ under (ref_text (ref o)) (AbsolutePath.value q) = true ∧ sees present l q = override_exposure o)
  ∨ (∀ o, o ∈ overrides p → active present (override_mount o) (AbsolutePath.value q) = false)
    ∧ (∀ d a, d ∈ denies p → PathPattern.literalPrefix (DenyRule.pattern d) (home ctx) = Ok (Some a) →
        under (AbsolutePath.value a) (AbsolutePath.value q) = true → kept p d a = true)
    ∧ ((∃ r, r ∈ writes p ∧ under (ref_text r) (AbsolutePath.value q) = true ∧ sees present l q = writable)
       ∨ (∃ r, r ∈ reads p ∧ under (ref_text r) (AbsolutePath.value q) = true ∧ sees present l q = readable)
       ∨ (∃ t, t ∈ SYSTEM_ROOTS ∧ under t (AbsolutePath.value q) = true ∧ sees present l q = readable)).
Proof.
  intros (shadows & Hl & Hs)%read_build. unfold sees. rewrite Hl, !app_assoc. intros Hv.
  destruct (exposure_cases present ((system_part ctx ++ opened_part p) ++ shadows) (map override_mount (overrides p)) (AbsolutePath.value q))
    as [(m & Hm & Ha & E)|[Hov E]]; rewrite E in Hv |- *.
  { left. apply list_elem_of_fmap in Hm as (o & -> & Ho). exists o. split; [done|].
    unfold override_mount, override_exposure in *. unfold active in Ha.
    destruct (access o); cbn in *; bool_prop; done. }
  right. split. { intros o Ho. apply Hov, list_elem_of_fmap. by exists o. }
  destruct (exposure_cases present (system_part ctx ++ opened_part p) shadows (AbsolutePath.value q)) as [(m & Hm & Ha & E')|[Hn E']];
    rewrite E' in Hv |- *.
  { apply Hs in Hm as (d & a & _ & _ & _ & ->). done. }
  split.
  { intros d a Hd Hp Hu. destruct (kept p d a) eqn:Ek; [done|]. exfalso.
    assert (active present (fresh (AbsolutePath.value a)) (AbsolutePath.value q) = false) as Hf by (apply Hn, Hs; by exists d, a).
    unfold active in Hf. cbn in Hf. by rewrite Hu in Hf. }
  destruct (exposure_cases present (system_part ctx) (opened_part p) (AbsolutePath.value q)) as [(m & Hm & Ha & E'')|[_ E'']];
    rewrite E'' in Hv |- *.
  { unfold opened_part in Hm. unfold active in Ha. apply andb_true_iff in Ha as [Hu _].
    apply elem_of_app in Hm as [(r & -> & Hr)%list_elem_of_fmap|(r & -> & Hr)%list_elem_of_fmap].
    - right. left. apply elem_of_bfilter in Hr as [Hr _]. by exists r.
    - left. by exists r. }
  destruct (exposure_cases present [] (system_part ctx) (AbsolutePath.value q)) as [(m & Hm & Ha & E3)|[_ E3]];
    cbn [app] in E3; [|by rewrite E3 in Hv]. rewrite E3 in Hv |- *.
  unfold system_part in Hm. unfold active in Ha. apply andb_true_iff in Ha as [Hu _].
  apply elem_of_app in Hm as [Hm|[(t & -> & Ht)%list_elem_of_fmap|Hm]%elem_of_app].
  - exfalso. apply Hv. apply elem_of_cons in Hm as [-> | ->%list_elem_of_singleton]; done.
  - right. right. by exists t.
  - exfalso. apply Hv. by apply list_elem_of_singleton in Hm as ->.
Qed.

(** A path that is visible although no refusal with an anchor is over it is a system file,
    or lies below a reference of the policy. *)
Lemma visible_below present p ctx command l q : build p ctx command = Ok l → sees present l q ≠ hidden →
  (∃ o, o ∈ overrides p ∧ under (ref_text (ref o)) (AbsolutePath.value q) = true)
  ∨ (∃ t, t ∈ SYSTEM_ROOTS ∧ under t (AbsolutePath.value q) = true)
  ∨ ∃ r, (r ∈ reads p ∨ r ∈ writes p) ∧ under (ref_text r) (AbsolutePath.value q) = true.
Proof.
  intros Hb Hv. destruct (visible_because present p ctx command l q Hb Hv)
    as [(o & Ho & Hu & _)|(_ & _ & [(r & Hr & Hu & _)|[(r & Hr & Hu & _)|(t & Ht & Hu & _)]])].
  - left. by exists o.
  - right. right. exists r. auto.
  - right. right. exists r. auto.
  - right. left. by exists t.
Qed.

(** The arguments do not widen the policy: a path is writable in the namespace only below
    a reference for writing or an override for writing. *)
Lemma writable_because present p ctx command l q : build p ctx command = Ok l → sees present l q = writable →
  ∃ r, (r ∈ writes p ∨ ∃ o, o ∈ overrides p ∧ access o = write ∧ ref o = r)
  ∧ under (ref_text r) (AbsolutePath.value q) = true.
Proof.
  intros Hb Hw. destruct (visible_because present p ctx command l q Hb) as [(o & Ho & Hu & E)|(_ & _ & [(r & Hr & Hu & _)|[(r & _ & _ & E)|(t & _ & _ & E)]])];
    try congruence.
  - exists (ref o). split; [|done]. right. exists o. rewrite Hw in E. unfold override_exposure in E. by destruct (access o).
  - exists r. auto.
Qed.

(** A process is exposed to a path for an access. *)
Definition exposed (present : string → bool) (l : list string) (a : Access) (q : AbsolutePath) : Prop :=
  match a with read => sees present l q ≠ hidden | write => sees present l q = writable end.

(** Below the anchor of a refusal nothing is exposed but through an override over it (for
    writing: one for writing, or one whose resource the host does not hold), or, for
    writing, because the anchor is read as a single file. *)
Lemma anchored_refusal present p ctx command l q d a : build p ctx command = Ok l →
  d ∈ denies p → DenyRule.exceptWithin d = None →
  PathPattern.literalPrefix (DenyRule.pattern d) (home ctx) = Ok (Some a) →
  AbsolutePath.posix_wf a → AbsolutePath.posix_wf q → AbsolutePath.contains a q = true →
  exposed present l (DenyRule.access d) q →
  (∃ o, o ∈ overrides p ∧ under (ref_text (ref o)) (AbsolutePath.value q) = true
        ∧ (DenyRule.access d = write → access o = write ∨ present (ref_text (ref o)) = false))
  ∨ DenyRule.access d = write ∧ isReadOnlyFile p a = true.
Proof.
  intros Hb Hd Hex Hl Ha Hq Haq He.
  assert (sees present l q ≠ hidden) as Hv by (unfold exposed in He; destruct (DenyRule.access d); congruence).
  destruct (visible_because present p ctx command l q Hb Hv) as [(o & Ho & Hu & E)|(Hov & Hk & _)].
  { left. exists o. split_and!; [done..|]. intros Hw. unfold exposed in He. rewrite Hw, E in He. left.
    unfold override_exposure in He. by destruct (access o). }
  specialize (Hk d a Hd Hl (contains_under a q Hq Haq)). unfold kept in Hk. rewrite Hex in Hk. cbn [orb] in Hk.
  apply orb_true_iff in Hk as [(o & Ho & Hc)%some_true|Hk].
  - left. exists o. specialize (Hov o Ho).
    assert (under (ref_text (ref o)) (AbsolutePath.value q) = true) as Hu by (eapply under_trans, Haq; [done..|by apply covers_under]).
    split_and!; [done..|]. intros _. right.
    unfold active, override_mount in Hov. destruct (access o); cbn in Hov; by rewrite Hu in Hov.
  - right. apply andb_true_iff in Hk as [Hw Hk]. by apply bool_decide_eq_true in Hw.
Qed.

(** A path below a reference for writing is writable when no anchor of a refusal and no
    override for reading is over it. *)
Lemma granted_writable present p ctx command l q r : build p ctx command = Ok l →
  r ∈ writes p → under (ref_text r) (AbsolutePath.value q) = true → present (ref_text r) = true →
  (∀ d a, d ∈ denies p → PathPattern.literalPrefix (DenyRule.pattern d) (home ctx) = Ok (Some a) →
     under (AbsolutePath.value a) (AbsolutePath.value q) = false) →
  (∀ o, o ∈ overrides p → access o = read → under (ref_text (ref o)) (AbsolutePath.value q) = false) →
  sees present l q = writable.
Proof.
  intros (shadows & Hl & Hs)%read_build Hr Hu Hp Hd Ho. unfold sees. rewrite Hl. unfold opened_part. rewrite !app_assoc.
  destruct (exposure_cases present ((((system_part ctx ++ map (bind_ro ∘ ref_text) (bfilter (λ r, negb (isCoveredBySystem (ResourceRef.path r))) (reads p)))
      ++ map (bind_rw ∘ ref_text) (writes p)) ++ shadows)) (map override_mount (overrides p)) (AbsolutePath.value q))
    as [(m & Hm & Ha & ->)|[_ ->]].
  { apply list_elem_of_fmap in Hm as (o & -> & Hin). unfold override_mount in *.
    destruct (access o) eqn:Eo; [|done]. unfold active in Ha. cbn in Ha. by rewrite (Ho o Hin Eo) in Ha. }
  destruct (exposure_cases present (((system_part ctx ++ map (bind_ro ∘ ref_text) (bfilter (λ r, negb (isCoveredBySystem (ResourceRef.path r))) (reads p)))
      ++ map (bind_rw ∘ ref_text) (writes p))) shadows (AbsolutePath.value q)) as [(m & Hm & Ha & _)|[_ ->]].
  { apply Hs in Hm as (d & a & Hin & Hpre & _ & ->). unfold active in Ha. cbn in Ha. by rewrite (Hd d a Hin Hpre) in Ha. }
  destruct (exposure_cases present (system_part ctx ++ map (bind_ro ∘ ref_text) (bfilter (λ r, negb (isCoveredBySystem (ResourceRef.path r))) (reads p)))
      (map (bind_rw ∘ ref_text) (writes p)) (AbsolutePath.value q)) as [(m & Hm & _ & ->)|[Hn _]].
  { by apply list_elem_of_fmap in Hm as (x & -> & _). }
  exfalso. assert (active present (bind_rw (ref_text r)) (AbsolutePath.value q) = false) as Hf.
  { apply Hn, list_elem_of_fmap. by exists r. }
  unfold active in Hf. cbn in Hf. by rewrite Hu, Hp in Hf.
Qed.
End BubblewrapArgumentBuilder.

(** ** From the grants to the namespace *)

Section namespace.
Import PolicyBuilder AccessTierResolver PolicyProperties BubblewrapArgumentBuilder.
Context `{Digest} (registry : SensitivePathRegistry).

(** The sandbox carries the tiers: under the arguments made from a built policy, whatever
    the host holds, nothing at or below the anchor of a protected location is visible to
    the process (for a location protected from reading) or writable (from writing) unless
    a grant typed by hand, that applies to the workspace and could not be made at run
    time, is over it: for a location protected from writing, one for writing or one whose
    resource the host does not hold. The one exception is for writing: a location that the
    policy opens for reading as a single file is bound read-only instead of hidden. *)
Lemma exposed_by_hand input cache cache' r command l present e a anchor q :
  cache_ok registry cache → real_home (context input) →
  PolicyBuilder.build registry input cache = (cache', Ok r) →
  BubblewrapArgumentBuilder.build (policy r) (context input) command = Ok l →
  e ∈ SensitivePathRegistry.dangerousFor registry (platform (context input)) a →
  SensitivePath.outsideWorkspaceOnly e = false →
  SensitivePath.literalPrefix e (home (context input)) = Ok (Some anchor) →
  AbsolutePath.posix_wf anchor → AbsolutePath.posix_wf q → AbsolutePath.contains anchor q = true →
  exposed present l a q →
  (∃ g, g ∈ grants input ∧ Grant.appliesTo g (workspaceId input) = true ∧ Grant.origin g = Grant.manual
     ∧ ¬ grantable registry (Grant.resource g) (Grant.access g) (context input)
     ∧ under (ref_text (Grant.resource g)) (AbsolutePath.value q) = true
     ∧ (a = write → Grant.access g = write ∨ present (ref_text (Grant.resource g)) = false))
  ∨ a = write ∧ isReadOnlyFile (policy r) anchor = true.
Proof.
  intros Hc Hh Hp Hb He Hout Hl Ha Hq Haq Hx.
  destruct (build_yields registry input Hh cache Hc) as [_ HQ]. rewrite Hp in HQ.
  destruct (HQ r eq_refl) as (Hd & _ & Ho & _).
  assert (∃ d, d ∈ denies (policy r) ∧ DenyRule.exceptWithin d = None ∧ DenyRule.pattern d = SensitivePath.pattern e
               ∧ DenyRule.access d = a) as (d & Hin & Hex & Hpat & Hacc).
  { rewrite Hd. eexists. split; [apply elem_of_denyRules; exists a, e; split; [done|reflexivity]|]. by rewrite Hout. }
  destruct (anchored_refusal present (policy r) (context input) command l q d anchor) as [(o & Hoo & Hu & Hw)|[Hw Hk]]; try done.
  - by rewrite Hpat.
  - by rewrite Hacc.
  - left. apply Ho in Hoo as (g & Hg & Happ & Hman & Hng & ->). exists g. split_and!; [done..|]. intros Haw. apply Hw. congruence.
  - right. split; [congruence|done].
Qed.

(** The sandbox leaves the work to be done: under the arguments made from a built policy
    every path of the workspace is writable, if the workspace exists, unless it lies
    below the anchor of a protected location or a grant typed by hand for reading is over
    it. *)
Theorem namespace_serves_workspace input cache cache' r command l present q :
  cache_ok registry cache → real_home (context input) →
  PolicyBuilder.build registry input cache = (cache', Ok r) →
  BubblewrapArgumentBuilder.build (policy r) (context input) command = Ok l →
  present (AbsolutePath.value (SensitivePaths.workspace (context input))) = true →
  AbsolutePath.posix_wf q → AbsolutePath.contains (SensitivePaths.workspace (context input)) q = true →
  (∀ e a anchor, e ∈ SensitivePathRegistry.dangerousFor registry (platform (context input)) a →
     SensitivePath.literalPrefix e (home (context input)) = Ok (Some anchor) →
     under (AbsolutePath.value anchor) (AbsolutePath.value q) = false) →
  (∀ g, g ∈ grants input → Grant.origin g = Grant.manual → Grant.access g = read →
     under (ref_text (Grant.resource g)) (AbsolutePath.value q) = false) →
  sees present l q = writable.
Proof.
  intros Hc Hh Hp Hb Hpres Hq Hw Hd Ho.
  destruct (build_yields registry input Hh cache Hc) as [_ HQ]. destruct (build_accounts registry input Hh cache Hc) as [_ HA].
  rewrite Hp in HQ, HA. destruct (HQ r eq_refl) as (Hden & _ & Hov & _). destruct (HA r eq_refl) as [Hws _].
  apply (granted_writable present (policy r) (context input) command l q
           (ResourceRef.subtree (SensitivePaths.workspace (context input)))); try done.
  - apply (Hws write).
  - by apply contains_under.
  - intros d a Hin Hpre. rewrite Hden in Hin. apply elem_of_denyRules in Hin as (acc & e & He & ->). by eapply Hd.
  - intros o (g & Hg & _ & Hman & _ & ->)%Hov Hacc. by apply Ho.
Qed.
End namespace.

(** ** A run *)

Section example.
Import BubblewrapArgumentBuilder PolicyProperties PolicyBuilder.

Definition demo_command : SandboxCommand := mkCommand "claude" ["-p"] (SensitivePaths.workspace demo_context) ∅.
Definition built_args (input : PolicyInput) (x : result PolicyBuildResult) : result (list string) :=
  let! r := x in BubblewrapArgumentBuilder.build (policy r) (context input) demo_command.
Definition everything (_ : string) : bool := true.
(** What a built policy says of a path and what the namespace made of it shows. *)
Definition views (input : PolicyInput) (a : Access) (q : AbsolutePath) (x : result PolicyBuildResult) : option (bool * Exposure) :=
  match x, built_args input x with
  | Ok r, Ok l => Some (allows (policy r) a q (context input), sees everything l q)
  | _, _ => None
  end.
Definition compare_views (input : PolicyInput) (a : Access) (q : AbsolutePath) : option (bool * Exposure) :=
  views input a q (PolicyBuilder.build default_registry input ∅).2.
Definition below_home (names : list string) : AbsolutePath := AbsolutePath.posix_path (["home"; "u"] ++ names).

Example demo_views :
  compare_views (demo_input []) read demo_key = Some (false, hidden)
  ∧ compare_views (demo_input [demo_grant Grant.manual]) read demo_key = Some (true, readable)
  ∧ compare_views (demo_input []) write (below_home ["w"; "a.ts"]) = Some (true, writable).
Proof. vm_compute. done. Qed.

(** The agent's own directory is opened by the policy and hidden by the sandbox: the anchor
    of the protected ~/.claude/settings*.json is ~/.claude itself. *)
Definition agent_input : PolicyInput :=
  let i := demo_input [] in
  mkInput (profile i) (grants i) (context i) (workspaceId i) (toolchainRoots i) (stateDir i)
    [below_home [".claude"]] (tempDirs i).
Lemma agent_state_hidden :
  compare_views agent_input read (below_home [".claude"; "projects"; "session.jsonl"]) = Some (true, hidden).
Proof. vm_compute. done. Qed.

(** A grant typed by hand for reading a directory around the workspace makes the workspace
    read-only, which the policy does not say. *)
Lemma read_override_freezes_workspace :
  compare_views (demo_input [Grant.construct (Grant.mkProps (ResourceRef.subtree (below_home [])) read
                               GrantScope.global_ (Some 0%Z) "all" Grant.manual)])
    write (below_home ["w"; "a.ts"]) = Some (true, readable).
Proof. vm_compute. done. Qed.

(** A comparison that answers comes from a policy and from arguments. *)
Lemma compare_views_inv input a q b e : compare_views input a q = Some (b, e) →
  ∃ cache' r l, PolicyBuilder.build default_registry input ∅ = (cache', Ok r)
    ∧ BubblewrapArgumentBuilder.build (policy r) (context input) demo_command = Ok l ∧ sees everything l q = e.
Proof.
  unfold compare_views. destruct (PolicyBuilder.build default_registry input ∅) as [c [r|err]]; cbn [snd]; [|done].
  unfold views, built_args. cbn [rbind]. destruct (BubblewrapArgumentBuilder.build (policy r) (context input) demo_command) as [l|] eqn:E; [|done].
  intros [= _ <-]. by exists c, r, l.
Qed.

Lemma namespace_serves_workspace_witness :
  compare_views (demo_input []) write (below_home ["w"; "a.ts"]) = Some (true, writable).
Proof.
  destruct (compare_views_inv (demo_input []) write (below_home ["w"; "a.ts"]) true writable
              (proj2 (proj2 demo_views))) as (c & r & l & Hp & Hb & Hs).
  rewrite <-(namespace_serves_workspace default_registry (demo_input []) ∅ c r demo_command l everything (below_home ["w"; "a.ts"])).
  - rewrite Hs. exact (proj2 (proj2 demo_views)).
  - apply AccessTierResolver.cache_ok_empty.
  - reflexivity.
  - exact Hp.
  - exact Hb.
  - reflexivity.
  - by exists ["home"; "u"; "w"; "a.ts"]; split_and!; [|apply (bool_decide_unpack _); reflexivity|repeat constructor].
  - reflexivity.
  - intros e a anchor He Hl.
    assert (every (λ a, every (λ e, match SensitivePath.literalPrefix e demo_home with
               | Ok (Some t) => negb (under (AbsolutePath.value t) (AbsolutePath.value (below_home ["w"; "a.ts"])))
               | _ => true end) (SensitivePathRegistry.dangerousFor default_registry Platform.Linux a)) [read; write] = true) as Hall
      by (vm_compute; reflexivity).
    rewrite every_true in Hall. assert (a ∈ [read; write]) as Ha by (destruct a; [by left|right; by left]).
    specialize (Hall a Ha). rewrite every_true in Hall. specialize (Hall e He). cbn beta in Hall.
    change (home (context (demo_input []))) with demo_home in Hl. rewrite Hl in Hall. by apply negb_true_iff in Hall.
  - intros g Hg. destruct (proj1 (elem_of_nil g) Hg).
Defined.
End example.
