(* ===== verification/Seatbelt.v ===== *)
(** * The macOS sandbox (src/infrastructure/sandbox/SeatbeltProfileCompiler.ts)

    The translation of a policy into the text of a Seatbelt profile, and what the profile
    decides. The text is a list of lines; the lines that judge files are kept as clauses
    beside their text. *)

From S2P Require Import Prelude JsString JsNumber NodePath Paths Patterns Values Resources Network.
From S2P Require Import SensitivePaths Registry Sha256 Tiers Entities Policy Regex.
Import SandboxPolicy TextPaths.

Module SeatbeltProfileCompiler.

(** ** Texts *)

Definition double_quoted (s : string) : string := str1 dquote +:+ s +:+ str1 dquote.

(** A path that could end the string it is put into is refused. *)
Definition quote (path : AbsolutePath) (what : string) : result string :=
  let value := AbsolutePath.value path in
  if includes value (str1 dquote) || includes value (str1 backslash)
  then throw ("Cannot escape a quote or backslash in a sandbox path (" +:+ what +:+ "): " +:+ value)
  else if sexists (λ c, Ascii.eqb c newline || Ascii.eqb c (chr 13)) value
  then throw ("Cannot escape a newline in a sandbox path (" +:+ what +:+ "): " +:+ value)
  else Ok (double_quoted value).

(** [text.replace(/[\n\r]+/g, ' ')]; the flag says that a space already stands for the run. *)
Fixpoint comment_from (in_run : bool) (text : string) : string :=
  match text with
  | "" => ""
  | String c r =>
      if Ascii.eqb c newline || Ascii.eqb c (chr 13)
      then (if in_run then "" else " ") +:+ comment_from true r
      else String c (comment_from false r)
  end.
Definition comment : string → string := comment_from false.

(** [literal.replace(/[.*+?^${}()|[\]\\]/g, '\\$&')] *)
Definition is_meta (c : ascii) : bool := has_char c ".*+?^${}()|[]\".
Fixpoint escape (s : string) : string :=
  match s with
  | "" => ""
  | String c r => if is_meta c then String backslash (String c (escape r)) else String c (escape r)
  end.

(** The replacement of every RECURSE mark, with the slashes beside it, by an optional tail
    of directories; [skip] characters belong to the last match. *)
Definition RECURSE : string := str1 (chr 0) +:+ "RECURSE" +:+ str1 (chr 0).
Definition recurse_at (s : string) : option nat :=
  let closing n := if startsWith (sdrop n s) "/" then S n else n in
  if startsWith s ("/" +:+ RECURSE) then Some (closing 10)
  else if startsWith s RECURSE then Some (closing 9)
  else None.
Fixpoint replace_recurse (skip : nat) (s : string) : string :=
  match s with
  | "" => ""
  | String c r =>
      match skip with
      | S k => replace_recurse k r
      | O => match recurse_at s with
             | Some n => "(/.*)?/" +:+ replace_recurse (n - 1) r
             | None => String c (replace_recurse 0 r)
             end
      end
  end.
(** The replacement of such a tail at the start of the expression. *)
Definition replace_leading (s : string) : string :=
  if startsWith s "(/.*)?/" then "/(.*/)?" +:+ sdrop 7 s else s.

Definition segment_regex (segment : string) : string :=
  if (segment =? PathPattern.RECURSIVE)%string then RECURSE
  else join "[^/]*" (map escape (split PathPattern.star segment)).
Definition patternToRegex (raw : string) (home : AbsolutePath) (within : option AbsolutePath) : string :=
  let anchored := if startsWith raw "~/" then AbsolutePath.value home +:+ "/" +:+ sdrop 2 raw else raw in
  let body := replace_leading (replace_recurse 0 (join "/" (map segment_regex (split slash anchored)))) in
  let prefix := match within with None => "" | Some w => escape (AbsolutePath.value w) end in
  "^" +:+ prefix +:+ body +:+ "$".

(** ** Clauses *)

Inductive Filter :=
| any_file
| subpath (t : string)
| literal (t : string)
| regex (r : string).
Record Clause := mkClause { allows_it : bool; operation_of : Access; filter_of : Filter; note : string }.

Definition operation (a : Access) : string := match a with read => "file-read*" | write => "file-write*" end.
Definition filter_text (f : Filter) : string :=
  match f with
  | any_file => ""
  | subpath t => " (subpath " +:+ double_quoted t +:+ ")"
  | literal t => " (literal " +:+ double_quoted t +:+ ")"
  | regex r => " (regex #" +:+ double_quoted r +:+ ")"
  end.
Definition clause_text (c : Clause) : string :=
  "(" +:+ (if allows_it c then "allow" else "deny") +:+ " " +:+ operation (operation_of c) +:+ filter_text (filter_of c)
  +:+ ")" +:+ note c.
(** A line of the profile: one that does not judge files, or a clause. *)
Definition Line : Type := string + Clause.
Definition line_text (l : Line) : string := match l with inl t => t | inr c => clause_text c end.
(** [; text] behind a clause *)
Definition remark (text : string) : string := " ; " +:+ text.

Definition filter (r : ResourceRef) : result Filter :=
  let! _ := quote (ResourceRef.path r) (ResourceRef.toString r) in
  Ok ((if ResourceRef.is_subtree r then subpath else literal) (AbsolutePath.value (ResourceRef.path r))).

Definition allowLine (a : Access) (r : ResourceRef) : result Line :=
  let! f := filter r in Ok (inr (mkClause true a f "")).
Definition overrideLine (o : PolicyOverride) : result Line :=
  let! f := filter (ref o) in Ok (inr (mkClause true (access o) f (remark (comment (reason o))))).

Definition denyLines (ctx : PathContext) (d : DenyRule) : result (list Line) :=
  let! anchor := PathPattern.literalPrefix (DenyRule.pattern d) (home ctx) in
  let raw := PathPattern.raw (DenyRule.pattern d) in
  let by_regex := Ok (regex (patternToRegex raw (home ctx) None)) in
  let! f := match anchor with
            | None => by_regex
            | Some a =>
                if includes raw "**/" then by_regex
                else let! _ := quote a (DenyRule.sourceId d) in Ok (subpath (AbsolutePath.value a))
            end in
  Ok (inr (mkClause false (DenyRule.access d) f (remark (comment (DenyRule.sourceId d))))
      :: match DenyRule.exceptWithin d with
         | None => []
         | Some w =>
             [inr (mkClause true (DenyRule.access d) (regex (patternToRegex raw (home ctx) (Some w)))
                     (remark (comment (DenyRule.sourceId d) +:+ " — the workspace's own file")))]
         end).

Definition networkLines (e : NetworkEnforcement) : list Line :=
  match e with
  | brokered (tcp_loopback port) =>
      [inl ";; --- network: destination broker only --------------------------------";
       inl "(allow system-socket)";
       inl ("(allow network-outbound (remote tcp " +:+ double_quoted ("localhost:" +:+ string_of_Z port) +:+ "))")]
  | brokered (unix_socket_relay _ _ _) =>
      [inl ";; --- network: unsupported broker transport; fully closed --------------"]
  | _ => [inl ";; --- network: fully closed --------------------------------------------"]
  end.

Definition preamble : list Line :=
  [inl "(version 1)"; inl ";; Generated by agentkeeper. Do not edit: rebuilt on every run."; inl "(deny default)"; inl "";
   inl ";; --- operations any process needs in order to start -------------------";
   inl "(allow process-fork)"; inl "(allow process-exec)"; inl "(allow signal (target self))"; inl "(allow sysctl-read)";
   inl "(allow file-map-executable)"; inl "(allow file-read-metadata)"; inl "(allow file-ioctl)";
   inr (mkClause true write (subpath "/dev") ""); inl "";
   inl ";; --- system is readable, every home directory is not -------------------";
   inr (mkClause true read any_file "")].

Definition lines (p : SandboxPolicy) (ctx : PathContext) : result (list Line) :=
  let! above := AbsolutePath.parent (home ctx) in
  let! _ := quote above "home root" in
  let! _ := quote (home ctx) "home" in
  let! allows_read := rmapM (allowLine read) (reads p) in
  let! allows_write := rmapM (allowLine write) (writes p) in
  let! refusals := rmapM (denyLines ctx) (denies p) in
  let! by_hand := rmapM overrideLine (overrides p) in
  Ok (preamble
      ++ [inr (mkClause false read (subpath (AbsolutePath.value above)) "");
          inr (mkClause false read (subpath (AbsolutePath.value (home ctx))) ""); inl "";
          inl ";; --- what this workspace opened ---------------------------------------"]
      ++ allows_read ++ allows_write
      ++ (if 0 <? length (denies p)
          then inl "" :: inl ";; --- refusals, which outrank every allow above -------------------------" :: concat refusals
          else [])
      ++ (if 0 <? length (overrides p)
          then inl "" :: inl ";; --- hand-written grants, which outrank the refusals above -------------" :: by_hand
          else [])
      ++ inl "" :: networkLines (networkEnforcement p)).
Definition compile (p : SandboxPolicy) (ctx : PathContext) : result string :=
  let! ls := lines p ctx in Ok (join nl (map line_text ls) +:+ nl).

Example regexes :
  patternToRegex "**/.env" (AbsolutePath.posix_path ["Users"; "dev"]) None = "^/(.*/)?\.env$"
  ∧ patternToRegex "**/.env.*" (AbsolutePath.posix_path ["Users"; "dev"]) (Some (AbsolutePath.posix_path ["Users"; "dev"; "w"]))
    = "^/Users/dev/w/(.*/)?\.env\.[^/]*$"
  ∧ patternToRegex "~/a/**/b" (AbsolutePath.posix_path ["Users"; "dev"]) None = "^/Users/dev/a(/.*)?/b$".
Proof. vm_compute. done. Qed.

(** ** What a profile decides

    The profile starts from a refusal of everything, and of the clauses that match an
    access the last one decides. [re] says whether a text matches an expression. *)

Section decide.
Context (re : string → string → bool).

Definition selects (f : Filter) (path : string) : bool :=
  match f with
  | any_file => true
  | subpath t => under t path
  | literal t => (path =? t)%string
  | regex r => re r path
  end.
Definition judges (a : Access) (path : string) (c : Clause) : bool :=
  bool_decide (operation_of c = a) && selects (filter_of c) path.
Definition step (a : Access) (path : string) (verdict : bool) (l : Line) : bool :=
  match l with inl _ => verdict | inr c => if judges a path c then allows_it c else verdict end.
Definition decide_access (ls : list Line) (a : Access) (path : AbsolutePath) : bool :=
  foldl (step a (AbsolutePath.value path)) false ls.

(** A part of the profile in which every clause for the access and the path says the same. *)
Definition says (b : bool) (ls : list Line) (a : Access) (path : string) : Prop :=
  ∀ c, inr c ∈ ls → judges a path c = true → allows_it c = b.

Lemma says_app b ls ks a path : says b (ls ++ ks) a path ↔ says b ls a path ∧ says b ks a path.
Proof. unfold says. setoid_rewrite elem_of_app. naive_solver. Qed.
Lemma says_keeps b ls a path : says b ls a path → foldl (step a path) b ls = b.
Proof.
  induction ls as [|[t|c] ls IH]; intros Hs; [done|..]; cbn [foldl step].
  - apply IH. intros c Hc. apply Hs. by right.
  - destruct (judges a path c) eqn:E.
    + rewrite (Hs c); [|by left|done]. apply IH. intros x Hx. apply Hs. by right.
    + apply IH. intros x Hx. apply Hs. by right.
Qed.
(** A clause decides when every later one that matches agrees. *)
Lemma decide_by b ls c ks a path : judges a path c = true → allows_it c = b → says b ks a path →
  foldl (step a path) false (ls ++ inr c :: ks) = b.
Proof. intros Hj Hb Hk. rewrite foldl_app. cbn [foldl step]. rewrite Hj, Hb. by apply says_keeps. Qed.
End decide.

(** ** The parts of a profile *)

Definition clause_of_ref (verdict : bool) (a : Access) (r : ResourceRef) (n : string) : Clause :=
  mkClause verdict a ((if ResourceRef.is_subtree r then subpath else literal) (AbsolutePath.value (ResourceRef.path r))) n.

Lemma filter_Ok r f : filter r = Ok f →
  f = (if ResourceRef.is_subtree r then subpath else literal) (AbsolutePath.value (ResourceRef.path r)).
Proof. unfold filter. destruct (quote _ _); cbn; [|done]. by intros [= <-]. Qed.
Lemma allowLine_Ok a r l : allowLine a r = Ok l → l = inr (clause_of_ref true a r "").
Proof. unfold allowLine. destruct (filter r) as [f|] eqn:E; cbn; [|done]. intros [= <-]. by apply filter_Ok in E as ->. Qed.
Lemma overrideLine_Ok o l : overrideLine o = Ok l →
  l = inr (clause_of_ref true (access o) (ref o) (remark (comment (reason o)))).
Proof. unfold overrideLine. destruct (filter (ref o)) as [f|] eqn:E; cbn; [|done]. intros [= <-]. by apply filter_Ok in E as ->. Qed.

Lemma says_overrides re os ls a path : rmapM overrideLine os = Ok ls → says re true ls a path.
Proof.
  intros H%rmapM_Ok c Hc _. apply list_elem_of_lookup_1 in Hc as [i Hi].
  destruct (Forall2_lookup_r _ _ _ _ _ H Hi) as (o & _ & Ho). apply overrideLine_Ok in Ho.
  assert (c = clause_of_ref true (access o) (ref o) (remark (comment (reason o)))) as -> by congruence. done.
Qed.
Lemma networkLines_quiet re b e a path : says re b (networkLines e) a path.
Proof. intros c Hc. exfalso. revert Hc. destruct e as [| |[port|s r port]]; cbn; set_solver. Qed.

(** The file filter of a refusal, and the clause that re-opens it in the workspace. *)
Lemma denyLines_Ok ctx d ls : denyLines ctx d = Ok ls → ∃ f rest, ls = inr (mkClause false (DenyRule.access d) f (remark (comment (DenyRule.sourceId d)))) :: rest
  ∧ (∀ a, PathPattern.literalPrefix (DenyRule.pattern d) (home ctx) = Ok (Some a) →
       includes (PathPattern.raw (DenyRule.pattern d)) "**/" = false → f = subpath (AbsolutePath.value a))
  ∧ ∀ c, inr c ∈ rest → ∃ w, DenyRule.exceptWithin d = Some w
      ∧ filter_of c = regex (patternToRegex (PathPattern.raw (DenyRule.pattern d)) (home ctx) (Some w)).
Proof.
  unfold denyLines. destruct (PathPattern.literalPrefix (DenyRule.pattern d) (home ctx)) as [anchor|]; [|done]. cbn [rbind].
  match goal with |- rbind ?x _ = _ → _ => destruct x as [f|] eqn:E; [|done] end. cbn [rbind].
  match goal with |- Ok (_ :: ?r) = _ → _ => intros H; assert (ls = inr (mkClause false (DenyRule.access d) f
     (remark (comment (DenyRule.sourceId d)))) :: r) as -> by congruence; exists f, r end.
  split; [done|]. split.
  - intros a [= ->] Hr. rewrite Hr in E. destruct (quote a (DenyRule.sourceId d)); cbn in E; [|done]. by injection E.
  - intros c Hc. destruct (DenyRule.exceptWithin d) as [w|]; [|by apply elem_of_nil in Hc].
    apply list_elem_of_singleton in Hc. injection Hc as ->. by exists w.
Qed.

(** ** Expressions held to a directory *)

(** What is relied on of the engine that reads the expressions: the one that re-opens, in a
    directory, a pattern that starts with a recursive segment matches only texts below that
    directory. *)
Class WorkspaceExpressions (re : string → string → bool) :=
  workspace_expression : ∀ raw home w t, startsWith raw "**/" = true →
    re (patternToRegex raw home (Some w)) t = true → startsWith t (AbsolutePath.value w +:+ "/") = true.

(** Such an expression: its start, the text of the directory and a slash with every special
    character escaped, and a group. *)
Lemma patternToRegex_within raw home w : startsWith raw "**/" = true →
  ∃ body, patternToRegex raw home (Some w) = "^" +:+ escape (AbsolutePath.value w) +:+ "/(" +:+ body.
Proof.
  intros [t ->]%startsWith_true. unfold patternToRegex.
  replace (startsWith ("**/" +:+ t) "~/") with false by done.
  assert (split slash ("**/" +:+ t) = "**" :: split slash t) as -> by done.
  cbn [map]. unfold segment_regex at 1. rewrite String.eqb_refl.
  rewrite join_cons by (by destruct (split slash t) eqn:E; [apply split_nonempty in E|]).
  set (tail_ := join "/" (map segment_regex (split slash t))).
  assert (replace_recurse 0 (RECURSE +:+ "/" +:+ tail_)
          = "(/.*)?/" +:+ replace_recurse 9 ("RECURSE" +:+ str1 (chr 0) +:+ "/" +:+ tail_)) as ->.
  { assert (recurse_at (RECURSE +:+ "/" +:+ tail_) = Some 10) as E.
    { unfold recurse_at. destruct tail_; vm_compute; done. }
    revert E. unfold RECURSE. cbn [str1 String.append]. intros E. cbn [replace_recurse]. by rewrite E. }
  assert (∀ x, replace_leading ("(/.*)?/" +:+ x) = "/(.*/)?" +:+ x) as ->.
  { intros x. unfold replace_leading. rewrite (proj2 (startsWith_true _ "(/.*)?/")); [|by exists x].
    done. }
  eexists (".*/)?" +:+ _). rewrite !sapp_assoc. reflexivity.
Qed.

Section refusals.
Context (re : string → string → bool) `{!WorkspaceExpressions re}.

(** The refusals of a policy refuse: only the clauses that re-open a pattern inside the
    workspace allow anything, and only there. *)
Lemma says_refusals ctx ds lss a q :
  rmapM (denyLines ctx) ds = Ok lss →
  (∀ d w, d ∈ ds → DenyRule.exceptWithin d = Some w →
     startsWith (PathPattern.raw (DenyRule.pattern d)) "**/" = true ∧ startsWith q (AbsolutePath.value w +:+ "/") = false) →
  says re false (concat lss) a q.
Proof.
  intros H%rmapM_Ok Hout c Hc Hj. apply elem_of_concat in Hc as (ls & Hc & Hls).
  apply list_elem_of_lookup_1 in Hls as [i Hi]. destruct (Forall2_lookup_r _ _ _ _ _ H Hi) as (d & Hd & Ho).
  apply list_elem_of_lookup_2 in Hd. apply denyLines_Ok in Ho as (f & rest & -> & _ & Hrest).
  apply elem_of_cons in Hc as [Hc|Hc].
  { assert (c = mkClause false (DenyRule.access d) f (remark (comment (DenyRule.sourceId d)))) as -> by congruence. done. }
  destruct (Hrest c Hc) as (w & Hw & Hf). destruct (Hout d w Hd Hw) as [Hraw Hq].
  unfold judges in Hj. rewrite Hf in Hj. apply andb_true_iff in Hj as [_ Hj]. cbn [selects] in Hj.
  apply (workspace_expression (re := re)) in Hj; [congruence|done].
Qed.

(** A refusal with an anchor, followed by the overrides. *)
Lemma refusal_decides p ctx ls d anchor a q : lines p ctx = Ok ls →
  d ∈ denies p → DenyRule.access d = a → PathPattern.literalPrefix (DenyRule.pattern d) (home ctx) = Ok (Some anchor) →
  includes (PathPattern.raw (DenyRule.pattern d)) "**/" = false →
  under (AbsolutePath.value anchor) (AbsolutePath.value q) = true →
  (∀ d w, d ∈ denies p → DenyRule.exceptWithin d = Some w →
     startsWith (PathPattern.raw (DenyRule.pattern d)) "**/" = true
     ∧ startsWith (AbsolutePath.value q) (AbsolutePath.value w +:+ "/") = false) →
  decide_access re ls a q = true →
  ∃ o, o ∈ overrides p ∧ access o = a
    ∧ (if ResourceRef.is_subtree (ref o) then under (ref_text (ref o)) (AbsolutePath.value q) = true
       else AbsolutePath.value q = ref_text (ref o)).
Proof.
  unfold lines. destruct (AbsolutePath.parent (home ctx)) as [above|]; [|done]. cbn [rbind].
  destruct (quote above "home root"); [|done]. cbn [rbind]. destruct (quote (home ctx) "home"); [|done]. cbn [rbind].
  destruct (rmapM (allowLine read) (reads p)) as [lr|]; [|done]. cbn [rbind].
  destruct (rmapM (allowLine write) (writes p)) as [lw|]; [|done]. cbn [rbind].
  destruct (rmapM (denyLines ctx) (denies p)) as [lss|] eqn:Ed; [|done]. cbn [rbind].
  destruct (rmapM overrideLine (overrides p)) as [lo|] eqn:Eo; [|done]. cbn [rbind].
  intros <-%Ok_inj.
  intros Hd Ha Hpre Hraw Hu Hout Hdec.
  pose proof (says_refusals ctx (denies p) lss a _ Ed Hout) as Hsays.
  pose proof (proj1 (rmapM_Ok _ _ _) Ed) as Hall. pose proof Hd as Hd'.
  apply list_elem_of_lookup_1 in Hd' as [i Hi]. destruct (Forall2_lookup_l _ _ _ _ _ Hall Hi) as (ls & Hls & Hden).
  apply denyLines_Ok in Hden as (f & rest & -> & Hf & _). specialize (Hf anchor Hpre Hraw) as ->.
  set (c := mkClause false (DenyRule.access d) (subpath (AbsolutePath.value anchor)) (remark (comment (DenyRule.sourceId d)))) in *.
  assert (inr c ∈ concat lss) as Hin.
  { apply elem_of_concat. exists (inr c :: rest). split; [by left|by eapply list_elem_of_lookup_2]. }
  apply list_elem_of_split in Hin as (k1 & k2 & Ek). rewrite Ek in Hsays.
  assert (0 <? length (denies p) = true) as Hlen by (apply Nat.ltb_lt; destruct (denies p); [by apply elem_of_nil in Hd|cbn; lia]).
  rewrite Hlen, Ek in Hdec.
  set (over o := judges re a (AbsolutePath.value q) (clause_of_ref true (access o) (ref o) (remark (comment (reason o))))).
  destruct (some over (overrides p)) eqn:Eover.
  { apply some_true in Eover as (o & Ho & Hj). exists o. unfold over, judges, clause_of_ref in Hj.
    cbn [operation_of filter_of] in Hj. apply andb_true_iff in Hj as [Hacc Hsel].
    apply bool_decide_eq_true in Hacc. split; [done|]. split; [done|].
    destruct (ResourceRef.is_subtree (ref o)); [done|]. by apply String.eqb_eq. }
  exfalso. revert Hdec. rewrite some_false in Eover.
  assert (says re false lo a (AbsolutePath.value q)) as Hlo.
  { intros x Hx Hj. apply rmapM_Ok in Eo. apply list_elem_of_lookup_1 in Hx as [j Hx].
    destruct (Forall2_lookup_r _ _ _ _ _ Eo Hx) as (o & Ho & Hline). apply list_elem_of_lookup_2 in Ho.
    apply overrideLine_Ok in Hline. assert (x = clause_of_ref true (access o) (ref o) (remark (comment (reason o)))) as -> by congruence.
    specialize (Eover o Ho). unfold over in Eover. congruence. }
  apply says_app in Hsays as [_ Hsays]. assert (says re false k2 a (AbsolutePath.value q)) as Hk2.
  { intros x Hx. apply Hsays. by right. }
  unfold decide_access. change (inl "" :: inl ?t :: k1 ++ ?k) with ((inl "" :: inl t :: k1) ++ k).
  rewrite !foldl_app. cbn [foldl step].
  assert (judges re a (AbsolutePath.value q) c = true) as ->.
  { unfold judges. cbn. rewrite Ha, bool_decide_true by done. exact Hu. }
  cbn [allows_it c]. rewrite (says_keeps re false k2) by done.
  destruct (0 <? length (overrides p)); cbn [foldl step]; [rewrite (says_keeps re false lo) by done|].
  all: by rewrite (says_keeps re false (networkLines _)) by apply networkLines_quiet.
Qed.
End refusals.

(** ** Nothing in a policy writes a line of its own *)

(** Neither a line break nor a double quote. *)
Definition tame (c : ascii) : bool := negb (Ascii.eqb c newline || Ascii.eqb c (chr 13) || Ascii.eqb c dquote).
Definition tame_text : string → bool := sforall tame.

Lemma tame_split c s : tame_text s = true → Forall (λ w, tame_text w = true) (split c s).
Proof.
  unfold tame_text. induction s as [|d s IH]; intros Hs; [by repeat constructor|]. cbn in Hs. bool_prop. cbn [split].
  specialize (IH H0). case_if; [by constructor|]. destruct (split c s) as [|w l]; [by repeat constructor; cbn; rewrite H|].
  inversion IH; subst. constructor; [|done]. cbn. by rewrite H, H3.
Qed.
Lemma tame_app s t : tame_text (s +:+ t) = tame_text s && tame_text t.
Proof. apply sforall_app. Qed.
Lemma tame_escape s : tame_text s = true → tame_text (escape s) = true.
Proof.
  unfold tame_text. induction s as [|c s IH]; [done|]. cbn. intros H. bool_prop. case_if; cbn; by rewrite H, IH.
Qed.
Lemma tame_sdrop n s : tame_text s = true → tame_text (sdrop n s) = true.
Proof. intros H. rewrite <-(stake_sdrop n s), tame_app in H. by apply andb_true_iff in H as [_ H]. Qed.
Lemma tame_replace_recurse s : ∀ skip, tame_text s = true → tame_text (replace_recurse skip s) = true.
Proof.
  induction s as [|c s IH]; intros skip H; [by destruct skip|]. assert (Hs := H). cbn in H. bool_prop.
  cbn [replace_recurse]. destruct skip; [|by apply IH]. destruct (recurse_at _) as [n|].
  - rewrite tame_app, IH by done. done.
  - unfold tame_text. cbn. rewrite H. by apply IH.
Qed.
Lemma tame_regex raw home within : tame_text raw = true → tame_text (AbsolutePath.value home) = true →
  match within with Some w => tame_text (AbsolutePath.value w) = true | None => True end →
  tame_text (patternToRegex raw home within) = true.
Proof.
  intros Hr Hh Hw. unfold patternToRegex. rewrite !tame_app. apply andb_true_iff. split; [done|].
  apply andb_true_iff. split; [destruct within; [by apply tame_escape|done]|]. apply andb_true_iff. split; [|done].
  set (anchored := if startsWith raw "~/" then _ else _).
  assert (tame_text anchored = true) as Ha.
  { subst anchored. case_if; [|done]. rewrite !tame_app, Hh, tame_sdrop by done. done. }
  assert (tame_text (join "/" (map segment_regex (split slash anchored))) = true) as Hj.
  { apply sforall_join; [done|]. apply Forall_map. eapply Forall_impl; [by apply (tame_split slash)|]. intros w Hwt.
    unfold segment_regex. case_if; [done|]. apply sforall_join; [done|]. apply Forall_map.
    eapply Forall_impl; [by apply (tame_split PathPattern.star)|]. intros x. apply tame_escape. }
  unfold replace_leading. case_if; [|by apply tame_replace_recurse].
  rewrite tame_app. apply andb_true_iff. split; [done|]. by apply tame_sdrop, tame_replace_recurse.
Qed.
Lemma quote_tame path what s : quote path what = Ok s → tame_text (AbsolutePath.value path) = true.
Proof.
  unfold quote. destruct (includes _ (str1 dquote) || _) eqn:E1; [done|].
  destruct (sexists _ _) eqn:E2; [done|]. intros _. apply orb_false_iff in E1 as [E1 _].
  rewrite includes_char in E1. rewrite sexists_false in E2. revert E1 E2. generalize (AbsolutePath.value path). clear.
  unfold tame_text. induction s as [|c s IH]; [done|]. cbn. intros H1 H2. bool_prop. rewrite IH by done.
  unfold tame. by rewrite H, H3, H1.
Qed.
Lemma comment_line text : has_char newline (comment text) = false.
Proof.
  unfold comment. enough (∀ b, has_char newline (comment_from b text) = false) as H by apply H.
  induction text as [|c text IH]; intros b; [done|]. cbn.
  destruct (Ascii.eqb c newline || Ascii.eqb c (chr 13)) eqn:E.
  - destruct b; cbn; by rewrite IH.
  - apply orb_false_iff in E as [E _]. cbn. by rewrite IH, E.
Qed.

(** A line that holds no line break, and whose clause holds no stray quote. *)
Definition tame_filter (f : Filter) : bool :=
  match f with any_file => true | subpath t | literal t | regex t => tame_text t end.
Definition tame_line (l : Line) : Prop :=
  has_char newline (line_text l) = false ∧ match l with inl _ => True | inr c => tame_filter (filter_of c) = true end.

Lemma tame_no_newline s : tame_text s = true → has_char newline s = false.
Proof.
  unfold tame_text. induction s as [|c s IH]; [done|]. cbn. intros H. bool_prop. rewrite IH by done.
  unfold tame in H. bool_prop. by rewrite H.
Qed.
Lemma tame_clause b a f text : tame_filter f = true → has_char newline text = false → tame_line (inr (mkClause b a f text)).
Proof.
  intros Hf Ht. split; [|done]. cbn [line_text]. unfold clause_text. cbn [allows_it operation_of filter_of note].
  rewrite !has_char_app, Ht. destruct f as [|t|t|t]; cbn [filter_text];
    rewrite ?has_char_app; unfold double_quoted; rewrite ?has_char_app;
    try (apply tame_no_newline in Hf; rewrite Hf); by destruct b, a.
Qed.
Lemma tame_remark text : has_char newline text = false → has_char newline (remark text) = false.
Proof. intros H. unfold remark. by rewrite has_char_app, H. Qed.
Lemma tame_filter_Ok r f : filter r = Ok f → tame_filter f = true ∧ tame_text (AbsolutePath.value (ResourceRef.path r)) = true.
Proof.
  unfold filter. destruct (quote _ _) eqn:E; cbn; [|done]. apply quote_tame in E. intros [= <-].
  split; [|done]. by destruct (ResourceRef.is_subtree r).
Qed.

(** The patterns of the refusals are tame and re-open only directories that are read. *)
Definition tame_denies (p : SandboxPolicy) : Prop := ∀ d, d ∈ denies p →
  tame_text (PathPattern.raw (DenyRule.pattern d)) = true
  ∧ ∀ w, DenyRule.exceptWithin d = Some w → ∃ r, r ∈ reads p ∧ ResourceRef.path r = w.

Lemma tame_lines_of {A} (f : A → result Line) l ls :
  (∀ x y, x ∈ l → f x = Ok y → tame_line y) → rmapM f l = Ok ls → Forall tame_line ls.
Proof.
  intros Hf H%rmapM_Ok. apply Forall_forall. intros y Hy. apply list_elem_of_lookup_1 in Hy as [i Hi].
  destruct (Forall2_lookup_r _ _ _ _ _ H Hi) as (x & Hx & E). eapply Hf; [by eapply list_elem_of_lookup_2|done].
Qed.
Lemma tame_allowLine a r l : allowLine a r = Ok l → tame_line l.
Proof.
  unfold allowLine. destruct (filter r) as [f|] eqn:E; cbn; [|done]. intros <-%Ok_inj.
  apply tame_filter_Ok in E as [E _]. by apply tame_clause.
Qed.
Lemma tame_overrideLine o l : overrideLine o = Ok l → tame_line l.
Proof.
  unfold overrideLine. destruct (filter (ref o)) as [f|] eqn:E; cbn; [|done]. intros <-%Ok_inj.
  apply tame_filter_Ok in E as [E _]. apply tame_clause; [done|]. apply tame_remark, comment_line.
Qed.
Lemma tame_denyLines ctx d ls : tame_text (AbsolutePath.value (home ctx)) = true →
  tame_text (PathPattern.raw (DenyRule.pattern d)) = true →
  (∀ w, DenyRule.exceptWithin d = Some w → tame_text (AbsolutePath.value w) = true) →
  denyLines ctx d = Ok ls → Forall tame_line ls.
Proof.
  intros Hh Hr Hw. unfold denyLines. destruct (PathPattern.literalPrefix _ _) as [anchor|]; [|done]. cbn [rbind].
  match goal with |- rbind ?x _ = _ → _ => destruct x as [f|] eqn:E; [|done] end. cbn [rbind]. intros <-%Ok_inj.
  assert (tame_filter f = true) as Hf.
  { destruct anchor as [a|]; [destruct (includes _ "**/")|].
    2: { destruct (quote a _) eqn:Eq; cbn in E; [|done]. apply quote_tame in Eq. by injection E as <-. }
    all: injection E as <-; by apply tame_regex. }
  constructor.
  { apply tame_clause; [done|]. apply tame_remark, comment_line. }
  destruct (DenyRule.exceptWithin d) as [w|]; [|constructor]. constructor; [|constructor].
  apply tame_clause; [by apply tame_regex; auto|]. apply tame_remark. by rewrite has_char_app, comment_line.
Qed.
Lemma tame_networkLines e :
  match e with brokered (tcp_loopback port) => (0 ≤ port)%Z | _ => True end → Forall tame_line (networkLines e).
Proof.
  destruct e as [| |[port|s r port]]; intros Hp; repeat constructor.
  cbn [line_text]. unfold double_quoted. rewrite !has_char_app.
  destruct (string_of_Z_spec port Hp) as [Hd _].
  assert (has_char newline (string_of_Z port) = false) as ->; [|done].
  apply tame_no_newline. eapply sforall_impl; [|exact Hd]. intros c.
  destruct c as [[] [] [] [] [] [] [] []]; vm_compute; done.
Qed.
Lemma tame_preamble : Forall tame_line preamble.
Proof. repeat constructor. Qed.

(** The text of a policy whose refusals are tame: cut at its line breaks it is the list of
    the lines meant, and no path or expression in a clause ends the string it stands in. *)
Lemma tame_compile p ctx text : compile p ctx = Ok text → tame_denies p →
  match networkEnforcement p with brokered (tcp_loopback port) => (0 ≤ port)%Z | _ => True end →
  ∃ ls, lines p ctx = Ok ls ∧ split newline text = map line_text ls ++ [""]
  ∧ ∀ c, inr c ∈ ls → tame_filter (filter_of c) = true.
Proof.
  unfold compile. intros H Htame Hport. destruct (lines p ctx) as [ls|] eqn:E; [|done]. cbn [rbind] in H.
  apply Ok_inj in H as <-. exists ls. split; [done|].
  assert (Forall tame_line ls) as Hls.
  { revert E. unfold lines. destruct (AbsolutePath.parent (home ctx)) as [above|]; [|done]. cbn [rbind].
    destruct (quote above "home root") eqn:Ea; [|done]. cbn [rbind]. destruct (quote (home ctx) "home") eqn:Eh; [|done]. cbn [rbind].
    apply quote_tame in Ea, Eh.
    destruct (rmapM (allowLine read) (reads p)) as [lr|] eqn:Er; [|done]. cbn [rbind].
    destruct (rmapM (allowLine write) (writes p)) as [lw|] eqn:Ew; [|done]. cbn [rbind].
    destruct (rmapM (denyLines ctx) (denies p)) as [lss|] eqn:Ed; [|done]. cbn [rbind].
    destruct (rmapM overrideLine (overrides p)) as [lo|] eqn:Eo; [|done]. cbn [rbind]. intros <-%Ok_inj.
    repeat apply Forall_app_2.
    - apply tame_preamble.
    - repeat constructor; by apply tame_clause.
    - eapply tame_lines_of, Er. intros x y _. apply tame_allowLine.
    - eapply tame_lines_of, Ew. intros x y _. apply tame_allowLine.
    - case_if; [|constructor]. do 2 (constructor; [done|]). apply Forall_forall. intros l (k & Hk & Hin)%elem_of_concat.
      apply rmapM_Ok in Ed. apply list_elem_of_lookup_1 in Hin as [i Hi].
      destruct (Forall2_lookup_r _ _ _ _ _ Ed Hi) as (d & Hd & Hdl). apply list_elem_of_lookup_2 in Hd.
      destruct (Htame d Hd) as [Hraw Hw]. apply tame_denyLines in Hdl; [by rewrite Forall_forall in Hdl; apply Hdl|done..|].
      intros w Hwd. destruct (Hw w Hwd) as (r & Hr & <-). apply rmapM_Ok in Er. apply list_elem_of_lookup_1 in Hr as [j Hj].
      destruct (Forall2_lookup_l _ _ _ _ _ Er Hj) as (y & _ & Hy). unfold allowLine in Hy.
      destruct (filter r) eqn:Ef; [|done]. by apply tame_filter_Ok in Ef as [_ Ef].
    - case_if; [|constructor]. do 2 (constructor; [done|]). eapply tame_lines_of, Eo. intros x y _. apply tame_overrideLine.
    - constructor; [done|]. by apply tame_networkLines. }
  split.
  - unfold nl. rewrite <-(split_join newline (map line_text ls ++ [""])).
    + f_equal. rewrite join_app; [done| |done]. destruct ls; [|done]. exfalso. revert E. clear.
      unfold lines. destruct (AbsolutePath.parent (home ctx)); [|done]. cbn [rbind]. repeat (destruct (quote _ _); [|done]; cbn [rbind]).
      repeat (destruct (rmapM _ _); [|done]; cbn [rbind]). done.
    + by destruct (map line_text ls).
    + apply Forall_app_2; [|by repeat constructor]. apply Forall_map. eapply Forall_impl; [exact Hls|]. by intros l [Hl _].
  - intros c Hc. rewrite Forall_forall in Hls. by apply (Hls _ Hc).
Qed.

(** The refusals of every policy built over the shipped registry are tame: its patterns
    are, and what is re-opened is the workspace, which the policy reads. *)
Lemma shipped_rows_tame : every (λ pf, every (λ a, every (λ e, tame_text (PathPattern.raw (SensitivePath.pattern e)))
  (SensitivePathRegistry.dangerousFor default_registry pf a)) [read; write]) Platform.PLATFORMS = true.
Proof. vm_compute. reflexivity. Qed.
Lemma every_platform (pf : Platform) : pf ∈ Platform.PLATFORMS.
Proof. destruct pf; set_solver. Qed.
Lemma built_tame_denies `{Digest} input cache cache' r :
  AccessTierResolver.cache_ok default_registry cache → AccessTierResolver.real_home (PolicyBuilder.context input) →
  PolicyBuilder.build default_registry input cache = (cache', Ok r) → tame_denies (PolicyBuilder.policy r).
Proof.
  intros Hc Hh Hb d Hd.
  destruct (PolicyProperties.build_yields default_registry input Hh cache Hc) as [_ HQ].
  destruct (PolicyProperties.build_accounts default_registry input Hh cache Hc) as [_ HA]. rewrite Hb in HQ, HA.
  destruct (HQ r eq_refl) as (Hden & _). destruct (HA r eq_refl) as [Hws _]. specialize (Hws read).
  rewrite Hden in Hd. apply PolicyProperties.elem_of_denyRules in Hd as (a & e & He & ->). cbn [DenyRule.pattern DenyRule.exceptWithin].
  split.
  - pose proof shipped_rows_tame as Ht. rewrite every_true in Ht. specialize (Ht _ (every_platform (platform (PolicyBuilder.context input)))).
    cbn beta in Ht. rewrite every_true in Ht.
    assert (a ∈ [read; write]) as Ha by (destruct a; [by left|right; by left]).
    specialize (Ht a Ha). cbn beta in Ht. rewrite every_true in Ht. exact (Ht e He).
  - intros w. destruct (SensitivePath.outsideWorkspaceOnly e); [|done]. intros [= <-]. eexists. split; [exact Hws|done].
Qed.

(** C31. Nothing in a policy writes a line of its own. For every policy the builder makes
    over the shipped registry, whatever its grants, profile and directories, and for every
    way its network is enforced afterwards (at a port that is not negative): when the
    compiler returns a text, that text cut at its line breaks is the list of the lines
    meant, and no path or expression in a clause holds a quote or a line break that would
    end the string it stands in. *)
Theorem profile_lines `{Digest} input cache cache' r e text :
  AccessTierResolver.cache_ok default_registry cache → AccessTierResolver.real_home (PolicyBuilder.context input) →
  PolicyBuilder.build default_registry input cache = (cache', Ok r) →
  match e with brokered (tcp_loopback port) => (0 ≤ port)%Z | _ => True end →
  compile (withNetworkEnforcement (PolicyBuilder.policy r) e) (PolicyBuilder.context input) = Ok text →
  ∃ ls, lines (withNetworkEnforcement (PolicyBuilder.policy r) e) (PolicyBuilder.context input) = Ok ls
  ∧ split newline text = map line_text ls ++ [""]
  ∧ ∀ c, inr c ∈ ls → tame_filter (filter_of c) = true.
Proof.
  intros Hc Hh Hb Hport H2. apply tame_compile; [done| |done]. exact (built_tame_denies _ _ _ _ Hc Hh Hb).
Qed.
End SeatbeltProfileCompiler.

(** ** An engine

    A reader of the expressions a profile holds, for the runs below and to show that what
    is relied on can hold: escaped and plain characters, [.], [[^/]], groups, [*], [?] and
    the two ends. An expression with anything else is refused and matches nothing. *)

Module Engine.
Import Regex.

Definition not_slash (c : ascii) : bool := negb (Ascii.eqb c slash).
(** [frame] holds the parts of the group that is open, last first; [outer] those around it. *)
Fixpoint parse (s : string) (frame : list regex) (outer : list (list regex)) : option (list regex) :=
  match s with
  | "" => match outer with [] => Some frame | _ => None end
  | String c r =>
      if Ascii.eqb c backslash then match r with String d r' => parse r' (char d :: frame) outer | "" => None end
      else if Ascii.eqb c "("%char then parse r [] (frame :: outer)
      else if Ascii.eqb c ")"%char
      then match outer with f :: fs => parse r (seqs (rev frame) :: f) fs | [] => None end
      else if Ascii.eqb c "*"%char then match frame with x :: f => parse r (Star x :: f) outer | [] => None end
      else if Ascii.eqb c "?"%char then match frame with x :: f => parse r (opt x :: f) outer | [] => None end
      else if Ascii.eqb c "."%char then parse r (Chars (λ _, true) :: frame) outer
      else if Ascii.eqb c "["%char
      then match r with
           | String "^" (String "/" (String "]" r')) => parse r' (Chars not_slash :: frame) outer
           | _ => None
           end
      else if Ascii.eqb c "^"%char then parse r (Bol :: frame) outer
      else if Ascii.eqb c "$"%char then parse r (Eol :: frame) outer
      else if SeatbeltProfileCompiler.is_meta c then None
      else parse r (char c :: frame) outer
  end.
Definition matches (expression text : string) : bool :=
  match parse expression [] [] with Some parts => test (seqs (rev parts)) text | None => false end.

(** The parts read below an open group, or below a part that is there, stay. *)
Inductive stands_on (base : list regex) : list regex → list (list regex) → Prop :=
| on_part x top : stands_on base (x :: top ++ base) []
| on_group frame fs top : stands_on base frame (fs ++ [top ++ base]).

Lemma stands_more base x frame outer : stands_on base frame outer → stands_on base (x :: frame) outer.
Proof. intros []; [apply (on_part base _ (_ :: _))|apply on_group]. Qed.
Lemma stands_swap base x y frame outer : stands_on base (x :: frame) outer → stands_on base (y :: frame) outer.
Proof.
  inversion 1 as [z top E1 E2|frame' fs top E1 E2]; subst; [apply on_part|apply on_group].
Qed.
Lemma stands_open base frame outer : stands_on base frame outer → stands_on base [] (frame :: outer).
Proof. intros []; [apply (on_group base [] [] (_ :: _))|apply (on_group base [] (_ :: _))]. Qed.
Lemma stands_close base frame f fs x : stands_on base frame (f :: fs) → stands_on base (x :: f) fs.
Proof.
  inversion 1 as [|frame' [|g gs] top E1 E2]; simplify_eq/=; [apply on_part|apply on_group].
Qed.
Lemma parse_keeps base n : ∀ s frame outer parts, slen s ≤ n → stands_on base frame outer →
  parse s frame outer = Some parts → ∃ top, parts = top ++ base.
Proof.
  induction n as [|n IH]; intros s frame outer parts Hn Hb.
  all: destruct s as [|c r]; [|cbn in Hn]; try lia.
  1,2: cbn; destruct Hb as [x top|frame [|f fs] top]; [|done..]; intros [= <-]; by exists (x :: top).
  cbn [parse].
  repeat (case_if; [|]).
  - destruct r as [|d r]; [done|]. cbn in Hn. apply IH; [lia|]. by apply stands_more.
  - apply IH; [lia|]. by apply stands_open.
  - destruct outer as [|f fs]; [done|]. apply IH; [lia|]. by eapply stands_close.
  - destruct frame as [|x f]; [done|]. apply IH; [lia|]. by eapply stands_swap.
  - destruct frame as [|x f]; [done|]. apply IH; [lia|]. by eapply stands_swap.
  - apply IH; [lia|]. by apply stands_more.
  - do 3 (destruct r as [|[[] [] [] [] [] [] [] []] r]; [done|..]; try done). cbn in Hn. apply IH; [lia|]. by apply stands_more.
  - apply IH; [lia|]. by apply stands_more.
  - apply IH; [lia|]. by apply stands_more.
  - done.
  - apply IH; [lia|]. by apply stands_more.
Qed.
(** Escaped characters are read as themselves. *)
Lemma parse_escape w : ∀ rest frame outer,
  parse (SeatbeltProfileCompiler.escape w +:+ rest) frame outer = parse rest (rev (map char (String.list_ascii_of_string w)) ++ frame) outer.
Proof.
  induction w as [|c w IH]; intros rest frame outer; [done|].
  cbn [SeatbeltProfileCompiler.escape map String.list_ascii_of_string rev]. rewrite <-(app_assoc (rev _)). cbn [app].
  destruct (SeatbeltProfileCompiler.is_meta c) eqn:E.
  - cbn [String.append parse]. rewrite Ascii.eqb_refl. apply IH.
  - assert (parse (String c (SeatbeltProfileCompiler.escape w +:+ rest)) frame outer
            = parse (SeatbeltProfileCompiler.escape w +:+ rest) (char c :: frame) outer) as Hc; [|cbn [String.append]; rewrite Hc; apply IH].
    revert E. generalize (SeatbeltProfileCompiler.escape w +:+ rest). clear. intros s E.
    destruct c as [[] [] [] [] [] [] [] []]; try (vm_compute in E; done); done.
Qed.
Lemma chars_app s t : String.list_ascii_of_string (s +:+ t) = String.list_ascii_of_string s ++ String.list_ascii_of_string t.
Proof. induction s as [|c s IH]; [done|]. cbn. by rewrite IH. Qed.
(** A sequence that starts with characters matches only texts that go on with them. *)
Lemma rmatch_chars t w l : ∀ i j, rmatch t (seqs (map char w ++ l)) i j →
  ∃ k, rmatch t (seqs l) k j ∧ ∀ n c, w !! n = Some c → String.get (i + n) t = Some c.
Proof.
  induction w as [|c w IH]; intros i j H; [by exists i|].
  assert (∃ m, rmatch t (char c) i m ∧ rmatch t (seqs (map char w ++ l)) m j) as (m & Hc & Hr).
  { cbn [map app] in H. destruct (map char w ++ l) as [|r rs]; [exists j; split; [done|constructor]|].
    cbn [seqs] in H. inversion H; subst. by eexists. }
  inversion Hc; subst. destruct (IH _ _ Hr) as (k & Hk & Hw). exists k. split; [done|].
  intros [|n] d; cbn [lookup list_lookup].
  - intros [= <-]. rewrite Nat.add_0_r. apply Ascii.eqb_eq in H2 as ->. done.
  - intros Hn%Hw. by rewrite Nat.add_succ_r.
Qed.
Lemma startsWith_get t w : (∀ n c, String.list_ascii_of_string w !! n = Some c → String.get n t = Some c) → startsWith t w = true.
Proof.
  revert t. induction w as [|c w IH]; intros t H; [by destruct t|].
  pose proof (H 0 c eq_refl) as H0. destruct t as [|d t]; [done|]. cbn in H0. injection H0 as ->.
  apply startsWith_true. destruct (proj1 (startsWith_true t w)) as [r ->]; [|by exists r].
  apply IH. intros n x Hx. by apply (H (S n)).
Qed.

#[global] Instance engine_expressions : SeatbeltProfileCompiler.WorkspaceExpressions matches.
Proof.
  intros raw home w t Hraw H. destruct (SeatbeltProfileCompiler.patternToRegex_within raw home w Hraw) as [body E].
  unfold matches in H. rewrite E in H.
  assert (∀ x, parse ("^" +:+ x) [] [] = parse x [Bol] []) as E1 by done.
  assert (∀ x f, parse ("/(" +:+ x) f [] = parse x [] [char slash :: f]) as E2 by done.
  rewrite E1, parse_escape, E2 in H. clear E1 E2.
  destruct (parse _ _ _) as [parts|] eqn:Ep; [|done].
  destruct (parse_keeps (char slash :: rev (map char (String.list_ascii_of_string (AbsolutePath.value w))) ++ [Bol])
    (slen body) body [] _ parts ltac:(done) (on_group _ _ [] []) Ep) as [top ->].
  apply test_iff_match in H as (i & j & _ & H).
  rewrite rev_app_distr in H. cbn [rev] in H. rewrite rev_app_distr, rev_involutive in H. cbn [rev app] in H.
  rewrite <-!(app_assoc _ _ (rev top)) in H. cbn [app] in H.
  assert (∃ k, rmatch t (seqs (map char (String.list_ascii_of_string (AbsolutePath.value w)) ++ char slash :: rev top)) 0 k) as [k Hk].
  { destruct (map _ _ ++ _) as [|x l]; [by exists 0; constructor|]. cbn [seqs] in H. inversion H; subst.
    match goal with H : rmatch t Bol _ _ |- _ => inversion H; subst end. by eexists. }
  rewrite (app_assoc _ (map char [slash]) (rev top) : _ ++ char slash :: rev top = _), <-map_app in Hk.
  apply rmatch_chars in Hk as (m & _ & Hw). apply startsWith_get. rewrite chars_app. intros n c. apply Hw.
Qed.
End Engine.

(** ** From the grants to the profile *)

Section profile.
Import PolicyBuilder AccessTierResolver PolicyProperties SeatbeltProfileCompiler.
Context `{Digest} (registry : SensitivePathRegistry) (re : string → string → bool) `{!WorkspaceExpressions re}.

(** C24. The profile carries the tiers of the rows that have an anchor. Take a row of the
    registry whose pattern holds no recursive segment before its end, and so is refused by
    its anchor and not by an expression. In the profile of a built policy the last clause
    that matches a path outside the workspace, at or below that anchor, refuses the access,
    unless a grant typed by hand, that applies to the workspace and could not be made at
    run time, is for that access and over the path. The rows that are refused only outside
    the workspace must start with a recursive segment, as the shipped ones do; paths are
    ordinary POSIX ones; and of the engine that reads the expressions it is relied on that
    one generated for such a row and a directory matches only below the directory. *)
Theorem profile_hides input cache cache' r ls e a anchor q :
  cache_ok registry cache → real_home (context input) →
  PolicyBuilder.build registry input cache = (cache', Ok r) →
  lines (policy r) (context input) = Ok ls →
  (∀ e' a', e' ∈ SensitivePathRegistry.dangerousFor registry (platform (context input)) a' →
     SensitivePath.outsideWorkspaceOnly e' = true → startsWith (PathPattern.raw (SensitivePath.pattern e')) "**/" = true) →
  e ∈ SensitivePathRegistry.dangerousFor registry (platform (context input)) a →
  includes (PathPattern.raw (SensitivePath.pattern e)) "**/" = false →
  SensitivePath.literalPrefix e (home (context input)) = Ok (Some anchor) →
  AbsolutePath.posix_wf (SensitivePaths.workspace (context input)) → AbsolutePath.posix_wf q →
  AbsolutePath.contains anchor q = true →
  AbsolutePath.contains (SensitivePaths.workspace (context input)) q = false →
  decide_access re ls a q = true →
  ∃ g, g ∈ grants input ∧ Grant.appliesTo g (workspaceId input) = true ∧ Grant.origin g = Grant.manual
     ∧ ¬ grantable registry (Grant.resource g) (Grant.access g) (context input)
     ∧ Grant.access g = a ∧ under (ref_text (Grant.resource g)) (AbsolutePath.value q) = true.
Proof.
  intros Hc Hh Hp Hl Hrows He Hraw Hpre Hws Hq Haq Hout Hdec.
  destruct (build_yields registry input Hh cache Hc) as [_ HQ]. rewrite Hp in HQ.
  destruct (HQ r eq_refl) as (Hd & _ & Ho & _).
  assert (∃ d, d ∈ denies (policy r) ∧ DenyRule.pattern d = SensitivePath.pattern e ∧ DenyRule.access d = a)
    as (d & Hin & Hpat & Hacc).
  { rewrite Hd. eexists. split; [apply elem_of_denyRules; exists a, e; split; [done|reflexivity]|]. done. }
  destruct (refusal_decides re (policy r) (context input) ls d anchor a q) as (o & Hoo & Hoa & Hu); try done.
  - by rewrite Hpat.
  - by rewrite Hpat.
  - by apply contains_under.
  - intros d' w Hd' Hw. rewrite Hd in Hd'. apply elem_of_denyRules in Hd' as (a' & e' & He' & ->). cbn in Hw |- *.
    destruct (SensitivePath.outsideWorkspaceOnly e') eqn:Eo; [|done]. injection Hw as <-.
    split; [by eapply Hrows|]. destruct (startsWith _ _) eqn:Es; [|done]. exfalso.
    rewrite <-(under_contains _ _ Hws Hq) in Hout. unfold under in Hout. by rewrite Es, !orb_true_r in Hout.
  - apply Ho in Hoo as (g & Hg & Happ & Hman & Hng & ->). exists g. split_and!; [done..|].
    cbn in Hu. destruct (ResourceRef.is_subtree (Grant.resource g)); [done|]. unfold under. rewrite Hu, String.eqb_refl. by rewrite orb_true_r.
Qed.
End profile.

(** ** A run *)

Section example.
Import SeatbeltProfileCompiler PolicyProperties PolicyBuilder.

Definition mac_home : AbsolutePath := AbsolutePath.posix_path ["Users"; "u"].
Definition mac_context : PathContext := mkContext mac_home (AbsolutePath.posix_path ["Users"; "u"; "w"]) Platform.Darwin.
Definition mac_key : AbsolutePath := AbsolutePath.posix_path ["Users"; "u"; ".ssh"; "id_rsa"].
Definition mac_input (gs : list Grant) : PolicyInput :=
  mkInput demo_profile gs mac_context (WorkspaceId.fromPath (SensitivePaths.workspace mac_context)) []
    (AbsolutePath.posix_path ["Users"; "u"; ".agentkeeper"]) [AbsolutePath.posix_path ["Users"; "u"; ".claude"]] [].
Definition mac_grant : Grant :=
  Grant.construct (Grant.mkProps (ResourceRef.file mac_key) read GrantScope.global_ (Some 0%Z) "deploy" Grant.manual).
Definition decisions (input : PolicyInput) (questions : list (Access * AbsolutePath)) (x : result PolicyBuildResult) :
    option (list (bool * bool)) :=
  match x with
  | Err _ => None
  | Ok r =>
      match lines (policy r) (context input) with
      | Err _ => None
      | Ok ls => Some (map (λ q, (allows (policy r) q.1 q.2 (context input), decide_access Engine.matches ls q.1 q.2)) questions)
      end
  end.
Definition built (gs : list Grant) : gmap string (list AbsolutePath) * result PolicyBuildResult :=
  PolicyBuilder.build default_registry (mac_input gs) ∅.

(** The policy and the profile agree on the key, the workspace and the system; but the
    agent's own directory, which the policy opens for writing, is refused by the profile:
    the anchor of the protected ~/.claude/settings*.json is ~/.claude itself. *)
Lemma agent_state_refused :
  decisions (mac_input []) [(read, mac_key); (write, AbsolutePath.posix_path ["Users"; "u"; "w"; "a.ts"]);
     (read, AbsolutePath.posix_path ["Users"; "u"; "secret"]);
     (write, AbsolutePath.posix_path ["Users"; "u"; ".claude"; "projects"; "session.jsonl"])] (built []).2
  = Some [(false, false); (true, true); (false, false); (true, false)]
  ∧ decisions (mac_input [mac_grant]) [(read, mac_key)] (built [mac_grant]).2 = Some [(true, true)].
Proof. vm_compute. done. Qed.

(** The rows without an anchor are judged by expressions: an environment file is refused
    outside the workspace, where the profile leaves the system readable, and re-opened in it. *)
Lemma environment_files_judged :
  decisions (mac_input []) [(read, AbsolutePath.posix_path ["srv"; "other"; ".env"]);
     (read, AbsolutePath.posix_path ["srv"; "other"; "a.env"]);
     (read, AbsolutePath.posix_path ["Users"; "u"; "w"; "sub"; ".env"]);
     (read, AbsolutePath.posix_path ["Users"; "u"; "w"; ".env.local"])] (built []).2
  = Some [(false, false); (false, true); (true, true); (true, true)].
Proof. vm_compute. done. Qed.

Lemma decisions_inv input qs x ds : decisions input qs x = Some ds →
  ∃ r ls, x = Ok r ∧ lines (policy r) (context input) = Ok ls
    ∧ ds = map (λ q, (allows (policy r) q.1 q.2 (context input), decide_access Engine.matches ls q.1 q.2)) qs.
Proof.
  unfold decisions. destruct x as [r|]; [|done]. destruct (lines (policy r) (context input)) as [ls|] eqn:E; [|done].
  intros [= <-]. by exists r, ls.
Qed.

Lemma profile_hides_witness : ∃ g, g ∈ grants (mac_input [mac_grant]) ∧ Grant.origin g = Grant.manual.
Proof.
  destruct (decisions_inv _ _ _ _ (proj2 agent_state_refused)) as (r & ls & Hb & Hl & Hd).
  destruct (SensitivePathRegistry.dangerousFor default_registry Platform.Darwin read) as [|e rows] eqn:E;
    [exfalso; revert E; apply (nonempty_not_nil _ 1); [vm_compute; reflexivity|lia]|].
  assert (head (SensitivePathRegistry.dangerousFor default_registry Platform.Darwin read) = Some e) as Hh by by rewrite E.
  destruct (profile_hides default_registry Engine.matches (mac_input [mac_grant]) ∅ (built [mac_grant]).1 r ls
              e read (AbsolutePath.posix_path ["Users"; "u"; ".ssh"]) mac_key) as (g & Hg & _ & Hman & _).
  - apply AccessTierResolver.cache_ok_empty.
  - reflexivity.
  - apply snd_pair. exact Hb.
  - exact Hl.
  - intros e' a He Hout.
    assert (every (λ a, every (λ e, negb (SensitivePath.outsideWorkspaceOnly e)
               || startsWith (PathPattern.raw (SensitivePath.pattern e)) "**/")
               (SensitivePathRegistry.dangerousFor default_registry Platform.Darwin a)) [read; write] = true) as Hall
      by (vm_compute; reflexivity).
    rewrite every_true in Hall. assert (a ∈ [read; write]) as Ha by (destruct a; [by left|right; by left]).
    specialize (Hall a Ha). rewrite every_true in Hall. specialize (Hall e' He). cbn beta in Hall. by rewrite Hout in Hall.
  - change (platform (context (mac_input [mac_grant]))) with Platform.Darwin. rewrite E. by left.
  - assert ((λ e, includes (PathPattern.raw (SensitivePath.pattern e)) "**/")
              <$> head (SensitivePathRegistry.dangerousFor default_registry Platform.Darwin read) = Some false)
      as Ho by (vm_compute; reflexivity). rewrite Hh in Ho. by injection Ho.
  - revert Hh. apply head_prefix. vm_compute. reflexivity.
  - by exists ["Users"; "u"; "w"]; split_and!; [|apply (bool_decide_unpack _); reflexivity|repeat constructor].
  - by exists ["Users"; "u"; ".ssh"; "id_rsa"]; split_and!; [|apply (bool_decide_unpack _); reflexivity|repeat constructor].
  - reflexivity.
  - reflexivity.
  - cbn [map] in Hd. by injection Hd.
  - exists g. split; [exact Hg|exact Hman].
Defined.

Definition mac_enforcement : NetworkEnforcement := brokered (tcp_loopback 4100).
(** The number of lines of the text that is compiled from a policy. *)
Definition text_lines (x : result PolicyBuildResult) : option nat :=
  match x with
  | Err _ => None
  | Ok r => match compile (withNetworkEnforcement (policy r) mac_enforcement) mac_context with
            | Err _ => None
            | Ok text => Some (length (split newline text))
            end
  end.
Lemma mac_lines : text_lines (built [mac_grant]).2 = Some 127.
Proof. vm_compute. reflexivity. Qed.
Lemma text_lines_inv x n : text_lines x = Some n → ∃ r text, x = Ok r
  ∧ compile (withNetworkEnforcement (policy r) mac_enforcement) mac_context = Ok text ∧ length (split newline text) = n.
Proof.
  unfold text_lines. destruct x as [r|]; [|done]. destruct (compile _ _) as [t|] eqn:E; [|done].
  intros [= <-]. by exists r, t.
Qed.

Lemma profile_lines_witness : ∃ text ls, length (split newline text) = 127 ∧ split newline text = map line_text ls ++ [""].
Proof.
  destruct (text_lines_inv _ _ mac_lines) as (r & text & Hb & Hc & Hn).
  destruct (profile_lines (mac_input [mac_grant]) ∅ (built [mac_grant]).1 r mac_enforcement text) as (ls & _ & Hs & _).
  - apply AccessTierResolver.cache_ok_empty.
  - reflexivity.
  - apply snd_pair. exact Hb.
  - simpl. lia.
  - exact Hc.
  - exists text, ls. split; [exact Hn|exact Hs].
Defined.
End example.
