(* ===== verification/Backends.v ===== *)
(** * The back ends and their choice (src/infrastructure/sandbox)

    [SandboxRunnerFactory], [SeatbeltRunner] and [BubblewrapRunner]: what each back end
    declares it cannot enforce, the refusal to launch a policy with gaps, the order of the
    steps of a launch, and the processes a signal is delivered to. Spawning a process, the
    files around it and the list of processes are the host's. *)

From S2P Require Import Prelude JsString JsNumber NodePath Paths Patterns Values Resources Network.
From S2P Require Import SensitivePaths Registry Sha256 Tiers Entities Policy Ports Protection RunSandboxed.
From S2P Require Import Bubblewrap Seatbelt.
Import SandboxPolicy Launching.

(** What the back ends ask of the host. *)
Record Host (W : Type) := mkHost {
  can_execute : string → M W bool;
  spawn : string → list string → AbsolutePath → gmap string string → M W SandboxRunResult;
  make_directory : M W string;
  write_profile : string → string → M W unit;
  remove_directory : string → M W unit
}.
Arguments can_execute {W} _ _. Arguments spawn {W} _ _ _ _ _. Arguments make_directory {W} _.
Arguments write_profile {W} _ _ _. Arguments remove_directory {W} _ _.

(** ** BubblewrapRunner.ts *)

Module BubblewrapRunner.

Definition CANDIDATES : list string := ["/usr/bin/bwrap"; "/bin/bwrap"; "/usr/local/bin/bwrap"].

Definition relayed (p : SandboxPolicy) : bool :=
  match networkEnforcement p with brokered (unix_socket_relay _ _ _) => true | _ => false end.

(** A wildcard refusal with no anchor is a gap, unless it is lifted in some directory and
    every run-time reference is a file or inside the workspace. *)
Definition excused (p : SandboxPolicy) (ctx : PathContext) (d : DenyRule) : bool :=
  bool_decide (is_Some (DenyRule.exceptWithin d))
  && every (λ r, ResourceRef.is_file r || AbsolutePath.contains (SensitivePaths.workspace ctx) (ResourceRef.path r)) (runtimeRefs p).
Definition deny_gap (p : SandboxPolicy) (ctx : PathContext) (d : DenyRule) : result (list string) :=
  let! anchor := PathPattern.literalPrefix (DenyRule.pattern d) (home ctx) in
  Ok (match anchor with
      | Some _ => []
      | None =>
          if excused p ctx d then []
          else [DenyRule.sourceId d +:+ ": " +:+ str1 dquote +:+ PathPattern.raw (DenyRule.pattern d) +:+ str1 dquote
                +:+ " has no fixed anchor, and a mount namespace cannot express a wildcard refusal. Layer 2 still blocks it."]
      end).
Definition network_gap (p : SandboxPolicy) : list string :=
  if (0 <? length (network p)) && negb (relayed p)
  then ["bubblewrap has no verified Unix-relay network broker for " +:+ join ", " (map NetworkRule.toString (network p))
        +:+ "; the network namespace remains isolated and outbound traffic stays blocked."]
  else [].
Definition unenforceable (p : SandboxPolicy) (ctx : PathContext) : result (list string) :=
  let! gaps := rmapM (deny_gap p ctx) (denies p) in
  Ok (concat gaps ++ network_gap p).

Definition withNetworkRelay (execPath : string) (p : SandboxPolicy) (command : SandboxCommand) : SandboxCommand :=
  match networkEnforcement p with
  | brokered (unix_socket_relay socketPath relayScript port) =>
      mkCommand execPath
        ([AbsolutePath.value relayScript; AbsolutePath.value socketPath; string_of_Z port; executable command] ++ args command)
        (command_cwd command) (env command)
  | _ => command
  end.
Definition buildArgs (execPath : string) (p : SandboxPolicy) (ctx : PathContext) (command : SandboxCommand) : result (list string) :=
  BubblewrapArgumentBuilder.build p ctx (withNetworkRelay execPath p command).

Section run.
Context {W : Type} (host : Host W) (execPath : string).

(** The program that was found is kept by the runner. *)
Fixpoint first_executable (candidates : list string) : M W (option string) :=
  match candidates with
  | [] => mok None
  | c :: rest => let* ok := can_execute host c in if ok then mok (Some c) else first_executable rest
  end.
Definition locate : M (option string * W) (option string) := λ s,
  match s.1 with
  | Some found => (s, Ok (Some found))
  | None =>
      match first_executable CANDIDATES s.2 with
      | (w, Ok found) => ((found, w), Ok found)
      | (w, Err e) => ((None, w), Err e)
      end
  end.

Definition run (p : SandboxPolicy) (ctx : PathContext) (command : SandboxCommand) :
    M (option string * W) SandboxRunResult :=
  let* gaps := mlift (unenforceable p ctx) in
  if 0 <? length gaps then mlift (throw ("Refusing an unenforceable bubblewrap policy: " +:+ join " " gaps))
  else
    let* executable := locate in
    match executable with
    | None => mlift (throw "bubblewrap (bwrap) is not installed; refusing to run unconfined")
    | Some bwrap =>
        let* args := mlift (buildArgs execPath p ctx command) in
        λ s, let '(w, r) := spawn host bwrap args (command_cwd command) (env command) s.2 in ((s.1, w), r)
    end.
End run.

(** ** The processes below a process *)

(** [Number.parseInt(text, 10)]. Process numbers are far below 2^53, where numbers stop
    being exact. *)
Definition parseInt (text : string) : option Z :=
  let t := skip_while is_space text in
  let signed (f : Z → Z) (u : string) :=
    let d := take_while is_digit u in if (d =? "")%string then None else Some (f (digits_value 0 d)) in
  match t with
  | String c r => if Ascii.eqb c "-" then signed Z.opp r else if Ascii.eqb c "+" then signed id r else signed id t
  | "" => None
  end.

(** The line of [/proc/<pid>/stat]: what follows the last bracket holds the parent second. *)
Definition parent_of (stat : string) : option Z :=
  let from := match lastIndexOf stat ")" with Some i => i + 2 | None => 1 end in
  match split " " (sdrop from stat) with
  | _ :: field :: _ => parseInt field
  | _ => parseInt ""
  end.
(** An entry of [/proc] with its stat file, [None] when that cannot be read. *)
Definition process_of (entry : string * option string) : option (Z * Z) :=
  match parseInt entry.1 with
  | Some candidate =>
      if negb (string_of_Z candidate =? entry.1)%string then None
      else (λ parent, (candidate, parent)) <$> (entry.2 ≫= parent_of)
  | None => None
  end.
Definition parents_of (entries : list (string * option string)) : list (Z * Z) := omap process_of entries.

(** The inner loop: the children of one process that were not found before. *)
Definition visit_child (current : Z) (qf : list Z * list Z) (cp : Z * Z) : list Z * list Z :=
  if negb (cp.2 =? current)%Z || bool_decide (cp.1 ∈ qf.2) then qf else (qf.1 ++ [cp.1], qf.2 ++ [cp.1]).
Fixpoint search (parents : list (Z * Z)) (fuel : nat) (queue found : list Z) : list Z :=
  match fuel, queue with
  | S f, current :: rest =>
      let '(queue', found') := foldl (visit_child current) (rest, found) parents in search parents f queue' found'
  | _, _ => found
  end.
(** Every step takes one process from the queue, and no process enters it twice. *)
Definition descendants (parents : list (Z * Z)) (pid : Z) : list Z := search parents (S (length parents)) [pid] [].
Definition descendantsOf (platform : Platform) (proc : option (list (string * option string))) (pid : option Z) : list Z :=
  match pid, proc with
  | Some p, Some entries => if bool_decide (platform = Platform.Linux) then descendants (parents_of entries) p else []
  | _, _ => []
  end.

Example descendants_sample :
  descendantsOf Platform.Linux
    (Some [("1", Some "1 (init) S 0 1"); ("self", None); ("12", Some "12 (a) b) S 7 12"); ("7", Some "7 (bwrap) S 1 7");
           ("9", Some "9 (sh) S 12 9"); ("20", None)]) (Some 7%Z) = [12; 9]%Z.
Proof. vm_compute. done. Qed.

(** ** The search is exact *)

Section search.
Context (parents : list (Z * Z)) (pid : Z).

Definition below (p c : Z) : Prop := (c, p) ∈ parents.

Lemma visit_children current ps : (∀ cp, cp ∈ ps → cp ∈ parents) → ∀ q f, NoDup f →
  ∃ new, foldl (visit_child current) (q, f) ps = (q ++ new, f ++ new) ∧ NoDup (f ++ new)
  ∧ (∀ c, c ∈ new → below current c) ∧ (∀ c, (c, current) ∈ ps → c ∈ f ++ new).
Proof.
  induction ps as [|[c p] ps IH]; intros Hsub q f Hf.
  { exists []. rewrite !app_nil_r. split_and!; [done|done|by intros c ?%elem_of_nil|by intros c ?%elem_of_nil]. }
  cbn [foldl]. unfold visit_child at 2. cbn [fst snd].
  assert (∀ x, x ∈ ps → x ∈ parents) as Hsub' by (intros x Hx; apply Hsub; by right).
  destruct (negb (p =? current)%Z || bool_decide (c ∈ f)) eqn:E.
  - destruct (IH Hsub' q f Hf) as (new & -> & Hn & H1 & H2). exists new. split_and!; [done|done|done|].
    intros x [Hx|Hx]%elem_of_cons; [|by apply H2]. injection Hx as -> ->.
    apply orb_true_iff in E as [E|E]; bool_prop; [lia|]. apply bool_decide_eq_true in E. apply elem_of_app. by left.
  - apply orb_false_iff in E as [E1 E2]. apply negb_false_iff, Z.eqb_eq in E1 as ->. apply bool_decide_eq_false in E2.
    destruct (IH Hsub' (q ++ [c]) (f ++ [c])) as (new & -> & Hn & H1 & H2).
    { apply NoDup_app. split_and!; [done| |apply NoDup_singleton]. by intros x Hx ->%list_elem_of_singleton. }
    exists (c :: new). rewrite <-!app_assoc in *. split_and!; [done|done| |].
    + intros x [->|Hx]%elem_of_cons; [apply Hsub; by left|by apply H1].
    + intros x [Hx|Hx]%elem_of_cons; [injection Hx as ->; set_solver|by apply H2].
Qed.

(** What the search has done when [queue] is left: nothing is found twice or without a
    reason, and only the processes of the queue still have children to look for. *)
Record searched (queue found : list Z) : Prop := {
  s_nodup : NoDup found;
  s_below : ∀ c, c ∈ found → tc below pid c;
  s_queue : ∀ c, c ∈ queue → c = pid ∨ c ∈ found;
  s_closed : ∀ p c, (p = pid ∨ p ∈ found) → p ∉ queue → below p c → c ∈ found;
}.

Lemma found_bound found : NoDup found → (∀ c, c ∈ found → tc below pid c) → length found ≤ length parents.
Proof.
  intros Hn Hf. rewrite <-(length_map fst parents). apply submseteq_length, NoDup_submseteq; [done|].
  intros c Hc. apply Hf in Hc. apply list_elem_of_fmap.
  assert (∃ p, below p c) as [p Hp] by (refine (tc_ind_r (λ c, ∃ p, below p c) pid _ _ c Hc); by eexists).
  by exists (c, p).
Qed.

Lemma search_step current rest found : searched (current :: rest) found →
  ∃ new, foldl (visit_child current) (rest, found) parents = (rest ++ new, found ++ new) ∧ searched (rest ++ new) (found ++ new).
Proof.
  intros [Hn Hb Hq Hc]. destruct (visit_children current parents (λ _ H, H) rest found Hn) as (new & E & Hnew & H1 & H2).
  exists new. split; [done|]. assert (current = pid ∨ tc below pid current) as Hcur.
  { destruct (Hq current) as [->|H]; [by left|by left|right; by apply Hb]. }
  split; [done| | |].
  - intros c [H|H]%elem_of_app; [by apply Hb|]. apply H1 in H.
    destruct Hcur as [->|Hcur]; [by apply tc_once|by eapply tc_r].
  - intros c [H|H]%elem_of_app; [|right; apply elem_of_app; by right].
    destruct (Hq c) as [->|Hf]; [by right|by left|right; apply elem_of_app; by left].
  - intros p c Hp Hnq Hpc. destruct (decide (p = current)) as [->|Hne]; [by apply H2|].
    apply elem_of_app. left. apply (Hc p c); [|set_solver|done]. set_solver.
Qed.

Lemma searched_all found : searched [] found → NoDup found ∧ ∀ c, c ∈ found ↔ tc below pid c.
Proof.
  intros Hs. split; [apply Hs|]. intros c. split; [apply Hs|]. intros H.
  refine (tc_ind_r (λ c, c ∈ found) pid _ _ c H); clear c H.
  - intros z Hz. apply (s_closed _ _ Hs pid z); [by left|by intros ?%elem_of_nil|done].
  - intros y z _ Hz IHy. apply (s_closed _ _ Hs y z); [by right|by intros ?%elem_of_nil|done].
Qed.
Lemma search_exact fuel queue found : searched queue found → length queue + length parents ≤ fuel + length found →
  NoDup (search parents fuel queue found) ∧ ∀ c, c ∈ search parents fuel queue found ↔ tc below pid c.
Proof.
  revert queue found. induction fuel as [|fuel IH]; intros queue found Hs Hlen;
    (destruct queue as [|current rest]; [by apply searched_all|]); cbn [length] in Hlen.
  - pose proof (found_bound found (s_nodup _ _ Hs) (s_below _ _ Hs)). lia.
  - cbn [search]. destruct (search_step current rest found Hs) as (new & -> & Hs'). apply IH; [done|].
    rewrite !length_app. lia.
Qed.
End search.

(** The processes a signal is sent to are exactly the ones below the given process, at any
    depth, each once: the search ends with the processes it was given as its bound, even
    when the parents change under it and form a circle. *)
Theorem descendants_exact parents pid :
  NoDup (descendants parents pid) ∧ ∀ c, c ∈ descendants parents pid ↔ tc (λ p c, (c, p) ∈ parents) pid c.
Proof.
  unfold descendants. apply search_exact.
  - split; [constructor|by intros c ?%elem_of_nil|intros c ->%list_elem_of_singleton; by left|].
    intros p c [->|Hp] Hnq; [set_solver|by apply elem_of_nil in Hp].
  - cbn [length]. lia.
Qed.

(** ** What a launch has passed *)

Section launch.
Context {W : Type} (host : Host W) (execPath : string).

(** A policy with a gap is refused before the host is asked for anything. *)
Lemma gaps_refused p ctx command s gaps : unenforceable p ctx = Ok gaps → gaps ≠ [] →
  ∃ e, run host execPath p ctx command s = (s, Err e).
Proof.
  intros E Hg. unfold run, mseq, mlift. rewrite E. destruct gaps as [|g gs]; [done|]. by eexists.
Qed.

Lemma concat_nil_inv {A} (ls : list (list A)) : concat ls = [] → ∀ l, l ∈ ls → l = [].
Proof.
  intros H l Hl. destruct l as [|x l]; [done|]. exfalso.
  assert (x ∈ concat ls) as Hx by (apply elem_of_concat; exists (x :: l); split; [by left|done]).
  rewrite H in Hx. by apply elem_of_nil in Hx.
Qed.

(** A launch that returns has found no gap: every refusal without an anchor is excused, a
    network is behind the relay, and what was spawned is the argument list of the policy. *)
Lemma launch_without_gaps p ctx command s s' r : run host execPath p ctx command s = (s', Ok r) →
  (∀ d, d ∈ denies p → PathPattern.literalPrefix (DenyRule.pattern d) (home ctx) = Ok None → excused p ctx d = true)
  ∧ (network p = [] ∨ relayed p = true)
  ∧ ∃ bwrap l w, buildArgs execPath p ctx command = Ok l
      ∧ spawn host bwrap l (command_cwd command) (env command) w = (s'.2, Ok r).
Proof.
  unfold run. unfold mseq at 1. unfold mlift at 1. destruct (unenforceable p ctx) as [gaps|] eqn:E; [|done].
  destruct gaps as [|g gs]; [|done]. cbn [length Nat.ltb Nat.leb]. intros Hrun.
  unfold unenforceable in E. destruct (rmapM (deny_gap p ctx) (denies p)) as [gss|] eqn:Eg; [|done]. cbn [rbind] in E.
  apply Ok_inj, app_eq_nil in E as [E1 E2]. split; [|split].
  - intros d Hd Hnone. apply rmapM_Ok in Eg. apply list_elem_of_lookup_1 in Hd as [i Hi].
    destruct (Forall2_lookup_l _ _ _ _ _ Eg Hi) as (l & Hl & Hgap). apply list_elem_of_lookup_2 in Hl.
    pose proof (concat_nil_inv gss E1 l Hl) as ->. unfold deny_gap in Hgap. rewrite Hnone in Hgap. cbn [rbind] in Hgap.
    by destruct (excused p ctx d).
  - unfold network_gap in E2. destruct (network p); [by left|]. right. by destruct (relayed p).
  - unfold mseq at 1 in Hrun. destruct (locate host s) as [s1 [[bwrap|]|]]; [|done|done].
    unfold mseq, mlift in Hrun. destruct (buildArgs execPath p ctx command) as [l|]; [|done].
    destruct (spawn host bwrap l (command_cwd command) (env command) s1.2) as [w res] eqn:Es.
    injection Hrun as <- ->. by exists bwrap, l, s1.2.
Qed.
End launch.
End BubblewrapRunner.

(** ** SeatbeltRunner.ts *)

Module SeatbeltRunner.

Definition SANDBOX_EXEC : string := "/usr/bin/sandbox-exec".

Definition unenforceable (p : SandboxPolicy) : list string :=
  if length (network p) =? 0 then []
  else match networkEnforcement p with
       | brokered (tcp_loopback _) => []
       | _ => ["Seatbelt can enforce only the launcher-owned loopback destination broker; direct hostname/port egress remains closed."]
       end.

Section run.
Context {W : Type} (host : Host W).

(** [join] of node:path, on a directory the host has just made. *)
Definition run (p : SandboxPolicy) (ctx : PathContext) (command : SandboxCommand) : M W SandboxRunResult :=
  let gaps := unenforceable p in
  if 0 <? length gaps then mlift (throw ("Refusing an unenforceable Seatbelt policy: " +:+ join " " gaps))
  else
    let* directory := make_directory host in
    let profilePath := posix.join [directory; "policy.sb"] in
    let* text := mlift (SeatbeltProfileCompiler.compile p ctx) in
    let* _ := write_profile host profilePath text in
    finally
      (spawn host SANDBOX_EXEC (["-f"; profilePath; executable command] ++ args command) (command_cwd command) (env command))
      (remove_directory host directory).

(** A launch that returns has compiled a profile and written it to the file the process
    was started under, for a policy whose network, if it has one, is the broker's. *)
Lemma launch_under_profile p ctx command w w' r : run p ctx command w = (w', Ok r) →
  (network p = [] ∨ ∃ port, networkEnforcement p = brokered (tcp_loopback port))
  ∧ ∃ directory text w1 w2 w3,
      make_directory host w = (w1, Ok directory)
      ∧ SeatbeltProfileCompiler.compile p ctx = Ok text
      ∧ write_profile host (posix.join [directory; "policy.sb"]) text w1 = (w2, Ok tt)
      ∧ spawn host SANDBOX_EXEC (["-f"; posix.join [directory; "policy.sb"]; executable command] ++ args command)
          (command_cwd command) (env command) w2 = (w3, Ok r)
      ∧ remove_directory host directory w3 = (w', Ok tt).
Proof.
  unfold run. destruct (unenforceable p) eqn:Eu; [|done]. cbn [length Nat.ltb Nat.leb]. intros Hrun. split.
  { unfold unenforceable in Eu. destruct (network p); [by left|]. right.
    destruct (networkEnforcement p) as [| |[port|]]; try done. by exists port. }
  unfold mseq at 1 in Hrun. destruct (make_directory host w) as [w1 [directory|]] eqn:Ed; [|done].
  unfold mseq at 1, mlift in Hrun. destruct (SeatbeltProfileCompiler.compile p ctx) as [text|] eqn:Ec; [|done].
  unfold mseq at 1 in Hrun. destruct (write_profile host _ text w1) as [w2 [[]|]] eqn:Ew; [|done].
  unfold finally in Hrun. destruct (spawn host SANDBOX_EXEC _ _ _ w2) as [w3 res] eqn:Es.
  exists directory, text, w1, w2, w3. destruct (remove_directory host directory w3) as [w4 [[]|]] eqn:Er;
    [|done]. injection Hrun as <- ->. by split_and!.
Qed.
End run.
End SeatbeltRunner.

(** ** SandboxRunnerFactory.ts *)

Module SandboxRunnerFactory.
Record Candidate (W : Type) := mkCandidate { mechanism_of : ProtectionStatus.ProtectionMechanism; isAvailable : M W bool }.
Arguments mechanism_of {W} _. Arguments isAvailable {W} _.

Definition matchesPlatform (m : ProtectionStatus.ProtectionMechanism) (platform : Platform) : bool :=
  match m with
  | ProtectionStatus.seatbelt => bool_decide (platform = Platform.Darwin)
  | ProtectionStatus.bubblewrap => bool_decide (platform = Platform.Linux)
  | ProtectionStatus.appcontainer => bool_decide (platform = Platform.Win32)
  | ProtectionStatus.no_mechanism => false
  end.
Fixpoint forPlatform {W} (candidates : list (Candidate W)) (platform : Platform) : M W (option (Candidate W)) :=
  match candidates with
  | [] => mok None
  | c :: rest =>
      if negb (matchesPlatform (mechanism_of c) platform) then forPlatform rest platform
      else let* ok := isAvailable c in if ok then mok (Some c) else forPlatform rest platform
  end.

(** The choice never falls back to another platform's mechanism, or to none. *)
Lemma forPlatform_matches {W} (candidates : list (Candidate W)) platform w w' c :
  forPlatform candidates platform w = (w', Ok (Some c)) →
  c ∈ candidates ∧ matchesPlatform (mechanism_of c) platform = true ∧ mechanism_of c ≠ ProtectionStatus.no_mechanism.
Proof.
  revert w. induction candidates as [|d candidates IH]; intros w; cbn [forPlatform]; [done|].
  destruct (matchesPlatform (mechanism_of d) platform) eqn:E; cbn [negb].
  - unfold mseq. destruct (isAvailable d w) as [w1 [[]|]]; [|intros H|done].
    + intros [= _ <-]. split; [by left|]. split; [done|]. intros Hn. by rewrite Hn in E.
    + destruct (IH w1 H) as (Hin & Hm & Hne). split; [by right|done].
  - intros H. destruct (IH w H) as (Hin & Hm & Hne). split; [by right|done].
Qed.
End SandboxRunnerFactory.

(** ** From the grants to the process *)

Section confinement.
Import PolicyBuilder AccessTierResolver PolicyProperties BubblewrapArgumentBuilder TextPaths.
Context `{Digest} (registry : SensitivePathRegistry) {W : Type} (host : Host W) (execPath : string).

(** A grant of the user that opens a protected location. *)
Definition by_hand (input : PolicyInput) (q : AbsolutePath) (g : Grant) : Prop :=
  g ∈ grants input ∧ Grant.appliesTo g (workspaceId input) = true ∧ Grant.origin g = Grant.manual
  ∧ ¬ grantable registry (Grant.resource g) (Grant.access g) (context input)
  ∧ under (ref_text (Grant.resource g)) (AbsolutePath.value q) = true.

(** C1. Every launch on Linux is confined: when the runner returns for a policy that was built,
    the process was started under an argument list in whose namespace, whichever sources
    of the binds the host holds, (1) of a location that the registry protects in the
    workspace as well (all the rows with an anchor it ships) nothing at or below the
    anchor is visible (for a location protected from reading) or writable (from writing)
    unless a grant typed by hand is over it, or, for writing, the policy reads the location
    as a single file; for writing that grant is for writing too, or the host does not hold
    its resource, when the refusal is lifted and nothing is bound in its place; and
    (2) a path outside the workspace that a protected pattern without an anchor claims is
    visible only if it is a system file, if a grant typed by hand is over it, or below a
    reference of the policy that is no run-time grant of a directory. Paths are ordinary
    POSIX ones. *)
Theorem launch_confined input cache cache' b command s s' r :
  cache_ok registry cache → real_home (context input) →
  PolicyBuilder.build registry input cache = (cache', Ok b) →
  BubblewrapRunner.run host execPath (policy b) (context input) command s = (s', Ok r) →
  ∃ bwrap l w, spawn host bwrap l (command_cwd command) (env command) w = (s'.2, Ok r)
  ∧ (∀ present e a anchor q,
       e ∈ SensitivePathRegistry.dangerousFor registry (platform (context input)) a →
       SensitivePath.outsideWorkspaceOnly e = false →
       SensitivePath.literalPrefix e (home (context input)) = Ok (Some anchor) →
       AbsolutePath.posix_wf anchor → AbsolutePath.posix_wf q → AbsolutePath.contains anchor q = true →
       exposed present l a q →
       (∃ g, by_hand input q g
            ∧ (a = write → Grant.access g = write ∨ present (ref_text (Grant.resource g)) = false))
       ∨ a = write ∧ isReadOnlyFile (policy b) anchor = true)
  ∧ (∀ present e a q,
       e ∈ SensitivePathRegistry.dangerousFor registry (platform (context input)) a →
       SensitivePath.literalPrefix e (home (context input)) = Ok None →
       AbsolutePath.posix_wf q → AbsolutePath.posix_wf (SensitivePaths.workspace (context input)) →
       AbsolutePath.contains (SensitivePaths.workspace (context input)) q = false →
       sees present l q ≠ hidden →
       (∃ g, by_hand input q g) ∨ (∃ t, t ∈ SYSTEM_ROOTS ∧ under t (AbsolutePath.value q) = true)
       ∨ ∃ x, (x ∈ reads (policy b) ∨ x ∈ writes (policy b)) ∧ under (ref_text x) (AbsolutePath.value q) = true
           ∧ (x ∈ runtimeRefs (policy b) → AbsolutePath.posix_wf (ResourceRef.path x) → ResourceRef.is_file x = true)).
Proof.
  intros Hc Hh Hp Hrun.
  destruct (BubblewrapRunner.launch_without_gaps host execPath _ _ _ _ _ _ Hrun) as (Hex & _ & bwrap & l & w & Hl & Hs).
  exists bwrap, l, w. split; [done|].
  destruct (build_yields registry input Hh cache Hc) as [_ HQ]. rewrite Hp in HQ. destruct (HQ b eq_refl) as (Hd & _ & Ho & _).
  unfold BubblewrapRunner.buildArgs in Hl. split.
  - intros present e a anchor q He Hout Hpre Ha Hq Haq Hx.
    destruct (exposed_by_hand registry input cache cache' b _ l present e a anchor q Hc Hh Hp Hl He Hout Hpre Ha Hq Haq Hx)
      as [(g & ? & ? & ? & ? & ? & ?)|?]; [left; by exists g|by right].
  - intros present e a q He Hpre Hq Hws Hout Hv.
    destruct (visible_below present (policy b) (context input) _ l q Hl Hv) as [(o & Hoo & Hu)|[Hsys|(x & Hx & Hu)]].
    + left. apply Ho in Hoo as (g & ? & ? & ? & ? & ->). by exists g.
    + right. by left.
    + right. right. exists x. split; [done|]. split; [done|]. intros Hrt Hwf.
      assert (∃ d, d ∈ denies (policy b) ∧ DenyRule.pattern d = SensitivePath.pattern e) as (d & Hin & Hpat).
      { rewrite Hd. eexists. split; [apply elem_of_denyRules; exists a, e; split; [done|reflexivity]|done]. }
      assert (BubblewrapRunner.excused (policy b) (context input) d = true) as Hexc by (apply Hex; [done|by rewrite Hpat]).
      unfold BubblewrapRunner.excused in Hexc. apply andb_true_iff in Hexc as [_ Hexc]. rewrite every_true in Hexc.
      specialize (Hexc x Hrt). apply orb_true_iff in Hexc as [?|Hin2]; [done|]. exfalso.
      unfold ref_text in Hu. rewrite under_contains in Hu by done.
      assert (AbsolutePath.contains (SensitivePaths.workspace (context input)) q = true) as E; [|congruence].
      by eapply ResourceRef.contains_trans, Hu.
Qed.
End confinement.

(** ** A launch *)

Section example.
Import PolicyBuilder PolicyProperties BubblewrapArgumentBuilder TextPaths.

(** A host that has bubblewrap and remembers what was spawned. *)
Definition recording_host : Host (list (string * list string)) :=
  mkHost _ (λ c, mok (c =? "/usr/bin/bwrap")%string)
    (λ program l _ _ w, (w ++ [(program, l)], Ok (mkRunResult 0 None)))
    (mok "/tmp/agentkeeper-1") (λ _ _, mok tt) (λ _, mok tt).
Definition launch_of (input : PolicyInput) (x : result PolicyBuildResult) :
    option ((option string * list (string * list string)) * result SandboxRunResult) :=
  match x with
  | Ok b => Some (BubblewrapRunner.run recording_host "/usr/bin/node" (policy b) (context input) demo_command (None, []))
  | Err _ => None
  end.
Definition hand_built : gmap string (list AbsolutePath) * result PolicyBuildResult :=
  PolicyBuilder.build default_registry (demo_input [demo_grant Grant.manual]) ∅.

Lemma hand_launch : match launch_of (demo_input [demo_grant Grant.manual]) hand_built.2 with
  | Some ((Some program, [(spawned, l)]), Ok _) =>
      (program =? "/usr/bin/bwrap")%string && (spawned =? program)%string
      && match sees everything l demo_key with readable => true | _ => false end
  | _ => false
  end = true.
Proof. vm_compute. done. Qed.

Lemma launch_of_inv input x t r : launch_of input x = Some (t, Ok r) →
  ∃ b, x = Ok b ∧ BubblewrapRunner.run recording_host "/usr/bin/node" (policy b) (context input) demo_command (None, []) = (t, Ok r).
Proof. unfold launch_of. destruct x as [b|]; [|done]. intros [= H]. by exists b. Qed.

(** A key opened by hand leaves the rest of its directory hidden. *)
Lemma launch_confined_witness : ∃ bwrap l w s r,
  spawn recording_host bwrap l (command_cwd demo_command) (env demo_command) w = (s, Ok r)
  ∧ sees everything l (below_home [".ssh"; "config"]) = hidden.
Proof.
  pose proof hand_launch as Hlaunch. destruct (launch_of _ _) as [[t [r|]]|] eqn:El; [|by destruct t as [[?|] [|[? ?] [|? ?]]]|done].
  apply launch_of_inv in El as (b & Hb & Hrun). clear Hlaunch.
  destruct (launch_confined default_registry recording_host "/usr/bin/node" (demo_input [demo_grant Grant.manual]) ∅ hand_built.1 b
              demo_command (None, []) t r) as (bwrap & l & w & Hs & Hhide & _).
  - apply AccessTierResolver.cache_ok_empty.
  - reflexivity.
  - apply snd_pair. exact Hb.
  - exact Hrun.
  - exists bwrap, l, w, t.2, r. split; [exact Hs|].
    destruct (decide (sees everything l (below_home [".ssh"; "config"]) = hidden)) as [E|Hne]; [exact E|exfalso].
    destruct (SensitivePathRegistry.dangerousFor default_registry Platform.Linux read) as [|e rows] eqn:E;
      [exfalso; revert E; apply (nonempty_not_nil _ 1); [vm_compute; reflexivity|lia]|].
    assert (head (SensitivePathRegistry.dangerousFor default_registry Platform.Linux read) = Some e) as Hh by by rewrite E.
    destruct (Hhide everything e read (below_home [".ssh"]) (below_home [".ssh"; "config"])) as [(g & (Hg & _ & _ & _ & Hu) & _)|[Hw _]].
    + change (platform (context (demo_input [demo_grant Grant.manual]))) with Platform.Linux. rewrite E. by left.
    + assert (SensitivePath.outsideWorkspaceOnly <$> head (SensitivePathRegistry.dangerousFor default_registry Platform.Linux read) = Some false)
        as Ho by (vm_compute; reflexivity). rewrite Hh in Ho. by injection Ho.
    + revert Hh. apply head_prefix. vm_compute. reflexivity.
    + by exists ["home"; "u"; ".ssh"]; split_and!; [|apply (bool_decide_unpack _); reflexivity|repeat constructor].
    + by exists ["home"; "u"; ".ssh"; "config"]; split_and!; [|apply (bool_decide_unpack _); reflexivity|repeat constructor].
    + reflexivity.
    + exact Hne.
    + change (g ∈ [demo_grant Grant.manual]) in Hg. apply list_elem_of_singleton in Hg. rewrite Hg in Hu. discriminate Hu.
    + discriminate Hw.
Defined.
End example.
