(* ===== verification/Broker.v ===== *)
(** * The destination broker (src/infrastructure/network/NodeDestinationBroker.ts)

    The proxy between a confined agent and the network: it reads one CONNECT preface,
    decides by DestinationGuard, and becomes a tunnel to the address that was decided on.
    Name resolution, dialling and listening are the host's; an operation that does not
    answer within its time is one that fails. *)

From S2P Require Import Prelude JsString JsNumber Paths Values Network Policy Sha256 Ports RunSandboxed DestinationGuard.
Import Launching DestinationGuard.
Local Open Scope Z_scope.

Module NodeDestinationBroker.

Definition DEFAULT_MAX_HEADER : Z := 16 * 1024.
Definition DEFAULT_MAX_CONNECTIONS : Z := 64.
Definition DEFAULT_HANDSHAKE_TIMEOUT : Z := 10000.
Definition DEFAULT_IDLE_TIMEOUT : Z := 5 * 60000.

Definition MAX_SAFE_INTEGER : Z := 2 ^ 53 - 1.
Definition positiveInteger (value : JsNumber) (name : string) : result Z :=
  match value with
  | Int z => if (z <=? MAX_SAFE_INTEGER) && (1 <=? z) then Ok z else throw (name +:+ " must be a positive integer")
  | _ => throw (name +:+ " must be a positive integer")
  end.
Record Limits := mkLimits { maxHeaderBytes : Z; maxConnections : Z; handshakeTimeoutMs : Z; idleTimeoutMs : Z }.
Definition or_value (n : option JsNumber) (d : Z) : JsNumber := default (Int d) n.
Definition construct (header connections handshake idle : option JsNumber) : result Limits :=
  let! h := positiveInteger (or_value header DEFAULT_MAX_HEADER) "maxHeaderBytes" in
  let! c := positiveInteger (or_value connections DEFAULT_MAX_CONNECTIONS) "maxConnections" in
  let! t := positiveInteger (or_value handshake DEFAULT_HANDSHAKE_TIMEOUT) "handshakeTimeoutMs" in
  let! i := positiveInteger (or_value idle DEFAULT_IDLE_TIMEOUT) "idleTimeoutMs" in
  Ok (mkLimits h c t i).

(** ** The rules *)

Definition validateRule (rule : NetworkRule) : result unit :=
  if NetworkRule.allowsLoopback rule then Ok tt
  else if negb (bool_decide (NetworkRule.protocol rule = NetworkRule.tcp_protocol))
  then throw ("The destination broker supports CONNECT/TCP, not " +:+ toUpperCase (NetworkRule.protocol_name (NetworkRule.protocol rule)))
  else if negb (NetworkRule.isExplicitDestination rule)
  then throw "An any-host network rule has no explicit destination and cannot enter protected mode"
  else Ok tt.
Definition validateRules (rules : list NetworkRule) : result unit :=
  match rules with
  | [] => throw "A destination broker needs at least one destination"
  | _ => let! _ := rmapM validateRule rules in Ok tt
  end.

Definition isLoopbackAuthority (host : string) : bool :=
  let normalized := NetworkRule.strip_dot (toLowerCase host) in
  if (normalized =? "localhost")%string || endsWith normalized ".localhost" then true
  else if (NodeNet.isIP normalized =? 4)%nat then
    match split "."%char normalized with first :: _ => (first =? "127")%string | [] => false end
  else (normalized =? "::1")%string || startsWith (toLowerCase normalized) "::ffff:127.".
Definition authorityAllowed (host : string) (port : Z) (rules : list NetworkRule) : bool :=
  some (λ rule, (NetworkRule.isExplicitDestination rule && NetworkRule.matches rule host (Int port))
                || (NetworkRule.allowsLoopback rule && isLoopbackAuthority host)) rules.

(** ** One connection *)

Definition CRLF : string := String (chr 13) nl.
(** [/^CONNECT ([^ ]+) HTTP\/1\.[01]$/] *)
Definition connect_target (line : string) : option string :=
  if startsWith line "CONNECT " then
    let r := sdrop 8 line in
    let target := take_while (λ c, negb (Ascii.eqb c " ")) r in
    let version := sdrop (slen target) r in
    if (0 <? slen target)%nat && ((version =? " HTTP/1.0")%string || (version =? " HTTP/1.1")%string) then Some target else None
  else None.

(** Where a connection stands: bytes are still missing, it was answered with a status and
    closed, or it is a tunnel whose first bytes upstream are known. *)
Inductive Progress (U : Type) :=
| waiting (header : string)
| refused (status : Z) (reason : string)
| tunnel (upstream : U) (remainder : string).
Arguments waiting {U} _. Arguments refused {U} _ _. Arguments tunnel {U} _ _.

Definition reject_text (status : Z) (reason : string) : string :=
  "HTTP/1.1 " +:+ string_of_Z status +:+ " " +:+ reason +:+ CRLF +:+ "Connection: close" +:+ CRLF +:+ "Content-Length: 0" +:+ CRLF +:+ CRLF.
Definition established_text : string := "HTTP/1.1 200 Connection Established" +:+ CRLF +:+ CRLF.
(** What the client is answered. *)
Definition answer {U} (p : Progress U) : string :=
  match p with waiting _ => "" | refused status reason => reject_text status reason | tunnel _ _ => established_text end.

Section connection.
Context {W U : Type} (lookup : string → M W (list ResolvedAddress)) (dialAddress : string → Z → nat → M W U) (limits : Limits).
Context (rules : list NetworkRule).

Definition resolveHost (host : string) : M W (list ResolvedAddress) :=
  let family_ := NodeNet.isIP host in
  if (family_ =? 4)%nat || (family_ =? 6)%nat then mok [mkAddress host family_]
  else let* addresses := lookup host in mok (bfilter (λ a, (family a =? 4)%nat || (family a =? 6)%nat) addresses).

(** [try { a = await m } catch { reject(..); return }] *)
Definition attempt {A B} (m : M W A) (fallback : B) (k : A → M W B) : M W B := λ w,
  match m w with (w', Ok a) => k a w' | (w', Err _) => (w', Ok fallback) end.
Definition bad_gateway : Progress U := refused 502 "Bad Gateway".
Definition forbidden_ : Progress U := refused 403 "Forbidden".

Definition serve (firstLine remainder : string) : M W (Progress U) :=
  match connect_target firstLine with
  | None => mok (refused 405 "Method Not Allowed")
  | Some target =>
      match parseConnectAuthority target with
      | Err _ => mok (refused 400 "Bad Request")
      | Ok (host, port) =>
          if negb (authorityAllowed host port rules) then mok forbidden_
          else
            attempt (resolveHost host) bad_gateway (λ addresses,
              match authorize host (Int port) rules addresses with
              | denied _ => mok forbidden_
              | authorized pinnedAddress family =>
                  attempt (dialAddress pinnedAddress port family) bad_gateway (λ upstream, mok (tunnel upstream remainder))
              end)
      end
  end.
Definition onData (header chunk : string) : M W (Progress U) :=
  let header := header +:+ chunk in
  if maxHeaderBytes limits <? Z.of_nat (slen header) then mok (refused 431 "Request Header Fields Too Large")
  else
    match indexOf header (CRLF +:+ CRLF) with
    | None => mok (waiting header)
    | Some boundary =>
        let preface := stake (boundary + 4) header in
        serve (match indexOf preface CRLF with Some i => stake i preface | None => stake (slen preface - 1) preface end)
          (sdrop (boundary + 4) header)
    end.
(** The data events of a client, until the listener is taken off: what is left goes through
    the pipe. *)
Fixpoint feed (header : string) (chunks : list string) : M W (Progress U * list string) :=
  match chunks with
  | [] => mok (waiting header, [])
  | chunk :: rest =>
      let* p := onData header chunk in
      match p with waiting header' => feed header' rest | _ => mok (p, rest) end
  end.
Definition accept (chunks : list string) : M W (Progress U * list string) := feed "" chunks.
End connection.

(** [server.on('connection')]: a client beyond the limit is answered at once. [open] counts
    the sockets of both sides. *)
Definition admission {U} (limits : Limits) (open : nat) : option (Progress U) :=
  if maxConnections limits <=? Z.of_nat open then Some (refused 503 "Service Unavailable") else None.

(** ** The session *)

(** The server with its sockets, and the files beside it. *)
Record BrokerHost (W : Type) := mkBrokerHost {
  writeFile : string → string → M W unit;
  listenUnix : string → M W unit;
  listenTcp : M W Z;
  randomInt : Z → Z → M W Z;
  shut : M W unit;
  unlink : string → M W unit
}.
Arguments writeFile {W} _ _ _. Arguments listenUnix {W} _ _. Arguments listenTcp {W} _. Arguments randomInt {W} _ _ _.
Arguments shut {W} _. Arguments unlink {W} _ _.
Record Session := mkBrokerSession {
  session_proxyUrl : string;
  session_enforcement : SandboxPolicy.NetworkBrokerTransport;
  unixSocketPath : option string
}.

Section session.
Context {W : Type} (host : BrokerHost W) (RELAY_SOURCE : string).
Definition url (port : Z) : string := "http://127.0.0.1:" +:+ string_of_Z port.
Definition listen (request : DestinationBrokerStartRequest) : M W Session :=
  if bool_decide (start_platform request = Platform.Linux) then
    let* socketPath := mlift (AbsolutePath.joinp (start_scratch request) ["broker.sock"]) in
    let* relayScript := mlift (AbsolutePath.joinp (start_scratch request) ["network-relay.mjs"]) in
    if (100 <? length (Sha256.utf8 (AbsolutePath.value socketPath)))%nat
    then mlift (throw "The Linux broker Unix-socket path exceeds the portable 100-byte limit")
    else
      let* _ := writeFile host (AbsolutePath.value relayScript) RELAY_SOURCE in
      let* _ := listenUnix host (AbsolutePath.value socketPath) in
      let* port := randomInt host 20000 60000 in
      mok (mkBrokerSession (url port) (SandboxPolicy.unix_socket_relay socketPath relayScript port) (Some (AbsolutePath.value socketPath)))
  else
    let* port := listenTcp host in mok (mkBrokerSession (url port) (SandboxPolicy.tcp_loopback port) None).
(** [catch (error) { .. server.close(); throw error }] *)
Definition start (request : DestinationBrokerStartRequest) : M W Session :=
  let* _ := mlift (validateRules (destinations request)) in
  λ w, match listen request w with
       | (w', Err e) => ((shut host w').1, Err e)
       | r => r
       end.
(** The flag [closed] is the session's own. *)
Definition close (session : Session) : M (bool * W) unit := λ s,
  if s.1 then (s, Ok tt)
  else
    match shut host s.2 with
    | (w, Ok _) =>
        match unixSocketPath session with
        | Some p => let '(w', r) := unlink host p w in ((true, w'), r)
        | None => ((true, w), Ok tt)
        end
    | (w, Err e) => ((true, w), Err e)
    end.
End session.

(** ** What a connection can bring about *)

(** What is asked of the network, with its answer: none when it failed or came too late. *)
Inductive Event (U : Type) :=
| resolved (host : string) (answer : option (list ResolvedAddress))
| dialled (address : string) (port : Z) (family : nat) (socket : option U).
Arguments resolved {U} _ _. Arguments dialled {U} _ _ _ _.
Definition returned {A} (r : result A) : option A := match r with Ok a => Some a | Err _ => None end.
Class NetworkLaws {W U : Type} (lookup : string → M W (list ResolvedAddress)) (dialAddress : string → Z → nat → M W U) := {
  log : W → list (Event U);
  lookup_law : ∀ h w, log (lookup h w).1 = log w ++ [resolved h (returned (lookup h w).2)];
  dial_law : ∀ a p f w, log (dialAddress a p f w).1 = log w ++ [dialled a p f (returned (dialAddress a p f w).2)]
}.

Section safety.
Context {W U : Type} (lookup : string → M W (list ResolvedAddress)) (dialAddress : string → Z → nat → M W U).
Context `{!NetworkLaws lookup dialAddress} (limits : Limits) (rules : list NetworkRule).

(** The address is the first of the host's, and each of them may be connected to. *)
Definition guarded (host : string) (port : Z) (addresses : list ResolvedAddress) (p : string) (f : nat) : Prop :=
  (∃ rest, addresses = mkAddress p f :: rest)
  ∧ if some (λ r, NetworkRule.allowsLoopback r && loopbackHost host) rules
    then ∀ x, x ∈ addresses → isLoopbackAddress (address x) = true
    else (∃ r, r ∈ rules ∧ NetworkRule.isExplicitDestination r = true ∧ NetworkRule.matches r host (Int port) = true)
         ∧ ∀ x, x ∈ addresses → Public (address x).
(** The addresses of an answer, those of IPv4 and IPv6. *)
Definition usable (answer : list ResolvedAddress) : list ResolvedAddress := bfilter (λ a, (family a =? 4)%nat || (family a =? 6)%nat) answer.
(** The request line asks for a host and a port that the rules admit. *)
Definition asks (line host : string) (port : Z) : Prop := ∃ target,
  connect_target line = Some target ∧ parseConnectAuthority target = Ok (host, port) ∧ authorityAllowed host port rules = true.
(** All that a request line has the broker ask of the network, in order, and the socket that
    comes of it. *)
Inductive exchange (line : string) : list (Event U) → option U → Prop :=
| no_request : exchange line [] None
| only_resolved host port answer : asks line host port → NodeNet.isIP host = 0%nat → exchange line [resolved host answer] None
| address_dialled host port p f socket : asks line host port → NodeNet.isIP host ≠ 0%nat →
    guarded host port [mkAddress host (NodeNet.isIP host)] p f → exchange line [dialled p port f socket] socket
| name_dialled host port answer p f socket : asks line host port → NodeNet.isIP host = 0%nat →
    guarded host port (usable answer) p f → exchange line [resolved host (Some answer); dialled p port f socket] socket.
(** The line that ends with the first line break of the bytes. *)
Definition first_line (bytes line : string) : Prop := indexOf bytes CRLF = Some (slen line) ∧ startsWith bytes line = true.

(** What answering a request line comes to. *)
Definition served (line remainder : string) (w : W) (x : W * result (Progress U)) : Prop := ∃ new out,
  x.2 = Ok out ∧ log x.1 = log w ++ new
  ∧ match out with waiting _ => False | refused _ _ => exchange line new None | tunnel u r => r = remainder ∧ exchange line new (Some u) end.
Lemma served_refused line remainder w s r : served line remainder w (w, Ok (refused s r)).
Proof. exists [], (refused s r). rewrite app_nil_r. split_and!; [done..|constructor]. Qed.
(** The dialling of a decided address, after what was asked of the network before. *)
Lemma served_dial line remainder w w1 before p port f :
  log w1 = log w ++ before → (∀ socket, exchange line (before ++ [dialled p port f socket]) socket) →
  served line remainder w (attempt (dialAddress p port f) bad_gateway (λ upstream, mok (tunnel upstream remainder)) w1).
Proof.
  intros Hl He. pose proof (dial_law p port f w1) as Hd. unfold attempt. destruct (dialAddress p port f w1) as [w2 r]. cbn [fst snd] in Hd.
  exists (before ++ [dialled p port f (returned r)]). destruct r as [u|e]; cbn [fst snd returned mok].
  - exists (tunnel u remainder). split_and!; [done|by rewrite Hd, Hl, app_assoc|done|apply He].
  - exists bad_gateway. split_and!; [done|by rewrite Hd, Hl, app_assoc|apply He].
Qed.
Lemma isIP_cases h : NodeNet.isIP h = 0%nat ∨ NodeNet.isIP h = 4%nat ∨ NodeNet.isIP h = 6%nat.
Proof. unfold NodeNet.isIP. destruct (NodeNet.isIPv4 h); [auto|]. destruct (NodeNet.isIPv6 h); auto. Qed.
Lemma serve_spec line remainder w : served line remainder w (serve lookup dialAddress rules line remainder w).
Proof.
  unfold serve. destruct (connect_target line) as [target|] eqn:Et; [|apply served_refused].
  destruct (parseConnectAuthority target) as [[host port]|e] eqn:Ep; [|apply served_refused].
  destruct (authorityAllowed host port rules) eqn:Ea; [|apply served_refused]. cbn [negb].
  assert (asks line host port) as Hasks by by exists target.
  unfold attempt at 1, resolveHost. destruct (decide (NodeNet.isIP host = 0%nat)) as [H0|H0].
  - rewrite H0. cbn [Nat.eqb orb]. pose proof (lookup_law host w) as Hl. unfold mseq at 1. destruct (lookup host w) as [w1 r]. cbn [fst snd] in Hl.
    assert (∀ answer, log w1 = log w ++ [resolved host answer] → ∀ s t, served line remainder w (w1, Ok (refused s t))) as Hr.
    { intros answer Hw s t. exists [resolved host answer], (refused s t). split_and!; [done..|]. by eapply only_resolved. }
    destruct r as [answer|e]; cbn [returned mok] in *; [|by eapply Hr]. fold (usable answer).
    destruct (authorize host (Int port) rules (usable answer)) as [p f|] eqn:Eg; [|by eapply Hr].
    apply authorize_authorized in Eg as Hg. apply (served_dial _ _ _ _ [resolved host (Some answer)]); [done|]. intros socket. by eapply name_dialled.
  - assert ((NodeNet.isIP host =? 4)%nat || (NodeNet.isIP host =? 6)%nat = true) as ->.
    { destruct (isIP_cases host) as [H1|[H1|H1]]; [done|by rewrite H1..]. }
    cbn [mok]. destruct (authorize host (Int port) rules _) as [p f|] eqn:Eg; [|apply served_refused].
    apply authorize_authorized in Eg as Hg. apply (served_dial _ _ _ _ []); [by rewrite app_nil_r|]. intros socket. by eapply address_dialled.
Qed.

Lemma stake_mid x p y : stake (slen x + slen p) (x +:+ p +:+ y) = x +:+ p.
Proof. by rewrite <-slen_app, <-sapp_assoc, stake_app. Qed.
Lemma boundary_cut text b : indexOf text (CRLF +:+ CRLF) = Some b → let preface := stake (b + 4) text in
  text = preface +:+ sdrop (b + 4) text ∧ indexOf preface (CRLF +:+ CRLF) = Some (slen preface - 4)%nat
  ∧ ∃ i, indexOf preface CRLF = Some i ∧ startsWith preface (stake i preface +:+ CRLF) = true.
Proof.
  intros Hb. cbv zeta. split; [by rewrite stake_sdrop|]. apply indexOf_some in Hb as Ht. destruct Ht as (x & y & Ht & Hx).
  assert (stake (b + 4) text = x +:+ CRLF +:+ CRLF) as Hp.
  { rewrite Ht, <-Hx. exact (stake_mid x (CRLF +:+ CRLF) y). }
  rewrite Hp. split.
  - destruct (indexOf (x +:+ CRLF +:+ CRLF) (CRLF +:+ CRLF)) as [k|] eqn:Ek.
    + apply indexOf_some in Ek as Hk. destruct Hk as (u & v & Hk & Hu).
      pose proof (indexOf_leftmost _ _ _ x "" Ek ltac:(by rewrite sapp_nil_r)) as H1.
      pose proof (indexOf_leftmost _ _ _ u (v +:+ y) Hb) as H2. rewrite Ht in H2.
      specialize (H2 ltac:(rewrite <-!sapp_assoc; rewrite <-!sapp_assoc in Hk; by rewrite Hk)).
      rewrite !slen_app. change (slen CRLF) with 2%nat. f_equal. lia.
    + exfalso. apply indexOf_none in Ek. apply Ek. exists x, "". by rewrite sapp_nil_r.
  - destruct (indexOf (x +:+ CRLF +:+ CRLF) CRLF) as [k|] eqn:Ek.
    + exists k. split; [done|]. apply indexOf_some in Ek as (u & v & Hk & Hu). rewrite Hk. rewrite <-Hu at 1. rewrite stake_app.
      apply startsWith_true. exists v. by rewrite <-sapp_assoc.
    + exfalso. apply indexOf_none in Ek. apply Ek. by exists x, CRLF.
Qed.
Lemma first_line_cut bytes i : indexOf bytes CRLF = Some i → first_line bytes (stake i bytes).
Proof.
  intros Hi. apply indexOf_some in Hi as Ht. destruct Ht as (x & y & E & Hx).
  assert (stake i bytes = x) as -> by (rewrite E, <-Hx; apply stake_app). split; [by rewrite Hi, Hx|].
  apply startsWith_true. by exists (CRLF +:+ y).
Qed.
(** What is found in a text is found there in a longer one. *)
Lemma indexOf_longer s p i t : indexOf s p = Some i → indexOf (s +:+ t) p = Some i.
Proof.
  assert (∀ s, slen p ≤ slen s → startsWith (s +:+ t) p = true → startsWith s p = true)%nat as Hshort.
  { intros u Hl [r Hr]%startsWith_true. apply startsWith_true. exists (sdrop (slen p) u).
    assert (stake (slen p) u = p) as Hp; [|by rewrite <-Hp at 1; rewrite stake_sdrop].
    trans (stake (slen p) (u +:+ t)); [|by rewrite Hr, stake_app]. clear -Hl. revert u Hl. generalize (slen p).
    induction n as [|n IH]; intros [|c u]; cbn; intros Hl; [by destruct t|done|lia|]. f_equal. apply IH. lia. }
  intros Hi. apply indexOf_some in Hi as Ht. revert i Hi Ht. induction s as [|c s IH]; intros i Hi (x & y & E & Hx).
  - apply (f_equal slen) in E. rewrite !slen_app in E. cbn in E. assert (p = "") as -> by (by destruct p). cbn in *. by destruct t.
  - cbn [indexOf String.append] in *. fold (startsWith (String c s) p) in Hi. fold (startsWith (String c (s +:+ t)) p).
    destruct (startsWith (String c s) p) eqn:E1.
    + apply startsWith_true in E1 as [r Hr]. change (String c (s +:+ t)) with (String c s +:+ t).
      assert (startsWith (String c s +:+ t) p = true) as ->; [|done]. apply startsWith_true. exists (r +:+ t). by rewrite Hr, sapp_assoc.
    + destruct (indexOf s p) as [k|] eqn:Ek; [|done]. injection Hi as <-. destruct (startsWith (String c (s +:+ t)) p) eqn:E2.
      * rewrite (Hshort (String c s)) in E1; [done| |exact E2]. apply (f_equal slen) in E. rewrite !slen_app in E. lia.
      * cbn. rewrite (IH k); [done..|]. by apply indexOf_some.
Qed.
Lemma first_line_longer bytes line more : first_line bytes line → first_line (bytes +:+ more) line.
Proof.
  intros [Hi Hs]. split; [by apply indexOf_longer|]. apply startsWith_true in Hs as [r ->]. apply startsWith_true. exists (r +:+ more). by rewrite sapp_assoc.
Qed.
Lemma feed_spec header chunks w : ∃ new out rest, (feed lookup dialAddress limits rules header chunks w).2 = Ok (out, rest)
  ∧ log (feed lookup dialAddress limits rules header chunks w).1 = log w ++ new
  ∧ match out with
    | waiting h => new = [] ∧ rest = [] ∧ h = header +:+ join "" chunks
    | refused _ _ => new = [] ∨ ∃ line, first_line (header +:+ join "" chunks) line ∧ exchange line new None
    | tunnel u remainder => ∃ preface line, header +:+ join "" chunks = preface +:+ remainder +:+ join "" rest
        ∧ indexOf preface (CRLF +:+ CRLF) = Some (slen preface - 4)%nat ∧ first_line (header +:+ join "" chunks) line ∧ exchange line new (Some u)
    end.
Proof.
  revert header w. induction chunks as [|chunk chunks IH]; intros header w; cbn [feed].
  { exists [], (waiting header), []. by rewrite app_nil_r, sapp_nil_r. }
  unfold mseq, onData. destruct (maxHeaderBytes limits <? _).
  { exists [], (refused 431 "Request Header Fields Too Large"), chunks. rewrite app_nil_r. split_and!; [done..|by left]. }
  rewrite join_empty_cons, <-sapp_assoc. destruct (indexOf (header +:+ chunk) (CRLF +:+ CRLF)) as [b|] eqn:Eb; [|apply IH].
  destruct (boundary_cut _ _ Eb) as (Ht & Hp & i & Hi & Hs). rewrite Hi.
  destruct (serve_spec (stake i (stake (b + 4) (header +:+ chunk))) (sdrop (b + 4) (header +:+ chunk)) w) as (new & out & Hok & Hl & Hout).
  destruct (serve _ _ _ _ _ w) as [w1 r]. cbn [fst snd] in *. subst r. exists new, out, chunks.
  assert (first_line ((header +:+ chunk) +:+ join "" chunks) (stake i (stake (b + 4) (header +:+ chunk)))) as Hline.
  { apply first_line_longer. rewrite Ht at 1. apply first_line_longer. by apply first_line_cut. }
  destruct out as [h|? ?|u remainder]; [done|by split_and!; [..|right; eexists]|]. split_and!; [done..|]. destruct Hout as [-> He].
  eexists _, _. split_and!; [|exact Hp|exact Hline|exact He]. by rewrite <-sapp_assoc, <-Ht.
Qed.

(** C21. What a client of the broker can bring about. However its bytes are cut into
    chunks, a connection waits, is refused or becomes a tunnel, and all that it has the
    broker ask of the network is one of these, for the host and port of the first line of
    the client's bytes: nothing; one resolution of that name; or one dialling, of that port,
    after it. A name is resolved only when a rule admits the authority asked for, so the
    broker is no oracle for other names. What is dialled is the first of all the addresses
    that this very resolution answered (or the address that was asked for), when each of
    them passes the guard: a loopback address for a loopback rule, a public one
    (DestinationGuard, whose exceptions are named at C23) otherwise. A tunnel leads to the
    socket of this dialling, and carries the client's bytes behind the first empty line, all
    of them and nothing else. *)
Theorem broker_tunnels chunks w : ∃ new out rest,
  (accept lookup dialAddress limits rules chunks w).2 = Ok (out, rest)
  ∧ log (accept lookup dialAddress limits rules chunks w).1 = log w ++ new
  ∧ match out with
    | waiting h => new = [] ∧ h = join "" chunks
    | refused _ _ => new = [] ∨ ∃ line, first_line (join "" chunks) line ∧ exchange line new None
    | tunnel u remainder => ∃ preface line, join "" chunks = preface +:+ remainder +:+ join "" rest
        ∧ indexOf preface (CRLF +:+ CRLF) = Some (slen preface - 4)%nat ∧ first_line (join "" chunks) line ∧ exchange line new (Some u)
    end.
Proof.
  destruct (feed_spec "" chunks w) as (new & out & rest & Hok & Hl & Hout). exists new, out, rest. unfold accept.
  split_and!; [done..|]. destruct out; [by destruct Hout as (? & _ & ?)|exact Hout|exact Hout].
Qed.
End safety.

(** ** Rules and sessions *)

Lemma validated rules : validateRules rules = Ok tt →
  rules ≠ [] ∧ ∀ r, r ∈ rules → NetworkRule.allowsLoopback r = true ∨ NetworkRule.isExplicitDestination r = true.
Proof.
  unfold validateRules. destruct rules as [|r0 rules]; [done|]. intros H. split; [done|]. res_inv. intros r Hr.
  apply rmapM_Ok in E. apply list_elem_of_lookup in Hr as [k Hk]. destruct (Forall2_lookup_l _ _ _ _ _ E Hk) as (? & _ & Hv).
  unfold validateRule in Hv. destruct (NetworkRule.allowsLoopback r); [by left|right].
  destruct (negb (bool_decide _)); [done|]. by destruct (NetworkRule.isExplicitDestination r).
Qed.
(** A second [close] does nothing. *)
Lemma close_once {W} (host : BrokerHost W) session s : close host session (close host session s).1 = ((close host session s).1, Ok tt).
Proof.
  destruct s as [[] w]; [done|]. unfold close at 2 3. cbn [fst snd]. destruct (shut host w) as [w1 [u|e]]; [|done].
  destruct (unixSocketPath session); [|done]. by destruct (unlink host _ w1).
Qed.
End NodeDestinationBroker.

(** ** A running example *)

Module SampleBroker.
Import NodeDestinationBroker.
Definition rules : list NetworkRule := match NetworkRule.destination "api.example.com" (Int 443) with Ok r => [r] | Err _ => [] end.
Definition World : Type := list (Event nat).
Definition answer_of (h : string) : result (list ResolvedAddress) :=
  if (h =? "api.example.com")%string then Ok [mkAddress "93.184.216.34" 4%nat; mkAddress "2606:2800::1" 6%nat] else throw "ENOTFOUND".
Definition lookup (h : string) : M World (list ResolvedAddress) := λ w, (w ++ [resolved h (returned (answer_of h))], answer_of h).
Definition dial (a : string) (p : Z) (f : nat) : M World nat := λ w, (w ++ [dialled a p f (Some 7%nat)], Ok 7%nat).
#[global] Instance laws : NetworkLaws lookup dial.
Proof. by refine {| log := λ w, w |}. Defined.
Definition limits : Limits := mkLimits DEFAULT_MAX_HEADER DEFAULT_MAX_CONNECTIONS DEFAULT_HANDSHAKE_TIMEOUT DEFAULT_IDLE_TIMEOUT.
Definition asked : list string := ["CONNECT api.example.com:443 HTTP/1.1" +:+ String (chr 13) ""; nl +:+ CRLF +:+ "hel"; "lo"].
Example opened : accept lookup dial limits rules asked []
  = ([resolved "api.example.com" (returned (answer_of "api.example.com")); dialled "93.184.216.34" 443 4 (Some 7%nat)], Ok (tunnel 7%nat "hel", ["lo"])).
Proof. vm_compute. reflexivity. Qed.
(** A name no rule admits is not resolved. *)
Example unasked : accept lookup dial limits rules ["CONNECT evil.example:443 HTTP/1.1" +:+ CRLF +:+ CRLF] []
  = ([], Ok (refused 403 "Forbidden", [])).
Proof. vm_compute. reflexivity. Qed.
End SampleBroker.

Lemma broker_tunnels_witness : ∃ preface line new,
  join "" SampleBroker.asked = preface +:+ "hel" +:+ "lo"
  ∧ NodeDestinationBroker.exchange SampleBroker.rules line new (Some 7%nat).
Proof.
  destruct (NodeDestinationBroker.broker_tunnels SampleBroker.lookup SampleBroker.dial SampleBroker.limits SampleBroker.rules SampleBroker.asked [])
    as (new & out & rest & Hok & _ & Hout).
  rewrite SampleBroker.opened in Hok. cbn [snd] in Hok. injection Hok as <- <-. destruct Hout as (preface & line & H & _ & _ & He).
  by exists preface, line, new.
Defined.
