(* ===== verification/Watch.v ===== *)
(** * Watching the directories (src/infrastructure/watch/NodeWatchService.ts)

    One bounded watcher for each directory of the targets: how a session registers them,
    what it reports of its coverage, and which events it hands on. The file system and
    fs.watch are the host; the job that is started anew after an event is the
    SingleFlightScheduler of Services. What a session does between two awaits is one step;
    the errors of watchers arrive at the wait that ends the start, or as events of their own. *)

From S2P Require Import Prelude JsString JsMap JsNumber NodePath Paths Patterns Values Resources SensitivePaths Entities Ports Broker.
From S2P Require Import Baseline.
Import PosixText BaselineCollector.

Module NodeWatchService.
Definition WATCH_STARTUP_SETTLE_MS : Z := 25.
Inductive WatchCoverageStatus := coverage_protected | coverage_degraded | coverage_failed.
#[global] Instance WatchCoverageStatus_eq_dec : EqDecision WatchCoverageStatus.
Proof. solve_decision. Defined.
Record WatchCoverage := mkCoverage {
  coverage_status : WatchCoverageStatus;
  requestedTargets : nat;
  watchedDirectories : nat;
  reasons : list string
}.
Record WatchEvent := mkEvent { is_rename : bool; event_path : option AbsolutePath }.
Record WatchFault := mkFault { fault_path : AbsolutePath; fault_reason : string }.
Inductive PathKind := kind_file | kind_directory | kind_missing.
#[global] Instance PathKind_eq_dec : EqDecision PathKind.
Proof. solve_decision. Defined.

(** An entry of a directory is its name and [isDirectory()]; an error of a watcher brings
    the directory it was made for and the watcher. *)
Record WatchHost (W H : Type) := mkWatchHost {
  lstat : AbsolutePath → M W (bool * bool);
  readdir : string → M W (list (string * bool));
  watchDirectory : string → bool → M W H;
  closeWatcher : H → M W unit;
  settle : Z → M W (list (AbsolutePath * H * string));
  onChange : WatchEvent → M W unit;
  onFault : WatchFault → M W unit;
  localeCompare : string → string → bool
}.
Arguments lstat {W H} _ _. Arguments readdir {W H} _ _. Arguments watchDirectory {W H} _ _ _. Arguments closeWatcher {W H} _ _.
Arguments settle {W H} _ _. Arguments onChange {W H} _ _. Arguments onFault {W H} _ _. Arguments localeCompare {W H} _ _ _.

Record Registration (H : Type) := mkWatched { path : AbsolutePath; scopes : list string; watcher : H }.
Arguments mkWatched {H} _ _ _. Arguments path {H} _. Arguments scopes {H} _. Arguments watcher {H} _.
Record Session (H : Type) := mkSession { registrations : list (string * Registration H); issues : list string; closed : bool }.
Arguments mkSession {H} _ _ _. Arguments registrations {H} _. Arguments issues {H} _. Arguments closed {H} _.

(** [new Set(s).add(x)] *)
Definition add (l : list string) (x : string) : list string := if str_includes l x then l else l ++ [x].

Definition uniqueTargets (targets : list WatchTarget) : list WatchTarget :=
  JsMap.values (fold_left (λ merged target,
    JsMap.set merged (AbsolutePath.value (watch_path target))
      (mkWatchTarget (watch_path target)
         (match JsMap.get merged (AbsolutePath.value (watch_path target)) with Some e => watch_recursive e | None => false end
          || watch_recursive target))) targets []).

(** [/[\\/\0]/.test(name)] *)
Definition odd_name (name : string) : bool := has_char backslash name || has_char slash name || has_char nul name.
Definition eventPath (directory : AbsolutePath) (filename : option string) : option AbsolutePath :=
  match filename with
  | None => None
  | Some name => if (slen name =? 0) || odd_name name then None else catch_null (AbsolutePath.joinp directory [name])
  end.
Fixpoint isRelevantToAnyScope (p : AbsolutePath) (scopes : list string) : result bool :=
  match scopes with
  | [] => Ok false
  | raw :: rest =>
      let! scope := AbsolutePath.of_ raw in
      if AbsolutePath.contains scope p || AbsolutePath.contains p scope then Ok true else isRelevantToAnyScope p rest
  end.

Definition construct (maxDirectories : option JsNumber) : result Z :=
  match NodeDestinationBroker.positiveInteger (default (Int 512) maxDirectories) "" with
  | Ok z => Ok z
  | Err _ => throw "Watcher directory limit must be a positive integer"
  end.

Section session.
Context {W H : Type} (host : WatchHost W H) (maxDirectories : Z) (persistent : bool).
Abbreviation S := (M (Session H * W)).

Definition pathKind (p : AbsolutePath) : M W PathKind := λ w,
  match lstat host p w with
  | (w', Ok (isDirectory, isFile)) => (w', Ok (if isDirectory then kind_directory else if isFile then kind_file else kind_missing))
  | (w', Err _) => (w', Ok kind_missing)
  end.
Definition isDirectory (p : AbsolutePath) : M W bool := let* k := pathKind p in mok (bool_decide (k = kind_directory)).
(** Upwards, until the parent is the path itself. *)
Fixpoint closestExistingDirectory (fuel : nat) (candidate : AbsolutePath) : M W (option AbsolutePath) :=
  match fuel with
  | O => mlift (throw "out of fuel")
  | Datatypes.S f =>
      let* found := isDirectory candidate in
      if found : bool then mok (Some candidate)
      else
        let* up := mlift (AbsolutePath.parent candidate) in
        if AbsolutePath.equals candidate up then mok None else closestExistingDirectory f up
  end.
Definition STEPS (p : AbsolutePath) : nat := Datatypes.S (Datatypes.S (length (AbsolutePath.segments p))).

Definition the_session : S (Session H) := in_local (λ s, (s, s)).
Definition set_registrations (r : list (string * Registration H)) : S unit := in_local (λ s, (mkSession r (issues s) (closed s), tt)).
Definition add_issue (reason : string) : S unit := in_local (λ s, (mkSession (registrations s) (add (issues s) reason) (closed s), tt)).
Definition quietly (m : M W unit) : M W unit := λ w, ((m w).1, Ok tt).

Definition reportFault (p : AbsolutePath) (reason : string) : S unit :=
  let* s := the_session in
  if closed s then mok tt else in_world (quietly (onFault host (mkFault p reason))).
Definition recordIssue (p : AbsolutePath) (reason : string) : S unit :=
  let* s := the_session in
  if str_includes (issues s) reason then mok tt
  else let* _ := add_issue reason in reportFault p reason.

Definition over_limit (scope : AbsolutePath) : string :=
  AbsolutePath.value scope +:+ " recursive coverage exceeded directory limit " +:+ string_of_Z maxDirectories.
Definition full (s : Session H) : bool := (maxDirectories <=? Z.of_nat (length (registrations s)))%Z.
(** The error listener is [watcherFailed] below. *)
Definition try_watch (directory : AbsolutePath) : S (result H) := λ s,
  match watchDirectory host (AbsolutePath.value directory) persistent s.2 with (w', r) => ((s.1, w'), Ok r) end.
Definition register (directory scope : AbsolutePath) : S bool :=
  let* s := the_session in
  match JsMap.get (registrations s) (AbsolutePath.value directory) with
  | Some existing =>
      let* _ := set_registrations (JsMap.set (registrations s) (AbsolutePath.value directory)
                  (mkWatched (path existing) (add (scopes existing) (AbsolutePath.value scope)) (watcher existing))) in
      mok true
  | None =>
      if full s then let* _ := recordIssue scope (over_limit scope) in mok false
      else
        let* tried := try_watch directory in
        match tried with
        | Ok h =>
            let* _ := set_registrations (JsMap.set (registrations s) (AbsolutePath.value directory)
                        (mkWatched directory [AbsolutePath.value scope] h)) in
            mok true
        | Err e =>
            let* _ := recordIssue directory (AbsolutePath.value directory +:+ " could not be watched: " +:+ exn_message e) in
            mok false
        end
  end.
Definition watcherFailed (directory : AbsolutePath) (h : H) (message : string) : S unit :=
  let* _ := in_world (closeWatcher host h) in
  let* s := the_session in
  let* _ := set_registrations (JsMap.delete (registrations s) (AbsolutePath.value directory)) in
  recordIssue directory (AbsolutePath.value directory +:+ " watcher failed: " +:+ message).

Definition by_name : list (string * bool) → list (string * bool) := sort_by (λ l r, localeCompare host l.1 r.1).
Definition try_readdir (directory : AbsolutePath) : S (result (list (string * bool))) := λ s,
  match readdir host (AbsolutePath.value directory) s.2 with (w', r) => ((s.1, w'), Ok r) end.
(** The loop over the entries of a directory. *)
Fixpoint expand_entries (expand : AbsolutePath → S unit) (directory scope : AbsolutePath) (entries : list (string * bool)) : S unit :=
  match entries with
  | [] => mok tt
  | (name, isDirectory_) :: rest =>
      if negb isDirectory_ then expand_entries expand directory scope rest
      else
        let* s := the_session in
        if full s then recordIssue scope (over_limit scope)
        else
          let* child := mlift (AbsolutePath.joinp directory [name]) in
          let* _ := expand child in
          expand_entries expand directory scope rest
  end.
Fixpoint expandDirectory (fuel : nat) (directory scope : AbsolutePath) : S unit :=
  match fuel with
  | O => mlift (throw "out of fuel")
  | Datatypes.S f =>
      let* registered := register directory scope in
      if negb registered then mok tt
      else
        let* listed := try_readdir directory in
        match listed with
        | Err e => recordIssue directory (AbsolutePath.value directory +:+ " could not be enumerated: " +:+ exn_message e)
        | Ok entries => expand_entries (λ child, expandDirectory f child scope) directory scope (by_name entries)
        end
  end.
(** The directories above one are all registered, so they are at most as many as the limit. *)
Definition DEPTH : nat := Datatypes.S (Z.to_nat maxDirectories).

Definition expandTarget (target : WatchTarget) (initial : bool) : S unit :=
  let p := watch_path target in
  let* targetKind := in_world (pathKind p) in
  match targetKind with
  | kind_directory =>
      if watch_recursive target then expandDirectory DEPTH p p else let* _ := register p p in mok tt
  | kind_file => let* up := mlift (AbsolutePath.parent p) in let* _ := register up p in mok tt
  | kind_missing =>
      let* up := mlift (AbsolutePath.parent p) in
      let* ancestor := in_world (closestExistingDirectory (STEPS up) up) in
      match ancestor with
      | None =>
          let reason := AbsolutePath.value p +:+ " cannot be watched: no readable ancestor exists" in
          let* _ := add_issue reason in
          if initial then mok tt else reportFault p reason
      | Some a =>
          let* _ := add_issue (AbsolutePath.value p +:+ " does not exist; watching ancestor " +:+ AbsolutePath.value a) in
          let* _ := register a p in mok tt
      end
  end.
Definition for_each {A} (f : A → S unit) (l : list A) : S unit := mfold (λ _ x, f x) tt l.

Section targets.
Context (targets : list WatchTarget).
Definition coverage_of (s : Session H) : WatchCoverage :=
  mkCoverage (if length (registrations s) =? 0 then coverage_failed else if 0 <? length (issues s) then coverage_degraded else coverage_protected)
    (length targets) (length (registrations s)) (issues s).
Definition initialise : S WatchCoverage :=
  let* _ := if length targets =? 0 then add_issue "no watch targets were configured" else mok tt in
  let* _ := for_each (λ t, expandTarget t true) targets in
  let* errors := in_world (settle host WATCH_STARTUP_SETTLE_MS) in
  let* _ := for_each (λ e, watcherFailed e.1.1 e.1.2 e.2) errors in
  let* s := the_session in
  mok (coverage_of s).
Definition close : S unit :=
  let* s := the_session in
  if closed s then mok tt
  else
    let* _ := in_local (λ s, (mkSession (registrations s) (issues s) true, tt)) in
    let* _ := for_each (λ kv, in_world (closeWatcher host (watcher kv.2))) (registrations s) in
    set_registrations [].
(** The two halves of [refreshCoverage]; each await in them gives way to other events. *)
Definition prune : S unit :=
  let* s := the_session in
  for_each (λ kv, let* there := in_world (isDirectory (path kv.2)) in
                  if there : bool then mok tt
                  else
                    let* _ := in_world (closeWatcher host (watcher kv.2)) in
                    let* s' := the_session in
                    set_registrations (JsMap.delete (registrations s') (AbsolutePath.value (path kv.2)))) (registrations s).
Definition expand_again : S unit := for_each (λ t, expandTarget t false) targets.
Definition refreshCoverage : S unit :=
  let* s := the_session in
  if closed s then mok tt else let* _ := prune in expand_again.
Definition refreshFailed (e : exn) : S unit :=
  let* p := mlift (match targets with t :: _ => Ok (watch_path t) | [] => AbsolutePath.of_ "/" end) in
  reportFault p ("watch refresh failed: " +:+ exn_message e).

(** Answers whether a refresh is requested. *)
Definition handleEvent (directory : AbsolutePath) (eventType : string) (filename : option string) : S bool :=
  let* s := the_session in
  if closed s then mok false
  else
    match JsMap.get (registrations s) (AbsolutePath.value directory) with
    | None => mok false
    | Some registration =>
        let p := eventPath directory filename in
        let* relevant := mlift (match p with None => Ok true | Some q => isRelevantToAnyScope q (scopes registration) end) in
        if negb relevant then mok false
        else
          let rename := (eventType =? "rename")%string in
          let* told := λ s, match onChange host (mkEvent rename p) s.2 with (w', r) => ((s.1, w'), Ok r) end in
          let* _ := match told with Ok _ => mok tt | Err e => reportFault directory ("watch callback failed: " +:+ exn_message e) end in
          mok rename
    end.
End targets.

Definition start (targets : list WatchTarget) : S WatchCoverage := initialise (uniqueTargets targets).
End session.
Definition fresh {H} : Session H := mkSession [] [] false.

(** ** What a start may rely on

    The tree is the same throughout the start; a listing names the entries of a directory,
    in some order; a directory may be refused, and a watcher too. Closing a watcher and
    waiting do not fail. *)
Class WatchLaws {W H : Type} (host : WatchHost W H) := {
  kind_at : string → PathKind;
  children : string → list (string * bool);
  kind_law : ∀ p w, (pathKind host p w).2 = Ok (kind_at (AbsolutePath.value p));
  readdir_law : ∀ d w es, (readdir host d w).2 = Ok es → es ≡ₚ children d;
  names_law : ∀ d n b, (n, b) ∈ children d → good_name n;
  close_law : ∀ h w, (closeWatcher host h w).2 = Ok tt;
  settle_law : ∀ ms w, ∃ errors, (settle host ms w).2 = Ok errors
}.

Section coverage.
Context {W H : Type} (host : WatchHost W H) `{!WatchLaws host} (maxDirectories : Z) (persistent : bool).
Abbreviation St := (Session H * W)%type.

Inductive below : AbsolutePath → AbsolutePath → Prop :=
| below_self d : below d d
| below_in d n p x : (n, true) ∈ children (AbsolutePath.value d) → AbsolutePath.joinp d [n] = Ok p → below p x → below d x.
Definition registered (s : Session H) (d scope : AbsolutePath) : Prop :=
  ∃ r, JsMap.get (registrations s) (AbsolutePath.value d) = Some r ∧ AbsolutePath.value scope ∈ scopes r.
(** The directory is registered for a scope the path is relevant to. *)
Definition relevant (s : Session H) (d p : AbsolutePath) : Prop :=
  ∃ r, JsMap.get (registrations s) (AbsolutePath.value d) = Some r ∧ isRelevantToAnyScope p (scopes r) = Ok true.
(** The handler of an event of the directory hands it on, with the path; when the observer
    throws it reports the fault; and it asks for a refresh after a rename. *)
Definition told (s : Session H) (d : AbsolutePath) (type : string) (name : option string) (p : option AbsolutePath) : Prop :=
  ∀ w, let rename := (type =? "rename")%string in
    handleEvent host d type name (s, w)
    = match onChange host (mkEvent rename p) w with
      | (w1, Ok _) => ((s, w1), Ok rename)
      | (w1, Err e) => ((s, (onFault host (mkFault d ("watch callback failed: " +:+ exn_message e)) w1).1), Ok rename)
      end.
(** An event of an entry of a directory: the path is left out when the name has a backslash. *)
Definition entry_told (s : Session H) (d : AbsolutePath) (type name : string) (p : AbsolutePath) : Prop :=
  told s d type (Some name) (if has_char backslash name then None else Some p).

Record good (s : Session H) : Prop := {
  good_open : closed s = false;
  good_keys : NoDup (registrations s).*1;
  good_size : (Z.of_nat (length (registrations s)) ≤ maxDirectories)%Z;
  good_scopes : ∀ k r v, JsMap.get (registrations s) k = Some r → v ∈ scopes r → ∃ p, plain_path p ∧ AbsolutePath.value p = v
}.
(** A step keeps what is registered, and clears no issue. *)
Record grows (s s' : Session H) : Prop := {
  grows_good : good s';
  grows_keys : ∀ k, k ∈ (registrations s).*1 → k ∈ (registrations s').*1;
  grows_registered : ∀ d scope, registered s d scope → registered s' d scope;
  grows_issues : issues s' = [] → issues s = []
}.
Lemma grows_refl s : good s → grows s s.
Proof. by split. Qed.
Lemma grows_trans s1 s2 s3 : grows s1 s2 → grows s2 s3 → grows s1 s3.
Proof. intros [] []. split; auto. Qed.
Lemma same_registrations s s' : good s → closed s' = closed s → registrations s' = registrations s → (issues s' = [] → issues s = []) → grows s s'.
Proof. intros [] Ho E Hi. split; unfold registered; rewrite ?E; try done. split; [congruence|by rewrite E..]. Qed.

(** A computation that returns, and what it leaves. *)
Definition to {A} (m : M St A) (s : St) (Q : Session H → A → Prop) : Prop := ∃ s' w' a, m s = ((s', w'), Ok a) ∧ Q s' a.
Lemma to_seq {A B} (m : M St A) (f : A → M St B) s Q R : to m s Q → (∀ s' w' a, Q s' a → to (f a) (s', w') R) → to (mseq m f) s R.
Proof. intros (s' & w' & a & E & Hq) Hf. destruct (Hf s' w' a Hq) as (s2 & w2 & b & E2 & Hr). exists s2, w2, b. unfold mseq. by rewrite E. Qed.
Lemma to_ok {A} (a : A) s (Q : Session H → A → Prop) : Q s.1 a → to (mok a) s Q.
Proof. destruct s as [s w]. intros Hq. by exists s, w, a. Qed.
Lemma to_mono {A} (m : M St A) s (Q R : Session H → A → Prop) : to m s Q → (∀ s' a, Q s' a → R s' a) → to m s R.
Proof. intros (s' & w' & a & E & Hq) H1. exists s', w', a. auto. Qed.

Lemma to_session {A} (f : Session H → M St A) s R : to (f s.1) s R → to (let* x := the_session in f x) s R.
Proof. by destruct s. Qed.
Lemma to_local (f : Session H → Session H) s (Q : Session H → unit → Prop) : Q (f s.1) tt → to (in_local (λ s, (f s, tt))) s Q.
Proof. destruct s as [s w]. intros Hq. by exists (f s), w, tt. Qed.
Lemma to_world {A} (m : M W A) s (Q : Session H → A → Prop) a : (m s.2).2 = Ok a → Q s.1 a → to (in_world m) s Q.
Proof. destruct s as [s w]. intros E Hq. exists s, (m w).1, a. unfold in_world. cbn in *. by rewrite E. Qed.
Lemma set_issue l x : add l x ≠ [].
Proof. unfold add. destruct (str_includes l x) eqn:E; [|by destruct l]. by destruct l. Qed.
Lemma fault_to p reason s : to (reportFault host p reason) s (λ s' _, s' = s.1).
Proof.
  unfold reportFault. apply to_session. destruct (closed s.1); [by apply to_ok|]. by eapply to_world.
Qed.
Lemma issue_to p reason s : good s.1 → to (recordIssue host p reason) s (λ s' _, grows s.1 s' ∧ issues s' ≠ [] ∧ registrations s' = registrations s.1).
Proof.
  intros Hg. unfold recordIssue. apply to_session. destruct (str_includes (issues s.1) reason) eqn:E.
  - apply to_ok. split; [by apply grows_refl|]. split; [|done]. intros Hn. by rewrite Hn in E.
  - eapply to_seq; [by apply (to_local _ s (λ s' _, s' = mkSession (registrations s.1) (add (issues s.1) reason) (closed s.1)))|].
    intros s' w' _ ->. eapply to_mono; [apply fault_to|]. cbn. intros s' _ ->. split; [|split; [apply set_issue|done]].
    apply same_registrations; [done..|]. intros Hn. by apply set_issue in Hn.
Qed.

(** *** One directory *)

Abbreviation with_registration s k r := (mkSession (JsMap.set (registrations s) k r) (issues s) (closed s)).
Lemma grow_set s k r : good s →
  (∀ v, v ∈ scopes r → ∃ p, plain_path p ∧ AbsolutePath.value p = v) →
  (∀ old, JsMap.get (registrations s) k = Some old → ∀ v, v ∈ scopes old → v ∈ scopes r) →
  (JsMap.get (registrations s) k = None → (Z.of_nat (length (registrations s)) < maxDirectories)%Z) →
  grows s (with_registration s k r).
Proof.
  intros [Ho Hn Hs Hv] Hr Hold Hsize.
  assert (JsMap.has (registrations s) k = false → JsMap.get (registrations s) k = None) as Hnone.
  { intros E. destruct (JsMap.get _ k) eqn:E'; [|done]. by rewrite (proj2 (JsMap.has_get _ k)) in E. }
  split; cbn [registrations issues]; [split; cbn [registrations closed]| | |done].
  - done.
  - by apply JsMap.set_nodup.
  - rewrite <-(length_map fst (JsMap.set _ _ _)), JsMap.set_keys. destruct (JsMap.has _ k); rewrite ?length_app, length_map; [done|].
    cbn. specialize (Hsize (Hnone eq_refl)). lia.
  - intros k' r' v. rewrite JsMap.get_set. destruct (String.eqb_spec k k') as [->|]; [intros [= <-]; apply Hr|]. by apply Hv.
  - intros k'. rewrite JsMap.set_keys. destruct (JsMap.has _ k); [done|]. intros Hk. apply elem_of_app. by left.
  - intros d scope (old & Hg & Hin). unfold registered. cbn [registrations]. rewrite JsMap.get_set.
    destruct (String.eqb_spec k (AbsolutePath.value d)) as [->|]; [|by exists old]. exists r. split; [done|]. by apply (Hold old).
Qed.
Lemma add_elem l x v : v ∈ add l x ↔ v ∈ l ∨ v = x.
Proof.
  unfold add. destruct (str_includes l x) eqn:E.
  - apply str_includes_true in E. naive_solver.
  - rewrite elem_of_app, list_elem_of_singleton. done.
Qed.
Lemma try_watch_to d s : to (try_watch host persistent d) s (λ s' _, s' = s.1).
Proof.
  destruct s as [s w]. unfold to, try_watch. cbn. destruct (watchDirectory host (AbsolutePath.value d) persistent w) as [w' t].
  by exists s, w', t.
Qed.
Lemma register_to d scope s : good s.1 → plain_path scope →
  to (register host maxDirectories persistent d scope) s (λ s' b, grows s.1 s' ∧ if b then registered s' d scope else issues s' ≠ []).
Proof.
  intros Hg Hp. unfold register. apply to_session. destruct (JsMap.get (registrations s.1) (AbsolutePath.value d)) as [r|] eqn:Er.
  - eapply to_seq.
    + by apply (to_local _ s (λ s' _, s' = with_registration s.1 (AbsolutePath.value d) (mkWatched (path r) (add (scopes r) (AbsolutePath.value scope)) (watcher r)))).
    + intros s' w' _ ->. apply to_ok. split.
      * apply grow_set; [done| |by intros old; rewrite Er; intros [= <-] v Hv; apply add_elem; left|by rewrite Er].
        intros v [Hv| ->]%add_elem; [by eapply good_scopes|by exists scope].
      * eexists. cbn [registrations fst]. rewrite JsMap.get_set, String.eqb_refl. split; [done|]. apply add_elem. by right.
  - destruct (full maxDirectories s.1) eqn:Ef.
    + eapply to_seq; [by apply issue_to|]. intros s' w' _ (Hg' & Hi & _). by apply to_ok.
    + apply to_seq with (Q := λ s' _, s' = s.1).
      { apply try_watch_to. }
      intros s' w' [h|e] ->.
      * eapply to_seq; [by apply (to_local _ _ (λ s' _, s' = with_registration s.1 (AbsolutePath.value d) (mkWatched d [AbsolutePath.value scope] h)))|].
        intros s' w2 _ ->. apply to_ok. split.
        -- apply grow_set; [done| |by rewrite Er|].
           ++ intros v ->%list_elem_of_singleton. by exists scope.
           ++ intros _. unfold full in Ef. lia.
        -- eexists. cbn [registrations fst]. rewrite JsMap.get_set, String.eqb_refl. split; [done|]. by left.
      * eapply to_seq; [by apply issue_to|]. intros s' w2 _ (Hg' & Hi & _). by apply to_ok.
Qed.

(** *** A tree *)

Lemma child_path d n : plain_path d → good_name n →
  ∃ segs p, d = AbsolutePath.posix_path segs ∧ p = AbsolutePath.posix_path (segs ++ [n]) ∧ plain_path p ∧ AbsolutePath.joinp d [n] = Ok p
    ∧ slen (AbsolutePath.value d) < slen (AbsolutePath.value p) ∧ AbsolutePath.contains d p = true.
Proof.
  intros (segs & -> & Ho & Hc & Hn) [Hcn Hnn]. exists segs, (AbsolutePath.posix_path (segs ++ [n])).
  assert (segs ≠ []) as Hne by by destruct segs. assert (Forall clean_seg (segs ++ [n])) by (apply Forall_app; by split; [|constructor]).
  split_and!; [done|done| |by apply joinp_posix| |].
  - exists (segs ++ [n]). split_and!; [done|by destruct segs as [|[]]|done|]. apply Forall_app; by split; [|constructor].
  - cbn [AbsolutePath.value AbsolutePath.posix_path]. rewrite PathPattern.abs_text_app, !slen_app by done. cbn. lia.
  - apply AbsolutePath.contains_posix; [done..|by exists [n]].
Qed.
Lemma try_readdir_to d s : to (try_readdir host d) s
  (λ s' r, s' = s.1 ∧ match r with Ok es => es ≡ₚ children (AbsolutePath.value d) | Err _ => True end).
Proof.
  destruct s as [s w]. unfold to, try_readdir. cbn. pose proof (readdir_law (AbsolutePath.value d) w) as Hr.
  destruct (readdir host (AbsolutePath.value d) w) as [w' r]. exists s, w', r. split; [done|]. split; [done|]. destruct r as [es|]; [|done].
  by apply Hr.
Qed.

(** The directories above, all of them registered. *)
Record above (A : list string) (d : AbsolutePath) (s : Session H) : Prop := {
  above_nodup : NoDup A;
  above_keys : ∀ k, k ∈ A → k ∈ (registrations s).*1;
  above_shorter : ∀ k, k ∈ A → slen k < slen (AbsolutePath.value d)
}.
Lemma above_size A d s : good s → above A d s → (Z.of_nat (length A) ≤ maxDirectories)%Z.
Proof.
  intros Hg [Hn Hk _]. assert (length A ≤ length (registrations s).*1) as Hl by (apply submseteq_length, NoDup_submseteq; [done|exact Hk]).
  rewrite length_fmap in Hl. pose proof (good_size s Hg). lia.
Qed.
Definition covers_below (d scope : AbsolutePath) (s : Session H) : Prop := ∀ x, below d x → registered s x scope.
(** What a call on a directory, and the loop over entries, must achieve. *)
Definition expands (f : nat) : Prop := ∀ A d scope s, good s.1 → plain_path d → plain_path scope → above A d s.1 →
  (maxDirectories < Z.of_nat (f + length A))%Z →
  to (expandDirectory host maxDirectories persistent f d scope) s
    (λ s' _, grows s.1 s' ∧ (issues s' = [] → covers_below d scope s')).

Lemma above_grows A d s s' : above A d s → grows s s' → above A d s'.
Proof. intros [] []. split; auto. Qed.
Lemma above_child A d p s : above A d s → AbsolutePath.value d ∈ (registrations s).*1 → slen (AbsolutePath.value d) < slen (AbsolutePath.value p) →
  above (AbsolutePath.value d :: A) p s.
Proof.
  intros [Hn Hk Hs] Hd Hp. split.
  - apply NoDup_cons. split; [|done]. intros Hin. specialize (Hs _ Hin). lia.
  - intros k [->|Hk']%elem_of_cons; [done|by apply Hk].
  - intros k [->|Hk']%elem_of_cons; [done|]. specialize (Hs _ Hk'). lia.
Qed.
Lemma to_given {A B} (a : A) (f : A → M St B) s R : to (f a) s R → to (let* x := mlift (Ok a) in f x) s R.
Proof. done. Qed.

Lemma entries_to f A d scope es s : expands f → good s.1 → plain_path d → plain_path scope → above A d s.1 →
  AbsolutePath.value d ∈ (registrations s.1).*1 → (maxDirectories < Z.of_nat (f + Datatypes.S (length A)))%Z → (∀ n b, (n, b) ∈ es → good_name n) →
  to (expand_entries host maxDirectories (λ child, expandDirectory host maxDirectories persistent f child scope) d scope es) s
    (λ s' _, grows s.1 s' ∧ (issues s' = [] → ∀ n p, (n, true) ∈ es → AbsolutePath.joinp d [n] = Ok p → covers_below p scope s')).
Proof.
  intros Hf Hg Hd Hsc. revert s Hg. induction es as [|[n b] es IH]; intros s Hg Ha Hk Hlen Hes; cbn [expand_entries].
  { apply to_ok. split; [by apply grows_refl|]. by intros _ n p ?%elem_of_nil. }
  assert (∀ m c, (m, c) ∈ es → good_name m) as Hes' by (intros m c Hm; apply (Hes m c); by right).
  destruct b; cbn [negb].
  - apply to_session. destruct (full maxDirectories s.1) eqn:Ef.
    { eapply to_mono; [by apply issue_to|]. intros s' _ (Hg' & Hi & _). by split. }
    destruct (child_path d n Hd (Hes n true ltac:(by left))) as (segs & p & Ed & Ep & Hp & Hj & Hl & _). rewrite Hj. apply to_given.
    eapply to_seq; [apply (Hf (AbsolutePath.value d :: A)); [done..|by apply above_child|done]|].
    intros s1 w1 _ [Hg1 Hc1]. eapply to_mono; [apply (IH (s1, w1)); [by apply (grows_good _ _ Hg1)|by eapply above_grows|by apply (grows_keys _ _ Hg1)|done|done]|].
    cbn [fst]. intros s2 _ [Hg2 Hc2]. split; [by eapply grows_trans|]. intros Hi m q [[= ->]|Hm]%elem_of_cons Hq; [|by apply (Hc2 Hi m)].
    rewrite Hj in Hq. injection Hq as <-. intros x Hx. apply (grows_registered _ _ Hg2). apply Hc1; [by apply (grows_issues _ _ Hg2)|done].
  - eapply to_mono; [by apply IH|]. intros s' _ [Hg' Hc]. split; [done|]. intros Hi m q [Hm|Hm]%elem_of_cons; [congruence|by apply Hc].
Qed.
Lemma expand_to f : expands f.
Proof.
  induction f as [|f IH]; intros A d scope s Hg Hd Hsc Ha Hlen.
  { pose proof (above_size A d s.1 Hg Ha). cbn in Hlen. lia. }
  cbn [expandDirectory]. eapply to_seq; [by apply register_to|]. intros s1 w1 [] [Hg1 H1]; cbn [negb]; [|by apply to_ok].
  eapply to_seq; [apply try_readdir_to|]. intros s2 w2 r [-> Hr]. cbn [fst] in *. destruct r as [es|e].
  - eapply to_mono; [apply (entries_to f A d scope _ (s1, w2) IH); try done|].
    + by apply (grows_good _ _ Hg1).
    + by eapply above_grows.
    + destruct H1 as (r & Hr1 & _). apply list_elem_of_fmap. exists (AbsolutePath.value d, r). split; [done|].
      apply JsMap.get_elem; [|done]. apply (good_keys s1). by apply (grows_good _ _ Hg1).
    + cbn [fst] in *. lia.
    + intros n b Hn. apply (names_law (AbsolutePath.value d) n b). rewrite <-Hr. unfold by_name in Hn. by rewrite sort_by_perm in Hn.
    + cbn [fst]. intros s3 _ [Hg3 Hc]. split; [by eapply grows_trans|]. intros Hi x Hx. inversion Hx as [|? n p ? Hin Hj Hb]; subst.
      * by apply (grows_registered _ _ Hg3).
      * apply (Hc Hi n p); [|done..]. unfold by_name. rewrite sort_by_perm. by rewrite Hr.
  - eapply to_mono; [apply (issue_to _ _ (s1, w2)); by apply (grows_good _ _ Hg1)|]. cbn [fst]. intros s3 _ (Hg3 & Hi & _).
    split; [by eapply grows_trans|done].
Qed.

(** *** One target *)

(** A path at or above an ordinary one. *)
Definition upper (q : AbsolutePath) : Prop :=
  ∃ segs, q = AbsolutePath.posix_path segs ∧ Forall clean_seg segs ∧ Forall AbsolutePath.no_nul segs ∧ (segs = [] ∨ ordinary segs).
Lemma plain_upper p : plain_path p → upper p.
Proof. intros (segs & -> & Ho & Hc & Hn). exists segs. auto. Qed.
Lemma Forall_removelast {A} (P : A → Prop) l : Forall P l → Forall P (removelast l).
Proof. induction 1 as [|x l Hx Hl IH]; [done|]. destruct l; [done|]. by constructor. Qed.
Lemma parent_upper segs : Forall clean_seg segs → Forall AbsolutePath.no_nul segs → segs = [] ∨ ordinary segs →
  AbsolutePath.parent (AbsolutePath.posix_path segs) = Ok (AbsolutePath.posix_path (removelast segs)) ∧ upper (AbsolutePath.posix_path (removelast segs)).
Proof.
  intros Hc Hn Ho. assert (removelast segs = [] ∨ ordinary (removelast segs)) as Ho'.
  { destruct segs as [|x [|y l]]; [by left..|right]. by destruct Ho as [|Ho]; [|destruct x]. }
  split; [|exists (removelast segs); auto using Forall_removelast].
  unfold AbsolutePath.parent. rewrite AbsolutePath.segments_posix_path by done.
  destruct (removelast segs) as [|x l] eqn:E; [reflexivity|]. destruct Ho' as [|Ho']; [done|]. rewrite <-E in *.
  destruct (ordinary_text (removelast segs) Ho') as [Hd Hu]; [by apply Forall_removelast|].
  rewrite E in *. apply AbsolutePath.of_posix_text; [rewrite <-E; by apply Forall_removelast..|done|done].
Qed.
Lemma closest_to fuel q w : upper q → length (AbsolutePath.segments q) < fuel → ∃ r, (closestExistingDirectory host fuel q w).2 = Ok r.
Proof.
  revert q w. induction fuel as [|f IH]; intros q w Hq Hl; [lia|]. destruct Hq as (segs & -> & Hc & Hn & Ho).
  rewrite AbsolutePath.segments_posix_path in Hl by done. cbn [closestExistingDirectory]. unfold isDirectory. unfold mseq at 1 2.
  pose proof (kind_law (AbsolutePath.posix_path segs) w) as Hk. destruct (pathKind host _ w) as [w' k]. cbn [snd] in Hk. subst k. cbn [mok].
  destruct (bool_decide _); [by eexists|]. destruct (parent_upper segs Hc Hn Ho) as [Hp Hu]. rewrite Hp. unfold mseq, mlift.
  destruct (AbsolutePath.equals _ _) eqn:Ee; [by eexists|]. apply IH; [done|].
  rewrite AbsolutePath.segments_posix_path by (by apply Forall_removelast). destruct segs as [|x l]; [by vm_compute in Ee|].
  rewrite removelast_firstn_len, length_firstn. cbn in *. lia.
Qed.

(** The directories in which the events of a target happen are registered for it. *)
Definition covered (s : Session H) (t : WatchTarget) : Prop :=
  match kind_at (AbsolutePath.value (watch_path t)) with
  | kind_directory => if watch_recursive t then covers_below (watch_path t) (watch_path t) s else registered s (watch_path t) (watch_path t)
  | kind_file => ∃ up, AbsolutePath.parent (watch_path t) = Ok up ∧ registered s up (watch_path t)
  | kind_missing => False
  end.
Lemma covered_grows s s' t : grows s s' → covered s t → covered s' t.
Proof.
  intros Hg. unfold covered, covers_below. pose proof (grows_registered _ _ Hg) as Hr. case_match; [|case_match; auto|done].
  intros (up & Hu & Hc). exists up. auto.
Qed.
Lemma issue_added reason s : good s.1 → to (add_issue reason) s (λ s' _, grows s.1 s' ∧ issues s' ≠ []).
Proof.
  intros Hg. apply to_local. split; [|apply set_issue]. apply same_registrations; [done..|]. intros Hn. by apply set_issue in Hn.
Qed.
Lemma target_to t initial s : good s.1 → plain_path (watch_path t) →
  to (expandTarget host maxDirectories persistent t initial) s (λ s' _, grows s.1 s' ∧ (issues s' = [] → covered s' t)).
Proof.
  intros Hg Hp. unfold expandTarget. eapply to_seq; [by apply (to_world _ s (λ s' k, s' = s.1 ∧ k = kind_at (AbsolutePath.value (watch_path t))) _ (kind_law (watch_path t) s.2))|].
  intros s0 w0 k [-> ->]. destruct (plain_upper _ Hp) as (segs & Es & Hc & Hn & Ho). destruct (parent_upper segs Hc Hn Ho) as [Hpar Hup].
  rewrite <-Es in Hpar. unfold covered. destruct (kind_at _).
  - rewrite Hpar. apply to_given. eapply to_seq; [by apply (register_to _ _ (s.1, w0))|]. intros s1 w1 [] [Hg1 Hr]; apply to_ok; cbn [fst] in *; [|done].
    split; [done|]. intros _. by eexists.
  - destruct (watch_recursive t).
    + apply (expand_to (DEPTH maxDirectories) [] _ _ (s.1, w0)); [done..| |unfold DEPTH; cbn; lia]. split; [constructor|intros k; set_solver..].
    + eapply to_seq; [by apply (register_to _ _ (s.1, w0))|]. intros s1 w1 [] [Hg1 Hr]; by apply to_ok.
  - rewrite Hpar. apply to_given. destruct (closest_to (STEPS (AbsolutePath.posix_path (removelast segs))) (AbsolutePath.posix_path (removelast segs)) w0 Hup) as [r Hr];
      [unfold STEPS; lia|].
    eapply to_seq; [by apply (to_world _ (s.1, w0) (λ s' a, s' = s.1) r)|]. intros s1 w1 [a|] ->.
    + eapply to_seq; [by apply issue_added|]. intros s2 w2 _ [Hg2 Hi]. eapply to_seq; [apply (register_to _ _ (s2, w2)); [by apply (grows_good _ _ Hg2)|done]|].
      intros s3 w3 b [Hg3 _]. apply to_ok. cbn [fst] in *. split; [by eapply grows_trans|]. intros Hi3. by apply Hi, (grows_issues _ _ Hg3).
    + eapply to_seq; [by apply issue_added|]. intros s2 w2 _ [Hg2 Hi]. cbn [fst] in *. destruct initial; [by apply to_ok|].
      eapply to_mono; [apply fault_to|]. cbn [fst]. intros s3 _ ->. by split.
Qed.

(** *** The start *)

Lemma to_each {A} (f : A → M St unit) (l : list A) (Q : Session H → A → Prop) s : good s.1 →
  (∀ x s, x ∈ l → good s.1 → to (f x) s (λ s' _, grows s.1 s' ∧ Q s' x)) → (∀ x s s', grows s s' → Q s x → Q s' x) →
  to (for_each f l) s (λ s' _, grows s.1 s' ∧ ∀ x, x ∈ l → Q s' x).
Proof.
  intros Hg Hf Hmono. unfold for_each. revert s Hg Hf. induction l as [|x l IH]; intros s Hg Hf; cbn [mfold].
  { apply to_ok. split; [by apply grows_refl|]. by intros x ?%elem_of_nil. }
  eapply to_seq; [apply (Hf x); [by left|done]|]. intros s1 w1 [] [Hg1 Hq]. cbn [fst] in *.
  eapply to_mono; [apply (IH (s1, w1)); [by apply (grows_good _ _ Hg1)|intros y s2 Hy; apply Hf; by right]|]. cbn [fst].
  intros s2 _ [Hg2 Hqs]. split; [by eapply grows_trans|]. intros y [->|Hy]%elem_of_cons; [by eapply Hmono|by apply Hqs].
Qed.
Lemma failed_to d h message s : good s.1 → to (watcherFailed host d h message) s (λ s' _, good s' ∧ issues s' ≠ []).
Proof.
  intros Hg. unfold watcherFailed. eapply to_seq; [by apply (to_world _ s (λ s' _, s' = s.1) tt (close_law h s.2))|]. intros s1 w1 _ ->.
  apply to_session. cbn [fst]. set (s2 := mkSession (JsMap.delete (registrations s.1) (AbsolutePath.value d)) (issues s.1) (closed s.1)).
  eapply to_seq; [by apply (to_local _ _ (λ s' _, s' = s2))|]. intros s3 w3 _ ->. assert (good s2) as Hg2.
  { destruct Hg as [Ho Hn Hs Hv]. unfold s2. split; cbn [registrations closed].
    - done.
    - by apply JsMap.delete_nodup.
    - pose proof (filter_length_le (λ kv, negb (kv.1 =? AbsolutePath.value d)%string) (registrations s.1)). unfold JsMap.delete. lia.
    - intros k r v. rewrite JsMap.get_delete. destruct (_ =? _)%string; [done|]. apply Hv. }
  eapply to_mono; [by apply (issue_to _ _ (s2, w3))|]. intros s' _ (Hg' & Hi & _). split; [by apply (grows_good _ _ Hg')|done].
Qed.
Lemma errors_to errors s : good s.1 →
  to (for_each (λ e, watcherFailed host e.1.1 e.1.2 e.2) errors) s (λ s' _, good s' ∧ (issues s' = [] → s' = s.1)).
Proof.
  intros Hg. unfold for_each. assert (∀ l s, good s.1 → issues s.1 ≠ [] →
    to (mfold (λ _ e, watcherFailed host e.1.1 e.1.2 e.2) tt l) s (λ s' _, good s' ∧ issues s' ≠ [])) as Hloop.
  { clear s Hg. induction l as [|e l IH]; intros s Hg Hi; cbn [mfold]; [by apply to_ok|].
    eapply to_seq; [by apply failed_to|]. intros s1 w1 [] [Hg1 Hi1]. by apply (IH (s1, w1)). }
  destruct errors as [|e errors]; cbn [mfold]; [by apply to_ok|]. eapply to_seq; [by apply failed_to|]. intros s1 w1 [] [Hg1 Hi1].
  eapply to_mono; [by apply (Hloop errors (s1, w1))|]. by intros s' _ [Hg' Hi'].
Qed.
Lemma good_fresh : (0 ≤ maxDirectories)%Z → good fresh.
Proof. split; cbn; [done|constructor|lia|done]. Qed.
Lemma initialise_to targets w : (0 ≤ maxDirectories)%Z → Forall (λ t, plain_path (watch_path t)) targets →
  to (initialise host maxDirectories persistent targets) (fresh, w)
    (λ s c, good s ∧ c = coverage_of targets s ∧ (issues s = [] → targets ≠ [] ∧ ∀ t, t ∈ targets → covered s t)).
Proof.
  intros Hm Ht. unfold initialise. apply to_seq with (Q := λ s _, good s ∧ (issues s = [] → targets ≠ [])).
  { destruct targets as [|t targets]; cbn [length Nat.eqb].
    - eapply to_mono; [by apply issue_added, good_fresh|]. intros s _ [Hg Hi]. split; [by apply (grows_good _ _ Hg)|done].
    - apply to_ok. split; [by apply good_fresh|done]. }
  intros s1 w1 _ [Hg1 Hne].
  eapply to_seq; [apply (to_each _ _ (λ s t, issues s = [] → covered s t) (s1, w1)); [done| |]|].
  - intros t s Hin Hg. apply target_to; [done|]. rewrite Forall_forall in Ht. by apply Ht.
  - intros t s s' Hg Hq Hi. eapply covered_grows; [done|]. apply Hq. by apply (grows_issues _ _ Hg).
  - cbn [fst]. intros s2 w2 _ [Hg2 Hc]. destruct (settle_law WATCH_STARTUP_SETTLE_MS w2) as [errors He].
    eapply to_seq; [by apply (to_world _ (s2, w2) (λ s' a, s' = s2 ∧ a = errors) errors)|]. intros s3 w3 a [-> ->].
    eapply to_seq; [apply (errors_to errors (s2, w3)); by apply (grows_good _ _ Hg2)|]. cbn [fst]. intros s4 w4 _ [Hg4 Hi4].
    apply to_session, to_ok. cbn [fst]. split; [done|]. split; [done|]. intros Hi. specialize (Hi4 Hi) as ->. split.
    + apply Hne. by apply (grows_issues _ _ Hg2).
    + intros t Hin. by apply Hc.
Qed.

(** *** Events *)

Lemma plain_wf p : plain_path p → AbsolutePath.posix_wf p.
Proof. intros (segs & -> & _ & Hc & Hn). by exists segs. Qed.
Lemma plain_trans p q r : plain_path p → plain_path q → plain_path r →
  AbsolutePath.contains p q = true → AbsolutePath.contains q r = true → AbsolutePath.contains p r = true.
Proof. intros Hp%plain_wf Hq%plain_wf Hr%plain_wf. by apply ResourceRef.contains_trans. Qed.
Lemma child_contained d n p : plain_path d → good_name n → AbsolutePath.joinp d [n] = Ok p → plain_path p ∧ AbsolutePath.contains d p = true.
Proof.
  intros Hd Hn Hj. destruct (child_path d n Hd Hn) as (segs & q & _ & _ & Hq & Hj' & _ & Hc). rewrite Hj in Hj'. injection Hj' as ->.
  by split.
Qed.
Lemma below_contained t x : below t x → plain_path t → plain_path x ∧ AbsolutePath.contains t x = true.
Proof.
  induction 1 as [d|d n p x Hin Hj _ IH]; intros Hp; [split; [done|apply AbsolutePath.contains_refl]|].
  destruct (child_contained d n p Hp (names_law _ _ _ Hin) Hj) as [Hq Hc]. destruct (IH Hq) as [Hx Hc']. split; [done|].
  by apply (plain_trans d p x).
Qed.
Lemma relevant_scope p (v : AbsolutePath) l : (∀ u, u ∈ l → ∃ q, plain_path q ∧ AbsolutePath.value q = u) → plain_path v →
  AbsolutePath.value v ∈ l → AbsolutePath.contains v p = true → isRelevantToAnyScope p l = Ok true.
Proof.
  intros Hl Hv Hin Hc. induction l as [|u l IH]; [by apply elem_of_nil in Hin|]. cbn [isRelevantToAnyScope].
  destruct (Hl u ltac:(by left)) as (q & Hq & <-). rewrite (plain_read q Hq). cbn [rbind].
  destruct (_ || _) eqn:E; [done|]. apply IH; [intros u' Hu; apply Hl; by right|]. apply elem_of_cons in Hin as [Hin|]; [|done].
  apply (f_equal AbsolutePath.of_) in Hin. rewrite !plain_read in Hin by done. injection Hin as <-. by rewrite Hc in E.
Qed.
Lemma registered_relevant s d scope p : good s → plain_path scope → registered s d scope → AbsolutePath.contains scope p = true → relevant s d p.
Proof.
  intros Hg Hs (r & Hr & Hin) Hc. exists r. split; [done|]. eapply relevant_scope; [|exact Hs|done|done].
  intros u Hu. by eapply (good_scopes s Hg).
Qed.

(** The same path may be asked for twice: it is watched for both. *)
Lemma unique_spec targets t : t ∈ targets → ∃ t', t' ∈ uniqueTargets targets ∧ AbsolutePath.value (watch_path t') = AbsolutePath.value (watch_path t)
  ∧ (watch_recursive t = true → watch_recursive t' = true).
Proof.
  unfold uniqueTargets. set (step := λ _ _, _).
  enough (∀ l m, NoDup m.*1 → NoDup (fold_left step l m).*1 ∧ ∀ t, (∃ t', JsMap.get m (AbsolutePath.value (watch_path t)) = Some t'
      ∧ AbsolutePath.value (watch_path t') = AbsolutePath.value (watch_path t) ∧ (watch_recursive t = true → watch_recursive t' = true)) ∨ t ∈ l →
    ∃ t', JsMap.get (fold_left step l m) (AbsolutePath.value (watch_path t)) = Some t'
      ∧ AbsolutePath.value (watch_path t') = AbsolutePath.value (watch_path t) ∧ (watch_recursive t = true → watch_recursive t' = true)) as Hall.
  { intros Hin. destruct (Hall targets [] ltac:(constructor)) as [Hn Hg]. destruct (Hg t (or_intror Hin)) as (t' & Ht & Hv & Hr). exists t'.
    split; [|done]. apply JsMap.elem_of_values. exists (AbsolutePath.value (watch_path t)). by apply JsMap.get_elem. }
  clear. induction l as [|u l IH]; intros m Hm; cbn [fold_left].
  { split; [done|]. intros t [Ht|Ht%elem_of_nil]; done. }
  destruct (IH (step m u)) as [Hn Hg]; [by apply JsMap.set_nodup|]. split; [done|]. intros t Ht. apply Hg.
  destruct Ht as [(t' & Hg' & Hv & Hr)|[->|Ht]%elem_of_cons]; [left|left|by right]; unfold step; rewrite JsMap.get_set.
  - destruct (String.eqb_spec (AbsolutePath.value (watch_path u)) (AbsolutePath.value (watch_path t))) as [E|E]; [|by exists t'].
    eexists. split; [done|]. split; [done|]. cbn [watch_recursive]. intros Ht. by rewrite E, Hg', Hr.
  - rewrite String.eqb_refl. eexists. split; [done|]. split; [done|]. cbn [watch_recursive]. intros ->. by rewrite orb_true_r.
Qed.
Lemma unique_plain targets : Forall (λ t, plain_path (watch_path t)) targets → Forall (λ t, plain_path (watch_path t)) (uniqueTargets targets).
Proof.
  unfold uniqueTargets. set (step := λ _ _, _). intros Ht.
  enough (∀ m : list (string * WatchTarget), NoDup m.*1 → (∀ k t, JsMap.get m k = Some t → plain_path (watch_path t)) →
    NoDup (fold_left step targets m).*1 ∧ ∀ k t, JsMap.get (fold_left step targets m) k = Some t → plain_path (watch_path t)) as Hall.
  { destruct (Hall [] ltac:(constructor) ltac:(done)) as [Hn Hg]. apply Forall_forall. intros t (k & Hin)%JsMap.elem_of_values. apply (Hg k).
    by apply JsMap.get_elem. }
  induction Ht as [|u l Hu _ IH]; intros m Hm Hp; cbn [fold_left]; [done|]. apply IH; [by apply JsMap.set_nodup|]. intros k t. unfold step.
  rewrite JsMap.get_set. destruct (_ =? k)%string; [intros [= <-]; done|apply Hp].
Qed.

(** A handler of an open session whose directory is registered. *)
Lemma handle_told s d type name p r : closed s = false → JsMap.get (registrations s) (AbsolutePath.value d) = Some r → eventPath d name = p →
  match p with None => True | Some q => isRelevantToAnyScope q (scopes r) = Ok true end → told s d type name p.
Proof.
  intros Hopen Hr Hp Hrel w. unfold handleEvent, the_session, in_local, mseq, mlift. cbn [fst snd]. rewrite Hopen, Hr, Hp.
  assert (match p with None => Ok true | Some q => isRelevantToAnyScope q (scopes r) end = Ok true) as -> by by destruct p. cbn.
  destruct (onChange host _ w) as [w1 [u|e]]; cbn; [done|].
  unfold reportFault, the_session, in_local, mseq, in_world, quietly. cbn. by rewrite Hopen.
Qed.
Lemma named_path d n p : good_name n → AbsolutePath.joinp d [n] = Ok p →
  eventPath d (Some n) = if has_char backslash n then None else Some p.
Proof.
  intros [[Hs Hne] Hn] Hj. unfold eventPath, odd_name. rewrite Hj. cbn [catch_null].
  rewrite Hs, (Hn : has_char nul n = false), !orb_false_r. destruct n; [naive_solver|done].
Qed.
Lemma registered_told s d scope type : good s → registered s d scope → told s d type None None.
Proof. intros Hg (r & Hr & _). eapply handle_told; [by apply good_open|done..]. Qed.
Lemma entry_handed s d scope type n p : good s → plain_path scope → registered s d scope → AbsolutePath.contains scope p = true →
  good_name n → AbsolutePath.joinp d [n] = Ok p → entry_told s d type n p.
Proof.
  intros Hg Hs Hreg Hc Hn Hj. destruct (registered_relevant s d scope p Hg Hs Hreg Hc) as (r & Hr & Hrel).
  eapply handle_told; [by apply good_open|done|by apply named_path|]. by destruct (has_char backslash n).
Qed.

(** The events of a target are handed on, by the handler of the directory they happen in. *)
Definition heard (s : Session H) (t : WatchTarget) : Prop :=
  match kind_at (AbsolutePath.value (watch_path t)) with
  | kind_directory => ∀ x type, (if watch_recursive t then below (watch_path t) x else x = watch_path t) →
      told s x type None None ∧ ∀ n p, good_name n → AbsolutePath.joinp x [n] = Ok p → entry_told s x type n p
  | kind_file => ∃ up, AbsolutePath.parent (watch_path t) = Ok up
      ∧ ∀ type, told s up type None None ∧ ∀ n, good_name n → AbsolutePath.joinp up [n] = Ok (watch_path t) → entry_told s up type n (watch_path t)
  | kind_missing => False
  end.
Lemma covered_heard s t t' : good s → plain_path (watch_path t) → watch_path t' = watch_path t → (watch_recursive t = true → watch_recursive t' = true) →
  covered s t' → heard s t.
Proof.
  intros Hg Hp E Hr. unfold covered, heard. rewrite E. destruct (kind_at _); [|intros Hc x type Hx|done].
  - intros (up & Hup & Hreg). exists up. split; [done|]. intros type. split; [by eapply registered_told|]. intros n Hn Hj.
    eapply entry_handed; [done|exact Hp|done|apply AbsolutePath.contains_refl|done..].
  - assert (below (watch_path t) x) as Hb by (destruct (watch_recursive t); [done|subst x; constructor]).
    destruct (below_contained _ _ Hb Hp) as [Hxp Hxc].
    assert (registered s x (watch_path t)) as Hreg.
    { destruct (watch_recursive t'); [by apply Hc|]. destruct (watch_recursive t); [by specialize (Hr eq_refl)|by subst x]. }
    split; [by eapply registered_told|]. intros n p Hn Hj. destruct (child_contained x n p Hxp Hn Hj) as [Hpp Hpc].
    eapply entry_handed; [done|exact Hp|done|by eapply (plain_trans _ x)|done..].
Qed.
(** C14. What a watch session reports of its coverage is so. The start returns, whatever directories and watchers are refused to it, with no more
    watchers than the limit. It reports a failure exactly when nothing is watched; and a report of protection means that every target is there
    and that, in the session it leaves, the handler hands on every event about a target: of the directory that holds a file, about that file;
    of a directory, and of every directory below one that is to be watched with its tree, about any entry. The observer is called with the
    entry's path (without one where the watcher names none, or names one with a backslash), a refresh is asked for after a rename, and an
    observer that throws is reported as a fault. The tree is taken to stay the same during the start, and the session is not closed yet. *)
Theorem coverage_honest targets w : (0 ≤ maxDirectories)%Z → Forall (λ t, plain_path (watch_path t)) targets →
  ∃ s w' c, start host maxDirectories persistent targets (fresh, w) = ((s, w'), Ok c)
  ∧ watchedDirectories c = length (registrations s) ∧ (Z.of_nat (watchedDirectories c) ≤ maxDirectories)%Z
  ∧ reasons c = issues s
  ∧ (coverage_status c = coverage_failed ↔ registrations s = [])
  ∧ (coverage_status c = coverage_protected → targets ≠ [] ∧ ∀ t, t ∈ targets → heard s t).
Proof.
  intros Hm Ht. pose proof (unique_plain targets Ht) as Hu. destruct (initialise_to (uniqueTargets targets) w Hm Hu) as (s & w' & c & E & Hg & -> & Hi).
  exists s, w', (coverage_of (uniqueTargets targets) s). split_and!; [exact E|done|by apply (good_size s Hg)|done| |].
  - unfold coverage_of. cbn. destruct (registrations s) as [|r rs]; cbn [length Nat.eqb]; [done|].
    split; [|done]. by destruct (issues s).
  - unfold coverage_of. cbn. destruct (length (registrations s) =? 0); [done|]. destruct (issues s) as [|i is_]; [|done]. intros _.
    destruct (Hi eq_refl) as [Hne Hc]. split; [by intros ->|]. intros t Hin. destruct (unique_spec targets t Hin) as (t' & Hin' & Hv & Hr).
    rewrite Forall_forall in Ht, Hu. apply (covered_heard s t t'); [done|by apply Ht| |done|by apply Hc].
    apply (f_equal AbsolutePath.of_) in Hv. rewrite !plain_read in Hv by auto. by injection Hv.
Qed.
End coverage.
End NodeWatchService.

(** ** A small home directory

    The world is the list of the directories with an open watcher. *)

Module SampleWatch.
Import NodeWatchService.
Definition at_ (l : list string) : AbsolutePath := AbsolutePath.posix_path ("home" :: "u" :: l).
Definition children_of (d : string) : list (string * bool) :=
  if (d =? "/home/u/.git")%string then [("hooks", true); ("config", false)]
  else if (d =? "/home/u/.git/hooks")%string then [("sub", true); ("pre-push", false)] else [].
Definition kind_of (p : string) : PathKind :=
  if str_includes ["/home/u"; "/home/u/.git"; "/home/u/.git/hooks"; "/home/u/.git/hooks/sub"] p then kind_directory
  else if (p =? "/home/u/.zshrc")%string then kind_file else kind_missing.
Definition host (refused : string) : WatchHost (list string) string :=
  mkWatchHost (list string) string
    (λ p w, (w, Ok (bool_decide (kind_of (AbsolutePath.value p) = kind_directory), bool_decide (kind_of (AbsolutePath.value p) = kind_file))))
    (λ d w, (w, Ok (children_of d)))
    (λ d _ w, if (d =? refused)%string then (w, throw "EMFILE") else (w ++ [d], Ok d))
    (λ h w, (bfilter (λ d, negb (d =? h)%string) w, Ok tt)) (λ _ w, (w, Ok [])) (λ _ w, (w, Ok tt)) (λ _ w, (w, throw "observer gone")) String.leb.
#[global] Instance laws refused : WatchLaws (host refused).
Proof.
  refine {| kind_at := kind_of; children := children_of |}.
  - intros p w. unfold pathKind. cbn. by destruct (kind_of (AbsolutePath.value p)).
  - by intros d w es [= <-].
  - intros d n b. unfold children_of. repeat case_match; intros Hin; repeat (apply elem_of_cons in Hin as [[= -> _]|Hin]);
      try (by apply elem_of_nil in Hin); apply plain_good; vm_compute; (reflexivity || lia).
  - done.
  - intros ms w. by exists [].
Defined.
Definition targets_ : list BaselineCollector.WatchTarget :=
  [BaselineCollector.mkWatchTarget (at_ [".zshrc"]) false; BaselineCollector.mkWatchTarget (at_ [".git"]) false; BaselineCollector.mkWatchTarget (at_ [".git"]) true].
Definition started (refused : string) (limit : Z) (ts : list BaselineCollector.WatchTarget) : (Session string * list string) * result WatchCoverage :=
  start (host refused) limit true ts (fresh, []).

Example all_watched : start (host "") 8 true targets_ (fresh, []) =
  ((mkSession [("/home/u", mkWatched (at_ []) ["/home/u/.zshrc"] "/home/u"); ("/home/u/.git", mkWatched (at_ [".git"]) ["/home/u/.git"] "/home/u/.git");
               ("/home/u/.git/hooks", mkWatched (at_ [".git"; "hooks"]) ["/home/u/.git"] "/home/u/.git/hooks");
               ("/home/u/.git/hooks/sub", mkWatched (at_ [".git"; "hooks"; "sub"]) ["/home/u/.git"] "/home/u/.git/hooks/sub")] [] false,
    ["/home/u"; "/home/u/.git"; "/home/u/.git/hooks"; "/home/u/.git/hooks/sub"]), Ok (mkCoverage coverage_protected 2 4 [])).
Proof. vm_compute. reflexivity. Qed.
(** A refused watcher, a limit and a missing target are told. *)
Example shortfalls : map (λ x : (Session string * list string) * result WatchCoverage, rmap coverage_status x.2)
    [started "/home/u/.git/hooks" 8 targets_; started "" 2 targets_; started "" 8 [BaselineCollector.mkWatchTarget (at_ [".none"]) true]; started "" 8 []]
  = [Ok coverage_degraded; Ok coverage_degraded; Ok coverage_degraded; Ok coverage_failed].
Proof. vm_compute. reflexivity. Qed.
(** [close] between two steps of a refresh: the rest of the refresh watches the directories again, for a session that is closed and will not
    be closed again. *)
Definition session_ : Session string * list string := Eval vm_compute in (started "" 8 targets_).1.
Example closed_session_watches :
  let s := ((let* _ := prune (host "") in let* _ := close (host "") in expand_again (host "") 8 true (uniqueTargets targets_)) session_).1 in
  closed s.1 = true ∧ s.2 = ["/home/u"; "/home/u/.git"; "/home/u/.git/hooks"; "/home/u/.git/hooks/sub"]
  ∧ (close (host "") s).1 = s.
Proof. vm_compute. split_and!; reflexivity. Qed.
Lemma targets_plain : Forall (λ t, plain_path (BaselineCollector.watch_path t)) targets_.
Proof. repeat constructor; eexists; (split; [reflexivity|]); repeat constructor; done. Qed.
Lemma start_protected s w' c : start (host "") 8 true targets_ (fresh, []) = ((s, w'), Ok c) → coverage_status c = coverage_protected.
Proof. intros E. rewrite all_watched in E. by injection E as _ _ <-. Qed.
End SampleWatch.

Lemma coverage_honest_witness : ∃ s : NodeWatchService.Session string,
  NodeWatchService.heard (SampleWatch.host "") s (BaselineCollector.mkWatchTarget (SampleWatch.at_ [".git"]) true).
Proof.
  destruct (NodeWatchService.coverage_honest (SampleWatch.host "") 8 true SampleWatch.targets_ [] ltac:(lia) SampleWatch.targets_plain)
    as (s & w' & c & E & _ & _ & _ & _ & H).
  exact (ex_intro _ s (proj2 (H (SampleWatch.start_protected s w' c E)) _ (list_elem_of_further _ _ _ (list_elem_of_further _ _ _ (list_elem_of_here _ _))))).
Defined.
