(* ===== verification/WindowsPaths.v ===== *)
(** * Paths on a drive of Windows (AbsolutePath.ts, PathPattern.ts)

    The canonical form of a path on a drive is the letter, a colon and the text of a
    POSIX path in lower case. Containment, segments and patterns agree with those of the
    POSIX path; joining names goes through [path.win32] and appends them in lower case. *)

From S2P Require Import Prelude JsString NodePath Paths Patterns.

Module WindowsPath.
Import AbsolutePath.

(** ** Canonical paths *)

Definition drive_path (d : ascii) (segs : list string) : AbsolutePath :=
  mkPath (String d (String colon (abs_text segs))) windows_drive (String d ":/").
(** A name that may be given, and one that is canonical. *)
Definition name (s : string) : Prop := clean_seg s ∧ has_char backslash s = false ∧ no_nul s.
Definition seg (s : string) : Prop := name s ∧ toLowerCase s = s.
Definition drive_wf (p : AbsolutePath) : Prop :=
  ∃ d segs, p = drive_path d segs ∧ is_upper d = true ∧ Forall seg segs.

Lemma seg_clean segs : Forall seg segs → Forall clean_seg segs.
Proof. intros H. eapply Forall_impl; [exact H|]. by intros s [[? _] _]. Qed.
Lemma name_clean names : Forall name names → Forall clean_seg names.
Proof. intros H. eapply Forall_impl; [exact H|]. by intros s [? _]. Qed.
Lemma seg_name segs : Forall seg segs → Forall name segs.
Proof. intros H. eapply Forall_impl; [exact H|]. by intros s [? _]. Qed.

(** ** The relations are those of POSIX paths *)

Lemma eqb_cons c s t : (String c s =? String c t)%string = (s =? t)%string.
Proof. cbn. by rewrite Ascii.eqb_refl. Qed.
Lemma startsWith_cons c s t : startsWith (String c s) (String c t) = startsWith s t.
Proof.
  apply eq_iff_eq_true. rewrite !startsWith_true. split; intros [u E]; exists u; cbn in *; congruence.
Qed.

Lemma contains_drive d e a b :
  contains (drive_path d a) (drive_path e b) = bool_decide (d = e) && contains (posix_path a) (posix_path b).
Proof.
  unfold contains, drive_path, posix_path. cbn [flavour root value]. rewrite bool_decide_true by done. cbn [negb].
  case_bool_decide as Hd; [subst e|].
  - rewrite String.eqb_refl. cbn [negb andb]. change (String d ":/") with (String d (String colon "/")). rewrite !eqb_cons.
    change (String d (String colon (abs_text a)) +:+ "/") with (String d (String colon (abs_text a +:+ "/"))).
    by rewrite !startsWith_cons.
  - replace (String d ":/" =? String e ":/")%string with false; [done|]. symmetry. apply String.eqb_neq. congruence.
Qed.
Lemma equals_drive d e a b :
  equals (drive_path d a) (drive_path e b) = bool_decide (d = e) && equals (posix_path a) (posix_path b).
Proof.
  unfold equals, drive_path, posix_path. cbn [flavour root value]. rewrite bool_decide_true by done. cbn [andb].
  case_bool_decide as Hd; [subst e; by rewrite !eqb_cons|]. apply String.eqb_neq. congruence.
Qed.
Lemma segments_drive d a : segments (drive_path d a) = segments (posix_path a).
Proof.
  unfold segments, drive_path, posix_path. cbn [root value]. change (String d ":/") with (String d (String colon "/")).
  rewrite !eqb_cons. unfold endsWith. by case_if.
Qed.

Section relations.
Context (d : ascii) (a b : list string) (Ha : Forall seg a) (Hb : Forall seg b).
Lemma contains_prefix e : contains (drive_path d a) (drive_path e b) = true ↔ d = e ∧ a `prefix_of` b.
Proof. rewrite contains_drive, andb_true_iff, bool_decide_eq_true, contains_posix by by apply seg_clean. done. Qed.
Lemma equals_same e : equals (drive_path d a) (drive_path e b) = true ↔ d = e ∧ a = b.
Proof. rewrite equals_drive, andb_true_iff, bool_decide_eq_true, equals_posix by by apply seg_clean. done. Qed.
End relations.

Lemma drive_contains_trans p q r : drive_wf p → drive_wf q → drive_wf r → contains p q = true → contains q r = true → contains p r = true.
Proof.
  intros (d & a & -> & _ & Ha) (e & b & -> & _ & Hb) (f & c & -> & _ & Hc).
  rewrite !contains_prefix by done. intros [-> ?] [-> ?]. split; [done|by etrans].
Qed.
Lemma equals_eq p q : drive_wf p → drive_wf q → equals p q = true → p = q.
Proof. intros (d & a & -> & _ & Ha) (e & b & -> & _ & Hb). by intros [-> ->]%equals_same. Qed.
(** Two ancestors of a path are comparable. *)
Lemma contains_total p q r : drive_wf p → drive_wf q → drive_wf r → contains p r = true → contains q r = true →
  contains p q || contains q p = true.
Proof.
  intros (d & a & -> & _ & Ha) (e & b & -> & _ & Hb) (f & c & -> & _ & Hc).
  rewrite !contains_prefix by done. intros [-> H1] [-> H2]. apply orb_true_iff.
  destruct (prefix_weak_total a b c H1 H2); [left|right]; by apply contains_prefix.
Qed.

(** ** Joining *)

Lemma lower_char c x : lower x = x → (∀ y, lower y = x → y = x) → Ascii.eqb (lower c) x = Ascii.eqb c x.
Proof.
  intros Hx Hy. destruct (Ascii.eqb_spec c x) as [->|Hn]; [by rewrite Hx, Ascii.eqb_refl|].
  apply Ascii.eqb_neq. intros H. by apply Hy in H.
Qed.
Lemma lower_slash c : Ascii.eqb (lower c) slash = Ascii.eqb c slash.
Proof. by destruct c as [[] [] [] [] [] [] [] []]. Qed.
Lemma has_slash_lower s : has_char slash (toLowerCase s) = has_char slash s.
Proof. induction s as [|c s IH]; [done|]. cbn. by rewrite lower_slash, IH. Qed.
Lemma lower_dot c : lower c = "."%char → c = "."%char.
Proof. by destruct c as [[] [] [] [] [] [] [] []]. Qed.
Lemma clean_lower s : clean_seg s → clean_seg (toLowerCase s).
Proof.
  intros (H1 & H2 & H3 & H4). split; [by rewrite has_slash_lower|]. split_and!.
  - by destruct s.
  - destruct s as [|c []]; [done| |done]. intros [= ->%lower_dot]. done.
  - destruct s as [|c [|x []]]; [done|done| |done]. intros [= ->%lower_dot ->%lower_dot]. done.
Qed.
Lemma clean_lower_all names : Forall clean_seg names → Forall clean_seg (map toLowerCase names).
Proof. intros H. apply Forall_map. eapply Forall_impl; [exact H|]. exact clean_lower. Qed.

Lemma lower_absent c s : (∀ x, lower x = c → x = c) → has_char c s = false → has_char c (toLowerCase s) = false.
Proof.
  intros Hc. induction s as [|x s IH]; [done|]. cbn. intros Hx. bool_prop. apply orb_false_iff. split; [|by apply IH].
  apply Ascii.eqb_neq. intros E%Hc. subst x. by rewrite Ascii.eqb_refl in *.
Qed.
(** A name in lower case is canonical. *)
Lemma seg_lower n : name n → seg (toLowerCase n).
Proof.
  intros (Hc & Hb & Hn). split; [|apply toLowerCase_idem]. split; [by apply clean_lower|].
  split; apply lower_absent; try done; intros x; by destruct x as [[] [] [] [] [] [] [] []].
Qed.

Lemma smap_join f sep l : smap f (join sep l) = join (smap f sep) (map (smap f) l).
Proof.
  induction l as [|x l IH]; [done|]. destruct l as [|y l]; [done|].
  cbn [map] in *. rewrite (join_cons sep x), (join_cons (smap f sep)) by done. by rewrite !smap_app, IH.
Qed.
Lemma replace_absent x y s : has_char x s = false → replace_char x y s = s.
Proof.
  intros H. unfold replace_char. apply smap_id. induction s as [|c s IH]; [done|]. cbn in *. bool_prop. rewrite IH by done.
  by rewrite H, Ascii.eqb_refl.
Qed.
Lemma map_same {A} (f : A → A) (P : A → Prop) l : (∀ x, P x → f x = x) → Forall P l → map f l = l.
Proof. intros Hf. induction 1 as [|x l Hx Hl IH]; [done|]. cbn. by rewrite Hf, IH. Qed.

(** The native text of a path. *)
Definition native_text (d : ascii) (segs : list string) : string := String d (String colon (win32.bs +:+ join win32.bs segs)).
Lemma native_value d segs : Forall seg segs → replace_char slash backslash (value (drive_path d segs)) = String (if Ascii.eqb d slash then backslash else d) (String colon (win32.bs +:+ join win32.bs segs)).
Proof.
  intros Hs. unfold drive_path, abs_text, replace_char. cbn. do 3 f_equal. rewrite smap_join. cbn. f_equal.
  eapply map_same; [|exact Hs]. intros s [[[H _] _] _]. by apply (replace_absent slash backslash).
Qed.
Lemma upper_not_slash d : is_upper d = true → Ascii.eqb d slash = false ∧ Ascii.eqb d backslash = false.
Proof. by destruct d as [[] [] [] [] [] [] [] []]. Qed.
Lemma native_drive d segs : is_upper d = true → Forall seg segs →
  replace_char slash backslash (value (drive_path d segs)) = native_text d segs.
Proof. intros Hd Hs. rewrite native_value by done. by destruct (upper_not_slash d Hd) as [-> _]. Qed.

Lemma clean_join_bs l : l ≠ [] → Forall name l → ∃ t c, join win32.bs l = t +:+ str1 c ∧ win32.is_sep c = false.
Proof.
  intros Hl Hf. induction Hf as [|w l [(Hw & Hn & _) [Hb _]] Hf IH]; [done|]. destruct l as [|x l].
  - destruct (string_snoc_cases w) as [->|(t & c & ->)]; [done|]. exists t, c. split; [done|].
    rewrite has_char_app in Hw, Hb. bool_prop. cbn in *. bool_prop. unfold win32.is_sep. apply orb_false_iff. by split.
  - destruct IH as (t & c & E & Hc); [done|]. exists (w +:+ win32.bs +:+ t), c. split; [|done]. by rewrite join_cons, E, !sapp_assoc by done.
Qed.
Lemma join_bs_nonempty l : l ≠ [] → Forall name l → (join win32.bs l =? "")%string = false.
Proof. intros Hl Hf. destruct (clean_join_bs l Hl Hf) as (t & c & -> & _). by destruct t. Qed.
Lemma split_bs l : l ≠ [] → Forall name l → split backslash (join win32.bs l) = l.
Proof. intros Hl Hf. apply split_join; [done|]. eapply Forall_impl; [exact Hf|]. by intros s [_ [? _]]. Qed.
Lemma native_join l : Forall name l → win32.native (join win32.bs l) = join win32.bs l.
Proof.
  intros Hf. unfold win32.native, replace_char. rewrite smap_join. cbn. f_equal.
  eapply (map_same _ name); [|exact Hf]. intros s [[H _] _]. by apply (replace_absent slash backslash).
Qed.

Section drive.
Context (d : ascii) (Hd : is_upper d = true).
Lemma drive_letter : win32.is_letter d = true ∧ win32.is_sep d = false ∧ upper (lower d) = str1 d ∧ Ascii.eqb d slash = false ∧ Ascii.eqb d backslash = false ∧ Ascii.eqb d nul = false.
Proof. revert Hd. by destruct d as [[] [] [] [] [] [] [] []]. Qed.
Lemma device_drive rest : win32.device (String d (String colon (win32.bs +:+ rest))) = (Some (String d ":"), true, rest).
Proof. destruct drive_letter as (Hl & Hs & _). unfold win32.device. rewrite Hs, Hl. done. Qed.

(** Normalising a native text whose tail splits into clean names. *)
Lemma normalize_drive rest l : l ≠ [] → Forall name l →
  normalizeString false [] (split backslash (win32.native rest)) = l →
  last_is win32.is_sep (String d (String colon (win32.bs +:+ rest))) = false →
  win32.normalize (String d (String colon (win32.bs +:+ rest))) = native_text d l.
Proof.
  intros Hl Hf Hn Hlast. unfold win32.normalize. rewrite device_drive. cbn [String.eqb].
  change (negb true) with false. rewrite Hn, (join_bs_nonempty l Hl Hf), (join_bs_nonempty l Hl Hf), Hlast. done.
Qed.
Lemma last_native t l : l ≠ [] → Forall name l → last_is win32.is_sep (t +:+ join win32.bs l) = false.
Proof.
  intros Hl Hf. destruct (clean_join_bs l Hl Hf) as (u & c & -> & Hc). unfold last_is.
  by rewrite <-sapp_assoc, last_char_snoc.
Qed.
Lemma normalize_native l : l ≠ [] → Forall name l → win32.normalize (native_text d l) = native_text d l.
Proof.
  intros Hl Hf. apply normalize_drive; [done..| |].
  - rewrite native_join, split_bs by done. rewrite normalizeString_id by by apply name_clean. done.
  - apply (last_native (String d (String colon win32.bs)) l Hl Hf).
Qed.
Lemma has_nul_join l : Forall name l → has_char nul (join win32.bs l) = false.
Proof. intros Hf. rewrite has_char_join by done. apply some_false. intros s Hs. rewrite Forall_forall in Hf. by apply Hf. Qed.

Lemma drop_slash_lower l : l ≠ [] → Forall name l →
  drop_end_while is_slash (String (lower d) (String colon (abs_text (map toLowerCase l)))) = String (lower d) (String colon (abs_text (map toLowerCase l))).
Proof.
  intros Hl Hf. destruct (clean_join_snoc (map toLowerCase l)) as (t & c & E & Hc).
  - by destruct l.
  - by apply clean_lower_all, name_clean.
  - unfold abs_text. rewrite E. apply (drop_end_while_keep is_slash (String (lower d) (String colon ("/" +:+ t))) c Hc).
Qed.
Lemma canonical_native l : l ≠ [] → Forall name l →
  canonicalWindows (native_text d l) windows_drive false = String d (String colon (abs_text (map toLowerCase l))).
Proof.
  intros Hl Hf. destruct drive_letter as (_ & _ & Hu & _ & Hb & _).
  assert (toLowerCase (replace_char backslash slash (native_text d l)) = String (lower d) (String colon (abs_text (map toLowerCase l)))) as E.
  { unfold native_text, abs_text, replace_char, toLowerCase. cbn [smap String.append win32.bs str1]. rewrite Hb. cbn. do 3 f_equal.
    rewrite !smap_join. cbn. f_equal. rewrite map_map. apply map_ext_in. intros s Hs. f_equal.
    rewrite Forall_forall in Hf. apply list_elem_of_In in Hs. destruct (Hf s Hs) as [_ [Hbs _]].
    by apply (replace_absent backslash slash). }
  unfold canonicalWindows. rewrite E. change (negb false || _) with true. cbv iota.
  rewrite drop_slash_lower by done. cbn [upper_first bool_decide]. rewrite bool_decide_true by done.
  cbn [upper_first]. by rewrite Hu.
Qed.
Lemma of_native l : l ≠ [] → Forall name l → of_ (native_text d l) = Ok (drive_path d (map toLowerCase l)).
Proof.
  intros Hl Hf. destruct drive_letter as (Hlt & Hs & Hu & Hsl & Hb & Hn). unfold of_.
  assert (has_char nul (native_text d l) = false) as ->.
  { unfold native_text. cbn. by rewrite Hn, (has_nul_join l Hf). }
  assert (isWindowsDeviceNamespace (native_text d l) = false) as ->.
  { unfold isWindowsDeviceNamespace, native_text, replace_char. cbn [smap]. rewrite Hb.
    assert (∀ t u, startsWith (String d t) (String slash u) = false) as Hst.
    { intros t u. apply not_true_iff_false. intros [v E]%startsWith_true. cbn in E. injection E as -> _. done. }
    by rewrite !Hst. }
  assert (WINDOWS_DRIVE_ABSOLUTE (native_text d l) = true) as ->.
  { unfold WINDOWS_DRIVE_ABSOLUTE, native_text. cbn. by rewrite Hlt. }
  unfold fromWindows. rewrite normalize_native by done. unfold win32.isAbsolute, win32.root.
  change (win32.device (native_text d l)) with (win32.device (String d (String colon (win32.bs +:+ join win32.bs l)))).
  rewrite device_drive. cbn [fst snd negb]. rewrite Hs. rewrite bool_decide_false by done. cbn [andb orb].
  assert ((native_text d l =? String d ":" +:+ win32.bs)%string = false) as ->.
  { unfold native_text. cbn [String.append]. rewrite !eqb_cons. cbn. rewrite join_bs_nonempty by done. done. }
  rewrite canonical_native by done. unfold drive_path. do 2 f_equal.
  unfold canonicalWindows, replace_char, toLowerCase. cbn. rewrite Hb.
  rewrite (bool_decide_true (windows_drive = windows_drive)), (bool_decide_false (windows_drive = windows_unc)) by done.
  cbn. by rewrite Hu.
Qed.

(** Joining appends the names in lower case. *)
Lemma joinp_drive segs names : Forall seg segs → names ≠ [] → Forall name names →
  joinp (drive_path d segs) names = Ok (drive_path d (segs ++ map toLowerCase names)).
Proof.
  intros Hs Hne Hn. unfold joinp, isWindows. cbn [flavour drive_path]. rewrite bool_decide_false by done. cbn [negb].
  rewrite (native_drive d segs Hd Hs).
  assert (bfilter (λ p, negb (p =? "")%string) (native_text d segs :: names) = native_text d segs :: names) as Hfil.
  { apply bfilter_all. intros x [->|Hx]%elem_of_cons; [done|]. rewrite Forall_forall in Hn. destruct (Hn x Hx) as [(_ & H & _) _].
    by apply negb_true_iff, String.eqb_neq. }
  unfold win32.join. rewrite Hfil, join_cons by done.
  assert (Forall name (segs ++ names)) as Hall by (apply Forall_app; split; [by apply seg_name|done]).
  assert (segs ++ names ≠ []) as Hall' by (intros [_ ?]%app_eq_nil; done).
  assert (win32.normalize (native_text d segs +:+ win32.bs +:+ join win32.bs names) = native_text d (segs ++ names)) as ->.
  { change (native_text d segs +:+ win32.bs +:+ join win32.bs names) with
      (String d (String colon (win32.bs +:+ (join win32.bs segs +:+ win32.bs +:+ join win32.bs names)))).
    apply normalize_drive; [done..| |].
    - destruct segs as [|x segs].
      + change ((join win32.bs [] +:+ win32.bs +:+ join win32.bs names)) with (String backslash (join win32.bs names)).
        change (win32.native (String backslash (join win32.bs names))) with (String backslash (win32.native (join win32.bs names))).
        rewrite native_join by done. change (split backslash (String backslash (join win32.bs names))) with ("" :: split backslash (join win32.bs names)).
        cbn [normalizeString]. rewrite split_bs by done. cbn. by rewrite normalizeString_id by by apply name_clean.
      + rewrite <-join_app by done. rewrite native_join, split_bs by done. by rewrite normalizeString_id by by apply name_clean.
    - rewrite <-!sapp_assoc. change (String d (String colon (((win32.bs +:+ join win32.bs segs) +:+ win32.bs) +:+ join win32.bs names)))
        with ((String d (String colon ((win32.bs +:+ join win32.bs segs) +:+ win32.bs))) +:+ join win32.bs names). by apply last_native. }
  rewrite of_native, map_app by done. do 3 f_equal. eapply map_same; [|exact Hs]. by intros s [_ ?].
Qed.
End drive.

(** ** Patterns *)

Lemma relativeTo_drive d e h q : PathPattern.relativeTo (drive_path d h) (drive_path e q) =
  if bool_decide (d = e) then PathPattern.relativeTo (posix_path h) (posix_path q) else None.
Proof.
  unfold PathPattern.relativeTo. rewrite contains_drive. case_bool_decide as Hd; [subst e|done]. cbn [andb].
  case_if; [done|]. f_equal. unfold drive_path, posix_path. cbn [value]. rewrite !eqb_cons. by case_if.
Qed.
Lemma literal_split segs : segs = PathPattern.literal_head segs ++ PathPattern.from_wildcard segs.
Proof. induction segs as [|s r IH]; [done|]. cbn. case_if; [done|]. cbn. by f_equal. Qed.
Lemma literal_plain segs : Forall (λ w, has_char PathPattern.star w = false) (PathPattern.literal_head segs).
Proof. induction segs as [|s r IH]; [constructor|]. cbn. case_if; [constructor|]. by constructor. Qed.

Section patterns.
Context (d : ascii) (h : list string) (Hd : is_upper d = true) (Hh : Forall seg h) (Hne : h ≠ []).
Lemma matches_home p e q : PathPattern.homeAnchored p = true → Forall seg q →
  PathPattern.matches p (drive_path e q) (drive_path d h) = true → d = e ∧ ∃ t, q = h ++ t ∧ PathPattern.glob (PathPattern.segments p) t.
Proof.
  intros Hp Hq Hm. unfold PathPattern.matches in Hm. rewrite Hp, relativeTo_drive in Hm.
  case_bool_decide; [|done]. split; [done|].
  apply (PathPattern.matches_home_posix p h q Hp Hne); [by apply seg_clean..|]. unfold PathPattern.matches. by rewrite Hp.
Qed.

(** What a home-anchored pattern matches lies below its literal prefix. *)
Lemma prefix_contains p path : PathPattern.homeAnchored p = true → drive_wf path →
  PathPattern.matches p path (drive_path d h) = true →
  ∃ x, PathPattern.literalPrefix p (drive_path d h) = Ok (Some x) ∧ drive_wf x ∧ contains x path = true.
Proof.
  intros Hp (e & q & -> & He & Hq) Hm. destruct (matches_home p e q Hp Hq Hm) as [<- (t & -> & Hg)].
  rewrite (literal_split (PathPattern.segments p)) in Hg.
  apply PathPattern.glob_literals in Hg as (k & -> & _); [|apply literal_plain].
  set (lits := PathPattern.literal_head (PathPattern.segments p)) in *.
  exists (drive_path d (h ++ lits)). rewrite app_assoc in Hq. apply Forall_app in Hq as [Hq Hk]. split; [|split].
  - apply Forall_app in Hq as [_ Hl]. unfold PathPattern.literalPrefix. fold lits. rewrite Hp. cbn [rbind].
    destruct lits as [|s r] eqn:El; [by rewrite app_nil_r|]. rewrite joinp_drive by (done || by apply seg_name). cbn [rmap].
    do 4 f_equal. eapply map_same; [|exact Hl]. by intros x [_ ?].
  - by exists d, (h ++ lits).
  - apply contains_prefix; [done|by rewrite app_assoc; apply Forall_app|]. split; [done|]. rewrite app_assoc. by exists k.
Qed.
End patterns.
End WindowsPath.
