(* ===== verification/WindowsPolicy.v ===== *)
(** * The policy on Windows (WindowsPolicyTranslator.ts, WindowsReadDenyScanner.ts,
      WindowsPsecSupport.ts)

    An AppContainer is given explicit paths, and a path cannot be taken out of a tree
    that is given. The translator refuses a policy that would need it for writing, and
    for reading asks for a scan that finds every refused entry before the start. *)

From S2P Require Import Prelude JsString JsMap JsNumber Json NodePath Paths Patterns Values Resources Network SensitivePaths.
From S2P Require Import Policy WindowsPaths.

Module WindowsPolicyTranslator.
Import SandboxPolicy.

Definition AGENT_STATE_DIRECTORIES : list string := [".claude"; ".gemini"; ".cursor"; ".codex"; ".config/claude"].

Record WindowsReadDenyScan := mkScan { scan_root : ResourceRef; scan_denies : list DenyRule }.
Record WindowsRestrictedOverlay := mkOverlay { overlay_home : AbsolutePath; seedFiles : list AbsolutePath; directories : list AbsolutePath }.
Record WindowsPolicyPlan := mkPlan {
  plan_reads : list ResourceRef;
  plan_writes : list ResourceRef;
  readDenyScans : list WindowsReadDenyScan;
  overlay : WindowsRestrictedOverlay;
  gaps : list string
}.

Section translator.
Context (policy : SandboxPolicy) (context : PathContext) (overlayHome : AbsolutePath).

Definition isDeniedFile (r : ResourceRef) (a : Access) : bool :=
  if negb (ResourceRef.is_file r) then false
  else if some (λ o, bool_decide (access o = a) && ResourceRef.covers (ref o) (ResourceRef.path r)) (overrides policy) then false
  else some (λ d, bool_decide (DenyRule.access d = a) && DenyRule.matches d (ResourceRef.path r) (home context)) (denies policy).

Definition isFullyOverridden (r : ResourceRef) (deny : DenyRule) : bool :=
  some (λ o, bool_decide (access o = DenyRule.access deny) && ResourceRef.subsumes (ref o) r) (overrides policy).

(** [deny.exceptWithin?.contains(path) === true] *)
Definition excepts (deny : DenyRule) (path : AbsolutePath) : bool :=
  match DenyRule.exceptWithin deny with Some w => AbsolutePath.contains w path | None => false end.
Definition denyMayIntersect (r : ResourceRef) (deny : DenyRule) : result bool :=
  if excepts deny (ResourceRef.path r) then Ok false
  else if ResourceRef.is_file r then Ok (DenyRule.matches deny (ResourceRef.path r) (home context))
  else
    let! prefix := PathPattern.literalPrefix (DenyRule.pattern deny) (home context) in
    match prefix with
    | None => Ok true
    | Some prefix =>
        Ok (if excepts deny prefix then false
            else AbsolutePath.contains (ResourceRef.path r) prefix || AbsolutePath.contains prefix (ResourceRef.path r))
    end.

(** [/^agentkeeper-[a-z0-9-]+$/i] *)
Definition private_char (c : ascii) : bool := is_digit c || is_lower c || is_upper c || Ascii.eqb c "-".
Definition private_name (s : string) : bool :=
  (toLowerCase (stake 12 s) =? "agentkeeper-")%string && (0 <? slen (sdrop 12 s)) && sforall private_char (sdrop 12 s).
Definition isPrivateEphemeral (p : AbsolutePath) : result bool :=
  if AbsolutePath.contains overlayHome p then Ok true
  else
    let! windowsTemp := AbsolutePath.joinp (home context) ["AppData"; "Local"; "Temp"] in
    Ok (AbsolutePath.contains windowsTemp p && private_name (AbsolutePath.basename p)).

Fixpoint deduplicate_into (result_ refs : list ResourceRef) : list ResourceRef :=
  match refs with
  | [] => result_
  | r :: rest => deduplicate_into (if some (λ e, ResourceRef.equals e r) result_ then result_ else result_ ++ [r]) rest
  end.
Definition deduplicate (refs : list ResourceRef) : list ResourceRef := deduplicate_into [] refs.

Definition gap_text (r : ResourceRef) (deny : DenyRule) : string :=
  DenyRule.sourceId deny +:+ ": Windows AppContainer cannot safely subtract " +:+ JSON.q (PathPattern.raw (DenyRule.pattern deny))
  +:+ " from persistent writable subtree " +:+ AbsolutePath.value (ResourceRef.path r)
  +:+ ". Use a private restricted profile or grant narrower mutable subpaths.".
Definition deny_gap (r : ResourceRef) (deny : DenyRule) : result (option string) :=
  if negb (bool_decide (DenyRule.access deny = write)) || isFullyOverridden r deny then Ok None
  else let! may := denyMayIntersect r deny in Ok (if may : bool then Some (gap_text r deny) else None).
Definition write_gaps (r : ResourceRef) : result (list string) :=
  let! ephemeral := isPrivateEphemeral (ResourceRef.path r) in
  if ephemeral : bool then Ok []
  else let! gs := rmapM (deny_gap r) (denies policy) in Ok (omap (λ g, g) gs).

Definition scan_of (root : ResourceRef) : result (option WindowsReadDenyScan) :=
  if negb (ResourceRef.is_subtree root) then Ok None
  else
    let! ephemeral := isPrivateEphemeral (ResourceRef.path root) in
    if ephemeral : bool then Ok None
    else
      let! ds := rfilter (λ d, if bool_decide (DenyRule.access d = read) && negb (isFullyOverridden root d)
                               then denyMayIntersect root d else Ok false) (denies policy) in
      Ok (match ds with [] => None | _ => Some (mkScan root ds) end).

Definition platform_gap : list string :=
  if bool_decide (platform context = Platform.Win32) then []
  else ["The Windows restricted-profile translator can only enforce win32 policies."].
Definition network_gap : list string :=
  if 0 <? length (network policy) then
    ["Windows AppContainer network access remains denied by default; destination rules "
     +:+ join ", " (map NetworkRule.toString (network policy)) +:+ " require a broker and cannot be opened directly."]
  else [].

(** What the policy grants and the profile keeps. *)
Definition granted (canonical : list AbsolutePath) (a : Access) (refs : list ResourceRef) : list ResourceRef :=
  bfilter (λ r, negb (some (λ root, AbsolutePath.equals root (ResourceRef.path r)) canonical) && negb (isDeniedFile r a)) refs.

Definition plan : result WindowsPolicyPlan :=
  let! canonicalAgentState := rmapM (λ relative, AbsolutePath.joinp (home context) [relative]) AGENT_STATE_DIRECTORIES in
  let rs := granted canonicalAgentState read (reads policy) in
  let ws := granted canonicalAgentState write (writes policy) in
  let! subtraction := rmapM write_gaps ws in
  let! scans := rmapM scan_of rs in
  let! states := rmapM (λ relative, AbsolutePath.joinp overlayHome [relative]) AGENT_STATE_DIRECTORIES in
  let! tmp := AbsolutePath.joinp overlayHome ["tmp"] in
  let! roaming := AbsolutePath.joinp overlayHome ["AppData"; "Roaming"] in
  let! local_ := AbsolutePath.joinp overlayHome ["AppData"; "Local"] in
  Ok (mkPlan (deduplicate (rs ++ [ResourceRef.subtree overlayHome])) (deduplicate (ws ++ [ResourceRef.subtree overlayHome]))
        (omap (λ s, s) scans) (mkOverlay overlayHome [] (overlayHome :: states ++ [tmp; roaming; local_]))
        (platform_gap ++ network_gap ++ concat subtraction)).
End translator.
End WindowsPolicyTranslator.

(** ** The scan behind the refusals (WindowsReadDenyScanner.ts) *)

Module WindowsReadDenyScanner.
Import WindowsPolicyTranslator.

Definition MAX_DISCOVERY_ENTRIES : Z := 50000.
Definition MAX_DISCOVERY_DEPTH : nat := 24.

Record WindowsTreeEntry := mkTreeEntry { entry_path : AbsolutePath; directory : bool }.
Record WindowsDeniedResource := mkDenied { denied_scope : ResourceRef.ResourceScope; denied_path : string; denied_access : Access }.
#[global] Instance WindowsDeniedResource_eq_dec : EqDecision WindowsDeniedResource.
Proof. solve_decision. Defined.

Definition sameResource (l r : WindowsDeniedResource) : bool :=
  bool_decide (denied_scope l = denied_scope r) && (denied_path l =? denied_path r)%string && bool_decide (denied_access l = denied_access r).

Definition depth (e : WindowsTreeEntry) : nat := length (AbsolutePath.segments (entry_path e)).
(** [sort((l, r) => l.depth - r.depth)], which is stable. *)
Fixpoint insert_by_depth (e : WindowsTreeEntry) (l : list WindowsTreeEntry) : list WindowsTreeEntry :=
  match l with [] => [e] | x :: r => if depth e <=? depth x then e :: l else x :: insert_by_depth e r end.
Definition sort_by_depth (l : list WindowsTreeEntry) : list WindowsTreeEntry := foldr insert_by_depth [] l.

(** What has been refused so far: the resources, and the directories among them. *)
Record Refused := mkRefused { denied : list WindowsDeniedResource; deniedSubtrees : list AbsolutePath }.

Section scanner.
Context {W : Type} (listTree : AbsolutePath → M W (list WindowsTreeEntry)) (policy : SandboxPolicy.SandboxPolicy) (context : PathContext).

Definition isOverridden (p : AbsolutePath) : bool := SandboxPolicy.isOverridden policy read p.
Definition refuse (st : Refused) (e : WindowsTreeEntry) : Refused :=
  let resource := mkDenied (if directory e then ResourceRef.subtree_scope else ResourceRef.file_scope) (AbsolutePath.value (entry_path e)) read in
  mkRefused (if some (λ c, sameResource c resource) (denied st) then denied st else denied st ++ [resource])
    (if directory e then deniedSubtrees st ++ [entry_path e] else deniedSubtrees st).
Definition inspect_entry (s : WindowsReadDenyScan) (st : Refused) (e : WindowsTreeEntry) : result Refused :=
  if negb (AbsolutePath.contains (ResourceRef.path (scan_root s)) (entry_path e)) then
    Err (WindowsPolicyDiscoveryError ("Deny discovery escaped its granted root " +:+ AbsolutePath.value (ResourceRef.path (scan_root s)) +:+ "."))
  else if some (λ r, AbsolutePath.contains r (entry_path e)) (deniedSubtrees st) then Ok st
  else if isOverridden (entry_path e) then Ok st
  else if negb (some (λ d, DenyRule.matches d (entry_path e) (home context)) (scan_denies s)) then Ok st
  else Ok (refuse st e).
Fixpoint inspect_all (s : WindowsReadDenyScan) (st : Refused) (es : list WindowsTreeEntry) : result Refused :=
  match es with [] => Ok st | e :: r => let! st' := inspect_entry s st e in inspect_all s st' r end.
Fixpoint scan_from (st : Refused) (scans : list WindowsReadDenyScan) : M W Refused :=
  match scans with
  | [] => mok st
  | s :: r =>
      let* entries := listTree (ResourceRef.path (scan_root s)) in
      let* st' := mlift (inspect_all s st (sort_by_depth entries)) in
      scan_from st' r
  end.
Definition scan (scans : list WindowsReadDenyScan) : M W (list WindowsDeniedResource) :=
  let* st := scan_from (mkRefused [] []) scans in mok (denied st).
End scanner.

(** *** The tree below a root *)

(** What [lstat] and [readdir] say; a path that cannot be looked at is missing or broken. *)
Inductive Stat := stat_file | stat_directory | stat_link | stat_missing | stat_broken.
Inductive Dirent := dirent_file | dirent_directory | dirent_link | dirent_other.

Section tree.
Context (lstat : AbsolutePath → Stat) (readdir : AbsolutePath → option (list (string * Dirent))) (root : AbsolutePath).

Definition discovery {A} (before : string) (p : AbsolutePath) (after : string) : result A :=
  Err (WindowsPolicyDiscoveryError (before +:+ AbsolutePath.value p +:+ after)).
Definition link_refused {A} (p : AbsolutePath) : result A := discovery "Refusing a symbolic link in Windows deny discovery: " p ".".
(** The children of a directory, one after the other. *)
Fixpoint walk_children (walk : AbsolutePath → list WindowsTreeEntry → result (list WindowsTreeEntry)) (p : AbsolutePath)
    (children : list (string * Dirent)) (entries : list WindowsTreeEntry) : result (list WindowsTreeEntry) :=
  match children with
  | [] => Ok entries
  | (name, kind) :: rest =>
      match kind with
      | dirent_link => let! c := AbsolutePath.joinp p [name] in link_refused c
      | dirent_other => walk_children walk p rest entries
      | _ =>
          let! c := AbsolutePath.joinp p [name] in
          let! entries' := walk c entries in
          walk_children walk p rest entries'
      end
  end.
(** [levels] may still be entered: the depth is [MAX_DISCOVERY_DEPTH + 1 - levels]. *)
Fixpoint walk (levels : nat) (p : AbsolutePath) (entries : list WindowsTreeEntry) : result (list WindowsTreeEntry) :=
  match levels with
  | O => discovery ("Deny discovery exceeded depth " +:+ string_of_nat MAX_DISCOVERY_DEPTH +:+ " under ") root "."
  | S levels =>
      if (MAX_DISCOVERY_ENTRIES <=? Z.of_nat (length entries))%Z
      then discovery ("Deny discovery exceeded " +:+ string_of_Z MAX_DISCOVERY_ENTRIES +:+ " entries under ") root "."
      else
        match lstat p with
        | stat_missing => if AbsolutePath.equals p root then Ok entries
                          else discovery "Could not inspect " p " while compiling Windows deny rules."
        | stat_broken => discovery "Could not inspect " p " while compiling Windows deny rules."
        | stat_link => link_refused p
        | stat_file => Ok (entries ++ [mkTreeEntry p false])
        | stat_directory =>
            match readdir p with
            | None => discovery "Could not enumerate " p " while compiling Windows deny rules."
            | Some children => walk_children (walk levels) p children (entries ++ [mkTreeEntry p true])
            end
        end
  end.
Definition boundedTree : result (list WindowsTreeEntry) := walk (S MAX_DISCOVERY_DEPTH) root [].
End tree.
End WindowsReadDenyScanner.

(** ** What the host must offer (WindowsPsecSupport.ts) *)

Module WindowsPsecSupport.
Import JSON.

Inductive WindowsPsecHostAssessment := supported | unsupported (code message : string).
Definition invalid : WindowsPsecHostAssessment :=
  unsupported "windows.psec-probe-invalid" "The native Windows PSEC diagnostic report is invalid.".
Definition uint32 (v : option Json) : option Z :=
  match v with Some (JNum (Int z)) => if (0 <=? z)%Z && (z <=? 4294967295)%Z then Some z else None | _ => None end.
Definition boolean (v : option Json) : option bool := match v with Some (JBool b) => Some b | _ => None end.
(** [/^0x[0-9a-f]{1,16}$/i] and [BigInt]. *)
Definition flags_of (v : option Json) : option Z :=
  match text_of v with
  | Some (String z (String x r)) =>
      if Ascii.eqb z "0" && Ascii.eqb (lower x) "x" && (1 <=? slen r) && (slen r <=? 16) && sforall (is_radix_digit 16) r
      then Some (radix_digits 16 0 r) else None
  | _ => None
  end.
Record Report := mkReport {
  build : Z; revision : Z; workstation : bool; major : Z; minor : Z; supportFlags : Z;
  exportsAvailable : bool; versionQuerySucceeded : bool; supportQuerySucceeded : bool; available : bool
}.
Definition record_of (v : option Json) : option (list (string * Json)) := match v with Some (JObject m) => Some m | _ => None end.
Definition report_of (v : Json) : option Report :=
  m ← record_of (Some v);
  kind ← text_of (JsMap.get m "kind");
  os ← record_of (JsMap.get m "os"); psec ← record_of (JsMap.get m "psec");
  if negb (kind =? "agentkeeper.psec-host.v1")%string then None else
  b ← uint32 (JsMap.get os "build"); rv ← uint32 (JsMap.get os "revision"); ws ← boolean (JsMap.get os "workstation");
  ma ← uint32 (JsMap.get psec "major"); mi ← uint32 (JsMap.get psec "minor"); fl ← flags_of (JsMap.get psec "supportFlags");
  ex ← boolean (JsMap.get psec "exportsAvailable"); vq ← boolean (JsMap.get psec "versionQuerySucceeded");
  sq ← boolean (JsMap.get psec "supportQuerySucceeded"); av ← boolean (JsMap.get psec "available");
  Some (mkReport b rv ws ma mi fl ex vq sq av).
Definition assessWindowsPsecHost (report : Json) : WindowsPsecHostAssessment :=
  match report_of report with
  | None => invalid
  | Some r =>
      if negb (workstation r) || (build r <? 22000)%Z then
        unsupported "windows.psec-platform-unsupported" "The native backend requires Windows 11 or a later workstation release."
      else if negb (exportsAvailable r) || negb (versionQuerySucceeded r) || negb (supportQuerySucceeded r) || negb (available r) then
        unsupported "windows.psec-api-unavailable" "The required Windows PSEC APIs are unavailable or their queries failed."
      else if negb (major r =? 1)%Z || (minor r <? 1)%Z then
        unsupported "windows.psec-contract-unsupported" "The native backend requires PSEC contract 1.1 with enumeration and ingress support."
      else if (Z.land (supportFlags r) 1 =? 0)%Z then
        unsupported "windows.psec-filesystem-deny-unavailable" "This Windows build cannot enforce native filesystem denies."
      else if (Z.land (supportFlags r) 4 =? 0)%Z then
        unsupported "windows.psec-enumeration-unavailable"
          "This Windows build cannot provide enumeration-only filesystem access required by the sandbox."
      else if (Z.land (supportFlags r) 8 =? 0)%Z then
        unsupported "windows.psec-ingress-unavailable" "This Windows build cannot enforce the required native ingress policy."
      else supported
  end.

Lemma flag_bit f n : (0 ≤ n)%Z → (Z.land f (2 ^ n) =? 0)%Z = negb (Z.testbit f n).
Proof.
  intros Hn. assert (Z.land f (2 ^ n) = if Z.testbit f n then 2 ^ n else 0)%Z as ->.
  { apply Z.bits_inj'. intros k Hk. rewrite Z.land_spec, Z.pow2_bits_eqb by done.
    destruct (Z.eqb_spec n k) as [<-|Hne]; rewrite ?andb_true_r, ?andb_false_r.
    - destruct (Z.testbit f n); [by rewrite Z.pow2_bits_true|by rewrite Z.bits_0].
    - destruct (Z.testbit f n); [by rewrite Z.pow2_bits_false|by rewrite Z.bits_0]. }
  destruct (Z.testbit f n); [|done]. apply Z.eqb_neq. pose proof (Z.pow_pos_nonneg 2 n). lia.
Qed.
(** The report qualifies exactly when every required primitive is there; bits that are
    not known do not matter. *)
Theorem psec_qualifies v : assessWindowsPsecHost v = supported ↔
  ∃ r, report_of v = Some r ∧ workstation r = true ∧ (22000 ≤ build r)%Z
  ∧ exportsAvailable r = true ∧ versionQuerySucceeded r = true ∧ supportQuerySucceeded r = true ∧ available r = true
  ∧ major r = 1%Z ∧ (1 ≤ minor r)%Z
  ∧ Z.testbit (supportFlags r) 0 = true ∧ Z.testbit (supportFlags r) 2 = true ∧ Z.testbit (supportFlags r) 3 = true.
Proof.
  unfold assessWindowsPsecHost. change 1%Z with (2 ^ 0)%Z at 3. change 4%Z with (2 ^ 2)%Z. change 8%Z with (2 ^ 3)%Z.
  destruct (report_of v) as [r|]; [|split; [done|by intros (? & ? & _)]]. rewrite !flag_bit by lia. split.
  - intros Hs. exists r. split; [done|].
    repeat match type of Hs with context [if ?b then _ else _] => destruct b eqn:?; [done|] end. bool_prop. by split_and!.
  - intros (r' & [= <-] & -> & Hb & -> & -> & -> & -> & Hma & Hmi & -> & -> & ->). rewrite Hma.
    destruct (Z.ltb_spec (build r) 22000), (Z.ltb_spec (minor r) 1); [lia..|done].
Qed.
End WindowsPsecSupport.
