(* ===== verification/WindowsConfinement.v ===== *)
(** * What a Windows plan confines (WindowsPolicyTranslator.ts, WindowsReadDenyScanner.ts)

    The walk lists a tree exactly or fails; the scan bars every refused entry it is
    shown; and whatever a plan without gaps grants outside the private profile, the policy
    allows, or the scan bars. *)

From S2P Require Import Prelude JsString JsMap JsNumber Json NodePath Paths Patterns Values Resources Network SensitivePaths Registry.
From S2P Require Import Tiers Entities Policy WindowsPaths WindowsPolicy.
Import WindowsPolicyTranslator WindowsReadDenyScanner.

(** ** The walk *)

Section tree.
Context (lstat : AbsolutePath → Stat) (readdir : AbsolutePath → option (list (string * Dirent))) (root : AbsolutePath).

(** What is found below a path without following a link. *)
Inductive reach : AbsolutePath → AbsolutePath → bool → Prop :=
| reach_file r : lstat r = stat_file → reach r r false
| reach_directory r : lstat r = stat_directory → reach r r true
| reach_below r children name kind c p d : lstat r = stat_directory → readdir r = Some children → (name, kind) ∈ children →
    kind = dirent_file ∨ kind = dirent_directory → AbsolutePath.joinp r [name] = Ok c → reach c p d → reach r p d.
Definition linkless (e : WindowsTreeEntry) : Prop :=
  directory e = true → ∃ children, readdir (entry_path e) = Some children ∧ ∀ name, (name, dirent_link) ∉ children.

(** A step of the walk appends what satisfies [P], and stays within the bound. *)
Definition appends (P : AbsolutePath → bool → Prop) (before after : list WindowsTreeEntry) : Prop :=
  ∃ new, after = before ++ new ∧ (∀ p d, mkTreeEntry p d ∈ new ↔ P p d) ∧ Forall linkless new
  ∧ ((Z.of_nat (length before) ≤ MAX_DISCOVERY_ENTRIES)%Z → (Z.of_nat (length after) ≤ MAX_DISCOVERY_ENTRIES)%Z).

Lemma appends_nothing l : appends (λ _ _, False) l l.
Proof. exists []. rewrite app_nil_r. split_and!; [done| |constructor|done]. intros. split; [by intros ?%elem_of_nil|done]. Qed.
Lemma appends_trans P Q l1 l2 l3 : appends P l1 l2 → appends Q l2 l3 → appends (λ p d, P p d ∨ Q p d) l1 l3.
Proof.
  intros (n1 & -> & H1 & Hl1 & Hb1) (n2 & -> & H2 & Hl2 & Hb2). exists (n1 ++ n2). split_and!.
  - by rewrite app_assoc.
  - intros p d. by rewrite elem_of_app, H1, H2.
  - by apply Forall_app.
  - auto.
Qed.
Lemma appends_iff P Q l1 l2 : (∀ p d, P p d ↔ Q p d) → appends P l1 l2 → appends Q l1 l2.
Proof. intros HPQ (n & -> & H & Hl & Hb). exists n. split_and!; try done. intros p d. by rewrite H, HPQ. Qed.

Definition child_of (r : AbsolutePath) (children : list (string * Dirent)) (p : AbsolutePath) (d : bool) : Prop :=
  ∃ name kind c, (name, kind) ∈ children ∧ (kind = dirent_file ∨ kind = dirent_directory) ∧ AbsolutePath.joinp r [name] = Ok c ∧ reach c p d.

Lemma walk_children_appends step r children entries l :
  (∀ c es es', step c es = Ok es' → appends (reach c) es es') →
  walk_children step r children entries = Ok l → appends (child_of r children) entries l ∧ ∀ name, (name, dirent_link) ∉ children.
Proof.
  intros Hstep. revert entries. induction children as [|[name kind] rest IH]; intros entries Hw; cbn in Hw.
  - apply Ok_inj in Hw as <-. split; [|by intros ? ?%elem_of_nil]. eapply appends_iff; [|apply appends_nothing].
    intros p d. split; [done|]. by intros (? & ? & ? & ?%elem_of_nil & _).
  - assert (kind = dirent_file ∨ kind = dirent_directory → ∃ c es, AbsolutePath.joinp r [name] = Ok c ∧ step c entries = Ok es
              ∧ walk_children step r rest es = Ok l) as Hgo.
    { intros [-> | ->]; cbn in Hw; res_inv; eauto. }
    destruct kind.
    1,2: destruct Hgo as (c & es & Hc & Hs & Hr); [auto|]; destruct (IH es Hr) as [Ha Hn]; (split; [|set_solver]);
         eapply appends_iff; [|eapply appends_trans; [by apply Hstep|exact Ha]]; intros p d; split;
         [intros [Hp|(n & k & c' & Hin & Hk & Hj & Hp)]; [by exists name; eexists; exists c; split; [by left|auto]|by exists n, k, c'; split; [by right|]]
         |intros (n & k & c' & [[= -> <-]|Hin]%elem_of_cons & Hk & Hj & Hp); [left; congruence|right; by exists n, k, c']].
    + by destruct (AbsolutePath.joinp r [name]).
    + destruct (IH entries Hw) as [Ha Hn]. split; [|set_solver]. eapply appends_iff; [|exact Ha]. intros p d. split.
      * intros (n & k & c & Hin & Hrest). exists n, k, c. split; [by right|done].
      * intros (n & k & c & [[= -> ->]|Hin]%elem_of_cons & Hk & Hrest); [by destruct Hk|]. by exists n, k, c.
Qed.

Lemma reach_cases r p d : lstat r = stat_directory → ∀ children, readdir r = Some children →
  reach r p d ↔ (p = r ∧ d = true) ∨ child_of r children p d.
Proof.
  intros Hl children Hc. split.
  - intros Hr. inversion Hr; subst; [congruence|by left|]. right. exists name, kind, c. split_and!; try done. congruence.
  - intros [[-> ->]|(n & k & c & Hin & Hk & Hj & Hp)]; [by constructor|]. by eapply reach_below.
Qed.
Lemma appends_one r d l : (Z.of_nat (length l) < MAX_DISCOVERY_ENTRIES)%Z → linkless (mkTreeEntry r d) →
  appends (λ p d', p = r ∧ d' = d) l (l ++ [mkTreeEntry r d]).
Proof.
  intros Hb Hl. exists [mkTreeEntry r d]. split_and!; [done| |by repeat constructor|].
  - intros p d'. rewrite list_elem_of_singleton. split; [by intros [= -> ->]|by intros [-> ->]].
  - intros _. rewrite length_app. cbn. lia.
Qed.
Lemma walk_collects levels p entries l : walk lstat readdir root levels p entries = Ok l → appends (reach p) entries l.
Proof.
  revert p entries l. induction levels as [|levels IH]; intros p entries l Hw; cbn in Hw; [done|].
  destruct (Z.leb_spec MAX_DISCOVERY_ENTRIES (Z.of_nat (length entries))); [done|].
  destruct (lstat p) eqn:El; try done.
  - apply Ok_inj in Hw as <-. eapply appends_iff; [|by apply (appends_one p false)]. intros q d. split.
    + intros [-> ->]. by constructor.
    + intros Hr. inversion Hr; subst; [done|congruence..].
  - destruct (readdir p) as [children|] eqn:Ec; [|done].
    apply walk_children_appends in Hw as [Ha Hn]; [|intros; by apply IH].
    eapply appends_iff; [|eapply appends_trans; [|exact Ha]; by apply (appends_one p true); [|intros _; exists children]].
    intros q d. by rewrite (reach_cases p q d El children Ec).
  - destruct (AbsolutePath.equals p root); [|done]. apply Ok_inj in Hw as <-.
    eapply appends_iff; [|apply appends_nothing]. intros q d. split; [done|]. intros Hr. inversion Hr; congruence.
Qed.

(** C28. The walk lists the tree below its root exactly, or fails: what it returns is every
    file and directory that is reached without a link, with its kind, and nothing else;
    no directory of the tree holds a symbolic link; and the list is bounded. *)
Theorem bounded_tree_exact l : boundedTree lstat readdir root = Ok l →
  (∀ p d, mkTreeEntry p d ∈ l ↔ reach root p d)
  ∧ (∀ p, reach root p true → ∃ children, readdir p = Some children ∧ ∀ name, (name, dirent_link) ∉ children)
  ∧ (Z.of_nat (length l) ≤ MAX_DISCOVERY_ENTRIES)%Z.
Proof.
  intros (new & -> & Hr & Hl & Hb)%walk_collects. cbn [app] in *. split_and!; [done| |by apply Hb].
  intros p Hp%Hr. rewrite Forall_forall in Hl. by apply (Hl _ Hp).
Qed.
End tree.

(** ** The scan *)

(** What a scan relies on: a listing has everything that is found below its root, and
    looking changes nothing. *)
Class TreeLaws {W : Type} (listTree : AbsolutePath → M W (list WindowsTreeEntry)) (found : W → AbsolutePath → AbsolutePath → bool → Prop) := {
  tree_listed r w w' l : listTree r w = (w', Ok l) → ∀ p d, found w r p d → mkTreeEntry p d ∈ l;
  tree_still r w w' l : listTree r w = (w', Ok l) → ∀ r' p d, found w' r' p d ↔ found w r' p d
}.

(** A refused resource keeps a path out: it is the path, or a directory above it. *)
Definition bars (x : WindowsDeniedResource) (p : AbsolutePath) : Prop :=
  denied_access x = read ∧ ∃ t, denied_path x = AbsolutePath.value t
  ∧ ((denied_scope x = ResourceRef.subtree_scope ∧ AbsolutePath.contains t p = true) ∨ t = p).

Section scan.
Context {W : Type} (listTree : AbsolutePath → M W (list WindowsTreeEntry)) (found : W → AbsolutePath → AbsolutePath → bool → Prop)
  `{!TreeLaws listTree found} (policy : SandboxPolicy.SandboxPolicy) (context : PathContext).

(** The entry a scan refuses. *)
Definition refused (s : WindowsReadDenyScan) (p : AbsolutePath) : Prop :=
  isOverridden policy p = false ∧ ∃ d, d ∈ scan_denies s ∧ DenyRule.matches d p (home context) = true.
Definition sound (st : Refused) : Prop :=
  ∀ t, t ∈ deniedSubtrees st → mkDenied ResourceRef.subtree_scope (AbsolutePath.value t) read ∈ denied st.
Definition barred (st : Refused) (p : AbsolutePath) : Prop := ∃ x, x ∈ denied st ∧ bars x p.
Record grown (st st' : Refused) : Prop := mkGrown { grown_sound : sound st'; grown_denied : denied st ⊆ denied st' }.

Lemma grown_trans st st' st'' : grown st st' → grown st' st'' → grown st st''.
Proof. intros [_ H1] [H2 H3]. split; [done|set_solver]. Qed.
Lemma barred_grown st st' p : grown st st' → barred st p → barred st' p.
Proof. intros [_ Hd] (x & Hx & Hb). exists x. auto. Qed.

Lemma refuse_grows st e : sound st → grown st (refuse st e)
  ∧ mkDenied (if directory e then ResourceRef.subtree_scope else ResourceRef.file_scope) (AbsolutePath.value (entry_path e)) read ∈ denied (refuse st e).
Proof.
  intros Hs. set (x := mkDenied _ _ read).
  assert (denied st ⊆ denied (refuse st e) ∧ x ∈ denied (refuse st e)) as [Hsub Hx].
  { unfold refuse. fold x. cbn [denied]. case_if; [|set_solver]. split; [done|].
    apply some_true in Heqb as (y & Hy & E). unfold sameResource in E. bool_prop. rewrite !bool_decide_eq_true in *.
    destruct x, y. cbn in *. by subst. }
  split; [split; [|done]|done]. intros t. unfold refuse at 1. cbn [deniedSubtrees]. destruct (directory e) eqn:Ed; [|auto].
  intros [Ht|Ht%list_elem_of_singleton]%elem_of_app; [auto|]. subst x. by rewrite Ht.
Qed.
Lemma inspect_entry_grows s st e st' : sound st → inspect_entry policy context s st e = Ok st' →
  grown st st' ∧ (refused s (entry_path e) → barred st' (entry_path e)).
Proof.
  intros Hs. unfold inspect_entry. case_if; [done|].
  destruct (some _ (deniedSubtrees st)) eqn:Ht.
  { intros <-%Ok_inj. split; [by split|]. intros _. apply some_true in Ht as (t & Ht & Hc).
    exists (mkDenied ResourceRef.subtree_scope (AbsolutePath.value t) read). split; [by apply Hs|]. split; [done|]. exists t. auto. }
  destruct (isOverridden policy (entry_path e)) eqn:Ho.
  { intros <-%Ok_inj. split; [by split|]. intros [? _]. congruence. }
  destruct (some _ (scan_denies s)) eqn:Hd; cbn [negb].
  - intros <-%Ok_inj. destruct (refuse_grows st e Hs) as [Hg Hx]. split; [done|]. intros _. eexists. split; [exact Hx|].
    split; [done|]. exists (entry_path e). split; [done|]. by right.
  - intros <-%Ok_inj. split; [by split|]. intros [_ (d & Hin & Hm)]. rewrite some_false in Hd. by rewrite (Hd d Hin) in Hm.
Qed.
Lemma inspect_all_grows s es st st' : sound st → inspect_all policy context s st es = Ok st' →
  grown st st' ∧ ∀ e, e ∈ es → refused s (entry_path e) → barred st' (entry_path e).
Proof.
  revert st. induction es as [|e es IH]; intros st Hs Hi; cbn in Hi.
  - apply Ok_inj in Hi as <-. split; [by split|]. by intros ? ?%elem_of_nil.
  - destruct (inspect_entry policy context s st e) as [st1|] eqn:E; [|done].
    destruct (inspect_entry_grows s st e st1 Hs E) as [Hg He]. destruct (IH st1 (grown_sound _ _ Hg) Hi) as [Hg' Hes].
    split; [by eapply grown_trans|]. intros x [->|Hx]%elem_of_cons Hr; [|by apply Hes]. eapply barred_grown; [exact Hg'|]. by apply He.
Qed.
Lemma insert_perm e l : insert_by_depth e l ≡ₚ e :: l.
Proof. induction l as [|x l IH]; [done|]. cbn. case_if; [done|]. rewrite IH. by rewrite Permutation_swap. Qed.
Lemma sort_perm l : sort_by_depth l ≡ₚ l.
Proof. induction l as [|x l IH]; [done|]. cbn. by rewrite insert_perm, IH. Qed.

Lemma scan_from_bars scans st w w' st' : sound st → scan_from listTree policy context st scans w = (w', Ok st') →
  grown st st' ∧ (∀ s, s ∈ scans → ∀ p d, found w (ResourceRef.path (scan_root s)) p d → refused s p → barred st' p)
  ∧ ∀ r p d, found w' r p d ↔ found w r p d.
Proof.
  revert st w. induction scans as [|s scans IH]; intros st w Hs Hscan; cbn [scan_from] in Hscan.
  - apply mok_Ok in Hscan as [-> ->]. split_and!; [by split| |done]. by intros ? ?%elem_of_nil.
  - apply mseq_Ok in Hscan as (w1 & entries & Hl & Hscan). unfold mseq, mlift in Hscan.
    destruct (inspect_all policy context s st (sort_by_depth entries)) as [st1|] eqn:E; [|done].
    destruct (inspect_all_grows s _ st st1 Hs E) as [Hg He]. destruct (IH st1 w1 (grown_sound _ _ Hg) Hscan) as (Hg' & Hes & Hf).
    split_and!; [by eapply grown_trans| |].
    + intros s' [->|Hs']%elem_of_cons p d Hp Hr.
      * eapply barred_grown; [exact Hg'|]. apply (He (mkTreeEntry p d)); [|done]. rewrite sort_perm. by eapply tree_listed.
      * eapply (Hes s' Hs' p d); [|done]. by apply (tree_still _ _ _ _ Hl).
    + intros r p d. by rewrite Hf, (tree_still _ _ _ _ Hl).
Qed.
Lemma scan_bars scans w w' ds s p d : scan listTree policy context scans w = (w', Ok ds) → s ∈ scans →
  found w (ResourceRef.path (scan_root s)) p d → refused s p → ∃ x, x ∈ ds ∧ bars x p.
Proof.
  intros (w1 & st & Hscan & [-> ->]%mok_Ok)%mseq_Ok Hs Hf Hr.
  destruct (scan_from_bars scans (mkRefused [] []) w w1 st) as (_ & Hb & _); [by intros ? ?%elem_of_nil|done|]. by eapply Hb.
Qed.
End scan.

(** ** The plan *)

Lemma deduplicate_into_elem acc refs r : r ∈ deduplicate_into acc refs → r ∈ acc ∨ r ∈ refs.
Proof.
  revert acc. induction refs as [|x refs IH]; intros acc; cbn; [by left|]. intros [Hr|Hr]%IH; [|set_solver].
  destruct (some _ acc); [by left|]. set_solver.
Qed.
Lemma deduplicate_elem refs r : r ∈ deduplicate refs → r ∈ refs.
Proof. intros [?%elem_of_nil|?]%deduplicate_into_elem; done. Qed.
Lemma rmapM_elem {A B} (f : A → result B) l ys x : rmapM f l = Ok ys → x ∈ l → ∃ y, f x = Ok y ∧ y ∈ ys.
Proof.
  revert ys. induction l as [|z l IH]; intros ys Hm; cbn in Hm; [by intros ?%elem_of_nil|]. res_inv.
  intros [->|Hx]%elem_of_cons; [eexists; split; [done|by left]|]. destruct (IH _ eq_refl Hx) as (y & Hy & Hin). eexists. split; [done|by right].
Qed.
Lemma rfilter_elem {A} (f : A → result bool) l ys x : rfilter f l = Ok ys → x ∈ l → ∃ b, f x = Ok b ∧ (b = true → x ∈ ys).
Proof.
  revert ys. induction l as [|z l IH]; intros ys Hm; cbn in Hm; [by intros ?%elem_of_nil|]. res_inv.
  intros [->|Hx]%elem_of_cons.
  - eexists. split; [done|]. intros ->. by left.
  - destruct (IH _ eq_refl Hx) as (b & Hb & Hin). exists b. split; [done|]. intros Ht. case_if; [right|]; auto.
Qed.

(** A policy over paths on drives, whose refusals are anchored below the home or start
    with a wildcard. *)
Definition drive_ref (r : ResourceRef) : Prop := ResourceRef.declared r ∧ WindowsPath.drive_wf (ResourceRef.path r).
Definition home_deny (d : DenyRule) : Prop :=
  (PathPattern.homeAnchored (DenyRule.pattern d) = true ∨ PathPattern.literal_head (PathPattern.segments (DenyRule.pattern d)) = [])
  ∧ ∀ w, DenyRule.exceptWithin d = Some w → WindowsPath.drive_wf w.
Record drive_policy (policy : SandboxPolicy.SandboxPolicy) (context : PathContext) : Prop := mkDrivePolicy {
  dp_home : ∃ d h, home context = WindowsPath.drive_path d h ∧ is_upper d = true ∧ Forall WindowsPath.seg h ∧ h ≠ [];
  dp_reads : Forall drive_ref (SandboxPolicy.reads policy);
  dp_writes : Forall drive_ref (SandboxPolicy.writes policy);
  dp_overrides : Forall (λ o, drive_ref (SandboxPolicy.ref o)) (SandboxPolicy.overrides policy);
  dp_denies : Forall home_deny (SandboxPolicy.denies policy)
}.

Section confinement.
Context (policy : SandboxPolicy.SandboxPolicy) (context : PathContext) (Hpolicy : drive_policy policy context).

Lemma covers_drive r p : drive_ref r → WindowsPath.drive_wf p → ResourceRef.covers r p = true →
  AbsolutePath.contains (ResourceRef.path r) p = true ∧ (ResourceRef.is_file r = true → p = ResourceRef.path r).
Proof.
  intros [Hd Hw] Hp. unfold ResourceRef.covers, ResourceRef.is_file, ResourceRef.is_subtree.
  destruct Hd as [-> | ->]; cbn; [done|]. intros H%WindowsPath.equals_eq; [|done..]. rewrite <-H. split; [apply AbsolutePath.contains_refl|done].
Qed.
Lemma subsumes_drive o r p : drive_ref o → drive_ref r → WindowsPath.drive_wf p →
  ResourceRef.subsumes o r = true → ResourceRef.covers r p = true → ResourceRef.covers o p = true.
Proof.
  intros [Ho Hop] Hr Hp. pose proof Hr as [Hd Hw]. intros Hs Hc. destruct (covers_drive r p Hr Hp Hc) as [Hcp Hf].
  unfold ResourceRef.subsumes, ResourceRef.covers, ResourceRef.is_file, ResourceRef.is_subtree in *.
  destruct Ho as [Ho | Ho]; rewrite Ho in *; cbn in *.
  - by eapply WindowsPath.drive_contains_trans; [exact Hop|exact Hw|..].
  - apply andb_true_iff in Hs as [Hfr Hs]. by rewrite (Hf Hfr).
Qed.
Lemma overridden_covers a r deny p : DenyRule.access deny = a → drive_ref r → WindowsPath.drive_wf p → ResourceRef.covers r p = true →
  isFullyOverridden policy r deny = true → SandboxPolicy.isOverridden policy a p = true.
Proof.
  intros <- Hr Hp Hc Ho. unfold isFullyOverridden in Ho. apply some_true in Ho as (o & Ho & [Ha Hs]%andb_true_iff).
  apply some_true. exists o. split; [done|]. rewrite Ha. cbn [andb].
  eapply subsumes_drive; [|exact Hr|done|exact Hs|done]. by eapply Forall_forall in Ho; [|exact (dp_overrides _ _ Hpolicy)].
Qed.

(** Where a refusal matches below a reference, it may intersect it. *)
Lemma may_intersect r deny p b : drive_ref r → home_deny deny → WindowsPath.drive_wf p → ResourceRef.covers r p = true →
  DenyRule.matches deny p (home context) = true → denyMayIntersect context r deny = Ok b → b = true.
Proof.
  intros Hr [Ha He] Hp Hc Hm. pose proof Hr as [_ Hw]. destruct (covers_drive r p Hr Hp Hc) as [Hcp Hf].
  destruct (dp_home _ _ Hpolicy) as (d & h & Hhome & Hd & Hh & Hne).
  assert (∀ x, WindowsPath.drive_wf x → AbsolutePath.contains x p = true → excepts deny x = false) as Hex.
  { intros x Hx Hxp. unfold excepts, DenyRule.matches in *. destruct (DenyRule.exceptWithin deny) as [w|]; [|done].
    apply not_true_iff_false. intros Hwx. by rewrite (WindowsPath.drive_contains_trans w x p) in Hm by auto. }
  assert (PathPattern.matches (DenyRule.pattern deny) p (home context) = true) as Hpm.
  { unfold DenyRule.matches in Hm. by destruct (match DenyRule.exceptWithin deny with Some _ => _ | None => _ end). }
  unfold denyMayIntersect. rewrite (Hex _ Hw Hcp). destruct (ResourceRef.is_file r) eqn:Ef.
  { intros <-%Ok_inj. by rewrite <-(Hf eq_refl). }
  destruct Ha as [Ha|Ha].
  - rewrite Hhome in *. destruct (WindowsPath.prefix_contains d h Hh Hne _ _ Ha Hp Hpm) as (x & -> & Hx & Hxp).
    cbn [rbind]. rewrite (Hex x Hx Hxp). intros <-%Ok_inj. by apply (WindowsPath.contains_total _ _ p).
  - unfold PathPattern.literalPrefix. rewrite Ha. cbn [rbind].
    destruct (PathPattern.homeAnchored (DenyRule.pattern deny)) eqn:Eh; [|by intros <-%Ok_inj].
    rewrite Hhome in *. destruct (WindowsPath.prefix_contains d h Hh Hne _ _ Eh Hp Hpm) as (x & Hl & Hx & Hxp).
    unfold PathPattern.literalPrefix in Hl. rewrite Ha, Eh in Hl. injection Hl as <-.
    rewrite (Hex _ Hx Hxp). intros <-%Ok_inj. by apply (WindowsPath.contains_total _ _ p).
Qed.

Section plan.
Context (overlayHome : AbsolutePath).
(** The private, disposable places of a run. *)
Definition private (p : AbsolutePath) : Prop := isPrivateEphemeral context overlayHome p = Ok true.
Lemma overlay_private : private overlayHome.
Proof. unfold private, isPrivateEphemeral. by rewrite AbsolutePath.contains_refl. Qed.

Lemma granted_elem canonical a refs r : r ∈ granted policy context canonical a refs → r ∈ refs ∧ isDeniedFile policy context r a = false.
Proof. intros [Hr [_ H%negb_true_iff]%andb_true_iff]%elem_of_bfilter. done. Qed.

(** A reference that is granted, not private and covers a refused path is no file. *)
Lemma granted_file a r p : drive_ref r → WindowsPath.drive_wf p → ResourceRef.covers r p = true → isDeniedFile policy context r a = false →
  ResourceRef.is_file r = true → SandboxPolicy.isOverridden policy a p = true ∨ SandboxPolicy.isDenied policy a p context = false.
Proof.
  intros Hr Hp Hc Hd Hf. destruct (covers_drive r p Hr Hp Hc) as [_ ->]; [|done].
  unfold isDeniedFile in Hd. rewrite Hf in Hd. cbn [negb] in Hd. unfold SandboxPolicy.isOverridden, SandboxPolicy.isDenied.
  destruct (some _ (SandboxPolicy.overrides policy)); [by left|by right].
Qed.
Lemma allows_granted a r p : r ∈ SandboxPolicy.allowsRef policy a → ResourceRef.covers r p = true →
  (SandboxPolicy.isDenied policy a p context = true → SandboxPolicy.isOverridden policy a p = true) →
  SandboxPolicy.allows policy a p context = true.
Proof.
  intros Hr Hc Hd. unfold SandboxPolicy.allows. case_if; [done|]. case_if; [by discriminate Hd|]. apply some_true. eauto.
Qed.

Lemma write_gap_free r p : drive_ref r → WindowsPath.drive_wf p → ResourceRef.covers r p = true →
  write_gaps policy context overlayHome r = Ok [] → ¬ private (ResourceRef.path r) →
  SandboxPolicy.isDenied policy write p context = true → SandboxPolicy.isOverridden policy write p = true.
Proof.
  intros Hr Hp Hc Hg Hpriv (d & Hin & [Ha Hm]%andb_true_iff)%some_true. unfold write_gaps, private in *.
  destruct (isPrivateEphemeral _ _ _) as [[]|]; [by destruct Hpriv| |done]. cbn [rbind] in Hg.
  destruct (rmapM _ _) as [gs|] eqn:Egs; [|done]. apply Ok_inj in Hg.
  destruct (rmapM_elem _ _ _ d Egs Hin) as (y & Hy & Hyin). unfold deny_gap in Hy. rewrite Ha in Hy. cbn [negb orb] in Hy.
  apply bool_decide_eq_true in Ha. destruct (isFullyOverridden policy r d) eqn:Eo; [by eapply overridden_covers|].
  destruct (denyMayIntersect context r d) as [b|] eqn:Ei; [|done]. cbn [rbind] in Hy. apply Ok_inj in Hy.
  assert (b = true) as ->.
  { eapply may_intersect; try done. by eapply Forall_forall in Hin; [|exact (dp_denies _ _ Hpolicy)]. }
  subst y. assert (gap_text r d ∈ omap (λ g : option string, g) gs) as Hgap by (apply list_elem_of_omap; eauto).
  rewrite Hg in Hgap. by apply elem_of_nil in Hgap.
Qed.

Lemma read_scanned r p y : drive_ref r → WindowsPath.drive_wf p → ResourceRef.covers r p = true → ResourceRef.is_subtree r = true →
  scan_of policy context overlayHome r = Ok y → ¬ private (ResourceRef.path r) →
  SandboxPolicy.isDenied policy read p context = true → SandboxPolicy.isOverridden policy read p = false →
  ∃ s, y = Some s ∧ scan_root s = r ∧ refused policy context s p.
Proof.
  intros Hr Hp Hc Hsub Hs Hpriv (d & Hin & [Ha Hm]%andb_true_iff)%some_true Ho. unfold scan_of, private in *. rewrite Hsub in Hs. cbn [negb] in Hs.
  destruct (isPrivateEphemeral _ _ _) as [[]|]; [by destruct Hpriv| |done]. cbn [rbind] in Hs.
  destruct (rfilter _ _) as [ds|] eqn:Eds; [|done]. apply Ok_inj in Hs.
  destruct (rfilter_elem _ _ _ d Eds Hin) as (b & Hb & Hbin). rewrite Ha in Hb.
  destruct (isFullyOverridden policy r d) eqn:Eo.
  { apply bool_decide_eq_true in Ha. by rewrite (overridden_covers read r d p) in Ho by done. }
  cbn [andb negb] in Hb. assert (b = true) as ->.
  { eapply may_intersect; try done. by eapply Forall_forall in Hin; [|exact (dp_denies _ _ Hpolicy)]. }
  specialize (Hbin eq_refl). destruct ds as [|d0 ds]; [by apply elem_of_nil in Hbin|]. subst y.
  eexists. split; [done|]. split; [done|]. split; [done|]. by exists d.
Qed.

Lemma plan_parts P : plan policy context overlayHome = Ok P → ∃ canonical subtraction scans,
  rmapM (write_gaps policy context overlayHome) (granted policy context canonical write (SandboxPolicy.writes policy)) = Ok subtraction
  ∧ rmapM (scan_of policy context overlayHome) (granted policy context canonical read (SandboxPolicy.reads policy)) = Ok scans
  ∧ gaps P = platform_gap context ++ network_gap policy ++ concat subtraction ∧ readDenyScans P = omap (λ s, s) scans
  ∧ (∀ r, r ∈ plan_writes P → r ∈ granted policy context canonical write (SandboxPolicy.writes policy) ∨ r = ResourceRef.subtree overlayHome)
  ∧ (∀ r, r ∈ plan_reads P → r ∈ granted policy context canonical read (SandboxPolicy.reads policy) ∨ r = ResourceRef.subtree overlayHome).
Proof.
  unfold plan. intros H. res_inv. eexists _, _, _. split_and!; [done..| |]; cbn [plan_writes plan_reads];
    intros r [?|?%list_elem_of_singleton]%deduplicate_elem%elem_of_app; auto.
Qed.
Lemma gapless_writes P : plan policy context overlayHome = Ok P → gaps P = [] → ∀ r, r ∈ plan_writes P →
  r = ResourceRef.subtree overlayHome
  ∨ r ∈ SandboxPolicy.writes policy ∧ write_gaps policy context overlayHome r = Ok [].
Proof.
  intros (canonical & subtraction & scans & Hg & _ & Hgaps & _ & Hw & _)%plan_parts Hnil r [Hr|Hr]%Hw; [right|by left].
  destruct (granted_elem _ _ _ _ Hr) as [Hin _]. split; [done|].
  destruct (rmapM_elem _ _ _ r Hg Hr) as (y & Hy & Hyin). rewrite Hy. f_equal. rewrite Hnil in Hgaps.
  symmetry in Hgaps. apply app_eq_nil in Hgaps as [_ [_ Hgaps]%app_eq_nil]. destruct y as [|t y]; [done|].
  assert (t ∈ concat subtraction) as Ht; [|rewrite Hgaps in Ht; by apply elem_of_nil in Ht].
  apply list_elem_of_In, in_concat. exists (t :: y). split; [by apply list_elem_of_In|by left].
Qed.
Lemma planned_reads P : plan policy context overlayHome = Ok P → ∀ r, r ∈ plan_reads P →
  r = ResourceRef.subtree overlayHome
  ∨ r ∈ SandboxPolicy.reads policy ∧ isDeniedFile policy context r read = false
    ∧ ∃ y, scan_of policy context overlayHome r = Ok y ∧ ∀ s, y = Some s → s ∈ readDenyScans P.
Proof.
  intros (canonical & subtraction & scans & _ & Hs & _ & Hscans & _ & Hrd)%plan_parts r [Hr|Hr]%Hrd; [right|by left].
  destruct (granted_elem _ _ _ _ Hr) as [Hin Hf]. split; [done|]. split; [done|].
  destruct (rmapM_elem _ _ _ r Hs Hr) as (y & Hy & Hyin). exists y. split; [done|]. intros s ->. rewrite Hscans. apply list_elem_of_omap. eauto.
Qed.

(** What a plan without gaps grants outside the private places, the policy allows, or the
    scan bars. *)
Lemma plan_confines {W} (listTree : AbsolutePath → M W (list WindowsTreeEntry)) found P w w' ds r p :
  TreeLaws listTree found → plan policy context overlayHome = Ok P → gaps P = [] →
  scan listTree policy context (readDenyScans P) w = (w', Ok ds) →
  WindowsPath.drive_wf p → ResourceRef.covers r p = true → ¬ private (ResourceRef.path r) →
  platform context = Platform.Win32 ∧ SandboxPolicy.network policy = []
  ∧ (r ∈ plan_writes P → SandboxPolicy.allows policy write p context = true)
  ∧ (r ∈ plan_reads P → (ResourceRef.is_subtree r = true → ∃ d, found w (ResourceRef.path r) p d) →
       SandboxPolicy.allows policy read p context = true ∨ ∃ x, x ∈ ds ∧ bars x p).
Proof.
  intros Htree HP Hgaps Hscan Hp Hc Hpriv.
  destruct (plan_parts P HP) as (canonical & subtraction & scans & _ & _ & Hg & _). rewrite Hgaps in Hg. symmetry in Hg.
  apply app_eq_nil in Hg as [Hplat [Hnet _]%app_eq_nil]. split_and!.
  - unfold platform_gap in Hplat. by case_bool_decide.
  - unfold network_gap in Hnet. by destruct (SandboxPolicy.network policy).
  - intros Hr. destruct (gapless_writes P HP Hgaps r Hr) as [->|[Hin Hw]]; [by destruct Hpriv; apply overlay_private|].
    pose proof (proj1 (Forall_forall _ _) (dp_writes _ _ Hpolicy) r Hin) as Hdr.
    apply (allows_granted write r p Hin Hc). by apply (write_gap_free r p Hdr Hp Hc Hw).
  - intros Hr Hfound. destruct (planned_reads P HP r Hr) as [->|(Hin & Hfile & y & Hy & Hys)]; [by destruct Hpriv; apply overlay_private|].
    pose proof (proj1 (Forall_forall _ _) (dp_reads _ _ Hpolicy) r Hin) as Hdr.
    destruct (SandboxPolicy.isDenied policy read p context) eqn:Ed; [|left; apply (allows_granted read r p Hin Hc); congruence].
    destruct (SandboxPolicy.isOverridden policy read p) eqn:Eo; [left; by apply (allows_granted read r p Hin Hc)|].
    destruct (ResourceRef.is_subtree r) eqn:Es; [right|].
    + destruct (read_scanned r p y Hdr Hp Hc Es Hy Hpriv Ed Eo) as (s & -> & Hroot & Href).
      destruct (Hfound eq_refl) as [d Hd]. rewrite <-Hroot in Hd. eapply scan_bars; [exact Htree|exact Hscan|by apply Hys|exact Hd|exact Href].
    + assert (ResourceRef.is_file r = true) as Ef.
      { destruct Hdr as [[Hsc|Hsc] _]; unfold ResourceRef.is_file, ResourceRef.is_subtree in *; rewrite Hsc in *; done. }
      destruct (granted_file read r p Hdr Hp Hc Hfile Ef); congruence.
Qed.
End plan.
End confinement.

(** ** Built policies *)

Section built.
Import PolicyBuilder.
Context `{Digest} (registry : SensitivePathRegistry) (input : PolicyInput).
(** What a policy is built from lies on drives. *)
Record drive_input : Prop := mkDriveInput {
  di_home : ∃ d h, home (context input) = WindowsPath.drive_path d h ∧ is_upper d = true ∧ Forall WindowsPath.seg h ∧ h ≠ [];
  di_workspace : WindowsPath.drive_wf (SensitivePaths.workspace (context input));
  di_state : WindowsPath.drive_wf (stateDir input);
  di_roots : Forall WindowsPath.drive_wf (toolchainRoots input ++ agentStateDirs input ++ tempDirs input);
  di_profile : (∀ rs, StarterProfile.reads (profile input) (home (context input)) = Ok rs → Forall drive_ref rs)
               ∧ (∀ rs, StarterProfile.writes (profile input) (home (context input)) = Ok rs → Forall drive_ref rs);
  di_grants : Forall (λ g, drive_ref (Grant.resource g)) (grants input)
}.
(** The rows that apply on Windows are anchored below the home or start with a wildcard. *)
Definition home_rows : bool :=
  every (λ e, negb (SensitivePath.appliesOn e Platform.Win32) || PathPattern.homeAnchored (SensitivePath.pattern e)
              || (length (PathPattern.literal_head (PathPattern.segments (SensitivePath.pattern e))) =? 0))
    (SensitivePathRegistry.entries registry).

Definition drive_draft (d : Draft) : Prop :=
  Forall drive_ref (d_reads d) ∧ Forall drive_ref (d_writes d) ∧ Forall (λ o, drive_ref (SandboxPolicy.ref o)) (d_overrides d).
Lemma push_ref_drive d a r : drive_draft d → drive_ref r → drive_draft (push_ref d a r).
Proof. intros (Hr & Hw & Ho) H1. destruct a; split_and!; cbn; rewrite ?Forall_app, ?Forall_singleton; done. Qed.
Lemma push_override_drive d o : drive_draft d → drive_ref (SandboxPolicy.ref o) → drive_draft (push_override d o).
Proof. intros (Hr & Hw & Ho) H1. split_and!; cbn; rewrite ?Forall_app, ?Forall_singleton; done. Qed.
Lemma any_yields {A} (m : M (gmap string (list AbsolutePath)) A) : yields (λ _, True) m (λ _, True).
Proof. done. Qed.

Lemma add_all_drive a refs d : drive_draft d → Forall drive_ref refs → yields (λ _, True) (mfold (add registry input a) d refs) drive_draft.
Proof.
  intros Hd Hrefs. apply (yields_fold _ _ refs (λ _, drive_draft)); [|done]. intros _ r acc Hr Hacc.
  eapply yields_seq; [apply any_yields|]. rewrite Forall_forall in Hrefs.
  intros [] _; apply yields_ok; [by apply push_ref_drive; auto|done].
Qed.
Lemma collectGrant_drive g d : drive_draft d → drive_ref (Grant.resource g) → yields (λ _, True) (collectGrant registry input d g) drive_draft.
Proof.
  intros Hd Hg. unfold collectGrant. case_if; [by apply yields_ok|]. eapply yields_seq; [apply any_yields|].
  intros [] _; [by apply yields_ok, push_ref_drive|]. case_if; apply yields_ok; [|done].
  by apply push_ref_drive; [apply push_override_drive|].
Qed.
Lemma build_drive : drive_input → yields (λ _, True) (build registry input) (λ r,
  Forall drive_ref (SandboxPolicy.reads (policy r)) ∧ Forall drive_ref (SandboxPolicy.writes (policy r))
  ∧ Forall (λ o, drive_ref (SandboxPolicy.ref o)) (SandboxPolicy.overrides (policy r))
  ∧ SandboxPolicy.denies (policy r) = denyRules registry (context input)).
Proof.
  intros Hin. unfold build. eapply yields_seq; [apply any_yields|]. intros [] _.
  assert (∀ n, WindowsPath.name n → yields (λ _ : gmap string (list AbsolutePath), True) (mlift (AbsolutePath.joinp (stateDir input) [n])) WindowsPath.drive_wf) as Hj.
  { intros n Hn. apply yields_lift. intros p Hp. destruct (di_state Hin) as (d & segs & E & Hd & Hs). rewrite E in Hp.
    rewrite WindowsPath.joinp_drive in Hp by (try done; by constructor). apply Ok_inj in Hp as <-.
    exists d, (segs ++ [toLowerCase n]). split_and!; [done..|]. apply Forall_app. split; [done|]. constructor; [|constructor].
    by apply WindowsPath.seg_lower. }
  eapply yields_seq; [apply Hj; by vm_compute|]. intros config Hconfig.
  eapply yields_seq; [apply Hj; by vm_compute|]. intros decisions Hdecisions.
  pose proof (di_roots Hin) as [Ht [Ha Htmp]%Forall_app]%Forall_app.
  assert (∀ l, Forall WindowsPath.drive_wf l → Forall drive_ref (map ResourceRef.subtree l)) as Hsub.
  { intros l Hl. apply Forall_map. eapply Forall_impl; [exact Hl|]. intros p Hp. split; [by left|done]. }
  pose proof (di_workspace Hin) as Hws.
  assert (∀ p, WindowsPath.drive_wf p → drive_ref (ResourceRef.subtree p) ∧ drive_ref (ResourceRef.file p)) as Hone.
  { intros p Hp. split; (split; [by (left + right)|done]). }
  eapply (yields_seq _ _ _ drive_draft).
  { unfold collectProfile. destruct (di_profile Hin) as [Hpr Hpw].
    eapply yields_seq; [apply yields_lift; exact Hpr|]. intros rs Hrs.
    eapply (yields_seq _ _ _ drive_draft); [apply add_all_drive; [|done]|].
    - split_and!; cbn [d_reads d_writes d_overrides]; [| |constructor]; repeat (apply Forall_app; split); try (by apply Hsub);
        repeat constructor; by apply Hone.
    - intros d Hd. eapply yields_seq; [apply yields_lift; exact Hpw|]. intros ws Hws'. by apply add_all_drive. }
  intros d Hd. eapply (yields_seq _ _ _ drive_draft).
  { apply (yields_fold _ _ (grants input) (λ _, drive_draft)); [|done]. intros _ g acc Hg Hacc. apply collectGrant_drive; [done|].
    pose proof (di_grants Hin) as Hgs. rewrite Forall_forall in Hgs. auto. }
  intros d' (Hr & Hw & Ho). by apply yields_ok.
Qed.

Lemma built_policy cache cache' r : drive_input → platform (context input) = Platform.Win32 → home_rows = true →
  build registry input cache = (cache', Ok r) → drive_policy (policy r) (context input).
Proof.
  intros Hin Hp Hrows Hb. destruct (build_drive Hin cache I) as [_ Hbuilt]. rewrite Hb in Hbuilt.
  destruct (Hbuilt r eq_refl) as (Hr & Hw & Ho & Hd). split; [apply Hin|done..|].
  rewrite Hd. apply Forall_forall. intros deny (a & e & He & ->)%PolicyProperties.elem_of_denyRules. apply SensitivePathRegistry.elem_of_dangerousFor in He as (He & Happ & _).
  unfold home_rows in Hrows. rewrite every_true in Hrows. specialize (Hrows e He). rewrite Hp in Happ. rewrite Happ in Hrows. cbn [negb orb] in Hrows.
  split; cbn [DenyRule.pattern DenyRule.exceptWithin].
  - apply orb_true_iff in Hrows as [?|Hl]; [by left|right]. by apply Nat.eqb_eq, length_zero_iff_nil in Hl.
  - intros w Hw'. destruct (SensitivePath.outsideWorkspaceOnly e); [|done]. injection Hw' as <-. apply Hin.
Qed.

(** Only a plan for Windows is without a gap. *)
Lemma gapless_windows policy ctx overlayHome P : plan policy ctx overlayHome = Ok P → gaps P = [] → platform ctx = Platform.Win32.
Proof.
  unfold plan. intros HP Hg. res_inv. cbn [gaps] in Hg. apply app_eq_nil in Hg as [Hg _].
  unfold platform_gap in Hg. by case_bool_decide.
Qed.

(** C5. A Windows profile never exceeds the policy it was made from. Take a policy built
    from paths on drives, over a registry like the shipped one; when its plan has no gap
    and the scan behind the plan succeeds, every path that a granted reference covers,
    outside the private disposable places of the run, is one the policy allows, or, for
    reading, one that a refused entry bars; a path below a granted tree is judged as it
    is found there. A plan without a gap is for Windows and opens no network. *)
Theorem windows_confines {W} (listTree : AbsolutePath → M W (list WindowsTreeEntry)) found cache cache' b overlayHome P w w' ds r p :
  TreeLaws listTree found → drive_input → home_rows = true →
  build registry input cache = (cache', Ok b) →
  plan (policy b) (context input) overlayHome = Ok P → gaps P = [] →
  scan listTree (policy b) (context input) (readDenyScans P) w = (w', Ok ds) →
  WindowsPath.drive_wf p → ResourceRef.covers r p = true → ¬ private (context input) overlayHome (ResourceRef.path r) →
  platform (context input) = Platform.Win32 ∧ SandboxPolicy.network (policy b) = []
  ∧ (r ∈ plan_writes P → SandboxPolicy.allows (policy b) write p (context input) = true)
  ∧ (r ∈ plan_reads P → (ResourceRef.is_subtree r = true → ∃ d, found w (ResourceRef.path r) p d) →
       SandboxPolicy.allows (policy b) read p (context input) = true ∨ ∃ x, x ∈ ds ∧ bars x p).
Proof.
  intros Htree Hin Hrows Hb HP Hg Hs Hwf Hc Hpriv. pose proof (gapless_windows _ _ _ _ HP Hg) as Hp. pose proof (built_policy cache cache' b Hin Hp Hrows Hb) as Hpol.
  destruct (plan_confines (policy b) (context input) Hpol overlayHome listTree found P w w' ds r p Htree HP Hg Hs Hwf Hc Hpriv) as (_ & ? & ? & ?).
  by split_and!.
Qed.
End built.

Lemma shipped_rows : home_rows Registry.default_registry = true.
Proof. vm_compute. reflexivity. Qed.

(** ** A running example *)

Module SampleWindows.
Import WindowsPath PolicyBuilder.
Definition at_ (segs : list string) : AbsolutePath := drive_path "C" ("users" :: "u" :: segs).
Definition context : PathContext := mkContext (at_ []) (at_ ["w"]) Platform.Win32.
Definition overlay : AbsolutePath := at_ ["appdata"; "local"; "temp"; "agentkeeper-win-1"; "profile"; "home"].
(** The whole home is readable as a toolchain root. *)
Definition input : PolicyInput :=
  mkInput (StarterProfile.mkProfile "demo" "demo" "" [] [] []) [] context (WorkspaceId.fromPath (at_ ["w"])) [at_ []]
    (at_ [".agentkeeper"]) [at_ [".claude"]] [at_ ["appdata"; "local"; "temp"; "agentkeeper-x1"]].
Definition no_policy : SandboxPolicy.SandboxPolicy :=
  SandboxPolicy.construct (SandboxPolicy.mkPolicyProps (at_ []) [] [] [] [] [] None None).
Definition built : PolicyBuildResult := match (build Registry.default_registry input ∅).2 with Ok r => r | Err _ => mkBuild no_policy [] end.
Definition planned : WindowsPolicyPlan :=
  match plan (policy built) context overlay with Ok P => P | Err _ => mkPlan [] [] [] (mkOverlay overlay [] []) [] end.

(** The home holds a workspace with a file, a key and a note. *)
Definition tree : list (string * (Stat * list (string * Dirent))) :=
  [(AbsolutePath.value (at_ []), (stat_directory, [(".ssh", dirent_directory); ("w", dirent_directory); ("note.txt", dirent_file)]));
   (AbsolutePath.value (at_ [".ssh"]), (stat_directory, [("id_rsa", dirent_file)])); (AbsolutePath.value (at_ ["w"]), (stat_directory, [("a.ts", dirent_file)]));
   (AbsolutePath.value (at_ [".ssh"; "id_rsa"]), (stat_file, [])); (AbsolutePath.value (at_ ["w"; "a.ts"]), (stat_file, [])); (AbsolutePath.value (at_ ["note.txt"]), (stat_file, []))].
Definition lstat (p : AbsolutePath) : Stat := match JsMap.get tree (AbsolutePath.value p) with Some e => e.1 | None => stat_missing end.
Definition readdir (p : AbsolutePath) : option (list (string * Dirent)) := snd <$> JsMap.get tree (AbsolutePath.value p).
Definition listTree (r : AbsolutePath) : M unit (list WindowsTreeEntry) := mlift (boundedTree lstat readdir r).
Definition found (w : unit) : AbsolutePath → AbsolutePath → bool → Prop := reach lstat readdir.
#[export] Instance tree_laws : TreeLaws listTree found.
Proof.
  split; [|done]. intros r w w' l [= _ (new & -> & Hr & _)%walk_collects] p d Hf. by apply Hr.
Qed.
Definition refusals : list WindowsDeniedResource :=
  match (scan listTree (policy built) context (readDenyScans planned) tt).2 with Ok ds => ds | Err _ => [] end.

Example refusals_are : refusals = [mkDenied ResourceRef.subtree_scope "C:/users/u/.ssh" read].
Proof. vm_compute. reflexivity. Qed.
Example tree_listed_all : length (match boundedTree lstat readdir (at_ []) with Ok l => l | Err _ => [] end) = 6.
Proof. vm_compute. reflexivity. Qed.

Ltac segs := repeat (apply Forall_cons_2 || apply Forall_nil_2); repeat split; vm_compute; (reflexivity || discriminate).
Lemma at_wf segs : Forall seg segs → drive_wf (at_ segs).
Proof. intros Hs. exists "C"%char, ("users" :: "u" :: segs). split_and!; [done..|]. do 2 (apply Forall_cons_2; [segs|]). done. Qed.
Lemma input_drive : drive_input input.
Proof.
  split; cbn [PolicyBuilder.context SensitivePaths.home SensitivePaths.workspace context input stateDir toolchainRoots agentStateDirs tempDirs grants app profile].
  - exists "C"%char, ["users"; "u"]. split_and!; [done..|segs|done].
  - apply at_wf. segs.
  - apply at_wf. segs.
  - repeat (apply Forall_cons_2 || apply Forall_nil_2); apply at_wf; segs.
  - by split; intros rs [= <-].
  - constructor.
Qed.
Lemma built_ok : build Registry.default_registry input ∅ = ((build Registry.default_registry input ∅).1, Ok built).
Proof. apply PolicyProperties.snd_pair. vm_compute. reflexivity. Qed.
Lemma planned_ok : plan (policy built) context overlay = Ok planned.
Proof. vm_compute. reflexivity. Qed.
Lemma scanned_ok : scan listTree (policy built) context (readDenyScans planned) tt = (tt, Ok refusals).
Proof. vm_compute. reflexivity. Qed.
Lemma key_found : reach lstat readdir (at_ []) (at_ [".ssh"; "id_rsa"]) false.
Proof.
  eapply (reach_below _ _ _ _ ".ssh"); [vm_compute; reflexivity|vm_compute; reflexivity|by left|by right|vm_compute; reflexivity|].
  eapply (reach_below _ _ _ _ "id_rsa"); [vm_compute; reflexivity|vm_compute; reflexivity|by left|by left|vm_compute; reflexivity|].
  apply reach_file. vm_compute. reflexivity.
Qed.
End SampleWindows.

Lemma bounded_tree_exact_witness :
  mkTreeEntry (SampleWindows.at_ [".ssh"; "id_rsa"]) false
  ∈ match boundedTree SampleWindows.lstat SampleWindows.readdir (SampleWindows.at_ []) with Ok l => l | Err _ => [] end.
Proof.
  destruct (boundedTree SampleWindows.lstat SampleWindows.readdir (SampleWindows.at_ [])) as [l|e] eqn:E.
  - apply (bounded_tree_exact SampleWindows.lstat SampleWindows.readdir (SampleWindows.at_ []) l E). exact SampleWindows.key_found.
  - exfalso. assert (match boundedTree SampleWindows.lstat SampleWindows.readdir (SampleWindows.at_ []) with Ok _ => true | Err _ => false end = true) as H
      by (vm_compute; reflexivity). by rewrite E in H.
Defined.

Lemma windows_confines_witness :
  SandboxPolicy.allows (PolicyBuilder.policy SampleWindows.built) read (SampleWindows.at_ [".ssh"; "id_rsa"]) SampleWindows.context = true
  ∨ ∃ x, x ∈ SampleWindows.refusals ∧ bars x (SampleWindows.at_ [".ssh"; "id_rsa"]).
Proof.
  eapply (windows_confines Registry.default_registry SampleWindows.input SampleWindows.listTree SampleWindows.found ∅ _ SampleWindows.built
    SampleWindows.overlay SampleWindows.planned tt tt SampleWindows.refusals (ResourceRef.subtree (SampleWindows.at_ []))
    (SampleWindows.at_ [".ssh"; "id_rsa"])).
  - exact SampleWindows.tree_laws.
  - exact SampleWindows.input_drive.
  - exact shipped_rows.
  - exact SampleWindows.built_ok.
  - exact SampleWindows.planned_ok.
  - vm_compute. reflexivity.
  - exact SampleWindows.scanned_ok.
  - apply SampleWindows.at_wf. SampleWindows.segs.
  - vm_compute. reflexivity.
  - unfold private. vm_compute. discriminate.
  - vm_compute. by right; left.
  - intros _. exists false. exact SampleWindows.key_found.
Defined.
