(* ===== verification/WindowsRequest.v ===== *)
(** * The request to the Windows helper (WindowsSandboxRunner.ts)

    The bytes the runner hands to the native helper: little-endian 32-bit words,
    counted UTF-8 strings and counted collections. A reader takes a value off the front of
    the bytes; every combinator has the law that it reads what its writer wrote, and that
    bytes behind a value do not change it. A byte is an [ascii]. *)

From S2P Require Import Prelude JsString JsNumber NodePath Paths Patterns Values Resources SensitivePaths.
From S2P Require Import Policy WindowsPolicy.
Import WindowsReadDenyScanner.

Module WindowsRequest.

Definition REQUEST_MAGIC : string := "AKSBOX01".
Definition REQUEST_VERSION : Z := 3.
Definition MAX_REQUEST_BYTES : Z := 16 * 1024 * 1024.
Definition MAX_COLLECTION_ITEMS : Z := 100000.
Definition UINT32_MAX : Z := 4294967295.

Record WindowsEncodedResource := mkEncoded { encoded_scope : ResourceRef.ResourceScope; encoded_path : string }.
Record WindowsSandboxRequest := mkWindowsRequest {
  timeoutMs : option JsNumber;
  executable : string;
  cwd : string;
  args : list string;
  request_reads : list WindowsEncodedResource;
  request_writes : list WindowsEncodedResource;
  request_denies : list WindowsDeniedResource
}.

Definition assertWindowsDeadline (t : JsNumber) : result unit :=
  let wrong := throw "Windows sandbox deadline must be an integer between 1 and 4294967294 ms" in
  match t with Int z => if (z <=? 0)%Z || (UINT32_MAX <=? z)%Z then wrong else Ok tt | _ => wrong end.
Definition encodeResource (r : ResourceRef) : WindowsEncodedResource :=
  mkEncoded (ResourceRef.scope r) (AbsolutePath.value (ResourceRef.path r)).

(** ** Bytes *)

Definition byte (z : Z) : ascii := chr (Z.to_nat (z mod 256)).
Definition le32 (z : Z) : string := String (byte z) (String (byte (z / 2 ^ 8)) (String (byte (z / 2 ^ 16)) (str1 (byte (z / 2 ^ 24))))).
Definition code_Z (c : ascii) : Z := Z.of_nat (code c).
Definition read32 (a b c d : ascii) : Z := (code_Z a + 2 ^ 8 * code_Z b + 2 ^ 16 * code_Z c + 2 ^ 24 * code_Z d)%Z.

(** [Buffer.from(s, 'utf8')] *)
Fixpoint utf8_encode (s : string) : string :=
  match s with
  | "" => ""
  | String c r => if code c <? 128 then String c (utf8_encode r)
                  else String (chr (192 + code c / 64)) (String (chr (128 + code c mod 64)) (utf8_encode r))
  end.
(** [buffer.toString('utf8')] of the encoding of a text of code units below 256. *)
Fixpoint utf8_decode (s : string) : option string :=
  match s with
  | "" => Some ""
  | String a r =>
      if code a <? 128 then String a <$> utf8_decode r
      else match r with
           | String b r' =>
               if ((code a =? 194) || (code a =? 195)) && (128 <=? code b) && (code b <? 192)
               then String (chr ((code a - 192) * 64 + (code b - 128))) <$> utf8_decode r' else None
           | "" => None
           end
  end.

(** ** The writer *)

Module writer.
(** [writeUInt32LE] throws beyond its range, which no count of this program reaches. *)
Definition uint32 (z : Z) : result string :=
  if (0 <=? z)%Z && (z <=? UINT32_MAX)%Z then Ok (le32 z) else throw "The value is out of range".
Definition string_ (s : string) : result string :=
  if has_char nul s then throw "Windows sandbox strings cannot contain NUL bytes"
  else let! n := uint32 (Z.of_nat (slen (utf8_encode s))) in Ok (n +:+ utf8_encode s).
Definition count (z : Z) : result string :=
  if (MAX_COLLECTION_ITEMS <? z)%Z then throw ("Invalid Windows sandbox collection size: " +:+ string_of_Z z) else uint32 z.
Definition collection {A} (write : A → result string) (l : list A) : result string :=
  let! n := count (Z.of_nat (length l)) in let! items := rmapM write l in Ok (n +:+ join "" items).
Definition strings : list string → result string := collection string_.
Definition scope_word (s : ResourceRef.ResourceScope) : Z := if bool_decide (s = ResourceRef.subtree_scope) then 1 else 0.
Definition resource (r : WindowsEncodedResource) : result string :=
  let! s := uint32 (scope_word (encoded_scope r)) in let! p := string_ (encoded_path r) in Ok (s +:+ p).
Definition resources : list WindowsEncodedResource → result string := collection resource.
Definition deny (d : WindowsDeniedResource) : result string :=
  let! s := uint32 (scope_word (denied_scope d)) in
  let! a := uint32 (match denied_access d with read => 0 | write => 1 end) in
  let! p := string_ (denied_path d) in Ok (s +:+ a +:+ p).
Definition denies : list WindowsDeniedResource → result string := collection deny.
End writer.

Definition deadline_word (t : option JsNumber) : Z := match t with Some (Int z) => z | _ => 0 end.
Definition encodeWindowsSandboxRequest (r : WindowsSandboxRequest) : result string :=
  let! _ := match timeoutMs r with Some t => assertWindowsDeadline t | None => Ok tt end in
  let! version := writer.uint32 REQUEST_VERSION in
  let! deadline := writer.uint32 (deadline_word (timeoutMs r)) in
  let! exe := writer.string_ (executable r) in
  let! dir := writer.string_ (cwd r) in
  let! argv := writer.strings (args r) in
  let! rs := writer.resources (request_reads r) in
  let! ws := writer.resources (request_writes r) in
  let! ds := writer.denies (request_denies r) in
  let bytes := REQUEST_MAGIC +:+ version +:+ deadline +:+ exe +:+ dir +:+ argv +:+ rs +:+ ws +:+ ds in
  if (MAX_REQUEST_BYTES <? Z.of_nat (slen bytes))%Z
  then throw ("Windows sandbox request exceeds " +:+ string_of_Z MAX_REQUEST_BYTES +:+ " bytes") else Ok bytes.

(** ** The reader *)

(** A reader takes a value off the front of the content; what it leaves is where the
    offset of the class stands. *)
Definition Reader (A : Type) : Type := string → result (A * string).
Definition ret {A} (a : A) : Reader A := λ s, Ok (a, s).
Definition raise {A} (message : string) : Reader A := λ _, throw message.
Definition andThen {A B} (m : Reader A) (f : A → Reader B) : Reader B := λ s, let! r := m s in f r.1 r.2.
Notation "'read!' x ':=' m 'in' k" := (andThen m (λ x, k)) (at level 10, x pattern, m at level 100, k at level 200) : js_scope.
(** [if (b) throw new Error(message);] *)
Definition refuse_if (b : bool) (message : string) : Reader unit := if b then raise message else ret tt.
Definition check (c : result unit) : Reader unit := λ s, let! _ := c in Ok (tt, s).

Module reader.
Section reader.
(** What [toString] makes of bytes that are no text of the model. *)
Context (other : string → string).
Definition toString (b : string) : string := default (other b) (utf8_decode b).
Definition bytes (n : Z) : Reader string := λ s,
  if (n <? 0)%Z || (Z.of_nat (slen s) <? n)%Z then throw "Truncated Windows sandbox request" else Ok (stake (Z.to_nat n) s, sdrop (Z.to_nat n) s).
Definition uint32 : Reader Z :=
  read! b := bytes 4 in
  match b with
  | String a (String b (String c (String d _))) => ret (read32 a b c d)
  | _ => raise "Truncated Windows sandbox request"
  end.
Definition string_ : Reader string :=
  read! n := uint32 in
  read! b := bytes n in
  read! _ := refuse_if (has_char nul (toString b)) "Windows sandbox strings cannot contain NUL bytes" in
  ret (toString b).
Definition collectionCount : Reader nat :=
  read! n := uint32 in
  read! _ := refuse_if (MAX_COLLECTION_ITEMS <? n)%Z ("Windows sandbox collection exceeds " +:+ string_of_Z MAX_COLLECTION_ITEMS +:+ " items") in
  ret (Z.to_nat n).
(** [Array.from({ length }, () => read())] *)
Fixpoint times {A} (n : nat) (rd : Reader A) : Reader (list A) :=
  match n with
  | O => ret []
  | S n => read! x := rd in read! xs := times n rd in ret (x :: xs)
  end.
Definition collection {A} (rd : Reader A) : Reader (list A) := read! n := collectionCount in times n rd.
Definition strings : Reader (list string) := collection string_.
Definition scope_of (z : Z) : ResourceRef.ResourceScope := if (z =? 1)%Z then ResourceRef.subtree_scope else ResourceRef.file_scope.
Definition flag (z : Z) (message : string) : Reader unit := refuse_if (negb (z =? 0)%Z && negb (z =? 1)%Z) message.
Definition resource : Reader WindowsEncodedResource :=
  read! sc := uint32 in
  read! _ := flag sc "Invalid Windows sandbox resource scope" in
  read! p := string_ in
  ret (mkEncoded (scope_of sc) p).
Definition resources : Reader (list WindowsEncodedResource) := collection resource.
Definition deny : Reader WindowsDeniedResource :=
  read! sc := uint32 in
  read! ac := uint32 in
  read! _ := flag sc "Invalid Windows sandbox deny scope" in
  read! _ := flag ac "Invalid Windows sandbox deny access" in
  read! p := string_ in
  ret (mkDenied (scope_of sc) p (if (ac =? 0)%Z then read else write)).
Definition denies : Reader (list WindowsDeniedResource) := collection deny.

Definition request : Reader WindowsSandboxRequest :=
  read! magic := bytes (Z.of_nat (slen REQUEST_MAGIC)) in
  read! _ := refuse_if (negb (magic =? REQUEST_MAGIC)%string) "Invalid Windows sandbox request magic" in
  read! version := uint32 in
  read! _ := refuse_if (negb (version =? REQUEST_VERSION)%Z) "Unsupported Windows sandbox request version" in
  read! t := uint32 in
  read! _ := check (if (t =? 0)%Z then Ok tt else assertWindowsDeadline (Int t)) in
  read! exe := string_ in
  read! dir := string_ in
  read! argv := strings in
  read! rs := resources in
  read! ws := resources in
  read! ds := denies in
  ret (mkWindowsRequest (if (t =? 0)%Z then None else Some (Int t)) exe dir argv rs ws ds).
End reader.
End reader.

Definition decodeWindowsSandboxRequest (other : string → string) (content : string) : result WindowsSandboxRequest :=
  if (MAX_REQUEST_BYTES <? Z.of_nat (slen content))%Z then throw "Windows sandbox request is too large"
  else
    let! r := reader.request other content in
    if (0 <? slen r.2) then throw "Trailing data in Windows sandbox request" else Ok r.1.

(** ** The laws of the combinators *)

(** [reads rd b x]: off the front of anything that starts with [b], [rd] takes [x]. *)
Definition reads {A} (rd : Reader A) (b : string) (x : A) : Prop := ∀ rest, rd (b +:+ rest) = Ok (x, rest).
(** [steady rd]: bytes behind what was read change nothing. *)
Definition steady {A} (rd : Reader A) : Prop := ∀ s x rest t, rd s = Ok (x, rest) → rd (s +:+ t) = Ok (x, rest +:+ t).

Lemma code_chr n : n < 256 → code (chr n) = n.
Proof. apply nat_ascii_embedding. Qed.
Lemma code_byte z : code_Z (byte z) = (z mod 256)%Z.
Proof.
  pose proof (Z.mod_pos_bound z 256). unfold code_Z, byte. rewrite code_chr by (apply Nat2Z.inj_lt; lia). lia.
Qed.
Lemma read32_le32 z : (0 ≤ z ≤ UINT32_MAX)%Z →
  read32 (byte z) (byte (z / 2 ^ 8)) (byte (z / 2 ^ 16)) (byte (z / 2 ^ 24)) = z.
Proof.
  unfold UINT32_MAX, read32. intros Hz. rewrite !code_byte.
  change (2 ^ 8)%Z with 256%Z. change (2 ^ 16)%Z with 65536%Z. change (2 ^ 24)%Z with 16777216%Z.
  Z.to_euclidean_division_equations. lia.
Qed.

Lemma utf8_pair c : (code c <? 128) = false →
  let a := chr (192 + code c / 64) in let b := chr (128 + code c mod 64) in
  (code a <? 128) = false ∧ ((code a =? 194) || (code a =? 195)) && (128 <=? code b) && (code b <? 192) = true
  ∧ chr ((code a - 192) * 64 + (code b - 128)) = c.
Proof. by destruct c as [[] [] [] [] [] [] [] []]; vm_compute; try discriminate. Qed.
Lemma utf8_roundtrip s : utf8_decode (utf8_encode s) = Some s.
Proof.
  induction s as [|c s IH]; [done|]. cbn [utf8_encode]. destruct (code c <? 128) eqn:Ec.
  - cbn [utf8_decode]. by rewrite Ec, IH.
  - destruct (utf8_pair c Ec) as (Ha & Hb & Hc). cbn [utf8_decode]. by rewrite Ha, Hb, IH, Hc.
Qed.

Create HintDb codec.

Section laws.
Context (other : string → string).

Lemma bytes_reads b : reads (reader.bytes (Z.of_nat (slen b))) b b.
Proof.
  intros rest. unfold reader.bytes. rewrite slen_app. destruct (Z.ltb_spec (Z.of_nat (slen b)) 0); [lia|].
  destruct (Z.ltb_spec (Z.of_nat (slen b + slen rest)) (Z.of_nat (slen b))); [lia|].
  by rewrite Nat2Z.id, stake_app, sdrop_app.
Qed.
Lemma stake_app_le n s t : n ≤ slen s → stake n (s +:+ t) = stake n s ∧ sdrop n (s +:+ t) = sdrop n s +:+ t.
Proof.
  revert s. induction n as [|n IH]; intros s Hn; [by destruct s|]. destruct s as [|c s]; cbn in Hn; [lia|].
  destruct (IH s) as [E1 E2]; [lia|]. cbn. by rewrite E1, E2.
Qed.
Lemma bytes_steady n : steady (reader.bytes n).
Proof.
  intros s x rest t. unfold reader.bytes. rewrite slen_app. destruct (n <? 0)%Z; [done|].
  destruct (Z.ltb_spec (Z.of_nat (slen s)) n); [done|]. cbn [orb].
  intros [= <- <-]. destruct (Z.ltb_spec (Z.of_nat (slen s + slen t)) n); [lia|].
  destruct (stake_app_le (Z.to_nat n) s t) as [-> ->]; [lia|]. done.
Qed.
(** Reading on. *)
Lemma reads_then {A B} (m : Reader A) (f : A → Reader B) a b x y : reads m a x → reads (f x) b y → reads (andThen m f) (a +:+ b) y.
Proof. intros Hm Hf rest. unfold andThen. rewrite sapp_assoc, Hm. apply Hf. Qed.
Lemma reads_ret {A} (x : A) : reads (ret x) "" x.
Proof. done. Qed.
(** A step that reads nothing. *)
Lemma reads_check {B} (m : Reader unit) (f : unit → Reader B) b y : reads m "" tt → reads (f tt) b y → reads (andThen m f) b y.
Proof. intros Hm Hf. by apply (reads_then m f "" b tt y). Qed.
Lemma reads_last {A B} (m : Reader A) (f : A → B) a x : reads m a x → reads (andThen m (λ x, ret (f x))) a (f x).
Proof. intros Hm. rewrite <-(sapp_nil_r a). by eapply reads_then; [exact Hm|]. Qed.
Lemma reads_passed b message : b = false → reads (refuse_if b message) "" tt.
Proof. by intros ->. Qed.

Lemma steady_then {A B} (m : Reader A) (f : A → Reader B) : steady m → (∀ a, steady (f a)) → steady (andThen m f).
Proof.
  intros Hm Hf s x rest t. unfold andThen. destruct (m s) as [[a s1]|] eqn:E; [|done]. cbn [rbind fst snd]. intros H.
  rewrite (Hm _ _ _ t E). cbn [rbind fst snd]. by apply Hf.
Qed.
Lemma steady_ret {A} (a : A) : steady (ret a).
Proof. by intros s x rest t [= <- <-]. Qed.
Lemma steady_raise {A} m : steady (raise m : Reader A).
Proof. by intros s x rest t. Qed.
Lemma steady_refuse b m : steady (refuse_if b m).
Proof. destruct b; [apply steady_raise|apply steady_ret]. Qed.
Lemma steady_check c : steady (check c).
Proof. intros s x rest t. unfold check. destruct c; [|done]. by intros [= <- <-]. Qed.
Hint Resolve steady_then steady_ret steady_raise steady_refuse steady_check bytes_steady : codec.
Ltac steady_tac := repeat (apply steady_then; [auto with codec|intros ?]); auto with codec.

Lemma uint32_reads z b : writer.uint32 z = Ok b → reads reader.uint32 b z.
Proof.
  unfold writer.uint32. destruct (0 <=? z)%Z eqn:H0; [|done]. destruct (z <=? UINT32_MAX)%Z eqn:H1; [|done]. bool_prop.
  intros <-%Ok_inj rest. unfold reader.uint32, andThen. change 4%Z with (Z.of_nat (slen (le32 z))). rewrite bytes_reads. cbn [rbind fst snd].
  unfold le32, str1, ret. by rewrite read32_le32.
Qed.
Lemma uint32_steady : steady reader.uint32.
Proof. apply steady_then; [auto with codec|]. intros [|a [|b [|c [|d r]]]]; auto with codec. Qed.
Hint Resolve uint32_steady : codec.
Lemma string_reads s b : writer.string_ s = Ok b → reads (reader.string_ other) b s.
Proof.
  unfold writer.string_. destruct (has_char nul s) eqn:Hn; [done|]. destruct (writer.uint32 _) as [n|] eqn:En; [|done].
  cbn [rbind]. intros <-%Ok_inj. eapply reads_then; [by apply uint32_reads|]. rewrite <-(sapp_nil_r (utf8_encode s)) at 2.
  assert (reader.toString other (utf8_encode s) = s) as Hs by (unfold reader.toString; by rewrite utf8_roundtrip).
  eapply reads_then; [apply bytes_reads|]. rewrite Hs. apply reads_check; [by apply reads_passed|done].
Qed.
Lemma string_steady : steady (reader.string_ other).
Proof. unfold reader.string_. steady_tac. Qed.
Hint Resolve string_steady : codec.

Lemma times_reads {A} (rd : Reader A) (put : A → result string) l bs : (∀ x b, x ∈ l → put x = Ok b → reads rd b x) →
  rmapM put l = Ok bs → reads (reader.times (length l) rd) (join "" bs) l.
Proof.
  revert bs. induction l as [|x l IH]; intros bs Hrd Hw; cbn in Hw; [by apply Ok_inj in Hw as <-|]. res_inv.
  rewrite join_empty_cons. cbn [length reader.times]. eapply reads_then; [apply Hrd; [by left|done]|].
  apply (reads_last (reader.times (length l) rd) (cons x)). apply IH; [|done]. intros y b Hy. apply Hrd. by right.
Qed.
Lemma times_steady {A} (rd : Reader A) n : steady rd → steady (reader.times n rd).
Proof. intros Hrd. induction n as [|n IH]; cbn [reader.times]; steady_tac. Qed.
Lemma collection_reads {A} (rd : Reader A) (put : A → result string) l b : (∀ x b, x ∈ l → put x = Ok b → reads rd b x) →
  writer.collection put l = Ok b → reads (reader.collection rd) b l.
Proof.
  intros Hrd. unfold writer.collection, writer.count. destruct (Z.ltb_spec MAX_COLLECTION_ITEMS (Z.of_nat (length l))) as [|Hle]; [done|].
  intros Hw. res_inv. unfold reader.collection. eapply (reads_then _ _ _ _ (length l)); [|by apply (times_reads rd put)].
  unfold reader.collectionCount. rewrite <-(sapp_nil_r a). eapply reads_then; [by apply uint32_reads|].
  apply reads_check; [apply reads_passed; by apply Z.ltb_ge|]. by rewrite Nat2Z.id.
Qed.
Lemma collection_steady {A} (rd : Reader A) : steady rd → steady (reader.collection rd).
Proof. intros Hrd. unfold reader.collection, reader.collectionCount. apply steady_then; [steady_tac|]. intros n. by apply times_steady. Qed.
Hint Resolve collection_steady : codec.

(** A resource as the policy names it. *)
Definition plain_scope (s : ResourceRef.ResourceScope) : Prop := s = ResourceRef.subtree_scope ∨ s = ResourceRef.file_scope.
Lemma scope_reads s : plain_scope s → reader.scope_of (writer.scope_word s) = s ∧ ∀ m, reads (reader.flag (writer.scope_word s) m) "" tt.
Proof. by intros [-> | ->]. Qed.
Lemma resource_reads r b : plain_scope (encoded_scope r) → writer.resource r = Ok b → reads (reader.resource other) b r.
Proof.
  destruct r as [sc p]. intros [Hs Hf]%scope_reads Hw. unfold writer.resource in Hw. res_inv. cbn [encoded_scope encoded_path] in *.
  unfold reader.resource. eapply reads_then; [by apply uint32_reads|]. apply reads_check; [apply Hf|]. rewrite Hs.
  by apply (reads_last _ (mkEncoded sc)), string_reads.
Qed.
Lemma resource_steady : steady (reader.resource other).
Proof. unfold reader.resource, reader.flag. steady_tac. Qed.
Lemma deny_reads d b : plain_scope (denied_scope d) → writer.deny d = Ok b → reads (reader.deny other) b d.
Proof.
  destruct d as [sc p ac]. intros [Hs Hf]%scope_reads Hw. unfold writer.deny in Hw. res_inv.
  cbn [denied_scope denied_path denied_access] in *. unfold reader.deny.
  eapply reads_then; [by apply uint32_reads|]. eapply reads_then; [by apply uint32_reads|].
  apply reads_check; [apply Hf|]. apply reads_check; [by destruct ac|]. rewrite Hs.
  destruct ac; by apply (reads_last _ (λ p, mkDenied sc p _)), string_reads.
Qed.
Lemma deny_steady : steady (reader.deny other).
Proof. unfold reader.deny, reader.flag. steady_tac. Qed.
Hint Resolve resource_steady deny_steady : codec.

Lemma request_steady : steady (reader.request other).
Proof. unfold reader.request, reader.strings, reader.resources, reader.denies. steady_tac. Qed.

(** A request whose resources are named by a plain scope, as the translator makes them. *)
Definition plain (r : WindowsSandboxRequest) : Prop :=
  (∀ x, x ∈ request_reads r ++ request_writes r → plain_scope (encoded_scope x)) ∧ ∀ d, d ∈ request_denies r → plain_scope (denied_scope d).
(** An accepted deadline is a whole number that no reserved word stands for. *)
Lemma deadline_word_spec t : match t with Some t => assertWindowsDeadline t | None => Ok tt end = Ok tt →
  let z := deadline_word t in
  (if (z =? 0)%Z then None else Some (Int z)) = t ∧ (if (z =? 0)%Z then Ok tt else assertWindowsDeadline (Int z)) = Ok tt.
Proof.
  destruct t as [[z| |]|]; [|done..]. cbn. destruct ((z <=? 0)%Z || _) eqn:E; [done|]. intros _. bool_prop.
  by destruct (Z.eqb_spec z 0); [lia|].
Qed.
Lemma resources_read l b : (∀ x, x ∈ l → plain_scope (encoded_scope x)) → writer.resources l = Ok b →
  reads (reader.resources other) b l.
Proof. intros Hl. apply collection_reads. intros x bx Hx. by apply resource_reads, Hl. Qed.
Lemma request_reads_back r b : plain r → encodeWindowsSandboxRequest r = Ok b →
  reads (reader.request other) b r ∧ (Z.of_nat (slen b) ≤ MAX_REQUEST_BYTES)%Z.
Proof.
  destruct r as [t exe dir argv rs ws ds]. intros [Hr Hd] Hw. unfold encodeWindowsSandboxRequest in Hw. res_inv.
  cbn [timeoutMs executable cwd args request_reads request_writes request_denies] in *.
  destruct (Z.ltb_spec MAX_REQUEST_BYTES (Z.of_nat (slen (REQUEST_MAGIC +:+ a0 +:+ a1 +:+ a2 +:+ a3 +:+ a4 +:+ a5 +:+ a6 +:+ a7)))) as [|Hlen];
    [done|]. apply Ok_inj in Hw as <-. split; [|done]. destruct a.
  destruct (deadline_word_spec t) as [Ht Hc]; [done|]. unfold reader.request.
  eapply reads_then; [apply bytes_reads|]. apply reads_check; [by apply reads_passed|].
  eapply reads_then; [by apply uint32_reads|]. apply reads_check; [by apply reads_passed|].
  eapply reads_then; [by apply uint32_reads|]. apply reads_check; [intros rest; unfold check; by rewrite Hc|]. rewrite Ht.
  eapply reads_then; [by apply string_reads|]. eapply reads_then; [by apply string_reads|].
  eapply reads_then; [by apply (collection_reads _ writer.string_); [intros; by apply string_reads|]|].
  eapply reads_then; [apply resources_read; [|done]; set_solver|]. eapply reads_then; [apply resources_read; [|done]; set_solver|].
  apply (reads_last _ (mkWindowsRequest t exe dir argv rs ws)).
  apply (collection_reads _ writer.deny); [|done]. intros d bd Hin. by apply deny_reads, Hd.
Qed.
Lemma request_decodes r b : plain r → encodeWindowsSandboxRequest r = Ok b → decodeWindowsSandboxRequest other b = Ok r.
Proof.
  intros Hp He. destruct (request_reads_back r b Hp He) as [Hread Hlen]. specialize (Hread ""). rewrite sapp_nil_r in Hread.
  unfold decodeWindowsSandboxRequest. destruct (Z.ltb_spec MAX_REQUEST_BYTES (Z.of_nat (slen b))); [lia|]. by rewrite Hread.
Qed.
End laws.

(** C18. The request the helper is given is exact. When the encoder accepts a request whose
    resources have a plain scope, the decoder reads that very request back from the bytes:
    the bytes keep to the size limit, every proper prefix of them is refused, and so is
    every extension by further bytes. Whatever the values of the fields, their lengths and
    the NULs in them, no other such request has the same bytes. *)
Theorem request_wire_exact other r b : plain r → encodeWindowsSandboxRequest r = Ok b →
  decodeWindowsSandboxRequest other b = Ok r
  ∧ (Z.of_nat (slen b) ≤ MAX_REQUEST_BYTES)%Z
  ∧ (∀ r', plain r' → encodeWindowsSandboxRequest r' = Ok b → r' = r)
  ∧ (∀ cut tail, b = cut +:+ tail → tail ≠ "" → ∃ e, decodeWindowsSandboxRequest other cut = Err e)
  ∧ ∀ tail, tail ≠ "" → ∃ e, decodeWindowsSandboxRequest other (b +:+ tail) = Err e.
Proof.
  intros Hp He. destruct (request_reads_back other r b Hp He) as [Hread Hlen].
  pose proof (Hread "") as Hwhole. rewrite sapp_nil_r in Hwhole.
  split; [by apply request_decodes|]. unfold decodeWindowsSandboxRequest. split_and!; [done| |intros cut tail Hb Ht|intros tail Ht].
  - intros r' Hp' He'. pose proof (request_decodes other r b Hp He) as H1. rewrite (request_decodes other r' b Hp' He') in H1.
    by apply Ok_inj in H1.
  - destruct (MAX_REQUEST_BYTES <? _)%Z; [by eexists|]. destruct (reader.request other cut) as [[x rest]|e] eqn:Ec; [|by exists e].
    apply (request_steady _ _ _ _ tail) in Ec. rewrite <-Hb, Hwhole in Ec. apply Ok_inj in Ec. by destruct rest, tail.
  - destruct (MAX_REQUEST_BYTES <? _)%Z; [by eexists|]. rewrite Hread. cbn [rbind fst snd]. destruct tail; [done|by eexists].
Qed.

Module SampleRequest.
(** A node run of one second that reads a project and is refused a file of the account;
    one argument has a letter of two bytes. *)
Definition accent : ascii := chr 233.
Definition request : WindowsSandboxRequest :=
  mkWindowsRequest (Some (Int 1000)) "C:\node.exe" "C:\work" ["-e"; String "r" (String accent "sum")]
    [mkEncoded ResourceRef.subtree_scope "C:\work"] [mkEncoded ResourceRef.file_scope "C:\out.log"]
    [mkDenied ResourceRef.file_scope "C:\Users\me\.npmrc" read].
Definition wire : string := match encodeWindowsSandboxRequest request with Ok b => b | Err _ => "" end.
End SampleRequest.

Lemma request_wire_exact_witness :
  SampleRequest.wire ≠ "" ∧ decodeWindowsSandboxRequest (λ b, b) SampleRequest.wire = Ok SampleRequest.request
  ∧ ∃ e, decodeWindowsSandboxRequest (λ b, b) (SampleRequest.wire +:+ "x") = Err e.
Proof.
  split; [by vm_compute|].
  destruct (request_wire_exact (λ b, b) SampleRequest.request SampleRequest.wire) as (H1 & _ & _ & _ & H2).
  - split; [|intros d Hd]; [intros x Hx|]; vm_compute in *; set_unfold.
    + destruct Hx as [-> | [-> | []]]; [by left|by right].
    + destruct Hd as [-> | []]. by right.
  - by vm_compute.
  - split; [exact H1|by apply H2].
Defined.
End WindowsRequest.
