(* ===== verification/WindowsRunner.v ===== *)
(** * The run on Windows (WindowsSandboxRunner.ts)

    [WindowsSandboxRunner]: what the host must offer, the policy that cannot be kept, the
    request handed to the native helper, and which end of the helper counts as a run of
    the agent. The file system, the helper and the listing of a tree are the host's;
    [RunnerLaws] says which of its operations leaves which mark. *)

From S2P Require Import Prelude JsString JsMap JsNumber NodePath Paths Patterns Values Resources Network SensitivePaths.
From S2P Require Import Policy Ports Protection RunSandboxed WindowsPolicy WindowsConfinement WindowsRequest.
Import WindowsPolicyTranslator WindowsReadDenyScanner WindowsRequest Launching.

(** [win32.dirname]: what stands before the last separator of the path proper. *)
Fixpoint last_sep (s : string) : option nat :=
  match s with
  | "" => None
  | String c r => match last_sep r with Some i => Some (S i) | None => if win32.is_sep c then Some 0 else None end
  end.
Definition dirname (p : string) : string :=
  let root := win32.root p in
  match last_sep (drop_end_while win32.is_sep (sdrop (slen root) p)) with
  | Some i => stake (slen root + i) p
  | None => if (root =? "")%string then "." else stake (slen root) p
  end.

Module WindowsSandboxRunner.

(** ** What the native helper reports *)

Definition PREFLIGHT_TIMEOUT_MS : Z := 15000.
Definition NATIVE_ERROR_CODES : list (Z * string) :=
  [(200%Z, "windows.request-invalid"); (201%Z, "windows.appcontainer-profile-failed"); (202%Z, "windows.appcontainer-sid-failed");
   (203%Z, "windows.acl-setup-failed"); (204%Z, "windows.job-setup-failed"); (205%Z, "windows.process-launch-failed");
   (206%Z, "windows.cleanup-failed"); (207%Z, "windows.child-wait-failed"); (208%Z, "windows.child-timed-out");
   (209%Z, "windows.result-channel-failed"); (210%Z, "windows.unsafe-path")].
Definition nativeErrorCode (exitCode : Z) : option string := snd <$> find (λ kv, (kv.1 =? exitCode)%Z) NATIVE_ERROR_CODES.
Definition native_messages : list (string * string) :=
  [("windows.request-invalid", "The native launcher rejected the sandbox request.");
   ("windows.appcontainer-profile-failed", "Windows could not create or validate an AppContainer profile.");
   ("windows.appcontainer-sid-failed", "Windows could not derive the AppContainer package SID.");
   ("windows.acl-setup-failed", "The native launcher could not grant the AppContainer its explicit path capabilities.");
   ("windows.job-setup-failed", "The native launcher could not attach the suspended child to its lifecycle Job Object.");
   ("windows.process-launch-failed", "Windows refused to create the child with the AppContainer security capabilities.");
   ("windows.cleanup-failed", "The native launcher could not remove every temporary AppContainer capability.");
   ("windows.child-wait-failed", "The native launcher could not observe the confined child exit.");
   ("windows.child-timed-out", "The confined child did not exit within the probe deadline; the launcher terminated its "
      +:+ "Job Object and reclaimed the AppContainer profile.");
   ("windows.result-channel-failed", "The native launcher could not create or write its protected result channel.");
   ("windows.unsafe-path", "The native launcher refused a hard-linked file, reparse point, or unsafe path before changing ACLs.");
   ("windows.policy-discovery-failed", "The Windows policy compiler could not resolve every read-only deny rule safely.")].
Definition nativeErrorMessage (code : string) : string :=
  default "The native AppContainer launcher failed its security precondition." (JsMap.get native_messages code).

Record WindowsSandboxNativeResult := mkNativeResult { nativeError : Z; childExitCode : Z }.
(** The sixteen bytes of the result channel: a magic, the native error, the exit code. *)
Definition decodeWindowsSandboxResult (content : string) : result WindowsSandboxNativeResult :=
  if negb (slen content =? 16) || negb (stake 8 content =? "AKSRES01")%string then throw "Invalid Windows sandbox result"
  else
    match sdrop 8 content with
    | String a (String b (String c (String d (String e (String f (String g (String h _))))))) =>
        let nativeError := read32 a b c d in
        if negb (nativeError =? 0)%Z && bool_decide (nativeErrorCode nativeError = None)
        then throw "Unknown Windows sandbox native error"
        else Ok (mkNativeResult nativeError (read32 e f g h))
    | _ => throw "Invalid Windows sandbox result"
    end.

(** ** The host *)

Inductive WindowsSandboxSupport := degraded | unsupported (code message : string).
Inductive Stdio := stdio_ignore | stdio_inherit.
(** The signal of the caller goes to the helper as it is and is left out. *)
Record WindowsSandboxInvocation := mkInvocation {
  inv_cwd : string;
  inv_env : gmap string string;
  stdio : Stdio;
  inv_timeoutMs : option Z
}.
Record WindowsSandboxRunnerDependencies (W : Type) := mkDependencies {
  host_platform : Platform;
  architecture : string;
  helperPath : string;
  canAccess : string → M W bool;
  make_temporary : string → M W string;
  makeDirectory : string → M W unit;
  writeFile : string → string → M W unit;
  readFile : string → M W string;
  remove : string → M W unit;
  invoke : string → list string → WindowsSandboxInvocation → M W SandboxRunResult;
  listTree : AbsolutePath → M W (list WindowsTreeEntry)
}.
Arguments host_platform {W} _. Arguments architecture {W} _. Arguments helperPath {W} _. Arguments canAccess {W} _ _.
Arguments make_temporary {W} _ _. Arguments makeDirectory {W} _ _. Arguments writeFile {W} _ _ _. Arguments readFile {W} _ _.
Arguments remove {W} _ _. Arguments invoke {W} _ _ _ _. Arguments listTree {W} _ _.

Definition owned : list string := ["HOME"; "USERPROFILE"; "APPDATA"; "LOCALAPPDATA"; "TMPDIR"; "TMP"; "TEMP"].
Definition withoutWindowsProfileAliases (env : gmap string string) : gmap string string :=
  filter (λ kv, toUpperCase kv.1 ∉ owned) env.
(** The environment of the confined child: the profile is the private one. *)
Definition profile_variables (overlayHome roaming local_ tmp : AbsolutePath) : list (string * string) :=
  [("HOME", AbsolutePath.value overlayHome); ("USERPROFILE", AbsolutePath.value overlayHome);
   ("APPDATA", AbsolutePath.value roaming); ("LOCALAPPDATA", AbsolutePath.value local_);
   ("TMPDIR", AbsolutePath.value tmp); ("TMP", AbsolutePath.value tmp); ("TEMP", AbsolutePath.value tmp)].
Definition confined_env (overlayHome : AbsolutePath) (env : gmap string string) : result (gmap string string) :=
  let! roaming := AbsolutePath.joinp overlayHome ["AppData"; "Roaming"] in
  let! local_ := AbsolutePath.joinp overlayHome ["AppData"; "Local"] in
  let! tmp := AbsolutePath.joinp overlayHome ["tmp"] in
  Ok (list_to_map (profile_variables overlayHome roaming local_ tmp) ∪ withoutWindowsProfileAliases env).

Definition unenforceable (policy : SandboxPolicy.SandboxPolicy) (context : PathContext) : result (list string) :=
  let! placeholder := AbsolutePath.joinp (home context) ["AppData"; "Local"; "Temp"; "agentkeeper-policy-profile"; "home"] in
  let! p := plan policy context placeholder in Ok (gaps p).

(** [Promise.all(items.map(f))]: every call is made, the first error wins. *)
Fixpoint start_all {W A} (f : A → M W unit) (l : list A) : M W unit :=
  match l with
  | [] => mok tt
  | x :: r => λ w,
      let '(w1, r1) := f x w in
      let '(w2, r2) := start_all f r w1 in
      (w2, match r1 with Ok _ => r2 | Err e => Err e end)
  end.

Section runner.
Context {W : Type} (host : WindowsSandboxRunnerDependencies W).

Definition structuralSupport : M W (option (string * string)) :=
  if negb (bool_decide (host_platform host = Platform.Win32))
  then mok (Some ("windows.platform-unsupported", "The AppContainer launcher is available only on Windows."))
  else if negb (str_includes ["x64"; "arm64"] (architecture host))
  then mok (Some ("windows.architecture-unsupported", "No AppContainer helper is packaged for " +:+ architecture host +:+ "."))
  else
    let* ok := canAccess host (helperPath host) in
    mok (if ok : bool then None
         else Some ("windows.helper-missing", "The native AppContainer helper is missing at " +:+ helperPath host +:+ ".")).

(** What the preflight of the helper says; [None] when it could not start. *)
Definition preflight (r : result SandboxRunResult) : WindowsSandboxSupport :=
  match r with
  | Err e => unsupported "windows.helper-probe-failed" ("The native AppContainer preflight could not start: " +:+ exn_message e +:+ ".")
  | Ok result =>
      match signal result with
      | Some s => unsupported "windows.helper-probe-failed" ("The native AppContainer preflight was terminated by " +:+ s +:+ ".")
      | None =>
          match nativeErrorCode (exitCode result) with
          | Some code => unsupported code (nativeErrorMessage code)
          | None =>
              if negb (exitCode result =? 0)%Z
              then unsupported "windows.helper-probe-failed"
                     ("The native AppContainer preflight returned exit code " +:+ string_of_Z (exitCode result) +:+ ".")
              else degraded
          end
      end
  end.
(** [processEnv] is the environment of the process. *)
Definition diagnose (processEnv : gmap string string) : M W WindowsSandboxSupport :=
  let* structural := structuralSupport in
  match structural with
  | Some u => mok (unsupported u.1 u.2)
  | None => λ w,
      let '(w1, r) := invoke host (helperPath host) ["--diagnose"]
                        (mkInvocation (dirname (helperPath host)) processEnv stdio_ignore (Some PREFLIGHT_TIMEOUT_MS)) w in
      (w1, Ok (preflight r))
  end.
Definition isAvailable (processEnv : gmap string string) : M W bool :=
  let* d := diagnose processEnv in mok (match d with unsupported _ _ => false | degraded => true end).

Definition backend {A} (code message : string) : result A := Err (WindowsSandboxBackendError code message).
Definition discovery_error (e : exn) : exn :=
  match e with
  | WindowsPolicyDiscoveryError message => WindowsSandboxBackendError "windows.policy-discovery-failed" message
  | _ => e
  end.
Definition start_error (e : exn) : exn :=
  WindowsSandboxBackendError "windows.helper-probe-failed" ("The native AppContainer launcher could not start: " +:+ exn_message e +:+ ".").
Definition result_error (e : exn) : exn :=
  WindowsSandboxBackendError "windows.helper-probe-failed" ("The native launcher did not produce a valid result: " +:+ exn_message e +:+ ".").

Definition requestPath (directory : string) : string := win32.join [directory; "request.aksb"].
Definition resultPath (directory : string) : string := win32.join [directory; "result.aksb"].
Definition overlay_text (directory : string) : string := win32.join [directory; "profile"; "home"].
(** [deadlineMs] is the deadline of the command, absent for the session of an agent. *)
Definition request_of (command : SandboxCommand) (deadlineMs : option JsNumber) (P : WindowsPolicyPlan)
    (denies : list WindowsDeniedResource) : WindowsSandboxRequest :=
  mkWindowsRequest deadlineMs (Launching.executable command) (AbsolutePath.value (command_cwd command)) (Launching.args command)
    (map encodeResource (plan_reads P)) (map encodeResource (plan_writes P)) denies.

(** The end of the helper: the exit code of the agent is in the result channel only. *)
Definition conclude (directory : string) (result : SandboxRunResult) : M W SandboxRunResult :=
  match signal result with
  | Some s => mlift (backend "windows.helper-probe-failed" ("The native AppContainer launcher was terminated by " +:+ s +:+ "."))
  | None =>
      if negb (exitCode result =? 0)%Z then
        mlift (match nativeErrorCode (exitCode result) with
               | None => backend "windows.helper-probe-failed" ("The native launcher exited with " +:+ string_of_Z (exitCode result) +:+ ".")
               | Some code => backend code (nativeErrorMessage code)
               end)
      else
        let* report := map_error result_error
          (let* content := readFile host (resultPath directory) in mlift (decodeWindowsSandboxResult content)) in
        mlift (match nativeErrorCode (nativeError report) with
               | Some code => backend code (nativeErrorMessage code)
               | None => Ok (mkRunResult (childExitCode report) None)
               end)
  end.
(** The body of the [try]. *)
Definition launch (policy : SandboxPolicy.SandboxPolicy) (context : PathContext) (command : SandboxCommand) (deadlineMs : option JsNumber)
    (directory : string) : M W SandboxRunResult :=
  let* overlayHome := mlift (AbsolutePath.of_ (overlay_text directory)) in
  let* P := mlift (plan policy context overlayHome) in
  let* _ := start_all (λ p, makeDirectory host (AbsolutePath.value p)) (directories (overlay P)) in
  let* denies := map_error discovery_error (scan (listTree host) policy context (readDenyScans P)) in
  let* bytes := mlift (encodeWindowsSandboxRequest (request_of command deadlineMs P denies)) in
  let* _ := writeFile host (requestPath directory) bytes in
  let* result := map_error start_error
    (let* env := mlift (confined_env overlayHome (env command)) in
     invoke host (helperPath host) ["--request"; requestPath directory; "--result"; resultPath directory]
       (mkInvocation (AbsolutePath.value (command_cwd command)) env stdio_inherit None)) in
  conclude directory result.
Definition run (policy : SandboxPolicy.SandboxPolicy) (context : PathContext) (command : SandboxCommand) (deadlineMs : option JsNumber) :
    M W SandboxRunResult :=
  let* structural := structuralSupport in
  match structural with
  | Some u => mlift (backend u.1 u.2)
  | None =>
      let* gaps := mlift (unenforceable policy context) in
      if 0 <? length gaps
      then mlift (backend "windows.request-invalid" ("Refusing a Windows sandbox policy with unenforceable rules: " +:+ join " " gaps))
      else
        let* directory := make_temporary host "agentkeeper-win-" in
        finally (launch policy context command deadlineMs directory) (remove host directory)
  end.
End runner.
End WindowsSandboxRunner.

(** ** The gaps of the plan that is launched *)

Section gaps.
Context (policy : SandboxPolicy.SandboxPolicy) (context : PathContext).

Lemma concat_nil_transfer {A B} (f g : A → result (list B)) l a b : rmapM f l = Ok a → concat a = [] → rmapM g l = Ok b →
  (∀ x y, x ∈ l → f x = Ok [] → g x = Ok y → y = []) → concat b = [].
Proof.
  revert a b. induction l as [|x l IH]; intros a b Ha Hn Hb Hfg; cbn [rmapM] in *; res_inv; [done|].
  cbn [concat] in *. apply app_eq_nil in Hn as [-> Hn].
  match goal with H : g x = Ok ?y |- _ => rewrite (Hfg x y) by (done || by left) end. eapply IH; [done..|]. intros y z Hy. apply Hfg. by right.
Qed.
(** A reference without a gap beside one private profile has none beside another. *)
Lemma write_gaps_transfer o1 o2 r y : AbsolutePath.contains o1 (ResourceRef.path r) = false →
  write_gaps policy context o1 r = Ok [] → write_gaps policy context o2 r = Ok y → y = [].
Proof.
  unfold write_gaps, isPrivateEphemeral. intros ->. destruct (AbsolutePath.joinp _ _) as [t|]; [|done]. cbn [rbind].
  intros H1 H2. destruct (AbsolutePath.contains o2 _); cbn [rbind] in H2; [by apply Ok_inj in H2|]. rewrite H1 in H2.
  by apply Ok_inj in H2.
Qed.
Lemma gaps_transfer o1 o2 P1 P2 : plan policy context o1 = Ok P1 → gaps P1 = [] →
  (∀ r, r ∈ SandboxPolicy.writes policy → AbsolutePath.contains o1 (ResourceRef.path r) = false) →
  plan policy context o2 = Ok P2 → gaps P2 = [].
Proof.
  unfold plan. intros H1 Hg Hout H2. destruct (rmapM _ AGENT_STATE_DIRECTORIES) as [canonical|]; [|done]. cbn [rbind] in *.
  destruct (rmapM (write_gaps policy context o1) _) as [a|] eqn:Ea; [|done]. destruct (rmapM (write_gaps policy context o2) _) as [b|] eqn:Eb; [|done].
  cbn [rbind] in *. res_inv. cbn [gaps] in *. apply app_eq_nil in Hg as [-> [-> Hg]%app_eq_nil]. cbn [app].
  eapply concat_nil_transfer; [exact Ea|done|exact Eb|]. intros r y Hr. apply write_gaps_transfer, Hout. by apply granted_elem in Hr as [? _].
Qed.

(** Every refusal of a scan is a file or a tree. *)
Lemma inspect_plain s st es st' : (∀ x, x ∈ denied st → plain_scope (denied_scope x)) → inspect_all policy context s st es = Ok st' →
  ∀ x, x ∈ denied st' → plain_scope (denied_scope x).
Proof.
  revert st. induction es as [|e es IH]; intros st Hst; cbn [inspect_all]; [by intros <-%Ok_inj|]. intros H. res_inv. eapply (IH a); [|done].
  unfold inspect_entry in E. repeat (case_match; [done || by apply Ok_inj in E as <-|]). apply Ok_inj in E as <-.
  unfold refuse. cbn [denied]. case_match; [done|]. intros x [Hx|Hx]%elem_of_app; [by apply Hst|]. apply list_elem_of_singleton in Hx as ->.
  cbn. destruct (directory e); [by left|by right].
Qed.
Lemma scan_plain {W} (tree : AbsolutePath → M W (list WindowsTreeEntry)) scans w w' ds :
  scan tree policy context scans w = (w', Ok ds) → ∀ d, d ∈ ds → plain_scope (denied_scope d).
Proof.
  unfold scan. intros (w1 & st & H & [_ ->]%mok_Ok)%mseq_Ok.
  assert (∀ x, x ∈ denied (mkRefused [] []) → plain_scope (denied_scope x)) as Hst by (by intros x ?%elem_of_nil).
  revert Hst H. generalize (mkRefused [] []) as st0. revert w. induction scans as [|s scans IH]; intros w st0 Hst0 H; cbn [scan_from] in H.
  - by apply mok_Ok in H as [_ ->].
  - apply mseq_Ok in H as (w2 & es & _ & H). apply mseq_Ok in H as (w3 & st1 & H1 & H). eapply IH; [|exact H].
    eapply inspect_plain; [exact Hst0|]. by injection H1.
Qed.
End gaps.

(** ** The protocol of a run *)

Module WindowsRun.
Import WindowsSandboxRunner.

Inductive Event :=
| made_temporary (path : string)
| made (path : string)
| wrote (path content : string)
| invoked (helper : string) (args : list string) (invocation : WindowsSandboxInvocation) (r : result SandboxRunResult)
| read_back (path : string) (r : result string)
| removed (path : string).

(** Every operation leaves its own mark, with what it was asked and what came back. *)
Class RunnerLaws {W : Type} (host : WindowsSandboxRunnerDependencies W) := {
  log : W → list Event;
  access_law : ∀ p w, log (canAccess host p w).1 = log w;
  temporary_law : ∀ prefix w, let r := make_temporary host prefix w in
    log r.1 = log w ++ match r.2 with Ok d => [made_temporary d] | Err _ => [] end;
  directory_law : ∀ p w, log (makeDirectory host p w).1 = log w ++ [made p];
  write_law : ∀ p content w, log (writeFile host p content w).1 = log w ++ [wrote p content];
  read_law : ∀ p w, log (readFile host p w).1 = log w ++ [read_back p (readFile host p w).2];
  remove_law : ∀ d w, log (remove host d w).1 = log w ++ [removed d];
  invoke_law : ∀ h args inv w, log (invoke host h args inv w).1 = log w ++ [invoked h args inv (invoke host h args inv w).2];
  tree_law : ∀ r w, log (listTree host r w).1 = log w
}.

Section protocol.
Context {W : Type} (host : WindowsSandboxRunnerDependencies W) `{!RunnerLaws host}.
Context (policy : SandboxPolicy.SandboxPolicy) (context : PathContext) (command : SandboxCommand) (deadlineMs : option JsNumber).

Definition is_helper (e : Event) : Prop := match e with invoked _ _ _ _ => True | _ => False end.
Definition is_read (e : Event) : Prop := match e with read_back _ _ => True | _ => False end.

(** The profile variables all point below the private home; every other variable is the
    command's. *)
Definition private_environment (overlayHome : AbsolutePath) (environment : gmap string string) : Prop :=
  (∀ k v, environment !! k = Some v → toUpperCase k ∈ owned →
     v = AbsolutePath.value overlayHome ∨ ∃ parts q, AbsolutePath.joinp overlayHome parts = Ok q ∧ v = AbsolutePath.value q)
  ∧ ∀ k, toUpperCase k ∉ owned → environment !! k = env command !! k.

(** What the helper is started on, and the marks of the way there. *)
Record Start := mkStart {
  start_overlay : AbsolutePath;
  start_plan : WindowsPolicyPlan;
  start_denies : list WindowsDeniedResource;
  start_bytes : string;
  start_environment : gmap string string
}.
Definition start_events (directory : string) (s : Start) (r : result SandboxRunResult) : list Event :=
  map (λ p, made (AbsolutePath.value p)) (directories (overlay (start_plan s)))
  ++ [wrote (requestPath directory) (start_bytes s);
      invoked (helperPath host) ["--request"; requestPath directory; "--result"; resultPath directory]
        (mkInvocation (AbsolutePath.value (command_cwd command)) (start_environment s) stdio_inherit None) r].
(** The plan is the policy's for the private profile, its refusals are what the scan found,
    and the request file says both. *)
Record started (directory : string) (s : Start) : Prop := mkStarted {
  st_home : AbsolutePath.of_ (overlay_text directory) = Ok (start_overlay s);
  st_planned : plan policy context (start_overlay s) = Ok (start_plan s);
  st_scanned : ∃ w w', scan (listTree host) policy context (readDenyScans (start_plan s)) w = (w', Ok (start_denies s));
  st_encoded : encodeWindowsSandboxRequest (request_of command deadlineMs (start_plan s) (start_denies s)) = Ok (start_bytes s);
  st_private : private_environment (start_overlay s) (start_environment s)
}.

(** What the result channel must hold for a run to return. *)
Definition reported (directory : string) (tail : list Event) (res : SandboxRunResult) : Prop := ∃ content report,
  tail = [read_back (resultPath directory) (Ok content)] ∧ decodeWindowsSandboxResult content = Ok report
  ∧ nativeError report = 0%Z ∧ res = mkRunResult (childExitCode report) None.

Lemma confined_env_private o environment : confined_env o (env command) = Ok environment → private_environment o environment.
Proof.
  unfold confined_env. destruct (AbsolutePath.joinp o ["AppData"; "Roaming"]) as [a|] eqn:E; [|done].
  destruct (AbsolutePath.joinp o ["AppData"; "Local"]) as [a0|] eqn:E0; [|done]. destruct (AbsolutePath.joinp o ["tmp"]) as [a1|] eqn:E1; [|done].
  cbn [rbind]. intros <-%Ok_inj. split.
  - intros k v Hk Hin. apply lookup_union_Some_raw in Hk as [Hk|[_ Hk]].
    + apply elem_of_list_to_map_2 in Hk. unfold profile_variables in Hk. set_unfold in Hk.
      repeat destruct Hk as [Hk|Hk]; try done; injection Hk as -> ->; eauto.
    + apply map_lookup_filter_Some in Hk as [_ Hk]. by cbn in Hk.
  - intros k Hk. apply option_eq. intros v. unfold withoutWindowsProfileAliases. rewrite lookup_union_Some_raw, map_lookup_filter_Some. cbn [fst].
    assert (∀ r l t, list_to_map (M := gmap string string) (profile_variables o r l t) !! k = None) as Hn; [|rewrite Hn; naive_solver].
    intros r l t.
    apply not_elem_of_list_to_map_1. intros Hin. apply Hk. cbn in Hin. set_unfold in Hin.
    repeat destruct Hin as [->|Hin]; [vm_compute; set_solver..|done].
Qed.

Lemma start_all_spec {A} (f : A → M W unit) (g : A → Event) l w : (∀ x w, log (f x w).1 = log w ++ [g x]) →
  log (start_all f l w).1 = log w ++ map g l.
Proof.
  intros Hf. revert w. induction l as [|x l IH]; intros w; cbn [start_all map]; [by rewrite app_nil_r|].
  specialize (Hf x w). destruct (f x w) as [w1 r1]. specialize (IH w1). destruct (start_all f l w1) as [w2 r2]. cbn in *.
  by rewrite IH, Hf, <-app_assoc.
Qed.
Lemma scan_silent scans w : log (scan (listTree host) policy context scans w).1 = log w.
Proof.
  unfold scan. unfold mseq at 1. enough (∀ st, log (scan_from (listTree host) policy context st scans w).1 = log w) as H.
  { specialize (H (mkRefused [] [])). by destruct (scan_from _ _ _ _ _ _) as [w1 [st|e]]. }
  revert w. induction scans as [|s scans IH]; intros w st; cbn [scan_from]; [done|]. unfold mseq at 1.
  pose proof (tree_law (ResourceRef.path (scan_root s)) w) as Hl. destruct (listTree host _ w) as [w1 [es|e]]; [|done]. cbn in Hl.
  unfold mseq, mlift. destruct (inspect_all _ _ _ _ _) as [st'|e]; [|done]. by rewrite IH.
Qed.
Lemma map_error_fst {A} (f : exn → exn) (m : M W A) w : (map_error f m w).1 = (m w).1.
Proof. unfold map_error. by destruct (m w) as [w1 [a|e]]. Qed.

(** A result that is read names a native error of the table or none. *)
Lemma decoded_clear content report : decodeWindowsSandboxResult content = Ok report → nativeErrorCode (nativeError report) = None →
  nativeError report = 0%Z.
Proof.
  unfold decodeWindowsSandboxResult. destruct (negb _ || _); [done|]. generalize (sdrop 8 content). intros s H Hn.
  do 8 (destruct s as [|? s]; [done|]). destruct (negb _ && _) eqn:E; [done|]. apply Ok_inj in H as <-.
  cbn [nativeError] in *. rewrite Hn, bool_decide_true, andb_true_r in E by done. by apply negb_false_iff, Z.eqb_eq in E.
Qed.
Lemma conclude_spec directory result w : ∃ tail, log (conclude host directory result w).1 = log w ++ tail ∧ (∀ e, e ∈ tail → is_read e)
  ∧ ∀ res, (conclude host directory result w).2 = Ok res → result = mkRunResult 0 None ∧ reported directory tail res.
Proof.
  destruct result as [code [s|]]; unfold conclude; cbn [signal exitCode].
  { exists []. rewrite app_nil_r. split_and!; [done|by intros e ?%elem_of_nil|done]. }
  destruct (Z.eqb_spec code 0) as [->|Hne]; cbn [negb]; [|exists []; rewrite app_nil_r; split_and!;
    [done|by intros e ?%elem_of_nil|by destruct (nativeErrorCode code)]].
  exists [read_back (resultPath directory) (readFile host (resultPath directory) w).2].
  pose proof (read_law (resultPath directory) w) as Hl. unfold map_error, mseq, mlift.
  split; [|split; [by intros e ->%list_elem_of_singleton|intros res]];
    destruct (readFile host (resultPath directory) w) as [w1 [content|e]]; cbn [fst snd] in *; [|done| |done].
  - by destruct (decodeWindowsSandboxResult content).
  - destruct (decodeWindowsSandboxResult content) as [report|] eqn:Ed; [|done]. cbn [snd].
    destruct (nativeErrorCode (nativeError report)) eqn:En; [done|]. intros [= <-]. split; [done|]. exists content, report.
    split_and!; [done..| |done]. by eapply decoded_clear.
Qed.

(** The body of the [try]: either the helper is not started and the run fails, or it is
    started on the plan and only its report lets the run return. *)
Definition tried (directory : string) (body : list Event) (out : result SandboxRunResult) : Prop :=
  (Forall (λ e, ¬ is_helper e) body ∧ ∃ e, out = Err e)
  ∨ ∃ s r tail, body = start_events directory s r ++ tail ∧ started directory s ∧ (∀ e, e ∈ tail → is_read e)
    ∧ ∀ res, out = Ok res → r = Ok (mkRunResult 0 None) ∧ reported directory tail res.
(** The rest of the body after the marks [pre]. *)
Definition goes (directory : string) (pre : list Event) (x : W * result SandboxRunResult) (w : W) : Prop :=
  ∃ more, log x.1 = log w ++ more ∧ tried directory (pre ++ more) x.2.
Lemma goes_step {A} directory pre body (m : M W A) f w : log (m w).1 = log w ++ body → Forall (λ e, ¬ is_helper e) (pre ++ body) →
  (∀ a w1, m w = (w1, Ok a) → goes directory (pre ++ body) (f a w1) w1) → goes directory pre (mseq m f w) w.
Proof.
  unfold mseq, goes. intros Hl Hn Hgo. destruct (m w) as [w1 [a|e]]; cbn in Hl.
  - destruct (Hgo a w1 eq_refl) as (more & Hm & Ht). exists (body ++ more). by rewrite Hm, Hl, app_assoc, app_assoc.
  - exists body. split; [done|]. left. eauto.
Qed.
Lemma goes_silent {A} directory pre (m : M W A) f w : log (m w).1 = log w → Forall (λ e, ¬ is_helper e) pre →
  (∀ a w1, m w = (w1, Ok a) → goes directory pre (f a w1) w1) → goes directory pre (mseq m f w) w.
Proof. intros Hl Hn Hgo. apply (goes_step directory pre []); rewrite ?app_nil_r; done. Qed.
Lemma no_helper_made ps : Forall (λ e, ¬ is_helper e) (map (λ p, made (AbsolutePath.value p)) ps).
Proof. apply Forall_map, Forall_true. by intros x []. Qed.

Lemma started_goes directory s w : started directory s →
  goes directory (map (λ p, made (AbsolutePath.value p)) (directories (overlay (start_plan s))) ++ [wrote (requestPath directory) (start_bytes s)])
    (mseq (map_error start_error (invoke host (helperPath host) ["--request"; requestPath directory; "--result"; resultPath directory]
       (mkInvocation (AbsolutePath.value (command_cwd command)) (start_environment s) stdio_inherit None))) (conclude host directory) w) w.
Proof.
  intros Hs. set (h := helperPath host). set (argv := ["--request"; requestPath directory; "--result"; resultPath directory]).
  set (inv := mkInvocation _ _ _ _). pose proof (invoke_law h argv inv w) as Hl. unfold goes, map_error, mseq.
  assert (∀ r tail, (map (λ p, made (AbsolutePath.value p)) (directories (overlay (start_plan s))) ++ [wrote (requestPath directory) (start_bytes s)])
    ++ invoked h argv inv r :: tail = start_events directory s r ++ tail) as Hev by (intros; unfold start_events; by rewrite <-!app_assoc).
  destruct (invoke host h argv inv w) as [w4 [res|e]]; cbn [fst snd] in Hl.
  - destruct (conclude_spec directory res w4) as (tail & Ht & Hr & Hok). exists (invoked h argv inv (Ok res) :: tail).
    split; [by rewrite Ht, Hl, <-app_assoc|]. right. exists s, (Ok res), tail. rewrite Hev. split_and!; [done..|].
    intros out [-> Hrep]%Hok. done.
  - exists [invoked h argv inv (Err e)]. split; [done|]. right. exists s, (Err e), []. rewrite Hev. split_and!; [done..|by intros x ?%elem_of_nil|done].
Qed.
Lemma launch_goes directory w : goes directory [] (launch host policy context command deadlineMs directory w) w.
Proof.
  unfold launch. apply goes_silent; [done|constructor|]. intros o w1 [= <- Eo].
  apply goes_silent; [done|constructor|]. intros P w1 [= <- EP].
  eapply goes_step; [apply (start_all_spec _ (λ p, made (AbsolutePath.value p))); intros; apply directory_law|apply no_helper_made|].
  cbn [app]. intros _ w1 _. apply goes_silent; [rewrite map_error_fst; apply scan_silent|apply no_helper_made|].
  intros ds w2 Es. apply goes_silent; [done|apply no_helper_made|]. intros bytes w3 [= <- Eb].
  eapply goes_step; [apply write_law|apply Forall_app; split; [apply no_helper_made|repeat constructor; by intros []]|].
  intros [] w4 _. destruct (confined_env o (env command)) as [environment|e] eqn:Ee.
  - apply (started_goes directory (mkStart o P ds bytes environment)). split; [done|done| |done|by apply confined_env_private].
    exists w1, w2. revert Es. unfold map_error. by destruct (scan _ _ _ _ _) as [? [|]]; [intros [= <- <-]|].
  - exists []. unfold mseq, mlift, map_error. cbn [fst snd]. rewrite !app_nil_r. split; [done|]. left. split; [|by eexists].
    apply Forall_app. split; [apply no_helper_made|repeat constructor; by intros []].
Qed.

Lemma request_of_plain s directory : (∀ r, r ∈ SandboxPolicy.reads policy ++ SandboxPolicy.writes policy → ResourceRef.declared r) →
  started directory s → plain (request_of command deadlineMs (start_plan s) (start_denies s)).
Proof.
  intros Hd [_ HP (w & w' & Hs) _ _]. split; cbn [request_reads request_writes request_denies request_of]; [|by eapply scan_plain].
  destruct (plan_parts _ _ _ _ HP) as (canonical & ? & ? & _ & _ & _ & _ & Hw & Hr).
  rewrite <-map_app. intros ? (r & -> & Hin)%list_elem_of_fmap. cbn [encodeResource encoded_scope].
  assert (r = ResourceRef.subtree (start_overlay s) ∨ ResourceRef.declared r) as [->|H]; [|by left|done].
  apply elem_of_app in Hin as [[Hg| ->]%Hr|[Hg| ->]%Hw]; try (by left); right; apply Hd, elem_of_app; apply granted_elem in Hg as [? _]; auto.
Qed.

Lemma structural_silent w : log (structuralSupport host w).1 = log w.
Proof.
  unfold structuralSupport. do 2 (case_if; [done|]). pose proof (access_law (helperPath host) w) as Hl. unfold mseq.
  by destruct (canAccess host _ w) as [? [|]].
Qed.
(** A policy that passed has a plan without gaps for every profile. *)
Lemma enforceable_plan o P :
  (∀ r placeholder, r ∈ SandboxPolicy.writes policy →
     AbsolutePath.joinp (home context) ["AppData"; "Local"; "Temp"; "agentkeeper-policy-profile"; "home"] = Ok placeholder →
     AbsolutePath.contains placeholder (ResourceRef.path r) = false) →
  unenforceable policy context = Ok [] → plan policy context o = Ok P → gaps P = [].
Proof.
  unfold unenforceable. intros Hout Hu HP. res_inv. by apply (gaps_transfer policy context a o a0 P); auto.
Qed.
(** The private directory goes away behind the body, whatever it did. *)
Lemma launch_removed directory w w' out :
  finally (launch host policy context command deadlineMs directory) (remove host directory) w = (w', out) →
  ∃ body, log w' = log w ++ body ++ [removed directory] ∧ tried directory body out.
Proof.
  destruct (launch_goes directory w) as (body & Hl & Ht). unfold finally. destruct (launch _ _ _ _ _ _ _) as [w1 r].
  pose proof (remove_law directory w1) as Hr. destruct (remove host directory w1) as [w2 [u|e]]; cbn [fst snd app] in *;
    intros [= <- <-]; exists body; (split; [by rewrite Hr, Hl, <-app_assoc|]); [done|].
  destruct Ht as [[Hn _]|(s & r0 & tail & Hb & Hs & Htl & _)]; [left; eauto|right]. by exists s, r0, tail.
Qed.

(** A run fails quietly or makes its private directory. *)
Lemma run_cases w w' out : run host policy context command deadlineMs w = (w', out) →
  (log w' = log w ∧ ∃ e, out = Err e)
  ∨ ∃ directory w1, (∃ w0, structuralSupport host w = (w0, Ok None)) ∧ unenforceable policy context = Ok [] ∧ log w1 = log w ++ [made_temporary directory]
    ∧ finally (launch host policy context command deadlineMs directory) (remove host directory) w1 = (w', out).
Proof.
  unfold run. unfold mseq at 1. pose proof (structural_silent w) as Hs.
  destruct (structuralSupport host w) as [w1 [[u|]|e]]; cbn [fst] in Hs; [intros [= <- <-]; left; eauto| |intros [= <- <-]; left; eauto].
  unfold mseq at 1, mlift at 1. destruct (unenforceable policy context) as [[|g gs]|e]; [|intros [= <- <-]; left; eauto..].
  cbn [length Nat.ltb Nat.leb]. pose proof (temporary_law "agentkeeper-win-" w1) as Hl. unfold mseq.
  destruct (make_temporary host _ w1) as [w2 [directory|e]]; cbn [fst snd] in Hl; rewrite Hs, ?app_nil_r in Hl.
  - intros Hrun. right. exists directory, w2. split; [by exists w1|]. by split_and!.
  - intros [= <- <-]. left. eauto.
Qed.

(** C6. The whole of a run on Windows. A run that makes anything is on a host that supports
    the helper and for a policy whose gaps were computed and are none; every other run
    fails and makes nothing. Of one that makes something the private directory is removed as the last step, on
    every way out. The helper is started at most once, after the request was written, on a
    plan of the policy for that private profile; this plan has no gap itself, the request
    in the file decodes to the plan and to what the scan found, and no spelling of a
    profile variable brings the caller's value to the child. A run returns only when the
    helper ended with zero and no signal and its result channel, read once, names no native
    error; the exit code is the one in that channel. The policy must not grant writing in
    the profile of the placeholder that the gaps are computed with. *)
Theorem windows_run_protocol w w' out :
  (∀ r placeholder, r ∈ SandboxPolicy.writes policy →
     AbsolutePath.joinp (home context) ["AppData"; "Local"; "Temp"; "agentkeeper-policy-profile"; "home"] = Ok placeholder →
     AbsolutePath.contains placeholder (ResourceRef.path r) = false) →
  (∀ r, r ∈ SandboxPolicy.reads policy ++ SandboxPolicy.writes policy → ResourceRef.declared r) →
  run host policy context command deadlineMs w = (w', out) →
  ∃ new, log w' = log w ++ new
  ∧ (new = [] ∧ (∃ e, out = Err e)
     ∨ (∃ w0, structuralSupport host w = (w0, Ok None)) ∧ unenforceable policy context = Ok []
       ∧ ∃ directory body, new = made_temporary directory :: body ++ [removed directory]
       ∧ (Forall (λ e, ¬ is_helper e) body ∧ (∃ e, out = Err e)
          ∨ ∃ s r tail, body = start_events directory s r ++ tail ∧ started directory s ∧ gaps (start_plan s) = []
            ∧ (∀ other, decodeWindowsSandboxRequest other (start_bytes s) = Ok (request_of command deadlineMs (start_plan s) (start_denies s)))
            ∧ (∀ e, e ∈ tail → is_read e)
            ∧ ∀ res, out = Ok res → r = Ok (mkRunResult 0 None) ∧ reported directory tail res)).
Proof.
  intros Hout Hd [[Hl He]|(directory & w1 & Hsup & Hu & Hl & Hf)]%run_cases.
  { exists []. rewrite app_nil_r. split; [done|]. by left. }
  destruct (launch_removed directory w1 w' out Hf) as (body & Hb & Ht). exists (made_temporary directory :: body ++ [removed directory]).
  split; [by rewrite Hb, Hl, <-app_assoc|]. right. split; [done|]. split; [done|]. exists directory, body. split; [done|].
  destruct Ht as [Ht|(s & r & tail & Hev & Hs & Htail & Hok)]; [by left|right]. exists s, r, tail. pose proof Hs as [_ HP _ Henc _].
  split_and!; try done; [by eapply enforceable_plan|]. intros other. apply request_decodes; [by eapply request_of_plain|done].
Qed.
End protocol.
End WindowsRun.

(** ** A running example *)

Module SampleRunner.
Import WindowsSandboxRunner WindowsRun.
(** The world is the log; the agent exits with seven. *)
Definition channel : string := "AKSRES01" +:+ le32 0 +:+ le32 7.
Definition host : WindowsSandboxRunnerDependencies (list Event) :=
  let mark e : M (list Event) unit := λ w, (w ++ [e], Ok tt) in
  mkDependencies _ Platform.Win32 "x64" "C:\agentkeeper\agentkeeper-sandbox.exe" (λ _, mok true)
    (λ prefix w, let d := "C:\Users\u\AppData\Local\Temp\" +:+ prefix +:+ "1" in (w ++ [made_temporary d], Ok d))
    (λ p, mark (made p)) (λ p content, mark (wrote p content)) (λ p w, (w ++ [read_back p (Ok channel)], Ok channel))
    (λ d, mark (removed d)) (λ h args inv w, let r := Ok (mkRunResult 0 None) in (w ++ [invoked h args inv r], r))
    (λ r, mlift (boundedTree SampleWindows.lstat SampleWindows.readdir r)).
#[global] Instance laws : RunnerLaws host.
Proof. by refine {| log := λ w, w |}. Defined.
Definition command : SandboxCommand :=
  mkCommand "C:\node.exe" ["agent.js"] (SampleWindows.at_ ["w"]) {[ "Path" := "C:\Windows"; "UserProfile" := "C:\Users\u" ]}.
Definition policy : SandboxPolicy.SandboxPolicy := PolicyBuilder.policy SampleWindows.built.
Definition ran : list Event * result SandboxRunResult := run host policy SampleWindows.context command None [].

Example ran_seven : ran.2 = Ok (mkRunResult 7 None).
Proof. vm_compute. reflexivity. Qed.
End SampleRunner.

(** What the run left: the private directory goes last, and the helper was started on the
    plan of the policy. *)
Lemma windows_run_protocol_witness :
  ∃ s tail, WindowsRun.started SampleRunner.host SampleRunner.policy SampleWindows.context SampleRunner.command None
      "C:\Users\u\AppData\Local\Temp\agentkeeper-win-1" s
    ∧ gaps (WindowsRun.start_plan s) = []
    ∧ WindowsRun.reported "C:\Users\u\AppData\Local\Temp\agentkeeper-win-1" tail (mkRunResult 7 None).
Proof.
  destruct (WindowsRun.windows_run_protocol SampleRunner.host SampleRunner.policy SampleWindows.context SampleRunner.command None []
    SampleRunner.ran.1 (Ok (mkRunResult 7 None))) as (new & Hnew & [[_ [e He]]|(_ & _ & directory & body & Hev & [[_ [e He]]|Hs])]); [| | |done|done|].
  - intros r placeholder Hr Hp. vm_compute in Hp. apply Ok_inj in Hp as <-. revert r Hr. apply Forall_forall.
    vm_compute. repeat constructor.
  - apply Forall_forall. vm_compute. repeat (apply Forall_cons_2 || apply Forall_nil_2); (by left) || by right.
  - apply PolicyProperties.snd_pair. vm_compute. reflexivity.
  - destruct Hs as (s & r & tail & Hb & Hst & Hg & _ & _ & Hok). destruct (Hok _ eq_refl) as [_ Hrep].
    assert (directory = "C:\Users\u\AppData\Local\Temp\agentkeeper-win-1") as Hd;
      [|subst directory; exact (ex_intro _ s (ex_intro _ tail (conj Hst (conj Hg Hrep))))].
    cbn [app] in Hnew. rewrite Hev in Hnew. 
    assert (head SampleRunner.ran.1 = Some (WindowsRun.made_temporary "C:\Users\u\AppData\Local\Temp\agentkeeper-win-1")) as Hh by (vm_compute; reflexivity).
    change (WindowsRun.log SampleRunner.ran.1) with SampleRunner.ran.1 in Hnew. rewrite Hnew in Hh. by injection Hh.
Defined.

(** The gaps are computed beside a placeholder and not for the plan that is launched: a
    grant to write in the placeholder, whose directory no run makes, passes the check with
    a refusal that its own plan cannot keep. *)
Module SamplePlaceholder.
Import WindowsSandboxRunner.
Definition inside : AbsolutePath := SampleWindows.at_ ["appdata"; "local"; "temp"; "agentkeeper-policy-profile"; "home"; "keys"].
Definition policy : SandboxPolicy.SandboxPolicy :=
  SandboxPolicy.construct (SandboxPolicy.mkPolicyProps (SampleWindows.at_ []) [] [ResourceRef.subtree inside]
    (match PathPattern.of_ "**/*.pem" with Ok p => [DenyRule.mkDeny "keys" p write "keys" None] | Err _ => [] end) [] [] None None).
Example placeholder_hides_gap :
  unenforceable policy SampleWindows.context = Ok []
  ∧ match plan policy SampleWindows.context SampleWindows.overlay with Ok P => length (gaps P) = 1 | Err _ => False end.
Proof. vm_compute. done. Qed.
End SamplePlaceholder.
