(* ===== verification/Stores.v ===== *)
(** * The JSON stores (src/infrastructure/store)

    [JsonDocument] and the stores of grants, decisions and the trusted baseline. What a
    file holds is not trusted: a field of the wrong type is read the way the engine reads
    it. The theorems say what the stores keep of documents they wrote themselves: the
    list of grants the use cases are proved against, the decisions, the baseline. *)

From S2P Require Import Prelude JsString JsMap JsNumber Json NodePath Paths Patterns Values Resources.
From S2P Require Import SensitivePaths Sha256 Entities Ports GrantAccess MonitorPersistence.
Import JSON PosixText.

(** Printed objects of named members are canonical when their members are. *)
Ltac canon :=
  repeat match goal with
  | |- canonical (strings _) => apply canonical_strings
  | |- canonical (JObject _) => apply canonical_named; [reflexivity|reflexivity|]
  | |- canonical (JArray []) => constructor; constructor
  | |- canonical (JString _) => constructor
  | |- canonical (JNum (Int _)) => constructor
  | |- canonical JNull => constructor
  | |- canonical (JBool _) => constructor
  | |- Forall canonical (fmap snd _) => progress cbn [fmap list_fmap snd fst]
  | |- Forall canonical (_ :: _) => constructor
  | |- Forall canonical [] => constructor
  end.

(** ** JsonDocument.ts *)

Definition CorruptStoreError (path : AbsolutePath) (reason : string) : exn :=
  JsError (AbsolutePath.value path +:+ " could not be read (" +:+ reason
           +:+ "). agentkeeper will not guess what it meant; "
           +:+ "fix the file or delete it to start from the default policy.").

Module JsonDocument.
Section document.
Context `{Engine} {W : Type} (files : FileSystem W) (path : AbsolutePath) (currentVersion : Z) (empty : Json).

Definition has_version (parsed : Json) : bool :=
  match prop parsed "version" with Some (JNum n) => number_eqb n (Int currentVersion) | _ => false end.
(** What [load] makes of the file, [None] when there is none. *)
Definition decode (raw : option string) : result Json :=
  match raw with
  | None => Ok empty
  | Some raw =>
      match parse raw with
      | None => Err (CorruptStoreError path (syntax_message raw))
      | Some parsed =>
          if negb (isObject parsed) then Err (CorruptStoreError path "expected a JSON object")
          else if has_version parsed then Ok parsed
          else let! version := to_string_opt (prop parsed "version") in
               Err (CorruptStoreError path ("unsupported schema version " +:+ version
                                            +:+ ", expected " +:+ string_of_Z currentVersion))
      end
  end.
Definition load : M W Json := let* raw := read_ files path in mlift (decode raw).
(** [`${JSON.stringify(document, null, 2)}\n`] *)
Definition text (document : Json) : string := stringify "  " document +:+ nl.
Definition save (document : Json) : M W unit := write_ files path (text document) None.

(** A document the store wrote is read back as it was. *)
Lemma decode_text d : canonical d → isObject d = true → has_version d = true → decode (Some (text d)) = Ok d.
Proof.
  intros Hc Ho Hv. unfold decode, text. rewrite (parse_stringify "  " d nl) by done. by rewrite Ho, Hv.
Qed.
(** Nothing but an object of the right version is ever loaded. *)
Lemma decode_Ok raw d : decode (Some raw) = Ok d → parse raw = Some d ∧ isObject d = true ∧ has_version d = true.
Proof.
  unfold decode. destruct (parse raw) as [v|]; [|done]. destruct (isObject v) eqn:Eo; [|done]. cbn [negb].
  destruct (has_version v) eqn:Ev; [by intros <-%Ok_inj|]. by destruct (to_string_opt _).
Qed.

Context `{!FileLaws files}.
Lemma load_Ok w w' d : load w = (w', Ok d) →
  contents w' = contents w ∧ decode (contents w !! AbsolutePath.value path) = Ok d.
Proof.
  unfold load, mseq, mlift. destruct (read_law path w) as [Hc Hr].
  destruct (read_ files path w) as [w1 [t|]]; [|done]. cbn in Hc, Hr. rewrite <-(Hr t eq_refl).
  destruct (decode t); intros [= <- <-]. by split.
Qed.
Lemma save_Ok d w w' : save d w = (w', Ok tt) →
  contents w' = put (contents w) (AbsolutePath.value path) (Some (text d)).
Proof.
  unfold save. destruct (write_law path (text d) None w) as [_ Hw]. intros E. rewrite E in Hw. by apply Hw.
Qed.
End document.
End JsonDocument.

(** File operations that do not fail: the setting in which a store must answer. *)
Class ReliableFiles {W} (files : FileSystem W) := {
  read_ok : ∀ p w, ∃ t, (read_ files p w).2 = Ok t;
  write_ok : ∀ p t mode w, (write_ files p t mode w).2 = Ok tt
}.
#[global] Instance memory_reliable : ReliableFiles MemoryFiles.files.
Proof. by split; [intros p w; eexists|]. Qed.

Section reliable.
Context `{Engine} {W : Type} (files : FileSystem W) `{!FileLaws files} `{!ReliableFiles files}.
Lemma load_returns path v empty w d : JsonDocument.decode path v empty (contents w !! AbsolutePath.value path) = Ok d →
  ∃ w', JsonDocument.load files path v empty w = (w', Ok d) ∧ contents w' = contents w.
Proof.
  intros Hd. unfold JsonDocument.load, mseq, mlift. destruct (read_ok path w) as [t Ht].
  destruct (read_law path w) as [Hc Hr]. destruct (read_ files path w) as [w1 r]. cbn in *. subst r.
  exists w1. rewrite (Hr t eq_refl), Hd. by split.
Qed.
Lemma save_returns path d w : ∃ w', JsonDocument.save files path d w = (w', Ok tt)
  ∧ contents w' = put (contents w) (AbsolutePath.value path) (Some (JsonDocument.text d)).
Proof.
  destruct (JsonDocument.save files path d w) as [w' r] eqn:E. exists w'.
  assert (r = Ok tt) as ->; [|split; [done|by eapply JsonDocument.save_Ok]].
  pose proof (write_ok path (JsonDocument.text d) None w) as H1. unfold JsonDocument.save in E. by rewrite E in H1.
Qed.
End reliable.

Lemma rfilter_map {A B} (g : A → result B) (p : B → bool) l ys : rmapM g l = Ok ys →
  ∃ kept, rfilter (λ x, let! y := g x in Ok (p y)) l = Ok kept ∧ rmapM g kept = Ok (bfilter p ys)
  ∧ (∀ x, x ∈ kept → x ∈ l) ∧ length kept = length (bfilter p ys).
Proof.
  revert ys. induction l as [|x l IH]; intros ys Hys; cbn in *.
  - injection Hys as <-. exists []. split_and!; try done; set_solver.
  - destruct (g x) as [y|] eqn:Ex; [|done]. cbn in *. destruct (rmapM g l) as [zs|]; [|done]. cbn in Hys.
    apply Ok_inj in Hys as <-. destruct (IH zs eq_refl) as (kept & -> & Hk & Hsub & Hlen). cbn [rbind].
    cbn [bfilter]. destruct (p y); [exists (x :: kept)|exists kept]; cbn; rewrite ?Ex, ?Hk; cbn;
      split_and!; try done; [set_solver|lia|set_solver].
Qed.

Definition SCHEMA_VERSION : Z := 1.
Definition version_member : string * Json := ("version", JNum (Int SCHEMA_VERSION)).

(** ** JsonGrantStore *)

Module JsonGrantStore.
Section store.
Context `{Digest} `{JsDate} `{Engine}.

(** [items.indexOf(text)] of an array *)
Fixpoint index_text (text : string) (l : list Json) : option nat :=
  match l with
  | [] => None
  | JString s :: r => if (s =? text)%string then Some 0 else S <$> index_text text r
  | _ :: r => S <$> index_text text r
  end.

(** [ResourceRef.parse] of whatever the file holds. An array has an [indexOf] and a
    [slice] of its own, and a slice of it looks like the text of its elements. *)
Definition resource_from (v : option Json) (home : AbsolutePath) : result ResourceRef :=
  match v with
  | Some (JString s) => ResourceRef.parse s home
  | Some (JArray l) =>
      let unknown := throw ("Unknown resource reference: " +:+ stringify "" (JArray l)) in
      match index_text ":" l with
      | None => unknown
      | Some i =>
          let! kind := to_string (JArray (take i l)) in
          match ResourceRef.PREFIX kind with None => unknown | Some _ => type_error "raw.startsWith" end
      end
  | _ => type_error "raw.indexOf"
  end.
Definition scope_from (v : option Json) : result GrantScope :=
  match v with Some (JString s) => GrantScope.parse s | _ => type_error "raw.startsWith" end.

(** [Grant.fromJSON] of an entry of the file. *)
Definition one_of (names : list string) (v : option Json) : option string :=
  match text_of v with Some s => if str_includes names s then Some s else None | None => None end.
Definition fromStored (raw : Json) (home : AbsolutePath) : result Grant :=
  match raw with
  | JNull => type_error "raw.access"
  | _ =>
      match one_of Grant.ACCESSES (prop raw "access") with
      | None => throw ("Unknown grant access: " +:+ stringify_opt (prop raw "access"))
      | Some a =>
          match one_of Grant.ORIGINS (if nullish (prop raw "origin") then Some (JString "manual") else prop raw "origin") with
          | None => throw ("Unknown grant origin: " +:+ stringify_opt (prop raw "origin"))
          | Some o =>
              let! r := resource_from (prop raw "resource") home in
              let! sc := scope_from (prop raw "scope") in
              let! at_ := match prop raw "grantedAt" with None => Ok (Some 0%Z) | v => new_Date v end in
              let! reason := if nullish (prop raw "reason") then Ok "hand-written entry"
                             else match text_of (prop raw "reason") with Some s => Ok s | None => type_error "reason.trim" end in
              Grant.create (Grant.mkProps r (Grant.parse_access a) sc at_ reason (Grant.parse_origin o))
          end
      end
  end.

(** The entry [JSON.stringify] makes of [toJSON]. *)
Definition stored_entry (j : Grant.GrantJSON) : Json :=
  JObject [("resource", JString (Grant.j_resource j)); ("access", JString (Grant.j_access j));
           ("scope", JString (Grant.j_scope j)); ("grantedAt", JString (default "" (Grant.j_grantedAt j)));
           ("reason", JString (default "" (Grant.j_reason j))); ("origin", JString (default "" (Grant.j_origin j)))].
Definition document_of (entries : list Json) : Json := JObject [version_member; ("grants", JArray entries)].

Context {W : Type} (files : FileSystem W) (location home : AbsolutePath).
Definition load : M W Json := JsonDocument.load files location SCHEMA_VERSION (document_of []).

(** [grants.map] and [grants.filter] of the loaded document. *)
Definition entries_of (document : Json) (operation : string) : result (list Json) :=
  match prop document "grants" with Some (JArray l) => Ok l | _ => type_error operation end.

Definition all : M W (list Grant) :=
  let* document := load in
  mlift (let! raws := entries_of document "grants.map" in rmapM (λ raw, fromStored raw home) raws).
Definition without (id : string) (raws : list Json) : result (list Json) :=
  rfilter (λ raw, let! g := fromStored raw home in Ok (negb (Grant.id g =? id)%string)) raws.
Definition add (g : Grant) : M W unit :=
  let* document := load in
  let* raws := mlift (entries_of document "grants.filter") in
  let* existing := mlift (without (Grant.id g) raws) in
  let* json := mlift (Grant.toJSON g home) in
  JsonDocument.save files location (document_of (existing ++ [stored_entry json])).
Definition revoke (id : string) : M W bool :=
  let* document := load in
  let* raws := mlift (entries_of document "grants.filter") in
  let* remaining := mlift (without id raws) in
  if length remaining =? length raws then mok false
  else let* _ := JsonDocument.save files location (document_of remaining) in mok true.

(** ** What the store keeps *)

(** A grant the store can write and read again: its resource and the home are ordinary
    paths, its date is valid, and it is what [Grant.create] makes. *)
Definition storable (g : Grant) : Prop :=
  ∃ h q p, home = AbsolutePath.posix_path h ∧ ordinary h ∧ Forall clean_seg h
    ∧ ResourceRef.path (Grant.resource g) = AbsolutePath.posix_path q ∧ ordinary q ∧ Forall clean_seg q
    ∧ Forall AbsolutePath.no_nul q ∧ ResourceRef.declared (Grant.resource g)
    ∧ is_Some (Grant.grantedAt g) ∧ Grant.create p = Ok g ∧ trim (Grant.reason g) = Grant.reason g
    ∧ match GrantScope.workspace (Grant.scope g) with None => True | Some w => WorkspaceId.FORMAT (WorkspaceId.value w) = true end.

Lemma parse_prefixed k sc t (h : AbsolutePath) : (k, sc) ∈ [("dir", ResourceRef.subtree_scope); ("file", ResourceRef.file_scope)] →
  ResourceRef.parse (k +:+ ":" +:+ t) h = let! p := AbsolutePath.fromUserPath t h in Ok (ResourceRef.mkRef sc p).
Proof.
  intros Hk. repeat (apply elem_of_cons in Hk as [[= -> ->]|Hk]; [destruct t; reflexivity|]). by apply elem_of_nil in Hk.
Qed.
Lemma parse_resource (r : ResourceRef) h q : ResourceRef.declared r → ResourceRef.path r = AbsolutePath.posix_path q →
  ordinary h → ordinary q → Forall clean_seg h → Forall clean_seg q → Forall AbsolutePath.no_nul q →
  ResourceRef.parse (ResourceRef.toResourceString r (AbsolutePath.posix_path h)) (AbsolutePath.posix_path h) = Ok r.
Proof.
  intros Hd Hp Hh Hq Hch Hcq Hn. pose proof (fromUserPath_toDisplay h q Hh Hq Hch Hcq Hn) as Hu.
  destruct r as [sc p]. cbn in Hp. subst p. unfold ResourceRef.toResourceString, ResourceRef.is_subtree.
  destruct Hd as [E|E]; cbn in E; subst sc; cbn [ResourceRef.path ResourceRef.scope];
    [rewrite bool_decide_true by done|rewrite bool_decide_false by done];
    (erewrite parse_prefixed; [by rewrite Hu|]); repeat constructor.
Qed.

Lemma create_again p g : Grant.create p = Ok g → trim (Grant.reason g) = Grant.reason g → Grant.create (Grant.props g) = Ok g.
Proof.
  intros Hc Ht. pose proof (Grant.create_ok p g Hc) as (Hne & _ & _ & _ & _ & Hr & _).
  unfold Grant.create in Hc. destruct (slen (trim (Grant.reason_ p)) =? 0) eqn:E; [done|]. apply Ok_inj in Hc.
  unfold Grant.create. unfold Grant.reason in Ht, Hr. rewrite Ht.
  destruct (slen (Grant.reason_ (Grant.props g)) =? 0) eqn:E2; [rewrite Hr in E2; congruence|].
  f_equal. subst g. done.
Qed.

Lemma stored_entry_read g j : storable g → Grant.toJSON g home = Ok j →
  fromStored (stored_entry j) home = Ok g ∧ canonical (stored_entry j).
Proof.
  intros (h & q & p & -> & Hh & Hch & Hq & Hoq & Hcq & Hn & Hd & [t Ht] & Hc & Htr & Hsc) Hj. split.
  - unfold Grant.toJSON in Hj. rewrite Ht in Hj. apply Ok_inj in Hj as <-.
    unfold fromStored, stored_entry.
    cbn [Grant.j_resource Grant.j_access Grant.j_scope Grant.j_grantedAt Grant.j_reason Grant.j_origin default from_option id].
    match goal with |- context [prop ?o "access"] => set (raw := o) end.
    change (prop raw "access") with (Some (JString (access_name (Grant.access g)))).
    change (prop raw "origin") with (Some (JString (Grant.origin_name (Grant.origin g)))).
    change (prop raw "resource") with (Some (JString (ResourceRef.toResourceString (Grant.resource g) (AbsolutePath.posix_path h)))).
    change (prop raw "scope") with (Some (JString (GrantScope.toString (Grant.scope g)))).
    change (prop raw "grantedAt") with (Some (JString (toISOString t))).
    change (prop raw "reason") with (Some (JString (Grant.reason g))). cbn [nullish text_of resource_from scope_from new_Date].
    assert (one_of Grant.ACCESSES (Some (JString (access_name (Grant.access g)))) = Some (access_name (Grant.access g))) as ->
      by by destruct (Grant.access g).
    assert (one_of Grant.ORIGINS (Some (JString (Grant.origin_name (Grant.origin g)))) = Some (Grant.origin_name (Grant.origin g))) as ->
      by by destruct (Grant.origin g).
    rewrite (parse_resource _ h q), GrantScope.scope_parse_toString, Date_parse_toISOString by done. cbn [rbind].
    rewrite <-(create_again p g Hc Htr). f_equal. unfold Grant.grantedAt in Ht. rewrite <-Ht.
    destruct g as [i [r [] sc gt re []]]; done.
  - unfold stored_entry. canon.
Qed.

(** The file holds entries that print as they were read, and [fromStored] reads these
    grants from them, in this order. *)
Definition holds `{!FileLaws files} (w : W) (gs : list Grant) : Prop :=
  ∃ document raws, JsonDocument.decode location SCHEMA_VERSION (document_of []) (contents w !! AbsolutePath.value location) = Ok document
    ∧ prop document "grants" = Some (JArray raws) ∧ Forall canonical raws ∧ rmapM (λ raw, fromStored raw home) raws = Ok gs.

Context `{!FileLaws files} `{!ReliableFiles files}.

(** What is saved is held. *)
Lemma saved_holds w w' raws gs : contents w' = put (contents w) (AbsolutePath.value location) (Some (JsonDocument.text (document_of raws))) →
  Forall canonical raws → rmapM (λ raw, fromStored raw home) raws = Ok gs → holds w' gs.
Proof.
  intros Hw Hc Hr. exists (document_of raws), raws. split_and!; try done.
  rewrite Hw, lookup_put_eq. apply JsonDocument.decode_text; [|done|done].
  apply canonical_named; [done|done|]. repeat constructor. done.
Qed.
Lemma load_held w gs : holds w gs → ∃ w1 document raws, load w = (w1, Ok document) ∧ contents w1 = contents w
  ∧ (∀ operation, entries_of document operation = Ok raws) ∧ Forall canonical raws
  ∧ rmapM (λ raw, fromStored raw home) raws = Ok gs.
Proof.
  intros (d & raws & Hd & Hp & Hc & Hr). destruct (load_returns files location _ _ w d Hd) as (w1 & Hl & Hw).
  exists w1, d, raws. split_and!; try done. intros op. unfold entries_of. by rewrite Hp.
Qed.
Lemma kept_read id raws gs : rmapM (λ raw, fromStored raw home) raws = Ok gs → Forall canonical raws →
  ∃ kept, without id raws = Ok kept ∧ Forall canonical kept
  ∧ rmapM (λ raw, fromStored raw home) kept = Ok (bfilter (λ g, negb (Grant.id g =? id)%string) gs)
  ∧ length kept = length (bfilter (λ g, negb (Grant.id g =? id)%string) gs).
Proof.
  intros Hr Hc. destruct (rfilter_map (λ raw, fromStored raw home) (λ g, negb (Grant.id g =? id)%string) raws gs Hr)
    as (kept & Hk & Hm & Hsub & Hlen).
  exists kept. split_and!; try done. rewrite Forall_forall in *. intros x Hx. by apply Hc, Hsub.
Qed.
Lemma rmapM_snoc {A B} (f : A → result B) l ys x y : rmapM f l = Ok ys → f x = Ok y → rmapM f (l ++ [x]) = Ok (ys ++ [y]).
Proof. rewrite !rmapM_Ok. intros Hl Hx. apply Forall2_app; [done|by constructor]. Qed.

Lemma add_holds w gs g : holds w gs → storable g → ∃ w', add g w = (w', Ok tt) ∧ holds w' (store_with g gs).
Proof.
  intros Hw Hg. destruct (load_held w gs Hw) as (w1 & d & raws & Hl & Hw1 & He & Hc & Hr).
  destruct (kept_read (Grant.id g) raws gs Hr Hc) as (kept & Hk & Hck & Hkr & _).
  assert (∃ j, Grant.toJSON g home = Ok j) as [j Hj].
  { destruct Hg as (? & ? & ? & _ & _ & _ & _ & _ & _ & _ & _ & [t Ht] & _). unfold Grant.toJSON. rewrite Ht. by eexists. }
  destruct (stored_entry_read g j Hg Hj) as [Hread Hcan].
  unfold add, mseq, mlift. rewrite Hl, He, Hk, Hj.
  destruct (save_returns files location (document_of (kept ++ [stored_entry j])) w1) as (w2 & -> & Hw2).
  exists w2. split; [done|]. eapply saved_holds; [exact Hw2| |].
  - apply Forall_app. split; [done|by constructor].
  - by apply rmapM_snoc.
Qed.
Lemma revoke_holds w gs id : holds w gs → ∃ w', revoke id w = (w', Ok (bool_decide (id ∈ map Grant.id gs)))
  ∧ holds w' (bfilter (λ g, negb (Grant.id g =? id)%string) gs).
Proof.
  intros Hw. destruct (load_held w gs Hw) as (w1 & d & raws & Hl & Hw1 & He & Hc & Hr).
  destruct (kept_read id raws gs Hr Hc) as (kept & Hk & Hck & Hkr & Hlen).
  assert (length raws = length gs) as Hlg by by eapply Forall2_length, rmapM_Ok.
  unfold revoke, mseq, mlift. rewrite Hl, He, Hk, Hlen, Hlg. unfold mok.
  destruct (_ =? _) eqn:E.
  - exists w1. bool_prop. pose proof (bfilter_partition (λ g, negb (Grant.id g =? id)%string) gs) as Hp. cbv beta in Hp.
    assert (∀ g, g ∈ gs → Grant.id g ≠ id) as Hno.
    { intros g Hg Hi. assert (g ∈ bfilter (λ g, negb (negb (Grant.id g =? id)%string)) gs) as Hin.
      { apply elem_of_bfilter. by rewrite Hi, String.eqb_refl. }
      destruct (bfilter (λ g, negb (negb _)) gs); [by apply elem_of_nil in Hin|cbn in Hp; lia]. }
    rewrite bool_decide_false; [|intros (g & Hi & Hg)%list_elem_of_fmap; by apply (Hno g Hg)]. split; [done|].
    rewrite bfilter_all; [|intros g Hg; apply negb_true_iff, String.eqb_neq; by apply Hno].
    destruct Hw as (d' & raws' & ?). exists d', raws'. by rewrite Hw1.
  - destruct (save_returns files location (document_of kept) w1) as (w2 & -> & Hw2). exists w2. bool_prop. split.
    + do 2 f_equal. symmetry. apply bool_decide_eq_true.
      destruct (decide (id ∈ map Grant.id gs)) as [Hin|Hin]; [done|]. exfalso. apply E. rewrite bfilter_all; [done|].
      intros g Hg. apply negb_true_iff, String.eqb_neq. intros <-. apply Hin. by apply list_elem_of_fmap_2.
    + by eapply saved_holds.
Qed.
End store.

(** C17. The store of grants is the list the use cases are proved against: on a file that holds
    a list of grants [all] returns exactly that list, [add] of a grant the store can write
    returns and leaves the list with the entry of the same identity replaced and the grant
    at its end, and [revoke] removes the entry and says whether there was one; every other
    entry, hand-written ones included, survives as it was. *)
Theorem grant_store_refines `{Digest} `{JsDate} `{Engine} {W} (files : FileSystem W) location home `{!FileLaws files}
    `{!ReliableFiles files} w gs :
  holds files location home w gs →
  (∃ w', all files location home w = (w', Ok gs) ∧ holds files location home w' gs)
  ∧ (∀ g, storable home g → ∃ w', add files location home g w = (w', Ok tt) ∧ holds files location home w' (store_with g gs))
  ∧ (∀ id, ∃ w', revoke files location home id w = (w', Ok (bool_decide (id ∈ map Grant.id gs)))
      ∧ holds files location home w' (bfilter (λ g, negb (Grant.id g =? id)%string) gs)).
Proof.
  intros Hw. split_and!; [|by intros; apply add_holds|by intros; apply revoke_holds].
  destruct (load_held files location home w gs Hw) as (w1 & d & raws & Hl & Hw1 & He & _ & Hr).
  exists w1. unfold all, mseq, mlift. rewrite Hl, He. cbn [rbind]. rewrite Hr. split; [done|].
  destruct Hw as (d' & raws' & ?). exists d', raws'. by rewrite Hw1.
Qed.
End JsonGrantStore.

(** ** JsonDecisionStore *)

Module JsonDecisionStore.

(** What [find] answers: the members of the stored object over the key, and the date made
    of its [decidedAt]. A decision key holds a colon or an at sign, so it names neither an
    array index nor a member of a prototype. *)
Record FoundDecision := mkFound {
  found_key : Json;
  found_verdict : option Json;
  found_subject : option Json;
  found_ruleIds : option Json;
  found_decidedAt : option Z
}.

Definition verdict_name (v : Verdict) : string := match v with allow => "allow" | deny => "deny" end.

Section store.
Context `{JsDate} `{Engine}.

(** [{ key, ...stored, decidedAt: new Date(stored.decidedAt) }] *)
Definition found (key : string) (stored : Json) : result FoundDecision :=
  match stored with
  | JNull => type_error "stored.decidedAt"
  | _ =>
      let! d := new_Date (prop stored "decidedAt") in
      Ok (mkFound (match prop stored "key" with Some k => k | None => JString key end) (prop stored "verdict")
            (prop stored "subject") (prop stored "ruleIds") d)
  end.

(** [{ ...document.decisions }]: the own properties of whatever is there. *)
Definition own_properties (v : option Json) : list (string * Json) :=
  match v with
  | Some (JObject m) => m
  | Some (JArray l) => imap (λ i x, (string_of_nat i, x)) l
  | Some (JString s) => imap (λ i c, (string_of_nat i, JString (str1 c))) (String.list_ascii_of_string s)
  | _ => []
  end.

Definition document_of (decisions : list (string * Json)) : Json :=
  JObject [version_member; ("decisions", JObject decisions)].
Definition stored_of (d : Decision) : Json :=
  JObject [("verdict", JString (verdict_name (verdict d))); ("subject", JString (dsubject d));
           ("ruleIds", strings (ruleIds d)); ("decidedAt", JString (toISOString (decidedAt d)))].
Definition set_all (decisions : list (string * Json)) (records : list Decision) : list (string * Json) :=
  fold_left (λ m d, JsMap.set m (dkey d) (stored_of d)) records decisions.

Context {W : Type} (files : FileSystem W) (location : AbsolutePath).
Definition load : M W Json := JsonDocument.load files location SCHEMA_VERSION (document_of []).

Definition find_ (key : string) : M W (option FoundDecision) :=
  let* document := load in
  mlift (let decisions := prop document "decisions" in
         if nullish decisions then type_error "decisions[key]"
         else match field decisions key with
              | None => Ok None
              | Some stored => rmap Some (found key stored)
              end).
Definition recordMany (records : list Decision) : M W unit :=
  if length records =? 0 then mok tt
  else
    let* document := load in
    JsonDocument.save files location (document_of (set_all (own_properties (prop document "decisions")) records)).
Definition record (d : Decision) : M W unit := recordMany [d].
Definition all : M W (list FoundDecision) :=
  let* document := load in
  mlift (let decisions := prop document "decisions" in
         if nullish decisions then type_error "Object.entries"
         else rmapM (λ kv, found kv.1 kv.2) (own_order (own_properties decisions))).

(** *** What the store keeps *)

Definition found_of (d : Decision) : FoundDecision :=
  mkFound (JString (dkey d)) (Some (JString (verdict_name (verdict d)))) (Some (JString (dsubject d)))
    (Some (strings (ruleIds d))) (Some (decidedAt d)).
Lemma found_stored d : found (dkey d) (stored_of d) = Ok (found_of d).
Proof.
  unfold found, stored_of.
  match goal with |- context [prop ?o "decidedAt"] => change (prop o "decidedAt") with (Some (JString (toISOString (decidedAt d)))) end.
  cbn [new_Date]. by rewrite Date_parse_toISOString.
Qed.
Lemma stored_canonical d : canonical (stored_of d).
Proof. unfold stored_of. canon. Qed.

(** The file holds an object that prints as it was read, under keys that are no indices. *)
Definition holds `{!FileLaws files} (w : W) (m : list (string * Json)) : Prop :=
  ∃ document, JsonDocument.decode location SCHEMA_VERSION (document_of []) (contents w !! AbsolutePath.value location) = Ok document
    ∧ prop document "decisions" = Some (JObject m) ∧ NoDup m.*1 ∧ every (λ k, negb (is_index k)) m.*1 = true
    ∧ Forall canonical m.*2.
Definition good_key (k : string) : Prop := is_index k = false.

Lemma set_all_get m ds k : JsMap.get (set_all m ds) k
  = match List.find (λ d, (dkey d =? k)%string) (rev ds) with Some d => Some (stored_of d) | None => JsMap.get m k end.
Proof.
  unfold set_all. revert m. induction ds as [|d ds IH]; intros m; [done|]. cbn [fold_left rev]. rewrite IH, JsMap.get_set, find_app.
  cbn. destruct (List.find _ (rev ds)); [done|]. by case_if.
Qed.
Lemma set_values {A} (P : A → Prop) m k v : Forall P m.*2 → P v → Forall P (JsMap.set m k v).*2.
Proof.
  intros Hm Hv. induction m as [|[k1 v1] m IH]; cbn; [by constructor|]. inv Hm.
  case_if; cbn; constructor; [done|done|done|by apply IH].
Qed.
Lemma set_all_good m ds : NoDup m.*1 → every (λ k, negb (is_index k)) m.*1 = true → Forall canonical m.*2 →
  Forall (λ d, good_key (dkey d)) ds →
  NoDup (set_all m ds).*1 ∧ every (λ k, negb (is_index k)) (set_all m ds).*1 = true ∧ Forall canonical (set_all m ds).*2.
Proof.
  unfold set_all. intros Hn Hi Hc Hd. revert m Hn Hi Hc. induction Hd as [|d ds Hk Hd IH]; intros m Hn Hi Hc; [done|].
  cbn [fold_left]. apply IH; [by apply JsMap.set_nodup| |by apply set_values, stored_canonical].
  rewrite JsMap.set_keys. destruct (JsMap.has m (dkey d)); [done|]. rewrite forallb_app, Hi. cbn. by rewrite Hk.
Qed.

Context `{!FileLaws files} `{!ReliableFiles files}.
Lemma load_found w m : holds w m → ∃ w1 document, load w = (w1, Ok document) ∧ contents w1 = contents w
  ∧ prop document "decisions" = Some (JObject m).
Proof.
  intros (d & Hd & Hp & _). destruct (load_returns files location _ _ w d Hd) as (w1 & Hl & Hw). by exists w1, d.
Qed.
Lemma recordMany_holds w m ds : holds w m → Forall (λ d, good_key (dkey d)) ds →
  ∃ w', recordMany ds w = (w', Ok tt) ∧ holds w' (set_all m ds).
Proof.
  intros Hw Hds. unfold recordMany. destruct ds as [|d ds]; [by exists w|]. cbn [length Nat.eqb].
  destruct (load_found w m Hw) as (w1 & doc & Hl & Hw1 & Hp). unfold mseq. rewrite Hl, Hp. cbn [own_properties].
  destruct (save_returns files location (document_of (set_all m (d :: ds))) w1) as (w2 & -> & Hw2). exists w2. split; [done|].
  destruct Hw as (_ & _ & _ & Hn & Hi & Hc). destruct (set_all_good m (d :: ds) Hn Hi Hc Hds) as (Hn' & Hi' & Hc').
  exists (document_of (set_all m (d :: ds))). split_and!; try done.
  rewrite Hw2, lookup_put_eq. apply JsonDocument.decode_text; [|done|done].
  apply canonical_named; [done|done|]. constructor; [constructor|]. constructor; [|constructor].
  by constructor; [|apply own_order_names|].
Qed.
End store.

(** What is recorded is found: after [recordMany] returns, [find] answers the last decision
    recorded under a key, and for every other key what it answered before; and the recording
    does return. *)
Theorem recorded_decisions_found `{JsDate} `{Engine} {W} (files : FileSystem W) location `{!FileLaws files}
    `{!ReliableFiles files} w m ds k :
  holds files location w m → Forall (λ d, good_key (dkey d)) ds →
  ∃ w1 w2, recordMany files location ds w = (w1, Ok tt)
  ∧ find_ files location k w1 = (w2, match List.find (λ d, (dkey d =? k)%string) (rev ds) with
                                     | Some d => Ok (Some (found_of d))
                                     | None => (find_ files location k w).2
                                     end).
Proof.
  intros Hw Hds. destruct (recordMany_holds files location w m ds Hw Hds) as (w1 & Hr & Hw1).
  destruct (load_found files location w m Hw) as (v & doc & Hl & _ & Hp).
  destruct (load_found files location w1 _ Hw1) as (v1 & doc1 & Hl1 & _ & Hp1).
  exists w1, v1. split; [done|]. unfold find_, mseq, mlift. rewrite Hl, Hl1, Hp, Hp1. cbn [nullish field mbind option_bind snd].
  cbn [prop]. rewrite set_all_get. destruct (List.find _ (rev ds)) as [d|] eqn:E; [|done].
  apply find_spec in E as [_ Hk%String.eqb_eq]. subst k. by rewrite found_stored.
Qed.
End JsonDecisionStore.

(** ** JsonBaselineStore *)

Module JsonBaselineStore.
Import MonitorPersistence.
Record LoadedEntry := mkLoaded { loaded_path : AbsolutePath; loaded_hash : ContentHash; loaded_at : option Z }.

Section store.
Context `{JsDate} `{Engine}.

(** [AbsolutePath.of] calls a method only strings have. *)
Definition path_from (v : option Json) : result AbsolutePath :=
  match v with Some (JString s) => AbsolutePath.of_ s | _ => type_error "raw.replace" end.
(** [SERIALISED.exec] makes a string of what it is given. *)
Definition hash_from (v : option Json) : result ContentHash :=
  let! s := to_string_opt v in
  match ContentHash.SERIALISED s with
  | Some h => Ok (ContentHash.mkHash h)
  | None => throw ("Malformed content hash: " +:+ stringify_opt v)
  end.
Definition entry_from (raw : Json) : result LoadedEntry :=
  match raw with
  | JNull => type_error "entry.path"
  | _ =>
      let! p := path_from (prop raw "path") in
      let! h := hash_from (prop raw "hash") in
      let! d := new_Date (prop raw "recordedAt") in
      Ok (mkLoaded p h d)
  end.
Definition document_of (entries : list Json) : Json := JObject [version_member; ("entries", JArray entries)].
Definition stored_of (e : BaselineEntry) : Json :=
  JObject [("path", JString (AbsolutePath.value (entry_path e))); ("hash", JString (ContentHash.toString (hash e)));
           ("recordedAt", JString (toISOString (recordedAt e)))].

Context {W : Type} (files : FileSystem W) (location : AbsolutePath).
Definition load : M W (list LoadedEntry) :=
  let* document := JsonDocument.load files location SCHEMA_VERSION (document_of []) in
  mlift (match prop document "entries" with
         | Some (JArray l) => rmapM entry_from l
         | _ => type_error "entries.map"
         end).
Definition save (entries : list BaselineEntry) : M W unit :=
  JsonDocument.save files location (document_of (map stored_of entries)).

(** An entry of a collected snapshot: an ordinary path and a digest. *)
Definition storable (e : BaselineEntry) : Prop :=
  (∃ segs, entry_path e = AbsolutePath.posix_path segs ∧ ordinary segs ∧ Forall clean_seg segs ∧ Forall AbsolutePath.no_nul segs)
  ∧ hex_string 64 (ContentHash.hex (hash e)) = true.
Definition loaded_of (e : BaselineEntry) : LoadedEntry := mkLoaded (entry_path e) (hash e) (Some (recordedAt e)).

Lemma entry_read e : storable e → entry_from (stored_of e) = Ok (loaded_of e).
Proof.
  intros [(segs & Hp & Ho & Hc & Hn) Hh]. unfold entry_from, stored_of.
  match goal with |- context [prop ?o "path"] => set (raw := o) end.
  change (prop raw "path") with (Some (JString (AbsolutePath.value (entry_path e)))).
  change (prop raw "hash") with (Some (JString (ContentHash.toString (hash e)))).
  change (prop raw "recordedAt") with (Some (JString (toISOString (recordedAt e)))).
  unfold path_from, hash_from. destruct (ordinary_text segs Ho Hc) as [Hd Hu].
  rewrite Hp. cbn [AbsolutePath.value AbsolutePath.posix_path]. rewrite AbsolutePath.of_posix_text by done.
  pose proof (ContentHash.hash_parse_toString (hash e) Hh) as Hparse. unfold ContentHash.parse in Hparse.
  cbn [rbind to_string_opt to_string]. destruct (ContentHash.SERIALISED _) as [h|]; [|done]. apply Ok_inj in Hparse as ->.
  cbn [rbind new_Date]. rewrite Date_parse_toISOString. unfold loaded_of. by rewrite Hp.
Qed.

(** A saved baseline is loaded as it was saved, entry by entry and in order. *)
Theorem baseline_roundtrip `{!FileLaws files} `{!ReliableFiles files} w entries : Forall storable entries →
  ∃ w1 w2, save entries w = (w1, Ok tt) ∧ load w1 = (w2, Ok (map loaded_of entries)).
Proof.
  intros He. unfold save. destruct (save_returns files location (document_of (map stored_of entries)) w) as (w1 & Hs & Hw1).
  destruct (load_returns files location SCHEMA_VERSION (document_of []) w1 (document_of (map stored_of entries))) as (w2 & Hl & _).
  { rewrite Hw1, lookup_put_eq. apply JsonDocument.decode_text; [|done|done]. apply canonical_named; [done|done|].
    constructor; [constructor|]. constructor; [|constructor]. constructor. apply Forall_forall.
    intros v (e & -> & _)%list_elem_of_fmap. unfold stored_of. canon. }
  exists w1, w2. split; [done|]. unfold load, mseq, mlift. rewrite Hl.
  change (prop (document_of ?l) "entries") with (Some (JArray l)). cbv iota. f_equal.
  apply rmapM_Ok. rewrite Forall2_fmap. apply Forall_Forall2_diag. eapply Forall_impl; [exact He|]. intros e. apply entry_read.
Qed.
End store.
End JsonBaselineStore.

(** ** Stores in memory *)

Section witness.
Import StrokeDate MonitorPersistence.
#[local] Instance plain_engine : Engine := {| syntax_message := id; type_message := id |}.
Definition state_home : AbsolutePath := AbsolutePath.posix_path ["home"; "u"].
Definition allowlist_path : AbsolutePath := AbsolutePath.posix_path ["home"; "u"; ".agentkeeper"; "allowlist.json"].
Definition stored_props (name : string) : Grant.GrantProps :=
  Grant.mkProps (ResourceRef.subtree (AbsolutePath.posix_path ["home"; "u"; name])) read GrantScope.global_ (Some 3%Z) "build cache" Grant.runtime.
Definition stored_grant (name : string) : Grant := Grant.construct (stored_props name).

Lemma stored_grant_storable name : clean_seg name → AbsolutePath.no_nul name → JsonGrantStore.storable state_home (stored_grant name).
Proof.
  intros Hc Hn. exists ["home"; "u"], ["home"; "u"; name], (stored_props name).
  assert (Forall clean_seg ["home"; "u"]) as Hh by (repeat constructor; apply (bool_decide_unpack _); reflexivity).
  split_and!; try done; [by apply (Forall_app _ ["home"; "u"] [name]); split; [|constructor]|by repeat constructor|by left].
Qed.

(** A store on no file: two grants are added, and read back. *)
Lemma grant_store_refines_witness : ∃ w1 w2 w3,
  JsonGrantStore.add MemoryFiles.files allowlist_path state_home (stored_grant "cache") ∅ = (w1, Ok tt)
  ∧ JsonGrantStore.add MemoryFiles.files allowlist_path state_home (stored_grant "notes") w1 = (w2, Ok tt)
  ∧ JsonGrantStore.all MemoryFiles.files allowlist_path state_home w2 = (w3, Ok [stored_grant "cache"; stored_grant "notes"]).
Proof.
  assert (JsonGrantStore.holds MemoryFiles.files allowlist_path state_home ∅ []) as H0.
  { exists (JsonGrantStore.document_of []), []. split_and!; [done|done|constructor|done]. }
  destruct (JsonGrantStore.grant_store_refines MemoryFiles.files allowlist_path state_home ∅ [] H0) as (_ & Hadd & _).
  destruct (Hadd (stored_grant "cache")) as (w1 & E1 & H1).
  { apply stored_grant_storable; [apply (bool_decide_unpack _); reflexivity|reflexivity]. }
  destruct (JsonGrantStore.grant_store_refines MemoryFiles.files allowlist_path state_home w1 _ H1) as (_ & Hadd1 & _).
  destruct (Hadd1 (stored_grant "notes")) as (w2 & E2 & H2).
  { apply stored_grant_storable; [apply (bool_decide_unpack _); reflexivity|reflexivity]. }
  destruct (JsonGrantStore.grant_store_refines MemoryFiles.files allowlist_path state_home w2 _ H2) as ((w3 & E3 & _) & _).
  exists w1, w2, w3. split; [exact E1|]. split; [exact E2|].
  assert (store_with (stored_grant "notes") (store_with (stored_grant "cache") []) = [stored_grant "cache"; stored_grant "notes"]) as E
    by (vm_compute; reflexivity).
  rewrite E in E3. exact E3.
Defined.

Definition sample_decision (k : string) (v : Verdict) : Decision := mkDecision k v "a file" ["AG-H001"] 5.
Lemma recorded_decisions_found_witness : ∃ w1 w2,
  JsonDecisionStore.recordMany MemoryFiles.files allowlist_path [sample_decision "AG-H001@a" deny; sample_decision "AG-H001@a" allow] ∅ = (w1, Ok tt)
  ∧ JsonDecisionStore.find_ MemoryFiles.files allowlist_path "AG-H001@a" w1
    = (w2, Ok (Some (JsonDecisionStore.found_of (sample_decision "AG-H001@a" allow)))).
Proof.
  apply (JsonDecisionStore.recorded_decisions_found MemoryFiles.files allowlist_path ∅ []
           [sample_decision "AG-H001@a" deny; sample_decision "AG-H001@a" allow] "AG-H001@a").
  - exists (JsonDecisionStore.document_of []). split_and!; [reflexivity|reflexivity|constructor|reflexivity|constructor].
  - repeat constructor.
Defined.

Definition sample_hash : ContentHash := ContentHash.mkHash (String.string_of_list_ascii (replicate 64 "a"%char)).
Lemma baseline_roundtrip_witness : ∃ w1 w2,
  JsonBaselineStore.save MemoryFiles.files allowlist_path [mkBaselineEntry state_home sample_hash 7] ∅ = (w1, Ok tt)
  ∧ JsonBaselineStore.load MemoryFiles.files allowlist_path w1 = (w2, Ok [JsonBaselineStore.mkLoaded state_home sample_hash (Some 7%Z)]).
Proof.
  apply (JsonBaselineStore.baseline_roundtrip MemoryFiles.files allowlist_path ∅ [mkBaselineEntry state_home sample_hash 7]).
  constructor; [|constructor]. split; [|reflexivity]. exists ["home"; "u"]. split; [reflexivity|]. split; [split; discriminate|].
  split; [repeat constructor; apply (bool_decide_unpack _); reflexivity|repeat constructor].
Defined.
End witness.
