(* ===== verification/StateFiles.v ===== *)
(** * The small state files (src/infrastructure/store)

    [JsonPauseState], [JsonDaemonRuntime] and [JsonPersistencePendingStore]: files another
    process writes, with a bound on their size. A file that is too large, is no JSON or has
    a field of the wrong type must not read as something that lowers protection. *)

From S2P Require Import Prelude JsString JsMap JsNumber Json NodePath Paths Patterns Values Resources.
From S2P Require Import SensitivePaths Entities Ports GrantAccess MonitorPersistence Stores.
Import MonitorPersistence(PauseState, pause_inactive, pause_active, pause_expired, pause_invalid).
Import JSON.

(** [typeof v === 'object' && v !== null && !Array.isArray(v)] *)
Definition record_of (v : Json) : option (list (string * Json)) := match v with JObject m => Some m | _ => None end.

(** A stat the source can read a document under: present or not, and if so how large. *)
Definition oversized (limit : Z) (info : option FileStat) : bool :=
  match info with Some s => stat_isDirectory s || (limit <? stat_size s)%Z | None => false end.

(** A stat leaves the files alone. *)
Class StatLaws {W} (files : FileSystem W) `{!FileLaws files} := {
  stat_keeps : ∀ p w, contents (stat_ files p w).1 = contents w
}.
#[global] Instance memory_stat : StatLaws MemoryFiles.files.
Proof. by split. Qed.

(** ** JsonPauseState.ts *)

Module JsonPauseState.
Definition MAX_PAUSE_BYTES : Z := 4096.

Section pause.
Context `{JsDate} {W : Type} (files : FileSystem W) (clock : Clock W) (path : AbsolutePath).

(** Everything after the parse is inside the [try]: a clock that throws reads as a broken file. *)
Definition read : M W PauseState :=
  let* info := stat_ files path in
  if oversized MAX_PAUSE_BYTES info then mok (pause_invalid "pause.json exceeds its bounded schema")
  else
    let* raw := read_ files path in
    match raw with
    | None => mok pause_inactive
    | Some raw =>
        match JSON.parse raw with
        | None => mok (pause_invalid "pause.json is not valid JSON")
        | Some parsed =>
            match (if isRecord parsed then text_of (prop parsed "until") else None) with
            | None => mok (pause_invalid "expected an ISO until timestamp")
            | Some t =>
                match Date_parse t with
                | None => mok (pause_invalid "until is not a valid timestamp")
                | Some until => λ w,
                    match now clock w with
                    | (w', Ok n) => (w', Ok (if (n <? until)%Z then pause_active until else pause_expired until))
                    | (w', Err _) => (w', Ok (pause_invalid "pause.json is not valid JSON"))
                    end
                end
            end
        end
    end.

(** Notifications are silenced only by a lease that is on disk, within the bound, has a valid
    end, and has not ended by the clock read after the file: nothing broken silences. *)
Theorem pause_active_only_on_lease `{!FileLaws files} `{!StatLaws files} w w' until :
  read w = (w', Ok (pause_active until)) →
  ∃ raw m t, contents w !! AbsolutePath.value path = Some raw
  ∧ JSON.parse raw = Some (JObject m) ∧ JsMap.get m "until" = Some (JString t) ∧ Date_parse t = Some until
  ∧ (∃ w1 info, stat_ files path w = (w1, Ok info) ∧ oversized MAX_PAUSE_BYTES info = false)
  ∧ ∃ w2 n, now clock w2 = (w', Ok n) ∧ (n < until)%Z.
Proof.
  unfold read. unfold mseq at 1. pose proof (stat_keeps path w) as Hs.
  destruct (stat_ files path w) as [w1 [info|]] eqn:Es; [|done]. cbn in Hs.
  destruct (oversized MAX_PAUSE_BYTES info) eqn:Eo; [done|]. unfold mseq.
  destruct (read_law path w1) as [_ Hr]. destruct (read_ files path w1) as [w2 [t|]]; [|done]. cbn in Hr.
  specialize (Hr t eq_refl). rewrite Hs in Hr. destruct t as [raw|]; [|done].
  destruct (JSON.parse raw) as [v|] eqn:Ep; [|done]. destruct v as [| | | | |m]; try done. cbn [isRecord prop].
  destruct (JsMap.get m "until") as [[| | |t| |]|] eqn:Eu; try done. cbn [text_of].
  destruct (Date_parse t) as [u|] eqn:Ed; [|done]. destruct (now clock w2) as [w3 [n|]] eqn:En; [|done].
  destruct (Z.ltb_spec n u); [|done]. intros [= <- <-].
  exists raw, m, t. split_and!; try done; [by exists w1, info|by exists w2, n].
Qed.
End pause.
End JsonPauseState.

(** ** JsonDaemonRuntime.ts *)

Module JsonDaemonRuntime.
Definition MAX_RUNTIME_BYTES : Z := 4096.

Inductive CoverageStatus := protected_ | degraded_.
Record DaemonWatchCoverage := mkCoverage { coverage_status : CoverageStatus; reasons : list string }.
Record DaemonRuntimeRecord := mkRuntime { pid : Z; version : string; startedAt : string; coverage : option DaemonWatchCoverage }.

Definition status_name (s : CoverageStatus) : string := match s with protected_ => "protected" | degraded_ => "degraded" end.
(** The members of an absent coverage are not printed. *)
Definition record_json (r : DaemonRuntimeRecord) : Json :=
  JObject ([("pid", JNum (Int (pid r))); ("version", JString (version r)); ("startedAt", JString (startedAt r))]
    ++ match coverage r with
       | Some c => [("coverage", JObject [("status", JString (status_name (coverage_status c))); ("reasons", strings (reasons c))])]
       | None => []
       end).

Definition parseCoverage (raw : option Json) : option DaemonWatchCoverage :=
  match raw with
  | Some (JObject m) =>
      match JsMap.get m "status", JsMap.get m "reasons" with
      | Some (JString s), Some (JArray l) =>
          if (s =? "protected")%string then mkCoverage protected_ <$> all_strings l
          else if (s =? "degraded")%string then mkCoverage degraded_ <$> all_strings l
          else None
      | _, _ => None
      end
  | _ => None
  end.

(** The record a parsed file stands for. *)
Definition record_from (parsed : Json) : option DaemonRuntimeRecord :=
  match prop parsed "pid", prop parsed "version", prop parsed "startedAt" with
  | Some (JNum (Int p)), Some (JString v), Some (JString s) =>
      if (p <=? 0)%Z then None
      else if (v =? "")%string then None
      else Some (mkRuntime p v s (parseCoverage (prop parsed "coverage")))
  | _, _, _ => None
  end.

Definition reported (raw : option string) : option DaemonRuntimeRecord :=
  match raw with
  | Some raw => match JSON.parse raw with Some parsed => record_from parsed | None => None end
  | None => None
  end.

Section runtime.
Context {W : Type} (files : FileSystem W) (path : AbsolutePath).
Definition announce (r : DaemonRuntimeRecord) : M W unit := write_ files path (stringify "  " (record_json r) +:+ nl) None.
Definition read : M W (option DaemonRuntimeRecord) :=
  let* info := stat_ files path in
  if oversized MAX_RUNTIME_BYTES info then mok None
  else let* raw := read_ files path in mok (reported raw).
End runtime.

Inductive RuntimeState := absent | stopped | stale | current.
#[global] Instance RuntimeState_eq_dec : EqDecision RuntimeState.
Proof. solve_decision. Defined.
Definition daemonRuntimeState (r : option DaemonRuntimeRecord) (installedVersion : string) (isAlive : Z → bool) : RuntimeState :=
  match r with
  | None => absent
  | Some r => if negb (isAlive (pid r)) then stopped
              else if (version r =? installedVersion)%string then current else stale
  end.

(** A record as a watcher makes one. *)
Definition announceable (r : DaemonRuntimeRecord) : Prop := (0 < pid r)%Z ∧ version r ≠ "".
Lemma record_json_canonical r : canonical (record_json r).
Proof.
  unfold record_json. destruct (coverage r) as [c|]; cbn [app]; canon.
Qed.
Lemma record_from_json r : announceable r → record_from (record_json r) = Some r.
Proof.
  destruct r as [p v s [[st rs]|]]; intros [Hp Hv]; unfold record_from, record_json; cbn [pid version startedAt coverage] in *;
    match goal with |- context [prop ?o "pid"] => set (raw := o) end;
    change (prop raw "pid") with (Some (JNum (Int p))); change (prop raw "version") with (Some (JString v));
    change (prop raw "startedAt") with (Some (JString s)); cbv iota;
    (destruct (Z.leb_spec p 0); [lia|]); (destruct (String.eqb_spec v ""); [done|]); [|done].
  match goal with |- context [prop raw "coverage"] => set (c := prop raw "coverage") end.
  change c with (Some (JObject [("status", JString (status_name st)); ("reasons", strings rs)])).
  unfold parseCoverage, strings.
  match goal with |- context [JsMap.get ?o "status"] => change (JsMap.get o "status") with (Some (JString (status_name st)));
    change (JsMap.get o "reasons") with (Some (JArray (map JString rs))) end.
  cbv iota. rewrite all_strings_strings. by destruct st.
Qed.

(** A report is read back as it was announced while it is within the bound, and a report
    beyond it reads as no watcher at all; only a process that is alive and runs the installed
    version reads as current. *)
Theorem runtime_report {W} (files : FileSystem W) path `{!FileLaws files} `{!StatLaws files} r w w1 w2 seen :
  announceable r → announce files path r w = (w1, Ok tt) → read files path w1 = (w2, Ok seen) →
  (seen = Some r ∨ seen = None ∧ ∃ v info, stat_ files path w1 = (v, Ok info) ∧ oversized MAX_RUNTIME_BYTES info = true)
  ∧ ∀ installed alive, daemonRuntimeState seen installed alive = current → version r = installed ∧ alive (pid r) = true.
Proof.
  intros Hr Ha Hread. destruct (write_law path (stringify "  " (record_json r) +:+ nl) None w) as [_ Hw].
  unfold announce in Ha. rewrite Ha in Hw. specialize (Hw eq_refl). cbn [fst snd] in Hw.
  assert (seen = Some r ∨ seen = None ∧ ∃ v info, stat_ files path w1 = (v, Ok info) ∧ oversized MAX_RUNTIME_BYTES info = true) as Hseen.
  { unfold read in Hread. unfold mseq at 1 in Hread. pose proof (stat_keeps path w1) as Hs.
    destruct (stat_ files path w1) as [v [info|]] eqn:Es; [|done]. cbn in Hs.
    destruct (oversized MAX_RUNTIME_BYTES info) eqn:Eo; [right; injection Hread as _ <-; split; [done|by exists v, info]|left].
    unfold mseq in Hread. destruct (read_law path v) as [_ Hrd]. destruct (read_ files path v) as [v1 [t|]]; [|done].
    cbn in Hrd. rewrite (Hrd t eq_refl), Hs, Hw, lookup_put_eq in Hread. injection Hread as _ <-.
    unfold reported. rewrite (parse_stringify "  ") by (done || apply record_json_canonical). by apply record_from_json. }
  split; [done|]. intros installed alive. destruct Hseen as [->|[-> _]]; [|done]. cbn.
  destruct (alive (pid r)); [|done]. cbn. case_if; [|done]. by apply String.eqb_eq in Heqb.
Qed.
End JsonDaemonRuntime.

(** ** JsonPersistencePendingStore.ts *)

Module JsonPersistencePendingStore.
Import MonitorPersistence(PersistenceIncident, PersistenceIncidentState, pending_state, quarantined_state, mkIncident,
  incident_id, incident_decisionKey, incident_subject, incident_ruleIds, incident_severity, incident_state,
  incident_previousHash, incident_currentHash, firstSeenAt, lastSeenAt, occurrences).

Definition MAX_PENDING_BYTES : Z := 2 * 1024 * 1024.
Definition MAX_INCIDENTS : nat := 2048.
Definition MAX_SAFE : Z := 9007199254740991.
Definition SEVERITIES : list string := ["low"; "medium"; "high"; "critical"].
Definition state_name (s : PersistenceIncidentState) : string :=
  match s with pending_state => "pending" | quarantined_state => "quarantined" end.

Section store.
Context `{JsDate} `{Engine} (path : AbsolutePath).

Definition corrupt {A} (index : nat) (reason : string) : result A :=
  Err (CorruptStoreError path ("incident " +:+ string_of_nat index +:+ ": " +:+ reason)).
Definition string_field (m : list (string * Json)) (key : string) (index : nat) : result string :=
  match text_of (JsMap.get m key) with
  | Some s => if (s =? "")%string then corrupt index (key +:+ " must be a non-empty string") else Ok s
  | None => corrupt index (key +:+ " must be a non-empty string")
  end.
Definition nullable_field (m : list (string * Json)) (key : string) (index : nat) : result (option string) :=
  match JsMap.get m key with
  | Some JNull => Ok None
  | Some (JString s) => Ok (Some s)
  | _ => corrupt index (key +:+ " must be a string or null")
  end.
Definition date_field (m : list (string * Json)) (key : string) (index : nat) : result Z :=
  let! s := string_field m key index in
  match Date_parse s with Some t => Ok t | None => corrupt index (key +:+ " must be a timestamp") end.

Definition rule_ids (v : option Json) : option (list string) :=
  match v with Some (JArray l) => all_strings l | _ => None end.
Definition severity_from (v : option Json) : option string :=
  match text_of v with Some s => if str_includes SEVERITIES s then Some s else None | None => None end.
Definition state_from (v : option Json) : option PersistenceIncidentState :=
  match text_of v with
  | Some s => if (s =? "pending")%string then Some pending_state
              else if (s =? "quarantined")%string then Some quarantined_state else None
  | None => None
  end.
Definition occurrences_from (v : option Json) : option Z :=
  match v with Some (JNum (Int z)) => if (z <=? MAX_SAFE)%Z && (1 <=? z)%Z then Some z else None | _ => None end.
Definition required {A} (v : option A) (index : nat) (reason : string) : result A :=
  match v with Some a => Ok a | None => corrupt index reason end.

Definition parse_incident (value : Json) (index : nat) : result PersistenceIncident :=
  match value with
  | JObject m =>
      let! id := string_field m "id" index in
      let! decisionKey := string_field m "decisionKey" index in
      let! subject := string_field m "subject" index in
      let! ruleIds := required (rule_ids (JsMap.get m "ruleIds")) index "ruleIds must be strings" in
      let! severity := required (severity_from (JsMap.get m "severity")) index "unknown severity" in
      let! state := required (state_from (JsMap.get m "state")) index "unknown state" in
      let! n := required (occurrences_from (JsMap.get m "occurrences")) index "occurrences must be a positive integer" in
      let! first := date_field m "firstSeenAt" index in
      let! last_ := date_field m "lastSeenAt" index in
      let! previousHash := nullable_field m "previousHash" index in
      let! currentHash := nullable_field m "currentHash" index in
      Ok (mkIncident id decisionKey subject ruleIds severity state previousHash currentHash first last_ n)
  | _ => corrupt index "expected an object"
  end.
Fixpoint parse_all (index : nat) (l : list Json) : result (list PersistenceIncident) :=
  match l with
  | [] => Ok []
  | v :: r => let! i := parse_incident v index in let! is_ := parse_all (S index) r in Ok (i :: is_)
  end.

Definition nullable (s : option string) : Json := match s with Some s => JString s | None => JNull end.
(** [{ ...incident, firstSeenAt, lastSeenAt }], in the order of the members of an incident. *)
Definition incident_json (i : PersistenceIncident) : Json :=
  JObject [("id", JString (incident_id i)); ("decisionKey", JString (incident_decisionKey i));
           ("subject", JString (incident_subject i)); ("ruleIds", strings (incident_ruleIds i));
           ("severity", JString (incident_severity i)); ("state", JString (state_name (incident_state i)));
           ("previousHash", nullable (incident_previousHash i)); ("currentHash", nullable (incident_currentHash i));
           ("firstSeenAt", JString (toISOString (firstSeenAt i))); ("lastSeenAt", JString (toISOString (lastSeenAt i)));
           ("occurrences", JNum (Int (occurrences i)))].
Definition document_of (incidents : list Json) : Json := JObject [version_member; ("incidents", JArray incidents)].

Context {W : Type} (files : FileSystem W).
Definition load : M W (list PersistenceIncident) :=
  let* info := stat_ files path in
  if oversized MAX_PENDING_BYTES info
  then mlift (Err (CorruptStoreError path "pending incident store exceeds its bounded schema"))
  else
    let* raw := JsonDocument.load files path SCHEMA_VERSION (document_of []) in
    mlift (match prop raw "incidents" with
           | Some (JArray l) =>
               if MAX_INCIDENTS <? length l
               then Err (CorruptStoreError path ("more than " +:+ string_of_nat MAX_INCIDENTS +:+ " pending incidents"))
               else parse_all 0 l
           | _ => Err (CorruptStoreError path "incidents must be an array")
           end).
Definition save (incidents : list PersistenceIncident) : M W unit :=
  if MAX_INCIDENTS <? length incidents
  then mlift (throw ("Refusing to store more than " +:+ string_of_nat MAX_INCIDENTS +:+ " pending incidents"))
  else JsonDocument.save files path (document_of (map incident_json incidents)).

(** An incident as the monitor makes one. *)
Record wf_incident (i : PersistenceIncident) : Prop := {
  wf_id : incident_id i ≠ ""; wf_key : incident_decisionKey i ≠ ""; wf_subject : incident_subject i ≠ "";
  wf_severity : incident_severity i ∈ SEVERITIES; wf_occurrences : (1 ≤ occurrences i ≤ MAX_SAFE)%Z;
  wf_first : toISOString (firstSeenAt i) ≠ ""; wf_last : toISOString (lastSeenAt i) ≠ ""
}.

Lemma nonempty_field m key s index : JsMap.get m key = Some (JString s) → s ≠ "" → string_field m key index = Ok s.
Proof. intros Hm Hs. unfold string_field. rewrite Hm. cbn [text_of]. by destruct (String.eqb_spec s ""). Qed.
Lemma iso_field m key t index : JsMap.get m key = Some (JString (toISOString t)) → toISOString t ≠ "" → date_field m key index = Ok t.
Proof. intros Hm Ht. unfold date_field. rewrite (nonempty_field _ _ _ _ Hm Ht). cbn [rbind]. by rewrite Date_parse_toISOString. Qed.
Lemma null_field m key s index : JsMap.get m key = Some (nullable s) → nullable_field m key index = Ok s.
Proof. intros Hm. unfold nullable_field. rewrite Hm. by destruct s. Qed.

Lemma incident_read i index : wf_incident i → parse_incident (incident_json i) index = Ok i.
Proof.
  intros [Hid Hkey Hsub Hsev Hocc Hf Hl]. unfold incident_json. cbn [parse_incident].
  match goal with |- context [string_field ?m "id"] => set (fields := m) end.
  rewrite (nonempty_field fields "id" (incident_id i)) by done. cbn [rbind].
  rewrite (nonempty_field fields "decisionKey" (incident_decisionKey i)) by done. cbn [rbind].
  rewrite (nonempty_field fields "subject" (incident_subject i)) by done. cbn [rbind].
  change (JsMap.get fields "ruleIds") with (Some (strings (incident_ruleIds i))). cbn [rule_ids strings].
  rewrite all_strings_strings. cbn [required rbind].
  change (JsMap.get fields "severity") with (Some (JString (incident_severity i))). unfold severity_from. cbn [text_of].
  apply str_includes_true in Hsev as ->. cbn [required rbind].
  change (JsMap.get fields "state") with (Some (JString (state_name (incident_state i)))).
  assert (state_from (Some (JString (state_name (incident_state i)))) = Some (incident_state i)) as -> by by destruct (incident_state i).
  cbn [required rbind].
  change (JsMap.get fields "occurrences") with (Some (JNum (Int (occurrences i)))). unfold occurrences_from.
  assert ((occurrences i <=? MAX_SAFE)%Z && (1 <=? occurrences i)%Z = true) as -> by (apply andb_true_iff; split; apply Z.leb_le; lia).
  cbn [required rbind].
  rewrite (iso_field fields "firstSeenAt" (firstSeenAt i)) by done. cbn [rbind].
  rewrite (iso_field fields "lastSeenAt" (lastSeenAt i)) by done. cbn [rbind].
  rewrite (null_field fields "previousHash" (incident_previousHash i)) by done. cbn [rbind].
  rewrite (null_field fields "currentHash" (incident_currentHash i)) by done. by destruct i.
Qed.
Lemma incidents_read is_ index : Forall wf_incident is_ → parse_all index (map incident_json is_) = Ok is_.
Proof.
  intros Hw. revert index. induction Hw as [|i is_ Hi _ IH]; intros index; [done|]. cbn [map parse_all].
  rewrite incident_read by done. cbn [rbind]. by rewrite IH.
Qed.
Lemma incident_canonical i : canonical (incident_json i).
Proof. unfold incident_json. canon; by destruct (incident_previousHash i), (incident_currentHash i); constructor. Qed.

(** What an accepted file holds is checked field by field: a loaded list is bounded, and
    its incidents have texts, severities, counts and dates the monitor can rely on. *)
Lemma parse_all_wf l index is_ : (∀ t, toISOString t ≠ "") → parse_all index l = Ok is_ → Forall wf_incident is_ ∧ length is_ = length l.
Proof.
  intros Hiso. revert index is_. induction l as [|v l IH]; intros index is_; cbn [parse_all]; [by intros [= <-]|].
  intros E. destruct (parse_incident v index) as [i|] eqn:Ei; [|done]. cbn [rbind] in E.
  destruct (parse_all (S index) l) as [js|] eqn:El; [|done]. apply Ok_inj in E as <-.
  destruct (IH _ _ El) as [Hw Hl]. split; [|cbn; by rewrite Hl]. constructor; [|done]. clear IH El Hw Hl.
  destruct v as [| | | | |m]; try done. unfold parse_incident in Ei.
  assert (∀ key s, string_field m key index = Ok s → s ≠ "") as Hne.
  { intros key s. unfold string_field. destruct (text_of _) as [t|]; [|done]. destruct (String.eqb_spec t ""); [done|]. by intros [= <-]. }
  unfold required in Ei. repeat (case_match || res_step); try done; simplify_eq.
  split; cbn; try (by eapply Hne); try done.
  - unfold severity_from in *. repeat case_match; simplify_eq. by apply str_includes_true.
  - unfold occurrences_from in *. repeat case_match; simplify_eq. bool_prop. lia.
Qed.

(** Saved incidents are loaded as they were saved while the file is within its bound. *)
Theorem pending_roundtrip `{!FileLaws files} `{!StatLaws files} is_ w w1 :
  Forall wf_incident is_ → save is_ w = (w1, Ok tt) →
  ∀ w2 r, load w1 = (w2, r) →
  r = Ok is_ ∨ (∃ e, r = Err e) ∧ ((∃ v e, stat_ files path w1 = (v, Err e))
    ∨ (∃ v info, stat_ files path w1 = (v, Ok info) ∧ (oversized MAX_PENDING_BYTES info = true ∨ ∃ v' e, read_ files path v = (v', Err e)))).
Proof.
  intros Hw Hs w2 r Hl. unfold save in Hs. destruct (MAX_INCIDENTS <? length is_) eqn:En; [done|].
  pose proof (JsonDocument.save_Ok files path _ w w1 Hs) as Hc. clear Hs. rename Hc into Hs. unfold load in Hl. unfold mseq at 1 in Hl.
  pose proof (stat_keeps path w1) as Hst. destruct (stat_ files path w1) as [v [info|e]] eqn:Est; cbn in Hst.
  2: { right. injection Hl as _ <-. split; [by eexists|]. left. by eexists _, _. }
  destruct (oversized MAX_PENDING_BYTES info) eqn:Eo.
  { right. injection Hl as _ <-. split; [by eexists|]. right. exists v, info. split; [done|by left]. }
  unfold JsonDocument.load in Hl. unfold mseq at 1 2 in Hl.
  destruct (read_law path v) as [_ Hr]. destruct (read_ files path v) as [v1 [t|e]] eqn:Er.
  2: { right. injection Hl as _ <-. split; [by eexists|]. right. exists v, info. split; [done|]. right. by eexists _, _. }
  left. cbn in Hr. unfold mlift in Hl. rewrite (Hr t eq_refl), Hst, Hs, lookup_put_eq, JsonDocument.decode_text in Hl; [|  |done|done].
  2: { apply canonical_named; [done|done|]. canon. constructor. constructor. apply Forall_forall.
       intros x (i & -> & _)%list_elem_of_fmap. apply incident_canonical. }
  change (prop (document_of ?l) "incidents") with (Some (JArray l)) in Hl. cbv iota in Hl.
  rewrite length_map, En, incidents_read in Hl by done. by injection Hl as _ <-.
Qed.
End store.
End JsonPersistencePendingStore.

(** ** State files in memory *)

Section witness.
Import StrokeDate.
Definition pause_path : AbsolutePath := AbsolutePath.posix_path ["home"; "u"; ".agentkeeper"; "pause.json"].
Definition frozen (t : Z) : Clock Contents := mkClock Contents (mok t).
Definition lease (t : Z) : string := JSON.stringify "" (JObject [("until", JString (to_text t))]).
Definition lease_on_disk (t : Z) : Contents := {[ AbsolutePath.value pause_path := lease t ]}.

(** A lease silences until its end. *)
Lemma pause_samples :
  (JsonPauseState.read MemoryFiles.files (frozen 4) pause_path (lease_on_disk 5)).2 = Ok (pause_active 5)
  ∧ (JsonPauseState.read MemoryFiles.files (frozen 5) pause_path (lease_on_disk 5)).2 = Ok (pause_expired 5)
  ∧ (JsonPauseState.read MemoryFiles.files (frozen 4) pause_path {[ AbsolutePath.value pause_path := "{}" ]}).2
    = Ok (pause_invalid "expected an ISO until timestamp").
Proof. vm_compute. done. Qed.
Lemma pause_active_only_on_lease_witness : ∃ raw m t, lease_on_disk 5 !! AbsolutePath.value pause_path = Some raw
  ∧ JSON.parse raw = Some (JObject m) ∧ JsMap.get m "until" = Some (JString t) ∧ Date_parse t = Some 5%Z.
Proof.
  destruct (JsonPauseState.pause_active_only_on_lease MemoryFiles.files (frozen 4) pause_path (lease_on_disk 5) (lease_on_disk 5) 5)
    as (raw & m & t & ? & ? & ? & ? & _); [vm_compute; reflexivity|]. exists raw, m, t. split_and!; assumption.
Defined.

Import JsonDaemonRuntime.
Definition sample_runtime : DaemonRuntimeRecord := mkRuntime 42 "1.2.0" "now" (Some (mkCoverage degraded_ ["/home is not watched"])).
Definition runtime_run : Contents * result (option DaemonRuntimeRecord) :=
  read MemoryFiles.files pause_path (announce MemoryFiles.files pause_path sample_runtime ∅).1.
Definition returned {W A} (x : W * result A) : bool := match x.2 with Ok _ => true | Err _ => false end.
Lemma runtime_report_witness : ∃ seen, runtime_run.2 = Ok seen
  ∧ (daemonRuntimeState seen "1.3.0" (λ _, true) = current → version sample_runtime = "1.3.0").
Proof.
  assert (returned runtime_run = true) as Hr by (vm_compute; reflexivity).
  destruct runtime_run as [w2 [seen|e]] eqn:E; [|discriminate Hr].
  exists seen. split; [reflexivity|]. intros H.
  destruct (runtime_report MemoryFiles.files pause_path sample_runtime ∅
              (announce MemoryFiles.files pause_path sample_runtime ∅).1 w2 seen) as [_ Hcur].
  - split; [reflexivity|discriminate].
  - reflexivity.
  - exact E.
  - destruct (Hcur "1.3.0" (λ _, true) H) as [Hv _]. exact Hv.
Defined.

Import JsonPersistencePendingStore.
#[local] Instance silent_engine : Engine := {| syntax_message := λ s, s; type_message := λ s, s |}.
Definition sample_incident : MonitorPersistence.PersistenceIncident :=
  MonitorPersistence.mkIncident "i1" "AG-P001@/home/u/.bashrc" "/home/u/.bashrc" ["AG-P001"] "high"
    MonitorPersistence.pending_state None (Some "sha256:00") 3 4 1.
Definition pending_run : Contents * result (list MonitorPersistence.PersistenceIncident) :=
  load pause_path MemoryFiles.files (save pause_path MemoryFiles.files [sample_incident] ∅).1.
Lemma pending_roundtrip_witness : pending_run.2 = Ok [sample_incident].
Proof.
  assert (returned pending_run = true) as Hok by (vm_compute; reflexivity).
  destruct pending_run as [w2 r] eqn:E.
  destruct (pending_roundtrip pause_path MemoryFiles.files [sample_incident] ∅ (save pause_path MemoryFiles.files [sample_incident] ∅).1)
    with (w2 := w2) (r := r) as [Hr|[[e Hr] _]].
  - constructor; [|constructor]. split; try discriminate; [|split; discriminate].
    apply (bool_decide_unpack _). reflexivity.
  - vm_compute. reflexivity.
  - exact E.
  - exact Hr.
  - exfalso. subst r. discriminate Hok.
Defined.
End witness.
