(* ===== verification/AuditLog.v ===== *)
(** * The audit log on disk (stores.ts)

    [JsonlAuditLog]: lines of JSON in segments that belong to one process each, with a
    bound on a line, on a segment, on the bytes and number of all segments, and on their
    age. The operations run one after the other, which is what the promise queue of the
    class sees to (compare [SerialAuditLog] in Services.v). *)

From S2P Require Import Prelude JsString JsMap JsNumber Json NodePath Paths Patterns Values Entities Ports.
Import JSON.

Module JsonlAuditLog.

Definition DAY_MILLISECONDS : Z := 24 * 60 * 60000.
Definition MAX_DISCOVERED_AUDIT_FILES : nat := Z.to_nat 4096.

(** ** Names *)

Inductive SegmentState := open_ | closed_.
#[global] Instance SegmentState_eq_dec : EqDecision SegmentState.
Proof. solve_decision. Defined.
Definition state_name (s : SegmentState) : string := match s with open_ => "open" | closed_ => "closed" end.

(** Exactly [n] characters that pass a test, and what follows them. *)
Definition fixed (n : nat) (p : ascii → bool) (s : string) : option (string * string) :=
  if (slen (stake n s) =? n) && sforall p (stake n s) then Some (stake n s, sdrop n s) else None.
Definition literal (w s : string) : option string := if startsWith s w then Some (sdrop (slen w) s) else None.

(** [/^audit-(\d{13})-(\d{10})-([0-9a-f]{12})-(\d{8})\.(open|closed)\.jsonl$/] *)
Definition SEGMENT_PATTERN (s : string) : option (string * string * SegmentState) :=
  r1 ← literal "audit-" s; a ← fixed 13 is_digit r1;
  r2 ← literal "-" a.2; b ← fixed 10 is_digit r2;
  r3 ← literal "-" b.2; c ← fixed 12 is_hex_lower r3;
  r4 ← literal "-" c.2; d ← fixed 8 is_digit r4;
  if (d.2 =? ".open.jsonl")%string then Some (a.1, b.1, open_)
  else if (d.2 =? ".closed.jsonl")%string then Some (a.1, b.1, closed_) else None.
Definition LEGACY_SEGMENT_PATTERN (s : string) : option string :=
  r1 ← literal "legacy-" s; a ← fixed 13 is_digit r1;
  r2 ← literal "-" a.2; c ← fixed 12 is_hex_lower r2;
  if (c.2 =? ".closed.jsonl")%string then Some a.1 else None.
Definition DELETING_PATTERN (s : string) : bool :=
  match r ← literal ".deleting-" s; fixed 12 is_hex_lower r with Some (_, "") => true | _ => false end.

Record AuditSegment := mkSegment {
  path : AbsolutePath; name : string; createdAt : Z; processId_of : option Z; state : SegmentState; size : Z
}.
Definition parseSegmentName (p : AbsolutePath) : option (Z * option Z * SegmentState) :=
  match SEGMENT_PATTERN (AbsolutePath.basename p) with
  | Some (created, pid, st) => Some (digits_value 0 created, Some (digits_value 0 pid), st)
  | None => (λ created, (digits_value 0 created, None, closed_)) <$> LEGACY_SEGMENT_PATTERN (AbsolutePath.basename p)
  end.

(** [compareSegments(left, right) <= 0] *)
Definition segment_leb (l r : AuditSegment) : bool :=
  if negb (createdAt l =? createdAt r)%Z then (createdAt l <? createdAt r)%Z
  else match processId_of l, processId_of r with
       | None, Some _ => true
       | Some _, None => false
       | _, _ => ScanReport.localeLeb (name l) (name r)
       end.

(** [replace(/\.(open|closed)\.jsonl$/, `.${state}.jsonl`)] *)
Definition restate (st : SegmentState) (base : string) : string :=
  let suffix := "." +:+ state_name st +:+ ".jsonl" in
  if endsWith base ".open.jsonl" then stake (slen base - slen ".open.jsonl") base +:+ suffix
  else if endsWith base ".closed.jsonl" then stake (slen base - slen ".closed.jsonl") base +:+ suffix
  else base.
Definition withSegmentState (p : AbsolutePath) (st : SegmentState) : result AbsolutePath :=
  let! above := AbsolutePath.parent p in AbsolutePath.joinp above [restate st (AbsolutePath.basename p)].

(** ** Options *)

Record AuditOptions := mkOptions {
  maxSegmentBytes : Z; maxTotalBytes : Z; maxSegments : Z; maxEntryBytes : Z; retentionDays : Z;
  processId : Z; instanceId : string
}.
Definition defaults (pid : Z) (instance : string) : AuditOptions :=
  mkOptions (4 * 1024 * 1024) (32 * 1024 * 1024) 32 (64 * 1024) 90 pid instance.

Definition timestamp (value : option Z) : result Z :=
  match value with
  | Some ms => if (0 <=? ms)%Z && (ms <=? 9999999999999)%Z then Ok ms else throw "Audit clock returned an invalid timestamp"
  | None => throw "Audit clock returned an invalid timestamp"
  end.
Definition positive (n : string) (value : Z) : result unit :=
  if (value <=? 9007199254740991)%Z && (1 <=? value)%Z then Ok tt else throw (n +:+ " must be a positive integer").
Definition resolveAuditOptions (o : AuditOptions) (start : option Z) : result AuditOptions :=
  let! _ := positive "maxSegmentBytes" (maxSegmentBytes o) in
  let! _ := positive "maxTotalBytes" (maxTotalBytes o) in
  let! _ := positive "maxSegments" (maxSegments o) in
  let! _ := positive "maxEntryBytes" (maxEntryBytes o) in
  let! _ := positive "retentionDays" (retentionDays o) in
  let! _ := positive "processId" (processId o) in
  if (maxSegmentBytes o <? maxEntryBytes o)%Z then throw "maxEntryBytes cannot exceed maxSegmentBytes"
  else if (maxTotalBytes o <? maxSegmentBytes o)%Z then throw "maxSegmentBytes cannot exceed maxTotalBytes"
  else if negb ((slen (instanceId o) =? 12) && sforall is_hex_lower (instanceId o))
  then throw "instanceId must be exactly 12 lowercase hexadecimal characters"
  else let! _ := timestamp start in Ok o.

(** ** Lines *)

(** [Buffer.byteLength]: a code unit above 127 takes two bytes of UTF-8. *)
Fixpoint byteLength (s : string) : Z :=
  match s with "" => 0 | String c r => (if code c <? 128 then 1 else 2) + byteLength r end.

Definition detail_json (d : Detail) : Json :=
  match d with
  | DText s => JString s | DNull => JNull | DList l => strings l | DBool b => JBool b | DNumber z => JNum (Int z)
  end.
Definition AuditEntryLimitError (bytes limit : Z) : exn :=
  JsError ("Audit entry is " +:+ string_of_Z bytes +:+ " bytes and exceeds the " +:+ string_of_Z limit +:+ "-byte entry limit").
Definition AuditCapacityError (reason : string) : exn :=
  JsError ("Audit capacity cannot be enforced without deleting active evidence: " +:+ reason).
Definition CorruptAuditArchiveError (p : AbsolutePath) (reason : string) : exn :=
  JsError ("Audit archive " +:+ AbsolutePath.value p +:+ " is not a managed segment: " +:+ reason).

(** A parsed entry: its details are whatever members the line has. *)
Record ReadEntry := mkRead { when : Z; read_event : string; read_details : list (string * Json) }.

Section lines.
Context `{JsDate}.
Definition entry_members (e : AuditEntry) : list (string * Json) :=
  JsMap.set (JsMap.set (fold_left (λ m kv, JsMap.set m kv.1 (detail_json kv.2)) (details e) [])
               "at" (JString (toISOString (at_ e)))) "event" (JString (event e)).
Definition entry_line (e : AuditEntry) : string := stringify "" (JObject (entry_members e)) +:+ nl.
Definition serialiseAuditEntry (e : AuditEntry) (limit : Z) : result string :=
  let bytes := byteLength (entry_line e) in
  if (limit <? bytes)%Z then Err (AuditEntryLimitError bytes limit) else Ok (entry_line e).

Definition parse_line (moment : Z) (line : string) : option ReadEntry :=
  if (trim line =? "")%string then None
  else match JSON.parse line with
       | Some (JObject m) =>
           match JsMap.get m "at", JsMap.get m "event" with
           | Some (JString t), Some (JString ev) =>
               match Date_parse t with
               | Some w => if (w <? moment)%Z then None else Some (mkRead w ev (JsMap.delete (JsMap.delete m "at") "event"))
               | None => None
               end
           | _, _ => None
           end
       | _ => None
       end.
Definition parseAuditLines (raw : string) (moment : Z) : list ReadEntry := omap (parse_line moment) (split newline raw).
End lines.

(** ** The archive *)

(** What the log asks of the host: the files, a clock, twelve random hexadecimal digits
    and whether a process is alive. *)
Record Host (W : Type) := mkHost {
  stat : AbsolutePath → M W (option FileStat);
  exists_ : AbsolutePath → M W bool;
  read : AbsolutePath → M W (option string);
  move : AbsolutePath → AbsolutePath → M W unit;
  append_to : AbsolutePath → string → M W unit;
  remove : AbsolutePath → M W unit;
  list_files : AbsolutePath → ListOptions → M W (list AbsolutePath);
  clock : M W (option Z);
  random_hex : M W string;
  processAlive : Z → M W bool
}.
Arguments stat {W} _ _. Arguments exists_ {W} _ _. Arguments read {W} _ _. Arguments move {W} _ _ _.
Arguments append_to {W} _ _ _. Arguments remove {W} _ _. Arguments list_files {W} _ _ _. Arguments clock {W} _.
Arguments random_hex {W} _. Arguments processAlive {W} _ _.

(** The fields of the object that change. *)
Record Log := mkLog { currentPath : AbsolutePath; currentCreatedAt : Z; sequence : Z }.

Section log.
Context `{JsDate} {W : Type} (host : Host W) (o : AuditOptions) (archiveDir legacyPath : AbsolutePath).
Abbreviation L A := (M (Log * W) A).

Definition current : L Log := λ s, (s, Ok s.1).
Definition moment_now : L Z := let* d := in_world (clock host) in mlift (timestamp d).

Definition segment_name (created seq : Z) (st : SegmentState) : string :=
  "audit-" +:+ pad_zeros 13 (string_of_Z created) +:+ "-" +:+ pad_zeros 10 (string_of_Z (processId o)) +:+ "-" +:+ instanceId o
  +:+ "-" +:+ pad_zeros 8 (string_of_Z seq) +:+ "." +:+ state_name st +:+ ".jsonl".
Definition segmentPath (created seq : Z) (st : SegmentState) : result AbsolutePath :=
  AbsolutePath.joinp archiveDir [segment_name created seq st].

(** The constructor, after its options were resolved. *)
Definition start : M W Log :=
  let* d := clock host in
  let* created := mlift (timestamp d) in
  let* p := mlift (segmentPath created 0 open_) in
  mok (mkLog p created 0).

Definition closeCurrent : L unit :=
  let* l := current in
  let* closed := mlift (withSegmentState (currentPath l) closed_) in
  in_world (move host (currentPath l) closed).
Definition advanceCurrent (now : Z) : L unit := λ s,
  let seq := (sequence s.1 + 1)%Z in
  match segmentPath now seq open_ with
  | Ok p => ((mkLog p now seq, s.2), Ok tt)
  | Err e => ((mkLog (currentPath s.1) now seq, s.2), Err e)
  end.

Definition is_directory (info : option FileStat) : bool := match info with Some s => stat_isDirectory s | None => false end.
Definition aged (now : Z) (l : Log) : bool := (DAY_MILLISECONDS <=? now - currentCreatedAt l)%Z.

Definition prepareCurrent (lineBytes : Z) : L (option FileStat) :=
  let* now := moment_now in
  let* l := current in
  let* info := in_world (stat host (currentPath l)) in
  if is_directory info then mlift (Err (CorruptAuditArchiveError (currentPath l) "active segment is a directory"))
  else
    let* _ := match info with
              | None => if aged now l then advanceCurrent now else mok tt
              | Some s => if (maxSegmentBytes o <? stat_size s + lineBytes)%Z || aged now l
                          then let* _ := closeCurrent in advanceCurrent now
                          else mok tt
              end in
    let* l' := current in
    in_world (stat host (currentPath l')).

Definition closeCurrentIfAged : L unit :=
  let* now := moment_now in
  let* l := current in
  let* info := in_world (stat host (currentPath l)) in
  match info with
  | None => mok tt
  | Some s => if negb (aged now l) then mok tt
              else if stat_isDirectory s then mlift (Err (CorruptAuditArchiveError (currentPath l) "active segment is a directory"))
              else let* _ := closeCurrent in advanceCurrent now
  end.

Definition migrateLegacy : L unit :=
  let* info := in_world (stat host legacyPath) in
  match info with
  | None => mok tt
  | Some s =>
      if stat_isDirectory s then mlift (Err (CorruptAuditArchiveError legacyPath "legacy audit.log is a directory"))
      else
        let* now := moment_now in
        let* hex := in_world (random_hex host) in
        let* destination := mlift (AbsolutePath.joinp archiveDir ["legacy-" +:+ pad_zeros 13 (string_of_Z now) +:+ "-" +:+ hex +:+ ".closed.jsonl"]) in
        λ st, match in_world (move host legacyPath destination) st with
              | (st', Ok _) => (st', Ok tt)
              | (st', Err cause) => (let* there := in_world (exists_ host legacyPath) in if there then mlift (Err cause) else mok tt) st'
              end
  end.

Definition listing : ListOptions :=
  mkListOptions (Some MAX_DISCOVERED_AUDIT_FILES) (Some 0) None None (Some (λ _, false)) true true.
Definition listArchiveFiles : L (list AbsolutePath) := in_world (list_files host archiveDir listing).

Definition removeDeletionClaims : L unit :=
  let* paths := listArchiveFiles in
  mfold (λ _ p, if DELETING_PATTERN (AbsolutePath.basename p) then in_world (remove host p) else mok tt) tt paths.

Definition discover_one (segments : list AuditSegment) (p : AbsolutePath) : L (list AuditSegment) :=
  if DELETING_PATTERN (AbsolutePath.basename p) then mok segments
  else match parseSegmentName p with
       | None => mlift (Err (CorruptAuditArchiveError p "unexpected file name"))
       | Some (created, pid, st) =>
           let* info := in_world (stat host p) in
           match info with
           | None => mok segments
           | Some s => if stat_isDirectory s then mlift (Err (CorruptAuditArchiveError p "segment is a directory"))
                       else mok (segments ++ [mkSegment p (AbsolutePath.basename p) created pid st (stat_size s)])
           end
       end.
Definition discoverSegments : L (list AuditSegment) :=
  let* paths := listArchiveFiles in
  let* segments := mfold discover_one [] paths in
  mok (sort_by segment_leb segments).

Definition evictable (s : AuditSegment) : L bool :=
  let* l := current in
  if AbsolutePath.equals (path s) (currentPath l) then mok false
  else match state s, processId_of s with
       | open_, Some pid => let* alive := in_world (processAlive host pid) in mok (negb alive)
       | _, _ => mok true
       end.
(** [segments.find(s => this.evictable(s) && also(s))] *)
Fixpoint find_evictable (also : AuditSegment → bool) (segments : list AuditSegment) : L (option AuditSegment) :=
  match segments with
  | [] => mok None
  | s :: r => let* b := evictable s in if b && also s then mok (Some s) else find_evictable also r
  end.

Definition claimAndDelete (s : AuditSegment) : L unit :=
  let* hex := in_world (random_hex host) in
  let* claim := mlift (AbsolutePath.joinp archiveDir [".deleting-" +:+ hex]) in
  λ st, match in_world (move host (path s) claim) st with
        | (st', Ok _) => in_world (remove host claim) st'
        | (st', Err cause) => (let* there := in_world (exists_ host (path s)) in if there then mlift (Err cause) else mok tt) st'
        end.

Definition total_size (segments : list AuditSegment) : Z := foldr (λ s n, size s + n)%Z 0%Z segments.
Definition capacity_text (count total : Z) : string :=
  string_of_Z count +:+ " segments / " +:+ string_of_Z total +:+ " bytes exceed " +:+ string_of_Z (maxSegments o) +:+ " segments / "
  +:+ string_of_Z (maxTotalBytes o) +:+ " bytes".

(** One round of the loop of [maintain]: [Some s] is the segment to delete, [None] that the bounds hold. *)
Definition next_victim (boundary reserved : Z) (creates : bool) : L (option AuditSegment) :=
  let* segments := discoverSegments in
  let* expired := find_evictable (λ s, (createdAt s <=? boundary)%Z) segments in
  match expired with
  | Some s => mok (Some s)
  | None =>
      let total := (total_size segments + reserved)%Z in
      let count := (Z.of_nat (length segments) + (if creates then 1 else 0))%Z in
      if (total <=? maxTotalBytes o)%Z && (count <=? maxSegments o)%Z then mok None
      else
        let* oldest := find_evictable (λ _, true) segments in
        match oldest with
        | Some s => mok (Some s)
        | None => mlift (Err (AuditCapacityError (capacity_text count total)))
        end
  end.
Definition OUT_OF_FUEL : exn := JsError "out of fuel".
Fixpoint maintain_loop (fuel : nat) (boundary reserved : Z) (creates : bool) : L unit :=
  match fuel with
  | O => mlift (Err OUT_OF_FUEL)
  | S f =>
      let* victim := next_victim boundary reserved creates in
      match victim with
      | None => mok tt
      | Some s => let* _ := claimAndDelete s in maintain_loop f boundary reserved creates
      end
  end.
(** A listing has at most [MAX_DISCOVERED_AUDIT_FILES] entries, and every round but the last takes one away. *)
Definition ROUNDS : nat := S MAX_DISCOVERED_AUDIT_FILES.
Definition maintain (reserved : Z) (creates : bool) : L unit :=
  let* _ := removeDeletionClaims in
  let* now := moment_now in
  maintain_loop ROUNDS (now - retentionDays o * DAY_MILLISECONDS - DAY_MILLISECONDS)%Z reserved creates.

Definition append (e : AuditEntry) : L unit :=
  let* line := mlift (serialiseAuditEntry e (maxEntryBytes o)) in
  let* _ := migrateLegacy in
  let* info := prepareCurrent (byteLength line) in
  let* _ := maintain (byteLength line) (negb (bool_decide (is_Some info))) in
  let* l := current in
  in_world (append_to host (currentPath l) line).

Definition read_segment (moment : Z) (acc : list ReadEntry * Z) (s : AuditSegment) : L (list ReadEntry * Z) :=
  let bytes := (acc.2 + size s)%Z in
  if (maxTotalBytes o <? bytes)%Z
  then mlift (Err (AuditCapacityError ("reading " +:+ string_of_Z bytes +:+ " bytes would exceed " +:+ string_of_Z (maxTotalBytes o))))
  else
    let* raw := in_world (read host (path s)) in
    mok (match raw with Some raw => acc.1 ++ parseAuditLines raw moment | None => acc.1 end, bytes).
Definition since (moment : Z) : L (list ReadEntry) :=
  let* _ := migrateLegacy in
  let* _ := closeCurrentIfAged in
  let* _ := maintain 0 false in
  let* segments := discoverSegments in
  let* acc := mfold (read_segment moment) ([], 0%Z) segments in
  mok acc.1.
End log.

(** ** The laws of the archive

    What the theorems rely on: the archive is a directory of files at an ordinary path, no
    other process changes it during an operation, and a failed move or removal changes
    nothing. [live] says which processes are alive meanwhile. *)

Section laws.
Import PosixText.
Context {W : Type} (host : Host W) (A : list string).
Definition entry (n : string) : AbsolutePath := AbsolutePath.posix_path (A ++ [n]).

Class ArchiveLaws := {
  files : W → gmap string string;
  live : Z → bool;
  stat_law : ∀ p w, files (stat host p w).1 = files w ∧ ∀ s, (stat host p w).2 = Ok s →
    match s with
    | None => files w !! AbsolutePath.value p = None
    | Some s => ∃ t, files w !! AbsolutePath.value p = Some t ∧ stat_isDirectory s = false ∧ stat_size s = byteLength t
    end;
  exists_law : ∀ p w, files (exists_ host p w).1 = files w
    ∧ ∀ b, (exists_ host p w).2 = Ok b → b = bool_decide (is_Some (files w !! AbsolutePath.value p));
  read_law : ∀ p w, files (read host p w).1 = files w ∧ ∀ t, (read host p w).2 = Ok t → t = files w !! AbsolutePath.value p;
  move_law : ∀ p q w, match (move host p q w).2 with
    | Ok _ => ∃ t, files w !! AbsolutePath.value p = Some t
                ∧ files (move host p q w).1 = <[AbsolutePath.value q := t]> (base.delete (AbsolutePath.value p) (files w))
    | Err _ => files (move host p q w).1 = files w
    end;
  append_law : ∀ p t w, match (append_to host p t w).2 with
    | Ok _ => files (append_to host p t w).1 = <[AbsolutePath.value p := default "" (files w !! AbsolutePath.value p) +:+ t]> (files w)
    | Err _ => touched (AbsolutePath.value p) (files w) (files (append_to host p t w).1)
    end;
  remove_law : ∀ p w, match (remove host p w).2 with
    | Ok _ => files (remove host p w).1 = base.delete (AbsolutePath.value p) (files w)
    | Err _ => files (remove host p w).1 = files w
    end;
  list_law : ∀ w, files (list_files host (AbsolutePath.posix_path A) listing w).1 = files w
    ∧ ∀ ps, (list_files host (AbsolutePath.posix_path A) listing w).2 = Ok ps →
      ∃ names, ps = map entry names ∧ NoDup names ∧ Forall good_name names ∧ length names ≤ MAX_DISCOVERED_AUDIT_FILES
      ∧ ∀ n, good_name n → n ∈ names ↔ is_Some (files w !! AbsolutePath.value (entry n));
  clock_law : ∀ w, files (clock host w).1 = files w;
  random_law : ∀ w, files (random_hex host w).1 = files w ∧ ∀ h, (random_hex host w).2 = Ok h → hex_string 12 h = true;
  alive_law : ∀ pid w, files (processAlive host pid w).1 = files w ∧ ∀ b, (processAlive host pid w).2 = Ok b → b = live pid
}.
End laws.
#[global] Arguments entry _ _ : simpl never.
Arguments stat_law {W host A _}.
Arguments exists_law {W host A _}.
Arguments read_law {W host A _}.
Arguments move_law {W host A _}.
Arguments append_law {W host A _}.
Arguments remove_law {W host A _}.
Arguments list_law {W host A _}.
Arguments clock_law {W host A _}.
Arguments random_law {W host A _}.
Arguments alive_law {W host A _}.

(** ** Names in the archive *)

Section names.
Import PosixText.
Context (A : list string) (HA : ordinary A) (HAc : Forall clean_seg A) (HAn : Forall AbsolutePath.no_nul A).
Abbreviation entry := (entry A).

Lemma hex_plain s n : hex_string n s = true → sforall plain s = true.
Proof. unfold hex_string. intros [_ Hs]%andb_true_iff. by apply lower_hex_plain. Qed.
Lemma zeros_plain n : sforall plain (zeros n) = true.
Proof. by induction n. Qed.
Lemma number_plain z n : (0 ≤ z)%Z → sforall plain (pad_zeros n (string_of_Z z)) = true.
Proof.
  intros Hz. unfold pad_zeros. rewrite sforall_app, zeros_plain. cbn.
  destruct (string_of_Z_spec z Hz) as [Hd _]. eapply sforall_impl; [|exact Hd].
  intros c. by destruct c as [[] [] [] [] [] [] [] []].
Qed.

Lemma A_nonempty : A ≠ [].
Proof. clear -HA. by destruct A. Qed.
Lemma entry_text n : AbsolutePath.value (entry n) = abs_text A +:+ "/" +:+ n.
Proof. unfold entry. cbn [AbsolutePath.value AbsolutePath.posix_path]. by rewrite PathPattern.abs_text_app by (done || apply A_nonempty). Qed.
Lemma entry_inj n m : AbsolutePath.value (entry n) = AbsolutePath.value (entry m) → n = m.
Proof. rewrite !entry_text. intros H%sapp_inj_l. by apply (sapp_inj_l "/") in H. Qed.
Lemma entry_inj' n m : entry n = entry m → n = m.
Proof. intros H. apply entry_inj. by rewrite H. Qed.
Lemma join_entry n : good_name n → AbsolutePath.joinp (AbsolutePath.posix_path A) [n] = Ok (entry n).
Proof. intros [Hc Hn]. by apply joinp_posix. Qed.
Lemma basename_entry n : good_name n → AbsolutePath.basename (entry n) = n.
Proof.
  intros [Hc _]. unfold AbsolutePath.basename, entry. rewrite AbsolutePath.segments_posix_path; [by rewrite last_snoc|].
  apply Forall_app. split; [done|by constructor].
Qed.
Lemma parent_entry n : good_name n → AbsolutePath.parent (entry n) = Ok (AbsolutePath.posix_path A).
Proof.
  intros [Hc _]. unfold AbsolutePath.parent, entry. rewrite AbsolutePath.segments_posix_path; [|by apply Forall_app; split; [|constructor]].
  rewrite removelast_last. pose proof A_nonempty. destruct A as [|a l] eqn:E; [done|]. rewrite <-E in *.
  cbn [AbsolutePath.root AbsolutePath.posix_path]. change (endsWith "/" "/") with true. cbv iota.
  rewrite E. cbv iota. rewrite <-E. change ("/" +:+ "" +:+ join "/" A) with (abs_text A).
  destruct (ordinary_text A HA HAc). by apply AbsolutePath.of_posix_text.
Qed.
Lemma equals_entry n m : AbsolutePath.equals (entry n) (entry m) = true ↔ n = m.
Proof.
  unfold AbsolutePath.equals. rewrite andb_true_iff, bool_decide_eq_true, String.eqb_eq. split.
  - intros [_ E]. by apply entry_inj.
  - by intros ->.
Qed.

(** The patterns look at the front and at the end of a name. *)
Lemma pattern_open s a b : SEGMENT_PATTERN s = Some (a, b, open_) → startsWith s "audit-" = true ∧ endsWith s ".open.jsonl" = true.
Proof.
  unfold SEGMENT_PATTERN. intros H.
  assert (∀ w x y, literal w x = Some y → x = w +:+ y) as Hlit.
  { intros w x y. unfold literal. destruct (startsWith x w) eqn:E; [|done]. apply startsWith_true in E as [t ->]. rewrite sdrop_app. by intros [= ->]. }
  assert (∀ k p x y, fixed k p x = Some y → x = y.1 +:+ y.2) as Hfix.
  { intros k p x y. unfold fixed. case_if; [|done]. intros [= <-]. cbn. by rewrite stake_sdrop. }
  repeat (let E := fresh "E" in apply bind_Some in H as (? & E & H); first [apply Hlit in E|apply Hfix in E]).
  destruct (_ =? ".open.jsonl")%string eqn:Eo; [|by destruct (_ =? ".closed.jsonl")%string; simplify_eq]. apply String.eqb_eq in Eo.
  repeat match goal with E : ?l = _ +:+ _ |- _ => rewrite E; clear E end. rewrite Eo. split.
  - unfold startsWith. apply prefix_app.
  - apply endsWith_true. assert (∀ u v p : string, (∃ t, v = t +:+ p) → ∃ t, u +:+ v = t +:+ p) as Happ.
    { intros u v p [t ->]. exists (u +:+ t). by rewrite sapp_assoc. }
    repeat apply Happ. by exists "".
Qed.
Lemma fixed_app n p d r : slen d = n → sforall p d = true → fixed n p (d +:+ r) = Some (d, r).
Proof.
  intros <- Hp. unfold fixed. by rewrite stake_app, sdrop_app, Nat.eqb_refl, Hp.
Qed.
Lemma literal_app w r : literal w (w +:+ r) = Some r.
Proof. unfold literal, startsWith. rewrite prefix_app. by rewrite sdrop_app. Qed.
(** The second number of a name of this form is read whatever follows it. *)
Lemma pattern_pid d1 d2 r a b st : slen d1 = 13 → sforall is_digit d1 = true → slen d2 = 10 → sforall is_digit d2 = true →
  SEGMENT_PATTERN ("audit-" +:+ d1 +:+ "-" +:+ d2 +:+ r) = Some (a, b, st) → a = d1 ∧ b = d2.
Proof.
  intros H1 H1' H2 H2'. unfold SEGMENT_PATTERN. rewrite literal_app. cbn [mbind option_bind].
  rewrite fixed_app by done. cbn [mbind option_bind fst snd]. rewrite literal_app. cbn [mbind option_bind].
  rewrite fixed_app by done. cbn [mbind option_bind fst snd]. intros H.
  repeat (apply bind_Some in H as (? & _ & H)). destruct (_ =? ".open.jsonl")%string; [by simplify_eq|]. by destruct (_ =? ".closed.jsonl")%string; simplify_eq.
Qed.

Lemma zeros_length n : slen (zeros n) = n.
Proof. induction n as [|n IH]; [done|]. cbn. by rewrite IH. Qed.
Lemma zeros_value n s : digits_value 0 (zeros n +:+ s) = digits_value 0 s.
Proof. induction n as [|n IH]; [done|]. exact IH. Qed.
Lemma padded n z : (0 ≤ z < 10 ^ Z.of_nat n)%Z → 0 < n →
  slen (pad_zeros n (string_of_Z z)) = n ∧ sforall is_digit (pad_zeros n (string_of_Z z)) = true
  ∧ digits_value 0 (pad_zeros n (string_of_Z z)) = z.
Proof.
  intros [Hz Hlt] Hn. destruct (string_of_Z_spec z Hz) as (Hd & Hv & Hlen & _). specialize (Hlen n Hlt Hn).
  unfold pad_zeros. rewrite slen_app, zeros_length, sforall_app, Hd, zeros_value. split_and!; [lia| |done].
  rewrite andb_true_r. generalize (n - slen (string_of_Z z)). intros k. by induction k.
Qed.
Lemma byteLength_app s t : byteLength (s +:+ t) = (byteLength s + byteLength t)%Z.
Proof. induction s as [|c s IH]; [done|]. cbn [String.append byteLength]. rewrite IH. lia. Qed.
Lemma byteLength_nonneg s : (0 ≤ byteLength s)%Z.
Proof. induction s as [|c s IH]; cbn [byteLength]; [lia|]. case_if; lia. Qed.
End names.

(** ** What the operations leave alone *)

Section keep.
Import PosixText.
Context `{JsDate} {W : Type} (host : Host W) (o : AuditOptions) (A : list string) (legacyPath : AbsolutePath).
Context (HA : ordinary A) (HAc : Forall clean_seg A) (HAn : Forall AbsolutePath.no_nul A).
Context `{!ArchiveLaws host A}.
Context (Hinst : hex_string 12 (instanceId o) = true) (Hpid : (0 ≤ processId o < 10 ^ 10)%Z).
Context (Hlegacy : ∀ n, AbsolutePath.value legacyPath ≠ AbsolutePath.value (entry A n)).
Abbreviation entry := (entry A).
Abbreviation archiveDir := (AbsolutePath.posix_path A).
Abbreviation L A := (M (Log * W) A).

Definition content (w : W) (n : string) : option string := files host A w !! AbsolutePath.value (entry n).
#[local] Abbreviation files := (files host A).
#[local] Abbreviation live := (live host A).

(** The log is [l] and the file [n] holds [c]. *)
Definition steady (l : Log) (n : string) (c : option string) (s : Log * W) : Prop := s.1 = l ∧ content s.2 n = c.

Lemma quiet_keeps {B} (m : M W B) (Q : B → Prop) l n c : (∀ w, files (m w).1 = files w) → (∀ w a, (m w).2 = Ok a → Q a) →
  yields (steady l n c) (in_world m) Q.
Proof.
  intros Hm HQ [l' w] [Hl Hc]. unfold in_world, steady, content in *. cbn in *. rewrite Hm. split; [done|]. apply HQ.
Qed.
Lemma move_keeps p q l n c : AbsolutePath.value p ≠ AbsolutePath.value (entry n) → AbsolutePath.value q ≠ AbsolutePath.value (entry n) →
  yields (steady l n c) (in_world (move host p q)) (λ _, True).
Proof.
  intros Hp Hq [l' w] [Hl Hc]. unfold in_world, steady, content in *. cbn in *. split; [|done]. split; [done|].
  pose proof (move_law p q w) as Hm. destruct (move host p q w) as [w' [[]|e]]; cbn in *; [|by rewrite Hm].
  destruct Hm as (t & _ & ->). by rewrite lookup_insert_ne, lookup_delete_ne by done.
Qed.
Lemma remove_keeps p l n c : AbsolutePath.value p ≠ AbsolutePath.value (entry n) → yields (steady l n c) (in_world (remove host p)) (λ _, True).
Proof.
  intros Hp [l' w] [Hl Hc]. unfold in_world, steady, content in *. cbn in *. split; [|done]. split; [done|].
  pose proof (remove_law p w) as Hm. destruct (remove host p w) as [w' [[]|e]]; cbn in *; [|by rewrite Hm].
  by rewrite Hm, lookup_delete_ne by done.
Qed.
(** [try { await move } catch { if (await exists) throw }], and what follows a success. *)
Definition moving (p q : AbsolutePath) (k : L unit) : L unit := λ st,
  match in_world (move host p q) st with
  | (st', Ok _) => k st'
  | (st', Err cause) => (let* there := in_world (exists_ host p) in if there then mlift (Err cause) else mok tt) st'
  end.
Lemma moving_keeps p q k l n c : AbsolutePath.value p ≠ AbsolutePath.value (entry n) → AbsolutePath.value q ≠ AbsolutePath.value (entry n) →
  yields (steady l n c) k (λ _, True) → yields (steady l n c) (moving p q k) (λ _, True).
Proof.
  intros Hp Hq Hk s Hs. pose proof (move_keeps p q l n c Hp Hq s Hs) as [Hm _].
  unfold moving. destruct (in_world (move host p q) s) as [s' [[]|e]]; cbn in Hm; [by apply Hk|].
  revert s' Hm. eapply yields_seq; [apply (quiet_keeps _ (λ _, True)); [apply exists_law|done]|].
  intros there _. destruct there; [by apply yields_lift|by apply yields_ok].
Qed.

Lemma audit_not n w x : startsWith n "audit-" = true → (w = ".deleting-" ∨ w = "legacy-") → w +:+ x ≠ n.
Proof. intros [t ->]%startsWith_true [-> | ->]; discriminate. Qed.
Lemma other_entry n m : m ≠ n → AbsolutePath.value (entry m) ≠ AbsolutePath.value (entry n).
Proof. intros Hne H1. apply Hne. by apply (entry_inj A HA). Qed.

(** A file maintenance must not touch: the segment being written, or an open segment of
    a process that is alive. *)
Definition kept (l : Log) (n : string) : Prop :=
  startsWith n "audit-" = true ∧ good_name n
  ∧ (currentPath l = entry n ∨ ∃ c pid, parseSegmentName (entry n) = Some (c, Some pid, open_) ∧ live pid = true).

Lemma deleting_not n m : startsWith n "audit-" = true → good_name m → DELETING_PATTERN (AbsolutePath.basename (entry m)) = true → m ≠ n.
Proof.
  intros Hn Hm Hd ->. rewrite (basename_entry A) in Hd by done. apply startsWith_true in Hn as [t ->]. discriminate Hd.
Qed.
Lemma list_keeps l n c : yields (steady l n c) (listArchiveFiles host archiveDir)
  (λ ps, ∃ names, ps = map entry names ∧ Forall good_name names).
Proof.
  apply quiet_keeps; [apply list_law|]. intros w ps E. destruct (list_law w) as [_ Hl].
  destruct (Hl ps E) as (names & -> & _ & Hg & _). by exists names.
Qed.
Lemma removeDeletionClaims_keeps l n c : kept l n → yields (steady l n c) (removeDeletionClaims host archiveDir) (λ _, True).
Proof.
  intros (Hn & _). eapply yields_seq; [apply list_keeps|]. intros ps (names & -> & Hg).
  eapply yields_mono; [apply (yields_fold _ _ _ (λ _ _, True)); [|done]|done].
  intros d p acc (m & -> & Hm)%list_elem_of_fmap _. rewrite Forall_forall in Hg. specialize (Hg m Hm).
  destruct (DELETING_PATTERN _) eqn:Ed; [|by apply yields_ok]. apply remove_keeps, other_entry. by eapply deleting_not.
Qed.

(** A segment as discovery makes it. *)
Definition discovered (s : AuditSegment) : Prop :=
  ∃ m, good_name m ∧ path s = entry m ∧ parseSegmentName (path s) = Some (createdAt s, processId_of s, state s).
Lemma discover_keeps l n c : yields (steady l n c) (discoverSegments host archiveDir) (Forall discovered).
Proof.
  eapply yields_seq; [apply list_keeps|]. intros ps (names & -> & Hg).
  eapply (yields_seq _ _ _ (Forall discovered)); [|intros segs Hs; apply yields_ok; by rewrite sort_by_perm].
  apply (yields_fold _ _ _ (λ _, Forall discovered)); [|by constructor].
  intros d p acc (m & -> & Hm)%list_elem_of_fmap Hacc. rewrite Forall_forall in Hg. specialize (Hg m Hm).
  unfold discover_one. destruct (DELETING_PATTERN _); [by apply yields_ok|].
  destruct (parseSegmentName (entry m)) as [[[created pid] st]|] eqn:Ep; [|by apply yields_lift].
  eapply yields_seq; [apply (quiet_keeps _ (λ _, True)); [apply stat_law|done]|]. intros [s|] _; [|by apply yields_ok].
  destruct (stat_isDirectory s); [by apply yields_lift|]. apply yields_ok, Forall_app. split; [done|]. constructor; [|done].
  by exists m.
Qed.
Lemma find_keeps also segs l n c : Forall discovered segs → kept l n →
  yields (steady l n c) (find_evictable host also segs) (λ r, ∀ s, r = Some s → ∃ m, good_name m ∧ path s = entry m ∧ m ≠ n).
Proof.
  intros Hs Hk. induction Hs as [|s segs (m & Hm & Hp & Hparse) _ IH]; cbn [find_evictable]; [by apply yields_ok|].
  eapply (yields_seq _ _ _ (λ b, b = true → m ≠ n)).
  - unfold evictable. eapply (yields_seq _ _ _ (λ l', l' = l)); [intros s' [Hl Hc]; split; [done|]; by intros a [= <-]|].
    intros l' ->. destruct Hk as (_ & _ & Hk). destruct (AbsolutePath.equals (path s) (currentPath l)) eqn:Ee; [by apply yields_ok|].
    assert (∀ st pid, state s = st → processId_of s = pid → (st, pid) = (open_, pid) ∨ True) as _ by by right.
    assert (m = n → ∃ pid, state s = open_ ∧ processId_of s = Some pid ∧ live pid = true) as Hlive.
    { intros ->. destruct Hk as [Hcur|(cr & pid & Hn & Hl)].
      - rewrite Hp, Hcur in Ee. apply not_true_iff_false in Ee. destruct Ee. by apply (equals_entry A HA).
      - rewrite Hp, Hn in Hparse. exists pid. by simplify_eq. }
    destruct (state s), (processId_of s) as [pid|]; try (apply yields_ok; intros _ Hmn; by destruct (Hlive Hmn) as (? & ? & ? & ?)).
    eapply (yields_seq _ _ _ (λ b, b = live pid)); [apply quiet_keeps; [apply alive_law|by intros; eapply alive_law]|].
    intros b ->. apply yields_ok. intros Hb Hmn. destruct (Hlive Hmn) as (? & _ & [= ->] & Hl). by rewrite Hl in Hb.
  - intros b Hb. destruct (b && also s) eqn:E; [|done]. apply andb_true_iff in E as [-> _].
    apply yields_ok. intros s' [= <-]. exists m. by split_and!; [| |apply Hb].
Qed.
Lemma claim_keeps s m l n c : good_name m → path s = entry m → m ≠ n → kept l n → yields (steady l n c) (claimAndDelete host archiveDir s) (λ _, True).
Proof.
  intros Hm Hp Hne (Hn & _). unfold claimAndDelete.
  eapply (yields_seq _ _ _ (λ h, hex_string 12 h = true)); [apply quiet_keeps; [apply random_law|by intros; eapply random_law]|].
  intros hex Hh. assert (good_name (".deleting-" +:+ hex)) as Hg.
  { apply plain_good; [|rewrite slen_app; cbn; lia]. rewrite sforall_app. by rewrite (hex_plain hex 12). }
  eapply (yields_seq _ _ _ (λ q, q = entry (".deleting-" +:+ hex))).
  - apply yields_lift. intros q Hq. rewrite (join_entry A HA HAc HAn) in Hq by done. by injection Hq.
  - intros q ->. apply moving_keeps.
    + rewrite Hp. by apply other_entry.
    + apply other_entry. apply audit_not; [done|by left].
    + apply remove_keeps, other_entry. apply audit_not; [done|by left].
Qed.
Lemma victim_keeps boundary reserved creates l n c : kept l n →
  yields (steady l n c) (next_victim host o archiveDir boundary reserved creates)
    (λ r, ∀ s, r = Some s → ∃ m, good_name m ∧ path s = entry m ∧ m ≠ n).
Proof.
  intros Hk. eapply yields_seq; [apply discover_keeps|]. intros segs Hs.
  eapply yields_seq; [by apply find_keeps|]. intros [s|] Hv; [by apply yields_ok|].
  cbv zeta. destruct (_ && _); [by apply yields_ok|].
  eapply yields_seq; [by apply find_keeps|]. intros [s|] Hv'; [by apply yields_ok|by apply yields_lift].
Qed.
Lemma loop_keeps fuel boundary reserved creates l n c : kept l n →
  yields (steady l n c) (maintain_loop host o archiveDir fuel boundary reserved creates) (λ _, True).
Proof.
  intros Hk. induction fuel as [|f IH]; cbn [maintain_loop]; [by apply yields_lift|].
  eapply yields_seq; [by apply victim_keeps|]. intros [s|] Hv; [|by apply yields_ok].
  destruct (Hv s eq_refl) as (m & Hm & Hp & Hne).
  eapply yields_seq; [by eapply claim_keeps|]. intros _ _. apply IH.
Qed.
Lemma now_keeps l n c : yields (steady l n c) (moment_now host) (λ t, (0 ≤ t < 10 ^ 13)%Z).
Proof.
  eapply (yields_seq _ _ _ (λ _, True)); [by apply quiet_keeps; [apply clock_law|]|]. intros d _. apply yields_lift.
  intros t. unfold timestamp. destruct d as [ms|]; [|done]. case_if; [|done]. intros [= <-]. bool_prop. lia.
Qed.
Lemma maintain_keeps reserved creates l n c : kept l n → yields (steady l n c) (maintain host o archiveDir reserved creates) (λ _, True).
Proof.
  intros Hk. eapply yields_seq; [by apply removeDeletionClaims_keeps|]. intros _ _.
  eapply yields_seq; [apply now_keeps|]. intros now _. by apply loop_keeps.
Qed.
Lemma migrate_keeps l n c : kept l n → yields (steady l n c) (migrateLegacy host archiveDir legacyPath) (λ _, True).
Proof.
  intros (Hn & _). unfold migrateLegacy. eapply (yields_seq _ _ _ (λ _, True)); [by apply quiet_keeps; [apply stat_law|]|].
  intros [s|] _; [|by apply yields_ok]. destruct (stat_isDirectory s); [by apply yields_lift|].
  eapply yields_seq; [apply now_keeps|]. intros now [Hnow _].
  eapply (yields_seq _ _ _ (λ h, hex_string 12 h = true)); [apply quiet_keeps; [apply random_law|by intros; eapply random_law]|].
  intros hex Hh.
  match goal with |- context [AbsolutePath.joinp _ [?x]] => set (name := x) end.
  assert (good_name name) as Hg.
  { unfold name. apply plain_good; [|rewrite slen_app; cbn; lia]. rewrite !sforall_app, number_plain, (hex_plain hex 12) by done. done. }
  eapply (yields_seq _ _ _ (λ q, q = entry name)).
  - apply yields_lift. intros q Hq. rewrite (join_entry A HA HAc HAn) in Hq by done. by injection Hq.
  - intros q ->. apply (moving_keeps legacyPath (entry name) (mok tt)); [apply Hlegacy| |by apply yields_ok].
    apply other_entry. apply audit_not; [done|by right].
Qed.
End keep.

(** ** Other processes' evidence *)

Section foreign.
Import PosixText.
Context `{JsDate} {W : Type} (host : Host W) (o : AuditOptions) (A : list string) (legacyPath : AbsolutePath).
Context (HA : ordinary A) (HAc : Forall clean_seg A) (HAn : Forall AbsolutePath.no_nul A).
Context `{!ArchiveLaws host A}.
Context (Hinst : hex_string 12 (instanceId o) = true) (Hpid : (0 ≤ processId o < 10 ^ 10)%Z).
Context (Hlegacy : ∀ n, AbsolutePath.value legacyPath ≠ AbsolutePath.value (entry A n)).
Abbreviation entry := (entry A).
Abbreviation archiveDir := (AbsolutePath.posix_path A).
Abbreviation L A := (M (Log * W) A).
#[local] Abbreviation content := (content host A).

(** The segment of the log has a name of the archive. *)
Definition own (l : Log) (m : string) : Prop :=
  sforall plain m = true ∧ startsWith m "audit-" = true ∧ currentPath l = entry m ∧ (0 ≤ sequence l)%Z.
(** The name of an open segment that another process, alive during the operation, writes. *)
Definition foreign (n : string) : Prop :=
  good_name n ∧ ∃ a b, SEGMENT_PATTERN n = Some (a, b, open_) ∧ live host A (digits_value 0 b) = true
    ∧ digits_value 0 b ≠ processId o.

Lemma audit_good m : sforall plain m = true → startsWith m "audit-" = true → good_name m.
Proof. intros Hp [t ->]%startsWith_true. apply plain_good; [done|]. rewrite slen_app. cbn. lia. Qed.
Lemma foreign_kept l n : foreign n → kept host A l n.
Proof.
  intros (Hg & a & b & Hp & Hl & _). split; [by eapply pattern_open|]. split; [done|]. right.
  exists (digits_value 0 a), (digits_value 0 b). unfold parseSegmentName. by rewrite (basename_entry A), Hp.
Qed.

Lemma segment_name_audit created seq st : startsWith (segment_name o created seq st) "audit-" = true.
Proof. apply prefix_app. Qed.
Lemma segment_name_plain created seq st : (0 ≤ created)%Z → (0 ≤ seq)%Z → sforall plain (segment_name o created seq st) = true.
Proof.
  intros Hc Hs. unfold segment_name. rewrite !sforall_app, !number_plain, (hex_plain _ 12 Hinst) by lia. by destruct st.
Qed.
Lemma segment_name_foreign created seq st n : (0 ≤ created < 10 ^ 13)%Z → foreign n → segment_name o created seq st ≠ n.
Proof.
  intros Hc (_ & a & b & Hp & _ & Hne) <-. destruct (padded 13 created) as (H1 & H1' & _); [done|lia|].
  destruct (padded 10 (processId o)) as (H2 & H2' & Hv); [done|lia|].
  apply pattern_pid in Hp as [_ ->]; [congruence|done..].
Qed.

Lemma restate_ends base : endsWith (restate closed_ base) ".open.jsonl" = false ∨ restate closed_ base = base.
Proof.
  assert (∀ t, endsWith (t +:+ ".closed.jsonl") ".open.jsonl" = false) as Hc.
  { intros t. unfold endsWith. rewrite slen_app. apply andb_false_iff. right. cbn [slen].
    replace (slen t + 13 - 11) with (slen t + 2) by lia. rewrite <-sdrop_sdrop, sdrop_app. done. }
  unfold restate. cbn [state_name]. case_if; [left; apply Hc|]. case_if; [left; apply Hc|by right].
Qed.
Lemma restate_plain base : sforall plain base = true → startsWith base "audit-" = true → good_name (restate closed_ base).
Proof.
  intros Hp Ha. assert (∀ k, sforall plain (stake k base) = true) as Hst.
  { intros k. rewrite <-(stake_sdrop k base), sforall_app in Hp. by apply andb_true_iff in Hp as [? _]. }
  unfold restate. cbn [state_name]. case_if; [|case_if; [|by apply audit_good]];
    (apply plain_good; [by rewrite sforall_app, Hst|rewrite slen_app; cbn; lia]).
Qed.

(** The world during an operation: the log has a segment of its own and the file [n] holds [c]. *)
Definition foreign_steady (n : string) (c : option string) (s : Log * W) : Prop :=
  (∃ m, own s.1 m ∧ m ≠ n) ∧ content s.2 n = c.

Lemma lift_steady {B} (m : L B) (Q : B → Prop) n c : (∀ l, foreign n → yields (steady host A l n c) m Q) → foreign n →
  yields (foreign_steady n c) m Q.
Proof.
  intros Hm Hn [l w] [Ho Hc]. destruct (Hm l Hn (l, w)) as [[H1 H2] H3]; [by split|]. split; [|done]. split; [|done].
  by rewrite H1.
Qed.
Lemma close_keeps n c : foreign n → yields (foreign_steady n c) (closeCurrent host) (λ _, True).
Proof.
  intros Hn [l w] [(m & (Hp & Ha & Hcur & Hseq) & Hmn) Hc]. unfold closeCurrent, current, mseq, mlift. cbn [fst snd] in *.
  pose proof (audit_good m Hp Ha) as Hg. unfold withSegmentState. rewrite Hcur, (parent_entry A), (basename_entry A) by done. cbn [rbind].
  rewrite (join_entry A HA HAc HAn) by by apply restate_plain.
  destruct (move_keeps host A (entry m) (entry (restate closed_ m)) l n c) with (l, w) as [[H1 H2] _]; [| |by split|].
  - by apply other_entry.
  - apply other_entry; [done|]. destruct (restate_ends m) as [He|He]; [|by rewrite He].
    intros E. rewrite E in He. destruct Hn as (_ & a & b & Hpat & _). apply pattern_open in Hpat as [_ Hpat]. congruence.
  - split; [|done]. split; [exists m; by rewrite H1|done].
Qed.
Lemma advance_keeps now n c : (0 ≤ now < 10 ^ 13)%Z → foreign n → yields (foreign_steady n c) (advanceCurrent o archiveDir now) (λ _, True).
Proof.
  intros Hnow Hn [l w] [(m & (Hp & Ha & Hcur & Hseq) & Hmn) Hc]. unfold advanceCurrent, segmentPath. cbn [fst snd] in *.
  assert (sforall plain (segment_name o now (sequence l + 1) open_) = true) as Hpl by (apply segment_name_plain; lia).
  rewrite (join_entry A HA HAc HAn) by by apply audit_good, segment_name_audit. split; [|done]. split; [|done].
  exists (segment_name o now (sequence l + 1) open_). split; [|by apply segment_name_foreign].
  split_and!; [done|apply segment_name_audit|done|cbn; lia].
Qed.
Lemma current_keeps n c : yields (foreign_steady n c) current (λ l, ∃ m, own l m ∧ m ≠ n).
Proof. intros s [Ho Hc]. split; [by split|]. by intros l [= <-]. Qed.
Lemma quiet_foreign {B} (m : M W B) n c : (∀ w, files host A (m w).1 = files host A w) → foreign n →
  yields (foreign_steady n c) (in_world m) (λ _, True).
Proof. intros Hm Hn. apply lift_steady; [|done]. intros l _. by apply quiet_keeps. Qed.
Lemma roll_keeps now n c : (0 ≤ now < 10 ^ 13)%Z → foreign n →
  yields (foreign_steady n c) (let* _ := closeCurrent host in advanceCurrent o archiveDir now) (λ _, True).
Proof. intros Hnow Hn. eapply yields_seq; [by apply close_keeps|]. intros _ _. by apply advance_keeps. Qed.
Lemma now_foreign n c : foreign n → yields (foreign_steady n c) (moment_now host) (λ t, (0 ≤ t < 10 ^ 13)%Z).
Proof. apply lift_steady. intros l _. apply now_keeps. Qed.
Lemma prepare_keeps bytes n c : foreign n → yields (foreign_steady n c) (prepareCurrent host o archiveDir bytes) (λ _, True).
Proof.
  intros Hn. eapply yields_seq; [by apply now_foreign|]. intros now Hnow. eapply yields_seq; [apply current_keeps|]. intros l _.
  eapply yields_seq; [apply quiet_foreign; [apply stat_law|done]|]. intros info _.
  destruct (is_directory info); [by apply yields_lift|].
  eapply (yields_seq _ _ _ (λ _, True)); [|intros _ _; eapply yields_seq; [apply current_keeps|]; intros l' _; apply quiet_foreign; [apply stat_law|done]].
  destruct info as [s|]; (case_if; [|by apply yields_ok]); [by apply roll_keeps|by apply advance_keeps].
Qed.
Lemma closeAged_keeps n c : foreign n → yields (foreign_steady n c) (closeCurrentIfAged host o archiveDir) (λ _, True).
Proof.
  intros Hn. eapply yields_seq; [by apply now_foreign|]. intros now Hnow. eapply yields_seq; [apply current_keeps|]. intros l _.
  eapply yields_seq; [apply quiet_foreign; [apply stat_law|done]|]. intros [s|] _; [|by apply yields_ok].
  case_if; [by apply yields_ok|]. case_if; [by apply yields_lift|]. by apply roll_keeps.
Qed.
Lemma append_keeps e n c : foreign n → yields (foreign_steady n c) (append host o archiveDir legacyPath e) (λ _, True).
Proof.
  intros Hn. eapply (yields_seq _ _ _ (λ _, True)); [by apply yields_lift|]. intros line _.
  eapply yields_seq; [apply lift_steady; [|done]; intros l _; apply migrate_keeps; try done; by apply foreign_kept|]. intros _ _.
  eapply yields_seq; [by apply prepare_keeps|]. intros info _.
  eapply yields_seq; [apply lift_steady; [|done]; intros l _; apply maintain_keeps; try done; by apply foreign_kept|]. intros _ _.
  eapply yields_seq; [apply current_keeps|]. intros l (m & (_ & _ & Hcur & _) & Hmn) [l' w] [Ho Hc]. unfold in_world. cbn [fst snd] in *.
  split; [|done]. split; [done|]. unfold content, JsonlAuditLog.content in *. cbn [snd]. rewrite <-Hc.
  pose proof (append_law (currentPath l) line w) as Ha. assert (m ≠ n) as Hne by done. apply (other_entry A HA) in Hne. rewrite Hcur in *.
  destruct (append_to host (entry m) line w) as [w' [[]|e']]; cbn [fst snd] in *.
  - by rewrite Ha, lookup_insert_ne.
  - by apply Ha.
Qed.
Lemma since_keeps t n c : foreign n → yields (foreign_steady n c) (since host o archiveDir legacyPath t) (λ _, True).
Proof.
  intros Hn.
  eapply yields_seq; [apply lift_steady; [|done]; intros l _; apply migrate_keeps; try done; by apply foreign_kept|]. intros _ _.
  eapply yields_seq; [by apply closeAged_keeps|]. intros _ _.
  eapply yields_seq; [apply lift_steady; [|done]; intros l _; apply maintain_keeps; try done; by apply foreign_kept|]. intros _ _.
  eapply (yields_seq _ _ _ (λ _, True)); [apply lift_steady; [|done]; intros l _; eapply yields_mono; [by apply discover_keeps|done]|].
  intros segs _. eapply (yields_seq _ _ _ (λ _, True)); [|intros acc _; by apply yields_ok].
  apply (yields_fold _ _ _ (λ _ _, True)); [|done]. intros d s acc _ _. unfold read_segment. cbv zeta. case_if; [by apply yields_lift|].
  eapply yields_seq; [apply quiet_foreign; [apply read_law|done]|]. intros raw _. by apply yields_ok.
Qed.

(** C11. No operation of the log, whether it returns or throws, changes an open segment of
    another process that is alive: neither rollover nor retention nor the bounds on the
    archive are enforced at the cost of evidence that is being written. *)
Theorem live_evidence_kept n l w m : foreign n → own l m → m ≠ n →
  (∀ e, content (append host o archiveDir legacyPath e (l, w)).1.2 n = content w n)
  ∧ (∀ t, content (since host o archiveDir legacyPath t (l, w)).1.2 n = content w n).
Proof.
  intros Hn Ho Hmn. assert (foreign_steady n (content w n) (l, w)) as Hs by (split; [by exists m|done]).
  split; intros x; [apply (append_keeps x n _ Hn (l, w) Hs)|apply (since_keeps x n _ Hn (l, w) Hs)].
Qed.
End foreign.

(** ** The bounds *)

Section bounds.
Import PosixText.
Context `{JsDate} {W : Type} (host : Host W) (o : AuditOptions) (A : list string) (legacyPath : AbsolutePath).
Context (HA : ordinary A) (HAc : Forall clean_seg A) (HAn : Forall AbsolutePath.no_nul A).
Context `{!ArchiveLaws host A}.
Context (Hinst : hex_string 12 (instanceId o) = true) (Hpid : (0 ≤ processId o < 10 ^ 10)%Z).
Context (Hlegacy : ∀ n, AbsolutePath.value legacyPath ≠ AbsolutePath.value (entry A n)).
Abbreviation entry := (entry A).
Abbreviation archiveDir := (AbsolutePath.posix_path A).
Abbreviation L A := (M (Log * W) A).
#[local] Abbreviation content := (content host A).
#[local] Abbreviation files := (files host A).

Definition zsum (f : string → Z) (l : list string) : Z := foldr (λ x n, f x + n)%Z 0%Z l.
#[local] Instance zsum_proper f : Proper ((≡ₚ) ==> (=)) (zsum f).
Proof. unfold zsum. induction 1; cbn in *; lia. Qed.
Lemma zsum_ext f g l : (∀ x, x ∈ l → f x = g x) → zsum f l = zsum g l.
Proof.
  induction l as [|x l IH]; intros He; [done|]. cbn. rewrite (He x) by by left. f_equal. apply IH. intros y Hy. apply He. by right.
Qed.
Lemma same_elements (l k : list string) : NoDup l → NoDup k → (∀ x, x ∈ l ↔ x ∈ k) → l ≡ₚ k.
Proof. intros Hl Hk He. by apply NoDup_Permutation. Qed.

(** The bytes of a file of the archive. *)
Definition bytes (w : W) (n : string) : Z := byteLength (default "" (content w n)).
Definition segment_names (names : list string) : list string := bfilter (λ m, negb (DELETING_PATTERN m)) names.

Lemma total_app l k : total_size (l ++ k) = (total_size l + total_size k)%Z.
Proof. unfold total_size in *. induction l as [|s l IH]; cbn [app foldr]; [done|]. rewrite IH. lia. Qed.
Lemma total_perm l k : l ≡ₚ k → total_size l = total_size k.
Proof. unfold total_size. induction 1; cbn in *; lia. Qed.

Lemma fold_discover names acc s s' r : Forall good_name names → (∀ m, m ∈ names → is_Some (content s.2 m)) →
  mfold (discover_one host) acc (map entry names) s = (s', Ok r) →
  s'.1 = s.1 ∧ files s'.2 = files s.2 ∧ total_size r = (total_size acc + zsum (bytes s.2) (segment_names names))%Z
  ∧ length r = length acc + length (segment_names names)
  ∧ ∀ seg, seg ∈ r → seg ∈ acc ∨ ∃ m, m ∈ segment_names names ∧ path seg = entry m.
Proof.
  intros Hg. revert acc s. induction Hg as [|m names Hm Hg IH]; intros acc s Hp; cbn [map mfold].
  { intros [= <- <-]. unfold segment_names, zsum. cbn [bfilter foldr length]. split_and!; try done; [lia|by left]. }
  unfold mseq. unfold discover_one at 1. rewrite (basename_entry A) by done. unfold segment_names. cbn [bfilter].
  destruct (DELETING_PATTERN m) eqn:Ed; cbn [negb].
  { intros E. apply IH in E as (? & ? & ? & ? & Hrest); [|intros; apply Hp; by right]. by split_and!. }
  destruct (parseSegmentName (entry m)) as [[[created pid] st]|] eqn:Eps; [|done].
  unfold mseq at 1, in_world. cbn [fst snd]. destruct (stat_law (entry m) s.2) as [Hk Hst].
  destruct (stat host (entry m) s.2) as [w1 [info|]]; cbn [fst snd] in *; [|done]. specialize (Hst info eq_refl).
  destruct (Hp m) as [t Ht]; [by left|]. destruct info as [i|]; [|unfold JsonlAuditLog.content in Ht; congruence].
  destruct Hst as (t' & Ht' & -> & Hsize). assert (t' = t) as -> by (unfold JsonlAuditLog.content in Ht; congruence).
  unfold mok at 1. intros E. apply IH in E as (H1 & H2 & H3 & H4 & H5); cbn [fst snd] in *.
  2: { intros x Hx. unfold JsonlAuditLog.content. rewrite Hk. apply (Hp x). by right. }
  split_and!; [done|congruence| | |].
  - assert (∀ l, zsum (bytes w1) l = zsum (bytes s.2) l) as Hz
      by (intros l; apply zsum_ext; intros x _; unfold bytes, JsonlAuditLog.content; by rewrite Hk).
    rewrite H3, total_app, Hz. assert (bytes s.2 m = byteLength t) as Hb by (unfold bytes; by rewrite Ht).
    unfold total_size, zsum, segment_names. cbn [foldr size]. lia.
  - rewrite H4, length_app. unfold segment_names. cbn [length]. lia.
  - intros seg Hseg. apply H5 in Hseg as [[Hseg|Hseg%list_elem_of_singleton]%elem_of_app|(x & Hx & Hp')]; [by left| |].
    + right. exists m. split; [by left|by subst].
    + right. exists x. split; [by right|done].
Qed.

(** What one discovery counts: the files of the archive that are no claims. *)
Lemma discover_counts s s' segs : discoverSegments host archiveDir s = (s', Ok segs) →
  s'.1 = s.1 ∧ files s'.2 = files s.2 ∧ ∃ names, NoDup names ∧ length names ≤ MAX_DISCOVERED_AUDIT_FILES
  ∧ (∀ m, m ∈ names ↔ good_name m ∧ is_Some (content s.2 m))
  ∧ total_size segs = zsum (bytes s.2) (segment_names names) ∧ length segs = length (segment_names names)
  ∧ ∀ seg, seg ∈ segs → ∃ m, m ∈ segment_names names ∧ path seg = entry m.
Proof.
  unfold discoverSegments, listArchiveFiles, mseq, in_world. destruct (list_law s.2) as [Hk Hl].
  destruct (list_files host archiveDir listing s.2) as [w1 [ps|]]; cbn [fst snd] in *; [|done].
  destruct (Hl ps eq_refl) as (names & -> & Hn & Hg & Hlen & Hin).
  destruct (mfold (discover_one host) [] (map entry names) (s.1, w1)) as [s2 [r|]] eqn:E; [|done].
  intros [= <- <-]. apply fold_discover in E as (H1 & H2 & H3 & H4 & H5); [|done|].
  2: { intros m Hm. rewrite Forall_forall in Hg. unfold JsonlAuditLog.content. cbn [snd]. rewrite Hk. by apply Hin, Hm; apply Hg. }
  cbn [fst snd] in *. split_and!; [done|congruence|]. exists names. split_and!; try done.
  - intros m. rewrite Forall_forall in Hg. split; [intros Hm; split; [by apply Hg|by apply Hin, Hm; apply Hg]|].
    intros [Hm Hc]. by apply Hin.
  - rewrite (total_perm _ r) by apply sort_by_perm. rewrite H3. cbn. apply zsum_ext. intros m _.
    unfold bytes, JsonlAuditLog.content. by rewrite Hk.
  - rewrite (Permutation_length (sort_by_perm _ r)), H4. done.
  - intros seg Hseg. rewrite sort_by_perm in Hseg. by apply H5 in Hseg as [?%elem_of_nil|?].
Qed.

Lemma find_quiet also segs s s' r : find_evictable host also segs s = (s', r) → s'.1 = s.1 ∧ files s'.2 = files s.2.
Proof.
  revert s. induction segs as [|x segs IH]; intros s; cbn [find_evictable]; [by intros [= <- _]|].
  unfold mseq at 1. assert (∀ s1 b, evictable host x s = (s1, b) → s1.1 = s.1 ∧ files s1.2 = files s.2) as He.
  { intros s1 b. unfold evictable, current, mseq. destruct (AbsolutePath.equals _ _); [by intros [= <- _]|].
    destruct (state x), (processId_of x) as [pid|]; try by intros [= <- _].
    unfold in_world. destruct (alive_law (A := A) pid s.2) as [Hk _]. destruct (processAlive host pid s.2) as [w1 [v|]]; cbn in *;
      by intros [= <- _]. }
  destruct (evictable host x s) as [s1 [b|]] eqn:E; destruct (He _ _ eq_refl) as [H1 H2]; [|by intros [= <- _]].
  destruct (b && also x); [by intros [= <- _]|]. intros Hf. apply IH in Hf as [H3 H4]. split; congruence.
Qed.

(** When maintenance returns, the bounds hold of what is in the archive. *)
Lemma loop_Ok fuel boundary reserved creates s s' :
  maintain_loop host o archiveDir fuel boundary reserved creates s = (s', Ok tt) →
  ∃ s0 s1 segs, discoverSegments host archiveDir s0 = (s1, Ok segs) ∧ s0.1 = s'.1 ∧ files s0.2 = files s'.2
  ∧ (total_size segs + reserved ≤ maxTotalBytes o)%Z ∧ (Z.of_nat (length segs) + (if creates then 1 else 0) ≤ maxSegments o)%Z.
Proof.
  revert s. induction fuel as [|f IH]; intros s; cbn [maintain_loop]; [done|]. unfold mseq at 1.
  destruct (next_victim host o archiveDir boundary reserved creates s) as [s2 [[v|]|]] eqn:E; [| |done].
  - unfold mseq. destruct (claimAndDelete host archiveDir v s2) as [s3 [[]|]]; [|done]. apply IH.
  - intros [= <-]. unfold next_victim, mseq in E. destruct (discoverSegments host archiveDir s) as [s3 [segs|]] eqn:Ed; [|done].
    destruct (discover_counts s s3 segs Ed) as (H1 & H2 & _).
    destruct (find_evictable host _ segs s3) as [s4 [[v|]|]] eqn:Ef; [done| |done].
    apply find_quiet in Ef as [H3 H4]. cbv zeta in E. destruct (_ && _) eqn:Eb.
    + injection E as <-. apply andb_true_iff in Eb as [Eb1%Z.leb_le Eb2%Z.leb_le].
      exists s, s3, segs. split_and!; [done|congruence|congruence|done|done].
    + destruct (find_evictable host _ segs s4) as [s5 [[v|]|]]; done.
Qed.

Definition audit_name (n : string) : Prop := sforall plain n = true ∧ startsWith n "audit-" = true.
Lemma audit_not_deleting n : startsWith n "audit-" = true → DELETING_PATTERN n = false.
Proof. by intros [t ->]%startsWith_true. Qed.

(** The last step of [append]: the line is added to a segment the bounds were checked for. *)
Lemma appended_bounds cur line s0 s1 segs s2 s3 segs' (creates : bool) w' : audit_name cur →
  discoverSegments host archiveDir s0 = (s1, Ok segs) →
  (total_size segs + byteLength line ≤ maxTotalBytes o)%Z → (Z.of_nat (length segs) + (if creates then 1 else 0) ≤ maxSegments o)%Z →
  (creates = false → is_Some (content s0.2 cur)) →
  files w' = <[AbsolutePath.value (entry cur) := default "" (content s0.2 cur) +:+ line]> (files s0.2) → s2.2 = w' →
  discoverSegments host archiveDir s2 = (s3, Ok segs') →
  (total_size segs' ≤ maxTotalBytes o)%Z ∧ (Z.of_nat (length segs') ≤ maxSegments o)%Z.
Proof.
  intros [Hpl Hau] Hd Ht Hn Hcr Hw Hs2 Hd'. pose proof (audit_good cur Hpl Hau) as Hg.
  apply discover_counts in Hd as (_ & _ & names & Hnd & _ & Hin & Hsum & Hlen & _).
  apply discover_counts in Hd' as (_ & _ & names' & Hnd' & _ & Hin' & Hsum' & Hlen' & _). rewrite Hs2 in *. clear Hs2.
  assert (content w' cur = Some (default "" (content s0.2 cur) +:+ line)) as Hcur.
  { unfold JsonlAuditLog.content. by rewrite Hw, lookup_insert_eq. }
  assert (∀ m, m ≠ cur → content w' m = content s0.2 m) as Hother.
  { intros m Hm. unfold JsonlAuditLog.content. rewrite Hw, lookup_insert_ne; [done|]. intros E. apply Hm. by apply (entry_inj A HA). }
  assert (∀ ns, NoDup ns → (∀ m, m ∈ ns → good_name m) → NoDup (segment_names ns)) as Hseg by (intros; by apply bfilter_NoDup).
  assert (∀ m, m ∈ segment_names names' ↔ m = cur ∨ m ∈ segment_names names) as Hmem.
  { intros m. unfold segment_names. rewrite !elem_of_bfilter, Hin, Hin'. destruct (decide (m = cur)) as [->|Hne].
    - rewrite (audit_not_deleting cur Hau), Hcur. naive_solver.
    - rewrite Hother by done. naive_solver. }
  assert (NoDup (segment_names names)) as Hn1 by by apply bfilter_NoDup.
  assert (NoDup (segment_names names')) as Hn2 by by apply bfilter_NoDup.
  assert (∀ l, cur ∉ l → zsum (bytes w') l = zsum (bytes s0.2) l) as Hsame.
  { intros l Hl. apply zsum_ext. intros m Hm. unfold bytes. rewrite Hother; [done|]. by intros ->. }
  assert (bytes w' cur = bytes s0.2 cur + byteLength line)%Z as Hb by (unfold bytes; rewrite Hcur; cbn; by rewrite byteLength_app).
  destruct (decide (cur ∈ segment_names names)) as [Hc|Hc].
  - assert (segment_names names' ≡ₚ segment_names names) as Hp.
    { apply NoDup_Permutation; [done..|]. intros m. rewrite Hmem. naive_solver. }
    apply elem_of_Permutation in Hc as [rest Hrest]. rewrite Hlen', Hsum', Hp, Hrest.
    rewrite Hrest in Hn1, Hlen. apply NoDup_cons in Hn1 as [Hnr _].
    rewrite Hsum, Hrest in Ht. cbn [zsum foldr] in *. fold (zsum (bytes w') rest) (zsum (bytes s0.2) rest) in *.
    rewrite Hsame, Hb by done. split; [lia|]. rewrite <-Hlen. destruct creates; lia.
  - assert (segment_names names' ≡ₚ cur :: segment_names names) as Hp.
    { apply NoDup_Permutation; [done|by constructor|]. intros m. by rewrite Hmem, elem_of_cons. }
    rewrite Hlen', Hsum', Hp. cbn [zsum foldr length]. fold (zsum (bytes w') (segment_names names)).
    rewrite Hsame, Hb, <-Hsum, <-Hlen by done.
    assert (content s0.2 cur = None) as Hnone.
    { destruct (content s0.2 cur) eqn:E; [|done]. destruct Hc. unfold segment_names. rewrite elem_of_bfilter, Hin, E.
      by rewrite (audit_not_deleting cur Hau). }
    assert (creates = true) as -> by (destruct creates; [done|]; rewrite Hnone in Hcr; by destruct (Hcr eq_refl)).
    unfold bytes. rewrite Hnone. cbn [default from_option byteLength]. split; lia.
Qed.

(** The log keeps a segment of its own through every step. *)
Definition owned (s : Log * W) : Prop := ∃ m, own A s.1 m.
Lemma world_owned {B} (m : M W B) : yields owned (in_world m) (λ _, True).
Proof. intros s Hs. by split. Qed.
Lemma lift_owned {B} (r : result B) : yields owned (mlift r) (λ _, True).
Proof. by apply yields_lift. Qed.
Lemma advance_owned now : (0 ≤ now)%Z → yields owned (advanceCurrent o archiveDir now) (λ _, True).
Proof.
  intros Hnow [l w] (m & Hp & Ha & Hcur & Hseq). unfold advanceCurrent, segmentPath. cbn [fst snd] in *.
  assert (sforall plain (segment_name o now (sequence l + 1) open_) = true) as Hpl by (apply segment_name_plain; [done..|lia]).
  rewrite (join_entry A HA HAc HAn) by by apply audit_good, segment_name_audit. split; [|done].
  exists (segment_name o now (sequence l + 1) open_). split_and!; [done|apply segment_name_audit|done|cbn; lia].
Qed.
Lemma now_owned : yields owned (moment_now host) (λ t, (0 ≤ t)%Z).
Proof.
  eapply yields_seq; [apply world_owned|]. intros d _. apply yields_lift. intros t. unfold timestamp.
  destruct d as [ms|]; [|done]. case_if; [|done]. intros [= <-]. bool_prop. lia.
Qed.
Lemma prepare_owned b : yields owned (prepareCurrent host o archiveDir b) (λ _, True).
Proof.
  eapply yields_seq; [apply now_owned|]. intros now Hnow.
  eapply (yields_seq _ _ _ (λ _, True)); [by intros s Hs; split|]. intros l _.
  eapply yields_seq; [apply world_owned|]. intros info _. destruct (is_directory info); [apply lift_owned|].
  eapply (yields_seq _ _ _ (λ _, True)).
  - destruct info as [i|]; (case_if; [|by apply yields_ok]); [|by apply advance_owned].
    eapply (yields_seq _ _ _ (λ _, True)); [|intros _ _; by apply advance_owned].
    eapply (yields_seq _ _ _ (λ _, True)); [by intros s Hs; split|]. intros l' _.
    eapply yields_seq; [apply lift_owned|]. intros q _. apply world_owned.
  - intros _ _. eapply (yields_seq _ _ _ (λ _, True)); [by intros s Hs; split|]. intros l' _. apply world_owned.
Qed.
(** What [prepareCurrent] returns is whether the segment to write is there. *)
Lemma prepare_info b s s2 info : prepareCurrent host o archiveDir b s = (s2, Ok info) →
  (is_Some info ↔ is_Some (files s2.2 !! AbsolutePath.value (currentPath s2.1))).
Proof.
  unfold prepareCurrent. unfold mseq at 1. destruct (moment_now host s) as [s1 [now|]]; [|done].
  unfold mseq at 1, current at 1. unfold mseq at 1. destruct (in_world _ s1) as [s3 [i|]]; [|done].
  destruct (is_directory i); [done|]. unfold mseq at 1. intros E.
  match type of E with (match ?X with _ => _ end) = _ => destruct X as [s4 [[]|]] end; [|done].
  unfold mseq, current, in_world in E. cbn [fst snd] in E.
  destruct (stat_law (currentPath s4.1) s4.2) as [Hk Hst].
  destruct (stat host (currentPath s4.1) s4.2) as [w1 [j|]] eqn:Es; cbn [fst snd] in *; [|done]. injection E as <- <-.
  specialize (Hst j eq_refl). cbn [fst snd]. rewrite Hk. destruct j as [j|].
  - destruct Hst as (t & -> & _). split; by eexists.
  - rewrite Hst. done.
Qed.

(** C27. An appended entry is one line at the end of the log's own segment, and after it the
    archive is within its bounds: whatever a listing shows, the bytes of all segments and
    their number are at most what the options allow. *)
Theorem append_bounded e l w m s' : own A l m → append host o archiveDir legacyPath e (l, w) = (s', Ok tt) →
  (∃ m' old, own A s'.1 m' ∧ content s'.2 m' = Some (old +:+ entry_line e) ∧ (byteLength (entry_line e) ≤ maxEntryBytes o)%Z)
  ∧ ∀ s'' segs, discoverSegments host archiveDir s' = (s'', Ok segs) →
      (total_size segs ≤ maxTotalBytes o)%Z ∧ (Z.of_nat (length segs) ≤ maxSegments o)%Z.
Proof.
  intros Ho. unfold append. unfold mseq at 1, mlift at 1. unfold serialiseAuditEntry.
  destruct (Z.ltb_spec (maxEntryBytes o) (byteLength (entry_line e))) as [|Hlen]; [done|].
  pose proof Ho as (Hp & Ha & Hcur & _). pose proof (audit_good m Hp Ha) as Hg.
  assert (kept host A l m) as Hk by (split_and!; [done|done|by left]).
  unfold mseq at 1. pose proof (migrate_keeps host A legacyPath HA HAc HAn Hlegacy l m (content w m) Hk (l, w)) as [[Hl1 _] _]; [by split|].
  destruct (migrateLegacy host archiveDir legacyPath (l, w)) as [s1 [[]|]]; [|done]. cbn [fst] in Hl1.
  unfold mseq at 1. destruct (prepare_owned (byteLength (entry_line e)) s1) as [Hown _]; [by exists m; rewrite Hl1|].
  destruct (prepareCurrent host o archiveDir _ s1) as [s2 [info|]] eqn:Epr; [|done]. cbn [fst] in Hown.
  apply prepare_info in Epr. destruct Hown as (m2 & Ho2). pose proof Ho2 as (Hp2 & Ha2 & Hcur2 & Hseq2).
  rewrite Hcur2 in Epr. change (files s2.2 !! AbsolutePath.value (entry m2)) with (content s2.2 m2) in Epr.
  assert (kept host A s2.1 m2) as Hk2 by (split_and!; [done|by apply audit_good|by left]).
  unfold mseq at 1. set (creates := negb (bool_decide (is_Some info))).
  pose proof (maintain_keeps host o A HA HAc HAn (byteLength (entry_line e)) creates s2.1 m2 (content s2.2 m2) Hk2 s2) as [[Hl3 Hc3] _]; [by split|].
  destruct (maintain host o archiveDir _ creates s2) as [s3 [[]|]] eqn:Em; [|done]. cbn [fst snd] in Hl3, Hc3.
  unfold maintain, mseq in Em. destruct (removeDeletionClaims host archiveDir s2) as [s4 [[]|]]; [|done].
  destruct (moment_now host s4) as [s5 [now|]]; [|done]. apply loop_Ok in Em as (s6 & s7 & segs0 & Hd & Hl6 & Hf6 & Ht & Hn).
  unfold mseq, current, in_world. cbn [fst snd]. rewrite Hl3, Hcur2.
  pose proof (append_law (entry m2) (entry_line e) s3.2) as Hap.
  destruct (append_to host (entry m2) (entry_line e) s3.2) as [w4 [[]|]]; [|done]. cbn [fst snd] in Hap. intros [= <-].
  cbn [fst snd]. split.
  - exists m2, (default "" (content s3.2 m2)). split; [by rewrite ?Hl3|]. split; [|done].
    unfold JsonlAuditLog.content. by rewrite Hap, lookup_insert_eq.
  - intros s'' segs Hd'. eapply (appended_bounds m2 (entry_line e) s6 s7 segs0 _ s'' segs creates w4); try done.
    + intros Hcr. unfold JsonlAuditLog.content. rewrite Hf6. change (is_Some (content s3.2 m2)). rewrite Hc3. apply Epr.
      unfold creates in Hcr. apply negb_false_iff in Hcr. by apply bool_decide_eq_true in Hcr.
    + unfold JsonlAuditLog.content. by rewrite Hf6.
    + reflexivity.
Qed.

(** ** Maintenance ends *)

Lemma find_in also segs s s' v : find_evictable host also segs s = (s', Ok (Some v)) → v ∈ segs.
Proof.
  revert s. induction segs as [|x segs IH]; intros s; cbn [find_evictable]; [done|]. unfold mseq.
  destruct (evictable host x s) as [s1 [b|]]; [|done]. destruct (b && also x); [intros [= _ <-]; by left|].
  intros E%IH. by right.
Qed.
Lemma victim_found boundary reserved creates s s' v :
  next_victim host o archiveDir boundary reserved creates s = (s', Ok (Some v)) →
  ∃ s1 segs, discoverSegments host archiveDir s = (s1, Ok segs) ∧ v ∈ segs ∧ s'.1 = s.1 ∧ files s'.2 = files s.2.
Proof.
  unfold next_victim, mseq. destruct (discoverSegments host archiveDir s) as [s1 [segs|]] eqn:Ed; [|done].
  destruct (discover_counts s s1 segs Ed) as (H1 & H2 & _). intros E. exists s1, segs. split; [done|].
  destruct (find_evictable host _ segs s1) as [s2 [[x|]|]] eqn:Ef; [| |done].
  - injection E as <- <-. pose proof (find_in _ _ _ _ _ Ef). apply find_quiet in Ef as [? ?]. split_and!; [done|congruence..].
  - cbv zeta in E. destruct (_ && _); [done|].
    destruct (find_evictable host _ segs s2) as [s3 [[x|]|]] eqn:Ef2; [|done..]. injection E as <- <-.
    pose proof (find_in _ _ _ _ _ Ef2). apply find_quiet in Ef as [? ?], Ef2 as [? ?]. split_and!; [done|congruence..].
Qed.
Lemma claim_deleting hex : hex_string 12 hex = true → DELETING_PATTERN (".deleting-" +:+ hex) = true.
Proof.
  intros [Hl%Nat.eqb_eq Hh]%andb_true_iff. unfold DELETING_PATTERN. rewrite literal_app. cbn [mbind option_bind].
  rewrite <-(sapp_nil_r hex). by rewrite fixed_app.
Qed.
(** A claim that returns has taken its segment away, and no other. *)
Lemma claim_removes m v s s' : good_name m → path v = entry m → is_Some (content s.2 m) → claimAndDelete host archiveDir v s = (s', Ok tt) →
  content s'.2 m = None ∧ ∀ x, DELETING_PATTERN x = false → x ≠ m → content s'.2 x = content s.2 x.
Proof.
  intros Hm Hp Hc. unfold claimAndDelete. unfold mseq at 1. unfold in_world at 1. destruct (random_law s.2) as [Hk Hh].
  destruct (random_hex host s.2) as [w1 [hex|]]; cbn [fst snd] in *; [|done]. specialize (Hh hex eq_refl).
  assert (good_name (".deleting-" +:+ hex)) as Hg.
  { apply plain_good; [|rewrite slen_app; cbn; lia]. rewrite sforall_app. by rewrite (hex_plain hex 12). }
  unfold mseq at 1, mlift. rewrite (join_entry A HA HAc HAn) by done. unfold in_world at 1. cbn [fst snd]. rewrite Hp.
  pose proof (move_law (entry m) (entry (".deleting-" +:+ hex)) w1) as Hm1.
  assert (".deleting-" +:+ hex ≠ m ∨ ".deleting-" +:+ hex = m) as Hcase by (destruct (decide (".deleting-" +:+ hex = m)); auto).
  destruct (move host (entry m) (entry (".deleting-" +:+ hex)) w1) as [w2 [[]|cause]]; cbn [fst snd] in Hm1.
  - destruct Hm1 as (t & Ht & Hf). unfold in_world. cbn [fst snd]. pose proof (remove_law (entry (".deleting-" +:+ hex)) w2) as Hr.
    destruct (remove host _ w2) as [w3 [[]|]]; cbn [fst snd] in Hr; [|done]. intros [= <-]. cbn [snd].
    unfold JsonlAuditLog.content. rewrite Hr, Hf. split.
    + destruct Hcase as [Hne|<-]; [|by rewrite lookup_delete_eq].
      rewrite lookup_delete_ne, lookup_insert_ne, lookup_delete_eq by (by apply other_entry). done.
    + intros x Hx Hne. assert (".deleting-" +:+ hex ≠ x) as Hne2 by (intros <-; by rewrite claim_deleting in Hx).
      rewrite lookup_delete_ne, lookup_insert_ne, lookup_delete_ne by (apply other_entry; try done; congruence). by rewrite Hk.
  - unfold mseq, in_world. cbn [fst snd]. destruct (exists_law (entry m) w2) as [Hke He].
    destruct (exists_ host (entry m) w2) as [w3 [b|]]; cbn [fst snd] in *; [|done]. specialize (He b eq_refl).
    assert (b = true) as ->; [|done]. rewrite He. apply bool_decide_eq_true. rewrite Hm1, Hk. exact Hc.
Qed.

(** Discovery never finds more than [k] segments while the files stay as they are. *)
Definition at_most (k : nat) (w : W) : Prop := ∀ s s' segs, files s.2 = files w →
  discoverSegments host archiveDir s = (s', Ok segs) → length segs ≤ k.
Lemma loop_fuel k f g boundary reserved creates s : at_most k s.2 → k < f → k < g →
  maintain_loop host o archiveDir f boundary reserved creates s = maintain_loop host o archiveDir g boundary reserved creates s.
Proof.
  revert f g s. induction k as [k IH] using lt_wf_ind. intros [|f] [|g] s Hk Hf Hg; [lia..|]. cbn [maintain_loop]. unfold mseq at 1 3.
  destruct (next_victim host o archiveDir boundary reserved creates s) as [s1 [[v|]|]] eqn:E; [|done..].
  apply victim_found in E as (s2 & segs & Hd & Hv & Hl1 & Hf1). unfold mseq.
  destruct (claimAndDelete host archiveDir v s1) as [s3 [[]|]] eqn:Ec; [|done].
  pose proof (Hk s s2 segs eq_refl Hd) as Hle.
  destruct (discover_counts s s2 segs Hd) as (_ & _ & names & Hnd & _ & Hin & _ & Hlen & Hpath).
  destruct (Hpath v Hv) as (m & Hm & Hpm). pose proof Hm as Hm'. unfold segment_names in Hm'. apply elem_of_bfilter in Hm' as [Hmn Hmd].
  apply Hin in Hmn as [Hmg Hmc]. assert (is_Some (content s1.2 m)) as Hmc1 by (unfold JsonlAuditLog.content in *; by rewrite Hf1).
  destruct (claim_removes m v s1 s3 Hmg Hpm Hmc1 Ec) as [Hgone Hrest].
  assert (length segs > 0) as Hpos.
  { rewrite Hlen. destruct (segment_names names); [by apply elem_of_nil in Hm|cbn; lia]. }
  apply (IH (length segs - 1)); [lia| |lia|lia].
  intros s4 s5 segs' Hf4 Hd'. destruct (discover_counts s4 s5 segs' Hd') as (_ & _ & names' & Hnd' & _ & Hin' & _ & Hlen' & _).
  rewrite Hlen', Hlen. apply elem_of_Permutation in Hm as [rest Hperm].
  assert (NoDup (segment_names names)) as Hn1 by by apply bfilter_NoDup.
  rewrite Hperm in Hn1. apply NoDup_cons in Hn1 as [Hnr Hnd1]. rewrite Hperm. cbn [length].
  enough (length (segment_names names') ≤ length rest) by lia.
  apply submseteq_length, NoDup_submseteq; [by apply bfilter_NoDup|]. intros x [Hx Hxd]%elem_of_bfilter.
  apply Hin' in Hx as [Hxg Hxc]. apply negb_true_iff in Hxd.
  assert (content s4.2 x = content s3.2 x) as E4 by (unfold JsonlAuditLog.content; by rewrite Hf4). rewrite E4 in Hxc.
  assert (x ≠ m) as Hxm by (intros ->; rewrite Hgone in Hxc; by destruct Hxc). rewrite Hrest in Hxc by done.
  assert (x ∈ segment_names names) as Hxin.
  { apply elem_of_bfilter. split; [apply Hin; split; [done|]|by rewrite Hxd]. unfold JsonlAuditLog.content in *. by rewrite <-Hf1. }
  rewrite Hperm in Hxin. by apply elem_of_cons in Hxin as [?|?].
Qed.

(** C39. The loop of the maintenance ends within the rounds it is given: with any more rounds the
    answer is the same. *)
Theorem maintain_terminates rounds boundary reserved creates s : ROUNDS ≤ rounds →
  maintain_loop host o archiveDir rounds boundary reserved creates s = maintain_loop host o archiveDir ROUNDS boundary reserved creates s.
Proof.
  intros Hr. unfold ROUNDS in *. apply (loop_fuel MAX_DISCOVERED_AUDIT_FILES); [|lia..].
  intros s1 s2 segs _ Hd. destruct (discover_counts s1 s2 segs Hd) as (_ & _ & names & _ & Hl & _ & _ & -> & _).
  etrans; [apply filter_length_le|done].
Qed.
End bounds.

(** ** What is written is read *)

Section reading.
Context `{JsDate}.

(** Details whose JSON text determines them: distinct names that are no array indices, and
    none of them a name the entry itself uses. *)
Definition plain_entry (e : AuditEntry) : Prop :=
  bool_decide (NoDup (details e).*1) = true
  ∧ every (λ k, negb (JSON.is_index k || (k =? "at")%string || (k =? "event")%string)) (details e).*1 = true.
Definition read_of (e : AuditEntry) : ReadEntry :=
  mkRead (at_ e) (event e) (map (λ kv, (kv.1, detail_json kv.2)) (details e)).

Lemma set_all_new l : ∀ acc, NoDup (acc.*1 ++ l.*1) →
  fold_left (λ m kv, JsMap.set m kv.1 (detail_json kv.2)) l acc = acc ++ map (λ kv, (kv.1, detail_json kv.2)) l.
Proof.
  induction l as [|[k v] l IH]; intros acc Hn; cbn [fold_left map]; [by rewrite app_nil_r|].
  cbn [fst snd] in *. rewrite fmap_cons in Hn. rewrite JSON.set_new.
  - rewrite IH, <-app_assoc; [done|]. rewrite fmap_app, <-app_assoc. exact Hn.
  - intros Hk. apply NoDup_app in Hn as (_ & Hn & _). apply (Hn k Hk). by left.
Qed.
Lemma details_names (l : list (string * Detail)) : (map (λ kv, (kv.1, detail_json kv.2)) l).*1 = l.*1.
Proof. induction l as [|kv l IH]; [done|]. cbn. by rewrite IH. Qed.
Lemma plain_members e : plain_entry e →
  entry_members e = map (λ kv, (kv.1, detail_json kv.2)) (details e) ++ [("at", JString (toISOString (at_ e))); ("event", JString (event e))].
Proof.
  intros [Hn%bool_decide_eq_true Hk]. unfold entry_members. rewrite set_all_new by done. cbn [app].
  rewrite every_true in Hk. assert ("at" ∉ (details e).*1 ∧ "event" ∉ (details e).*1) as [Ha He].
  { split; intros Hin; by apply Hk in Hin. }
  rewrite (JSON.set_new _ "at") by by rewrite details_names. rewrite JSON.set_new; [by rewrite <-app_assoc|].
  rewrite fmap_app, elem_of_app, details_names. intros [?|Hin]; [done|]. by apply list_elem_of_singleton in Hin.
Qed.
Lemma entry_canonical e : plain_entry e → JSON.canonical (JObject (entry_members e)).
Proof.
  intros Hp. rewrite plain_members by done. destruct Hp as [Hn%bool_decide_eq_true Hk]. rewrite every_true in Hk.
  apply JSON.canonical_named.
  - apply bool_decide_eq_true. rewrite fmap_app, details_names. apply NoDup_app. split_and!; [done| |].
    + intros k Hin. apply Hk in Hin. intros [-> | ->%list_elem_of_singleton]%elem_of_cons; discriminate.
    + apply (bool_decide_unpack _). reflexivity.
  - apply every_true. intros k. rewrite fmap_app, details_names, elem_of_app. intros [Hin|Hin].
    + apply Hk in Hin. apply negb_true_iff in Hin. do 2 apply orb_false_iff in Hin as [Hin _]. by rewrite Hin.
    + cbn in Hin. apply elem_of_cons in Hin as [-> | ->%list_elem_of_singleton]; reflexivity.
  - rewrite fmap_app. apply Forall_app. split; [|repeat constructor]. clear. induction (details e) as [|[k v] l IH]; [constructor|].
    cbn. constructor; [|done]. destruct v; by first [apply JSON.canonical_strings|constructor].
Qed.
Lemma details_left l r : every (λ k, negb (JSON.is_index k || (k =? "at")%string || (k =? "event")%string)) l.*1 = true →
  JsMap.delete (JsMap.delete (map (λ kv : string * Detail, (kv.1, detail_json kv.2)) l ++ [("at", r.1); ("event", r.2)]) "at") "event"
  = map (λ kv, (kv.1, detail_json kv.2)) l.
Proof.
  unfold JsMap.delete. induction l as [|[k v] l IH]; [done|]. cbn [fmap list_fmap every fst]. intros [Hk Hl]%andb_true_iff.
  apply negb_true_iff in Hk. apply orb_false_iff in Hk as [[_ Ha]%orb_false_iff He]. cbn [map app bfilter fst snd].
  rewrite Ha. cbn [negb bfilter fst]. rewrite He. cbn [negb]. by rewrite IH.
Qed.
(** The text of an entry: one line, and no blank one. *)
Lemma line_text e : ∃ t, JSON.stringify "" (JObject (entry_members e)) = String "{" t +:+ str1 "}".
Proof. unfold JSON.stringify. cbn [JSON.serialize]. unfold JSON.wrap. destruct (map _ _) as [|x l]; [by exists ""|]. by exists (join "," (x :: l)). Qed.
Lemma parse_entry e moment : plain_entry e →
  parse_line moment (JSON.stringify "" (JObject (entry_members e))) = if (at_ e <? moment)%Z then None else Some (read_of e).
Proof.
  intros Hp. pose proof (entry_canonical e Hp) as Hc. destruct (line_text e) as [t Ht]. unfold parse_line.
  rewrite Ht at 1. rewrite (trim_id "{" t "}") by done. cbn [String.append String.eqb].
  pose proof (JSON.parse_stringify "" _ "" eq_refl eq_refl Hc) as Hparse. rewrite sapp_nil_r in Hparse. rewrite Hparse.
  unfold entry_members at 1 2. rewrite !JsMap.get_set. cbn [String.eqb Ascii.eqb Bool.eqb]. rewrite Date_parse_toISOString. case_if; [done|].
  f_equal. unfold read_of. f_equal. rewrite plain_members by done. destruct Hp as [_ Hk]. by apply (details_left _ (JString (toISOString (at_ e)), JString (event e))).
Qed.

Definition written (es : list AuditEntry) : string := foldr (λ e t, entry_line e +:+ t) "" es.
(** A file of lines written one after the other reads back as those entries that are recent
    enough, in their order; a last line that was cut short costs no other entry. *)
Theorem audit_lines_roundtrip es fragment moment : Forall plain_entry es → has_char newline fragment = false →
  parseAuditLines (written es +:+ fragment) moment
  = map read_of (bfilter (λ e, negb (at_ e <? moment)%Z) es) ++ omap (parse_line moment) [fragment].
Proof.
  intros He Hf. unfold parseAuditLines. induction He as [|e es Hp _ IH].
  - cbn [written foldr bfilter String.append app map]. rewrite split_no_sep by done. done.
  - cbn [written foldr]. fold (written es). unfold entry_line at 1. rewrite !sapp_assoc. change (nl +:+ ?x) with (String newline x). rewrite split_app.
    rewrite split_no_sep by by apply JSON.serialize_one_line, entry_canonical.
    rewrite omap_app, IH. cbn [omap list_omap]. rewrite parse_entry by done. cbn [bfilter]. by destruct (at_ e <? moment)%Z.
Qed.
End reading.

(** ** An archive in memory *)

Module MemoryArchive.
Section memory.
Import PosixText.
Context (A : list string) (HA : ordinary A) (now : Z) (alive : Z → bool).

Definition names (m : gmap string string) : list string :=
  base.filter good_name (omap (λ kv, literal (abs_text A +:+ "/") kv.1) (map_to_list m)).
Definition host : Host (gmap string string) := {|
  stat p m := (m, Ok ((λ t, mkStat false (byteLength t)) <$> m !! AbsolutePath.value p));
  exists_ p m := (m, Ok (bool_decide (is_Some (m !! AbsolutePath.value p))));
  read p m := (m, Ok (m !! AbsolutePath.value p));
  move p q m := match m !! AbsolutePath.value p with
                | Some t => (<[AbsolutePath.value q := t]> (base.delete (AbsolutePath.value p) m), Ok tt)
                | None => (m, throw "ENOENT")
                end;
  append_to p t m := (<[AbsolutePath.value p := default "" (m !! AbsolutePath.value p) +:+ t]> m, Ok tt);
  remove p m := (base.delete (AbsolutePath.value p) m, Ok tt);
  list_files _ _ m := (m, if length (names m) <=? MAX_DISCOVERED_AUDIT_FILES then Ok (map (entry A) (names m)) else throw "entry limit");
  clock m := (m, Ok (Some now));
  random_hex m := (m, Ok "0123456789ab");
  processAlive pid m := (m, Ok (alive pid))
|}.

Lemma literal_some w s r : literal w s = Some r ↔ s = w +:+ r.
Proof.
  unfold literal. split; [|intros ->; unfold startsWith; by rewrite prefix_app, sdrop_app].
  destruct (startsWith s w) eqn:E; [|done]. apply startsWith_true in E as [t ->]. rewrite sdrop_app. by intros [= ->].
Qed.
Lemma names_NoDup m : NoDup (names m).
Proof.
  apply NoDup_filter. pose proof (NoDup_fst_map_to_list m) as Hn. induction (map_to_list m) as [|[k t] l IH]; [constructor|].
  apply NoDup_cons in Hn as [Hk Hn]. cbn [omap list_omap fst]. destruct (literal _ k) as [r|] eqn:E; [|by apply IH].
  constructor; [|by apply IH]. intros ([k' t'] & Hin & E')%list_elem_of_omap. cbn [fst] in *.
  apply literal_some in E as ->, E' as ->. apply Hk. by apply (list_elem_of_fmap_2 fst) in Hin.
Qed.
Lemma elem_names m n : good_name n → n ∈ names m ↔ is_Some (m !! AbsolutePath.value (entry A n)).
Proof.
  intros Hg. unfold names. rewrite list_elem_of_filter, list_elem_of_omap, (entry_text A HA). split.
  - intros (_ & [k t] & Hin & E%literal_some). cbn [fst] in E. subst k. apply elem_of_map_to_list in Hin. exists t.
    by rewrite sapp_assoc in Hin.
  - intros [t Ht]. split; [done|]. exists (abs_text A +:+ "/" +:+ n, t). split; [by apply elem_of_map_to_list|].
    cbn [fst]. apply literal_some. by rewrite sapp_assoc.
Qed.
#[local] Instance laws : ArchiveLaws host A.
Proof.
  refine {| files := id : gmap string string → gmap string string; live := alive |}; cbn [stat exists_ read move append_to remove list_files clock random_hex processAlive host fst snd id].
  - intros p w. split; [done|]. intros s [= <-]. destruct (w !! _) as [t|] eqn:E; [by exists t|done].
  - intros p w. split; [done|]. by intros b [= <-].
  - intros p w. split; [done|]. by intros t [= <-].
  - intros p q w. destruct (w !! AbsolutePath.value p) as [t|] eqn:E; cbn [fst snd]; [by exists t|done].
  - done.
  - done.
  - intros w. split; [done|]. intros ps. case_if; [|done]. intros [= <-]. exists (names w).
    split_and!; [done|apply names_NoDup| |by apply Nat.leb_le|apply elem_names].
    apply Forall_forall. by intros n [Hn _]%list_elem_of_filter.
  - done.
  - intros w. split; [done|]. by intros h [= <-].
  - intros pid w. split; [done|]. by intros b [= <-].
Defined.
End memory.
End MemoryArchive.
End JsonlAuditLog.

Section witness.
Import StrokeDate JsonlAuditLog PosixText.
Definition audit_dir : list string := ["home"; "u"; ".agentkeeper"; "audit"].
Definition audit_legacy : AbsolutePath := AbsolutePath.posix_path ["home"; "u"; ".agentkeeper"; "audit.log"].
Definition small_options : AuditOptions := mkOptions 200 260 3 100 90 5 "0123456789ab".
Definition archive_host : Host (gmap string string) := MemoryArchive.host audit_dir 1700000000000 (Z.eqb 77).
Definition own_name : string := "audit-1700000000000-0000000005-0123456789ab-00000000.open.jsonl".
Definition other_name : string := "audit-1600000000000-0000000077-ffffffffffff-00000000.open.jsonl".
Definition fresh_log : Log := mkLog (entry audit_dir own_name) 1700000000000 0.
(** Another process writes to a segment long past its retention, and there is more than may be kept. *)
Definition crowded : gmap string string :=
  <[AbsolutePath.value (entry audit_dir other_name) := JSON.q "evidence"]>
    {[AbsolutePath.value (entry audit_dir "legacy-1690000000000-0123456789ab.closed.jsonl") := String.concat "" (repeat "0123456789" 25)]}.
Definition sample_entry : AuditEntry := mkEntry 5 "scan" [("files", DNumber 3); ("clean", DBool true)].

Example start_sample : (start archive_host small_options (AbsolutePath.posix_path audit_dir) ∅).2 = Ok fresh_log.
Proof. vm_compute. reflexivity. Qed.

Lemma audit_dir_ordinary : ordinary audit_dir.
Proof. by split. Qed.
Lemma audit_dir_clean : Forall clean_seg audit_dir.
Proof. apply (bool_decide_unpack _). reflexivity. Qed.
Lemma audit_dir_no_nul : Forall AbsolutePath.no_nul audit_dir.
Proof. by repeat constructor. Qed.
Lemma audit_legacy_apart n : AbsolutePath.value audit_legacy ≠ AbsolutePath.value (entry audit_dir n).
Proof. rewrite (entry_text audit_dir audit_dir_ordinary). discriminate. Qed.
#[local] Instance archive_laws : ArchiveLaws archive_host audit_dir := MemoryArchive.laws audit_dir audit_dir_ordinary 1700000000000 (Z.eqb 77).
Lemma fresh_own : own audit_dir fresh_log own_name.
Proof. by split_and!. Qed.
Lemma other_foreign : foreign archive_host small_options audit_dir other_name.
Proof.
  split; [apply (bool_decide_unpack _); reflexivity|]. exists "1600000000000", "0000000077". by split_and!.
Qed.

Lemma small_pid : (0 ≤ processId small_options < 10 ^ 10)%Z.
Proof. cbn [processId small_options]. lia. Qed.
Lemma live_evidence_kept_witness :
  content archive_host audit_dir (append archive_host small_options (AbsolutePath.posix_path audit_dir) audit_legacy sample_entry (fresh_log, crowded)).1.2 other_name
  = Some (JSON.q "evidence").
Proof.
  destruct (live_evidence_kept archive_host small_options audit_dir audit_legacy audit_dir_ordinary audit_dir_clean audit_dir_no_nul
    eq_refl small_pid audit_legacy_apart other_name fresh_log crowded own_name other_foreign fresh_own) as [Ha _]; [discriminate|].
  rewrite Ha. vm_compute. reflexivity.
Defined.

(** An append that makes room: the old segment is deleted, the live one stays. *)
Lemma append_bounded_witness : ∃ s',
  append archive_host small_options (AbsolutePath.posix_path audit_dir) audit_legacy sample_entry (fresh_log, crowded) = (s', Ok tt)
  ∧ ∃ m' old, own audit_dir s'.1 m' ∧ content archive_host audit_dir s'.2 m' = Some (old +:+ entry_line sample_entry).
Proof.
  destruct (append archive_host small_options (AbsolutePath.posix_path audit_dir) audit_legacy sample_entry (fresh_log, crowded)) as [s' r] eqn:E.
  assert (r = Ok tt) as -> by (apply (f_equal snd) in E; symmetry in E; vm_compute in E; exact E).
  destruct (append_bounded archive_host small_options audit_dir audit_legacy audit_dir_ordinary audit_dir_clean audit_dir_no_nul
    eq_refl small_pid audit_legacy_apart sample_entry fresh_log crowded own_name s' fresh_own E) as [(m' & old & Ho & Hc & _) _].
  exists s'. split; [reflexivity|]. exists m', old. split; [exact Ho|exact Hc].
Defined.

Lemma maintain_terminates_witness :
  maintain_loop archive_host small_options (AbsolutePath.posix_path audit_dir) 5000 0 0 true (fresh_log, crowded)
  = maintain_loop archive_host small_options (AbsolutePath.posix_path audit_dir) ROUNDS 0 0 true (fresh_log, crowded).
Proof.
  apply (maintain_terminates archive_host small_options audit_dir audit_dir_ordinary audit_dir_clean audit_dir_no_nul 5000 0 0 true (fresh_log, crowded)).
  apply Nat.leb_le. vm_compute. reflexivity.
Defined.

Lemma audit_lines_roundtrip_witness : parseAuditLines (written [sample_entry] +:+ "{cut") 0 = [read_of sample_entry].
Proof.
  rewrite (audit_lines_roundtrip [sample_entry] "{cut" 0); [vm_compute; reflexivity| |reflexivity].
  constructor; [|constructor]. split; vm_compute; reflexivity.
Defined.
End witness.
