(* ===== verification/Configuration.v ===== *)
(** * The configuration (src/infrastructure/config/Configuration.ts)

    [config.json] is edited by hand, so every field is checked as it is read and falls
    back to the narrower default. The theorems say that whatever the file holds, only an
    explicit well-formed setting relaxes a default. *)

From S2P Require Import Prelude JsString JsMap JsNumber Json NodePath Paths Patterns Ports Stores.
Import JSON.

Module Configuration.

Inductive OnUnavailable := warn | fail_.
#[global] Instance OnUnavailable_eq_dec : EqDecision OnUnavailable.
Proof. solve_decision. Defined.
Inductive Notifications := native | terminal | none.

Record SandboxSection := mkSandbox { enabled : bool; starterProfile : string; onUnavailable : OnUnavailable }.
(** [rules] holds the [enabled] member of each rule or category. *)
Record ConfigurationDocument := mkDocument {
  version : Z;
  sandbox : SandboxSection;
  watchRoots : list string;
  watchHome : bool;
  strictMode : bool;
  notifications : Notifications;
  rules : list (string * bool);
  logRetentionDays : Z
}.

Definition DEFAULTS : ConfigurationDocument :=
  mkDocument 1 (mkSandbox true "web" fail_) [] true false native [("categoryA", false)] 90.
Definition defaultDocument : ConfigurationDocument := DEFAULTS.

(** ** Reading the document *)

(** [/^[a-z0-9][a-z0-9-]{0,63}$/i] *)
Definition profile_char (c : ascii) : bool := is_digit c || is_lower c || is_upper c.
Definition profile_name (s : string) : bool :=
  match s with
  | String c r => profile_char c && (slen r <=? 63) && sforall (λ d, profile_char d || Ascii.eqb d "-") r
  | "" => false
  end.

Definition bool_or (v : option Json) (d : bool) : bool := match v with Some (JBool b) => b | _ => d end.
Definition profile_from (v : option Json) : string :=
  match text_of v with Some s => if profile_name s then s else starterProfile (sandbox DEFAULTS) | None => starterProfile (sandbox DEFAULTS) end.
Definition unavailable_from (v : option Json) : OnUnavailable :=
  match text_of v with
  | Some s => if (s =? "warn")%string then warn else if (s =? "fail")%string then fail_ else onUnavailable (sandbox DEFAULTS)
  | None => onUnavailable (sandbox DEFAULTS)
  end.
Definition roots_from (v : option Json) : list string :=
  match v with Some (JArray l) => omap (λ x, text_of (Some x)) l | _ => watchRoots DEFAULTS end.
Definition notifications_from (v : option Json) : Notifications :=
  match text_of v with
  | Some s => if (s =? "native")%string then native else if (s =? "terminal")%string then terminal
              else if (s =? "none")%string then none else notifications DEFAULTS
  | None => notifications DEFAULTS
  end.
Definition retention_from (v : option Json) : Z :=
  match v with
  | Some (JNum (Int z)) => if (1 <=? z)%Z && (z <=? 3650)%Z then z else logRetentionDays DEFAULTS
  | _ => logRetentionDays DEFAULTS
  end.

(** The assignment to [parsed['__proto__']] makes no own property: it gives the object a
    prototype whose one member, [enabled], no rule is named after. *)
Definition enabled_of (candidate : Json) : option bool :=
  match prop candidate "enabled" with Some (JBool b) => Some b | _ => None end.
Definition set_rule (parsed : list (string * bool)) (entry : string * Json) : list (string * bool) :=
  match enabled_of entry.2 with
  | Some b => if (entry.1 =? "__proto__")%string then parsed else JsMap.set parsed entry.1 b
  | None => parsed
  end.
Definition parseRules (value : option Json) : list (string * bool) :=
  match value with
  | Some (JObject m) => fold_left set_rule (own_order m) [("categoryA", false)]
  | _ => [("categoryA", false)]
  end.

Definition is_version (v : option Json) : bool :=
  match v with Some (JNum n) => number_eqb n (Int (version DEFAULTS)) | _ => false end.
Definition parseDocument (value : Json) : ConfigurationDocument :=
  match value with
  | JObject m =>
      if negb (is_version (JsMap.get m "version")) then defaultDocument
      else
        let sb := match JsMap.get m "sandbox" with Some (JObject s) => s | _ => [] end in
        mkDocument (version DEFAULTS)
          (mkSandbox (bool_or (JsMap.get sb "enabled") (enabled (sandbox DEFAULTS)))
             (profile_from (JsMap.get sb "starterProfile")) (unavailable_from (JsMap.get sb "onUnavailable")))
          (roots_from (JsMap.get m "watchRoots"))
          (bool_or (JsMap.get m "watchHome") (watchHome DEFAULTS))
          (bool_or (JsMap.get m "strictMode") (strictMode DEFAULTS))
          (notifications_from (JsMap.get m "notifications"))
          (parseRules (JsMap.get m "rules"))
          (retention_from (JsMap.get m "logRetentionDays"))
  | _ => defaultDocument
  end.

(** ** The class *)

Record Configuration := mkConfiguration { document : ConfigurationDocument }.
Definition defaults : Configuration := mkConfiguration defaultDocument.

(** What [load] makes of the file. *)
Definition decode (raw : option string) : Configuration :=
  match raw with
  | None => defaults
  | Some raw => match JSON.parse raw with Some v => mkConfiguration (parseDocument v) | None => defaults end
  end.
Definition load {W} (files : FileSystem W) (stateDir : AbsolutePath) : M W Configuration :=
  let* p := mlift (AbsolutePath.joinp stateDir ["config.json"]) in
  let* raw := read_ files p in
  mok (decode raw).

(** [ruleId.charAt(3)] *)
Definition family (ruleId : string) : string := "category" +:+ stake 1 (sdrop 3 ruleId).
(** For identifiers no prototype has a member for. *)
Definition isEnabled (c : Configuration) (ruleId : string) : bool :=
  match JsMap.get (rules (document c)) ruleId with
  | Some b => b
  | None => default true (JsMap.get (rules (document c)) (family ruleId))
  end.
Definition starter_profile (c : Configuration) : string := starterProfile (sandbox (document c)).
Definition on_unavailable (c : Configuration) : OnUnavailable := onUnavailable (sandbox (document c)).
Definition sandboxEnabled (c : Configuration) : bool := enabled (sandbox (document c)).
Definition strict_mode (c : Configuration) : bool := strictMode (document c).
(** A root that is no path is skipped. *)
Definition watch_roots (c : Configuration) (home : AbsolutePath) : list AbsolutePath :=
  omap (λ raw, match AbsolutePath.fromUserPath raw home with Ok p => Some p | Err _ => None end) (watchRoots (document c)).

(** ** What the file can say *)

(** The file holds an object of the supported version. *)
Definition says (raw : option string) (m : list (string * Json)) : Prop :=
  ∃ text, raw = Some text ∧ JSON.parse text = Some (JObject m) ∧ is_version (JsMap.get m "version") = true.
Definition sandbox_says (raw : option string) (key : string) (v : Json) : Prop :=
  ∃ m sb, says raw m ∧ JsMap.get m "sandbox" = Some (JObject sb) ∧ JsMap.get sb key = Some v.
Definition rule_says (raw : option string) (id : string) (b : bool) : Prop :=
  ∃ m rs o, says raw m ∧ JsMap.get m "rules" = Some (JObject rs) ∧ (id, JObject o) ∈ rs ∧ JsMap.get o "enabled" = Some (JBool b).

(** A document is the default or comes from an object of the right version. *)
Lemma decode_cases raw : decode raw = defaults ∨ ∃ m, says raw m ∧ decode raw = mkConfiguration (parseDocument (JObject m)).
Proof.
  unfold decode, says. destruct raw as [text|]; [|by left]. destruct (JSON.parse text) as [v|] eqn:E; [|by left].
  destruct v as [| | | | |m]; try by left. cbn [parseDocument]. destruct (is_version (JsMap.get m "version")) eqn:Ev; [|by left].
  right. exists m. split; [by exists text|]. by rewrite Ev.
Qed.
Lemma document_of raw m : says raw m → decode raw = mkConfiguration (parseDocument (JObject m)) ∧ is_version (JsMap.get m "version") = true.
Proof. intros (t & -> & E & Hv). cbn [decode]. by rewrite E. Qed.

Lemma parsed_rules m k b : JsMap.get (parseRules (Some (JObject m))) k = Some b →
  (k = "categoryA" ∧ b = false) ∨ ∃ o, (k, JObject o) ∈ m ∧ JsMap.get o "enabled" = Some (JBool b).
Proof.
  cbn [parseRules]. assert (∀ kv, kv ∈ own_order m → kv ∈ m) as Hin.
  { unfold own_order. intros kv [Hk|Hk]%elem_of_app; [rewrite sort_by_perm in Hk|]; by apply elem_of_bfilter in Hk as [? _]. }
  revert Hin. generalize (own_order m). intros l Hin.
  assert (∀ acc, (∀ k b, JsMap.get acc k = Some b → (k = "categoryA" ∧ b = false) ∨ ∃ o, (k, JObject o) ∈ m ∧ JsMap.get o "enabled" = Some (JBool b)) →
    JsMap.get (fold_left set_rule l acc) k = Some b → (k = "categoryA" ∧ b = false) ∨ ∃ o, (k, JObject o) ∈ m ∧ JsMap.get o "enabled" = Some (JBool b)) as H.
  { induction l as [|[id v] l IH]; intros acc Hacc; cbn [fold_left]; [by apply Hacc|]. apply IH; [intros kv Hkv; apply Hin; by right|].
    intros k' b'. unfold set_rule. cbn [fst snd]. destruct (enabled_of v) as [e|] eqn:Ee; [|apply Hacc].
    destruct (id =? "__proto__")%string; [apply Hacc|]. rewrite JsMap.get_set. destruct (String.eqb_spec id k') as [->|]; [|apply Hacc].
    intros [= ->]. right. unfold enabled_of, prop in Ee. destruct v as [| | | | |o]; try done.
    exists o. split; [apply Hin; by left|]. destruct (JsMap.get o "enabled") as [[]|]; simplify_eq; done. }
  apply H. intros k' b' Hg. unfold JsMap.get in Hg. cbn [find fst] in Hg.
  destruct (String.eqb_spec "categoryA" k') as [<-|]; [|done]. cbn in Hg. left. by simplify_eq.
Qed.

(** C20. Whatever [config.json] holds, it is read; the sandbox is off, or may be left out when
    no mechanism is there, only where the file says exactly that, and so is the strict hook; the profile is a plain
    name, the retention between a day and ten years; and a rule is off only by its own
    entry, by the entry of its family, or because it is of family A. *)
Theorem config_fails_closed raw :
  let c := decode raw in
  (on_unavailable c = warn → sandbox_says raw "onUnavailable" (JString "warn"))
  ∧ (sandboxEnabled c = false → sandbox_says raw "enabled" (JBool false))
  ∧ (strict_mode c = false ∨ ∃ m, says raw m ∧ JsMap.get m "strictMode" = Some (JBool true))
  ∧ profile_name (starter_profile c) = true
  ∧ (1 ≤ logRetentionDays (document c) ≤ 3650)%Z
  ∧ ∀ id, isEnabled c id = false → rule_says raw id false ∨ rule_says raw (family id) false ∨ id = "categoryA" ∨ family id = "categoryA".
Proof.
  cbv zeta. destruct (decode_cases raw) as [->|(m & Hs & ->)].
  { split_and!; try done; [by left|]. intros id. unfold isEnabled, JsMap.get. cbn [document rules defaults defaultDocument DEFAULTS find fst].
    destruct (String.eqb_spec "categoryA" id) as [<-|]; [by do 2 right; left|].
    destruct (String.eqb_spec "categoryA" (family id)) as [<-|]; [by do 3 right|done]. }
  pose proof Hs as (text & _ & _ & Hv). unfold sandboxEnabled, on_unavailable, strict_mode, starter_profile, isEnabled.
  cbn [document parseDocument]. rewrite Hv. cbn [negb sandbox onUnavailable enabled starterProfile strictMode logRetentionDays rules].
  set (sb := match JsMap.get m "sandbox" with Some (JObject s) => s | _ => [] end).
  assert (∀ key v, JsMap.get sb key = Some v → sandbox_says raw key v) as Hsb.
  { intros key v Hk. unfold sb in Hk. destruct (JsMap.get m "sandbox") as [[| | | | |s]|] eqn:E; try done. by exists m, s. }
  split_and!.
  - unfold unavailable_from. destruct (JsMap.get sb "onUnavailable") as [[| | |s| |]|] eqn:E; try done. cbn [text_of].
    destruct (String.eqb_spec s "warn") as [->|]; [by intros _; apply Hsb|]. by case_if.
  - destruct (JsMap.get sb "enabled") as [[|b| | | |]|] eqn:E; try done. cbn [bool_or]. intros ->. by apply Hsb.
  - destruct (JsMap.get m "strictMode") as [[|[]| | | |]|] eqn:E; try by left. right. by exists m.
  - unfold profile_from. destruct (text_of _) as [s|]; [|done]. by destruct (profile_name s) eqn:E.
  - unfold retention_from. destruct (JsMap.get m "logRetentionDays") as [[| |[z| |]| | |]|]; cbn; try lia. case_if; bool_prop; cbn; lia.
  - unfold retention_from. destruct (JsMap.get m "logRetentionDays") as [[| |[z| |]| | |]|]; cbn; try lia. case_if; bool_prop; cbn; lia.
  - intros id. assert (∀ k, JsMap.get (parseRules (JsMap.get m "rules")) k = Some false → k = "categoryA" ∨ rule_says raw k false) as Hr.
    { intros k Hk. destruct (JsMap.get m "rules") as [v|] eqn:Er;
        [|unfold JsMap.get in Hk; cbn [parseRules find fst] in Hk; destruct (String.eqb_spec "categoryA" k); [by left|done]].
      destruct v as [| | | | |rs]; try (unfold JsMap.get in Hk; cbn [parseRules find fst] in Hk; destruct (String.eqb_spec "categoryA" k); [by left|done]).
      apply parsed_rules in Hk as [[-> _]|(o & Ho & He)]; [by left|right]. by exists m, rs, o. }
    destruct (JsMap.get _ id) as [b|] eqn:E; [intros ->; apply Hr in E as [?|?]; tauto|].
    destruct (JsMap.get _ (family id)) as [b|] eqn:E2; [|done]. cbn [default from_option]. intros H. cbv in H. subst b. apply Hr in E2 as [?|?]; tauto.
Qed.
End Configuration.
