(* ===== verification/ManagedArtifacts.v ===== *)
(** * What the installer writes (src/infrastructure/install/ManagedInstallation.ts)

    The texts of the managed files: shims, shell initialisation, the block in a shell
    profile and the hook in the settings of the agent. A shared file is never printed
    anew: a block is appended to it, or an element is inserted at an offset that a parser
    of spans has found. *)

From S2P Require Import Prelude JsString JsMap JsNumber Json Regex NodePath Paths Values Shell.
Import JSON.

Inductive ManagedAgent := claude | codex | gemini | opencode.
Definition MANAGED_AGENTS : list ManagedAgent := [claude; codex; gemini; opencode].
Definition agent_name (a : ManagedAgent) : string :=
  match a with claude => "claude" | codex => "codex" | gemini => "gemini" | opencode => "opencode" end.

Inductive InstallShell := posix_shell | powershell.
#[global] Instance InstallShell_eq_dec : EqDecision InstallShell.
Proof. solve_decision. Defined.
Definition shell_name (s : InstallShell) : string := match s with posix_shell => "posix" | powershell => "powershell" end.

Definition MANAGED_MARKER_START : string := "# >>> agentkeeper managed >>>".
Definition MANAGED_MARKER_END : string := "# <<< agentkeeper managed <<<".

(** ** Quoting *)

(** [value.replace(/c/g, t)] *)
Fixpoint replace_each (c : ascii) (t s : string) : string :=
  match s with "" => "" | String d r => (if Ascii.eqb d c then t else str1 d) +:+ replace_each c t r end.

Definition escaped_quote : string := str1 squote +:+ str1 dquote +:+ str1 squote +:+ str1 dquote +:+ str1 squote.
Definition posixQuote (value : string) : string := str1 squote +:+ replace_each squote escaped_quote value +:+ str1 squote.
Definition powerShellQuote (value : string) : string :=
  str1 squote +:+ replace_each squote (str1 squote +:+ str1 squote) value +:+ str1 squote.
Definition windowsBatchQuote (value : string) : string := q (replace_each "%" "%%" value).

Definition crlf : string := str1 (chr 13) +:+ nl.

(** ** Shims and shell initialisation *)

Section render.
Context (runtime entrypoint target shimDirectory : AbsolutePath).

Definition GENERATED : string := "# Generated and checksum-managed by agentkeeper.".
Definition renderPosixShim : string :=
  join nl ["#!/bin/sh"; GENERATED; "set -eu";
           "exec " +:+ posixQuote (AbsolutePath.value runtime) +:+ " " +:+ posixQuote (AbsolutePath.value entrypoint)
             +:+ " run -- " +:+ posixQuote (AbsolutePath.value target) +:+ " " +:+ q "$@";
           ""].
Definition renderPowerShellShim : string :=
  join crlf [GENERATED; "$ErrorActionPreference = 'Stop'";
             "& " +:+ powerShellQuote (AbsolutePath.value runtime) +:+ " " +:+ powerShellQuote (AbsolutePath.value entrypoint)
               +:+ " run -- " +:+ powerShellQuote (AbsolutePath.value target) +:+ " @args";
             "exit $LASTEXITCODE"; ""].
Definition renderWindowsCommandShim : string :=
  join crlf ["@echo off"; "setlocal DisableDelayedExpansion"; "rem Generated and checksum-managed by agentkeeper.";
             windowsBatchQuote (AbsolutePath.value runtime) +:+ " " +:+ windowsBatchQuote (AbsolutePath.value entrypoint)
               +:+ " run -- " +:+ windowsBatchQuote (AbsolutePath.value target) +:+ " %*";
             "exit /b %ERRORLEVEL%"; ""].
Definition renderPosixShellInit : string :=
  join nl [GENERATED; "_agentkeeper_shim_directory=" +:+ posixQuote (AbsolutePath.value shimDirectory);
           "case " +:+ q ":${PATH}:" +:+ " in";
           "  *" +:+ q ":${_agentkeeper_shim_directory}:" +:+ "*" +:+ ") ;;";
           "  *" +:+ ") export PATH=" +:+ q "${_agentkeeper_shim_directory}:${PATH}" +:+ " ;;";
           "esac"; "unset _agentkeeper_shim_directory"; ""].
Definition renderPowerShellInit : string :=
  join crlf [GENERATED; "$agentkeeperShimDirectory = " +:+ powerShellQuote (AbsolutePath.value shimDirectory);
             "$agentkeeperPathEntries = $env:PATH -split [IO.Path]::PathSeparator";
             "if ($agentkeeperPathEntries -notcontains $agentkeeperShimDirectory) {";
             "  $env:PATH = $agentkeeperShimDirectory + [IO.Path]::PathSeparator + $env:PATH";
             "}";
             "Remove-Variable agentkeeperPathEntries, agentkeeperShimDirectory -ErrorAction SilentlyContinue"; ""].
End render.

Definition hookCommandPrefix (runtime entrypoint : AbsolutePath) (shell : InstallShell) : string :=
  match shell with
  | posix_shell => posixQuote (AbsolutePath.value runtime) +:+ " " +:+ posixQuote (AbsolutePath.value entrypoint)
  | powershell => "& " +:+ powerShellQuote (AbsolutePath.value runtime) +:+ " " +:+ powerShellQuote (AbsolutePath.value entrypoint)
  end.

(** ** Shell profiles *)

Definition profile_source (shell : InstallShell) (init : AbsolutePath) : string :=
  match shell with
  | posix_shell => "[ -f " +:+ posixQuote (AbsolutePath.value init) +:+ " ] && . " +:+ posixQuote (AbsolutePath.value init)
  | powershell => "if (Test-Path -LiteralPath " +:+ powerShellQuote (AbsolutePath.value init) +:+ ") { . "
                  +:+ powerShellQuote (AbsolutePath.value init) +:+ " }"
  end.
Definition block_of (source : string) : string := MANAGED_MARKER_START +:+ nl +:+ source +:+ nl +:+ MANAGED_MARKER_END +:+ nl.

Definition appendProfileBlock (before : option string) (block : string) : string :=
  match before with
  | None | Some "" => block
  | Some text =>
      let crlf_text := includes text crlf in
      let newline_ := if crlf_text then crlf else nl in
      let normalisedBlock := if crlf_text then replace_each newline crlf block else block in
      text +:+ (if endsWith text nl then "" else newline_) +:+ normalisedBlock
  end.
Definition hasAnyManagedMarker (content : string) : bool :=
  includes content MANAGED_MARKER_START || includes content MANAGED_MARKER_END.

(** ** The hook in the settings of the agent *)

(** [/(?:^|\s)hook\s+pretooluse(?:\s|$)/i] *)
Definition HOOK_COMMAND : Regex.regex :=
  Regex.seqs [Regex.Alt Regex.Bol (Regex.Chars is_space); Regex.lit_i "hook"; Regex.plus (Regex.Chars is_space);
              Regex.lit_i "pretooluse"; Regex.Alt (Regex.Chars is_space) Regex.Eol].
Fixpoint containsManagedHook (value : Json) : bool :=
  match value with
  | JArray l => existsb containsManagedHook l
  | JObject m =>
      match JsMap.get m "command" with
      | Some (JString c) => Regex.test HOOK_COMMAND c
      | _ => false
      end || existsb (λ kv, containsManagedHook kv.2) m
  | _ => false
  end.

(** *** A parser of spans *)

Inductive JsonSpan :=
| SObject (start end_ : nat) (properties : list (string * JsonSpan))
| SArray (start end_ : nat) (items : list JsonSpan)
| SScalar (start end_ : nat).

Definition OUT_OF_FUEL : exn := JsError "out of fuel".

Section spans.
Context `{Engine} (source : string).

(** [this.offset], when [rest] is what follows it. *)
Definition offset (rest : string) : nat := slen source - slen rest.
Definition whitespace (s : string) : string := skip_while is_space s.
Definition head_is (c : ascii) (s : string) : bool := match s with String d _ => Ascii.eqb d c | "" => false end.
Definition span_expect (c : ascii) (s : string) : result string :=
  match s with
  | String d r => if Ascii.eqb d c then Ok r
                  else throw ("expected " +:+ JSON_stringify (str1 c) +:+ " at byte " +:+ string_of_nat (offset s))
  | "" => throw ("expected " +:+ JSON_stringify (str1 c) +:+ " at byte " +:+ string_of_nat (offset s))
  end.
(** What follows the closing quote. A text that begins with a quote is a string when it is JSON. *)
Fixpoint close_string (s : string) : option string :=
  match s with
  | "" => None
  | String c r => if Ascii.eqb c dquote then Some r
                  else if Ascii.eqb c backslash then match r with String _ r' => close_string r' | "" => None end
                  else close_string r
  end.
Definition span_string (s : string) : result (string * string) :=
  let! r := span_expect dquote s in
  match close_string r with
  | None => throw "unterminated string"
  | Some rest =>
      let slice := stake (slen s - slen rest) s in
      match JSON.parse slice with
      | Some (JString k) => Ok (k, rest)
      | Some _ => Ok ("", rest)
      | None => throw (syntax_message slice)
      end
  end.
(** [/[\s,}\]]/] *)
Definition ends_token (c : ascii) : bool := is_space c || Ascii.eqb c "," || Ascii.eqb c "}" || Ascii.eqb c "]".

Fixpoint span_value (fuel : nat) (s : string) : result (JsonSpan * string) :=
  match fuel with
  | O => Err OUT_OF_FUEL
  | S f =>
      let t := whitespace s in
      let start := offset t in
      match t with
      | String c r =>
          if Ascii.eqb c "{" then
            let r := whitespace r in
            if head_is "}" r then Ok (SObject start (offset (sdrop 1 r)) [], sdrop 1 r) else span_members f start [] r
          else if Ascii.eqb c "[" then
            let r := whitespace r in
            if head_is "]" r then Ok (SArray start (offset (sdrop 1 r)) [], sdrop 1 r) else span_items f start [] r
          else if Ascii.eqb c dquote then let! p := span_string t in Ok (SScalar start (offset p.2), p.2)
          else
            let token := take_while (λ d, negb (ends_token d)) t in
            if (token =? "")%string then throw ("unexpected token at byte " +:+ string_of_nat start)
            else match JSON.parse token with
                 | Some _ => let rest := sdrop (slen token) t in Ok (SScalar start (offset rest), rest)
                 | None => throw (syntax_message token)
                 end
      | "" => throw ("unexpected token at byte " +:+ string_of_nat start)
      end
  end
with span_members (fuel : nat) (start : nat) (properties : list (string * JsonSpan)) (s : string) : result (JsonSpan * string) :=
  match fuel with
  | O => Err OUT_OF_FUEL
  | S f =>
      if (s =? "")%string then throw "unterminated object"
      else
        let! p := span_string (whitespace s) in
        let! r := span_expect ":" (whitespace p.2) in
        let! v := span_value f r in
        let properties := properties ++ [(p.1, v.1)] in
        let r := whitespace v.2 in
        if head_is "}" r then Ok (SObject start (offset (sdrop 1 r)) properties, sdrop 1 r)
        else let! r := span_expect "," r in span_members f start properties r
  end
with span_items (fuel : nat) (start : nat) (items : list JsonSpan) (s : string) : result (JsonSpan * string) :=
  match fuel with
  | O => Err OUT_OF_FUEL
  | S f =>
      if (s =? "")%string then throw "unterminated array"
      else
        let! v := span_value f s in
        let items := items ++ [v.1] in
        let r := whitespace v.2 in
        if head_is "]" r then Ok (SArray start (offset (sdrop 1 r)) items, sdrop 1 r)
        else let! r := span_expect "," r in span_items f start items r
  end.

(** [JsonSpanParser.parse(source)] *)
Definition span_parse : result JsonSpan :=
  let! p := span_value (fuel_for source) source in
  if (whitespace p.2 =? "")%string then Ok p.1 else throw "unexpected data after the root value".
End spans.

Definition insertAt (source : string) (at_ : nat) (addition : string) : string := stake at_ source +:+ addition +:+ sdrop at_ source.
Definition comma_before {A} (l : list A) : string := match l with [] => "" | _ => "," end.

Definition insertClaudeHook `{Engine} (raw : string) (managedHook : Json) : result string :=
  let! root := span_parse raw in
  match root with
  | SObject _ end_ properties =>
      let hookJson := stringify "" managedHook in
      match bfilter (λ p, (p.1 =? "hooks")%string) properties with
      | [] => Ok (insertAt raw (end_ - 1)
                    (comma_before properties +:+ q "hooks" +:+ ":{" +:+ q "PreToolUse" +:+ ":[" +:+ hookJson +:+ "]}"))
      | [(_, SObject _ hooks_end hooks)] =>
          match bfilter (λ p, (p.1 =? "PreToolUse")%string) hooks with
          | [] => Ok (insertAt raw (hooks_end - 1) (comma_before hooks +:+ q "PreToolUse" +:+ ":[" +:+ hookJson +:+ "]"))
          | [(_, SArray _ array_end items)] => Ok (insertAt raw (array_end - 1) (comma_before items +:+ hookJson))
          | [_] => throw "PreToolUse is not an array"
          | _ => throw "duplicate PreToolUse properties are ambiguous"
          end
      | [_] => throw "hooks is not an object"
      | _ => throw "duplicate hooks properties are ambiguous"
      end
  | _ => throw "root is not an object"
  end.

Definition managed_hook (runtime entrypoint : AbsolutePath) (shell : InstallShell) : Json :=
  JObject [("matcher", JString "*");
           ("hooks", JArray [JObject [("type", JString "command");
                                      ("command", JString (hookCommandPrefix runtime entrypoint shell +:+ " hook pretooluse"))]])].

(** The new text of the settings, or why they are refused. *)
Definition renderClaudeSettings `{Engine} (runtime entrypoint : AbsolutePath) (shell : InstallShell) (raw : option string) : string + string :=
  let managedHook := managed_hook runtime entrypoint shell in
  match raw with
  | None => inl (stringify "  " (JObject [("hooks", JObject [("PreToolUse", JArray [managedHook])])]) +:+ nl)
  | Some text =>
      match JSON.parse text with
      | None => inr "Claude settings are not valid JSON; refusing to replace or repair them"
      | Some (JObject settings) =>
          let existingHooks := JsMap.get settings "hooks" in
          match existingHooks with
          | None | Some (JObject _) =>
              let hooks := match existingHooks with Some (JObject h) => h | _ => [] end in
              let existingPreToolUse := JsMap.get hooks "PreToolUse" in
              match existingPreToolUse with
              | None | Some (JArray _) =>
                  let preToolUse := match existingPreToolUse with Some (JArray l) => l | _ => [] end in
                  if existsb containsManagedHook preToolUse
                  then inr "An agentkeeper PreToolUse hook exists without a valid manifest; ownership is ambiguous"
                  else match insertClaudeHook text managedHook with
                       | Ok content => inl content
                       | Err e => inr ("Claude settings cannot be merged safely: " +:+ exn_message e)
                       end
              | Some _ => inr "Claude hooks.PreToolUse must be an array"
              end
          | Some _ => inr "Claude settings.hooks must be an object"
          end
      | Some _ => inr "Claude settings must be a JSON object"
      end
  end.
