(* ===== verification/ManagedInstallation.v ===== *)
(** * Planning the managed installation (src/infrastructure/install/ManagedInstallation.ts)

    [ManagedInstallationPlanner]: what to write when the product is activated, what
    deactivation puts back, and what a repair may touch. It reads files and never changes
    one: the plan is carried out by the executor of Installation.v. *)

From S2P Require Import Prelude JsString JsMap JsNumber Json NodePath Paths Patterns Values Ports Installation.
From S2P Require Import ManagedArtifacts.
Import JSON.

Module ManagedInstallationPlanner.

Record ManagedOwnedArtifact := mkOwned { owned_id : string; owned_path : AbsolutePath; owned_content : string; owned_mode : option Z }.
Record ManagedInstallationOptions := mkInstallOptions {
  home : AbsolutePath;
  stateDir : AbsolutePath;
  shell : InstallShell;
  runtimeExecutable : AbsolutePath;
  agentkeeperEntrypoint : AbsolutePath;
  agentExecutables : ManagedAgent → option AbsolutePath;
  profiles : list AbsolutePath;
  claudeSettings : AbsolutePath;
  additionalOwnedArtifacts : list ManagedOwnedArtifact
}.

Inductive Ownership := owned | shared.
#[global] Instance Ownership_eq_dec : EqDecision Ownership.
Proof. solve_decision. Defined.
Definition ownership_name (o : Ownership) : string := match o with owned => "owned" | shared => "shared" end.

Record DesiredArtifact := mkArtifact { id : string; path : AbsolutePath; ownership : Ownership; content : string; mode : option Z }.
Record CandidateArtifact := mkCandidate { desired :> DesiredArtifact; cbefore : option string }.
Record ManifestEntry := mkEntry {
  entry_id : string; entry_path : string; entry_ownership : Ownership; installedChecksum : string;
  originalChecksum : option string; entry_backupPath : option string; entry_mode : option JsNumber
}.
(** The schema and the version are constants. *)
Record ManifestPayload := mkPayload {
  payload_shell : InstallShell; payload_runtime : string; payload_entrypoint : string;
  payload_configurationChecksum : string; entries : list ManifestEntry
}.
Inductive LoadedManifest := absent | invalid (message : string) | valid (raw : string) (payload : ManifestPayload).

Definition MANIFEST_SCHEMA : string := "dev.agentkeeper.managed-installation".
Definition MANIFEST_VERSION : Z := 2.
Definition MODE_0600 : Z := 384.
Definition MODE_0700 : Z := 448.

Definition change (p : AbsolutePath) (before after : option string) (text : string) (m : option Z) : InstallationChange :=
  mkInstallationChange p before after text m.

(** ** Checksums and the manifest *)

Section manifest.
Context `{Digest}.

Definition checksum (text : string) : string := ContentHash.toString (ContentHash.fromContent text).
Definition isChecksum (value : string) : bool := match ContentHash.parse value with Ok _ => true | Err _ => false end.

Definition nullable (s : option string) : Json := match s with Some s => JString s | None => JNull end.
Definition entry_json (e : ManifestEntry) : Json :=
  JObject [("id", JString (entry_id e)); ("path", JString (entry_path e)); ("ownership", JString (ownership_name (entry_ownership e)));
           ("installedChecksum", JString (installedChecksum e)); ("originalChecksum", nullable (originalChecksum e));
           ("backupPath", nullable (entry_backupPath e)); ("mode", match entry_mode e with Some n => JNum n | None => JNull end)].
Definition payload_json (p : ManifestPayload) : Json :=
  JObject [("schema", JString MANIFEST_SCHEMA); ("version", JNum (Int MANIFEST_VERSION)); ("shell", JString (shell_name (payload_shell p)));
           ("runtimeExecutable", JString (payload_runtime p)); ("agentkeeperEntrypoint", JString (payload_entrypoint p));
           ("configurationChecksum", JString (payload_configurationChecksum p)); ("entries", JArray (map entry_json (entries p)))].
Definition serialiseManifest (p : ManifestPayload) : string :=
  stringify "  " (JObject [("checksum", JString (checksum (stringify "" (payload_json p)))); ("payload", payload_json p)]) +:+ nl.

Definition string_or_null (v : option Json) : option (option string) :=
  match v with Some JNull => Some None | Some (JString s) => Some (Some s) | _ => None end.
Definition number_or_null (v : option Json) : option (option JsNumber) :=
  match v with Some JNull => Some None | Some (JNum n) => Some (Some n) | _ => None end.
Definition ownership_from (v : option Json) : option Ownership :=
  match text_of v with
  | Some s => if (s =? "owned")%string then Some owned else if (s =? "shared")%string then Some shared else None
  | None => None
  end.
Definition shell_from (v : option Json) : option InstallShell :=
  match text_of v with
  | Some s => if (s =? "posix")%string then Some posix_shell else if (s =? "powershell")%string then Some powershell else None
  | None => None
  end.
Definition parse_entry (item : Json) : option ManifestEntry :=
  match item with
  | JObject m =>
      i ← text_of (JsMap.get m "id"); p ← text_of (JsMap.get m "path"); o ← ownership_from (JsMap.get m "ownership");
      ic ← text_of (JsMap.get m "installedChecksum"); oc ← string_or_null (JsMap.get m "originalChecksum");
      b ← string_or_null (JsMap.get m "backupPath"); md ← number_or_null (JsMap.get m "mode");
      Some (mkEntry i p o ic oc b md)
  | _ => None
  end.
Definition is_two (v : option Json) : bool := match v with Some (JNum n) => number_eqb n (Int MANIFEST_VERSION) | _ => false end.
Definition parsePayload (m : list (string * Json)) : ManifestPayload + string :=
  let unsupported := inr "Managed manifest payload has an unsupported schema" in
  match text_of (JsMap.get m "schema"), shell_from (JsMap.get m "shell"), text_of (JsMap.get m "runtimeExecutable"),
        text_of (JsMap.get m "agentkeeperEntrypoint"), text_of (JsMap.get m "configurationChecksum"), JsMap.get m "entries" with
  | Some sc, Some sh, Some r, Some e, Some c, Some (JArray items) =>
      if (sc =? MANIFEST_SCHEMA)%string && is_two (JsMap.get m "version") && isChecksum c then
        match mapM parse_entry items with
        | Some es => inl (mkPayload sh r e c es)
        | None => inr "Managed manifest contains a malformed entry"
        end
      else unsupported
  | _, _, _, _, _, _ => unsupported
  end.

(** What [loadManifest] makes of the file. *)
Definition manifest_of (raw : option string) : LoadedManifest :=
  match raw with
  | None => absent
  | Some raw =>
      match JSON.parse raw with
      | None => invalid "Managed manifest is not valid JSON"
      | Some parsed =>
          match text_of (prop parsed "checksum"), prop parsed "payload" with
          | Some sum, Some (JObject m) =>
              if negb (sum =? checksum (stringify "" (JObject m)))%string
              then invalid "Managed manifest checksum does not match its payload"
              else match parsePayload m with
                   | inl payload => valid raw payload
                   | inr message => invalid message
                   end
          | _, _ => invalid "Managed manifest has an invalid envelope"
          end
      end
  end.
End manifest.

(** ** The planner *)

Section planner.
Context `{Digest} `{Engine} {W : Type} (files : FileSystem W) (o : ManagedInstallationOptions).

Definition manifestPath : result AbsolutePath := AbsolutePath.joinp (stateDir o) ["installation/manifest.json"].
Definition conflict (code : InstallationConflictCode) (p : AbsolutePath) (message : string) : InstallationConflict := mkConflict code p message.
Definition successfulPlan (op : InstallationOperation) (cs : list InstallationChange) : InstallationPlan := mkPlan op cs [].
(** A plan with conflicts has no changes at all. *)
Definition failedPlan (op : InstallationOperation) (cs : list InstallationConflict) : InstallationPlan := mkPlan op [] cs.

Definition agentTargets : list (ManagedAgent * AbsolutePath) :=
  omap (λ a, (λ t, (a, t)) <$> agentExecutables o a) MANAGED_AGENTS.
Definition shell_extension : string := match shell o with posix_shell => "sh" | powershell => "ps1" end.
Definition shimDirectory : result AbsolutePath := AbsolutePath.joinp (stateDir o) ["shims/" +:+ shell_name (shell o)].
Definition shell_init_path : result AbsolutePath := AbsolutePath.joinp (stateDir o) ["shell/agentkeeper." +:+ shell_extension].
Definition shell_init_id : string := "shell-init:" +:+ shell_name (shell o).
Definition shim_id (a : ManagedAgent) : string := "shim:" +:+ shell_name (shell o) +:+ ":" +:+ agent_name a.
Definition cmd_id (a : ManagedAgent) : string := "shim:cmd:" +:+ agent_name a.
Definition profile_id (index : nat) : string := "profile:" +:+ shell_name (shell o) +:+ ":" +:+ string_of_nat index.
Definition shim_mode : Z := match shell o with posix_shell => MODE_0700 | powershell => MODE_0600 end.
Definition shim_file (a : ManagedAgent) : string := agent_name a +:+ match shell o with posix_shell => "" | powershell => ".ps1" end.

(** The shims of one agent. *)
Definition shims_of (directory : AbsolutePath) (at_ : ManagedAgent * AbsolutePath) : result (list DesiredArtifact) :=
  let '(a, target) := at_ in
  let! p := AbsolutePath.joinp directory [shim_file a] in
  let shim := mkArtifact (shim_id a) p owned
                (match shell o with
                 | posix_shell => renderPosixShim (runtimeExecutable o) (agentkeeperEntrypoint o) target
                 | powershell => renderPowerShellShim (runtimeExecutable o) (agentkeeperEntrypoint o) target
                 end) (Some shim_mode) in
  match shell o with
  | posix_shell => Ok [shim]
  | powershell =>
      let! c := AbsolutePath.joinp directory [agent_name a +:+ ".cmd"] in
      Ok [shim; mkArtifact (cmd_id a) c owned
                  (renderWindowsCommandShim (runtimeExecutable o) (agentkeeperEntrypoint o) target) (Some MODE_0600)]
  end.
Definition additional_artifact (a : ManagedOwnedArtifact) : DesiredArtifact :=
  mkArtifact (owned_id a) (owned_path a) owned (owned_content a) (Some (default MODE_0600 (owned_mode a))).
Definition ownedArtifacts : result (list DesiredArtifact) :=
  let! directory := shimDirectory in
  let! init := shell_init_path in
  let! shims := rmapM (shims_of directory) agentTargets in
  Ok (mkArtifact shell_init_id init owned
        (match shell o with posix_shell => renderPosixShellInit directory | powershell => renderPowerShellInit directory end)
        (Some MODE_0600)
      :: concat shims ++ map additional_artifact (additionalOwnedArtifacts o)).

Definition profileBlock : result string := let! init := shell_init_path in Ok (block_of (profile_source (shell o) init)).

Definition backupPath (p : AbsolutePath) : result AbsolutePath :=
  let digest := sdrop 7 (checksum ("agentkeeper-original" +:+ str1 nul +:+ AbsolutePath.value p)) in
  AbsolutePath.joinp (stateDir o) ["installation/backups/" +:+ digest +:+ ".original"].

Definition extension_json (a : ManagedOwnedArtifact) : Json :=
  JObject [("id", JString (owned_id a)); ("path", JString (AbsolutePath.value (owned_path a)));
           ("contentChecksum", JString (checksum (owned_content a))); ("mode", JNum (Int (default MODE_0600 (owned_mode a))))].
Definition configurationChecksum : string :=
  checksum (stringify "" (JObject (
    [("shell", JString (shell_name (shell o))); ("stateDir", JString (AbsolutePath.value (stateDir o)));
     ("runtimeExecutable", JString (AbsolutePath.value (runtimeExecutable o)));
     ("agentkeeperEntrypoint", JString (AbsolutePath.value (agentkeeperEntrypoint o)));
     ("agentExecutables", JObject (map (λ at_, (agent_name at_.1, JString (AbsolutePath.value at_.2))) agentTargets));
     ("profiles", strings (map AbsolutePath.value (profiles o))); ("claudeSettings", JString (AbsolutePath.value (claudeSettings o)))]
    ++ match additionalOwnedArtifacts o with [] => [] | l => [("extensions", JArray (map extension_json l))] end))).

Definition driftConflict (e : ManifestEntry) (p : AbsolutePath) : InstallationConflict :=
  match entry_ownership e with
  | shared => conflict shared_file_drift p "A user-owned shared file changed after activation; it will not be overwritten automatically"
  | owned => conflict managed_file_drift p "A managed artifact changed after activation; use the repair operation"
  end.

(** *** The first activation *)

(** The conflicts for every repeated key, in order. *)
Fixpoint duplicates {A} (key : A → string) (report : A → InstallationConflict) (seen : list string) (l : list A) : list InstallationConflict :=
  match l with
  | [] => []
  | x :: r => (if str_includes seen (key x) then [report x] else []) ++ duplicates key report (key x :: seen) r
  end.
Definition duplicatePathConflicts (cs : list CandidateArtifact) : list InstallationConflict :=
  duplicates (λ c : CandidateArtifact, AbsolutePath.value (path c))
    (λ c : CandidateArtifact, conflict configuration_mismatch (path c) "Two managed artifacts were configured for the same path") [] cs.
Definition duplicateChangePathConflicts (cs : list InstallationChange) : list InstallationConflict :=
  duplicates change_key
    (λ c, conflict configuration_mismatch (change_path c)
            "A managed target, backup, or manifest resolves to the same path as another artifact") [] cs.

Definition configurationConflicts : result (list InstallationConflict) :=
  let! directory := shimDirectory in
  let! artifacts := ownedArtifacts in
  let executables := [runtimeExecutable o; agentkeeperEntrypoint o] ++ map snd agentTargets in
  Ok ((if length agentTargets =? 0
       then [conflict configuration_mismatch (stateDir o)
               "No supported agent executable was found before the shim directory entered PATH"] else [])
      ++ map (λ p, conflict configuration_mismatch p
                "Install-once state and shared integrations must stay inside the configured user home")
           (bfilter (λ p, negb (AbsolutePath.contains (home o) p))
              ([stateDir o] ++ profiles o ++ [claudeSettings o] ++ map owned_path (additionalOwnedArtifacts o)))
      ++ duplicates id (λ a, conflict configuration_mismatch (path a) ("Duplicate managed artifact id " +:+ JSON_stringify (id a))) [] artifacts
      ++ map (λ p, conflict configuration_mismatch p "A resolved executable points inside the managed shim directory and would recurse")
           (bfilter (AbsolutePath.contains directory) executables)).

(** A path that exists is not claimed. *)
Definition owned_candidates (l : list (DesiredArtifact * option string)) : list InstallationConflict * list CandidateArtifact :=
  (omap (λ ab, match ab.2 with
               | Some _ => Some (conflict owned_path_exists (path ab.1)
                   "The path existed before agentkeeper had a manifest; it will not be claimed or overwritten")
               | None => None
               end) l,
   omap (λ ab, match ab.2 with Some _ => None | None => Some (mkCandidate ab.1 None) end) l).

(** One shell profile: nothing, a conflict, or a candidate. *)
Definition profile_candidate (index : nat) (p : AbsolutePath) (before : option string) (block : string) :
    option (InstallationConflict + CandidateArtifact) :=
  if bool_decide (before = None) && bool_decide (shell o = posix_shell) then None
  else if match before with Some t => hasAnyManagedMarker t | None => false end
  then Some (inl (conflict managed_marker_collision p "A managed marker exists without a valid manifest; ownership is ambiguous"))
  else Some (inr (mkCandidate (mkArtifact (profile_id index) p shared (appendProfileBlock before block) None) before)).
(** [profileBlock] is computed for every profile that is written. *)
Fixpoint profile_candidates (index : nat) (l : list (AbsolutePath * option string)) :
    result (list InstallationConflict * list CandidateArtifact) :=
  match l with
  | [] => Ok ([], [])
  | (p, before) :: r =>
      let! block := if bool_decide (before = None) && bool_decide (shell o = posix_shell) then Ok "" else profileBlock in
      let! rest := profile_candidates (S index) r in
      Ok match profile_candidate index p before block with
         | None => rest
         | Some (inl c) => (c :: rest.1, rest.2)
         | Some (inr c) => (rest.1, c :: rest.2)
         end
  end.
Definition settings_candidate (before : option string) : InstallationConflict + CandidateArtifact :=
  match renderClaudeSettings (runtimeExecutable o) (agentkeeperEntrypoint o) (shell o) before with
  | inr reason => inl (conflict invalid_shared_config (claudeSettings o) reason)
  | inl content => inr (mkCandidate (mkArtifact "claude-settings" (claudeSettings o) shared content None) before)
  end.

(** The backup of a candidate: where it goes and what is there. *)
Definition Backup : Type := option (AbsolutePath * option string).
Definition read_backup (c : CandidateArtifact) : M W Backup :=
  match cbefore c with
  | None => mok None
  | Some _ => let* p := mlift (backupPath (path c)) in let* t := read_ files p in mok (Some (p, t))
  end.
Definition backup_change (cb : CandidateArtifact * Backup) : option InstallationChange :=
  match cb.2, cbefore cb.1 with
  | Some (p, None), Some text => Some (change p None (Some text) ("Back up " +:+ AbsolutePath.value (path cb.1) +:+ " byte-for-byte") (Some MODE_0600))
  | _, _ => None
  end.
Definition backup_conflict (cb : CandidateArtifact * Backup) : option InstallationConflict :=
  match cb.2 with
  | Some (p, Some _) => Some (conflict owned_path_exists p "The deterministic backup path already exists without a valid manifest")
  | _ => None
  end.
Definition target_change (c : CandidateArtifact) : InstallationChange :=
  change (path c) (cbefore c) (Some (content c)) ("Install managed artifact " +:+ id c) (mode c).
Definition manifest_entry (cb : CandidateArtifact * Backup) : ManifestEntry :=
  let c := cb.1 in
  mkEntry (id c) (AbsolutePath.value (path c)) (ownership c) (checksum (content c)) (checksum <$> cbefore c)
    ((λ b, AbsolutePath.value b.1) <$> cb.2) (Int <$> mode c).
Definition new_payload (es : list ManifestEntry) : ManifestPayload :=
  mkPayload (shell o) (AbsolutePath.value (runtimeExecutable o)) (AbsolutePath.value (agentkeeperEntrypoint o)) configurationChecksum es.

Definition planFirstActivation : M W InstallationPlan :=
  let* conflicts0 := mlift configurationConflicts in
  if 0 <? length conflicts0 then mok (failedPlan activate conflicts0)
  else
    let* artifacts := mlift ownedArtifacts in
    let* ownedBefore := mmapM (λ a, read_ files (path a)) artifacts in
    let* profileBefore := mmapM (read_ files) (profiles o) in
    let* settingsBefore := read_ files (claudeSettings o) in
    let own := owned_candidates (combine artifacts ownedBefore) in
    let* prof := mlift (profile_candidates 0 (combine (profiles o) profileBefore)) in
    let settings := settings_candidate settingsBefore in
    let candidates := own.2 ++ prof.2 ++ match settings with inr c => [c] | inl _ => [] end in
    let conflicts1 := own.1 ++ prof.1 ++ match settings with inl c => [c] | inr _ => [] end ++ duplicatePathConflicts candidates in
    let* backups := mmapM read_backup candidates in
    let cbs := combine candidates backups in
    let backupChanges := omap backup_change cbs in
    let targetChanges := map target_change candidates in
    let* mp := mlift manifestPath in
    let conflicts2 := conflicts1 ++ omap backup_conflict cbs
      ++ duplicateChangePathConflicts (backupChanges ++ targetChanges ++ [change mp None (Some "") "manifest placeholder" None]) in
    if 0 <? length conflicts2 then mok (failedPlan activate conflicts2)
    else mok (successfulPlan activate (backupChanges ++ targetChanges
           ++ [change mp None (Some (serialiseManifest (new_payload (map manifest_entry cbs))))
                 "Commit the managed installation manifest and content checksums" (Some MODE_0600)])).

(** *** An installed product *)

(** [Promise.all(entries.map(e => files.read(AbsolutePath.of(e.path))))] *)
Definition read_at (text : string) : M W (option string) :=
  let* p := mlift (AbsolutePath.of_ text) in read_ files p.
Definition backup_drift_conflict (e : ManifestEntry) (b : string) : result InstallationConflict :=
  let! p := AbsolutePath.of_ b in
  Ok (conflict backup_drift p ("The byte-exact backup for " +:+ entry_id e +:+ " is missing or has changed")).
(** The file holds the text with this checksum. *)
Definition holds_checksum (found : option string) (sum : string) : bool :=
  match found with Some t => (checksum t =? sum)%string | None => false end.

Definition backed_up (es : list ManifestEntry) : list (ManifestEntry * string * string) :=
  omap (λ e, match entry_backupPath e, originalChecksum e with Some b, Some s => Some (e, b, s) | _, _ => None end) es.
Definition backup_conflicts (es : list ManifestEntry) : M W (list InstallationConflict) :=
  let backed := backed_up es in
  let* contents := mmapM (λ ebs, read_at ebs.1.2) backed in
  let* cs := mlift (rmapM (λ x : (ManifestEntry * string * string) * option string,
                             if holds_checksum x.2 x.1.2 then Ok None
                             else rmap Some (backup_drift_conflict x.1.1.1 x.1.1.2)) (combine backed contents)) in
  mok (omap (λ c, c) cs).

(** What one entry of the manifest asks for. *)
Definition inspect_entry (op : InstallationOperation) (artifacts : list (string * DesiredArtifact)) (e : ManifestEntry) (found : option string) :
    result (option (InstallationConflict + InstallationChange)) :=
  let! p := AbsolutePath.of_ (entry_path e) in
  if holds_checksum found (installedChecksum e) then Ok None
  else if bool_decide (op = activate) then Ok (Some (inl (driftConflict e p)))
  else if bool_decide (entry_ownership e = shared) then Ok (Some (inl (driftConflict e p)))
  else match JsMap.get artifacts (entry_id e) with
       | Some d =>
           if (checksum (content d) =? installedChecksum e)%string
           then Ok (Some (inr (change p found (Some (content d)) ("Repair managed artifact " +:+ entry_id e) (mode d))))
           else Ok (Some (inl (conflict configuration_mismatch p "The currently configured artifact does not match the installed manifest")))
       | None => Ok (Some (inl (conflict configuration_mismatch p "The currently configured artifact does not match the installed manifest")))
       end.
Definition lefts {A B} (l : list (option (A + B))) : list A := omap (λ x, match x with Some (inl a) => Some a | _ => None end) l.
Definition rights {A B} (l : list (option (A + B))) : list B := omap (λ x, match x with Some (inr b) => Some b | _ => None end) l.

Definition planInstalled (op : InstallationOperation) (payload : ManifestPayload) : M W InstallationPlan :=
  let* conflicts0 := backup_conflicts (entries payload) in
  let* currentFiles := mmapM (λ e, read_at (entry_path e)) (entries payload) in
  let* artifacts := mlift ownedArtifacts in
  let* outcomes := mlift (rmapM (λ ef, inspect_entry op (JsMap.of_list id artifacts) ef.1 ef.2) (combine (entries payload) currentFiles)) in
  let conflicts := conflicts0 ++ lefts outcomes in
  mok (if 0 <? length conflicts then failedPlan op conflicts else successfulPlan op (rights outcomes)).

(** *** Deactivation *)

Record Snapshot := mkSnapshot { snap_entry : ManifestEntry; current : option string; backup : option string }.
Definition snapshot (e : ManifestEntry) : M W Snapshot :=
  let* c := read_at (entry_path e) in
  let* b := match entry_backupPath e with None => mok None | Some b => read_at b end in
  mok (mkSnapshot e c b).
Definition snapshot_conflicts (s : Snapshot) : result (list InstallationConflict) :=
  let e := snap_entry s in
  let! p := AbsolutePath.of_ (entry_path e) in
  let drift := if holds_checksum (current s) (installedChecksum e) then [] else [driftConflict e p] in
  match entry_backupPath e with
  | Some b =>
      if match backup s with Some t => bool_decide (Some (checksum t) = originalChecksum e) | None => false end then Ok drift
      else let! c := backup_drift_conflict e b in Ok (drift ++ [c])
  | None => Ok drift
  end.
Definition removal (s : Snapshot) : result InstallationChange :=
  let! p := AbsolutePath.of_ (entry_path (snap_entry s)) in
  Ok (change p (current s) (backup s) ("Remove managed artifact " +:+ entry_id (snap_entry s)) None).
Definition backup_removal (s : Snapshot) : result (option InstallationChange) :=
  match entry_backupPath (snap_entry s) with
  | None => Ok None
  | Some b => let! p := AbsolutePath.of_ b in
              Ok (Some (change p (backup s) None ("Remove backup for " +:+ entry_id (snap_entry s)) None))
  end.
Definition planDeactivation (raw : string) (payload : ManifestPayload) : M W InstallationPlan :=
  let* snapshots := mmapM snapshot (entries payload) in
  let* conflicts := mlift (rmapM snapshot_conflicts snapshots) in
  if 0 <? length (concat conflicts) then mok (failedPlan deactivate (concat conflicts))
  else
    let* targetChanges := mlift (rmapM removal (rev snapshots)) in
    let* backupChanges := mlift (rmapM backup_removal (rev snapshots)) in
    let* mp := mlift manifestPath in
    mok (successfulPlan deactivate (targetChanges ++ omap (λ c, c) backupChanges
           ++ [change mp (Some raw) None "Remove managed installation manifest" None])).

(** *** Checking the manifest *)

Definition blank (i : string) (p : AbsolutePath) (ow : Ownership) (m : option Z) : DesiredArtifact := mkArtifact i p ow "" m.
Fixpoint profile_artifacts (index : nat) (l : list AbsolutePath) : list DesiredArtifact :=
  match l with [] => [] | p :: r => blank (profile_id index) p shared None :: profile_artifacts (S index) r end.
Definition shared_artifacts : list DesiredArtifact :=
  profile_artifacts 0 (profiles o) ++ [blank "claude-settings" (claudeSettings o) shared None].
Definition expectedArtifacts : result (list (string * DesiredArtifact)) :=
  let! artifacts := ownedArtifacts in Ok (JsMap.of_list id (artifacts ++ shared_artifacts)).

Definition allowed_shims (directory : AbsolutePath) (a : ManagedAgent) : result (list DesiredArtifact) :=
  let! p := AbsolutePath.joinp directory [shim_file a] in
  let shim := blank (shim_id a) p owned (Some shim_mode) in
  match shell o with
  | posix_shell => Ok [shim]
  | powershell => let! c := AbsolutePath.joinp directory [agent_name a +:+ ".cmd"] in Ok [shim; blank (cmd_id a) c owned (Some MODE_0600)]
  end.
Definition allowed_additional (a : ManagedOwnedArtifact) : DesiredArtifact :=
  blank (owned_id a) (owned_path a) owned (Some (default MODE_0600 (owned_mode a))).
(** The paths that may be given up when the agents are no longer there. *)
Definition allowedArtifacts : result (list (string * DesiredArtifact)) :=
  let! directory := shimDirectory in
  let! init := shell_init_path in
  let! shims := rmapM (allowed_shims directory) MANAGED_AGENTS in
  Ok (JsMap.of_list id (blank shell_init_id init owned (Some MODE_0600)
        :: concat shims ++ map allowed_additional (additionalOwnedArtifacts o) ++ shared_artifacts)).

Definition mode_matches (e : option JsNumber) (a : option Z) : bool :=
  match e, a with None, None => true | Some n, Some z => number_eqb n (Int z) | _, _ => false end.
Definition about (before : string) (i : string) (after : string) : string := before +:+ " " +:+ JSON_stringify i +:+ after.
(** What is wrong with one entry, [None] when nothing is. *)
Definition validate_entry (op : InstallationOperation) (expected : list (string * DesiredArtifact)) (e : ManifestEntry) : result (option string) :=
  match JsMap.get expected (entry_id e) with
  | None => Ok (Some (about "Unknown manifest artifact" (entry_id e) ""))
  | Some a =>
      if negb (AbsolutePath.value (path a) =? entry_path e)%string || negb (bool_decide (ownership a = entry_ownership e))
      then Ok (Some (about "Manifest artifact" (entry_id e) " points outside its configured path"))
      else if negb (mode_matches (entry_mode e) (mode a)) then Ok (Some (about "Manifest artifact" (entry_id e) " has an unexpected file mode"))
      else if negb (isChecksum (installedChecksum e)) then Ok (Some (about "Manifest artifact" (entry_id e) " has an invalid installed checksum"))
      else if match originalChecksum e with Some c => negb (isChecksum c) | None => false end
      then Ok (Some (about "Manifest artifact" (entry_id e) " has an invalid original checksum"))
      else if negb (Bool.eqb (bool_decide (originalChecksum e = None)) (bool_decide (entry_backupPath e = None)))
      then Ok (Some (about "Manifest artifact" (entry_id e) " has an incomplete backup reference"))
      else
        let! misplaced := match entry_backupPath e with
                          | None => Ok false
                          | Some b => let! p := backupPath (path a) in Ok (negb (b =? AbsolutePath.value p)%string)
                          end in
        if misplaced then Ok (Some (about "Manifest artifact" (entry_id e) " has an unexpected backup path"))
        else if bool_decide (ownership a = owned) && negb (bool_decide (op = deactivate)) then
          if negb (bool_decide (originalChecksum e = None)) || negb (bool_decide (entry_backupPath e = None))
          then Ok (Some (about "Owned artifact" (entry_id e) " unexpectedly claims an original file"))
          else if negb (bool_decide (op = repair)) && (negb (checksum (content a) =? installedChecksum e)%string || negb (mode_matches (entry_mode e) (mode a)))
          then Ok (Some (about "Owned artifact" (entry_id e) " does not match current generated content"))
          else Ok None
        else Ok None
  end.
Fixpoint validate_entries (op : InstallationOperation) (expected : list (string * DesiredArtifact)) (seen : list string) (es : list ManifestEntry) :
    result (option string) :=
  match es with
  | [] => Ok None
  | e :: r =>
      if str_includes seen (entry_id e) then Ok (Some (about "Duplicate manifest entry" (entry_id e) ""))
      else let! wrong := validate_entry op expected e in
           match wrong with Some m => Ok (Some m) | None => validate_entries op expected (entry_id e :: seen) r end
  end.
Definition validateManifest (payload : ManifestPayload) (op : InstallationOperation) : result (option string) :=
  if negb (bool_decide (payload_shell payload = shell o)) then Ok (Some "Manifest shell does not match the configured installation shell")
  else if negb (bool_decide (op = deactivate))
          && (negb (payload_runtime payload =? AbsolutePath.value (runtimeExecutable o))%string
              || negb (payload_entrypoint payload =? AbsolutePath.value (agentkeeperEntrypoint o))%string)
  then Ok (Some "Manifest command pair does not match the trusted runtime and CLI entrypoint")
  else if bool_decide (op = activate) && negb (payload_configurationChecksum payload =? configurationChecksum)%string
  then Ok (Some "Installation options differ from the options recorded by the manifest; run `agentkeeper repair` to reconcile them")
  else
    let! expected := if bool_decide (op = deactivate) then allowedArtifacts else expectedArtifacts in
    let! wrong := validate_entries op expected [] (entries payload) in
    match wrong with
    | Some m => Ok (Some m)
    | None =>
        let seen := map entry_id (entries payload) in
        let! missing := if bool_decide (op = deactivate)
                        then Ok (if str_includes seen shell_init_id then None
                                 else Some "Manifest is missing the managed shell initialisation artifact")
                        else let! artifacts := ownedArtifacts in
                             Ok ((λ a, about "Manifest is missing owned artifact" (id a) "")
                                 <$> find (λ a, negb (str_includes seen (id a)) && negb (bool_decide (op = repair))) artifacts) in
        match missing with
        | Some m => Ok (Some m)
        | None => Ok (if str_includes seen "claude-settings" then None else Some "Manifest is missing the Claude settings integration")
        end
    end.

Definition plan (op : InstallationOperation) : M W InstallationPlan :=
  let* mp := mlift manifestPath in
  let* raw := read_ files mp in
  match manifest_of raw with
  | invalid message => mok (failedPlan op [conflict invalid_manifest mp message])
  | absent => if bool_decide (op = activate) then planFirstActivation else mok (successfulPlan op [])
  | valid raw payload =>
      let* validation := mlift (validateManifest payload op) in
      match validation with
      | Some message => mok (failedPlan op [conflict configuration_mismatch mp message])
      | None => if bool_decide (op = deactivate) then planDeactivation raw payload else planInstalled op payload
      end
  end.
End planner.
End ManagedInstallationPlanner.
