(* ===== verification/ManagedLifecycle.v ===== *)
(** * Activation and deactivation (src/infrastructure/install/ManagedInstallation.ts)

    What the plans of ManagedInstallation.v do to the files: an activation claims nothing
    that exists and keeps every byte of the files it shares, a deactivation after it puts
    every file back, and a repair writes only what the manifest already records. *)

From S2P Require Import Prelude JsString JsMap JsNumber Json NodePath Paths Patterns Values Sha256 Ports Installation GrantAccess.
From S2P Require Import Stores Shell ManagedArtifacts ManagedInstallation.
Import JSON ManagedInstallationPlanner.

(** ** Plans and the files *)

Section effects.
Implicit Types (cs : list InstallationChange) (m : Contents).
Lemma elsewhere_effect cs m k : k ∉ map change_key cs → effect cs m !! k = m !! k.
Proof.
  unfold effect. revert m. induction cs as [|c cs IH]; intros m Hk; [done|]. cbn [fold_left map] in *.
  rewrite IH by set_solver. apply lookup_put_ne. set_solver.
Qed.
Lemma effect_at cs m c : NoDup (map change_key cs) → c ∈ cs → effect cs m !! change_key c = after c.
Proof.
  unfold effect. revert m. induction cs as [|d cs IH]; intros m Hn Hc; [by apply elem_of_nil in Hc|].
  cbn [fold_left map] in *. inv Hn. apply elem_of_cons in Hc as [->|Hc]; [|by apply IH].
  pose proof (elsewhere_effect cs (put m (change_key d) (after d)) (change_key d) H1) as E. unfold effect in E. rewrite E.
  unfold put. destruct (after d); [apply lookup_insert_eq|apply lookup_delete_eq].
Qed.
Lemma fits_distinct cs m : NoDup (map change_key cs) → (∀ c, c ∈ cs → m !! change_key c = before c) → fits cs m.
Proof.
  revert m. induction cs as [|c cs IH]; intros m Hn Hb; [done|]. cbn [fits map] in *. inv Hn. split; [apply Hb; by left|].
  apply IH; [done|]. intros d Hd. rewrite lookup_put_ne; [apply Hb; by right|].
  intros E. apply H1. rewrite <-E. by apply list_elem_of_fmap_2.
Qed.
(** Two plans on the same paths: the second undoes the first when it restores each path. *)
Lemma effect_restores cs ds m : NoDup (map change_key cs) → map change_key ds ≡ₚ map change_key cs →
  (∀ d, d ∈ ds → m !! change_key d = after d) → effect ds (effect cs m) = m.
Proof.
  intros Hn Hp Hd. apply map_eq. intros k. destruct (decide (k ∈ map change_key ds)) as [Hk|Hk].
  - apply list_elem_of_fmap in Hk as (d & -> & Hin). rewrite effect_at by (done || by rewrite Hp). by rewrite Hd.
  - rewrite elsewhere_effect by done. rewrite Hp in Hk. by apply elsewhere_effect.
Qed.
End effects.

(** ** Reading without changing *)

Section reading.
Context {W : Type} (files : FileSystem W) `{!FileLaws files}.

(** The computation leaves the files alone and answers what [g] says of them. *)
Definition looks {A} (x : M W A) (g : Contents → A → Prop) : Prop :=
  ∀ w, contents (x w).1 = contents w ∧ ∀ a, (x w).2 = Ok a → g (contents w) a.
Lemma looks_read p : looks (read_ files p) (λ m t, t = m !! AbsolutePath.value p).
Proof. intros w. apply read_law. Qed.
Lemma looks_ok {A} (a : A) : looks (mok a) (λ _ b, b = a).
Proof. intros w. split; [done|]. by intros b [= <-]. Qed.
Lemma looks_lift {A} (r : result A) : looks (mlift r) (λ _ a, r = Ok a).
Proof. intros w. by split. Qed.
Lemma looks_seq {A B} (x : M W A) (f : A → M W B) g h : looks x g → (∀ a, looks (f a) (h a)) →
  looks (mseq x f) (λ m b, ∃ a, g m a ∧ h a m b).
Proof.
  intros Hx Hf w. unfold mseq. destruct (Hx w) as [H1 H2]. destruct (x w) as [w1 [a|e]]; cbn [fst snd] in *; [|by split].
  destruct (Hf a w1) as [H3 H4]. split; [congruence|]. intros b Hb. exists a. split; [by apply H2|]. rewrite <-H1. by apply H4.
Qed.
Lemma looks_mono {A} (x : M W A) g h : looks x g → (∀ m a, g m a → h m a) → looks x h.
Proof. intros Hx Hm w. destruct (Hx w) as [H1 H2]. split; [done|]. intros a Ha. by apply Hm, H2. Qed.
Lemma looks_map {A B} (f : A → M W B) (g : A → Contents → B → Prop) l : (∀ a, looks (f a) (g a)) →
  looks (mmapM f l) (λ m bs, Forall2 (λ a b, g a m b) l bs).
Proof.
  intros Hf. induction l as [|a l IH]; cbn [mmapM].
  - eapply looks_mono; [apply looks_ok|]. by intros m bs ->.
  - eapply looks_mono; [apply looks_seq; [apply Hf|]; intros b; apply looks_seq; [apply IH|]; intros bs; apply looks_ok|].
    intros m bs (b & Hb & bs' & Hbs & ->). by constructor.
Qed.
Lemma looks_run {A} (x : M W A) g w w' a : looks x g → x w = (w', Ok a) → contents w' = contents w ∧ g (contents w) a.
Proof. intros Hx E. destruct (Hx w) as [H1 H2]. rewrite E in H1, H2. split; [done|by apply H2]. Qed.

(** On files that never fail the answer comes. *)
Definition answers {A} (x : M W A) (m : Contents) (a : A) : Prop :=
  ∀ w, contents w = m → ∃ w', x w = (w', Ok a) ∧ contents w' = m.
Lemma answers_read `{!ReliableFiles files} p m : answers (read_ files p) m (m !! AbsolutePath.value p).
Proof.
  intros w <-. destruct (read_ok p w) as [t Ht]. destruct (read_law p w) as [Hc Hr]. specialize (Hr t Ht).
  destruct (read_ files p w) as [w' r]. cbn [fst snd] in *. subst r t. by exists w'.
Qed.
Lemma answers_ok {A} (a : A) m : answers (mok a) m a.
Proof. intros w Hw. by exists w. Qed.
Lemma answers_lift {A} (a : A) m r : r = Ok a → answers (mlift r) m a.
Proof. intros -> w Hw. by exists w. Qed.
Lemma answers_seq {A B} (x : M W A) (f : A → M W B) m a b : answers x m a → answers (f a) m b → answers (mseq x f) m b.
Proof. intros Hx Hf w Hw. destruct (Hx w Hw) as (w1 & E & Hw1). unfold mseq. rewrite E. by apply Hf. Qed.
Lemma answers_mapM {A B} (f : A → M W B) m (g : A → B) l : (∀ a, a ∈ l → answers (f a) m (g a)) → answers (mmapM f l) m (map g l).
Proof.
  induction l as [|a l IH]; intros Hf; cbn [mmapM map]; [apply answers_ok|].
  eapply answers_seq; [apply Hf; by left|]. eapply answers_seq; [apply IH; intros; apply Hf; by right|]. apply answers_ok.
Qed.
End reading.

(** ** The manifest is read back *)

Section manifest.
Context `{Digest}.
Lemma isChecksum_checksum t : isChecksum (checksum t) = true.
Proof. unfold isChecksum, checksum. by rewrite ContentHash.hash_parse_toString by apply sha256_hex_format. Qed.
Definition plain_mode (e : ManifestEntry) : Prop := match entry_mode e with None | Some (Int _) => True | _ => False end.
Lemma nullable_canonical s : canonical (nullable s).
Proof. destruct s; constructor. Qed.
Lemma entry_json_canonical e : plain_mode e → canonical (entry_json e).
Proof.
  unfold plain_mode, entry_json. intros Hm. apply canonical_named; [reflexivity..|]. cbn [fmap list_fmap snd].
  repeat apply Forall_cons_2; try apply Forall_nil_2; try apply nullable_canonical; try apply canonical_string.
  destruct (entry_mode e) as [[]|]; done || constructor.
Qed.
Lemma payload_canonical p : Forall plain_mode (entries p) → canonical (payload_json p).
Proof.
  intros Hm. unfold payload_json. apply canonical_named; [reflexivity..|]. cbn [fmap list_fmap snd].
  repeat apply Forall_cons_2; try apply Forall_nil_2; try apply canonical_string; [apply canonical_int|].
  constructor. apply Forall_map. by eapply Forall_impl; [|apply entry_json_canonical].
Qed.
Lemma parse_entry_json e : parse_entry (entry_json e) = Some e.
Proof. destruct e as [i p [] ic [oc|] [b|] [md|]]; reflexivity. Qed.
Lemma parse_entries es : mapM parse_entry (map entry_json es) = Some es.
Proof. apply mapM_Some. induction es as [|e es IH]; cbn [map]; constructor; [apply parse_entry_json|done]. Qed.
Definition member_list (v : Json) : list (string * Json) := match v with JObject m => m | _ => [] end.
Lemma parsePayload_json p : isChecksum (payload_configurationChecksum p) = true → parsePayload (member_list (payload_json p)) = inl p.
Proof.
  intros Hc. unfold parsePayload, payload_json. cbn [member_list].
  destruct p as [sh r e c es]. cbn [payload_shell payload_runtime payload_entrypoint payload_configurationChecksum entries] in *.
  destruct sh; cbn -[isChecksum mapM map]; by rewrite Hc, parse_entries.
Qed.
Lemma manifest_roundtrip p : Forall plain_mode (entries p) → isChecksum (payload_configurationChecksum p) = true →
  manifest_of (Some (serialiseManifest p)) = valid (serialiseManifest p) p.
Proof.
  intros Hm Hc. unfold manifest_of, serialiseManifest at 1. rewrite (parse_stringify "  " _ nl); [|done|done|].
  - cbn [prop JsMap.get]. change (payload_json p) with (JObject (member_list (payload_json p))).
    match goal with |- context [JsMap.get ?l "checksum"] => change (JsMap.get l "checksum") with (Some (JString (checksum (stringify "" (JObject (member_list (payload_json p))))))) end.
    match goal with |- context [JsMap.get ?l "payload"] => change (JsMap.get l "payload") with (Some (JObject (member_list (payload_json p)))) end.
    cbn [text_of]. rewrite String.eqb_refl. cbn [negb]. by rewrite parsePayload_json.
  - apply canonical_named; [reflexivity..|]. cbn [fmap list_fmap snd]. 
    repeat apply Forall_cons_2; [apply canonical_string|by apply payload_canonical|apply Forall_nil_2].
Qed.
End manifest.

(** ** The first activation *)

Section activation.
Context `{Digest} `{Engine} {W : Type} (files : FileSystem W) `{!FileLaws files} (o : ManagedInstallationOptions).
Implicit Types (m : Contents) (cb : CandidateArtifact * Backup).

(** What a candidate stands for: a generated artifact, a shell profile, or the settings. *)
Definition origin (artifacts : list DesiredArtifact) (c : CandidateArtifact) : Prop :=
  (desired c ∈ artifacts ∧ cbefore c = None)
  ∨ (∃ i p, profiles o !! i = Some p ∧ id c = profile_id o i ∧ path c = p ∧ ownership c = shared ∧ mode c = None
        ∧ ∃ block, content c = appendProfileBlock (cbefore c) block)
  ∨ (id c = "claude-settings" ∧ path c = claudeSettings o ∧ ownership c = shared ∧ mode c = None
        ∧ renderClaudeSettings (runtimeExecutable o) (agentkeeperEntrypoint o) (shell o) (cbefore c) = inl (content c)).
(** Where the bytes of a file that exists are kept. *)
Definition backed_up_at m cb : Prop :=
  match cbefore cb.1 with
  | None => cb.2 = None
  | Some _ => ∃ q, cb.2 = Some (q, None) ∧ backupPath o (path cb.1) = Ok q ∧ m !! AbsolutePath.value q = None
  end.
Definition planned m cb : Prop := cbefore cb.1 = m !! AbsolutePath.value (path cb.1) ∧ backed_up_at m cb.

Definition activation_changes (mp : AbsolutePath) (cbs : list (CandidateArtifact * Backup)) : list InstallationChange :=
  omap backup_change cbs ++ map target_change (map fst cbs)
  ++ [change mp None (Some (serialiseManifest (new_payload o (map manifest_entry cbs))))
        "Commit the managed installation manifest and content checksums" (Some MODE_0600)].

Lemma duplicates_none {A} (key : A → string) report seen l : duplicates key report seen l = [] →
  NoDup (map key l) ∧ ∀ x, x ∈ l → key x ∉ seen.
Proof.
  revert seen. induction l as [|x l IH]; intros seen; cbn [duplicates map]; [split; [constructor|set_solver]|].
  intros [Hx Hl]%app_nil. destruct (str_includes seen (key x)) eqn:E; [done|]. apply IH in Hl as [Hn Hs]. split.
  - constructor; [|done]. intros Hin. apply list_elem_of_fmap in Hin as (y & Hy & Hyl). apply (Hs y Hyl). rewrite <-Hy. by left.
  - intros y [->|Hy]%elem_of_cons; [|intros Hin; apply (Hs y Hy); by right]. intros Hin. apply str_includes_true in Hin. congruence.
Qed.

Lemma owned_ok artifacts m : (owned_candidates (combine artifacts (map (λ a, m !! AbsolutePath.value (path a)) artifacts))).1 = [] →
  (owned_candidates (combine artifacts (map (λ a, m !! AbsolutePath.value (path a)) artifacts))).2 = map (λ a, mkCandidate a None) artifacts
  ∧ ∀ a, a ∈ artifacts → m !! AbsolutePath.value (path a) = None.
Proof.
  unfold owned_candidates. cbn [fst snd]. induction artifacts as [|a l IH]; [split; [done|set_solver]|].
  cbn [map combine omap list_omap fst snd]. destruct (m !! AbsolutePath.value (path a)) eqn:E; [done|].
  intros Hl. destruct (IH Hl) as [E1 E2]. split; [cbn; by f_equal|]. intros x [->|Hx]%elem_of_cons; [done|by apply E2].
Qed.
Lemma profiles_ok i l m r : profile_candidates o i (combine l (map (λ p, m !! AbsolutePath.value p) l)) = Ok r →
  ∀ c : CandidateArtifact, c ∈ r.2 → ∃ j p, l !! j = Some p ∧ id c = profile_id o (i + j) ∧ path c = p ∧ ownership c = shared ∧ mode c = None
     ∧ cbefore c = m !! AbsolutePath.value p ∧ ∃ block, content c = appendProfileBlock (cbefore c) block.
Proof.
  revert i r. induction l as [|p l IH]; intros i r; cbn [map combine profile_candidates]; [intros <-%Ok_inj c Hc; by apply elem_of_nil in Hc|].
  set (t := m !! AbsolutePath.value p). destruct (if bool_decide (t = None) && bool_decide (shell o = posix_shell) then Ok "" else profileBlock o) as [block|]; [|done].
  cbn [rbind]. destruct (profile_candidates o (S i) _) as [rest|] eqn:Er; [|done]. cbn [rbind]. intros <-%Ok_inj c.
  assert (c ∈ rest.2 → ∃ j q, (p :: l) !! j = Some q ∧ id c = profile_id o (i + j) ∧ path c = q ∧ ownership c = shared ∧ mode c = None
     ∧ cbefore c = m !! AbsolutePath.value q ∧ ∃ block, content c = appendProfileBlock (cbefore c) block) as Hrest.
  { intros Hc. destruct (IH _ _ Er c Hc) as (j & q & Hj & Hid & Hr). exists (S j), q. split; [done|].
    split; [rewrite Hid; f_equal; lia|done]. }
  unfold profile_candidate. destruct (bool_decide (t = None) && _); [done|]. destruct (match t with Some t0 => hasAnyManagedMarker t0 | None => false end); [done|].
  cbn [snd]. intros [->|Hc]%elem_of_cons; [|by apply Hrest]. exists 0, p. cbn. rewrite Nat.add_0_r. split_and!; try done. by exists block.
Qed.
Lemma settings_ok before (c : CandidateArtifact) : settings_candidate o before = inr c → origin [] c ∧ cbefore c = before ∧ id c = "claude-settings" ∧ path c = claudeSettings o.
Proof.
  unfold settings_candidate. destruct (renderClaudeSettings _ _ _ _) as [t|] eqn:E; [|done]. intros [= <-]. split_and!; try done.
  right. right. by split_and!.
Qed.
Lemma origin_more l k (c : CandidateArtifact) : origin l c → (∀ a, a ∈ l → a ∈ k) → origin k c.
Proof. intros [[Hc Hb]|[Hc|Hc]] Hs; [left; split; [by apply Hs|done]|right; by left|by right; right]. Qed.

Lemma looks_backup c : looks files (read_backup files o c) (λ m b, match cbefore c with
  | None => b = None
  | Some _ => ∃ q, backupPath o (path c) = Ok q ∧ b = Some (q, m !! AbsolutePath.value q) end).
Proof.
  unfold read_backup. destruct (cbefore c); [|apply looks_ok].
  eapply looks_mono; [apply looks_seq; [apply looks_lift|]; intros q; apply looks_seq; [apply looks_read|]; intros t; apply looks_ok|].
  cbn. intros m b (q & Hq & t & -> & ->). by exists q.
Qed.
Lemma Forall2_map_r {A B} (g : A → B) l k : Forall2 (λ a b, b = g a) l k → k = map g l.
Proof. induction 1; [done|]. cbn. by f_equal. Qed.

Lemma Forall2_combine {A B} (R : A → B → Prop) l k : Forall2 R l k →
  map fst (combine l k) = l ∧ Forall (λ ab, R ab.1 ab.2) (combine l k).
Proof. induction 1 as [|a b l k Hab _ [IH1 IH2]]; cbn; [by split|]. by rewrite IH1; split; [|constructor]. Qed.

Lemma first_activation w w' p : planFirstActivation files o w = (w', Ok p) → conflicts p = [] →
  contents w' = contents w ∧ ∃ artifacts mp cbs, ownedArtifacts o = Ok artifacts ∧ manifestPath o = Ok mp
   ∧ changes p = activation_changes mp cbs ∧ NoDup (map change_key (changes p))
   ∧ Forall (planned (contents w)) cbs ∧ Forall (λ cb, origin artifacts cb.1) cbs
   ∧ (∀ a, a ∈ artifacts → mkCandidate a None ∈ map fst cbs) ∧ ∃ c : CandidateArtifact, c ∈ map fst cbs ∧ id c = "claude-settings".
Proof.
  unfold planFirstActivation. intros (w1 & cs0 & E1 & E)%mseq_Ok. injection E1 as <- _.
  destruct (0 <? length cs0) eqn:Ec; [injection E as _ <-; cbn [conflicts failedPlan]; intros ->; done|]. clear Ec cs0.
  apply mseq_Ok in E as (w1 & artifacts & E1 & E). injection E1 as <- Ha.
  apply mseq_Ok in E as (w1 & ownedBefore & E1 & E). eapply (looks_run files) in E1 as [H1 Hown]; [|apply looks_map; intros a; apply looks_read].
  apply mseq_Ok in E as (w2 & profileBefore & E1 & E). eapply (looks_run files) in E1 as [H2 Hprof]; [|apply looks_map; intros a; apply looks_read].
  apply mseq_Ok in E as (w3 & before & E1 & E). eapply (looks_run files) in E1 as [H3 Hset]; [|apply looks_read].
  apply mseq_Ok in E as (w4 & prof & E1 & E). injection E1 as <- Hp.
  apply mseq_Ok in E as (w4 & backups & E1 & E). eapply (looks_run files) in E1 as [H4 Hback]; [|apply looks_map; intros c; apply looks_backup].
  apply mseq_Ok in E as (w5 & mp & E1 & E). injection E1 as <- Hmp.
  apply Forall2_map_r in Hown as ->. apply Forall2_map_r in Hprof as ->. rewrite H2, H1 in *. clear w1 w2 H1 H2.
  match type of E with (if 0 <? length ?cl then _ else _) _ = _ => remember cl as all eqn:Econf end.
  destruct all as [|x all]; [|injection E as _ <-; done]. symmetry in Econf. apply mok_Ok in E as [-> ->]. intros _. split; [congruence|].
  apply app_nil in Econf as [Hc1 Econf]. apply app_nil in Econf as [Hbc Hdup]. apply app_nil in Hc1 as [Ho1 Hc1].
  apply app_nil in Hc1 as [Hp1 Hc1]. apply app_nil in Hc1 as [Hs1 _].
  destruct (settings_candidate o before) as [c|settings] eqn:Es; [done|].
  destruct (owned_ok artifacts (contents w) Ho1) as [Ho2 Hnone]. rewrite Ho2 in *.
  set (cands := map (λ a, mkCandidate a None) artifacts ++ prof.2 ++ [settings]) in *.
  destruct (Forall2_combine _ _ _ Hback) as [Hfst Hb].
  exists artifacts, mp, (combine cands backups). cbn [changes successfulPlan]. unfold activation_changes. rewrite Hfst.
  split; [done|]. split; [done|]. split; [done|].
  split.
  { apply duplicates_none in Hdup as [Hn _]. rewrite !map_app in *. exact Hn. }
  assert (∀ c, c ∈ cands → origin artifacts c ∧ cbefore c = contents w !! AbsolutePath.value (path c)) as Hcand.
  { intros c. unfold cands. rewrite !elem_of_app, list_elem_of_singleton, list_elem_of_fmap. intros [(a & -> & Hin)|[Hin| ->]].
    - split; [by left|]. cbn. symmetry. by apply Hnone.
    - destruct (profiles_ok 0 _ _ _ Hp c Hin) as (j & q & Hj & Hid & Hpath & Hsh & Hmode & Hbe & Hblock).
      split; [|by rewrite Hpath]. right. left. by exists j, q.
    - destruct (settings_ok _ _ Es) as (Hor & Hbe & _ & Hpath). split; [eapply origin_more; [done|set_solver]|].
      rewrite Hbe, Hpath, Hset. congruence. }
  assert (∀ cb, cb ∈ combine cands backups → cb.1 ∈ cands) as Hin.
  { intros cb Hcb. rewrite <-Hfst. by apply list_elem_of_fmap_2. }
  assert (∀ x : InstallationConflict, x ∉ omap backup_conflict (combine cands backups)) as Hnb by (rewrite Hbc; set_solver).
  split_and!.
  - apply Forall_forall. intros cb Hcb. split; [by apply Hcand, Hin|]. rewrite Forall_forall in Hb. specialize (Hb cb Hcb). cbn in Hb.
    unfold backed_up_at. destruct (cbefore cb.1); [|done]. destruct Hb as (q & Hq & Hbq). rewrite H3 in Hbq. exists q.
    destruct (contents w !! AbsolutePath.value q) eqn:E; [|done].
    exfalso. eapply Hnb, list_elem_of_omap. exists cb. split; [done|]. unfold backup_conflict. by rewrite Hbq.
  - apply Forall_forall. intros cb Hcb. by apply Hcand, Hin.
  - intros a Hina.
    apply elem_of_app. left. by apply (list_elem_of_fmap_2 (λ a, mkCandidate a None)).
  - exists settings. destruct (settings_ok _ _ Es) as (_ & _ & ? & _). split; [|done].
    unfold cands. set_solver.
Qed.
(** A plan to activate where nothing is installed. *)
Lemma plan_activation w w1 p mp : manifestPath o = Ok mp → contents w !! AbsolutePath.value mp = None →
  plan files o activate w = (w1, Ok p) → conflicts p = [] →
  contents w1 = contents w ∧ ∃ artifacts cbs, ownedArtifacts o = Ok artifacts
   ∧ changes p = activation_changes mp cbs ∧ NoDup (map change_key (changes p))
   ∧ Forall (planned (contents w)) cbs ∧ Forall (λ cb, origin artifacts cb.1) cbs
   ∧ (∀ a, a ∈ artifacts → mkCandidate a None ∈ map fst cbs) ∧ ∃ c : CandidateArtifact, c ∈ map fst cbs ∧ id c = "claude-settings".
Proof.
  intros Hmp Habs Hplan Hc. unfold plan in Hplan. rewrite Hmp in Hplan.
  apply mseq_Ok in Hplan as (wa & q & Ea & Hplan). apply mok_Ok in Ea as [-> ->].
  apply mseq_Ok in Hplan as (wa & raw & Ea & Hplan). eapply (looks_run files) in Ea as [Ha Hraw]; [|apply looks_read].
  rewrite Hraw, Habs in Hplan. cbn [manifest_of] in Hplan. change (bool_decide (activate = activate)) with true in Hplan. cbv iota in Hplan.
  destruct (first_activation wa w1 p Hplan Hc) as (Hw1 & artifacts & mp' & cbs & Hart & Hmp' & Hcs).
  rewrite Hmp in Hmp'. apply Ok_inj in Hmp' as <-. rewrite Ha in *. split; [done|]. by exists artifacts, cbs.
Qed.
End activation.

(** ** Deactivation *)

Section deactivation.
Import PosixText.
Context `{Digest} `{Engine}.
Implicit Types (o : ManagedInstallationOptions) (m : Contents) (cb : CandidateArtifact * Backup).

(** The ids the planner may use. *)
Fixpoint profile_ids o (index : nat) (l : list AbsolutePath) : list string :=
  match l with [] => [] | _ :: r => profile_id o index :: profile_ids o (S index) r end.
Definition shim_ids o (a : ManagedAgent) : list string :=
  match shell o with posix_shell => [shim_id o a] | powershell => [shim_id o a; cmd_id a] end.
Definition allowed_ids o : list string :=
  shell_init_id o :: concat (map (shim_ids o) MANAGED_AGENTS) ++ map owned_id (additionalOwnedArtifacts o)
  ++ profile_ids o 0 (profiles o) ++ ["claude-settings"].

(** Options whose paths are ordinary and whose ids do not collide. *)
Record usable o : Prop := mkUsable {
  usable_state : plain_path (stateDir o);
  usable_paths : ∀ p, p ∈ profiles o ++ claudeSettings o :: map owned_path (additionalOwnedArtifacts o) → plain_path p;
  usable_ids : NoDup (allowed_ids o)
}.
(** Options that name the same files: the runtime, the command and the agents may differ. *)
Record same_layout o o' : Prop := mkLayout {
  layout_shell : shell o' = shell o;
  layout_state : stateDir o' = stateDir o;
  layout_profiles : profiles o' = profiles o;
  layout_settings : claudeSettings o' = claudeSettings o;
  layout_additional : map allowed_additional (additionalOwnedArtifacts o') = map allowed_additional (additionalOwnedArtifacts o)
}.
Lemma allowed_layout o o' : same_layout o o' → allowedArtifacts o' = allowedArtifacts o.
Proof.
  intros [H1 H2 H3 H4 H5]. destruct o, o'. cbn in *. subst. unfold allowedArtifacts, shared_artifacts.
  cbn [additionalOwnedArtifacts]. rewrite H5. reflexivity.
Qed.

Ltac good_names := repeat apply Forall_cons_2; try apply Forall_nil_2; try (apply plain_good; [reflexivity|cbn; lia]).
Lemma backup_ok o p : usable o → ∃ q, backupPath o p = Ok q ∧ plain_path q.
Proof.
  intros Hu. unfold backupPath. set (d := sdrop 7 _).
  assert (hex_string 64 d = true) as [Hl Hh]%andb_true_iff by apply sha256_hex_format. apply Nat.eqb_eq in Hl.
  change ("installation/backups/" +:+ d +:+ ".original") with (join "/" ["installation"; "backups"; d +:+ ".original"]).
  apply plain_join; [apply Hu|done|]. good_names.
  apply plain_good; [rewrite sforall_app, lower_hex_plain by done; reflexivity|rewrite slen_app; lia].
Qed.
Lemma manifest_ok o : usable o → ∃ q, manifestPath o = Ok q ∧ plain_path q.
Proof. intros Hu. apply (plain_join _ ["installation"; "manifest.json"]); [apply Hu|done|good_names]. Qed.
Lemma init_ok o : usable o → ∃ q, shell_init_path o = Ok q ∧ plain_path q.
Proof.
  intros Hu. unfold shell_init_path, shell_extension.
  destruct (shell o); [apply (plain_join _ ["shell"; "agentkeeper.sh"])|apply (plain_join _ ["shell"; "agentkeeper.ps1"])];
    (apply Hu || done || good_names).
Qed.
Lemma directory_ok o : usable o → ∃ q, shimDirectory o = Ok q ∧ plain_path q.
Proof.
  intros Hu. unfold shimDirectory.
  destruct (shell o); [apply (plain_join _ ["shims"; "posix"])|apply (plain_join _ ["shims"; "powershell"])]; (apply Hu || done || good_names).
Qed.

(** The same claim on a path. *)
Definition same (a c : DesiredArtifact) : Prop := id a = id c ∧ path a = path c ∧ ownership a = ownership c ∧ mode a = mode c.
Lemma allowed_shims_ok o d a : plain_path d → ∃ l, allowed_shims o d a = Ok l ∧ map id l = shim_ids o a ∧ Forall (λ x, plain_path (path x)) l
  ∧ ∀ t ls c, shims_of o d (a, t) = Ok ls → c ∈ ls → ∃ x, x ∈ l ∧ same x c.
Proof.
  intros Hd. unfold allowed_shims, shims_of, shim_ids.
  destruct (plain_join d [shim_file o a]) as (p & Hp & Hpp); [done..| |].
  { unfold shim_file. destruct (shell o), a; good_names. }
  cbn [join] in Hp. rewrite Hp. cbn [rbind]. destruct (shell o).
  - eexists. split; [done|]. split; [done|]. split; [by repeat constructor|].
    intros t ls c <-%Ok_inj ->%list_elem_of_singleton. eexists. split; [by left|]. done.
  - destruct (plain_join d [agent_name a +:+ ".cmd"]) as (q & Hq & Hqq); [done..| |]; [destruct a; good_names|].
    cbn [join] in Hq. rewrite Hq. cbn [rbind]. eexists. split; [done|]. split; [done|]. split; [by repeat constructor|].
    intros t ls c <-%Ok_inj [->|[->|[]%elem_of_nil]%elem_of_cons]%elem_of_cons.
    + eexists. split; [by left|done].
    + eexists. split; [right; by left|done].
Qed.

Lemma profile_artifacts_ids o i l : map id (profile_artifacts o i l) = profile_ids o i l.
Proof. revert i. induction l as [|p l IH]; intros i; [done|]. cbn. by rewrite IH. Qed.
Lemma profile_artifacts_in o i j l p : l !! j = Some p → blank (profile_id o (i + j)) p shared None ∈ profile_artifacts o i l.
Proof.
  revert i j. induction l as [|q l IH]; intros i [|j]; [done..| |]; cbn.
  - intros [= ->]. rewrite Nat.add_0_r. by left.
  - intros Hj. right. replace (i + S j) with (S i + j) by lia. by apply IH.
Qed.
Lemma profile_artifacts_path o i l x : x ∈ profile_artifacts o i l → path x ∈ l.
Proof.
  revert i. induction l as [|p l IH]; intros i; cbn; [by intros ?%elem_of_nil|].
  intros [->|Hx]%elem_of_cons; [by left|right; by eapply IH].
Qed.
Lemma Forall2_total {A B} (R : A → B → Prop) l : (∀ a, a ∈ l → ∃ b, R a b) → ∃ bs, Forall2 R l bs.
Proof.
  induction l as [|a l IH]; intros Hl; [by exists []|].
  destruct (Hl a) as [b Hb]; [by left|]. destruct IH as [bs Hbs]; [intros; apply Hl; by right|]. exists (b :: bs). by constructor.
Qed.

(** Every claim of an activation is among the allowed ones. *)
Lemma allowed_ok o : usable o → ∃ l, allowedArtifacts o = Ok (JsMap.of_list id l) ∧ map id l = allowed_ids o
  ∧ (∀ a, a ∈ l → plain_path (path a))
  ∧ ∀ artifacts (c : CandidateArtifact), ownedArtifacts o = Ok artifacts → origin o artifacts c → ∃ a, a ∈ l ∧ same a c.
Proof.
  intros Hu. destruct (directory_ok o Hu) as (d & Hd & Hdp), (init_ok o Hu) as (i & Hi & Hip).
  unfold allowedArtifacts, ownedArtifacts. rewrite Hd, Hi. cbn [rbind].
  destruct (Forall2_total (λ a l, allowed_shims o d a = Ok l ∧ map id l = shim_ids o a ∧ Forall (λ x, plain_path (path x)) l
     ∧ ∀ t ls c, shims_of o d (a, t) = Ok ls → c ∈ ls → ∃ x, x ∈ l ∧ same x c) MANAGED_AGENTS) as [ls Hls].
  { intros a _. by apply allowed_shims_ok. }
  assert (rmapM (allowed_shims o d) MANAGED_AGENTS = Ok ls) as -> by (apply rmapM_Ok; eapply Forall2_impl; [exact Hls|by intros ?? [? _]]).
  cbn [rbind]. eexists. split; [done|]. split_and!.
  - cbn [map id blank]. unfold allowed_ids. f_equal. rewrite !map_app. f_equal.
    { rewrite concat_map. f_equal. clear -Hls. induction Hls as [|? ? ? ? Hx _ IH]; [done|]. cbn [map]. f_equal; [apply Hx|done]. }
    unfold shared_artifacts. rewrite map_app, profile_artifacts_ids, map_map. done.
  - intros a [->|Ha]%elem_of_cons; [done|]. apply elem_of_app in Ha as [Ha|Ha].
    + apply elem_of_concat in Ha as (l & Ha & Hl). apply list_elem_of_lookup in Hl as [n Hn].
      destruct (Forall2_lookup_r _ _ _ _ _ Hls Hn) as (ag & _ & _ & _ & Hf & _). rewrite Forall_forall in Hf. by apply Hf.
    + apply (usable_paths o Hu). unfold shared_artifacts in Ha. rewrite !elem_of_app in Ha. rewrite elem_of_app, elem_of_cons.
      destruct Ha as [Ha|[Ha|Ha]].
      * right. right. apply list_elem_of_fmap in Ha as (x & -> & Hx). by apply (list_elem_of_fmap_2 owned_path).
      * left. by eapply profile_artifacts_path.
      * apply list_elem_of_singleton in Ha as ->. right. by left.
  - intros artifacts c Ha Hc. destruct Hc as [[Hc Hb]|[(j & p & Hj & Hid & Hp & How & Hm & _)|(Hid & Hp & How & Hm & _)]].
    + destruct (rmapM (shims_of o d) (agentTargets o)) as [ss|] eqn:Es; [|done]. apply Ok_inj in Ha as <-.
      apply elem_of_cons in Hc as [Hc|Hc].
      { eexists. split; [by left|]. rewrite Hc. done. }
      apply elem_of_app in Hc as [Hc|Hc].
      * apply elem_of_concat in Hc as (s & Hc & Hs). apply rmapM_Ok in Es. apply list_elem_of_lookup in Hs as [n Hn].
        destruct (Forall2_lookup_r _ _ _ _ _ Es Hn) as ([ag t] & _ & Hst).
        assert (ag ∈ MANAGED_AGENTS) as Hag by (destruct ag; set_solver). apply list_elem_of_lookup in Hag as [k Hk].
        destruct (Forall2_lookup_l _ _ _ _ _ Hls Hk) as (l & Hl & _ & _ & _ & Hsame).
        destruct (Hsame t s c Hst Hc) as (x & Hx & Hs). exists x. split; [|done].
        right. apply elem_of_app. left. apply elem_of_concat. exists l. split; [done|]. by eapply list_elem_of_lookup_2.
      * apply list_elem_of_fmap in Hc as (x & Hx & Hin). exists (allowed_additional x). split; [|by rewrite Hx].
        right. rewrite !elem_of_app. right. left. by apply (list_elem_of_fmap_2 allowed_additional).
    + exists (blank (profile_id o j) p shared None). split; [|by split_and!]. right. unfold shared_artifacts. rewrite !elem_of_app. right. right. left.
      by apply (profile_artifacts_in o 0 j).
    + exists (blank "claude-settings" (claudeSettings o) shared None). split; [|by split_and!]. right. unfold shared_artifacts.
      rewrite !elem_of_app. right. right. right. by left.
Qed.
End deactivation.

(** ** Deactivation undoes the activation *)

Section restoring.
Import PosixText.
Context `{Digest} `{Engine} {W : Type} (files : FileSystem W) `{!FileLaws files} `{!ReliableFiles files}.
Implicit Types (o : ManagedInstallationOptions) (m : Contents) (cb : CandidateArtifact * Backup).

Lemma activation_target o mp cbs cb : cb ∈ cbs → target_change cb.1 ∈ activation_changes o mp cbs.
Proof. intros Hcb. unfold activation_changes. rewrite !elem_of_app. right. left. by apply (list_elem_of_fmap_2 target_change), list_elem_of_fmap_2. Qed.
Lemma activation_backup o mp cbs cb c : cb ∈ cbs → backup_change cb = Some c → c ∈ activation_changes o mp cbs.
Proof. intros Hcb Hc. unfold activation_changes. rewrite !elem_of_app. left. apply list_elem_of_omap. by exists cb. Qed.

(** What deactivation finds for one entry. *)
Definition snap_of cb : Snapshot := mkSnapshot (manifest_entry cb) (Some (content cb.1)) (cbefore cb.1).
Definition removal_of cb : InstallationChange :=
  change (path cb.1) (Some (content cb.1)) (cbefore cb.1) ("Remove managed artifact " +:+ id cb.1) None.
Definition backup_removal_of cb : option InstallationChange :=
  (λ b : AbsolutePath * option string, change b.1 (cbefore cb.1) None ("Remove backup for " +:+ id cb.1) None) <$> cb.2.

(** One installed candidate. *)
Record installed o m cb : Prop := mkInstalled {
  installed_path : plain_path (path cb.1);
  installed_text : m !! AbsolutePath.value (path cb.1) = Some (content cb.1);
  installed_backup : match cbefore cb.1 with
    | None => cb.2 = None
    | Some t => ∃ q, cb.2 = Some (q, None) ∧ backupPath o (path cb.1) = Ok q ∧ plain_path q ∧ m !! AbsolutePath.value q = Some t
    end
}.
Lemma answers_read_at p m : plain_path p → answers files (read_at files (AbsolutePath.value p)) m (m !! AbsolutePath.value p).
Proof. intros Hp. unfold read_at. eapply answers_seq; [apply answers_lift; by apply plain_read|]. by apply answers_read. Qed.
Lemma snapshot_installed o m cb : installed o m cb → answers files (snapshot files (manifest_entry cb)) m (snap_of cb).
Proof.
  intros [Hp Ht Hb]. unfold snapshot. cbn [entry_path entry_backupPath manifest_entry].
  eapply answers_seq; [by apply answers_read_at|]. rewrite Ht.
  eapply (answers_seq files _ _ _ (cbefore cb.1)); [|apply answers_ok].
  destruct (cbefore cb.1) as [t|]; [|rewrite Hb; apply answers_ok].
  destruct Hb as (q & -> & _ & Hq & <-). cbn. by apply answers_read_at.
Qed.
Lemma conflicts_installed o m cb : installed o m cb → snapshot_conflicts (snap_of cb) = Ok [].
Proof.
  intros [Hp Ht Hb]. unfold snapshot_conflicts, snap_of. cbn [snap_entry entry_path manifest_entry current backup entry_backupPath installedChecksum originalChecksum].
  rewrite (plain_read _ Hp). cbn [rbind holds_checksum]. rewrite String.eqb_refl.
  destruct (cbefore cb.1) as [t|]; [|by rewrite Hb]. destruct Hb as (q & -> & _). cbn [fmap option_fmap option_map fst].
  by rewrite bool_decide_true.
Qed.
Lemma removal_installed o m cb : installed o m cb → removal (snap_of cb) = Ok (removal_of cb).
Proof. intros [Hp _ _]. unfold removal, snap_of. cbn [snap_entry entry_path manifest_entry]. by rewrite (plain_read _ Hp). Qed.
Lemma backup_removal_installed o m cb : installed o m cb → backup_removal (snap_of cb) = Ok (backup_removal_of cb).
Proof.
  intros [_ _ Hb]. unfold backup_removal, backup_removal_of, snap_of. cbn [snap_entry entry_backupPath manifest_entry backup].
  destruct (cbefore cb.1) as [t|]; [|by rewrite Hb]. destruct Hb as (q & -> & _ & Hq & _). cbn. by rewrite (plain_read _ Hq).
Qed.
Lemma rmapM_map {A B C} (f : A → result B) (s : C → A) (g : C → B) l : (∀ c, c ∈ l → f (s c) = Ok (g c)) → rmapM f (map s l) = Ok (map g l).
Proof. intros Hl. apply rmapM_Ok. induction l as [|c l IH]; constructor; [apply Hl; by left|apply IH; intros; apply Hl; by right]. Qed.
Lemma answers_map_over {A B C} (f : A → M W B) m (s : C → A) (g : C → B) l :
  (∀ c, c ∈ l → answers files (f (s c)) m (g c)) → answers files (mmapM f (map s l)) m (map g l).
Proof.
  induction l as [|c l IH]; intros Hl; cbn [mmapM map]; [apply answers_ok|].
  eapply answers_seq; [apply Hl; by left|]. eapply answers_seq; [apply IH; intros; apply Hl; by right|]. apply answers_ok.
Qed.

Definition deactivation_changes (mp : AbsolutePath) (raw : string) (cbs : list (CandidateArtifact * Backup)) : list InstallationChange :=
  map removal_of (rev cbs) ++ omap backup_removal_of (rev cbs)
  ++ [change mp (Some raw) None "Remove managed installation manifest" None].
Lemma answers_deactivation o m mp raw cbs p : Forall (installed o m) cbs → manifestPath o = Ok mp →
  entries p = map manifest_entry cbs →
  answers files (planDeactivation files o raw p) m (successfulPlan deactivate (deactivation_changes mp raw cbs)).
Proof.
  intros Hi Hmp He. rewrite Forall_forall in Hi. unfold planDeactivation. rewrite He.
  eapply answers_seq; [apply (answers_map_over _ _ _ snap_of); intros cb Hcb; by eapply snapshot_installed, Hi|].
  eapply answers_seq; [apply answers_lift, (rmapM_map _ _ (λ _, [])); intros cb Hcb; by eapply conflicts_installed, Hi|].
  assert (concat (map (λ _, []) cbs) = ([] : list InstallationConflict)) as -> by (clear; by induction cbs).
  cbn [length Nat.ltb Nat.leb]. rewrite <-map_rev.
  assert (∀ cb, cb ∈ rev cbs → installed o m cb) as Hr.
  { intros cb Hcb. apply Hi. by rewrite list_elem_of_In, in_rev, <-list_elem_of_In. }
  eapply answers_seq; [apply answers_lift, (rmapM_map _ _ removal_of); intros cb Hcb; by eapply removal_installed, Hr|].
  eapply answers_seq; [apply answers_lift, (rmapM_map _ _ backup_removal_of); intros cb Hcb; by eapply backup_removal_installed, Hr|].
  eapply answers_seq; [by apply answers_lift|].
  assert (omap (λ c, c) (map backup_removal_of (rev cbs)) = omap backup_removal_of (rev cbs)) as ->.
  { clear. induction (rev cbs) as [|cb l IH]; [done|]. cbn. destruct (backup_removal_of cb); by rewrite IH. }
  apply answers_ok.
Qed.
End restoring.

Section undoing.
Import PosixText.
Context `{Digest} `{Engine} {W : Type} (files : FileSystem W) `{!FileLaws files}.
Implicit Types (o : ManagedInstallationOptions) (m : Contents) (cb : CandidateArtifact * Backup).

Lemma number_eqb_int z : number_eqb (Int z) (Int z) = true.
Proof. by apply bool_decide_true. Qed.
Lemma validate_installed o o' m l cb a : same_layout o o' → NoDup (map id l) → a ∈ l → same a cb.1 → installed o m cb →
  validate_entry o' deactivate (JsMap.of_list id l) (manifest_entry cb) = Ok None.
Proof.
  intros Hlay Hn Ha (Hid & Hp & How & Hm) [Hpp _ Hb]. unfold validate_entry.
  cbn [entry_id manifest_entry entry_path entry_ownership entry_mode installedChecksum originalChecksum entry_backupPath].
  rewrite <-Hid, (JsMap.get_of_list_in id l a), Hp, How, Hm by done. rewrite String.eqb_refl, bool_decide_true by done. cbn [negb orb].
  assert (mode_matches (Int <$> mode cb.1) (mode cb.1) = true) as ->.
  { destruct (mode cb.1); [|done]. apply number_eqb_int. }
  rewrite isChecksum_checksum. cbn [negb]. change (bool_decide (deactivate = deactivate)) with true. rewrite andb_false_r.
  destruct (cbefore cb.1) as [t|]; cbn [fmap option_fmap option_map].
  - destruct Hb as (q & -> & Hq & _). cbn [fmap option_fmap option_map fst]. rewrite isChecksum_checksum.
    rewrite !bool_decide_false by done. cbn [negb Bool.eqb].
    assert (backupPath o' (path cb.1) = Ok q) as ->.
    { unfold backupPath in *. by rewrite (layout_state _ _ Hlay). }
    cbn [rbind]. by rewrite String.eqb_refl.
  - rewrite Hb. cbn. done.
Qed.
Lemma validate_all o' l es seen : NoDup (map entry_id es) → (∀ e, e ∈ es → entry_id e ∉ seen) →
  (∀ e, e ∈ es → validate_entry o' deactivate l e = Ok None) → validate_entries o' deactivate l seen es = Ok None.
Proof.
  revert seen. induction es as [|e es IH]; intros seen Hn Hs Hv; [done|]. cbn [validate_entries map] in *. inv Hn.
  assert (str_includes seen (entry_id e) = false) as ->.
  { apply not_true_iff_false. rewrite str_includes_true. apply Hs. by left. }
  rewrite Hv by by left. cbn [rbind]. apply IH; [done| |intros; apply Hv; by right].
  intros d Hd [Hin|Hin]%elem_of_cons; [|by apply (Hs d); [right|]]. apply H3. rewrite <-Hin. by apply list_elem_of_fmap_2.
Qed.
Lemma NoDup_key {A B C} `{EqDecision B} (f : A → B) (g : A → C) l : NoDup (map f l) →
  (∀ x y, x ∈ l → y ∈ l → g x = g y → f x = f y) → NoDup (map g l).
Proof.
  induction l as [|x l IH]; cbn [map]; intros Hn Hi; [constructor|]. inv Hn. constructor.
  - intros (y & Hy & Hin)%list_elem_of_fmap. apply H3. rewrite (Hi x y); [by apply list_elem_of_fmap_2|by left|by right|done].
  - apply IH; [done|]. intros y z Hy Hz. apply Hi; by right.
Qed.

(** After the activation every candidate is installed. *)
Lemma activation_installed o w artifacts mp cbs cs :
  usable o → ownedArtifacts o = Ok artifacts → cs = activation_changes o mp cbs → NoDup (map change_key cs) →
  Forall (planned o (contents w)) cbs → Forall (λ cb, origin o artifacts cb.1) cbs →
  Forall (installed o (effect cs (contents w))) cbs.
Proof.
  intros Hu Ha -> Hn Hp Ho. destruct (allowed_ok o Hu) as (l & _ & _ & Hl & Hsame).
  rewrite !Forall_forall in *. intros cb Hcb. destruct (Hp cb Hcb) as [Hbe Hb]. split.
  - destruct (Hsame artifacts cb.1 Ha (Ho cb Hcb)) as (a & Hin & _ & <- & _). by apply Hl.
  - exact (effect_at _ _ (target_change cb.1) Hn (activation_target o mp cbs cb Hcb)).
  - unfold backed_up_at in Hb. destruct (cbefore cb.1) as [t|] eqn:Et; [|done].
    destruct Hb as (q & Hcq & Hq & Hnone). exists q. split_and!; [done|done| |].
    + destruct (backup_ok o (path cb.1) Hu) as (q' & Hq' & Hpp). rewrite Hq in Hq'. by apply Ok_inj in Hq' as <-.
    + assert (∃ text md, backup_change cb = Some (change q None (Some t) text md)) as (text & md & Hc).
      { unfold backup_change. rewrite Hcq, Et. by eexists _, _. }
      exact (effect_at _ _ _ Hn (activation_backup o mp cbs cb _ Hcb Hc)).
Qed.

(** Every change finds the files as they were when it was planned. *)
Lemma activation_fresh o m mp cbs c : m !! AbsolutePath.value mp = None → Forall (planned o m) cbs →
  c ∈ activation_changes o mp cbs → m !! change_key c = before c.
Proof.
  intros Hmp Hp. rewrite Forall_forall in Hp. unfold activation_changes. rewrite !elem_of_app. intros [Hc|[Hc|Hc]].
  - apply list_elem_of_omap in Hc as (cb & Hcb & Hc). destruct (Hp cb Hcb) as [_ Hb]. unfold backup_change in Hc. unfold backed_up_at in Hb.
    destruct (cbefore cb.1); [|by rewrite Hb in Hc]. destruct Hb as (q & E & _ & Hq). rewrite E in Hc. by injection Hc as <-.
  - apply list_elem_of_fmap in Hc as (d & -> & Hd). apply list_elem_of_fmap in Hd as (cb & -> & Hcb). symmetry. apply (Hp cb Hcb).
  - by apply list_elem_of_singleton in Hc as ->.
Qed.

Lemma deactivation_keys o m mp raw cbs : Forall (planned o m) cbs →
  map change_key (deactivation_changes mp raw cbs) ≡ₚ map change_key (activation_changes o mp cbs).
Proof.
  intros Hp. unfold deactivation_changes, activation_changes. rewrite !map_app.
  change (map change_key [change mp (Some raw) None "Remove managed installation manifest" None]) with [AbsolutePath.value mp].
  cbn [map]. assert (map change_key (map removal_of (rev cbs)) ≡ₚ map change_key (map target_change (map fst cbs))) as ->.
  { rewrite !map_map, map_rev. symmetry. apply Permutation_rev. }
  assert (map change_key (omap backup_removal_of (rev cbs)) ≡ₚ map change_key (omap backup_change cbs)) as ->.
  { transitivity (map change_key (omap backup_removal_of cbs)).
    - apply Permutation_map. symmetry. apply omap_Permutation, Permutation_rev.
    - induction Hp as [|cb cbs [_ Hb] _ IH]; [done|]. cbn. unfold backup_removal_of, backup_change, backed_up_at in *.
      destruct (cbefore cb.1); [|by rewrite Hb]. destruct Hb as (q & -> & _). cbn. by f_equiv. }
  rewrite !app_assoc. apply Permutation_app_tail, Permutation_app_comm.
Qed.
Lemma deactivation_after o m mp raw cbs d : m !! AbsolutePath.value mp = None → Forall (planned o m) cbs →
  d ∈ deactivation_changes mp raw cbs → m !! change_key d = after d.
Proof.
  intros Hmp Hp. rewrite Forall_forall in Hp. unfold deactivation_changes. rewrite !elem_of_app. intros [Hc|[Hc|Hc]].
  - apply list_elem_of_fmap in Hc as (cb & -> & Hcb%list_elem_of_In). rewrite <-in_rev, <-list_elem_of_In in Hcb. symmetry. apply (Hp cb Hcb).
  - apply list_elem_of_omap in Hc as (cb & Hcb%list_elem_of_In & Hc). rewrite <-in_rev, <-list_elem_of_In in Hcb.
    destruct (Hp cb Hcb) as [_ Hb]. unfold backup_removal_of in Hc. unfold backed_up_at in Hb.
    destruct (cbefore cb.1); [|by rewrite Hb in Hc]. destruct Hb as (q & E & _ & Hq). rewrite E in Hc. by injection Hc as <-.
  - by apply list_elem_of_singleton in Hc as ->.
Qed.
Lemma deactivation_fresh o m mp raw cbs d : m !! AbsolutePath.value mp = Some raw → Forall (installed o m) cbs →
  d ∈ deactivation_changes mp raw cbs → m !! change_key d = before d.
Proof.
  intros Hmp Hp. rewrite Forall_forall in Hp. unfold deactivation_changes. rewrite !elem_of_app. intros [Hc|[Hc|Hc]].
  - apply list_elem_of_fmap in Hc as (cb & -> & Hcb%list_elem_of_In). rewrite <-in_rev, <-list_elem_of_In in Hcb. by destruct (Hp cb Hcb).
  - apply list_elem_of_omap in Hc as (cb & Hcb%list_elem_of_In & Hc). rewrite <-in_rev, <-list_elem_of_In in Hcb.
    destruct (Hp cb Hcb) as [_ _ Hb]. unfold backup_removal_of in Hc.
    destruct (cbefore cb.1); [|by rewrite Hb in Hc]. destruct Hb as (q & E & _ & _ & Hq). rewrite E in Hc. by injection Hc as <-.
  - by apply list_elem_of_singleton in Hc as ->.
Qed.
End undoing.

Section lifecycle.
Import PosixText TransactionalInstallationExecutor.
Context `{Digest} `{Engine} {W : Type} (files : FileSystem W) `{!FileLaws files}.
Implicit Types (o : ManagedInstallationOptions) (m : Contents) (cb : CandidateArtifact * Backup).

Lemma reliable_files : reliable files → ReliableFiles files.
Proof. intros (H1 & H2 & _). by split. Qed.
Lemma execute_reaches p w : reliable files → conflicts p = [] → NoDup (map change_key (changes p)) →
  (∀ c, c ∈ changes p → contents w !! change_key c = before c) →
  ∃ out, (execute files p w).2 = Ok out ∧ contents (execute files p w).1 = effect (changes p) (contents w).
Proof.
  intros Hr Hc Hn Hb. destruct (execute_runs files p w Hr Hc Hn Hb) as [out Hout]. exists out. split; [done|].
  destruct (execute_transaction files p w) as [_ Ht]. rewrite Hout in Ht. tauto.
Qed.

(** A manifest the activation wrote is accepted by a deactivation with the same layout. *)
Lemma validate_activation o o' m artifacts cbs : usable o → same_layout o o' → ownedArtifacts o = Ok artifacts →
  Forall (installed o m) cbs → Forall (λ cb, origin o artifacts cb.1) cbs → NoDup (map (λ cb, AbsolutePath.value (path cb.1)) cbs) →
  (∀ a, a ∈ artifacts → mkCandidate a None ∈ map fst cbs) → (∃ c : CandidateArtifact, c ∈ map fst cbs ∧ id c = "claude-settings") →
  validateManifest o' (new_payload o (map manifest_entry cbs)) deactivate = Ok None.
Proof.
  intros Hu Hlay Ha Hi Ho Hn Hall (cs & Hcs & Hset). unfold validateManifest, new_payload. cbn [payload_shell entries].
  rewrite (layout_shell _ _ Hlay), bool_decide_true by done.
  change (bool_decide (deactivate = deactivate)) with true. change (bool_decide (deactivate = activate)) with false. cbn [negb andb]. cbv iota.
  destruct (allowed_ok o Hu) as (l & Hl & Hids & _ & Hsame). rewrite (allowed_layout o o' Hlay), Hl. cbn [rbind].
  assert (NoDup (map id l)) as Hnl by (rewrite Hids; apply Hu). rewrite Forall_forall in Hi, Ho.
  rewrite (validate_all o'); cycle 1.
  - rewrite map_map. cbn. apply (NoDup_key (λ cb, AbsolutePath.value (path cb.1))); [done|]. intros x y Hx Hy E.
    destruct (Hsame artifacts x.1 Ha (Ho x Hx)) as (a & Hain & Hida & Hpa & _), (Hsame artifacts y.1 Ha (Ho y Hy)) as (b & Hbin & Hidb & Hpb & _).
    rewrite <-Hpa, <-Hpb. do 2 f_equal. pose proof (JsMap.get_of_list_in id l a Hnl Hain) as G1. pose proof (JsMap.get_of_list_in id l b Hnl Hbin) as G2.
    cbn in E. rewrite Hida, E, <-Hidb, G2 in G1. by injection G1.
  - intros e _. apply not_elem_of_nil.
  - intros e He. apply list_elem_of_fmap in He as (cb & -> & Hcb). destruct (Hsame artifacts cb.1 Ha (Ho cb Hcb)) as (a & Hain & Hs).
    by eapply validate_installed; [..|apply Hi].
  - cbn [rbind].
    assert (∀ c : CandidateArtifact, c ∈ map fst cbs → str_includes (map entry_id (map manifest_entry cbs)) (id c) = true) as Hseen.
    { intros c (cb & -> & Hcb)%list_elem_of_fmap. apply str_includes_true. rewrite map_map. by apply (list_elem_of_fmap_2 (λ cb, entry_id (manifest_entry cb))). }
    assert (shell_init_id o' = shell_init_id o) as -> by (unfold shell_init_id; by rewrite (layout_shell _ _ Hlay)).
    assert (∃ a, a ∈ artifacts ∧ id a = shell_init_id o) as (a & Hain & <-).
    { unfold ownedArtifacts in Ha. destruct (shimDirectory o); [|done]. cbn in Ha. destruct (shell_init_path o); [|done]. cbn in Ha.
      destruct (rmapM _ _); [|done]. apply Ok_inj in Ha as <-. eexists. split; [by left|done]. }
    pose proof (Hseen _ (Hall a Hain)) as Es. cbn [id desired] in Es. rewrite Es. cbn [rbind].
    pose proof (Hseen _ Hcs) as Et. rewrite Hset in Et. by rewrite Et.
Qed.

(** C7. A first activation followed by a deactivation gives every file its contents back.
    On files that never fail, for ordinary POSIX paths and distinct artifact identifiers,
    and when there is no manifest yet: an activation planned without conflict runs to its
    end and leaves a manifest; and a deactivation from the files as it left them, also by a
    later build or another set of agents with the same layout, is planned without conflict,
    runs to its end, and every file has the contents, or the absence, it had before. What
    is said is of contents: the modes of files are not in the model, and a file shared with
    the user is written anew by both with the mode the file system gives by default. *)
Theorem deactivation_restores o o' w w1 p mp : usable o → same_layout o o' → reliable files →
  manifestPath o = Ok mp → contents w !! AbsolutePath.value mp = None →
  plan files o activate w = (w1, Ok p) → conflicts p = [] →
  let r := execute files p w1 in
  (∃ out, r.2 = Ok out) ∧ is_Some (contents r.1 !! AbsolutePath.value mp)
  ∧ ∀ w3, contents w3 = contents r.1 → ∃ w4 q, plan files o' deactivate w3 = (w4, Ok q) ∧ conflicts q = []
      ∧ (∃ out, (execute files q w4).2 = Ok out) ∧ contents (execute files q w4).1 = contents w.
Proof.
  intros Hu Hlay Hr Hmp Habs Hplan Hc r. pose proof (reliable_files Hr) as Hrel.
  destruct (plan_activation files o w w1 p mp Hmp Habs Hplan Hc) as (Hw1 & artifacts & cbs & Hart & Hcs & Hnd & Hpl & Hor & Hall & Hset).
  destruct (execute_reaches p w1 Hr Hc Hnd) as (out & Hout & Heff).
  { intros c Hin. rewrite Hcs in Hin. rewrite Hw1. by eapply activation_fresh. }
  rewrite Hw1 in Heff. fold r in Hout, Heff.
  pose proof (activation_installed files o w artifacts mp cbs (changes p) Hu Hart Hcs Hnd Hpl Hor) as Hinst.
  set (payload := new_payload o (map manifest_entry cbs)).
  assert (contents r.1 !! AbsolutePath.value mp = Some (serialiseManifest payload)) as Hman.
  { rewrite Heff. assert (change mp None (Some (serialiseManifest payload)) "Commit the managed installation manifest and content checksums" (Some MODE_0600) ∈ changes p) as Hin.
    { rewrite Hcs. unfold activation_changes. rewrite !elem_of_app. right. right. by left. }
    exact (effect_at _ (contents w) _ Hnd Hin). }
  rewrite <-Heff in Hinst.
  split; [by exists out|]. split; [by rewrite Hman|]. intros w3 Hw3.
  assert (manifestPath o' = Ok mp) as Hmp'.
  { unfold manifestPath in *. by rewrite (layout_state _ _ Hlay). }
  assert (answers files (plan files o' deactivate) (contents r.1)
            (successfulPlan deactivate (deactivation_changes mp (serialiseManifest payload) cbs))) as Hans.
  { unfold plan. eapply answers_seq; [by apply answers_lift|]. eapply answers_seq; [by apply answers_read|]. rewrite Hman, manifest_roundtrip.
    2:{ unfold payload. cbn [entries new_payload]. apply Forall_forall. intros e (cb & -> & _)%list_elem_of_fmap. unfold plain_mode. cbn. by destruct (mode cb.1). }
    2:{ apply isChecksum_checksum. }
    assert (NoDup (map change_key (map target_change (map fst cbs)))) as Hk.
    { rewrite Hcs in Hnd. unfold activation_changes in Hnd. rewrite !map_app in Hnd. apply NoDup_app in Hnd as (_ & _ & Hnd). by apply NoDup_app in Hnd as (Hnd & _). }
    rewrite !map_map in Hk.
    eapply answers_seq; [apply answers_lift; exact (validate_activation o o' _ artifacts cbs Hu Hlay Hart Hinst Hor Hk Hall Hset)|].
    change (bool_decide (deactivate = deactivate)) with true. cbv iota. apply (answers_deactivation files o'); [|done|done]. eapply Forall_impl; [exact Hinst|]. intros cb [Hi1 Hi2 Hi3]. split; [done..|]. unfold backupPath in *. by rewrite (layout_state _ _ Hlay). }
  destruct (Hans w3 Hw3) as (w4 & Hp4 & Hw4). eexists w4, _. split; [exact Hp4|]. split; [done|].
  pose proof (deactivation_keys o (contents w) mp (serialiseManifest payload) cbs Hpl) as Hkeys. rewrite <-Hcs in Hkeys.
  edestruct (execute_reaches (successfulPlan deactivate (deactivation_changes mp (serialiseManifest payload) cbs)) w4) as (out' & Hout' & Heff'); [done..| | |].
  - cbn [changes successfulPlan]. by rewrite Hkeys.
  - cbn [changes successfulPlan]. intros c Hin. rewrite Hw4. by eapply deactivation_fresh.
  - split; [by exists out'|]. rewrite Heff', Hw4, Heff. cbn [changes successfulPlan]. apply effect_restores; [done|by rewrite Hkeys|].
    intros d Hd. by eapply deactivation_after.
Qed.
End lifecycle.

(** ** Repair *)

Section repair.
Import PosixText TransactionalInstallationExecutor.
Context `{Digest} `{Engine} {W : Type} (files : FileSystem W) `{!FileLaws files} (o : ManagedInstallationOptions).
Implicit Types (m : Contents) (e : ManifestEntry).

(** The file an entry names. *)
Definition entry_at e (p : AbsolutePath) : Prop := AbsolutePath.of_ (entry_path e) = Ok p.
Definition intact m e : Prop := ∃ p, entry_at e p ∧ holds_checksum (m !! AbsolutePath.value p) (installedChecksum e) = true.
Definition backup_intact m e : Prop := ∀ b s, entry_backupPath e = Some b → originalChecksum e = Some s →
  ∃ p, AbsolutePath.of_ b = Ok p ∧ holds_checksum (m !! AbsolutePath.value p) s = true.
(** A change that puts back what the manifest records. *)
Definition heals m e (c : InstallationChange) : Prop :=
  entry_ownership e = owned ∧ entry_at e (change_path c) ∧ before c = m !! change_key c
  ∧ holds_checksum (m !! change_key c) (installedChecksum e) = false
  ∧ ∃ t, after c = Some t ∧ checksum t = installedChecksum e.

(** Entries at distinct paths that read back as they are written. *)
Record well_placed (es : list ManifestEntry) : Prop := mkPlaced {
  placed_apart : NoDup (map entry_path es);
  placed_read : ∀ e, e ∈ es → ∃ p, entry_at e p ∧ AbsolutePath.value p = entry_path e
}.
Lemma placed_at es e p : well_placed es → e ∈ es → entry_at e p → AbsolutePath.value p = entry_path e.
Proof. intros [_ Hr] He Hp. destruct (Hr e He) as (q & Hq & <-). unfold entry_at in *. rewrite Hp in Hq. by apply Ok_inj in Hq as ->. Qed.

Lemma looks_read_at s : looks files (read_at files s) (λ m t, ∃ p, AbsolutePath.of_ s = Ok p ∧ t = m !! AbsolutePath.value p).
Proof. unfold read_at. eapply looks_mono; [apply looks_seq; [apply looks_lift|intros p; apply looks_read]|done]. Qed.

(** No conflict, and what is to be done. *)
Lemma inspect_repair arts m e found out : (∃ p, AbsolutePath.of_ (entry_path e) = Ok p ∧ found = m !! AbsolutePath.value p) →
  inspect_entry repair arts e found = Ok out → lefts [out] = [] →
  (intact m e ∧ out = None) ∨ ∃ c, out = Some (inr c) ∧ heals m e c.
Proof.
  intros (p & Hp & ->). unfold inspect_entry. rewrite Hp. cbn [rbind].
  destruct (holds_checksum _ _) eqn:Eh; [intros <-%Ok_inj _; left; split; [by exists p|done]|].
  change (bool_decide (repair = activate)) with false. cbv iota.
  destruct (bool_decide (entry_ownership e = shared)) eqn:Es; [by intros <-%Ok_inj|].
  destruct (JsMap.get arts (entry_id e)) as [d|]; [|by intros <-%Ok_inj].
  destruct (checksum (content d) =? installedChecksum e)%string eqn:Ec; intros <-%Ok_inj; [|done]. intros _. right.
  eexists. split; [done|]. apply String.eqb_eq in Ec. split_and!; [|done..|by exists (content d)].
  apply bool_decide_eq_false in Es. by destruct (entry_ownership e).
Qed.
Lemma lefts_cons {A B} x (l : list (option (A + B))) : lefts (x :: l) = lefts [x] ++ lefts l.
Proof. by destruct x as [[]|]. Qed.
Lemma repair_outcomes arts m es fs outs :
  Forall2 (λ e t, ∃ p, AbsolutePath.of_ (entry_path e) = Ok p ∧ t = m !! AbsolutePath.value p) es fs →
  rmapM (λ ef, inspect_entry repair arts ef.1 ef.2) (combine es fs) = Ok outs → lefts outs = [] →
  (∀ e, e ∈ es → intact m e ∨ ∃ c, c ∈ rights outs ∧ heals m e c)
  ∧ ∃ healed, Forall2 (heals m) healed (rights outs) ∧ sublist healed es.
Proof.
  intros Hes. revert outs. induction Hes as [|e t es fs Ht _ IH]; intros outs; cbn [combine rmapM].
  - intros <-%Ok_inj _. split; [intros e []%elem_of_nil|exists []; by split; constructor].
  - destruct (inspect_entry repair arts (e, t).1 (e, t).2) as [out|] eqn:Eo; [|done]. cbn [rbind].
    destruct (rmapM _ (combine es fs)) as [rest|]; [|done]. cbn [rbind]. intros <-%Ok_inj. rewrite lefts_cons.
    intros [Hl Hr]%app_nil. destruct (IH rest eq_refl Hr) as (IH1 & healed & IH2 & IH3).
    destruct (inspect_repair arts m e t out Ht Eo Hl) as [[Hi ->]|(c & -> & Hc)].
    + split; [|exists healed; split; [done|by constructor]]. intros d [->|Hd]%elem_of_cons; [by left|]. by apply IH1.
    + split; [|exists (e :: healed); split; [by constructor|by constructor]].
      intros d [->|Hd]%elem_of_cons; [right; exists c; split; [by left|done]|].
      destruct (IH1 d Hd) as [Hd'|(c' & Hc' & Hh)]; [by left|]. right. exists c'. split; [by right|done].
Qed.
Lemma lookup_combine {A B} (l : list A) (k : list B) n a b : l !! n = Some a → k !! n = Some b → combine l k !! n = Some (a, b).
Proof. revert k n. induction l as [|x l IH]; intros [|y k] [|n]; try done; cbn; [congruence|apply IH]. Qed.
Lemma backups_checked es w w' : backup_conflicts files es w = (w', Ok []) → contents w' = contents w ∧ ∀ e, e ∈ es → backup_intact (contents w) e.
Proof.
  unfold backup_conflicts. intros (w1 & fs & E1 & E)%mseq_Ok.
  eapply (looks_run files) in E1 as [H1 Hfs]; [|apply looks_map; intros ebs; apply looks_read_at].
  apply mseq_Ok in E as (w2 & cs & E1 & E). injection E1 as <- Hcs. apply mok_Ok in E as [-> Hnil]. split; [done|].
  intros e He b s Hb Hs.
  assert ((e, b, s) ∈ backed_up es) as Hin.
  { unfold backed_up. apply list_elem_of_omap. exists e. by rewrite Hb, Hs. }
  apply list_elem_of_lookup in Hin as [n Hn]. destruct (Forall2_lookup_l _ _ _ _ _ Hfs Hn) as (t & Ht & p & Hp & Htp).
  exists p. split; [done|]. rewrite <-Htp. cbn in Hp. apply rmapM_Ok in Hcs.
  assert (combine (backed_up es) fs !! n = Some ((e, b, s), t)) as Hc by (by apply lookup_combine).
  destruct (Forall2_lookup_l _ _ _ _ _ Hcs Hc) as (r & Hr & Hrc). cbn [fst snd] in Hrc.
  destruct (holds_checksum t s); [done|]. unfold backup_drift_conflict in Hrc. rewrite Hp in Hrc. cbn in Hrc. apply Ok_inj in Hrc as <-.
  assert (conflict backup_drift p ("The byte-exact backup for " +:+ entry_id e +:+ " is missing or has changed") ∈ omap (λ c, c) cs) as Hi.
  { apply list_elem_of_omap. eexists. split; [by eapply list_elem_of_lookup_2|done]. }
  rewrite <-Hnil in Hi. by apply elem_of_nil in Hi.
Qed.

Lemma installed_repair payload w w' p : planInstalled files o repair payload w = (w', Ok p) → conflicts p = [] →
  contents w' = contents w
  ∧ (∀ e, e ∈ entries payload → intact (contents w) e ∨ ∃ c, c ∈ changes p ∧ heals (contents w) e c)
  ∧ (∃ healed, Forall2 (heals (contents w)) healed (changes p) ∧ sublist healed (entries payload))
  ∧ ∀ e, e ∈ entries payload → backup_intact (contents w) e.
Proof.
  unfold planInstalled. intros (w1 & cs & E1 & E)%mseq_Ok Hc.
  apply mseq_Ok in E as (w2 & fs & E2 & E). eapply (looks_run files) in E2 as [H2 Hfs]; [|apply looks_map; intros e; apply looks_read_at].
  apply mseq_Ok in E as (w3 & arts & E3 & E). injection E3 as <- Harts.
  apply mseq_Ok in E as (w3 & outs & E3 & E). injection E3 as <- Houts. apply mok_Ok in E as [-> ->].
  destruct (cs ++ lefts outs) as [|x l] eqn:El; [|done]. apply app_nil in El as [-> Hl]. cbn [length Nat.ltb Nat.leb changes successfulPlan].
  destruct (backups_checked _ _ _ E1) as [Hw1 Hb]. rewrite Hw1 in *.
  destruct (repair_outcomes _ _ _ _ _ Hfs Houts Hl) as [Hout1 Hout2]. split_and!; [congruence|done..].
Qed.

(** A repair that is planned without conflict. *)
Lemma plan_repair w w1 p mp raw payload : manifestPath o = Ok mp →
  manifest_of (contents w !! AbsolutePath.value mp) = valid raw payload →
  plan files o repair w = (w1, Ok p) → conflicts p = [] →
  contents w1 = contents w
  ∧ (∀ e, e ∈ entries payload → intact (contents w) e ∨ ∃ c, c ∈ changes p ∧ heals (contents w) e c)
  ∧ (∃ healed, Forall2 (heals (contents w)) healed (changes p) ∧ sublist healed (entries payload))
  ∧ ∀ e, e ∈ entries payload → backup_intact (contents w) e.
Proof.
  intros Hmp Hman Hplan Hc. unfold plan in Hplan. rewrite Hmp in Hplan.
  apply mseq_Ok in Hplan as (wa & q & Ea & Hplan). apply mok_Ok in Ea as [-> ->].
  apply mseq_Ok in Hplan as (wa & rw & Ea & Hplan). eapply (looks_run files) in Ea as [Ha Hraw]; [|apply looks_read].
  rewrite Hraw, Hman in Hplan. apply mseq_Ok in Hplan as (wb & v & Ea & Hplan). injection Ea as <- Hv.
  destruct v as [msg|]; [by apply mok_Ok in Hplan as [_ ->]|]. change (bool_decide (repair = deactivate)) with false in Hplan. cbv iota in Hplan.
  destruct (installed_repair payload wa w1 p Hplan Hc) as (Hw1 & Hall & Hh & Hb). rewrite Ha in *. done.
Qed.

Lemma healed_change m healed cs c : Forall2 (heals m) healed cs → c ∈ cs → ∃ e, e ∈ healed ∧ heals m e c.
Proof.
  intros Hf Hc. apply list_elem_of_lookup in Hc as [n Hn]. destruct (Forall2_lookup_r _ _ _ _ _ Hf Hn) as (e & He & Hh).
  exists e. split; [by eapply list_elem_of_lookup_2|done].
Qed.
Lemma healed_keys m es healed cs : well_placed es → Forall2 (heals m) healed cs → sublist healed es → NoDup (map change_key cs).
Proof.
  intros Hw Hf Hs. assert (map change_key cs = map entry_path healed) as ->.
  { assert (∀ e, e ∈ healed → e ∈ es) as Hin by (intros e He; by eapply elem_of_sublist).
    clear Hs. induction Hf as [|e c l k (_ & Hp & _) _ IH]; [done|]. cbn [map]. f_equal.
    - apply (placed_at es e); [done|apply Hin; by left|done].
    - apply IH. intros d Hd. apply Hin. by right. }
  eapply sublist_NoDup; [apply Hw|]. by apply (fmap_sublist entry_path).
Qed.

Lemma NoDup_fmap_inj {A B} (f : A → B) l x y : NoDup (map f l) → x ∈ l → y ∈ l → f x = f y → x = y.
Proof.
  induction l as [|z l IH]; intros Hn Hx Hy E; [by apply elem_of_nil in Hx|]. cbn [map] in Hn. inv Hn.
  apply elem_of_cons in Hx as [->|Hx], Hy as [->|Hy]; [done| | |by apply IH].
  - destruct H3. rewrite E. by apply list_elem_of_fmap_2.
  - destruct H3. rewrite <-E. by apply list_elem_of_fmap_2.
Qed.
(** The last change of a path decides. *)
Lemma effect_last cs m k : k ∈ map change_key cs → ∃ c, c ∈ cs ∧ change_key c = k ∧ effect cs m !! k = after c.
Proof.
  revert m. induction cs as [|c cs IH]; intros m Hk; [by apply elem_of_nil in Hk|].
  destruct (decide (k ∈ map change_key cs)) as [Hin|Hin].
  - destruct (IH (put m (change_key c) (after c)) Hin) as (d & Hd & Hkd & E). exists d. split; [by right|done].
  - cbn [map] in Hk. apply elem_of_cons in Hk as [->|Hk]; [|done]. exists c. split; [by left|]. split; [done|].
    pose proof (elsewhere_effect cs (put m (change_key c) (after c)) (change_key c) Hin) as E. unfold effect in *. cbn [fold_left]. rewrite E.
    unfold put. destruct (after c); [apply lookup_insert_eq|apply lookup_delete_eq].
Qed.

(** The manifest records what this build generates. *)
Definition recorded_by_build (es : list ManifestEntry) : Prop := ∀ artifacts (a : DesiredArtifact), ownedArtifacts o = Ok artifacts → a ∈ artifacts →
  ∃ e, e ∈ es ∧ entry_path e = AbsolutePath.value (path a) ∧ installedChecksum e = checksum (content a).

(** C15. What a repair by the build that installed does. Take a manifest whose entries are at
    distinct paths that read back as they are written, and that records the checksum of
    every artifact this build generates. When the repair plans without conflict, carrying
    the plan out leaves every file the manifest names with the recorded checksum, so every
    artifact of this build in its place with the content this build generates, up to its
    checksum, and every backup intact; no path is written but those of owned entries whose
    file had changed, so the files shared with the user, the manifest and everything else
    keep their bytes; when every file is as recorded nothing is written; and on files that
    do not fail the plan is carried out. (An installation of another build is not
    reconciled: see [repair_leaves_stale].) *)
Theorem repair_heals w w1 p mp raw payload : manifestPath o = Ok mp →
  manifest_of (contents w !! AbsolutePath.value mp) = valid raw payload → well_placed (entries payload) →
  recorded_by_build (entries payload) →
  plan files o repair w = (w1, Ok p) → conflicts p = [] →
  let r := execute files p w1 in
  (∀ c, c ∈ changes p → ∃ e, e ∈ entries payload ∧ heals (contents w) e c)
  ∧ (∀ k, k ∉ map change_key (changes p) → contents r.1 !! k = contents w !! k)
  ∧ (∀ e, e ∈ entries payload → backup_intact (contents w) e)
  ∧ ((∀ e, e ∈ entries payload → intact (contents w) e) → changes p = [])
  ∧ (∀ out, r.2 = Ok out → (∀ e, e ∈ entries payload → intact (contents r.1) e)
      ∧ ∀ artifacts (a : DesiredArtifact), ownedArtifacts o = Ok artifacts → a ∈ artifacts →
          ∃ t, contents r.1 !! AbsolutePath.value (path a) = Some t ∧ checksum t = checksum (content a))
  ∧ (reliable files → ∃ out, r.2 = Ok out).
Proof.
  intros Hmp Hman Hw Hbuild Hplan Hc r.
  destruct (plan_repair w w1 p mp raw payload Hmp Hman Hplan Hc) as (Hw1 & Hall & (healed & Hh & Hs) & Hb).
  assert (∀ c, c ∈ changes p → ∃ e, e ∈ entries payload ∧ heals (contents w) e c) as Hcs.
  { intros c Hin. destruct (healed_change _ _ _ _ Hh Hin) as (e & He & Hhe). exists e. split; [by eapply elem_of_sublist|done]. }
  pose proof (healed_keys _ _ _ _ Hw Hh Hs) as Hn. destruct (execute_transaction files p w1) as [Helse Hres]. fold r in Helse, Hres. rewrite Hw1 in *.
  split_and!; [done|exact Helse|done| | |].
  - intros Hi. destruct (changes p) as [|c cs]; [done|]. destruct (Hcs c) as (e & He & _ & Hat & _ & Hno & _); [by left|].
    destruct (Hi e He) as (q & Hq & Hyes). unfold entry_at in *. rewrite Hat in Hq. apply Ok_inj in Hq as <-. unfold change_key in Hno. congruence.
  - intros out Hout. enough (∀ e, e ∈ entries payload → intact (contents r.1) e) as Hintact.
    { split; [exact Hintact|]. intros artifacts a Hart Ha. destruct (Hbuild artifacts a Hart Ha) as (e & He & Hp & Hsum).
      destruct (Hintact e He) as (q & Hq & Hyes). rewrite <-Hp, <-(placed_at _ e q Hw He Hq), <-Hsum.
      destruct (contents r.1 !! AbsolutePath.value q) as [t|]; [|done]. exists t. split; [done|]. by apply String.eqb_eq. }
    intros e He. rewrite Hout in Hres. destruct Hres as (_ & _ & Heff & _ & _). rewrite Heff.
    destruct (placed_read _ Hw e He) as (q & Hq & Hqe). exists q. split; [done|].
    destruct (decide (AbsolutePath.value q ∈ map change_key (changes p))) as [Hin|Hin].
    + destruct (effect_last (changes p) (contents w) _ Hin) as (c & Hcin & Hk & ->).
      destruct (Hcs c Hcin) as (d & Hd & Hhd). pose proof (placed_at _ d _ Hw Hd (proj1 (proj2 Hhd))) as Hdp.
      unfold change_key in Hk. assert (d = e) as ->.
      { apply (NoDup_fmap_inj entry_path (entries payload)); try done. apply Hw. congruence. }
      destruct Hhd as (_ & _ & _ & _ & t & -> & Ht). apply String.eqb_eq. done.
    + rewrite elsewhere_effect by done. destruct (Hall e He) as [(q' & Hq' & Hi)|(c & Hcin & Hhc)].
      * unfold entry_at in *. rewrite Hq in Hq'. by apply Ok_inj in Hq' as ->.
      * exfalso. apply Hin. destruct Hhc as (_ & Hp & _). unfold entry_at in *. rewrite Hq in Hp. apply Ok_inj in Hp as ->. by apply (list_elem_of_fmap_2 change_key).
  - intros Hr. apply (execute_runs files p w1 Hr Hc Hn). intros c Hin. rewrite Hw1. destruct (Hcs c Hin) as (d & _ & _ & _ & Hbc & _). done.
Qed.
End repair.

(** ** The bytes of the user *)

Section user_text.
Import PosixText TransactionalInstallationExecutor.
Context `{Digest} `{Engine} {W : Type} (files : FileSystem W) `{!FileLaws files} (o : ManagedInstallationOptions).
Implicit Types (m : Contents) (cb : CandidateArtifact * Backup).

(** [t'] is [t] with one piece of text added. *)
Definition extends (t t' : string) : Prop := ∃ a x b, t = a +:+ b ∧ t' = a +:+ x +:+ b.
Lemma extends_refl t : extends t t.
Proof. exists t, "", "". by rewrite !sapp_nil_r. Qed.
Lemma extends_insertAt t i x : extends t (insertAt t i x).
Proof. exists (stake i t), x, (sdrop i t). by rewrite stake_sdrop. Qed.
Lemma extends_profile t block : extends t (appendProfileBlock (Some t) block).
Proof.
  unfold appendProfileBlock. destruct t as [|c t]; [exists "", block, ""; by rewrite !sapp_nil_r|].
  eexists (String c t), _, "". split; [by rewrite sapp_nil_r|]. f_equal. symmetry. apply sapp_nil_r.
Qed.
Lemma extends_hook raw hook t : insertClaudeHook raw hook = Ok t → extends raw t.
Proof.
  unfold insertClaudeHook. destruct (span_parse raw) as [root|]; [|done]. cbn [rbind].
  repeat match goal with |- context [match ?x with _ => _ end] => destruct x end; intros E; try discriminate E; apply Ok_inj in E as <-; apply extends_insertAt.
Qed.
Lemma extends_settings t t' : renderClaudeSettings (runtimeExecutable o) (agentkeeperEntrypoint o) (shell o) (Some t) = inl t' → extends t t'.
Proof.
  unfold renderClaudeSettings. remember (insertClaudeHook t _) as r eqn:Er. 
  repeat match goal with |- context [match ?x with _ => _ end] => destruct x end; intros E; try discriminate E; injection E as <-; by eapply extends_hook.
Qed.

Lemma origin_extends artifacts (c : CandidateArtifact) t : origin o artifacts c → cbefore c = Some t →
  path c ∈ profiles o ++ [claudeSettings o] ∧ extends t (content c).
Proof.
  intros [[_ Hb]|[(i & p & Hi & _ & -> & _ & _ & block & ->)|(_ & -> & _ & _ & Hr)]] Ht; rewrite Ht in *; [done| |].
  - split; [apply elem_of_app; left; by eapply list_elem_of_lookup_2|]. apply extends_profile.
  - split; [apply elem_of_app; right; by left|]. by apply extends_settings.
Qed.

(** C16. Activation loses no byte of the user. After a first activation is carried out,
    every file that existed is still there with its text, to which at most one piece has
    been added; a file whose text changed is one of the configured shell profiles or the
    settings of the agent, and its original bytes are in the backup. *)
Theorem activation_keeps_user_text w w1 p mp out : manifestPath o = Ok mp → contents w !! AbsolutePath.value mp = None →
  plan files o activate w = (w1, Ok p) → conflicts p = [] → (execute files p w1).2 = Ok out →
  ∀ k t, contents w !! k = Some t → ∃ t', contents (execute files p w1).1 !! k = Some t' ∧ extends t t'
    ∧ (t' ≠ t → ∃ f q, f ∈ profiles o ++ [claudeSettings o] ∧ AbsolutePath.value f = k ∧ backupPath o f = Ok q
         ∧ contents w !! AbsolutePath.value q = None ∧ contents (execute files p w1).1 !! AbsolutePath.value q = Some t).
Proof.
  intros Hmp Habs Hplan Hc Hout k t Hk.
  destruct (plan_activation files o w w1 p mp Hmp Habs Hplan Hc) as (Hw1 & artifacts & cbs & Hart & Hcs & Hnd & Hpl & Hor & _).
  destruct (execute_transaction files p w1) as [_ Hres]. rewrite Hout in Hres. destruct Hres as (_ & _ & Heff & _ & _). rewrite Hw1 in Heff. rewrite Heff.
  destruct (decide (k ∈ map change_key (changes p))) as [Hin|Hin].
  2:{ exists t. rewrite elsewhere_effect by done. split_and!; [done|apply extends_refl|done]. }
  apply list_elem_of_fmap in Hin as (c & -> & Hcin). rewrite Hcs in Hcin. pose proof (activation_fresh o _ mp cbs c Habs Hpl Hcin) as Hfresh.
  rewrite Hk in Hfresh. pose proof Hcin as Hcin'. unfold activation_changes in Hcin'. rewrite !elem_of_app in Hcin'. destruct Hcin' as [Hb|[Ht|Hm]].
  - exfalso. apply list_elem_of_omap in Hb as (cb & _ & Hb). unfold backup_change in Hb. destruct cb.2 as [[b []]|], (cbefore cb.1); try done. by injection Hb as <-.
  - apply list_elem_of_fmap in Ht as (d & -> & Hd). apply list_elem_of_fmap in Hd as (cb & -> & Hcb). rewrite Forall_forall in Hpl, Hor.
    cbn in Hfresh. destruct (origin_extends artifacts cb.1 t (Hor cb Hcb)) as [Hf He]; [done|].
    exists (content cb.1). rewrite Hcs, effect_at by (done || by rewrite <-Hcs). split_and!; [done|done|]. intros _.
    destruct (Hpl cb Hcb) as [_ Hb]. unfold backed_up_at in Hb. rewrite <-Hfresh in Hb. destruct Hb as (q & Hcq & Hq & Hnone).
    exists (path cb.1), q. split_and!; [done|done|done|done|].
    assert (∃ text md, backup_change cb = Some (change q None (Some t) text md)) as (text & md & Hch).
    { unfold backup_change. rewrite Hcq, <-Hfresh. by eexists _, _. }
    rewrite <-Hcs. assert (change q None (Some t) text md ∈ changes p) as Hin2 by (rewrite Hcs; by eapply activation_backup).
    exact (effect_at _ _ _ Hnd Hin2).
  - by apply list_elem_of_singleton in Hm as ->.
Qed.
End user_text.

(** ** A home directory *)

Module SampleHome.
Import PosixText TransactionalInstallationExecutor.

#[local] Instance silent : Engine := {| syntax_message := λ s, s; type_message := λ s, s |}.
Definition path_of (segs : list string) : AbsolutePath := AbsolutePath.posix_path segs.
Definition options (agents : ManagedAgent → option AbsolutePath) (extra : string) : ManagedInstallationOptions :=
  mkInstallOptions (path_of ["home"; "u"]) (path_of ["home"; "u"; ".local"; "state"; "agentkeeper"]) posix_shell
    (path_of ["usr"; "bin"; "node"]) (path_of ["opt"; "it's"; "cli.js"]) agents
    [path_of ["home"; "u"; ".zshrc"]; path_of ["home"; "u"; ".bashrc"]]
    (path_of ["home"; "u"; ".claude"; "settings.json"])
    [mkOwned "git-hook" (path_of ["home"; "u"; ".local"; "state"; "agentkeeper"; "hooks"; "post-checkout"]) extra (Some MODE_0700)].
Definition with_claude : ManagedAgent → option AbsolutePath := λ a, match a with claude => Some (path_of ["usr"; "bin"; "claude"]) | _ => None end.
Definition current : ManagedInstallationOptions := options with_claude "exit 0".
(** The same product after an upgrade, on a machine whose agents are gone. *)
Definition upgraded : ManagedInstallationOptions := options (λ _, None) "exit 1".

Definition settings_text : string := JSON.stringify "" (JObject [("hooks", JObject [("PreToolUse", JArray [JNum (Int 1)])])]).
Definition before_ : Contents := {["/home/u/.zshrc" := "alias ll=ls"; "/home/u/.claude/settings.json" := settings_text; "/home/u/notes" := "mine"]}.
Definition at_ : AbsolutePath := path_of ["home"; "u"; ".local"; "state"; "agentkeeper"; "installation"; "manifest.json"].
Definition activation : InstallationPlan := Eval vm_compute in match plan MemoryFiles.files current activate before_ with (_, Ok p) => p | _ => mkPlan activate [] [] end.
Definition after_ : Contents := Eval vm_compute in (execute MemoryFiles.files activation before_).1.

Lemma current_usable : usable current.
Proof.
  split.
  - exists ["home"; "u"; ".local"; "state"; "agentkeeper"]. split_and!; [done|done|by apply (bool_decide_unpack _); vm_compute|by repeat constructor].
  - intros p Hp. assert (p ∈ map path_of [["home"; "u"; ".zshrc"]; ["home"; "u"; ".bashrc"]; ["home"; "u"; ".claude"; "settings.json"];
      ["home"; "u"; ".local"; "state"; "agentkeeper"; "hooks"; "post-checkout"]]) as (segs & -> & Hs)%list_elem_of_fmap by exact Hp.
    exists segs. split; [done|]. repeat (apply elem_of_cons in Hs as [->|Hs];
      [split; [done|]; split; [by apply (bool_decide_unpack _); vm_compute|by repeat constructor]|]). by apply elem_of_nil in Hs.
  - apply (bool_decide_unpack _). vm_compute. exact I.
Qed.
Lemma upgraded_layout : same_layout current upgraded.
Proof. by split. Qed.
Lemma memory_files_reliable : reliable MemoryFiles.files.
Proof. split; [by intros p w; eexists|]. by split. Qed.
Lemma activation_planned : plan MemoryFiles.files current activate before_ = (before_, Ok activation).
Proof. vm_compute. reflexivity. Qed.
Lemma activation_changes_something : (length (changes activation), map conflict_message (conflicts activation)) = (8, []).
Proof. vm_compute. reflexivity. Qed.

Lemma at_path : manifestPath current = Ok at_.
Proof. vm_compute. reflexivity. Qed.
Lemma not_installed : contents before_ !! AbsolutePath.value at_ = None.
Proof. vm_compute. reflexivity. Qed.
Lemma no_conflict : conflicts activation = [].
Proof. reflexivity. Qed.
Lemma activation_runs : (execute MemoryFiles.files activation before_).2 = Ok (mkExecution 8 false).
Proof. vm_compute. reflexivity. Qed.
Lemma activation_reaches : contents after_ = contents (execute MemoryFiles.files activation before_).1.
Proof. apply (bool_decide_unpack _). vm_compute. exact I. Qed.
Lemma zshrc_before : contents before_ !! "/home/u/.zshrc" = Some "alias ll=ls".
Proof. vm_compute. reflexivity. Qed.

(** The shim of the agent is overwritten. *)
Definition shim_key : string := "/home/u/.local/state/agentkeeper/shims/posix/claude".
Definition damaged : Contents := Eval vm_compute in <[shim_key := "exec rm"]> after_.
Definition manifest_text : string := Eval vm_compute in default "" (after_ !! AbsolutePath.value at_).
Definition payload : ManifestPayload := Eval vm_compute in match manifest_of (Some manifest_text) with valid _ p => p | _ => mkPayload posix_shell "" "" "" [] end.
Definition repair_plan : InstallationPlan := Eval vm_compute in match plan MemoryFiles.files current repair damaged with (_, Ok p) => p | _ => mkPlan repair [] [] end.
Definition places (es : list ManifestEntry) : bool :=
  bool_decide (NoDup (map entry_path es))
  && forallb (λ e, match AbsolutePath.of_ (entry_path e) with Ok p => (AbsolutePath.value p =? entry_path e)%string | Err _ => false end) es.
Lemma places_placed es : places es = true → well_placed es.
Proof.
  unfold places. intros [Hn Hf]%andb_true_iff. split; [by apply bool_decide_eq_true in Hn|]. rewrite forallb_forall in Hf.
  intros e He. specialize (Hf e (proj1 (list_elem_of_In _ _) He)). destruct (AbsolutePath.of_ (entry_path e)) as [p|] eqn:E; [|done].
  exists p. split; [exact E|]. by apply String.eqb_eq.
Qed.
Lemma damaged_manifest : manifest_of (contents damaged !! AbsolutePath.value at_) = valid manifest_text payload.
Proof. vm_compute. reflexivity. Qed.
Lemma with_snd {A B} (x : A * B) b : x.2 = b → x = (x.1, b).
Proof. intros <-. by destruct x. Qed.
Lemma repair_planned : plan MemoryFiles.files current repair damaged = ((plan MemoryFiles.files current repair damaged).1, Ok repair_plan).
Proof. apply with_snd. vm_compute. reflexivity. Qed.

Lemma repair_no_conflict : conflicts repair_plan = [].
Proof. reflexivity. Qed.
Lemma payload_recorded : recorded_by_build current (entries payload).
Proof.
  intros artifacts a Hart Ha.
  assert (match ownedArtifacts current with
          | Ok l => every (λ a, some (λ e, (entry_path e =? AbsolutePath.value (path a))%string
                                           && (installedChecksum e =? checksum (content a))%string) (entries payload)) l
          | Err _ => false end = true) as Hall by (vm_compute; reflexivity).
  rewrite Hart, every_true in Hall. specialize (Hall a Ha). cbn beta in Hall. apply some_true in Hall as (e & He & Hb).
  apply andb_true_iff in Hb as [H1%String.eqb_eq H2%String.eqb_eq]. by exists e.
Qed.
Lemma payload_placed : well_placed (entries payload).
Proof. apply places_placed. vm_compute. reflexivity. Qed.

(** A repair by a build that would generate another hook finds nothing to do, and the
    activation still asks for a repair. *)
Definition newer : ManagedInstallationOptions := options with_claude "exit 1".
Example repair_leaves_stale :
  (λ r, match r.2 with Ok p => Some (length (changes p), map conflict_message (conflicts p)) | Err _ => None end)
     (plan MemoryFiles.files newer repair after_) = Some (0, [])
  ∧ (λ r, match r.2 with Ok p => Some (length (changes p), map conflict_message (conflicts p)) | Err _ => None end)
     (plan MemoryFiles.files newer activate after_)
    = Some (0, ["Installation options differ from the options recorded by the manifest; run `agentkeeper repair` to reconcile them"]).
Proof. split; vm_compute; reflexivity. Qed.
End SampleHome.

Section witnesses.
Import SampleHome TransactionalInstallationExecutor.
#[local] Existing Instance silent.
Lemma deactivation_restores_witness :
  ∃ w4 q, plan MemoryFiles.files upgraded deactivate after_ = (w4, Ok q) ∧ conflicts q = []
    ∧ (∃ out, (execute MemoryFiles.files q w4).2 = Ok out) ∧ (execute MemoryFiles.files q w4).1 = before_.
Proof.
  exact (proj2 (proj2 (deactivation_restores MemoryFiles.files current upgraded before_ before_ activation at_ current_usable upgraded_layout
    memory_files_reliable at_path not_installed activation_planned no_conflict)) after_ activation_reaches).
Defined.
Lemma activation_keeps_user_text_witness :
  ∃ t', contents (execute MemoryFiles.files activation before_).1 !! "/home/u/.zshrc" = Some t' ∧ extends "alias ll=ls" t'.
Proof.
  destruct (activation_keeps_user_text MemoryFiles.files current before_ before_ activation at_ (mkExecution 8 false) at_path not_installed
    activation_planned no_conflict activation_runs "/home/u/.zshrc" "alias ll=ls" zshrc_before) as (t' & Ht & He & _).
  exact (ex_intro _ t' (conj Ht He)).
Defined.
Lemma repair_heals_witness :
  damaged !! shim_key = Some "exec rm" ∧ length (changes repair_plan) = 1
  ∧ (∃ out, (execute MemoryFiles.files repair_plan (plan MemoryFiles.files current repair damaged).1).2 = Ok out).
Proof.
  split; [vm_compute; reflexivity|]. split; [vm_compute; reflexivity|].
  pose proof (repair_heals MemoryFiles.files current damaged (plan MemoryFiles.files current repair damaged).1
    repair_plan at_ manifest_text payload at_path damaged_manifest payload_placed payload_recorded repair_planned repair_no_conflict) as Hr. cbv zeta in Hr.
  exact (proj2 (proj2 (proj2 (proj2 (proj2 Hr)))) memory_files_reliable).
Defined.
End witnesses.
