(* ===== verification/ProtectionArtifacts.v ===== *)
(** * What the protection installs (src/infrastructure/install/ProtectionInstallation.ts)

    The registration and the descriptor of the resident watcher on each platform, the git
    hooks, and the two copies of the git state, with the quoting each of them needs. Every
    quoting is read back by a reference reading of the language it writes for. *)

From S2P Require Import Prelude JsString JsMap JsNumber Json NodePath Paths Patterns Values Ports Installation.
From S2P Require Import Shell ManagedArtifacts ManagedInstallation ProtectionInstallation.
Import JSON ManagedInstallationPlanner.

(** Text in which a caret stands for the double quote. *)
Definition dq (s : string) : string := replace_char "^" dquote s.

(** ** Quoting *)

Definition xmlEscape (value : string) : string :=
  replace_each squote "&apos;" (replace_each dquote "&quot;" (replace_each ">" "&gt;" (replace_each "<" "&lt;" (replace_each "&" "&amp;" value)))).

Definition escaped (c : ascii) : string := String backslash (str1 c).
Definition systemdArgument (value : string) : string :=
  q (replace_each (chr 9) (escaped "t") (replace_each (chr 13) (escaped "r") (replace_each (chr 10) (escaped "n")
      (replace_each dquote (escaped dquote) (replace_each backslash (escaped backslash) (replace_each "%" "%%" value)))))).

Fixpoint backslashes (n : nat) : string := match n with 0 => "" | S n => String backslash (backslashes n) end.
(** The first replacement: a run of backslashes before a double quote is doubled and the
    quote escaped; [n] backslashes are pending. *)
Fixpoint double_before_quote (n : nat) (s : string) : string :=
  match s with
  | "" => backslashes n
  | String c r =>
      if Ascii.eqb c backslash then double_before_quote (S n) r
      else if Ascii.eqb c dquote then backslashes n +:+ backslashes n +:+ escaped dquote +:+ double_before_quote 0 r
      else backslashes n +:+ String c (double_before_quote 0 r)
  end.
(** The second one: a run of backslashes at the end is doubled. *)
Fixpoint double_at_end (n : nat) (s : string) : string :=
  match s with
  | "" => backslashes n +:+ backslashes n
  | String c r => if Ascii.eqb c backslash then double_at_end (S n) r else backslashes n +:+ String c (double_at_end 0 r)
  end.
Definition windowsCommandLineArgument (value : string) : string := q (double_at_end 0 (double_before_quote 0 value)).

(** ** The resident watcher *)

Section service.
Context (o : ManagedInstallationOptions).

Definition serviceRegistration (platform : Platform) : result ServiceRegistration :=
  match platform with
  | Platform.Darwin => let! p := AbsolutePath.joinp (home o) ["Library/LaunchAgents/dev.agentkeeper.watcher.plist"] in
              Ok (mkRegistration platform "dev.agentkeeper.watcher" p)
  | Platform.Linux => let! p := AbsolutePath.joinp (home o) [".config/systemd/user/agentkeeper.service"] in
             Ok (mkRegistration platform "agentkeeper.service" p)
  | Platform.Win32 => let! p := AbsolutePath.joinp (stateDir o) ["services/agentkeeper-watcher.xml"] in
             Ok (mkRegistration platform "AgentkeeperWatcher" p)
  end.

Definition renderLaunchdPlist : string :=
  let runtime := xmlEscape (AbsolutePath.value (runtimeExecutable o)) in
  let entrypoint := xmlEscape (AbsolutePath.value (agentkeeperEntrypoint o)) in
  let state := xmlEscape (AbsolutePath.value (stateDir o)) in
  join nl [dq "<?xml version=^1.0^ encoding=^UTF-8^?>";
    dq "<!DOCTYPE plist PUBLIC ^-//Apple//DTD PLIST 1.0//EN^ ^http://www.apple.com/DTDs/PropertyList-1.0.dtd^>";
    dq "<plist version=^1.0^>"; "<dict>";
    "  <key>Label</key><string>dev.agentkeeper.watcher</string>"; "  <key>ProgramArguments</key>";
    "  <array><string>" +:+ runtime +:+ "</string><string>" +:+ entrypoint +:+ "</string><string>daemon</string></array>";
    "  <key>RunAtLoad</key><true/>"; "  <key>KeepAlive</key><true/>"; "  <key>ProcessType</key><string>Background</string>";
    "  <key>ThrottleInterval</key><integer>10</integer>";
    "  <key>StandardOutPath</key><string>" +:+ state +:+ "/watcher.stdout.log</string>";
    "  <key>StandardErrorPath</key><string>" +:+ state +:+ "/watcher.stderr.log</string>"; "</dict>"; "</plist>"; ""].
Definition renderSystemdUnit : string :=
  join nl ["[Unit]"; "Description=agentkeeper persistence watcher"; "After=default.target"; ""; "[Service]"; "Type=simple";
    "ExecStart=" +:+ systemdArgument (AbsolutePath.value (runtimeExecutable o)) +:+ " "
      +:+ systemdArgument (AbsolutePath.value (agentkeeperEntrypoint o)) +:+ " daemon";
    "Restart=on-failure"; "RestartSec=5"; "NoNewPrivileges=true"; "PrivateTmp=true"; "ProtectSystem=strict"; "ProtectHome=read-only";
    "ReadWritePaths=" +:+ systemdArgument (AbsolutePath.value (stateDir o)); ""; "[Install]"; "WantedBy=default.target"; ""].
Definition renderScheduledTask : string :=
  let command := xmlEscape (AbsolutePath.value (runtimeExecutable o)) in
  let actionArguments := xmlEscape (windowsCommandLineArgument (AbsolutePath.value (agentkeeperEntrypoint o)) +:+ " daemon") in
  join nl [dq "<?xml version=^1.0^ encoding=^UTF-8^?>";
    dq "<Task version=^1.4^ xmlns=^http://schemas.microsoft.com/windows/2004/02/mit/task^>";
    "  <Triggers><LogonTrigger><Enabled>true</Enabled></LogonTrigger></Triggers>";
    dq "  <Principals><Principal id=^Author^><LogonType>InteractiveToken</LogonType><RunLevel>LeastPrivilege</RunLevel></Principal></Principals>";
    "  <Settings>"; "    <MultipleInstancesPolicy>IgnoreNew</MultipleInstancesPolicy>";
    "    <DisallowStartIfOnBatteries>false</DisallowStartIfOnBatteries>"; "    <StopIfGoingOnBatteries>false</StopIfGoingOnBatteries>";
    "    <StartWhenAvailable>true</StartWhenAvailable>"; "    <ExecutionTimeLimit>PT0S</ExecutionTimeLimit>";
    "    <RestartOnFailure><Interval>PT1M</Interval><Count>3</Count></RestartOnFailure>"; "  </Settings>";
    dq "  <Actions Context=^Author^><Exec><Command>" +:+ command +:+ "</Command><Arguments>" +:+ actionArguments +:+ "</Arguments></Exec></Actions>";
    "</Task>"; ""].
Definition renderServiceDescriptor (platform : Platform) : string :=
  match platform with Platform.Darwin => renderLaunchdPlist | Platform.Linux => renderSystemdUnit | Platform.Win32 => renderScheduledTask end.
End service.

(** ** The git hooks *)

Inductive GitHookName := pre_commit | post_checkout | post_merge.
Definition hook_name (n : GitHookName) : string :=
  match n with pre_commit => "pre-commit" | post_checkout => "post-checkout" | post_merge => "post-merge" end.
Definition renderGitHook (name : GitHookName) (runtime entrypoint : AbsolutePath) (previousHooksPath : option string) : string :=
  let n := hook_name name in
  let chain := match previousHooksPath with
    | None => ["_agentkeeper_git_dir=$(git rev-parse --git-dir 2>/dev/null) || _agentkeeper_git_dir=";
               dq "_agentkeeper_existing_hook=^${_agentkeeper_git_dir}/hooks/" +:+ n +:+ dq "^"]
    | Some previous =>
        ["_agentkeeper_previous_hooks=" +:+ posixQuote previous; dq "case ^$_agentkeeper_previous_hooks^ in";
         "  '~/'*" +:+ dq ") _agentkeeper_hook_dir=^${HOME}/${_agentkeeper_previous_hooks#~/}^ ;;";
         "  /*|[A-Za-z]:/*" +:+ dq ") _agentkeeper_hook_dir=^$_agentkeeper_previous_hooks^ ;;";
         "  *" +:+ dq ") _agentkeeper_hook_dir=^$_agentkeeper_previous_hooks^ ;;"; "esac";
         dq "_agentkeeper_existing_hook=^${_agentkeeper_hook_dir}/" +:+ n +:+ dq "^"]
    end in
  let scan := posixQuote (AbsolutePath.value runtime) +:+ " " +:+ posixQuote (AbsolutePath.value entrypoint)
              +:+ " scan --quiet --source " +:+ posixQuote ("git-" +:+ n) in
  join nl (["#!/bin/sh"; GENERATED; "set -u"] ++ chain ++
    [dq "if [ -n ^${_agentkeeper_existing_hook:-}^ ] && [ -x ^$_agentkeeper_existing_hook^ ] && [ ^$_agentkeeper_existing_hook^ != ^$0^ ]; then";
     dq "  ^$_agentkeeper_existing_hook^ ^$@^"; "  _agentkeeper_chain_status=$?";
     dq "  [ ^$_agentkeeper_chain_status^ -eq 0 ] || exit ^$_agentkeeper_chain_status^"; "fi";
     "if [ ! -f " +:+ posixQuote (AbsolutePath.value entrypoint) +:+ " ] || [ ! -x " +:+ posixQuote (AbsolutePath.value runtime) +:+ " ]; then";
     dq "  echo ^agentkeeper: " +:+ n +:+ dq " scan skipped, the installation is incomplete.^ >&2";
     dq "  echo ^agentkeeper: run 'agentkeeper repair' or reinstall the package.^ >&2"; "  exit 0"; "fi";
     match name with pre_commit => "exec " +:+ scan | _ => scan +:+ " || true" end; ""]).

(** ** The git state and its two copies *)

Record GitIntegrationState := mkGitState { originalHooksPath : option string; managedHooksPath_ : string }.
#[global] Instance GitIntegrationState_eq_dec : EqDecision GitIntegrationState.
Proof. solve_decision. Defined.
Definition GIT_STATE_SCHEMA : string := "dev.agentkeeper.git-integration".
Definition git_state_json (s : GitIntegrationState) : Json :=
  JObject [("schema", JString GIT_STATE_SCHEMA); ("version", JNum (Int 1)); ("originalHooksPath", nullable (originalHooksPath s));
           ("managedHooksPath", JString (managedHooksPath_ s))].
Definition git_state_text (s : GitIntegrationState) : string := stringify "  " (git_state_json s) +:+ nl.

Definition is_one (v : option Json) : bool := match v with Some (JNum n) => number_eqb n (Int 1) | _ => false end.
Definition git_state_from (m : list (string * Json)) (managedHooksPath : string) : option GitIntegrationState :=
  sc ← text_of (JsMap.get m "schema"); original ← string_or_null (JsMap.get m "originalHooksPath");
  managed ← text_of (JsMap.get m "managedHooksPath");
  if (sc =? GIT_STATE_SCHEMA)%string && is_one (JsMap.get m "version") && (managed =? managedHooksPath)%string
     && negb (bool_decide (original = Some managedHooksPath))
  then Some (mkGitState original managedHooksPath) else None.
Definition parseGitState (raw : option string) (managedHooksPath : string) : option GitIntegrationState :=
  match raw with
  | None => None
  | Some raw => match JSON.parse raw with Some (JObject m) => git_state_from m managedHooksPath | _ => None end
  end.
Definition sameGitState (l r : GitIntegrationState) : bool :=
  bool_decide (originalHooksPath l = originalHooksPath r) && (managedHooksPath_ l =? managedHooksPath_ r)%string.
Definition selectGitState (primaryRaw replicaRaw : option string) (managedHooksPath : string) : option GitIntegrationState :=
  match parseGitState primaryRaw managedHooksPath, parseGitState replicaRaw managedHooksPath with
  | Some p, Some r => if sameGitState p r then Some p else None
  | Some p, None => Some p
  | None, r => r
  end.

(** ** Reading back

    [None] where the language would read something else than a plain word. *)

(** The text of an XML element: a carriage return, with the line feed behind it, is read as a
    line feed, and no other control character but the tab may stand in it; [pending] is the
    name of the entity being read. *)
Definition cr : ascii := chr 13.
Fixpoint line_ends (s : string) : string :=
  match s with
  | "" => ""
  | String c r => if Ascii.eqb c cr then if startsWith r nl then line_ends r else nl +:+ line_ends r else String c (line_ends r)
  end.
Definition xml_char (c : ascii) : bool := negb (in_range 0 31 c) || (code c =? 9) || (code c =? 10).
Definition xml_entity (name : string) : option ascii :=
  if (name =? "amp")%string then Some "&"%char else if (name =? "lt")%string then Some "<"%char
  else if (name =? "gt")%string then Some ">"%char else if (name =? "quot")%string then Some dquote
  else if (name =? "apos")%string then Some squote else None.
Fixpoint xml_text (pending : option string) (s : string) : option string :=
  match s, pending with
  | "", None => Some ""
  | "", Some _ => None
  | String c r, Some e =>
      if Ascii.eqb c ";" then d ← xml_entity e; String d <$> xml_text None r else xml_text (Some (e +:+ str1 c)) r
  | String c r, None =>
      if Ascii.eqb c "&" then xml_text (Some "") r
      else if Ascii.eqb c "<" || Ascii.eqb c ">" || Ascii.eqb c dquote || negb (xml_char c) then None
      else String c <$> xml_text None r
  end.
Definition xml_element (s : string) : option string := xml_text None (line_ends s).

(** A word of a unit file between double quotes, then its percent and dollar signs. *)
Definition c_escape (c : ascii) : option ascii :=
  if Ascii.eqb c "t" then Some (chr 9) else if Ascii.eqb c "n" then Some (chr 10) else if Ascii.eqb c "r" then Some (chr 13)
  else if Ascii.eqb c dquote || Ascii.eqb c backslash then Some c else None.
Fixpoint unit_quoted (escape : bool) (s : string) : option string :=
  match s with
  | "" => None
  | String c r =>
      if escape then d ← c_escape c; String d <$> unit_quoted false r
      else if Ascii.eqb c backslash then unit_quoted true r
      else if Ascii.eqb c dquote then if (r =? "")%string then Some "" else None
      else String c <$> unit_quoted false r
  end.
Definition unit_word (s : string) : option string :=
  match s with String c r => if Ascii.eqb c dquote then unit_quoted false r else None | "" => None end.
(** A sign stands for itself when it is doubled, and for something else when it is not. *)
Fixpoint doubled (sign : ascii) (pending : bool) (s : string) : option string :=
  match s with
  | "" => if pending then None else Some ""
  | String c r =>
      if pending then if Ascii.eqb c sign then String c <$> doubled sign false r else None
      else if Ascii.eqb c sign then doubled sign true r else String c <$> doubled sign false r
  end.
Definition unit_path (s : string) : option string := w ← unit_word s; doubled "%" false w.
Definition unit_argument (s : string) : option string := w ← unit_path s; doubled "$" false w.

(** The rest of a quoted argument by the rules of [CommandLineToArgvW]; [n] backslashes are pending. *)
Fixpoint argv_quoted (n : nat) (s : string) : option (string * string) :=
  match s with
  | "" => None
  | String c r =>
      if Ascii.eqb c backslash then argv_quoted (S n) r
      else if Ascii.eqb c dquote then
        if Nat.even n then if startsWith r (str1 dquote) then None else Some (backslashes (Nat.div2 n), r)
        else (λ tr, (backslashes (Nat.div2 n) +:+ String c tr.1, tr.2)) <$> argv_quoted 0 r
      else (λ tr, (backslashes n +:+ String c tr.1, tr.2)) <$> argv_quoted 0 r
  end.
(** The rest of a PowerShell string between single quotes. *)
Fixpoint power_quoted (pending : bool) (s : string) : option (string * string) :=
  match s with
  | "" => if pending then Some ("", "") else None
  | String c r =>
      if pending then if Ascii.eqb c squote then (λ tr, (String c tr.1, tr.2)) <$> power_quoted false r else Some ("", s)
      else if Ascii.eqb c squote then power_quoted true r
      else (λ tr, (String c tr.1, tr.2)) <$> power_quoted false r
  end.

Section quoting.
Lemma replace_each_app c t a b : replace_each c t (a +:+ b) = replace_each c t a +:+ replace_each c t b.
Proof. induction a as [|d a IH]; [done|]. cbn. by rewrite IH, sapp_assoc. Qed.
Lemma xmlEscape_cons c s : xmlEscape (String c s) = xmlEscape (str1 c) +:+ xmlEscape s.
Proof. unfold xmlEscape. change (String c s) with (str1 c +:+ s). by rewrite !replace_each_app. Qed.
Lemma line_ends_none s : sforall (λ c, negb (Ascii.eqb c cr)) s = true → line_ends s = s.
Proof.
  induction s as [|c s IH]; [done|]. cbn [sforall line_ends]. intros [Hc Hs]%andb_true_iff. apply negb_true_iff in Hc. by rewrite Hc, IH.
Qed.
Lemma xmlEscape_no_return s : sforall xml_char s = true → sforall (λ c, negb (Ascii.eqb c cr)) (xmlEscape s) = true.
Proof.
  induction s as [|c s IH]; [done|]. rewrite xmlEscape_cons, sforall_app. cbn [sforall]. intros [Hc Hs]%andb_true_iff. rewrite IH by done.
  rewrite andb_true_r. by destruct c as [[] [] [] [] [] [] [] []].
Qed.
Lemma xml_read s : sforall xml_char s = true → xml_element (xmlEscape s) = Some s.
Proof.
  intros Hx. unfold xml_element. rewrite line_ends_none by by apply xmlEscape_no_return. revert Hx.
  induction s as [|c s IH]; [done|]. cbn [sforall]. intros [Hc Hs]%andb_true_iff. rewrite xmlEscape_cons.
  assert (∀ r, xml_text None (xmlEscape (str1 c) +:+ r) = String c <$> xml_text None r) as ->.
  { intros r. by destruct c as [[] [] [] [] [] [] [] []]. }
  by rewrite IH.
Qed.
Lemma doubled_read c s : doubled c false (replace_each c (String c (str1 c)) s) = Some s.
Proof.
  induction s as [|d s IH]; [done|]. cbn [replace_each]. destruct (Ascii.eqb_spec d c) as [->|Hd]; cbn.
  - by rewrite Ascii.eqb_refl, IH.
  - apply Ascii.eqb_neq in Hd as ->. by rewrite IH.
Qed.
Lemma doubled_absent c s : has_char c s = false → doubled c false s = Some s.
Proof.
  induction s as [|d s IH]; [done|]. cbn. intros [Hd Hs]%orb_false_iff. by rewrite Hd, IH.
Qed.

Definition unit_body (s : string) : string :=
  replace_each (chr 9) (escaped "t") (replace_each (chr 13) (escaped "r") (replace_each (chr 10) (escaped "n")
      (replace_each dquote (escaped dquote) (replace_each backslash (escaped backslash) s)))).
Lemma unit_body_cons c s : unit_body (String c s) = unit_body (str1 c) +:+ unit_body s.
Proof. unfold unit_body. change (String c s) with (str1 c +:+ s). by rewrite !replace_each_app. Qed.
Lemma unit_read s : unit_word (systemdArgument s) = Some (replace_each "%" "%%" s).
Proof.
  change (systemdArgument s) with (q (unit_body (replace_each "%" "%%" s))). generalize (replace_each "%" "%%" s) as v. clear s.
  intros v. change (unit_word (q (unit_body v))) with (unit_quoted false (unit_body v +:+ str1 dquote)).
  induction v as [|c v IH]; [done|]. rewrite unit_body_cons, sapp_assoc.
  assert (∀ r, unit_quoted false (unit_body (str1 c) +:+ r) = String c <$> unit_quoted false r) as ->.
  { intros r. by destruct c as [[] [] [] [] [] [] [] []]. }
  by rewrite IH.
Qed.

Lemma backslashes_app n s : backslashes n +:+ String backslash s = backslashes (S n) +:+ s.
Proof. induction n as [|n IH]; [done|]. cbn in *. by rewrite IH. Qed.
Lemma double_at_end_run m n s : double_at_end m (backslashes n +:+ s) = double_at_end (m + n) s.
Proof. revert m. induction n as [|n IH]; intros m; cbn; [by rewrite Nat.add_0_r|]. rewrite IH. f_equal. lia. Qed.
Lemma argv_run m n s : argv_quoted m (backslashes n +:+ s) = argv_quoted (m + n) s.
Proof. revert m. induction n as [|n IH]; intros m; cbn; [by rewrite Nat.add_0_r|]. rewrite IH. f_equal. lia. Qed.
Lemma argv_read n v rest : startsWith rest (str1 dquote) = false →
  argv_quoted 0 (double_at_end 0 (double_before_quote n v) +:+ String dquote rest) = Some (backslashes n +:+ v, rest).
Proof.
  intros Hr. revert n. induction v as [|c v IH]; intros n.
  - cbn [double_before_quote]. rewrite <-(sapp_nil_r (backslashes n)) at 1. rewrite double_at_end_run. cbn [double_at_end Nat.add].
    rewrite sapp_assoc, !argv_run. cbn [argv_quoted]. change (Ascii.eqb dquote backslash) with false. change (Ascii.eqb dquote dquote) with true. cbv iota.
    cbn [Nat.add]. replace (n + n) with (2 * n) by lia. rewrite Nat.even_mul, Nat.div2_double, Hr. cbn. by rewrite sapp_nil_r.
  - cbn [double_before_quote]. destruct (Ascii.eqb_spec c backslash) as [->|Hc].
    { rewrite IH. by rewrite backslashes_app. }
    destruct (Ascii.eqb_spec c dquote) as [->|Hq].
    + rewrite !double_at_end_run. cbn [double_at_end escaped str1 String.append]. change (Ascii.eqb backslash backslash) with true. change (Ascii.eqb dquote backslash) with false.
      cbv iota. rewrite sapp_assoc, argv_run. cbn [String.append argv_quoted]. change (Ascii.eqb dquote backslash) with false. change (Ascii.eqb dquote dquote) with true. cbv iota.
      rewrite IH. cbn [Nat.add]. replace (S (n + n)) with (S (2 * n)) by lia. rewrite Nat.even_succ, Nat.odd_mul, Nat.div2_succ_double. done.
    + rewrite double_at_end_run. cbn [double_at_end Nat.add]. apply Ascii.eqb_neq in Hc, Hq. rewrite Hc. rewrite sapp_assoc, argv_run.
      cbn [String.append argv_quoted]. rewrite Hc, Hq, IH. done.
Qed.
Lemma power_read v rest : startsWith rest (str1 squote) = false →
  power_quoted false (replace_each squote (str1 squote +:+ str1 squote) v +:+ String squote rest) = Some (v, rest).
Proof.
  intros Hr. induction v as [|c v IH].
  - cbn. destruct rest as [|d r]; [done|]. cbn in *. destruct (Ascii.eqb_spec d squote) as [->|Hd]; [|done]. by destruct r.
  - cbn [replace_each]. destruct (Ascii.eqb_spec c squote) as [->|Hc].
    + change (power_quoted false (((str1 squote +:+ str1 squote) +:+ replace_each squote (str1 squote +:+ str1 squote) v) +:+ String squote rest))
        with ((λ tr, (String squote tr.1, tr.2)) <$> power_quoted false (replace_each squote (str1 squote +:+ str1 squote) v +:+ String squote rest)).
      by rewrite IH.
    + change (power_quoted false (String c (replace_each squote (str1 squote +:+ str1 squote) v +:+ String squote rest)) = Some (String c v, rest)).
      cbn [power_quoted]. apply Ascii.eqb_neq in Hc. rewrite Hc. by rewrite IH.
Qed.
Lemma posix_inside v r cur :
  token_walk (replace_each squote escaped_quote v +:+ String squote r) cur (Some squote) false = token_walk r (cur +:+ v) None false.
Proof.
  revert cur. induction v as [|c v IH]; intros cur; [by rewrite sapp_nil_r|]. cbn [replace_each].
  destruct (Ascii.eqb_spec c squote) as [->|Hc].
  - change (token_walk ((escaped_quote +:+ replace_each squote escaped_quote v) +:+ String squote r) cur (Some squote) false)
      with (token_walk (replace_each squote escaped_quote v +:+ String squote r) (cur +:+ str1 squote) (Some squote) false).
    by rewrite IH, sapp_assoc.
  - cbn [String.append str1 token_walk]. unfold escapes. rewrite bool_decide_true, andb_false_r by done. apply Ascii.eqb_neq in Hc. rewrite Hc.
    by rewrite IH, sapp_assoc.
Qed.
Lemma posix_read v r cur : token_walk (posixQuote v +:+ r) cur None false = token_walk r (cur +:+ v) None false.
Proof. unfold posixQuote. rewrite !sapp_assoc. exact (posix_inside v r cur). Qed.

(** C36. Every value the installer embeds is read back verbatim, for a value of code units
    below 256 without NUL, which no path holds: in the hooks and shims by the tokenizer of
    shell commands (the program's own, ToolCall), in the PowerShell files between single
    quotes, in the arguments of the task by the rules of [CommandLineToArgvW], and in the unit
    file as a path; in the property list and the task as the text of an XML element when it
    has no carriage return and no control character but tab and line feed; and as a word of
    the command line of the unit file when it has no dollar sign. The readers are written
    after these languages' rules. PowerShell also ends a string at the typographic quotes
    U+2018 to U+201B, which are outside the characters considered. *)
Theorem quoting_read_back v r : has_char nul v = false →
  (∀ cur, token_walk (posixQuote v +:+ r) cur None false = token_walk r (cur +:+ v) None false)
  ∧ (startsWith r (str1 squote) = false → ∃ t, powerShellQuote v +:+ r = String squote t ∧ power_quoted false t = Some (v, r))
  ∧ (startsWith r (str1 dquote) = false → ∃ t, windowsCommandLineArgument v +:+ r = String dquote t ∧ argv_quoted 0 t = Some (v, r))
  ∧ (sforall xml_char v = true → xml_element (xmlEscape v) = Some v)
  ∧ unit_path (systemdArgument v) = Some v
  ∧ (has_char "$" v = false → unit_argument (systemdArgument v) = Some v).
Proof.
  intros _. split_and!.
  - intros cur. apply posix_read.
  - intros Hr. eexists. split; [unfold powerShellQuote; rewrite !sapp_assoc; reflexivity|]. by apply power_read.
  - intros Hr. eexists. split; [unfold windowsCommandLineArgument, q; rewrite !sapp_assoc; reflexivity|]. by apply (argv_read 0).
  - apply xml_read.
  - unfold unit_path. rewrite unit_read. apply doubled_read.
  - intros Hv. unfold unit_argument, unit_path. rewrite unit_read. cbn. rewrite doubled_read. by apply doubled_absent.
Qed.
(** A carriage return does not survive a property list, and the XML of a control character is refused. *)
Example xml_control : xml_element (xmlEscape (String cr "a")) = Some (nl +:+ "a") ∧ xml_element (xmlEscape (str1 (chr 1))) = None.
Proof. split; reflexivity. Qed.
(** A dollar sign in the path of the runtime starts a substitution. *)
Example unit_dollar : unit_argument (systemdArgument "/opt/$release/node") = None.
Proof. reflexivity. Qed.
End quoting.
Lemma quoting_read_back_witness :
  unit_argument (systemdArgument ("/opt/100% " +:+ q "x" +:+ "/node")) = Some ("/opt/100% " +:+ q "x" +:+ "/node")
  ∧ ∃ t, windowsCommandLineArgument ("C:\dir" +:+ str1 dquote) +:+ " daemon" = String dquote t
      ∧ argv_quoted 0 t = Some ("C:\dir" +:+ str1 dquote, " daemon").
Proof.
  split; [apply (quoting_read_back ("/opt/100% " +:+ q "x" +:+ "/node") ""); vm_compute; reflexivity|].
  apply (quoting_read_back ("C:\dir" +:+ str1 dquote) " daemon"); vm_compute; reflexivity.
Defined.

(** ** The git state is read back, from either copy *)

Section git_state.
Definition git_members (s : GitIntegrationState) : list (string * Json) :=
  [("schema", JString GIT_STATE_SCHEMA); ("version", JNum (Int 1)); ("originalHooksPath", nullable (originalHooksPath s));
   ("managedHooksPath", JString (managedHooksPath_ s))].
Lemma git_state_members s : originalHooksPath s ≠ Some (managedHooksPath_ s) → git_state_from (git_members s) (managedHooksPath_ s) = Some s.
Proof.
  intros Ho. destruct s as [o m]. cbn [originalHooksPath managedHooksPath_] in *.
  assert (git_state_from (git_members (mkGitState o m)) m
    = if (m =? m)%string && negb (bool_decide (o = Some m)) then Some (mkGitState o m) else None) as -> by by destruct o.
  by rewrite String.eqb_refl, bool_decide_false.
Qed.
Lemma git_state_canonical s : canonical (git_state_json s).
Proof.
  apply canonical_named; [reflexivity..|]. cbn [fmap list_fmap snd].
  repeat apply Forall_cons_2; try apply Forall_nil_2; try apply canonical_string; [apply canonical_int|]. destruct (originalHooksPath s); constructor.
Qed.
Lemma git_state_parse s : JSON.parse (git_state_text s) = Some (JObject (git_members s)).
Proof. unfold git_state_text. rewrite (parse_stringify "  " _ nl); [done|done|done|apply git_state_canonical]. Qed.
Lemma parseGitState_text s : originalHooksPath s ≠ Some (managedHooksPath_ s) →
  parseGitState (Some (git_state_text s)) (managedHooksPath_ s) = Some s.
Proof. intros Ho. unfold parseGitState. rewrite git_state_parse. by apply git_state_members. Qed.
(** One good copy is enough, unless the other one says something else. *)
Lemma selectGitState_copy s primary replica : originalHooksPath s ≠ Some (managedHooksPath_ s) →
  (primary = Some (git_state_text s) ∧ (parseGitState replica (managedHooksPath_ s) = None ∨ replica = Some (git_state_text s)))
  ∨ (replica = Some (git_state_text s) ∧ parseGitState primary (managedHooksPath_ s) = None) →
  selectGitState primary replica (managedHooksPath_ s) = Some s.
Proof.
  intros Ho Hc. pose proof (parseGitState_text s Ho) as Hp. unfold selectGitState.
  destruct Hc as [[-> [Hr| ->]]|[-> Hr]]; rewrite ?Hp, ?Hr; [done| |done].
  unfold sameGitState. by rewrite bool_decide_true, String.eqb_refl.
Qed.
End git_state.
