(* ===== verification/ProtectionPlan.v ===== *)
(** * Planning the protection (src/infrastructure/install/ProtectionInstallation.ts)

    [ProtectionInstallationPlanner]: the managed installation extended with the git hooks,
    the git state and the descriptor of the resident watcher, the transitions of the
    global hooks path and of the service, and the health of an installation. *)

From S2P Require Import Prelude JsString JsMap JsNumber Json NodePath Paths Patterns Values Ports Installation GrantAccess Stores.
From S2P Require Import Shell ManagedArtifacts ManagedInstallation ManagedLifecycle ProtectionInstallation ProtectionArtifacts.
Import JSON ManagedInstallationPlanner.

Module ProtectionInstallationPlanner.

(** [WatcherVersionObservation] *)
Record WatcherVersionObservation (W : Type) := mkWatcher { installedVersion : string; readRunningVersion : M W (option string) }.
Arguments installedVersion {W} _. Arguments readRunningVersion {W} _.

Record PlanningSnapshot := mkPlanning {
  manifestRaw : option string;
  primaryStateRaw : option string;
  replicaStateRaw : option string;
  gitHooksPath : option string;
  service_ : ServiceStatus;
  runningWatcherVersion : option string
}.
Record ProtectionHealth := mkHealth { health_installed : bool; health_healthy : bool; health_conflicts : list InstallationConflict; repairsNeeded : nat }.

Definition extend (o : ManagedInstallationOptions) (extra : list ManagedOwnedArtifact) : ManagedInstallationOptions :=
  mkInstallOptions (home o) (stateDir o) (shell o) (runtimeExecutable o) (agentkeeperEntrypoint o) (agentExecutables o) (profiles o)
    (claudeSettings o) (additionalOwnedArtifacts o ++ extra).

Definition orderTransitions (op : InstallationOperation) (git service : option SystemIntegrationTransition) : list SystemIntegrationTransition :=
  omap (λ t, t) (if bool_decide (op = deactivate) then [service; git] else [git; service]).

Section planner.
Context `{Digest} `{Engine} {W : Type} (files : FileSystem W) (base : ManagedInstallationOptions) (platform : Platform)
  (services : ServiceController W) (git : GitConfigurationController W) (watcher : option (WatcherVersionObservation W)).

Definition gitStatePath : result AbsolutePath := AbsolutePath.joinp (stateDir base) ["installation/git-state.json"].
Definition gitStateReplicaPath : result AbsolutePath := AbsolutePath.joinp (stateDir base) ["installation/git-state.replica.json"].
Definition managedHooksPath : result AbsolutePath := AbsolutePath.joinp (stateDir base) ["git-hooks"].
Definition gitconfig : result AbsolutePath := AbsolutePath.joinp (home base) [".gitconfig"].

Definition newGitState (managed : AbsolutePath) (original : option string) : GitIntegrationState :=
  mkGitState original (AbsolutePath.value managed).

Definition git_hook (managed : AbsolutePath) (state : GitIntegrationState) (name : GitHookName) : result ManagedOwnedArtifact :=
  let! p := AbsolutePath.joinp managed [hook_name name] in
  Ok (mkOwned ("protection:git-hook:" +:+ hook_name name) p
        (renderGitHook name (runtimeExecutable base) (agentkeeperEntrypoint base) (originalHooksPath state)) (Some MODE_0700)).
Definition protectionArtifacts (state : GitIntegrationState) (registration : ServiceRegistration) : result (list ManagedOwnedArtifact) :=
  let! managed := managedHooksPath in
  let! hooks := rmapM (git_hook managed state) [pre_commit; post_checkout; post_merge] in
  let! primary := gitStatePath in
  let! replica := gitStateReplicaPath in
  Ok ([mkOwned "protection:git-state:primary" primary (git_state_text state) (Some MODE_0600);
       mkOwned "protection:git-state:replica" replica (git_state_text state) (Some MODE_0600)]
      ++ hooks
      ++ [mkOwned ("protection:service:" +:+ Platform.name platform) (descriptorPath registration)
            (renderServiceDescriptor base platform) (Some MODE_0600)]).

(** The hooks path, written in any form, names the managed directory. *)
Definition hooksPathPointsToManaged (raw : string) : result bool :=
  let candidate := if (raw =? "~")%string then Ok (home base)
                   else if startsWith raw "~/" || startsWith raw (String "~" (str1 backslash)) then AbsolutePath.joinp (home base) [sdrop 2 raw]
                   else AbsolutePath.of_ raw in
  Ok match (let! c := candidate in let! m := managedHooksPath in Ok (AbsolutePath.equals c m)) with Ok b => b | Err _ => false end.

Definition quoted_or_null (s : option string) : string := match s with Some s => JSON_stringify s | None => "null" end.
(** A transition, or nothing to do, or a conflict. *)
Definition gitTransition (op : InstallationOperation) (installed : bool) (state : GitIntegrationState) (s : PlanningSnapshot) :
    result (InstallationConflict + option SystemIntegrationTransition) :=
  let current := gitHooksPath s in
  let managed := Some (managedHooksPath_ state) in
  let original := originalHooksPath state in
  let! claimed := match current with Some raw => if installed then Ok false else hooksPathPointsToManaged raw | None => Ok false end in
  if claimed then
    let! p := gitconfig in
    Ok (inl (conflict external_state_drift p "core.hooksPath already points at agentkeeper without a manifest proving ownership"))
  else
    let desired := if bool_decide (op = deactivate) then original else managed in
    if bool_decide (current = desired) then Ok (inr None)
    else
      let safeBefore := if bool_decide (op = deactivate) then managed else original in
      if negb (bool_decide (current = safeBefore)) then
        let! p := gitconfig in
        Ok (inl (conflict external_state_drift p
                   ("core.hooksPath changed independently to " +:+ quoted_or_null current +:+ "; it will not be overwritten")))
      else Ok (inr (Some (git_hooks_path current desired
             (if bool_decide (op = deactivate) then "Restore the exact previous global core.hooksPath value"
              else "Route global Git hooks through the checksum-managed chain directory")))).

Definition watcherIsStale (s : PlanningSnapshot) : bool :=
  match watcher, runningWatcherVersion s with
  | Some w, Some running => negb (running =? installedVersion w)%string
  | _, _ => false
  end.
Definition serviceTransition (op : InstallationOperation) (installed : bool) (registration : ServiceRegistration) (s : PlanningSnapshot) :
    InstallationConflict + option SystemIntegrationTransition :=
  let current := service_ s in
  if negb installed && registered current then
    inl (conflict service_id_collision (descriptorPath registration)
           ("Service identifier " +:+ service_id registration +:+ " already exists without an agentkeeper manifest"))
  else if bool_decide (op = deactivate) then
    inr (if registered current then Some (service registration current desired_absent false "Stop and unregister the agentkeeper watcher") else None)
  else if registered current && active current && healthy current then
    inr (if watcherIsStale s
         then Some (service registration current desired_active true
                      "Restart the watcher so it runs the installed version instead of the one it booted with")
         else None)
  else inr (Some (service registration current desired_active false "Register, start, and enable the agentkeeper watcher at login")).

Definition conflictedPlan (op : InstallationOperation) (installed : bool) (c : InstallationConflict) : ProtectionInstallationPlan :=
  mkProtectionPlan op installed false (mkPlan op [] [c]) [] [c].

Definition take_snapshot (registration : ServiceRegistration) : M W PlanningSnapshot :=
  let* mp := mlift (manifestPath base) in
  let* manifest := read_ files mp in
  let* pp := mlift gitStatePath in
  let* primary := read_ files pp in
  let* rp := mlift gitStateReplicaPath in
  let* replica := read_ files rp in
  let* hooks := readGlobalHooksPath git in
  let* status := inspect services registration in
  let* version := match watcher with Some w => readRunningVersion w | None => mok None end in
  mok (mkPlanning manifest primary replica hooks status version).

Definition transition_of (x : InstallationConflict + option SystemIntegrationTransition) : option SystemIntegrationTransition :=
  match x with inr t => t | inl _ => None end.
Definition conflict_of (x : InstallationConflict + option SystemIntegrationTransition) : list InstallationConflict :=
  match x with inl c => [c] | inr _ => [] end.
(** What the plan of the files and the two transitions come to. *)
Definition assemble (op : InstallationOperation) (installed : bool) (managed : AbsolutePath) (s : PlanningSnapshot) (filePlan_ : InstallationPlan)
    (g v : InstallationConflict + option SystemIntegrationTransition) : ProtectionInstallationPlan :=
  let cs := conflicts filePlan_ ++ conflict_of g ++ conflict_of v in
  let external := orderTransitions op (transition_of g) (transition_of v) in
  let ok := installed && (length cs =? 0) && (length (changes filePlan_) =? 0) && (length external =? 0)
            && bool_decide (gitHooksPath s = Some (AbsolutePath.value managed))
            && registered (service_ s) && active (service_ s) && healthy (service_ s) in
  if 0 <? length cs then mkProtectionPlan op installed false (mkPlan op [] cs) [] cs
  else mkProtectionPlan op installed ok filePlan_ external [].

Definition git_state_of (installed : bool) (managed : AbsolutePath) (s : PlanningSnapshot) : option GitIntegrationState :=
  if installed then selectGitState (primaryStateRaw s) (replicaStateRaw s) (AbsolutePath.value managed)
  else Some (newGitState managed (gitHooksPath s)).

Definition plan_protection (op : InstallationOperation) : M W ProtectionInstallationPlan :=
  let* registration := mlift (serviceRegistration base platform) in
  let* s := take_snapshot registration in
  let installed := bool_decide (is_Some (manifestRaw s)) in
  if negb installed && negb (bool_decide (op = activate)) then
    let* fp := plan files base op in
    mok (mkProtectionPlan op false false fp [] (conflicts fp))
  else
    let* managed := mlift managedHooksPath in
    match git_state_of installed managed s with
    | None =>
        let* p := mlift gitStatePath in
        mok (conflictedPlan op installed (conflict invalid_managed_state p
          "Both managed Git state copies are missing, malformed, or disagree; refusing to guess the original core.hooksPath"))
    | Some state =>
        let* extra := mlift (protectionArtifacts state registration) in
        let* fp := plan files (extend base extra) op in
        let* g := mlift (gitTransition op installed state s) in
        mok (assemble op installed managed s fp g (serviceTransition op installed registration s))
    end.

Definition health : M W ProtectionHealth :=
  let* p := plan_protection repair in
  mok (mkHealth (plan_installed p) (plan_healthy p) (plan_conflicts p)
         (length (changes (filePlan p)) + length (externalChanges p))).
End planner.

Lemma not_stale {W} (watcher : option (WatcherVersionObservation W)) s v running :
  watcherIsStale watcher s = false → watcher = Some v → runningWatcherVersion s = Some running → running = installedVersion v.
Proof. unfold watcherIsStale. intros Hs -> Hr. rewrite Hr in Hs. by destruct (String.eqb_spec running (installedVersion v)). Qed.
Lemma some_or {A B} (o : option A) v (a b : B) : o = Some v → match o with Some _ => a | None => b end = a.
Proof. by intros ->. Qed.

(** ** Health

    What the planner observes: the files, the hooks path, the status of services and the
    version the watcher announced. *)

Class ObservationLaws `{Digest} `{Engine} {W : Type} (files : FileSystem W) `{!FileLaws files} (services : ServiceController W)
    (git : GitConfigurationController W) (watcher : option (WatcherVersionObservation W)) := {
  hooks_at : W → option string;
  status_at : W → ServiceRegistration → ServiceStatus;
  version_at : W → option string;
  same_world w w' : Prop := contents w' = contents w ∧ hooks_at w' = hooks_at w ∧ (∀ r, status_at w' r = status_at w r) ∧ version_at w' = version_at w;
  read_quiet : ∀ p w, same_world w (read_ files p w).1;
  hooks_quiet : ∀ w, same_world w (readGlobalHooksPath git w).1 ∧ ∀ h, (readGlobalHooksPath git w).2 = Ok h → h = hooks_at w;
  inspect_quiet : ∀ r w, same_world w (inspect services r w).1 ∧ ∀ s, (inspect services r w).2 = Ok s → s = status_at w r;
  version_quiet : ∀ v w, watcher = Some v →
    same_world w (readRunningVersion v w).1 ∧ ∀ x, (readRunningVersion v w).2 = Ok x → x = version_at w
}.

Section health_sound.
Context `{Digest} `{Engine} {W : Type} (files : FileSystem W) `{!FileLaws files} (base : ManagedInstallationOptions) (platform : Platform)
  (services : ServiceController W) (git : GitConfigurationController W) (watcher : option (WatcherVersionObservation W))
  `{!ObservationLaws files services git watcher}.

Lemma same_refl w : same_world w w.
Proof. done. Qed.
Lemma same_trans w1 w2 w3 : same_world w1 w2 → same_world w2 w3 → same_world w1 w3.
Proof. intros (A1 & A2 & A3 & A4) (B1 & B2 & B3 & B4). split_and!; [congruence|congruence| |congruence]. intros r. by rewrite B3. Qed.

Definition quiet {A} (x : M W A) (g : W → A → Prop) : Prop := ∀ w, same_world w (x w).1 ∧ ∀ a, (x w).2 = Ok a → g w a.
(** What may be said of an observation does not change while observing. *)
Definition stable {A} (g : W → A → Prop) : Prop := ∀ w w' a, same_world w w' → g w' a → g w a.
Lemma quiet_seq {A B} (x : M W A) (f : A → M W B) g h : quiet x g → (∀ a, quiet (f a) (h a)) → (∀ a, stable (h a)) →
  quiet (mseq x f) (λ w b, ∃ a, g w a ∧ h a w b).
Proof.
  intros Hx Hf Hs w. unfold mseq. destruct (Hx w) as [H1 H2]. destruct (x w) as [w1 [a|e]]; cbn [fst snd] in *; [|by split].
  destruct (Hf a w1) as [H3 H4]. split; [by eapply same_trans|]. intros b Hb. exists a. split; [by apply H2|]. eapply Hs; [done|]. by apply H4.
Qed.
Lemma quiet_lift {A} (r : result A) : quiet (mlift r) (λ _ a, r = Ok a).
Proof. intros w. by split. Qed.
Lemma quiet_read p : quiet (read_ files p) (λ w t, t = contents w !! AbsolutePath.value p).
Proof. intros w. split; [apply read_quiet|]. intros a Ha. by apply read_law. Qed.
Lemma quiet_run {A} (x : M W A) g w w' a : quiet x g → x w = (w', Ok a) → same_world w w' ∧ g w a.
Proof. intros Hx E. destruct (Hx w) as [H1 H2]. rewrite E in H1, H2. split; [done|by apply H2]. Qed.

Lemma quiet_hooks : quiet (readGlobalHooksPath git) (λ w h, h = hooks_at w).
Proof. intros w. apply hooks_quiet. Qed.
Lemma quiet_inspect r : quiet (inspect services r) (λ w s, s = status_at w r).
Proof. intros w. apply inspect_quiet. Qed.
Lemma quiet_version : quiet (match watcher with Some v => readRunningVersion v | None => mok None end)
  (λ w x, x = match watcher with Some _ => version_at w | None => None end).
Proof.
  enough (∀ x, watcher = x → quiet (match x with Some v => readRunningVersion v | None => mok None end)
    (λ w y, y = match x with Some _ => version_at w | None => None end)) as Hx by by apply Hx.
  intros [v|] E w; [by apply version_quiet|]. split; [apply same_refl|]. by intros a [= <-].
Qed.

(** The snapshot is what is there. *)
Lemma snapshot_taken registration w w' s : take_snapshot files base services git watcher registration w = (w', Ok s) →
  same_world w w' ∧ ∃ mp pp rp, manifestPath base = Ok mp ∧ gitStatePath base = Ok pp ∧ gitStateReplicaPath base = Ok rp
    ∧ s = mkPlanning (contents w !! AbsolutePath.value mp) (contents w !! AbsolutePath.value pp) (contents w !! AbsolutePath.value rp)
            (hooks_at w) (status_at w registration) (match watcher with Some _ => version_at w | None => None end).
Proof.
  unfold take_snapshot. intros (w0 & mp & E0 & E)%mseq_Ok. injection E0 as <- Hmp.
  apply mseq_Ok in E as (w1 & m & E1 & E). apply (quiet_run _ _ _ _ _ (quiet_read mp)) in E1 as [S1 Hm].
  apply mseq_Ok in E as (w1' & pp & E0 & E). injection E0 as <- Hpp.
  apply mseq_Ok in E as (w2 & p & E2 & E). apply (quiet_run _ _ _ _ _ (quiet_read pp)) in E2 as [S2 Hp].
  apply mseq_Ok in E as (w2' & rp & E0 & E). injection E0 as <- Hrp.
  apply mseq_Ok in E as (w3 & r & E3 & E). apply (quiet_run _ _ _ _ _ (quiet_read rp)) in E3 as [S3 Hr].
  apply mseq_Ok in E as (w4 & h & E4 & E). apply (quiet_run _ _ _ _ _ quiet_hooks) in E4 as [S4 Hh].
  apply mseq_Ok in E as (w5 & st & E5 & E). apply (quiet_run _ _ _ _ _ (quiet_inspect registration)) in E5 as [S5 Hst].
  apply mseq_Ok in E as (w6 & v & E6 & E). apply (quiet_run _ _ _ _ _ quiet_version) in E6 as [S6 Hv].
  apply mok_Ok in E as [-> ->].
  pose proof (same_trans _ _ _ S1 S2) as T2. pose proof (same_trans _ _ _ T2 S3) as T3. pose proof (same_trans _ _ _ T3 S4) as T4.
  pose proof (same_trans _ _ _ T4 S5) as T5. pose proof (same_trans _ _ _ T5 S6) as T6. split; [done|].
  exists mp, pp, rp. split_and!; [done..|]. subst m p r h st v.
  destruct S1 as (-> & _), T2 as (-> & _), T3 as (_ & -> & _), T4 as (_ & _ & -> & _), T5 as (_ & _ & _ & ->). done.
Qed.

Lemma manifest_valid t raw payload : manifest_of (Some t) = valid raw payload → raw = t.
Proof.
  unfold manifest_of. destruct (JSON.parse t) as [v|]; [|done]. destruct (text_of _); [|done]. destruct (prop v "payload") as [[]|]; try done.
  destruct (negb _); [done|]. destruct (parsePayload _); [|done]. by intros [= <- _].
Qed.
Lemma planned_valid o w w1 p mp t : manifestPath o = Ok mp → contents w !! AbsolutePath.value mp = Some t →
  plan files o repair w = (w1, Ok p) → conflicts p = [] → ∃ payload, manifest_of (Some t) = valid t payload.
Proof.
  intros Hmp Ht Hplan Hc. unfold plan in Hplan. rewrite Hmp in Hplan.
  apply mseq_Ok in Hplan as (wa & q & Ea & Hplan). apply mok_Ok in Ea as [-> ->].
  apply mseq_Ok in Hplan as (wa & rw & Ea & Hplan). eapply (looks_run files) in Ea as [Ha Hraw]; [|apply looks_read].
  rewrite Hraw, Ht in Hplan. destruct (manifest_of (Some t)) as [|m|raw payload] eqn:E.
  - unfold manifest_of in E. destruct (JSON.parse t) as [v|]; [|done]. destruct (text_of _); [|done]. destruct (prop v "payload") as [[]|]; try done.
    destruct (negb _); [done|]. by destruct (parsePayload _).
  - by apply mok_Ok in Hplan as [_ ->].
  - exists payload. by rewrite (manifest_valid _ _ _ E).
Qed.

(** A plan that is called healthy has nothing to do and found everything in place. *)
Lemma assemble_healthy op installed managed s fp g v : plan_healthy (assemble op installed managed s fp g v) = true →
  assemble op installed managed s fp g v = mkProtectionPlan op true true fp [] [] ∧ conflicts fp = [] ∧ changes fp = [] ∧ v = inr None
  ∧ gitHooksPath s = Some (AbsolutePath.value managed) ∧ registered (service_ s) = true ∧ active (service_ s) = true ∧ healthy (service_ s) = true.
Proof.
  unfold assemble. destruct (conflicts fp ++ conflict_of g ++ conflict_of v) as [|x l] eqn:Ec; [|done].
  apply app_nil in Ec as [Hf Ec]. apply app_nil in Ec as [Hg Hv]. cbn [length Nat.ltb Nat.leb Nat.eqb plan_healthy]. rewrite andb_true_r.
  intros Hb. rewrite Hb. repeat (apply andb_true_iff in Hb as [Hb ?]). destruct g as [|g], v as [|v]; try done.
  destruct (changes fp); [|done]. apply bool_decide_eq_true in H4. subst installed.
  destruct v as [v|]; [unfold orderTransitions, transition_of in *; by destruct (bool_decide (op = deactivate)), g|].
  split_and!; try done. unfold orderTransitions, transition_of in *. by destruct (bool_decide (op = deactivate)), g.
Qed.

(** What keeps an installation alive. *)
Record protected (w : W) : Prop := mkProtected {
  protected_files : ∃ mp raw payload, manifestPath base = Ok mp ∧ contents w !! AbsolutePath.value mp = Some raw
    ∧ manifest_of (Some raw) = valid raw payload ∧ ∀ e, e ∈ entries payload → intact (contents w) e ∧ backup_intact (contents w) e;
  protected_state : ∃ managed pp rp state, managedHooksPath base = Ok managed ∧ gitStatePath base = Ok pp ∧ gitStateReplicaPath base = Ok rp
    ∧ hooks_at w = Some (AbsolutePath.value managed)
    ∧ selectGitState (contents w !! AbsolutePath.value pp) (contents w !! AbsolutePath.value rp) (AbsolutePath.value managed) = Some state;
  protected_watcher : ∃ registration, serviceRegistration base platform = Ok registration
    ∧ status_at w registration = mkServiceStatus true true true;
  protected_version : ∀ v running, watcher = Some v → version_at w = Some running → running = installedVersion v
}.

(** C13. Health is not claimed when something is missing. When the health of the protection
    is reported as good, every file of the manifest has its recorded checksum and every
    backup is intact, the global hooks path is the managed directory and the previous one
    is known, the resident watcher is registered, active and healthy, and the version it
    announced is the installed one; no conflict and no repair is reported; and asking
    changed nothing. *)
Theorem health_sound w w' h : health files base platform services git watcher w = (w', Ok h) → health_healthy h = true →
  protected w ∧ health_installed h = true ∧ health_conflicts h = [] ∧ repairsNeeded h = 0 ∧ contents w' = contents w.
Proof.
  unfold health. intros (w1 & p & E & Eh)%mseq_Ok Hh. apply mok_Ok in Eh as [-> ->]. cbn in Hh |- *. unfold plan_protection in E.
  apply mseq_Ok in E as (w0 & reg & E0 & E). injection E0 as <- Hreg.
  apply mseq_Ok in E as (w2 & s & E2 & E). destruct (snapshot_taken _ _ _ _ E2) as (Hsame & mp & pp & rp & Hmp & Hpp & Hrp & Es).
  destruct (bool_decide (is_Some (manifestRaw s))) eqn:Einst; cbn [negb andb] in E.
  2:{ change (negb (bool_decide (repair = activate))) with true in E. apply mseq_Ok in E as (w3 & fp & _ & E). by apply mok_Ok in E as [_ ->]. }
  apply mseq_Ok in E as (w3 & managed & E3 & E). injection E3 as <- Hman.
  destruct (git_state_of true managed s) as [state|] eqn:Est.
  2:{ apply mseq_Ok in E as (w3 & q & E3 & E). by apply mok_Ok in E as [_ ->]. }
  apply mseq_Ok in E as (w3 & extra & E3 & E). injection E3 as <- Hext.
  apply mseq_Ok in E as (w3 & fp & E3 & E). apply mseq_Ok in E as (w4 & g & E4 & E). injection E4 as <- Hg. apply mok_Ok in E as [-> ->].
  destruct (assemble_healthy _ _ _ _ _ _ _ Hh) as (Ea & Hcf & Hch & Hv & Hhooks & Hsr & Hsa & Hsh). rewrite Ea. clear Hh Ea.
  apply bool_decide_eq_true in Einst as [raw Hraw]. subst s. cbn [manifestRaw gitHooksPath service_ runningWatcherVersion primaryStateRaw replicaStateRaw git_state_of] in *.
  destruct Hsame as (Hc2 & _ & _ & _).
  assert (contents w2 !! AbsolutePath.value mp = Some raw) as Hraw2 by by rewrite Hc2.
  destruct (planned_valid (extend base extra) w2 w3 fp mp raw Hmp Hraw2 E3 Hcf) as [payload Hpay].
  destruct (plan_repair files (extend base extra) w2 w3 fp mp raw payload) as (Hc3 & Hall & _ & Hback); [done|by rewrite Hraw2|done|done|].
  rewrite Hch in Hall. rewrite Hc2 in *.
  split; [split|].
  - exists mp, raw, payload. split_and!; [done..|]. intros e He. split; [|by apply Hback].
    destruct (Hall e He) as [Hi|(c & []%elem_of_nil & _)]. done.
  - by exists managed, pp, rp, state.
  - exists reg. split; [done|]. destruct (status_at w reg). cbn in *. congruence.
  - intros v running Hwv Hrun. unfold serviceTransition in Hv. cbn [service_ negb andb] in Hv. rewrite Hsr, Hsa, Hsh in Hv.
    change (bool_decide (repair = deactivate)) with false in Hv. cbn [andb] in Hv.
    destruct (watcherIsStale watcher _) eqn:Estale in Hv; [by injection Hv|].
    eapply (not_stale _ _ v running Estale); [done|]. cbn [runningWatcherVersion]. by rewrite (some_or _ _ _ _ Hwv).
  - cbn. rewrite Hch. by split_and!.
Qed.
End health_sound.
End ProtectionInstallationPlanner.

(** ** An installed machine *)

Module SampleMachine.
Import ProtectionInstallationPlanner Machines.
#[local] Existing Instance SampleHome.silent.
Definition watcher : option (WatcherVersionObservation Machine) := Some (mkWatcher Machine "1.4.0" (λ w, (w, Ok (Some "1.4.0")))).
Definition base : ManagedInstallationOptions := SampleHome.current.
Definition fresh : Machine := mkMachine SampleHome.before_ (Some "~/hooks") (λ _, down) true.
Definition activation_plan : M Machine ProtectionInstallationPlan :=
  plan_protection Machines.files base Platform.Linux Machines.services Machines.git watcher activate.
Definition activated : M Machine ProtectionInstallationExecutionResult :=
  let* p := activation_plan in
  TransactionalProtectionInstallationExecutor.execute Machines.executor Machines.services Machines.git p.
Definition disk_after : Contents := Eval vm_compute in disk (activated fresh).1.
Definition hooks_after_ : option string := Eval vm_compute in hooksPath (activated fresh).1.
Definition machine_ : Machine := mkMachine disk_after hooks_after_ (λ _, up) true.
Example activation_result : (activated fresh).2 = Ok (mkProtectionResult 14 2 [])
  ∧ hooks_after_ = Some "/home/u/.local/state/agentkeeper/git-hooks".
Proof. split; vm_compute; reflexivity. Qed.

#[global] Instance observation : ObservationLaws Machines.files Machines.services Machines.git watcher.
Proof.
  exists (λ w, set_path (hooksPath w)) (λ w r, running w (service_id r)) (λ _, Some "1.4.0").
  - by intros p w.
  - intros w. split; [done|]. by intros h [= <-].
  - intros r w. split; [done|]. by intros s [= <-].
  - intros v w [= <-]. split; [done|]. by intros x [= <-].
Defined.
Lemma checked_healthy : health Machines.files base Platform.Linux Machines.services Machines.git watcher machine_
  = ((health Machines.files base Platform.Linux Machines.services Machines.git watcher machine_).1, Ok (mkHealth true true [] 0)).
Proof. apply SampleHome.with_snd. vm_compute. reflexivity. Qed.

(** Deactivation gives the files and the hooks path back. *)
Definition deactivated : M Machine ProtectionInstallationExecutionResult :=
  let* p := plan_protection Machines.files base Platform.Linux Machines.services Machines.git watcher deactivate in
  TransactionalProtectionInstallationExecutor.execute Machines.executor Machines.services Machines.git p.
Definition restored (w : Machine) : bool := bool_decide (disk w = SampleHome.before_) && bool_decide (hooksPath w = Some "~/hooks").
Example deactivation_result : restored (deactivated machine_).1 = true.
Proof. vm_compute. reflexivity. Qed.
End SampleMachine.

#[local] Existing Instance SampleHome.silent.
Lemma health_sound_witness :
  ProtectionInstallationPlanner.protected Machines.files SampleMachine.base Platform.Linux Machines.services Machines.git SampleMachine.watcher SampleMachine.machine_.
Proof.
  exact (proj1 (ProtectionInstallationPlanner.health_sound Machines.files SampleMachine.base Platform.Linux Machines.services Machines.git SampleMachine.watcher
    SampleMachine.machine_ _ _ SampleMachine.checked_healthy eq_refl)).
Defined.
