(* ===== verification/Controllers.v ===== *)
(** * The service managers and git
      (src/infrastructure/install/ServiceControllerBase.ts, LaunchdServiceController.ts,
      SystemdServiceController.ts, ScheduledTaskServiceController.ts,
      PlatformServiceController.ts, ProcessGitConfigurationController.ts,
      SystemIntegrationErrors.ts)

    The controllers behind the ports of ProtectionInstallation, over any runner of
    processes. A strategy is the record of what a platform's subclass overrides. *)

From S2P Require Import Prelude JsString Regex JsNumber NodePath Paths Values SensitivePaths Entities Ports Installation ManagedArtifacts ManagedInstallation ManagedLifecycle.
From S2P Require Import ProtectionInstallation ProtectionArtifacts ProtectionPlan.
Import Regex.

(** ** The runner of processes (src/application/ports/SystemIntegration.ts) *)

Record InstallationProcessResult := mkProcessResult { exitCode : Z; stdout : string; stderr : string }.
Definition InstallationProcessExecutor (W : Type) : Type := string → list string → M W InstallationProcessResult.

Module SystemIntegrationErrors.
(** [SystemIntegrationCommandError], whose class nothing asks for. *)
Definition command_error (executable : string) (args : list string) (r : InstallationProcessResult) : exn :=
  JsError (executable +:+ " " +:+ join " " args +:+ " failed with exit " +:+ string_of_Z (exitCode r) +:+ ": " +:+ trim (stderr r)).
Definition requireSuccess (executable : string) (args : list string) (r : InstallationProcessResult) : result unit :=
  if bool_decide (exitCode r = 0%Z) then Ok tt else Err (command_error executable args r).
End SystemIntegrationErrors.
Import SystemIntegrationErrors.

Definition success {W} (execute : InstallationProcessExecutor W) (executable : string) (args : list string) : M W unit :=
  let* r := execute executable args in mlift (requireSuccess executable args r).

(** ** What all managers share *)

Record Strategy (W : Type) := mkStrategy {
  platform : Platform;
  class_name : string;
  doInspect : ServiceRegistration → M W ServiceStatus;
  applyDesired : ServiceRegistration → Desired → ServiceStatus → M W unit;
  restartActive : ServiceRegistration → M W unit;
  stopPreservingRegistration : ServiceRegistration → M W unit
}.
Arguments platform {W} _. Arguments class_name {W} _. Arguments doInspect {W} _ _. Arguments applyDesired {W} _ _ _ _.
Arguments restartActive {W} _ _. Arguments stopPreservingRegistration {W} _ _.

Module ServiceControllerBase.
Definition absentStatus : ServiceStatus := mkServiceStatus false false false.
Definition sameStatus (l r : ServiceStatus) : bool :=
  eqb (registered l) (registered r) && eqb (active l) (active r) && eqb (healthy l) (healthy r).
Definition unexpected (expected : option ServiceStatus) (current : ServiceStatus) : bool :=
  match expected with Some e => negb (sameStatus current e) | None => false end.
Definition changed_error (registration : ServiceRegistration) : exn :=
  JsError ("Service " +:+ service_id registration +:+ " changed immediately before mutation").
(** The two early returns of [setDesired]. *)
Definition reached (desired : Desired) (current : ServiceStatus) : bool :=
  match desired with
  | desired_active => registered current && active current && healthy current
  | desired_absent => negb (registered current)
  end.

Section base.
Context {W : Type} (s : Strategy W).
Definition assertOwnRegistration (registration : ServiceRegistration) : result unit :=
  if bool_decide (service_platform registration = platform s) then Ok tt
  else throw (class_name s +:+ " cannot manage a " +:+ Platform.name (service_platform registration) +:+ " registration").
Definition inspect (registration : ServiceRegistration) : M W ServiceStatus :=
  let* _ := mlift (assertOwnRegistration registration) in doInspect s registration.
Definition setDesired (registration : ServiceRegistration) (desired : Desired) (expected : option ServiceStatus) : M W unit :=
  let* _ := mlift (assertOwnRegistration registration) in
  let* current := doInspect s registration in
  if unexpected expected current then mlift (Err (changed_error registration))
  else if reached desired current then mok tt
  else applyDesired s registration desired current.
Definition restart (registration : ServiceRegistration) (expected : option ServiceStatus) : M W unit :=
  let* _ := mlift (assertOwnRegistration registration) in
  let* current := doInspect s registration in
  if unexpected expected current then mlift (Err (changed_error registration))
  else if registered current && active current then restartActive s registration
  else applyDesired s registration desired_active current.
Definition restore (registration : ServiceRegistration) (status : ServiceStatus) : M W unit :=
  if negb (registered status) then setDesired registration desired_absent None
  else if active status then setDesired registration desired_active None
  else let* _ := setDesired registration desired_active None in stopPreservingRegistration s registration.
End base.
End ServiceControllerBase.
Import ServiceControllerBase.

(** ** launchd *)

Module LaunchdServiceController.
Record Options := mkOptions {
  launchdDomain : option string;
  launchctl : string;
  serviceSettleTimeoutMs : Z;
  serviceSettlePollMs : Z
}.
Definition defaults : Options := mkOptions None "/bin/launchctl" 5000 100.
Definition domain_shape : regex := seqs [Bol; lit "gui/"; plus (Chars is_digit); Eol].
Definition running_shape : regex :=
  seqs [WordBoundary; lit_i "state"; Star (Chars is_space); lit "="; Star (Chars is_space); lit_i "running"; WordBoundary].

Section launchd.
(** [processUid] is [process.getuid()] where there is one. *)
Context {W : Type} (execute : InstallationProcessExecutor W) (clock : Clock W) (sleep : Z → M W unit) (processUid : option Z) (o : Options).
Definition domain : result string :=
  match match launchdDomain o with Some d => Some d | None => (λ uid, "gui/" +:+ string_of_Z uid) <$> processUid end with
  | Some d => if Regex.test domain_shape d then Ok d else throw "A validated launchdDomain such as gui/501 is required on macOS"
  | None => throw "A validated launchdDomain such as gui/501 is required on macOS"
  end.
Definition target_of (d : string) (registration : ServiceRegistration) : string := d +:+ "/" +:+ service_id registration.
Definition doInspect (registration : ServiceRegistration) : M W ServiceStatus :=
  let* d := mlift domain in
  let* r := execute (launchctl o) ["print"; target_of d registration] in
  if negb (bool_decide (exitCode r = 0%Z)) then mok absentStatus
  else
    let active_ := Regex.test running_shape (stdout r) in
    mok (mkServiceStatus true active_ active_).
Definition still_registered (registration : ServiceRegistration) : exn :=
  JsError ("Service " +:+ service_id registration +:+ " is still registered " +:+ string_of_Z (serviceSettleTimeoutMs o) +:+ "ms after bootout").
Fixpoint release_loop (fuel : nat) (registration : ServiceRegistration) (deadline : Z) : M W unit :=
  match fuel with
  | O => mlift (throw "out of fuel")
  | S f =>
      let* s := doInspect registration in
      if negb (registered s) then mok tt
      else
        let* t := now clock in
        if (deadline <=? t)%Z then mlift (Err (still_registered registration))
        else let* _ := sleep (serviceSettlePollMs o) in release_loop f registration deadline
  end.
(** A round for each millisecond of the wait. *)
Definition ROUNDS : nat := S (Z.to_nat (serviceSettleTimeoutMs o)).
Definition awaitRelease (registration : ServiceRegistration) : M W unit :=
  let* start := now clock in release_loop ROUNDS registration (start + serviceSettleTimeoutMs o)%Z.
Definition bootout (registration : ServiceRegistration) (target : string) : M W unit :=
  let* _ := success execute (launchctl o) ["bootout"; target] in awaitRelease registration.
Definition bootstrap (registration : ServiceRegistration) (d : string) : M W unit :=
  success execute (launchctl o) ["bootstrap"; d; AbsolutePath.value (descriptorPath registration)].
Definition applyDesired (registration : ServiceRegistration) (desired : Desired) (current : ServiceStatus) : M W unit :=
  let* d := mlift domain in
  let target := target_of d registration in
  match desired with
  | desired_absent => bootout registration target
  | desired_active =>
      if negb (registered current) then bootstrap registration d
      else success execute (launchctl o) ["kickstart"; "-k"; target]
  end.
Definition stopPreservingRegistration (registration : ServiceRegistration) : M W unit :=
  let* d := mlift domain in success execute (launchctl o) ["kill"; "SIGTERM"; target_of d registration].
Definition restartActive (registration : ServiceRegistration) : M W unit :=
  let* d := mlift domain in
  let* _ := bootout registration (target_of d registration) in bootstrap registration d.
Definition strategy : Strategy W :=
  mkStrategy W Platform.Darwin "LaunchdServiceController" doInspect applyDesired restartActive stopPreservingRegistration.
End launchd.
End LaunchdServiceController.

(** ** systemd *)

Module SystemdServiceController.
Definition KNOWN_STATES : list string := ["disabled"; "indirect"; "static"; "generated"; "linked"; "masked"].
Section systemd.
Context {W : Type} (execute : InstallationProcessExecutor W) (systemctl : string).
Definition doInspect (registration : ServiceRegistration) : M W ServiceStatus :=
  let* enabled := execute systemctl ["--user"; "is-enabled"; service_id registration] in
  let* active_ := execute systemctl ["--user"; "is-active"; service_id registration] in
  let isActive := bool_decide (exitCode active_ = 0%Z) && (trim (stdout active_) =? "active")%string in
  let registered_ := bool_decide (exitCode enabled = 0%Z) || isActive || str_includes KNOWN_STATES (trim (stdout enabled)) in
  mok (mkServiceStatus registered_ isActive (registered_ && isActive)).
Definition applyDesired (registration : ServiceRegistration) (desired : Desired) (_ : ServiceStatus) : M W unit :=
  let* _ := success execute systemctl ["--user"; "daemon-reload"] in
  success execute systemctl
    match desired with
    | desired_active => ["--user"; "enable"; "--now"; service_id registration]
    | desired_absent => ["--user"; "disable"; "--now"; service_id registration]
    end.
Definition stopPreservingRegistration (registration : ServiceRegistration) : M W unit :=
  success execute systemctl ["--user"; "stop"; service_id registration].
Definition restartActive (registration : ServiceRegistration) : M W unit :=
  let* _ := success execute systemctl ["--user"; "daemon-reload"] in
  success execute systemctl ["--user"; "restart"; service_id registration].
Definition strategy : Strategy W :=
  mkStrategy W Platform.Linux "SystemdServiceController" doInspect applyDesired restartActive stopPreservingRegistration.
End systemd.
End SystemdServiceController.

(** ** The task scheduler *)

Module ScheduledTaskServiceController.
Definition WINDOWS_TASK_RUNNING : string := "agentkeeper-task-state:running".
Definition WINDOWS_TASK_STOPPED : string := "agentkeeper-task-state:stopped".
Definition powerShellLiteral (value : string) : string :=
  str1 squote +:+ replace_each squote (str1 squote +:+ str1 squote) value +:+ str1 squote.
Definition renderTaskStateProbe (taskName : string) : string :=
  join (str1 (chr 13) +:+ nl)
    ["$ErrorActionPreference = 'Stop'"; "$taskName = " +:+ powerShellLiteral taskName;
     "$task = Get-ScheduledTask -TaskName $taskName -ErrorAction Stop"; "if ([int]$task.State -eq 4) {";
     "  [Console]::Out.Write('" +:+ WINDOWS_TASK_RUNNING +:+ "')"; "} else {";
     "  [Console]::Out.Write('" +:+ WINDOWS_TASK_STOPPED +:+ "')"; "}"; ""].
(** [Buffer.from(text, 'utf16le')]: code units below 256 have a zero high byte. *)
Definition utf16le (text : string) : list nat := concat (map (λ c, [code c; 0]) (String.list_ascii_of_string text)).
Definition BASE64 : string := "ABCDEFGHIJKLMNOPQRSTUVWXYZabcdefghijklmnopqrstuvwxyz0123456789+/".
Definition base64_digit (n : nat) : string := match String.get n BASE64 with Some c => str1 c | None => "" end.
(** [buffer.toString('base64')] *)
Fixpoint base64 (bytes : list nat) : string :=
  match bytes with
  | a :: b :: c :: rest =>
      base64_digit (a / 4) +:+ base64_digit (a mod 4 * 16 + b / 16) +:+ base64_digit (b mod 16 * 4 + c / 64) +:+ base64_digit (c mod 64)
      +:+ base64 rest
  | [a; b] => base64_digit (a / 4) +:+ base64_digit (a mod 4 * 16 + b / 16) +:+ base64_digit (b mod 16 * 4) +:+ "="
  | [a] => base64_digit (a / 4) +:+ base64_digit (a mod 4 * 16) +:+ "=="
  | [] => ""
  end.
Definition encodedPowerShellArguments (script : string) : list string :=
  ["-NoLogo"; "-NoProfile"; "-NonInteractive"; "-EncodedCommand"; base64 (utf16le script)].

Section scheduler.
Context {W : Type} (execute : InstallationProcessExecutor W) (schtasks powershell : string).
Definition probe_args (registration : ServiceRegistration) : list string :=
  encodedPowerShellArguments (renderTaskStateProbe (service_id registration)).
Definition doInspect (registration : ServiceRegistration) : M W ServiceStatus :=
  let* query := execute schtasks ["/Query"; "/TN"; service_id registration; "/XML"] in
  if negb (bool_decide (exitCode query = 0%Z)) then mok absentStatus
  else
    let* probe := execute powershell (probe_args registration) in
    let* _ := mlift (requireSuccess powershell (probe_args registration) probe) in
    let state := trim (stdout probe) in
    if negb (state =? WINDOWS_TASK_RUNNING)%string && negb (state =? WINDOWS_TASK_STOPPED)%string
    then mlift (throw ("PowerShell returned an invalid machine-readable task state for " +:+ service_id registration))
    else let active_ := (state =? WINDOWS_TASK_RUNNING)%string in mok (mkServiceStatus true active_ active_).
Definition end_task (registration : ServiceRegistration) : list string := ["/End"; "/TN"; service_id registration].
Definition create_task (registration : ServiceRegistration) : list string :=
  ["/Create"; "/TN"; service_id registration; "/XML"; AbsolutePath.value (descriptorPath registration); "/F"].
Definition run_task (registration : ServiceRegistration) : list string := ["/Run"; "/TN"; service_id registration].
(** The answer to [/End] is not looked at before a deletion. *)
Definition applyDesired (registration : ServiceRegistration) (desired : Desired) (_ : ServiceStatus) : M W unit :=
  match desired with
  | desired_absent =>
      let* _ := execute schtasks (end_task registration) in
      success execute schtasks ["/Delete"; "/TN"; service_id registration; "/F"]
  | desired_active =>
      let* _ := success execute schtasks (create_task registration) in success execute schtasks (run_task registration)
  end.
Definition stopPreservingRegistration (registration : ServiceRegistration) : M W unit :=
  success execute schtasks (end_task registration).
Definition restartActive (registration : ServiceRegistration) : M W unit :=
  let* _ := success execute schtasks (end_task registration) in
  let* _ := success execute schtasks (create_task registration) in
  success execute schtasks (run_task registration).
Definition strategy : Strategy W :=
  mkStrategy W Platform.Win32 "ScheduledTaskServiceController" doInspect applyDesired restartActive stopPreservingRegistration.
End scheduler.
End ScheduledTaskServiceController.

(** ** The choice of a platform *)

Module PlatformServiceController.
Record Options := mkOptions { launchd : LaunchdServiceController.Options; systemctl : string; schtasks : string; powershell : string }.
Definition defaults : Options := mkOptions LaunchdServiceController.defaults "systemctl" "schtasks.exe" "powershell.exe".
Section platforms.
Context {W : Type} (execute : InstallationProcessExecutor W) (clock : Clock W) (sleep : Z → M W unit) (processUid : option Z) (o : Options).
Definition controllers (p : Platform) : Strategy W :=
  match p with
  | Platform.Darwin => LaunchdServiceController.strategy execute clock sleep processUid (launchd o)
  | Platform.Linux => SystemdServiceController.strategy execute (systemctl o)
  | Platform.Win32 => ScheduledTaskServiceController.strategy execute (schtasks o) (powershell o)
  end.
Definition inspect (registration : ServiceRegistration) : M W ServiceStatus :=
  ServiceControllerBase.inspect (controllers (service_platform registration)) registration.
Definition setDesired (registration : ServiceRegistration) (desired : Desired) (expected : option ServiceStatus) : M W unit :=
  ServiceControllerBase.setDesired (controllers (service_platform registration)) registration desired expected.
Definition restart (registration : ServiceRegistration) (expected : option ServiceStatus) : M W unit :=
  ServiceControllerBase.restart (controllers (service_platform registration)) registration expected.
Definition restore (registration : ServiceRegistration) (status : ServiceStatus) : M W unit :=
  ServiceControllerBase.restore (controllers (service_platform registration)) registration status.
(** As the port the executor of ProtectionInstallation is given. *)
Definition services : ServiceController W :=
  mkServices W inspect (λ r d b, setDesired r d (Some b)) (λ r b, restart r (Some b)) restore.
End platforms.
End PlatformServiceController.

(** ** git *)

Module ProcessGitConfigurationController.
Definition READ_ARGS : list string := ["config"; "--global"; "-z"; "--get-all"; "core.hooksPath"].
Definition write_args (path : option string) : list string :=
  match path with
  | None => ["config"; "--global"; "--unset-all"; "core.hooksPath"]
  | Some p => ["config"; "--global"; "--replace-all"; "core.hooksPath"; p]
  end.
Definition several : exn := JsError "Global core.hooksPath has multiple values; refusing to collapse them during installation".
Definition changed : exn := JsError "Global core.hooksPath changed immediately before mutation".
Definition values_of (text : string) : list string := bfilter (λ v, 0 <? slen v) (split nul text).

Section git.
Context {W : Type} (execute : InstallationProcessExecutor W) (gitExecutable : string).
Definition readGlobalHooksPath : M W (option string) :=
  let* r := execute gitExecutable READ_ARGS in
  if bool_decide (exitCode r = 1%Z) && (slen (stdout r) =? 0) then mok None
  else
    let* _ := mlift (requireSuccess gitExecutable READ_ARGS r) in
    match values_of (stdout r) with
    | [] => mok None
    | [v] => mok (Some v)
    | _ => mlift (Err several)
    end.
(** The outer option of [expected] is whether there is an expectation. *)
Definition writeGlobalHooksPath (path : option string) (expected : option (option string)) : M W unit :=
  let* current := readGlobalHooksPath in
  if match expected with Some e => negb (bool_decide (current = e)) | None => false end then mlift (Err changed)
  else if bool_decide (current = path) then mok tt
  else
    let* r := execute gitExecutable (write_args path) in
    if bool_decide (path = None) && bool_decide (exitCode r = 5%Z) then mok tt
    else mlift (requireSuccess gitExecutable (write_args path) r).
Definition git : GitConfigurationController W := mkGit W readGlobalHooksPath writeGlobalHooksPath.
End git.
End ProcessGitConfigurationController.

(** ** What a transition of a service does

    The host notes the commands it runs; its clock is not set back, and a sleep takes its
    time (Node waits a millisecond at least). *)

Definition Command : Type := string * list string.
Class HostLaws {W : Type} (execute : InstallationProcessExecutor W) (clock : Clock W) (sleep : Z → M W unit) := {
  ran : W → list Command;
  time : W → Z;
  execute_law : ∀ x a w, ran (execute x a w).1 = ran w ++ [(x, a)] ∧ (time w ≤ time (execute x a w).1)%Z;
  now_law : ∀ w, ran (now clock w).1 = ran w ∧ (time w ≤ time (now clock w).1)%Z
    ∧ ∀ t, (now clock w).2 = Ok t → (time w ≤ t ≤ time (now clock w).1)%Z;
  sleep_law : ∀ ms w, ran (sleep ms w).1 = ran w ∧ (time w + Z.max 1 ms ≤ time (sleep ms w).1)%Z
}.

Section transitions.
Context {W : Type} (execute : InstallationProcessExecutor W) (clock : Clock W) (sleep : Z → M W unit) `{!HostLaws execute clock sleep}
  (processUid : option Z) (o : PlatformServiceController.Options).
Import PlatformServiceController.

(** The commands that look at a service. *)
Definition asks (reg : ServiceRegistration) : list Command :=
  match service_platform reg with
  | Platform.Darwin =>
      match LaunchdServiceController.domain processUid (launchd o) with
      | Ok d => [(LaunchdServiceController.launchctl (launchd o), ["print"; LaunchdServiceController.target_of d reg])]
      | Err _ => []
      end
  | Platform.Linux => [(systemctl o, ["--user"; "is-enabled"; service_id reg]); (systemctl o, ["--user"; "is-active"; service_id reg])]
  | Platform.Win32 =>
      [(schtasks o, ["/Query"; "/TN"; service_id reg; "/XML"]); (powershell o, ScheduledTaskServiceController.probe_args reg)]
  end.
(** The commands that bring a service, found with a status, to what is wanted of it; those
    that restart one that runs; and those that stop one and leave it registered. All name
    the service, but for the one that has systemd read its units again. *)
Definition launchctl_ (a : string → list string) : list Command :=
  match LaunchdServiceController.domain processUid (launchd o) with
  | Ok d => [(LaunchdServiceController.launchctl (launchd o), a d)]
  | Err _ => []
  end.
Definition bootout_ (reg : ServiceRegistration) := launchctl_ (λ d, ["bootout"; LaunchdServiceController.target_of d reg]).
Definition bootstrap_ (reg : ServiceRegistration) := launchctl_ (λ d, ["bootstrap"; d; AbsolutePath.value (descriptorPath reg)]).
Definition reload_ : Command := (systemctl o, ["--user"; "daemon-reload"]).
Definition script (reg : ServiceRegistration) (d : Desired) (found : ServiceStatus) : list Command :=
  match service_platform reg, d with
  | Platform.Darwin, desired_absent => bootout_ reg
  | Platform.Darwin, desired_active =>
      if registered found then launchctl_ (λ d, ["kickstart"; "-k"; LaunchdServiceController.target_of d reg]) else bootstrap_ reg
  | Platform.Linux, desired_absent => [reload_; (systemctl o, ["--user"; "disable"; "--now"; service_id reg])]
  | Platform.Linux, desired_active => [reload_; (systemctl o, ["--user"; "enable"; "--now"; service_id reg])]
  | Platform.Win32, desired_absent =>
      [(schtasks o, ScheduledTaskServiceController.end_task reg); (schtasks o, ["/Delete"; "/TN"; service_id reg; "/F"])]
  | Platform.Win32, desired_active =>
      [(schtasks o, ScheduledTaskServiceController.create_task reg); (schtasks o, ScheduledTaskServiceController.run_task reg)]
  end.
Definition restart_script (reg : ServiceRegistration) : list Command :=
  match service_platform reg with
  | Platform.Darwin => bootout_ reg ++ bootstrap_ reg
  | Platform.Linux => [reload_; (systemctl o, ["--user"; "restart"; service_id reg])]
  | Platform.Win32 =>
      [(schtasks o, ScheduledTaskServiceController.end_task reg); (schtasks o, ScheduledTaskServiceController.create_task reg);
       (schtasks o, ScheduledTaskServiceController.run_task reg)]
  end.
Definition stop_script (reg : ServiceRegistration) : list Command :=
  match service_platform reg with
  | Platform.Darwin => launchctl_ (λ d, ["kill"; "SIGTERM"; LaunchdServiceController.target_of d reg])
  | Platform.Linux => [(systemctl o, ["--user"; "stop"; service_id reg])]
  | Platform.Win32 => [(schtasks o, ScheduledTaskServiceController.end_task reg)]
  end.

(** Of the commands that ran, those that do not look are the script as far as it came, and
    all of it when the result is no error. *)
Definition acting (reg : ServiceRegistration) (c : Command) : bool := negb (bool_decide (c ∈ asks reg)).
Definition performed {A} (reg : ServiceRegistration) (sc ran_ : list Command) (r : result A) : Prop :=
  (∃ rest, sc = bfilter (acting reg) ran_ ++ rest) ∧ ∀ a, r = Ok a → bfilter (acting reg) ran_ = sc.

(** *** What a computation may run *)

Definition runs {A} (cs : list Command) (m : M W A) : Prop := ∀ w, ∃ new, ran (m w).1 = ran w ++ new ∧ ∀ c, c ∈ new → c ∈ cs.
Lemma runs_lift {A} cs (r : result A) : runs cs (mlift r).
Proof. intros w. exists []. rewrite app_nil_r. split; [done|]. by intros c ?%elem_of_nil. Qed.
Lemma runs_seq {A B} cs (m : M W A) (f : A → M W B) : runs cs m → (∀ a, runs cs (f a)) → runs cs (mseq m f).
Proof.
  intros Hm Hf w. destruct (Hm w) as (new & H1 & H2). unfold mseq. destruct (m w) as [w' [a|e]]; cbn [fst] in *; [|by exists new].
  destruct (Hf a w') as (new' & H3 & H4). exists (new ++ new'). rewrite H3, H1, app_assoc. split; [done|].
  intros c [Hc|Hc]%elem_of_app; [by apply H2|by apply H4].
Qed.
Lemma runs_given {A B} cs (r : result A) (f : A → M W B) : (∀ a, r = Ok a → runs cs (f a)) → runs cs (let* a := mlift r in f a).
Proof. intros Hf. destruct r as [a|e]; [by apply Hf|apply (runs_lift cs (Err e))]. Qed.
Lemma runs_execute cs x a : (x, a) ∈ cs → runs cs (execute x a).
Proof. intros Hc w. exists [(x, a)]. split; [apply execute_law|]. by intros c ->%list_elem_of_singleton. Qed.
Lemma runs_mono {A} cs cs' (m : M W A) : runs cs m → (∀ c, c ∈ cs → c ∈ cs') → runs cs' m.
Proof. intros Hm Hc w. destruct (Hm w) as (new & H1 & H2). exists new. eauto. Qed.
Lemma runs_if {A} cs (b : bool) (m n : M W A) : (b = true → runs cs m) → (b = false → runs cs n) → runs cs (if b then m else n).
Proof. destruct b; auto. Qed.
Lemma runs_now cs : runs cs (now clock).
Proof. intros w. exists []. rewrite app_nil_r. split; [apply now_law|]. by intros c ?%elem_of_nil. Qed.
Lemma runs_sleep cs ms : runs cs (sleep ms).
Proof. intros w. exists []. rewrite app_nil_r. split; [apply sleep_law|]. by intros c ?%elem_of_nil. Qed.

#[local] Ltac runs_step := first
  [ apply runs_lift | apply runs_now | apply runs_sleep | apply runs_seq; [|intros ?] | apply runs_if; intros ?
  | apply runs_execute | progress cbn beta iota ].
#[local] Ltac runs_tac := repeat runs_step.
Lemma inspect_runs reg : runs (asks reg) (doInspect (controllers execute clock sleep processUid o (service_platform reg)) reg).
Proof.
  unfold asks. destruct (service_platform reg); cbn.
  - apply runs_given. intros d ->. runs_tac. set_solver.
  - unfold SystemdServiceController.doInspect. runs_tac; set_solver.
  - unfold ScheduledTaskServiceController.doInspect. runs_tac; set_solver.
Qed.
Lemma release_runs reg fuel deadline : service_platform reg = Platform.Darwin →
  runs (asks reg) (LaunchdServiceController.release_loop execute clock sleep processUid (launchd o) fuel reg deadline).
Proof.
  intros Hp. pose proof (inspect_runs reg) as Hi. rewrite Hp in Hi. induction fuel as [|f IH]; cbn; [apply runs_lift|].
  apply runs_seq; [exact Hi|]. intros s. runs_tac. exact IH.
Qed.

(** *** What a computation does *)

Definition follows {A} (reg : ServiceRegistration) (sc : list Command) (m : M W A) : Prop :=
  ∀ w, ∃ new, ran (m w).1 = ran w ++ new ∧ performed reg sc new (m w).2.
Lemma follows_asks {A} reg (m : M W A) : runs (asks reg) m → follows reg [] m.
Proof.
  intros Hm w. destruct (Hm w) as (new & H1 & H2). exists new. split; [done|].
  assert (bfilter (acting reg) new = []) as E.
  { apply elem_of_nil_inv. intros c [Ha Hc]%elem_of_bfilter. unfold acting in Hc. by rewrite bool_decide_true in Hc by auto. }
  unfold performed. rewrite E. split; [by exists []|done].
Qed.
Lemma follows_execute reg x a : (x, a) ∉ asks reg → follows reg [(x, a)] (execute x a).
Proof.
  intros Hn w. exists [(x, a)]. split; [apply execute_law|]. unfold performed, acting. cbn. rewrite bool_decide_false by done. cbn.
  split; [by exists []|done].
Qed.
Lemma follows_seq {A B} reg sc sc' (m : M W A) (f : A → M W B) : follows reg sc m → (∀ a, follows reg sc' (f a)) → follows reg (sc ++ sc') (mseq m f).
Proof.
  intros Hm Hf w. destruct (Hm w) as (new & H1 & [rest Hr] & H2). unfold mseq. destruct (m w) as [w' [a|e]]; cbn [fst snd] in *.
  - destruct (Hf a w') as (new' & H3 & [rest' Hr'] & H4). exists (new ++ new'). rewrite H3, H1, app_assoc. split; [done|].
    unfold performed. rewrite List.filter_app, (H2 a eq_refl). split; [exists rest'; by rewrite Hr', app_assoc|].
    intros b Hb. by rewrite (H4 b Hb).
  - exists new. split; [done|]. split; [|done]. exists (rest ++ sc'). by rewrite Hr, app_assoc.
Qed.
Lemma follows_lift {A} reg (r : result A) : follows reg [] (mlift r).
Proof. apply follows_asks, runs_lift. Qed.
Lemma follows_success reg x a : (x, a) ∉ asks reg → follows reg [(x, a)] (success execute x a).
Proof. intros Hn. apply (follows_seq reg [(x, a)] []); [by apply follows_execute|]. intros r. apply follows_lift. Qed.

#[local] Ltac not_asked := unfold asks; repeat match goal with H : service_platform _ = _ |- _ => rewrite H | H : LaunchdServiceController.domain _ _ = _ |- _ => rewrite H end;
  cbn; intros Hin; repeat (apply elem_of_cons in Hin as [Hin|Hin]; [discriminate Hin|]); by apply elem_of_nil in Hin.
Lemma follows_bootout reg dm : service_platform reg = Platform.Darwin → LaunchdServiceController.domain processUid (launchd o) = Ok dm →
  follows reg (bootout_ reg)
    (LaunchdServiceController.bootout execute clock sleep processUid (launchd o) reg (LaunchdServiceController.target_of dm reg)).
Proof.
  intros Hp Hd. unfold bootout_, launchctl_. rewrite Hd. unfold LaunchdServiceController.bootout.
  apply (follows_seq reg [_] []); [apply follows_success; not_asked|]. intros _. apply follows_asks.
  unfold LaunchdServiceController.awaitRelease. apply runs_seq; [apply runs_now|]. intros t. by apply release_runs.
Qed.
Lemma strategy_follows reg :
  let s := controllers execute clock sleep processUid o (service_platform reg) in
  (∀ d found, follows reg (script reg d found) (applyDesired s reg d found))
  ∧ follows reg (restart_script reg) (restartActive s reg) ∧ follows reg (stop_script reg) (stopPreservingRegistration s reg).
Proof.
  unfold script, restart_script, stop_script.
  destruct (service_platform reg) eqn:Ep; cbn [controllers LaunchdServiceController.strategy SystemdServiceController.strategy
    ScheduledTaskServiceController.strategy applyDesired restartActive stopPreservingRegistration].
  - unfold LaunchdServiceController.applyDesired, LaunchdServiceController.restartActive, LaunchdServiceController.stopPreservingRegistration,
      LaunchdServiceController.bootstrap, bootstrap_.
    destruct (LaunchdServiceController.domain processUid (launchd o)) as [dm|e] eqn:Ed; unfold launchctl_; rewrite ?Ed.
    2:{ unfold bootout_, launchctl_. rewrite Ed. split_and!; [intros [] st; [destruct (registered st)|]|..]; apply (follows_lift reg (Err e)). }
    pose proof (follows_bootout reg dm Ep Ed) as Hb. split_and!; [intros [] st|..]; cbn [mlift mseq].
    + destruct (registered st); cbn [negb]; apply follows_success; not_asked.
    + exact Hb.
    + refine (follows_seq reg _ [_] _ _ Hb (λ _, follows_success reg _ _ _)). not_asked.
    + apply follows_success. not_asked.
  - unfold SystemdServiceController.applyDesired, SystemdServiceController.restartActive, SystemdServiceController.stopPreservingRegistration.
    split_and!; [intros [] st|..]; try (apply (follows_seq reg [_] [_]); [|intros _]); apply follows_success; not_asked.
  - unfold ScheduledTaskServiceController.applyDesired, ScheduledTaskServiceController.restartActive,
      ScheduledTaskServiceController.stopPreservingRegistration.
    split_and!; [intros [] st|..].
    + apply (follows_seq reg [_] [_]); [|intros _]; apply follows_success; not_asked.
    + apply (follows_seq reg [_] [_]); [apply follows_execute; not_asked|intros _]; apply follows_success; not_asked.
    + apply (follows_seq reg [_] [_; _]); [|intros _; apply (follows_seq reg [_] [_]); [|intros _]]; apply follows_success; not_asked.
    + apply follows_success; not_asked.
Qed.

(** *** The wait for launchd *)

Abbreviation launchd_inspect := (LaunchdServiceController.doInspect execute processUid (launchd o)).
Abbreviation launchd_wait := (LaunchdServiceController.release_loop execute clock sleep processUid (launchd o)).
Lemma inspect_time reg w : (time w ≤ time (launchd_inspect reg w).1)%Z.
Proof.
  unfold LaunchdServiceController.doInspect. destruct (LaunchdServiceController.domain _ _) as [d|]; [|cbn; lia]. unfold mseq, mlift.
  pose proof (execute_law (LaunchdServiceController.launchctl (launchd o)) ["print"; LaunchdServiceController.target_of d reg] w) as [_ H].
  destruct (execute _ _ w) as [w1 [r|]]; [|done]. by case_if.
Qed.
Lemma wait_seen fuel reg deadline w w' : launchd_wait fuel reg deadline w = (w', Ok tt) →
  ∃ w1 s, launchd_inspect reg w1 = (w', Ok s) ∧ registered s = false.
Proof.
  revert w. induction fuel as [|f IH]; intros w; cbn [LaunchdServiceController.release_loop]; [done|]. unfold mseq at 1.
  destruct (launchd_inspect reg w) as [w1 [s|]] eqn:Ei; [|done]. destruct (registered s) eqn:Er; cbn [negb].
  - unfold mseq. destruct (now clock w1) as [w2 [t|]]; [|done]. case_if; [done|]. destruct (sleep _ w2) as [w3 [[]|]]; [|done]. apply IH.
  - intros [= <-]. by exists w, s.
Qed.
(** More rounds than the wait has milliseconds change nothing. *)
Lemma wait_enough fuel k reg deadline w : (deadline - time w < Z.of_nat fuel)%Z → launchd_wait (fuel + k) reg deadline w = launchd_wait fuel reg deadline w
  ∨ (deadline <= time w)%Z ∧ fuel = 0%nat.
Proof.
  revert w. induction fuel as [|f IH]; intros w Hf; [right; lia|left]. cbn [Nat.add LaunchdServiceController.release_loop]. unfold mseq at 1 4.
  pose proof (inspect_time reg w) as H1. destruct (launchd_inspect reg w) as [w1 [s|]]; [|done]. destruct (registered s); cbn [negb]; [|done].
  unfold mseq at 1 3. destruct (now_law w1) as (_ & H2 & H3). destruct (now clock w1) as [w2 [t|]]; [|done]. cbn [fst snd] in *.
  destruct (Z.leb_spec deadline t) as [|Hlt]; [done|]. specialize (H3 t eq_refl). unfold mseq.
  destruct (sleep_law (LaunchdServiceController.serviceSettlePollMs (launchd o)) w2) as [_ H4]. destruct (sleep _ w2) as [w3 [[]|]]; [|done].
  cbn [fst] in *. destruct (IH w3) as [H|[H ->]]; [lia|done|lia].
Qed.
Lemma release_ends k reg w :
  (let* start := now clock in
   launchd_wait (LaunchdServiceController.ROUNDS (launchd o) + k) reg (start + LaunchdServiceController.serviceSettleTimeoutMs (launchd o))%Z) w
  = LaunchdServiceController.awaitRelease execute clock sleep processUid (launchd o) reg w.
Proof.
  unfold LaunchdServiceController.awaitRelease, mseq. destruct (now_law w) as (_ & _ & H). destruct (now clock w) as [w1 [t|]]; [|done].
  specialize (H t eq_refl) as [_ H]. cbn [fst] in H.
  destruct (wait_enough (LaunchdServiceController.ROUNDS (launchd o)) k reg (t + LaunchdServiceController.serviceSettleTimeoutMs (launchd o)) w1)
    as [|[_ ?]]; [unfold LaunchdServiceController.ROUNDS; lia|done|done].
Qed.

(** *** One transition *)

Lemma sameStatus_eq l r : sameStatus l r = true ↔ l = r.
Proof. unfold sameStatus. destruct l, r. cbn. rewrite !andb_true_iff, !eqb_true_iff. naive_solver. Qed.
Lemma bootout_seen reg target w w' : LaunchdServiceController.bootout execute clock sleep processUid (launchd o) reg target w = (w', Ok tt) →
  ∃ w1 s, launchd_inspect reg w1 = (w', Ok s) ∧ registered s = false.
Proof.
  unfold LaunchdServiceController.bootout, LaunchdServiceController.awaitRelease, mseq. destruct (success _ _ _ w) as [w1 [[]|]]; [|done].
  destruct (now clock w1) as [w2 [t|]]; [|done]. apply wait_seen.
Qed.

Abbreviation strategy_of reg := (controllers execute clock sleep processUid o (service_platform reg)).
Lemma own reg : assertOwnRegistration (strategy_of reg) reg = Ok tt.
Proof. unfold assertOwnRegistration. rewrite bool_decide_true; [done|]. by destruct (service_platform reg). Qed.
Lemma inspect_eq reg w : inspect execute clock sleep processUid o reg w = doInspect (strategy_of reg) reg w.
Proof. unfold inspect, ServiceControllerBase.inspect. by rewrite own. Qed.
Lemma setDesired_eq reg d expected w : setDesired execute clock sleep processUid o reg d expected w
  = match doInspect (strategy_of reg) reg w with
    | (w1, Ok s) =>
        if unexpected expected s then (w1, Err (changed_error reg))
        else if reached d s then (w1, Ok tt) else applyDesired (strategy_of reg) reg d s w1
    | (w1, Err e) => (w1, Err e)
    end.
Proof.
  unfold setDesired, ServiceControllerBase.setDesired. rewrite own. unfold mseq, mlift. destruct (doInspect _ _ w) as [w1 [s|]]; [|done].
  destruct (unexpected _ s); [done|]. by destruct (reached d s).
Qed.
Lemma unexpected_false expected s : unexpected expected s = false ↔ expected = None ∨ expected = Some s.
Proof.
  destruct expected as [e|]; [|naive_solver]. cbn. destruct (sameStatus s e) eqn:E; [apply sameStatus_eq in E as ->; naive_solver|].
  split; [done|]. intros [?|[= ->]]; [done|]. by rewrite (proj2 (sameStatus_eq s s) eq_refl) in E.
Qed.
Lemma restart_eq reg expected w : restart execute clock sleep processUid o reg expected w
  = match doInspect (strategy_of reg) reg w with
    | (w1, Ok s) =>
        if unexpected expected s then (w1, Err (changed_error reg))
        else if registered s && active s then restartActive (strategy_of reg) reg w1
        else applyDesired (strategy_of reg) reg desired_active s w1
    | (w1, Err e) => (w1, Err e)
    end.
Proof.
  unfold restart, ServiceControllerBase.restart. rewrite own. unfold mseq, mlift. destruct (doInspect _ _ w) as [w1 [s|]]; [|done].
  destruct (unexpected _ s); [done|]. by destruct (registered s && active s).
Qed.

(** C34. A transition of a service, whatever manager the platform has. It looks before it
    acts: the look runs only commands that ask about the service; when the service is not
    as the plan saw it, it throws, and when it is already as wanted it returns, having run
    nothing else. Otherwise the commands it runs, besides more looks, are the platform's
    script for what is wanted and for the status found, in order and as far as no command
    fails, and the whole script when it returns (all about this one service, but that
    systemd is told to read its units again). Under launchd, which answers a removal before the
    job is gone, it returns from one only on a look that finds the service gone. Restarting
    runs the script of a restart, or of a start when the service does not run; restoring is
    the transition to the status, and for a registered service that did not run, the script
    of a stop after the start. *)
Theorem service_transitions reg d expected status w :
  let look := inspect execute clock sleep processUid o reg w in
  let r := setDesired execute clock sleep processUid o reg d expected w in
  let again := restart execute clock sleep processUid o reg expected w in
  let restored := restore execute clock sleep processUid o reg status w in
  (∃ asked, ran look.1 = ran w ++ asked ∧ ∀ c, c ∈ asked → c ∈ asks reg)
  ∧ match look.2 with
    | Err e => r = (look.1, Err e) ∧ again = (look.1, Err e)
    | Ok s =>
        if bool_decide (expected = None ∨ expected = Some s) then
          (if reached d s then r = (look.1, Ok tt)
           else (∃ acted, ran r.1 = ran look.1 ++ acted ∧ performed reg (script reg d s) acted r.2)
             ∧ (service_platform reg = Platform.Darwin → d = desired_absent → r.2 = Ok tt →
                  ∃ w1 s1, inspect execute clock sleep processUid o reg w1 = (r.1, Ok s1) ∧ registered s1 = false))
          ∧ ∃ acted, ran again.1 = ran look.1 ++ acted
              ∧ performed reg (if registered s && active s then restart_script reg else script reg desired_active s) acted again.2
        else r = (look.1, Err (changed_error reg)) ∧ again = (look.1, Err (changed_error reg))
    end
  ∧ (if negb (registered status) then restored = setDesired execute clock sleep processUid o reg desired_absent None w
     else let started := setDesired execute clock sleep processUid o reg desired_active None w in
       if active status then restored = started
       else match started.2 with
            | Ok _ => ∃ acted, ran restored.1 = ran started.1 ++ acted ∧ performed reg (stop_script reg) acted restored.2
            | Err e => restored = (started.1, Err e)
            end).
Proof.
  pose proof (strategy_follows reg) as (Ha & Hr & Hs). pose proof (inspect_runs reg w) as Hi. cbv zeta. rewrite setDesired_eq, restart_eq.
  split_and!; [by rewrite inspect_eq| |].
  - rewrite inspect_eq. destruct (doInspect _ reg w) as [w1 [s|e]]; cbn [fst snd]; [|done].
    destruct (unexpected expected s) eqn:Eu; [rewrite bool_decide_false; [done|]; by rewrite <-unexpected_false, Eu|].
    rewrite bool_decide_true by (by apply unexpected_false). split; [|destruct (registered s && active s); [apply Hr|apply Ha]].
    destruct (reached d s); [done|]. split; [apply Ha|]. intros Hp -> Ho.
    destruct (applyDesired _ reg _ s w1) as [w2 [[]|]] eqn:Ea; [|done]. rewrite Hp in Ea. cbn in Ea.
    unfold mseq, mlift in Ea. destruct (LaunchdServiceController.domain _ _) as [dm|]; [|done]. apply bootout_seen in Ea as (w4 & s4 & H & Hg).
    exists w4, s4. split; [|done]. rewrite inspect_eq, Hp. exact H.
  - unfold restore, ServiceControllerBase.restore. destruct (registered status); cbn [negb]; [|done]. destruct (active status); [done|].
    fold (setDesired execute clock sleep processUid o reg desired_active None). unfold mseq.
    destruct (setDesired _ _ _ _ _ reg desired_active None w) as [w1 [[]|e]]; cbn [fst snd]; [apply Hs|done].
Qed.
End transitions.

(** ** The one setting of git

    [git config] as its documentation has it: [--get-all -z] ends each value with a NUL,
    and its exit code is 1 for a key that is not there; [--replace-all] leaves one value,
    [--unset-all] none, and its exit code is 5 when there was none. *)

Class GitLaws {W : Type} (execute : InstallationProcessExecutor W) (gitExecutable : string) := {
  values : W → list string;
  plain_law : ∀ w v, v ∈ values w → has_char nul v = false;
  read_law : ∀ w, values (execute gitExecutable ProcessGitConfigurationController.READ_ARGS w).1 = values w
    ∧ ∀ r, (execute gitExecutable ProcessGitConfigurationController.READ_ARGS w).2 = Ok r →
        (exitCode r = 1%Z → stdout r = "" → values w = [])
        ∧ (exitCode r = 0%Z → stdout r = join "" (map (λ v, v +:+ str1 nul) (values w)));
  replace_law : ∀ p w r, (execute gitExecutable (ProcessGitConfigurationController.write_args (Some p)) w).2 = Ok r → exitCode r = 0%Z →
    values (execute gitExecutable (ProcessGitConfigurationController.write_args (Some p)) w).1 = [p];
  unset_law : ∀ w r, (execute gitExecutable (ProcessGitConfigurationController.write_args None) w).2 = Ok r → exitCode r = 0%Z ∨ exitCode r = 5%Z →
    values (execute gitExecutable (ProcessGitConfigurationController.write_args None) w).1 = []
}.

Section git_setting.
Import ProcessGitConfigurationController.
Context {W : Type} (execute : InstallationProcessExecutor W) (gitExecutable : string) `{!GitLaws execute gitExecutable}.

(** Git reads an empty value of the key like none at all. *)
Definition paths_at (w : W) : list string := bfilter (λ v, 0 <? slen v) (values w).
Definition as_list (p : option string) : list string := match p with Some v => [v] | None => [] end.

Lemma split_plain v rest : has_char nul v = false → split nul (v +:+ str1 nul +:+ rest) = v :: split nul rest.
Proof.
  intros Hv. change (str1 nul +:+ rest) with (String nul rest). by rewrite split_app, split_no_sep.
Qed.
Lemma values_printed vs : (∀ v, v ∈ vs → has_char nul v = false) →
  values_of (join "" (map (λ v, v +:+ str1 nul) vs)) = bfilter (λ v, 0 <? slen v) vs.
Proof.
  intros Hvs. unfold values_of. enough (split nul (join "" (map (λ v, v +:+ str1 nul) vs)) = vs ++ [""]) as ->.
  { rewrite List.filter_app. cbn. apply app_nil_r. }
  induction vs as [|v vs IH]; [done|]. rewrite map_cons, join_empty_cons, sapp_assoc, split_plain by (apply Hvs; by left).
  rewrite IH; [done|]. intros x Hx. apply Hvs. by right.
Qed.
Lemma read_spec w :
  values (readGlobalHooksPath execute gitExecutable w).1 = values w
  ∧ match (readGlobalHooksPath execute gitExecutable w).2 with Ok h => paths_at w = as_list h | Err _ => True end.
Proof.
  unfold readGlobalHooksPath. unfold mseq at 1 3. destruct (read_law w) as [Hv Hr].
  destruct (execute gitExecutable READ_ARGS w) as [w1 [r|]]; [|done]. cbn [fst snd] in *. specialize (Hr r eq_refl) as [H1 H0].
  destruct (bool_decide_reflect (exitCode r = 1%Z)) as [E1|E1]; cbn [andb].
  - destruct (Nat.eqb_spec (slen (stdout r)) 0) as [El|El].
    + split; [done|]. cbn. unfold paths_at. rewrite H1; [done|done|by destruct (stdout r)].
    + unfold requireSuccess. rewrite bool_decide_false by lia. by split.
  - unfold requireSuccess. destruct (bool_decide_reflect (exitCode r = 0%Z)) as [E0|E0]; [|by split]. unfold mseq, mlift.
    rewrite H0 by done. rewrite values_printed by (intros v; apply plain_law). fold (paths_at w).
    destruct (paths_at w) as [|v [|v' vs]]; by split.
Qed.

Lemma write_eq path expected w : writeGlobalHooksPath execute gitExecutable path expected w
  = match readGlobalHooksPath execute gitExecutable w with
    | (w1, Ok current) =>
        if match expected with Some e => negb (bool_decide (current = e)) | None => false end then (w1, Err changed)
        else if bool_decide (current = path) then (w1, Ok tt)
        else match execute gitExecutable (write_args path) w1 with
             | (w2, Ok r) =>
                 (w2, if bool_decide (path = None) && bool_decide (exitCode r = 5%Z) then Ok tt
                      else requireSuccess gitExecutable (write_args path) r)
             | (w2, Err e) => (w2, Err e)
             end
    | (w1, Err e) => (w1, Err e)
    end.
Proof.
  unfold writeGlobalHooksPath. unfold mseq at 1. destruct (readGlobalHooksPath execute gitExecutable w) as [w1 [h|]]; [|done].
  case_if; [done|]. case_if; [done|]. unfold mseq. destruct (execute _ _ w1) as [w2 [r|]]; [|done]. by case_if.
Qed.

(** After a write that returns, the path is the one asked for. *)
Lemma write_done path expected w : (writeGlobalHooksPath execute gitExecutable path expected w).2 = Ok tt →
  paths_at (writeGlobalHooksPath execute gitExecutable path expected w).1 = as_list (set_path path).
Proof.
  destruct (read_spec w) as [Hv Hr]. rewrite write_eq.
  destruct (readGlobalHooksPath execute gitExecutable w) as [w1 [h|e]]; cbn [fst snd] in *; [|done].
  destruct (match expected with Some e => negb (bool_decide (h = e)) | None => false end); [done|].
  destruct (bool_decide_reflect (h = path)) as [->|].
  { intros _. unfold paths_at in *. cbn [fst]. rewrite Hv, Hr. destruct path as [[|]|]; [|done..].
    exfalso. assert ("" ∈ bfilter (λ v, 0 <? slen v) (values w)) as Hin by (rewrite Hr; by left). by apply elem_of_bfilter in Hin as [_ ?]. }
  pose proof (λ p, replace_law p w1) as Hp. pose proof (unset_law w1) as Hu. destruct path as [p|]; cbn [write_args] in *.
  - specialize (Hp p). destruct (execute gitExecutable _ w1) as [w2 [r|]]; [|done]. rewrite bool_decide_false by done. cbn [andb]. unfold requireSuccess.
    case_bool_decide as E; [|done]. intros _. cbn [fst snd mlift] in *. unfold paths_at. rewrite (Hp r eq_refl E). by destruct p.
  - destruct (execute gitExecutable _ w1) as [w2 [r|]]; [|done]. rewrite bool_decide_true by done. cbn [andb fst snd] in *. unfold paths_at.
    destruct (bool_decide_reflect (exitCode r = 5%Z)) as [E|]; [by rewrite (Hu r eq_refl (or_intror E))|]. unfold requireSuccess.
    case_bool_decide as E; [|done]. by rewrite (Hu r eq_refl (or_introl E)).
Qed.

(** C35. The controller of git's hooks path reads and writes what is there. A read changes nothing and answers the one path that is set, or none;
    after a write that returns, the path is the one asked for, and before it the setting was as expected; and when it was not, or the key had
    several values, the write throws and has changed nothing. *)
Theorem git_setting_exact path expected w : path ≠ Some "" →
  let read := readGlobalHooksPath execute gitExecutable w in
  let write := writeGlobalHooksPath execute gitExecutable path expected w in
  values read.1 = values w
  ∧ (∀ h, read.2 = Ok h → paths_at w = as_list h)
  ∧ (write.2 = Ok tt → paths_at write.1 = as_list path ∧ ∀ e, expected = Some e → paths_at w = as_list e)
  ∧ (1 < length (paths_at w) ∨ (∃ e, expected = Some e ∧ paths_at w ≠ as_list e) → values write.1 = values w ∧ ∃ e, write.2 = Err e).
Proof.
  intros Hne. cbv zeta. pose proof (write_done path expected w) as Hdone. destruct (read_spec w) as [Hv Hr]. rewrite write_eq in *.
  destruct (readGlobalHooksPath execute gitExecutable w) as [w1 [h|e]]; cbn [fst snd] in *; [|split_and!; [done..|intros _; split; [done|by eexists]]].
  split; [done|]. split; [by intros ? [= <-]|].
  assert (∀ e, negb (bool_decide (h = e)) = false → paths_at w = as_list e) as Hexp.
  { intros e He. apply negb_false_iff, bool_decide_eq_true in He as <-. exact Hr. }
  destruct (match expected with Some e => negb (bool_decide (h = e)) | None => false end) eqn:Eu; [split; [done|intros _; split; [done|by eexists]]|]. split.
  - intros Hok. split; [|intros e ->; by apply Hexp]. rewrite Hdone by done. by destruct path as [[]|].
  - rewrite Hr. intros [H|(e & -> & H)]; [destruct h; cbn in H; lia|]. destruct H. rewrite <-Hr. by apply Hexp.
Qed.
End git_setting.

(** ** A Linux machine

    Its files, the values of git's key, and the user manager of systemd: what [is-enabled]
    prints of a unit is [enabled] when it is linked, [disabled] when only its file is
    there, and [not-found] otherwise (systemctl(1)). No unit of this machine runs without
    being linked, and no other program is installed. *)

Module SampleLinux.
Import PlatformServiceController ProcessGitConfigurationController.
Inductive Unit := unlinked | idle | running.
#[global] Instance Unit_eq_dec : EqDecision Unit.
Proof. solve_decision. Defined.
Record Machine := mkMachine { disk : Contents; hooks_values : list string; units : gmap string Unit; commands : list Command; clock_ : Z }.
Definition plain (v : string) : bool := negb (has_char nul v).
Definition set_hooks (w : Machine) (vs : list string) : Machine := mkMachine (disk w) vs (units w) (commands w) (clock_ w).
Definition set_unit (n : string) (u : Unit) (w : Machine) : Machine := mkMachine (disk w) (hooks_values w) (<[n := u]> (units w)) (commands w) (clock_ w).
Definition note (c : Command) (w : Machine) : Machine := mkMachine (disk w) (hooks_values w) (units w) (commands w ++ [c]) (clock_ w).
Definition unit_of (w : Machine) (n : string) : Unit := match units w !! n with Some u => u | None => unlinked end.
Definition unit_file (n : string) : string := "/home/u/.config/systemd/user/" +:+ n.
Definition answer (code : Z) (out : string) : InstallationProcessResult := mkProcessResult code out "".
Definition git_answer (args : list string) (w : Machine) : Machine * InstallationProcessResult :=
  if bool_decide (args = READ_ARGS) then
    (w, match bfilter plain (hooks_values w) with [] => answer 1 "" | vs => answer 0 (join "" (map (λ v, v +:+ str1 nul) vs)) end)
  else if bool_decide (args = write_args None) then (set_hooks w [], answer (match hooks_values w with [] => 5 | _ => 0 end) "")
  else match last args with
       | Some p => if bool_decide (args = write_args (Some p)) && plain p then (set_hooks w [p], answer 0 "") else (w, answer 129 "")
       | None => (w, answer 129 "")
       end.
Definition systemctl_answer (args : list string) (w : Machine) : Machine * InstallationProcessResult :=
  match args with
  | [_; verb; n] =>
      if (verb =? "is-enabled")%string then
        (w, match unit_of w n with
            | unlinked => if bool_decide (is_Some (disk w !! unit_file n)) then answer 1 ("disabled" +:+ nl) else answer 4 ("not-found" +:+ nl)
            | _ => answer 0 ("enabled" +:+ nl)
            end)
      else if (verb =? "is-active")%string then
        (w, match unit_of w n with running => answer 0 ("active" +:+ nl) | _ => answer 3 ("inactive" +:+ nl) end)
      else match unit_of w n with
           | unlinked => (w, answer 5 "")
           | _ => (set_unit n (if (verb =? "stop")%string then idle else running) w, answer 0 "")
           end
  | [_; verb; _; n] =>
      if (verb =? "disable")%string then (set_unit n unlinked w, answer 0 "")
      else if bool_decide (is_Some (disk w !! unit_file n)) then (set_unit n running w, answer 0 "")
      else (w, answer 1 "")
  | _ => (w, answer 0 "")
  end.
Definition execute : InstallationProcessExecutor Machine := λ x args w,
  if (x =? "git")%string then let '(w', r) := git_answer args (note (x, args) w) in (w', Ok r)
  else if (x =? "systemctl")%string then let '(w', r) := systemctl_answer args (note (x, args) w) in (w', Ok r)
  else (note (x, args) w, throw "ENOENT").
Definition clock : Clock Machine := mkClock Machine (λ w, (w, Ok (clock_ w))).
Definition sleep : Z → M Machine unit := λ ms w,
  (mkMachine (disk w) (hooks_values w) (units w) (commands w) (clock_ w + Z.max 1 ms), Ok tt).

Lemma answers_kept x args w : commands (execute x args w).1 = commands w ++ [(x, args)] ∧ clock_ (execute x args w).1 = clock_ w.
Proof. unfold execute, git_answer, systemctl_answer. by repeat case_match; simplify_eq. Qed.
#[global] Instance host_laws : HostLaws execute clock sleep.
Proof.
  refine {| ran := commands; time := clock_ |}.
  - intros x a w. destruct (answers_kept x a w) as [-> ->]. split; [done|lia].
  - intros w. split_and!; [done|cbn; lia|]. cbn. intros t [= <-]. lia.
  - intros ms w. cbn. split; [done|lia].
Defined.
#[global] Instance git_laws : GitLaws execute "git".
Proof.
  refine {| values := λ w, bfilter plain (hooks_values w) |}.
  - intros w v [_ H]%elem_of_bfilter. by apply negb_true_iff.
  - intros w. unfold execute, git_answer. cbn [String.eqb]. rewrite bool_decide_true by done. cbn. split; [done|]. intros r [= <-].
    by destruct (bfilter plain (hooks_values w)).
  - intros p w r. unfold execute. change ("git" =? "git")%string with true. cbv iota. unfold git_answer.
    rewrite (bool_decide_false (write_args (Some p) = READ_ARGS)), (bool_decide_false (write_args (Some p) = write_args None)) by done.
    change (last (write_args (Some p))) with (Some p). cbv iota. rewrite bool_decide_true by done. cbn [andb].
    destruct (plain p) eqn:Ep; intros [= <-] H; [|done]. cbn. by rewrite Ep.
  - intros w r. unfold execute. change ("git" =? "git")%string with true. cbv iota. unfold git_answer.
    rewrite (bool_decide_false (write_args None = READ_ARGS)), bool_decide_true by done. done.
Defined.

Definition services_ : ServiceController Machine := services execute clock sleep (Some 1000%Z) defaults.
Definition git_ : GitConfigurationController Machine := git execute "git".
Definition on_disk (f : Contents → Contents) : M Machine unit := λ w,
  (mkMachine (f (disk w)) (hooks_values w) (units w) (commands w) (clock_ w), Ok tt).
Definition files : FileSystem Machine :=
  mkFileSystem Machine (λ p w, (w, Ok (disk w !! AbsolutePath.value p)))
    (λ p t _, on_disk (λ m, put m (AbsolutePath.value p) (Some t)))
    (λ p, on_disk (λ m, put m (AbsolutePath.value p) None))
    (λ p w, (w, Ok (stat_of (disk w !! AbsolutePath.value p)))) no_listing.
Definition executor : InstallationExecutor Machine := TransactionalInstallationExecutor.execute files.

(** *** The controllers keep the contract of the executor *)

#[global] Instance file_laws : FileLaws files.
Proof.
  exists disk.
  - intros p w. split; [done|]. by intros t [= <-].
  - intros p t md w. split; [|done]. intros q Hq. by apply lookup_put_ne.
  - intros p w. split; [|done]. intros q Hq. by apply lookup_put_ne.
Defined.
(** What [is-enabled] and [is-active] make of a unit. *)
Definition seen_unit (n : string) (c : Contents) (u : Unit) : ServiceStatus :=
  match u with
  | unlinked => mkServiceStatus (bool_decide (is_Some (c !! unit_file n))) false false
  | idle => mkServiceStatus true false false
  | running => mkServiceStatus true true true
  end.
(** Only the units named [n] may differ. *)
Record only_unit (n : string) (w w' : Machine) : Prop := mkOnly {
  only_disk : disk w' = disk w;
  only_hooks : hooks_values w' = hooks_values w;
  only_other : ∀ m, m ≠ n → unit_of w' m = unit_of w m
}.
Lemma only_trans n w1 w2 w3 : only_unit n w1 w2 → only_unit n w2 w3 → only_unit n w1 w3.
Proof. intros [? ? H1] [? ? H2]. split; [congruence..|]. intros m Hm. by rewrite H2, H1. Qed.
Lemma only_note n c w : only_unit n w (note c w).
Proof. by split. Qed.
Lemma unit_set n u w m : unit_of (set_unit n u w) m = if decide (n = m) then u else unit_of w m.
Proof. unfold unit_of. cbn. rewrite lookup_insert. by case_decide. Qed.
Lemma only_set n u c w : only_unit n w (set_unit n u (note c w)).
Proof. split; [done..|]. intros m Hm. rewrite unit_set. by rewrite decide_False by congruence. Qed.

#[local] Arguments set_unit : simpl never.
#[local] Arguments note : simpl never.
#[local] Arguments unit_of : simpl never.
Abbreviation strategy_ := (controllers execute clock sleep (Some 1000%Z) defaults).
Lemma look_linux n p w : ∃ w', doInspect (strategy_ Platform.Linux) (mkRegistration Platform.Linux n p) w = (w', Ok (seen_unit n (disk w) (unit_of w n)))
  ∧ only_unit n w w' ∧ unit_of w' n = unit_of w n.
Proof.
  eexists. split; [|split; [eapply only_trans; apply only_note|]].
  - cbn. unfold SystemdServiceController.doInspect, mseq, execute. cbn. change (unit_of (note _ (note _ w)) n) with (unit_of w n).
    change (unit_of (note _ w) n) with (unit_of w n). unfold seen_unit. destruct (unit_of w n) eqn:E; cbn; try reflexivity.
    repeat match goal with |- context [disk (note ?c ?x)] => change (disk (note c x)) with (disk x) end.
    match goal with |- context [bool_decide (is_Some ?x)] => destruct (bool_decide (is_Some x)); reflexivity end.
  - done.
Qed.
(** On this machine no other platform's manager answers. *)
Lemma look_elsewhere reg w : service_platform reg ≠ Platform.Linux →
  ∃ w' e, doInspect (strategy_ (service_platform reg)) reg w = (w', Err e) ∧ disk w' = disk w ∧ hooks_values w' = hooks_values w ∧ units w' = units w.
Proof. destruct reg as [[] n p]; intros Hp; [|done|]; eexists _, _; (split; [reflexivity|done]). Qed.

#[local] Ltac outcome := repeat (unfold mlift; cbn; match goal with
  |- context [requireSuccess ?x ?a ?r] => let v := eval hnf in (requireSuccess x a r) in change (requireSuccess x a r) with v end); cbn.
Definition unit_after (d : Desired) : Unit := match d with desired_active => running | desired_absent => unlinked end.
Lemma apply_linux n p d found w :
  let r := applyDesired (strategy_ Platform.Linux) (mkRegistration Platform.Linux n p) d found w in
  only_unit n w r.1 ∧ (r.2 = Ok tt → unit_of r.1 n = unit_after d).
Proof.
  cbn. unfold SystemdServiceController.applyDesired, success, mseq, execute. destruct d; cbn.
  - match goal with |- context [bool_decide (is_Some ?x)] => destruct (bool_decide (is_Some x)) end; outcome.
    + split; [|intros _; by rewrite unit_set, decide_True]. eapply only_trans; [apply only_note|apply only_set].
    + split; [|done]. eapply only_trans; apply only_note.
  - outcome. split; [|intros _; by rewrite unit_set, decide_True]. eapply only_trans; [apply only_note|apply only_set].
Qed.
Lemma restart_linux n p w : only_unit n w (restartActive (strategy_ Platform.Linux) (mkRegistration Platform.Linux n p) w).1.
Proof.
  cbn. unfold SystemdServiceController.restartActive, success, mseq, execute. cbn. change (unit_of (note _ (note _ w)) n) with (unit_of w n).
  destruct (unit_of w n); outcome; (eapply only_trans; [apply only_note|]); [apply only_note|apply only_set..].
Qed.
Lemma stop_linux n p w :
  let r := stopPreservingRegistration (strategy_ Platform.Linux) (mkRegistration Platform.Linux n p) w in
  only_unit n w r.1 ∧ (r.2 = Ok tt → unit_of r.1 n = idle).
Proof.
  cbn. unfold SystemdServiceController.stopPreservingRegistration, success, mseq, execute. cbn. change (unit_of (note _ w) n) with (unit_of w n).
  destruct (unit_of w n); outcome; (split; [first [apply only_note|apply only_set]|]); [done|intros _; by rewrite unit_set, decide_True..].
Qed.
Lemma set_linux n p d expected w :
  let r := setDesired execute clock sleep (Some 1000%Z) defaults (mkRegistration Platform.Linux n p) d expected w in
  only_unit n w r.1 ∧ (r.2 = Ok tt → unit_of r.1 n = unit_after d ∨ d = desired_absent ∧ ∀ c u, registered (seen_unit n c u) = false → seen_unit n c (unit_of r.1 n) = seen_unit n c u).
Proof.
  cbv zeta. rewrite setDesired_eq. cbn [service_platform].
  destruct (look_linux n p w) as (w1 & -> & H1 & Hu). destruct (unexpected expected _); [done|].
  destruct (reached d _) eqn:Er; cbn [fst snd].
  - split; [done|]. intros _. rewrite Hu. destruct d; cbn in Er.
    + left. unfold seen_unit in Er. destruct (unit_of w n); cbn in *; [by rewrite andb_false_r in Er|done|done].
    + right. split; [done|]. intros c u Hc. unfold seen_unit in *. destruct (unit_of w n), u; try done.
  - destruct (apply_linux n p d (seen_unit n (disk w) (unit_of w n)) w1) as [H2 H3]. split; [by eapply only_trans|]. intros Hok. left. by apply H3.
Qed.
Lemma only_noted n w w' : disk w' = disk w → hooks_values w' = hooks_values w → units w' = units w → only_unit n w w'.
Proof. intros ?? Hu. split; [done..|]. intros m _. unfold unit_of. by rewrite Hu. Qed.
Lemma set_law_ reg d expected w :
  only_unit (service_id reg) w (setDesired execute clock sleep (Some 1000%Z) defaults reg d expected w).1
  ∧ (service_platform reg ≠ Platform.Linux → ∃ e, (setDesired execute clock sleep (Some 1000%Z) defaults reg d expected w).2 = Err e).
Proof.
  destruct (decide (service_platform reg = Platform.Linux)) as [Hp|Hp].
  - destruct reg as [pf n p]. cbn in Hp. subst pf. split; [apply set_linux|done].
  - rewrite setDesired_eq. destruct (look_elsewhere reg w Hp) as (w1 & e & -> & ? & ? & ?). split; [by apply only_noted|]. intros _. by exists e.
Qed.
Lemma inspect_law_ reg w :
  let r := inspect execute clock sleep (Some 1000%Z) defaults reg w in
  (disk r.1 = disk w ∧ hooks_values r.1 = hooks_values w ∧ ∀ n, unit_of r.1 n = unit_of w n)
  ∧ ∀ s, r.2 = Ok s → s = seen_unit (service_id reg) (disk w) (unit_of w (service_id reg)).
Proof.
  cbv zeta. rewrite inspect_eq. destruct (decide (service_platform reg = Platform.Linux)) as [Hp|Hp].
  - destruct reg as [pf n p]. cbn in Hp. subst pf. cbn [service_platform service_id]. destruct (look_linux n p w) as (w1 & -> & [H1 H2 H3] & Hu). cbn.
    split; [split_and!; [done..|]|by intros s [= <-]]. intros m. destruct (decide (m = n)) as [->|]; [done|by apply H3].
  - destruct (look_elsewhere reg w Hp) as (w1 & e & -> & ? & ? & Hu). split; [split_and!; [done..|]|done]. intros n. unfold unit_of. cbn. by rewrite Hu.
Qed.
Lemma restart_law_ reg expected w : only_unit (service_id reg) w (restart execute clock sleep (Some 1000%Z) defaults reg expected w).1.
Proof.
  rewrite restart_eq. destruct (decide (service_platform reg = Platform.Linux)) as [Hp|Hp].
  - destruct reg as [pf n p]. cbn in Hp. subst pf. cbn [service_platform service_id]. destruct (look_linux n p w) as (w1 & -> & H1 & Hu).
    destruct (unexpected expected _); [done|]. eapply only_trans; [exact H1|]. case_if; [apply restart_linux|apply apply_linux].
  - destruct (look_elsewhere reg w Hp) as (w1 & e & -> & ? & ? & ?). by apply only_noted.
Qed.
Lemma restore_law_ reg b w :
  let r := restore execute clock sleep (Some 1000%Z) defaults reg b w in
  only_unit (service_id reg) w r.1
  ∧ (r.2 = Ok tt → ∀ c u, seen_unit (service_id reg) c u = b → seen_unit (service_id reg) c (unit_of r.1 (service_id reg)) = b).
Proof.
  cbv zeta. unfold restore, ServiceControllerBase.restore.
  fold (setDesired execute clock sleep (Some 1000%Z) defaults reg desired_active None) (setDesired execute clock sleep (Some 1000%Z) defaults reg desired_absent None).
  destruct (decide (service_platform reg = Platform.Linux)) as [Hp|Hp].
  2:{ pose proof (λ d, set_law_ reg d None w) as Hs. destruct (registered b); cbn [negb]; [|destruct (Hs desired_absent) as [H1 H2]; split; [done|]; by destruct (H2 Hp) as [e ->]].
      destruct (Hs desired_active) as [H1 H2]. destruct (H2 Hp) as [e He]. destruct (active b); [split; [done|by rewrite He]|]. unfold mseq.
      destruct (setDesired _ _ _ _ _ reg desired_active None w) as [w1 [|]]; [done|by split]. }
  destruct reg as [pf n p]. cbn in Hp. subst pf. cbn [service_platform service_id].
  pose proof (λ d, set_linux n p d None w) as Hs. destruct b as [[] [] h]; cbn [registered active negb].
  - destruct (Hs desired_active) as [H1 H2]. split; [done|]. intros Hok c u Hu. destruct (H2 Hok) as [->|[? _]]; [|done]. by destruct u.
  - destruct (Hs desired_active) as [H1 H2]. unfold mseq. destruct (setDesired _ _ _ _ _ _ desired_active None w) as [w1 [[]|]]; cbn [fst snd] in *; [|by split].
    destruct (stop_linux n p w1) as [H3 H4]. split; [by eapply only_trans|]. intros Hok c u Hu. rewrite (H4 Hok). destruct u; cbn in *; congruence.
  - destruct (Hs desired_absent) as [H1 H2]. split; [done|]. intros Hok c u Hu. destruct (H2 Hok) as [Hun|[_ Hun]]; [|by rewrite (Hun c u); rewrite Hu].
    rewrite Hun. by destruct u.
  - destruct (Hs desired_absent) as [H1 H2]. split; [done|]. intros Hok c u Hu. destruct (H2 Hok) as [Hun|[_ Hun]]; [|by rewrite (Hun c u); rewrite Hu].
    rewrite Hun. by destruct u.
Qed.

Lemma git_kept args w : disk (execute "git" args w).1 = disk w ∧ units (execute "git" args w).1 = units w.
Proof. unfold execute, git_answer. change ("git" =? "git")%string with true. cbv iota. by repeat case_match; simplify_eq. Qed.
Lemma read_kept w :
  disk (readGlobalHooksPath execute "git" w).1 = disk w ∧ units (readGlobalHooksPath execute "git" w).1 = units w.
Proof.
  assert ((readGlobalHooksPath execute "git" w).1 = (execute "git" READ_ARGS w).1) as ->; [|apply git_kept].
  unfold readGlobalHooksPath, mseq, mlift. destruct (execute "git" READ_ARGS w) as [w1 [r|]]; [|done]. by repeat case_match; simplify_eq.
Qed.
Lemma write_kept p expected w :
  disk (writeGlobalHooksPath execute "git" p expected w).1 = disk w ∧ units (writeGlobalHooksPath execute "git" p expected w).1 = units w.
Proof.
  rewrite write_eq. destruct (read_kept w) as [H1 H2]. destruct (readGlobalHooksPath execute "git" w) as [w1 [h|]]; cbn [fst] in *; [|done].
  destruct (match expected with Some e => negb (bool_decide (h = e)) | None => false end); [done|]. case_bool_decide; [done|].
  destruct (git_kept (write_args p) w1) as [H3 H4]. destruct (execute "git" (write_args p) w1) as [w2 [r|]]; cbn [fst] in *; split; congruence.
Qed.
Definition hooks_path (w : Machine) : option string := head (paths_at execute "git" w).
Lemma hooks_path_list w p : paths_at execute "git" w = as_list p → hooks_path w = p.
Proof. unfold hooks_path. intros ->. by destruct p. Qed.
Lemma hooks_path_same w w' : hooks_values w' = hooks_values w → hooks_path w' = hooks_path w.
Proof. unfold hooks_path, paths_at. cbn. by intros ->. Qed.
(** The controllers, as they are, keep what the executor relies on, although the status of
    a unit follows its file. *)
#[global] Instance external : ExternalLaws executor services_ git_.
Proof.
  refine {| Managed := Unit; ProtectionInstallation.hooks := hooks_path; managed := unit_of; observe := seen_unit |}.
  - intros w. unfold hooks_path. destruct (paths_at execute "git" w) as [|v vs] eqn:E; [done|]. cbn. destruct v; [|done]. exfalso.
    assert ("" ∈ paths_at execute "git" w) as Hin by (rewrite E; by left). by apply elem_of_bfilter in Hin as [_ ?].
  - intros plan w. assert (yields (λ w', hooks_values w' = hooks_values w ∧ units w' = units w) (executor plan) (λ _, True)) as H.
    { apply execute_keeps; intros; by intros w' Hw'. }
    destruct (H w) as [[Hh Hu] _]; [done|]. split; [by apply hooks_path_same|]. unfold unit_of. by rewrite Hu.
  - intros reg w. destruct (inspect_law_ reg w) as [(H1 & H2 & H3) H4]. split; [exact H1|]. split; [|exact H4].
    split; [by apply hooks_path_same|exact H3].
  - intros w. destruct (read_kept w) as [H1 H2]. destruct (read_spec execute "git" w) as [H3 H4]. split; [exact H1|]. split.
    + split; [exact (f_equal (λ vs, head (bfilter (λ v, 0 <? slen v) vs)) H3)|]. intros n. unfold unit_of. cbn. by rewrite H2.
    + intros h Hh. cbn in Hh. rewrite Hh in H4. by apply hooks_path_list in H4.
  - intros p expected w. destruct (write_kept p expected w) as [H1 H2]. split; [exact H1|]. split.
    + intros n. unfold unit_of. cbn. by rewrite H2.
    + intros Hok. apply hooks_path_list. by apply (write_done execute "git" p expected w).
  - intros reg d b w. destruct (set_law_ reg d (Some b) w) as [[H1 H2 H3] _]. split; [exact H1|]. split; [by apply hooks_path_same|exact H3].
  - intros reg b w. destruct (restart_law_ reg (Some b) w) as [H1 H2 H3]. split; [exact H1|]. split; [by apply hooks_path_same|exact H3].
  - intros reg b w. destruct (restore_law_ reg b w) as [[H1 H2 H3] H4]. split; [exact H1|]. split; [split; [by apply hooks_path_same|exact H3]|exact H4].
Defined.

(** *** An activation *)

#[local] Existing Instance SampleHome.silent.
Definition fresh : Machine := mkMachine SampleHome.before_ ["~/hooks"] ∅ [] 0.
Definition unit_name : string := "agentkeeper.service".
Definition unit_path : AbsolutePath := AbsolutePath.mkPath (unit_file unit_name) AbsolutePath.posix_flavour "/".
Definition registration_ : ServiceRegistration := mkRegistration Platform.Linux unit_name unit_path.
Definition activated : Machine * result ProtectionInstallationExecutionResult :=
  (let* p := ProtectionInstallationPlanner.plan_protection files SampleHome.current Platform.Linux services_ git_ None activate in
   TransactionalProtectionInstallationExecutor.execute executor services_ git_ p) fresh.
(** The first activation of a Linux machine does not go through. The plan sees a unit that is not there; the files are written, the unit's among
    them; and then [is-enabled] knows the unit, so the service is no more as the plan saw it. Everything is taken back. *)
Example activation_refused : activated.2 = Err (TransactionalProtectionInstallationExecutor.stale
    (service registration_ absentStatus desired_active false ""))
  ∧ disk activated.1 = SampleHome.before_ ∧ hooks_values activated.1 = ["~/hooks"] ∧ units activated.1 = ∅.
Proof. split_and!; vm_compute; reflexivity. Qed.

(** A unit whose file is there is started: it is asked about, and then the script runs. *)
Definition installed : Machine := mkMachine (put ∅ (AbsolutePath.value unit_path) (Some "[Unit]")) [] ∅ [] 0.
Definition started_unit : Machine * result unit :=
  setDesired execute clock sleep (Some 1000%Z) defaults registration_ desired_active None installed.
Example unit_starts : started_unit.2 = Ok tt ∧ unit_of started_unit.1 unit_name = running
  ∧ commands started_unit.1 = map (pair "systemctl")
      [["--user"; "is-enabled"; unit_name]; ["--user"; "is-active"; unit_name]; ["--user"; "daemon-reload"]; ["--user"; "enable"; "--now"; unit_name]].
Proof. split_and!; vm_compute; reflexivity. Qed.
End SampleLinux.

Lemma service_transitions_witness :
  ∃ acted, SampleLinux.commands SampleLinux.started_unit.1
      = SampleLinux.commands (PlatformServiceController.inspect SampleLinux.execute SampleLinux.clock SampleLinux.sleep (Some 1000%Z) PlatformServiceController.defaults
                    SampleLinux.registration_ SampleLinux.installed).1 ++ acted
    ∧ bfilter (acting (Some 1000%Z) PlatformServiceController.defaults SampleLinux.registration_) acted
      = map (pair "systemctl") [["--user"; "daemon-reload"]; ["--user"; "enable"; "--now"; SampleLinux.unit_name]].
Proof.
  destruct (service_transitions SampleLinux.execute SampleLinux.clock SampleLinux.sleep (Some 1000%Z) PlatformServiceController.defaults
     SampleLinux.registration_ desired_active None absentStatus SampleLinux.installed) as (_ & H & _).
  replace ((PlatformServiceController.inspect _ _ _ _ _ _ _).2) with (@Ok ServiceStatus (mkServiceStatus true false false)) in H by (vm_compute; reflexivity).
  destruct H as [[(acted & Hran & _ & Hall) _] _]. exists acted. split; [exact Hran|]. rewrite (Hall tt (proj1 SampleLinux.unit_starts)). reflexivity.
Defined.
Lemma git_setting_exact_witness :
  paths_at SampleLinux.execute "git" (ProcessGitConfigurationController.writeGlobalHooksPath SampleLinux.execute "git" (Some "/home/u/.hooks")
    (Some (Some "~/hooks")) SampleLinux.fresh).1 = ["/home/u/.hooks"].
Proof.
  apply (git_setting_exact SampleLinux.execute "git" (Some "/home/u/.hooks") (Some (Some "~/hooks")) SampleLinux.fresh); [done|vm_compute; reflexivity].
Defined.
