(* ===== verification/Hook.v ===== *)
(** * The hook before a tool call (src/presentation/cli/commands/HookCommand.ts)

    The entry point the agent calls with a JSON description of the tool call on its
    standard input: the configuration, the parsed payload and the evaluation of the call,
    and what is written where. *)

From S2P Require Import Prelude JsString JsMap JsNumber Json NodePath Paths Values SensitivePaths Registry Tiers Entities Policy Shell ToolCall.
From S2P Require Import Rules ToolCallRules Ports EvaluateToolCall Configuration.
Import JSON.

Module HookCommand.

(** What the process leaves behind. *)
Record Output := mkOutput { stdout : string; stderr : string; code : Z }.
Definition silent : Output := mkOutput "" "" 0.

Record HookPayload := mkPayload { tool_name : string; tool_input : gmap string (option string); cwd : option string }.
(** The named members of the input; an array has none of the names that are read. *)
Definition input_of (v : option Json) : gmap string (option string) :=
  match v with Some (JObject m) => list_to_map (map (λ kv, (kv.1, text_of (Some kv.2))) m) | _ => ∅ end.
(** [parse]; what is no object has no tool name, and [null] throws inside the [try]. *)
Definition parse (raw : string) : option HookPayload :=
  match JSON.parse raw with
  | Some v => match text_of (prop v "tool_name") with
              | Some name => Some (mkPayload name (input_of (prop v "tool_input")) (text_of (prop v "cwd")))
              | None => None
              end
  | None => None
  end.

Definition refusal (reason : string) : Json :=
  JObject [("hookSpecificOutput", JObject [("hookEventName", JString "PreToolUse"); ("permissionDecision", JString "deny");
                                           ("permissionDecisionReason", JString reason)])].
Definition verdict_line (reason : string) : string := stringify "" (refusal reason) +:+ nl.

(** What [new Container] gathers; it may throw. *)
Record Environment := mkEnvironment { identityHome : AbsolutePath; env_cwd : AbsolutePath; env_platform : Platform }.

Section hook.
Context {W : Type} (files : FileSystem W) (registry : SensitivePathRegistry).
Context (decisions : DecisionStore W) (audit : AuditLog W) (clock : Clock W).
Context (start : M W Environment) (readStdin : M W string) (realPath : AbsolutePath → M W AbsolutePath).

Definition stateDir (e : Environment) : result AbsolutePath := AbsolutePath.joinp (identityHome e) [".agentkeeper"].
Definition config (e : Environment) : M W Configuration.Configuration := let* d := mlift (stateDir e) in Configuration.load files d.

(** [(await container.evaluateToolCall()).execute(call)] *)
Definition evaluate (c : Configuration.Configuration) (call : ToolCall) : M W EvaluateToolCall.ToolCallVerdict :=
  let* engine := mlift (EvaluateToolCall.toolCallScanner registry (Configuration.isEnabled c "categoryA")) in
  EvaluateToolCall.execute engine decisions audit clock (Configuration.isEnabled c) call.

Definition call_of (e : Environment) (p : HookPayload) : M W ToolCall :=
  let* home := realPath (identityHome e) in
  let* given := mlift (match cwd p with None => Ok (env_cwd e) | Some raw => AbsolutePath.of_ raw end) in
  let* workspace := realPath given in
  mok (ToolCall.mkCall (tool_name p) (tool_input p) (mkContext home workspace (env_platform e))).

(** The body of the [try] once the configuration is known. *)
Definition answer (e : Environment) (c : Configuration.Configuration) : M W Output :=
  let* raw := readStdin in
  match parse raw with
  | None => mok silent
  | Some p =>
      let* call := call_of e p in
      let* v := evaluate c call in
      mok (if bool_decide (EvaluateToolCall.decision v = EvaluateToolCall.allow_call) then silent
           else mkOutput (verdict_line (EvaluateToolCall.reason v)) "" 0)
  end.
Definition failed (strict : bool) (error : exn) : Output :=
  if strict then mkOutput "" ("agentkeeper: hook failed: " +:+ exn_message error +:+ nl) 1 else silent.

Definition execute (args : list string) : M W Output := λ w,
  match args with
  | verb :: _ =>
      if (verb =? "pretooluse")%string then
        match (let* e := start in let* c := config e in mok (e, c)) w with
        | (w1, Err error) => (w1, Ok (failed false error))
        | (w1, Ok (e, c)) =>
            match answer e c w1 with
            | (w2, Ok out) => (w2, Ok out)
            | (w2, Err error) => (w2, Ok (failed (Configuration.strict_mode c) error))
            end
        end
      else (w, Ok (mkOutput "" ("Usage: agentkeeper hook pretooluse" +:+ nl) 1))
  | [] => (w, Ok (mkOutput "" ("Usage: agentkeeper hook pretooluse" +:+ nl) 1))
  end.

(** ** What it writes *)

Lemma refusal_canonical reason : canonical (refusal reason).
Proof.
  apply canonical_named; [reflexivity..|]. cbn [fmap list_fmap snd]. repeat apply Forall_cons_2; try apply Forall_nil_2.
  apply canonical_named; [reflexivity..|]. cbn [fmap list_fmap snd]. repeat apply Forall_cons_2; try apply Forall_nil_2; apply canonical_string.
Qed.
Lemma verdict_line_read reason : JSON.parse (verdict_line reason) = Some (refusal reason).
Proof. apply (parse_stringify "" _ nl); [done|done|apply refusal_canonical]. Qed.
Lemma verdict_line_one reason : ∃ t, verdict_line reason = t +:+ nl ∧ has_char newline t = false.
Proof. eexists. split; [done|]. apply serialize_one_line, refusal_canonical. Qed.

(** The verdict on one call, from the start of the process. *)
Record judged (w : W) (w5 : W) (v : EvaluateToolCall.ToolCallVerdict) : Prop := mkJudged {
  judged_run : ∃ e w1 c w2 raw w3 p call w4,
    start w = (w1, Ok e) ∧ config e w1 = (w2, Ok c) ∧ readStdin w2 = (w3, Ok raw) ∧ parse raw = Some p
    ∧ call_of e p w3 = (w4, Ok call) ∧ evaluate c call w4 = (w5, Ok v)
}.
(** The process broke after the configuration had asked for the strict mode. *)
Definition broke_strictly (w : W) (error : exn) : Prop :=
  ∃ e w1 c w2 w3, start w = (w1, Ok e) ∧ config e w1 = (w2, Ok c) ∧ answer e c w2 = (w3, Err error) ∧ Configuration.strict_mode c = true.
Definition verdict_output (v : EvaluateToolCall.ToolCallVerdict) : Output :=
  if bool_decide (EvaluateToolCall.decision v = EvaluateToolCall.allow_call) then silent else mkOutput (verdict_line (EvaluateToolCall.reason v)) "" 0.

Lemma answer_judged e c w w1 w2 : start w = (w1, Ok e) → config e w1 = (w2, Ok c) → 
  ∀ w' out, answer e c w2 = (w', Ok out) → out = silent ∨ ∃ v, judged w w' v ∧ out = verdict_output v.
Proof.
  intros Hs Hc w' out. unfold answer, mseq. destruct (readStdin w2) as [w3 [raw|]] eqn:Er; [|done].
  destruct (parse raw) as [p|] eqn:Ep; [|intros [= <- <-]; by left].
  destruct (call_of e p w3) as [w4 [call|]] eqn:Ec; [|done]. destruct (evaluate c call w4) as [w5 [v'|]] eqn:Ev; [|done].
  intros [= <- <-]. right. exists v'. split; [|done]. split. by exists e, w1, c, w2, raw, w3, p, call, w4.
Qed.
Lemma judged_answer w w' v rest : judged w w' v → execute ("pretooluse" :: rest) w = (w', Ok (verdict_output v)).
Proof.
  intros [(e & w1 & c & w2 & raw & w3 & p & call & w4 & Hs & Hc & Hr & Hp & Hcall & Hv)].
  cbn [execute]. change ("pretooluse" =? "pretooluse")%string with true. cbv iota. unfold mseq at 1 2. rewrite Hs, Hc. cbn [mok].
  unfold answer, mseq. rewrite Hr, Hp, Hcall, Hv. done.
Qed.

Lemma broke_answer w error rest : broke_strictly w error → ∃ w', execute ("pretooluse" :: rest) w = (w', Ok (failed true error)).
Proof.
  intros (e & w1 & c & w2 & w3 & Hs & Hc & Ha & Hst). exists w3.
  cbn [execute]. change ("pretooluse" =? "pretooluse")%string with true. cbv iota. unfold mseq. rewrite Hs, Hc. cbn [mok].
  by rewrite Ha, Hst.
Qed.
Lemma execute_cases w rest : ∃ w' out, execute ("pretooluse" :: rest) w = (w', Ok out)
  ∧ (out = silent ∨ (∃ v, judged w w' v ∧ out = verdict_output v) ∨ ∃ error, broke_strictly w error ∧ out = failed true error).
Proof.
  cbn [execute]. change ("pretooluse" =? "pretooluse")%string with true. cbv iota.
  destruct (mseq start _ w) as [w1 [[e0 c0]|error]] eqn:Es; [|by eexists _, _; split; [|left]].
  apply mseq_Ok in Es as (wa & e & Es & Ec). apply mseq_Ok in Ec as (wb & c & Ec & [= <- <- <-]).
  destruct (answer e c wb) as [w2 [out|error]] eqn:Ea; eexists _, _; (split; [done|]).
  - destruct (answer_judged e c w wa wb Es Ec w2 out Ea) as [->|(v & Hv & ->)]; [by left|right; left; by exists v].
  - destruct (Configuration.strict_mode c) eqn:Est; [|by left]. right. right. exists error. split; [|done]. by exists e, wa, c, wb, w2.
Qed.
Definition usage : Output := mkOutput "" ("Usage: agentkeeper hook pretooluse" +:+ nl) 1.

(** C19. The contract with the agent. The hook always ends, and leaves one of four things.
    For any other verb: the usage on the error output and code 1, with nothing touched. A
    call that was judged: the answer to its verdict, which is silence for allow and else
    code 0, an empty error output and exactly one line on standard output, the JSON refusal
    with the reason of the verdict. A process that broke after its configuration asked for
    the strict mode: the error on the error output and code 1. And everything else,
    which is a process that breaks before or without the strict mode, and a payload that
    is not understood (strict mode or not), is silence with code 0, so that the call passes. *)
Theorem hook_contract args w : ∃ w' out, execute args w = (w', Ok out)
  ∧ (head args ≠ Some "pretooluse" → w' = w ∧ out = usage)
  ∧ (head args = Some "pretooluse" →
       (∀ v w2, judged w w2 v → w' = w2 ∧ out = verdict_output v)
     ∧ (∀ error, broke_strictly w error → out = failed true error)
     ∧ (out = silent ∨ (∃ v, judged w w' v ∧ out = verdict_output v) ∨ ∃ error, broke_strictly w error ∧ out = failed true error))
  ∧ (stdout out = "" ∨ ∃ v, judged w w' v ∧ EvaluateToolCall.decision v ≠ EvaluateToolCall.allow_call
       ∧ out = mkOutput (verdict_line (EvaluateToolCall.reason v)) "" 0
       ∧ JSON.parse (stdout out) = Some (refusal (EvaluateToolCall.reason v))
       ∧ ∃ t, stdout out = t +:+ nl ∧ has_char newline t = false).
Proof.
  destruct (decide (head args = Some "pretooluse")) as [Hverb|Hverb].
  2:{ exists w, usage. split; [|by split_and!; [|intros H; by elim Hverb|left]].
      destruct args as [|verb rest]; [done|]. cbn [execute]. destruct (String.eqb_spec verb "pretooluse") as [->|]; [by elim Hverb|done]. }
  destruct args as [|verb rest]; [done|]. injection Hverb as ->.
  destruct (execute_cases w rest) as (w' & out & E & Hc). exists w', out. split; [done|]. split; [by intros H; elim H|].
  split; [intros _; split; [|split]|].
  - intros v w2 Hv. apply (judged_answer _ _ _ rest) in Hv. rewrite E in Hv. by injection Hv.
  - intros error Hs. apply (broke_answer _ _ rest) in Hs as [w2 Hs]. rewrite E in Hs. by injection Hs.
  - exact Hc.
  - destruct Hc as [->|[(v & Hv & ->)|(error & _ & ->)]]; [by left| |by left].
    unfold verdict_output. case_bool_decide; [by left|]. right. exists v. split_and!; try done; [apply verdict_line_read|apply verdict_line_one].
Qed.

(** C3. No setting lets a call pass that names a tier-2 path and whose paths can be listed.
    Take a process that starts, reads its configuration and its input, and finds a call in
    it. When the paths of the call can be listed, and the state directory of its home
    named, and one of them is of tier 2 for the access of the call, the refusal is written,
    whatever the configuration, the stored decisions, the clock and the audit log are.
    When the paths cannot be listed, which one argument of the call is enough for, no rule
    judges it: the call passes in silence, unless the strict mode was asked for. *)
Theorem hook_refuses_tier2 rest e w w1 c w2 raw w3 p call w4 :
  start w = (w1, Ok e) → config e w1 = (w2, Ok c) → readStdin w2 = (w3, Ok raw) → parse raw = Some p → call_of e p w3 = (w4, Ok call) →
  (∀ ps q, EvaluateToolCall.readable call ps → q ∈ ps →
    AccessTierResolver.tierOf registry q (ToolCall.access call) (ToolCall.context call) = AccessTier.DANGEROUS →
    ∃ w' reason, execute ("pretooluse" :: rest) w = (w', Ok (mkOutput (verdict_line reason) "" 0)))
  ∧ ∀ error, ToolCall.paths call = Err error →
    execute ("pretooluse" :: rest) w
    = (w4, Ok (if Configuration.strict_mode c
               then mkOutput "" ("agentkeeper: hook failed: " +:+ exn_message error +:+ nl) 1 else silent)).
Proof.
  intros Hs Hc Hr Hp Hcall. split.
  - intros ps q Hread Hq Ht.
    destruct (EvaluateToolCall.tier2_denied registry (Configuration.isEnabled c "categoryA") decisions audit clock (Configuration.isEnabled c) call ps q w4 Hread Hq Ht)
      as (engine & v & He & Hv & Hd & _).
    destruct (evaluate c call w4) as [w5 r] eqn:Ev. assert (r = Ok v) as ->.
    { unfold evaluate, mseq, mlift in Ev. rewrite He in Ev. by rewrite Ev in Hv. }
    exists w5, (EvaluateToolCall.reason v). rewrite (judged_answer w w5 v rest).
    + unfold verdict_output. by rewrite Hd.
    + split. by exists e, w1, c, w2, raw, w3, p, call, w4.
  - intros error Herr. cbn [execute]. change ("pretooluse" =? "pretooluse")%string with true. cbv iota.
    unfold mseq at 1 2. rewrite Hs, Hc. cbn [mok]. unfold answer, mseq. rewrite Hr, Hp, Hcall.
    unfold evaluate, mseq, mlift. rewrite EvaluateToolCall.toolCallScanner_ok.
    unfold EvaluateToolCall.execute, mseq, mlift. by rewrite (EvaluateToolCall.scan_unreadable _ _ _ error).
Qed.
End hook.
End HookCommand.

(** ** A call that reads a key *)

Module SampleCall.
Import HookCommand.
Definition h : AbsolutePath := AbsolutePath.posix_path ["home"; "u"].
Definition env : Environment := mkEnvironment h (AbsolutePath.posix_path ["home"; "u"; "w"]) Platform.Linux.
(** The configuration turns everything off that it can. *)
Definition config_text : string :=
  stringify "" (JObject [("version", JNum (Int 1)); ("rules", JObject [("AG-B001", JObject [("enabled", JBool false)]); ("categoryB", JObject [("enabled", JBool false)])])]).
Definition disk : Contents := {["/home/u/.agentkeeper/config.json" := config_text]}.
Definition stdin_text : string :=
  stringify "" (JObject [("tool_name", JString "Bash"); ("tool_input", JObject [("command", JString "cat ~/.ssh/id_rsa")]); ("cwd", JString "/home/u/w")]).
Definition decisions : DecisionStore Contents := mkDecisionStore Contents (λ _, mok None) (λ _, mok tt) (λ _, mok tt) (mok []).
Definition full_log : AuditLog Contents := mkAuditLog Contents (λ _ w, (w, throw "ENOSPC")).
Definition clock : Clock Contents := mkClock Contents (mok 0%Z).
Definition run : list string → M Contents Output :=
  execute MemoryFiles.files default_registry decisions full_log clock (mok env) (mok stdin_text) mok.
Definition call : ToolCall :=
  ToolCall.mkCall "Bash" {["command" := Some "cat ~/.ssh/id_rsa"]} (mkContext h (AbsolutePath.posix_path ["home"; "u"; "w"]) Platform.Linux).
Definition payload : HookPayload := mkPayload "Bash" {["command" := Some "cat ~/.ssh/id_rsa"]} (Some "/home/u/w").
Definition key : AbsolutePath := AbsolutePath.posix_path ["home"; "u"; ".ssh"; "id_rsa"].
Definition settings : Configuration.Configuration := Configuration.decode (Some config_text).
Example settings_say : Configuration.isEnabled settings "AG-B001" = false.
Proof. vm_compute. reflexivity. Qed.
End SampleCall.

Lemma hook_refuses_tier2_witness :
  ∃ w' reason, SampleCall.run ["pretooluse"] SampleCall.disk = (w', Ok (HookCommand.mkOutput (HookCommand.verdict_line reason) "" 0)).
Proof.
  destruct (@HookCommand.hook_refuses_tier2 Contents MemoryFiles.files default_registry SampleCall.decisions SampleCall.full_log SampleCall.clock
    (mok SampleCall.env) (mok SampleCall.stdin_text) mok [] SampleCall.env SampleCall.disk SampleCall.disk SampleCall.settings SampleCall.disk SampleCall.stdin_text
    SampleCall.disk SampleCall.payload SampleCall.call SampleCall.disk) as [Hrefused _].
  - reflexivity.
  - vm_compute. reflexivity.
  - reflexivity.
  - vm_compute. reflexivity.
  - vm_compute. reflexivity.
  - apply (Hrefused [SampleCall.key] SampleCall.key).
    + split; [vm_compute; reflexivity|]. eexists. vm_compute. reflexivity.
    + by left.
    + vm_compute. reflexivity.
Defined.
