(* ===== verification/CommandLine.v ===== *)
(** * The command line (src/presentation/cli)

    Flags, the request behind [grants], [allow] and [revoke], the pause of notifications,
    the target of a scan, what is printed of findings, changes and failures, and the exit
    codes of [doctor]. *)

From S2P Require Import Prelude JsString JsMap JsNumber Json NodePath Paths Values Resources SensitivePaths Entities Ports.
From S2P Require Import GrantAccess Protection MonitorPersistence Stores StateFiles.
Import MonitorPersistence(PauseState, pause_active, pause_expired).
Import JSON.

(** ** Flags (Command.ts) *)

Module Flags.
(** A flag without a value is [None]. *)
Record Flags := mkFlags { values : list (string * option string); positional : list string }.
Definition empty : Flags := mkFlags [] [].
Definition is_flag (arg : string) : bool := startsWith arg "--".
Definition set_flag (f : Flags) (name : string) (v : option string) : Flags := mkFlags (JsMap.set (values f) name v) (positional f).
Definition push (f : Flags) (arg : string) : Flags := mkFlags (values f) (positional f ++ [arg]).
(** [splitOnce(text, '=')] *)
Definition splitOnce (text : string) : string * option string :=
  match indexOf text "=" with None => (text, None) | Some i => (stake i text, Some (sdrop (i + 1) text)) end.
(** The loop; a flag takes the next argument when that is no flag. *)
Fixpoint walk (f : Flags) (args : list string) : Flags :=
  match args with
  | [] => f
  | arg :: rest =>
      if negb (is_flag arg) then walk (push f arg) rest
      else match splitOnce (sdrop 2 arg) with
           | (name, Some inline) => walk (set_flag f name (Some inline)) rest
           | (name, None) =>
               match rest with
               | next :: rest' => if negb (is_flag next) then walk (set_flag f name (Some next)) rest' else walk (set_flag f name None) rest
               | [] => set_flag f name None
               end
           end
  end.
Definition parse (args : list string) : Flags := walk empty args.
Definition has (f : Flags) (name : string) : bool := match JsMap.get (values f) name with Some _ => true | None => false end.
Definition value (f : Flags) (name : string) : option string := match JsMap.get (values f) name with Some v => v | None => None end.
End Flags.
Abbreviation Flags := Flags.Flags.

(** ** What is printed (messages/render.ts) *)

(** What a command prints, and its exit code. *)
Record Printed := mkPrinted { out : string; err : string; exit : Z }.

Fixpoint padEnd (width : nat) (s : string) : string :=
  match width, s with
  | O, _ => s
  | S n, "" => String " " (padEnd n "")
  | S n, String c r => String c (padEnd n r)
  end.

Module Palette.
Inductive Colour := dim | bold | red | yellow | green | blue.
Definition escape (n : string) : string := str1 (chr 27) +:+ "[" +:+ n +:+ "m".
Definition COLOURS (c : Colour) : string :=
  escape match c with dim => "2" | bold => "1" | red => "31" | yellow => "33" | green => "32" | blue => "34" end.
Definition wrap (enabled : bool) (c : Colour) (text : string) : string := if enabled then COLOURS c +:+ text +:+ escape "0" else text.
End Palette.

Module render.
Import Palette.
Section palette.
Context (enabled : bool).
Abbreviation paint := (wrap enabled).
Definition severityBadge (f : Finding) : string :=
  let label := padEnd 8 (toUpperCase (Severity.name (Finding.severity f))) in
  if (Severity.name (Finding.severity f) =? "critical")%string then paint red label
  else if (Severity.name (Finding.severity f) =? "high")%string then paint yellow label
  else paint dim label.
Definition renderFinding (f : Finding) : string :=
  let where_ := match Finding.location f with None => "" | Some l => paint dim (" (" +:+ SourceLocation.toString l +:+ ")") end in
  join nl [severityBadge f +:+ " " +:+ paint bold (Finding.title f); "  " +:+ Finding.subject f +:+ where_; "  " +:+ Finding.detail f;
           "  " +:+ paint dim (Finding.remediation f); paint dim ("  " +:+ RuleId.value (Finding.ruleId f))].

(** The lines both begin with, and what is left of each. *)
Fixpoint common_head (b a : list string) : list string * (list string * list string) :=
  match b, a with
  | x :: b', y :: a' => if (x =? y)%string then (x :: (common_head b' a').1, (common_head b' a').2) else ([], (b, a))
  | _, _ => ([], (b, a))
  end.
(** What is removed and what is added between the common head and the common tail. *)
Definition changed (before after : list string) : list string * list string :=
  let rest := (common_head before after).2 in
  let back := (common_head (rev rest.1) (rev rest.2)).2 in
  (rev back.1, rev back.2).
Definition renderDiff (path summary : string) (before after : option string) : string :=
  let lines := [paint bold path; paint dim ("  " +:+ summary)] in
  match after with
  | None => join nl (lines ++ [paint red "  - (file removed)"])
  | Some after =>
      let c := changed (split newline (default "" before)) (split newline after) in
      join nl (lines ++ map (λ l, paint red ("  - " +:+ l)) c.1 ++ map (λ l, paint green ("  + " +:+ l)) c.2)
  end.
End palette.

(** [describeFailure]; no error of the program has a cause, and [ellipsis] stands for the
    character of that name. *)
Fixpoint indent (n : nat) : string := match n with O => "" | S n => "  " +:+ indent n end.
Fixpoint describeFailure (ellipsis : string) (depth : nat) (error : exn) : string :=
  if 4 <? depth then ellipsis
  else match error with
       | AggregateError errors message =>
           let nested := map (describeFailure ellipsis (S depth)) errors in
           match nested with
           | [] => message
           | _ => message +:+ nl +:+ join nl (map (λ l, indent (S depth) +:+ "- " +:+ l) nested)
           end
       | _ => exn_message error
       end.
End render.

(** ** Grants (GrantsCommand.ts) *)

Module GrantsCommand.
Inductive GrantsMode := mode_grants | mode_allow | mode_revoke.
#[global] Instance GrantsMode_eq_dec : EqDecision GrantsMode.
Proof. solve_decision. Defined.
Inductive Request :=
| request_list
| request_add (target : string) (access : Access) (scope : GrantAccess.RequestScope) (reason : string)
| request_revoke (id : string)
| request_error (message : string).
Definition USAGE (m : GrantsMode) : string :=
  match m with
  | mode_grants => "grants [--add <dir:path>] [--write] [--revoke <id>]"
  | mode_allow => "allow <path> [--read|--write] [--workspace] [--reason <text>]"
  | mode_revoke => "revoke <id>"
  end.
Definition orelse {A} (a b : option A) : option A := match a with Some _ => a | None => b end.
Definition parseGrantRequest (mode : GrantsMode) (args : list string) : Request :=
  let flags := Flags.parse args in
  let reason := default "added from the command line" (Flags.value flags "reason") in
  let scope := if Flags.has flags "workspace" then GrantAccess.workspace_scope else GrantAccess.global_scope in
  let access := if Flags.has flags "write" then write else read in
  if bool_decide (mode = mode_revoke) || bool_decide (is_Some (Flags.value flags "revoke")) then
    match orelse (Flags.value flags "revoke") (head (Flags.positional flags)) with
    | None => request_error ("Usage: agentkeeper " +:+ USAGE mode_revoke)
    | Some id => request_revoke id
    end
  else
    match orelse (Flags.value flags "add") (if bool_decide (mode = mode_allow) then head (Flags.positional flags) else None) with
    | None => if bool_decide (mode = mode_allow) then request_error ("Usage: agentkeeper " +:+ USAGE mode_allow) else request_list
    | Some target => request_add target access scope reason
    end.

Section execute.
Context `{Digest} {W : Type} (registry : SensitivePathRegistry) (grants : GrantStore W) (audit : AuditLog W) (clock : Clock W).
Context (colours : bool) (check_mark : string) (identityHome cwd : AbsolutePath) (platform : Platform) (realPath : AbsolutePath → M W AbsolutePath).
Definition grantTakesEffectNextRun : string :=
  "Granted. It takes effect on the next run: both sandbox mechanisms fix the profile when the process starts, so a running agent keeps the world it was given.".
Definition grant_lines (home : AbsolutePath) (g : Grant) : string :=
  let origin := match Grant.origin g with Grant.manual => Palette.wrap colours Palette.yellow "hand-written" | Grant.runtime => "runtime" end in
  let dot := " " +:+ str1 (chr 183) +:+ " " in
  Palette.wrap colours Palette.bold (Grant.id g) +:+ "  " +:+ padEnd 5 (access_name (Grant.access g)) +:+ " "
  +:+ ResourceRef.toResourceString (Grant.resource g) home +:+ nl
  +:+ "  " +:+ Palette.wrap colours Palette.dim (GrantScope.toString (Grant.scope g) +:+ dot +:+ origin +:+ dot +:+ Grant.reason g) +:+ nl.
(** The resolver of the process starts with an empty cache. *)
Definition grant_access (r : GrantAccess.GrantRequest) : M W GrantAccess.GrantOutcome := λ w,
  match GrantAccess.execute registry grants audit clock r (∅, w) with ((_, w'), x) => (w', x) end.
Definition execute (mode : GrantsMode) (args : list string) : M W Printed :=
  let* home := realPath identityHome in
  match parseGrantRequest mode args with
  | request_error message => mok (mkPrinted "" (message +:+ nl) 1)
  | request_revoke id =>
      let* removed := revoke_grant grants id in
      mok (if removed then mkPrinted ("Revoked " +:+ id +:+ ". Takes effect on the next run." +:+ nl) "" 0
           else mkPrinted ("No grant with id " +:+ id +:+ "." +:+ nl) "" 1)
  | request_add target access scope reason =>
      let* resource := mlift (ResourceRef.parse target home) in
      let* home' := realPath home in
      let* workspace := realPath cwd in
      let* outcome := grant_access (GrantAccess.mkRequest resource access reason scope (mkContext home' workspace platform)) in
      mok match outcome with
          | GrantAccess.refused message => mkPrinted "" (message +:+ nl) 1
          | GrantAccess.granted _ => mkPrinted (Palette.wrap colours Palette.green check_mark +:+ " " +:+ grantTakesEffectNextRun +:+ nl) "" 0
          end
  | request_list =>
      let* gs := all_grants grants in
      mok (match gs with
           | [] => mkPrinted ("No grants. The workspace and the toolchain are all that is open." +:+ nl) "" 0
           | _ => mkPrinted (join "" (map (grant_lines home) gs)) "" 0
           end)
  end.
End execute.
End GrantsCommand.

(** ** The pause of notifications (PauseCommand.ts) *)

Module PauseCommand.
Definition MAX_PAUSE_MILLISECONDS : Z := 24 * 60 * 60000.
Definition MAX_SAFE_INTEGER : Z := 2 ^ 53 - 1.
(** [/^(\d+)([mhd])$/]: the digits and the unit. *)
Fixpoint duration_match (s : string) : option (string * ascii) :=
  match s with
  | "" => None
  | String c r =>
      if is_digit c then
        match r with
        | String u "" => if Ascii.eqb u "m" || Ascii.eqb u "h" || Ascii.eqb u "d" then Some (str1 c, u) else None
        | _ => (λ du, (String c du.1, du.2)) <$> duration_match r
        end
      else None
  end.
Definition unit_of (u : ascii) : Z := if Ascii.eqb u "m" then 60000 else if Ascii.eqb u "h" then 60 * 60000 else 24 * 60 * 60000.
Definition parsePauseDuration (raw : string) : option Z :=
  if (raw =? "today")%string then Some (8 * 60 * 60000)%Z
  else match duration_match (trim raw) with
       | None => None
       | Some (digits, u) =>
           let amount := digits_value 0 digits in
           if (MAX_SAFE_INTEGER <? amount)%Z || (amount <? 1)%Z then None
           else let milliseconds := (amount * unit_of u)%Z in
                if (milliseconds <=? MAX_PAUSE_MILLISECONDS)%Z then Some milliseconds else None
       end.

Section pause.
Context `{JsDate} {W : Type} (files : FileSystem W) (audit : AuditLog W) (clock : Clock W) (stateDir : AbsolutePath).
Definition lease (until : Z) : string := stringify "" (JObject [("until", JString (toISOString until))]) +:+ nl.
(** [ConsoleLogger.error] *)
Definition wrong_duration : string := "agentkeeper: pause duration must be between 1 minute and 24 hours" +:+ nl.
Definition resume : M W Printed :=
  let* p := mlift (AbsolutePath.joinp stateDir ["pause.json"]) in
  let* _ := remove_ files p in
  let* t := now clock in
  let* _ := append_ audit (mkEntry t "pause.resumed" []) in
  mok (mkPrinted ("Resumed." +:+ nl) "" 0).
(** [toISOString] throws on an invalid date. *)
Definition pause (raw : string) : M W Printed :=
  let* p := mlift (AbsolutePath.joinp stateDir ["pause.json"]) in
  match parsePauseDuration raw with
  | None => mok (mkPrinted "" wrong_duration 2)
  | Some duration =>
      let* t := now clock in
      let until := (t + duration)%Z in
      let* text := mlift (if (Z.abs until <=? MAX_TIME)%Z then Ok (toISOString until) else throw "Invalid time value") in
      let* _ := write_ files p (lease until) None in
      let* t' := now clock in
      let* _ := append_ audit (mkEntry t' "pause.set" [("until", DText text)]) in
      mok (mkPrinted ("Notifications paused until " +:+ text +:+ "." +:+ nl
             +:+ "Isolation is unaffected: it is fixed when a command starts and cannot be paused." +:+ nl) "" 0)
  end.
Definition execute (args : list string) : M W Printed :=
  match args with
  | [] => pause "1h"
  | raw :: _ => if (raw =? "--resume")%string || (raw =? "resume")%string then resume else pause raw
  end.
End pause.
End PauseCommand.

(** ** The target of a scan and its exit code (ScanCommand.ts) *)

Module ScanCommand.
Definition shouldReviewInteractively (quiet json : bool) (source : string) : bool :=
  negb quiet && negb json && negb (source =? "git")%string && negb (startsWith source "git-").
Definition resolveTarget (raw : option string) (cwd home : AbsolutePath) : result AbsolutePath :=
  match raw with
  | None => Ok cwd
  | Some raw => if startsWith raw "/" || startsWith raw "~" then AbsolutePath.fromUserPath raw home else AbsolutePath.joinp cwd [raw]
  end.
Definition exit_code (r : ScanReport) : Z := if 0 <? length (ScanReport.blocking r) then 2 else 0.
End ScanCommand.

(** ** Which agents are intercepted (IntegrationsCommand.ts) *)

Module IntegrationsCommand.
Inductive AgentIntegrationStatus := absent | unprotected | needs_repair | intercepted.
#[global] Instance AgentIntegrationStatus_eq_dec : EqDecision AgentIntegrationStatus.
Proof. solve_decision. Defined.
Record AgentIntegration := mkIntegration { agent : string; executable : option string; shimPresent : bool; managedHealthy : bool }.
Definition classifyIntegration (i : AgentIntegration) : AgentIntegrationStatus :=
  match executable i with
  | None => absent
  | Some _ => if negb (shimPresent i) then unprotected else if managedHealthy i then intercepted else needs_repair
  end.
Definition exit_code (rows : list AgentIntegration) : Z :=
  if some (λ r, bool_decide (classifyIntegration r = needs_repair)) rows then 2 else 0.
Definition named (s : AgentIntegrationStatus) (rows : list AgentIntegration) : list string :=
  map agent (bfilter (λ r, bool_decide (classifyIntegration r = s)) rows).
Definition footer (rows : list AgentIntegration) : string :=
  match named unprotected rows, named needs_repair rows with
  | [], [] => "Every agent found on this machine launches through agentkeeper."
  | [], broken => "Run `agentkeeper repair`: " +:+ join ", " broken +:+ " " +:+ (if length broken =? 1 then "is" else "are") +:+ " installed but not healthy."
  | missing, _ => "Run `agentkeeper activate` to intercept: " +:+ join ", " missing +:+ "."
  end.
End IntegrationsCommand.

(** ** The exit code of [doctor] (DoctorCommand.ts) *)

Module DoctorCommand.
(** The installation as it is reported: an error, or whether it is healthy. *)
Definition exit_code (level : ProtectionStatus.ProtectionLevel) (healthy : bool) : Z :=
  if bool_decide (level = ProtectionStatus.PROTECTED) && healthy then 0 else if bool_decide (level = ProtectionStatus.DEGRADED) then 2 else 3.
End DoctorCommand.

(** ** Both ways of granting agree *)

Section flags.
Import Flags.
Lemma walk_from f args :
  positional (walk f args) = positional f ++ positional (parse args)
  ∧ ∀ k, JsMap.get (values (walk f args)) k = match JsMap.get (values (parse args)) k with Some v => Some v | None => JsMap.get (values f) k end.
Proof.
  unfold parse. remember (length args) as n eqn:Hn. assert (length args ≤ n) as Hle by lia. clear Hn. revert f args Hle.
  assert (∀ f k, JsMap.get (values f) k = match JsMap.get (values empty) k with Some v => Some v | None => JsMap.get (values f) k end) as Hemp by done.
  induction n as [|n IH]; intros f args Hle.
  { destruct args; [|cbn in Hle; lia]. cbn [walk]. split; [by rewrite app_nil_r|done]. }
  assert (∀ g args, length args ≤ n →
    (positional (walk g args) = positional g ++ positional (walk empty args)
     ∧ ∀ k, JsMap.get (values (walk g args)) k = match JsMap.get (values (walk empty args)) k with Some v => Some v | None => JsMap.get (values g) k end)) as IH' by exact IH.
  assert (∀ name v r, length r ≤ n →
    positional (walk (set_flag f name v) r) = positional f ++ positional (walk (set_flag empty name v) r)
    ∧ ∀ k, JsMap.get (values (walk (set_flag f name v) r)) k
        = match JsMap.get (values (walk (set_flag empty name v) r)) k with Some v => Some v | None => JsMap.get (values f) k end) as Hset.
  { intros name v r Hr. destruct (IH' (set_flag f name v) r Hr) as [P1 V1], (IH' (set_flag empty name v) r Hr) as [P2 V2]. split.
    - rewrite P1, P2. done.
    - intros k. rewrite V1, V2. destruct (JsMap.get (values (walk empty r)) k); [done|]. cbn [values set_flag]. rewrite !JsMap.get_set.
      by destruct (name =? k)%string. }
  destruct args as [|arg rest]; cbn [walk]; [split; [by rewrite app_nil_r|done]|]. cbn in Hle.
  destruct (negb (is_flag arg)).
  { destruct (IH' (push f arg) rest ltac:(lia)) as [P1 V1], (IH' (push empty arg) rest ltac:(lia)) as [P2 V2]. split.
    - rewrite P1, P2. cbn. by rewrite <-app_assoc.
    - intros k. rewrite V1, V2. by destruct (JsMap.get (values (walk empty rest)) k). }
  destruct (splitOnce (sdrop 2 arg)) as [name [v|]]; [apply Hset; lia|].
  destruct rest as [|next rest']; [apply (Hset name None []); cbn; lia|]. cbn in Hle.
  destruct (negb (is_flag next)); apply Hset; cbn; lia.
Qed.
End flags.

Section both_verbs.
Import Flags GrantsCommand.
(** [allow <path> ...] and [grants --add <path> ...] ask for exactly the same, whatever
    follows, as long as what follows does not name another path to add. *)
Theorem allow_is_add p rest : is_flag p = false → has (parse rest) "add" = false →
  parseGrantRequest mode_allow (p :: rest) = parseGrantRequest mode_grants ("--add" :: p :: rest).
Proof.
  intros Hp Ha. unfold parseGrantRequest.
  assert (parse (p :: rest) = walk (push empty p) rest) as ->.
  { unfold parse. cbn [walk]. by rewrite Hp. }
  assert (parse ("--add" :: p :: rest) = walk (set_flag empty "add" (Some p)) rest) as ->.
  { unfold parse. cbn [walk]. rewrite Hp. reflexivity. }
  destruct (walk_from (push empty p) rest) as [P1 V1], (walk_from (set_flag empty "add" (Some p)) rest) as [P2 V2].
  assert (∀ k, (k =? "add")%string = false → value (walk (push empty p) rest) k = value (walk (set_flag empty "add" (Some p)) rest) k
     ∧ has (walk (push empty p) rest) k = has (walk (set_flag empty "add" (Some p)) rest) k) as Hk.
  { intros k Hk. unfold value, has. rewrite V1, V2. destruct (JsMap.get (values (parse rest)) k); [done|].
    cbn [values set_flag push empty]. rewrite JsMap.get_set. rewrite String.eqb_sym in Hk. by rewrite Hk. }
  assert (value (walk (set_flag empty "add" (Some p)) rest) "add" = Some p ∧ value (walk (push empty p) rest) "add" = None) as [-> ->].
  { unfold value. unfold has in Ha. rewrite V1, V2. by destruct (JsMap.get (values (parse rest)) "add"). }
  destruct (Hk "reason" eq_refl) as [-> _], (Hk "workspace" eq_refl) as [_ ->], (Hk "write" eq_refl) as [_ ->], (Hk "revoke" eq_refl) as [-> _].
  cbn [bool_decide orb]. rewrite P1, P2. cbn [positional push set_flag empty app head orelse].
  destruct (value (walk (set_flag empty "add" (Some p)) rest) "revoke") as [id|]; reflexivity.
Qed.
(** A flag without a value takes the path that follows it. *)
Example flag_takes_path : positional (parse ["--quiet"; "/repo"]) = [] ∧ value (parse ["--quiet"; "/repo"]) "quiet" = Some "/repo"
  ∧ ScanCommand.resolveTarget (head (positional (parse ["--quiet"; "/repo"]))) (AbsolutePath.posix_path ["here"]) (AbsolutePath.posix_path ["home"; "u"])
    = Ok (AbsolutePath.posix_path ["here"]).
Proof. vm_compute. done. Qed.
End both_verbs.
Lemma allow_is_add_witness :
  GrantsCommand.parseGrantRequest GrantsCommand.mode_allow ["~/data"; "--write"; "--reason"; "build"]
  = GrantsCommand.parseGrantRequest GrantsCommand.mode_grants ["--add"; "~/data"; "--write"; "--reason"; "build"].
Proof. apply (allow_is_add "~/data" ["--write"; "--reason"; "build"]); reflexivity. Defined.

(** ** A pause ends *)

Section pause.
Import PauseCommand.
Context `{JsDate} {W : Type} (files : FileSystem W) `{!FileLaws files} `{!StatLaws files} (audit : AuditLog W) (clock : Clock W) (stateDir : AbsolutePath).

Lemma duration_bounds raw d : parsePauseDuration raw = Some d → (60000 ≤ d ≤ MAX_PAUSE_MILLISECONDS)%Z.
Proof.
  unfold parsePauseDuration. case_if; [intros [= <-]; by vm_compute|]. destruct (duration_match (trim raw)) as [[ds u]|]; [|done].
  destruct (Z.ltb_spec MAX_SAFE_INTEGER (digits_value 0 ds)), (Z.ltb_spec (digits_value 0 ds) 1); try done. cbn [orb].
  destruct (Z.leb_spec (digits_value 0 ds * unit_of u) MAX_PAUSE_MILLISECONDS); [|done]. intros [= <-].
  assert (60000 ≤ unit_of u)%Z by (unfold unit_of; destruct (Ascii.eqb u "m"), (Ascii.eqb u "h"); lia). nia.
Qed.
Lemma lease_read until : JSON.parse (lease until) = Some (JObject [("until", JString (toISOString until))]).
Proof.
  apply (parse_stringify "" _ nl); [done|done|]. apply canonical_named; [reflexivity..|]. cbn [fmap list_fmap snd].
  apply Forall_cons_2; [apply canonical_string|apply Forall_nil_2].
Qed.

(** A pause is a lease. A duration that is accepted lies between a minute and a day;
    when the command returns with it, the lease is on disk, and whoever reads it later
    finds notifications paused exactly until that end by the clock, neither longer nor
    shorter, as long as the file stays there and within its bound. *)
Theorem pause_is_a_lease raw d p w w' o :
  AbsolutePath.joinp stateDir ["pause.json"] = Ok p → parsePauseDuration raw = Some d →
  (∀ v, contents (now clock v).1 = contents v) → (∀ e v, contents (append_ audit e v).1 !! AbsolutePath.value p = contents v !! AbsolutePath.value p) →
  execute files audit clock stateDir [raw] w = (w', Ok o) → (raw =? "resume")%string = false → (raw =? "--resume")%string = false →
  (60000 ≤ d ≤ 24 * 60 * 60000)%Z ∧ exit o = 0%Z
  ∧ ∃ t w1, now clock w = (w1, Ok t) ∧ contents w' !! AbsolutePath.value p = Some (lease (t + d))
  ∧ ∀ v v1 info t' v2, contents v !! AbsolutePath.value p = Some (lease (t + d)) →
      stat_ files p v = (v1, Ok info) → oversized JsonPauseState.MAX_PAUSE_BYTES info = false → 
      (∃ u, read_ files p v1 = (u, Ok (contents v1 !! AbsolutePath.value p)) ∧ now clock u = (v2, Ok t')) →
      JsonPauseState.read files clock p v
      = (v2, Ok (if (t' <? t + d)%Z then pause_active (t + d) else pause_expired (t + d))).
Proof.
  intros Hp Hd Hclock Haudit. unfold execute. intros E Hr1 Hr2. rewrite Hr1, Hr2 in E. cbn [orb] in E. unfold pause in E. rewrite Hp in E.
  split; [exact (duration_bounds raw d Hd)|].
  apply mseq_Ok in E as (wa & q & Ea & E). apply mok_Ok in Ea as [-> ->]. rewrite Hd in E.
  apply mseq_Ok in E as (w1 & t & Et & E). apply mseq_Ok in E as (w2 & text & Etext & E). apply mseq_Ok in E as (w3 & [] & Ew & E).
  apply mseq_Ok in E as (w4 & t2 & Et2 & E). apply mseq_Ok in E as (w5 & [] & Eau & E). apply mok_Ok in E as [-> ->].
  assert (w2 = w1) as -> by by injection Etext. split; [done|]. exists t, w1. split; [done|].
  destruct (write_law p (lease (t + d)) None w1) as [_ Hw]. rewrite Ew in Hw. specialize (Hw eq_refl). cbn [fst] in Hw.
  split.
  { pose proof (Haudit (mkEntry t2 "pause.set" [("until", DText text)]) w4) as H5. rewrite Eau in H5. cbn [fst] in H5. rewrite H5.
    pose proof (Hclock w3) as H4. rewrite Et2 in H4. cbn [fst] in H4. rewrite H4, Hw. unfold put. apply lookup_insert_eq. }
  intros v v1 info t' v2 Hv Hst Hov (u & Hru & Hnow). unfold JsonPauseState.read, mseq. rewrite Hst, Hov, Hru.
  pose proof (stat_keeps p v) as Hk. rewrite Hst in Hk. cbn [fst] in Hk. rewrite Hk, Hv, lease_read. cbn [isRecord prop JsMap.get find fst snd].
  change (JsMap.get [("until", JString (toISOString (t + d)))] "until") with (Some (JString (toISOString (t + d)))). cbn [text_of].
  rewrite Date_parse_toISOString, Hnow. done.
Qed.
End pause.

(** ** A diff shows every change *)

Section diff.
Import render.
Lemma common_head_spec b a : b = (common_head b a).1 ++ (common_head b a).2.1 ∧ a = (common_head b a).1 ++ (common_head b a).2.2
  ∧ ∀ x y l k, (common_head b a).2 = (x :: l, y :: k) → x ≠ y.
Proof.
  revert a. induction b as [|x b IH]; intros [|y a]; try done. cbn. destruct (String.eqb_spec x y) as [->|Hxy].
  - destruct (IH a) as (H1 & H2 & H3). cbn. split_and!; [by f_equal|by f_equal|done].
  - cbn. split_and!; [done..|]. by intros x' y' l k [= <- <- <- <-].
Qed.
(** The printed lines are all that differs. *)
Lemma changed_spec b a : ∃ h t, b = h ++ (changed b a).1 ++ t ∧ a = h ++ (changed b a).2 ++ t.
Proof.
  unfold changed. destruct (common_head_spec b a) as (Hb & Ha & _). set (rest := (common_head b a).2) in *.
  destruct (common_head_spec (rev rest.1) (rev rest.2)) as (H1 & H2 & _). set (back := common_head (rev rest.1) (rev rest.2)) in *.
  assert (rest.1 = rev back.2.1 ++ rev back.1) as R1 by by rewrite <-rev_app_distr, <-H1, rev_involutive.
  assert (rest.2 = rev back.2.2 ++ rev back.1) as R2 by by rewrite <-rev_app_distr, <-H2, rev_involutive.
  exists (common_head b a).1, (rev back.1). cbn [fst snd]. by rewrite <-R1, <-R2.
Qed.
End diff.

Section witness.
Import StrokeDate.
Definition quiet_log : AuditLog Contents := mkAuditLog Contents (λ _ w, (w, Ok tt)).
Definition state_dir : AbsolutePath := AbsolutePath.posix_path ["home"; "u"; ".agentkeeper"].
Definition early : Clock Contents := frozen (-59995).
Definition paused : Contents * result Printed := PauseCommand.execute MemoryFiles.files quiet_log early state_dir ["1m"] ∅.
Lemma pause_is_a_lease_witness : JsonPauseState.read MemoryFiles.files early pause_path paused.1 = (paused.1, Ok (pause_active 5)).
Proof.
  destruct (pause_is_a_lease MemoryFiles.files quiet_log early state_dir "1m" 60000 pause_path ∅ paused.1
    (match paused.2 with Ok o => o | Err _ => mkPrinted "" "" 1 end)) as (_ & _ & t & w1 & Ht & Hl & Hr).
  - vm_compute. reflexivity.
  - reflexivity.
  - reflexivity.
  - reflexivity.
  - vm_compute. reflexivity.
  - reflexivity.
  - reflexivity.
  - injection Ht as _ <-. apply (Hr paused.1 paused.1 (stat_of (Some (PauseCommand.lease 5))) (-59995)%Z paused.1 Hl).
    + vm_compute. reflexivity.
    + vm_compute. reflexivity.
    + exists paused.1. split; reflexivity.
Defined.
End witness.
